(* ===== verification/_CoqProject ===== *)
-Q . S2P
Prelude.v
RustIo.v
RustStr.v
PayloadProtocol.v
StreamBuffer.v
VmnetStream.v
NetworkPolicy.v
L2Gateway.v
DnsProxy.v
TcpGateway.v
FsPath.v
HostOps.v
Manifest.v
Namespace.v
ComposedFs.v
Smoltcp.v
GuestTcp.v
VmnetGateway.v
HostIngress.v
TlsMitm.v
HttpRequest.v
TcpProxy.v
VmnetServiceIo.v
VmnetRuntime.v
PayloadMessages.v
GuestService.v
PayloadClient.v
PayloadSession.v
Frontend.v
RuntimeManifest.v
Supervisor.v
Launch.v
CliText.v
GuestCli.v
Config.v
Appliance.v
LaunchCli.v
TlsBootstrap.v
Wrapper.v
ProjectLock.v
LaunchRun.v
Tui.v
DockerProxy.v
WrapperLaunch.v
Commands.v
LaunchSetup.v
