(* ===== verification/Prelude.v ===== *)
(** * Verification of the agentvm sandbox wrapper

    agentvm runs a program in a virtual machine and gives it a filesystem
    composed from directories of the host and a network that passes through a
    policy. The trusted parts run on the host and read what an untrusted guest
    sends: frames of the payload protocol, Ethernet frames from QEMU, and FUSE
    requests. This development models those parts and shows that they are total
    on every input of the guest, and do what the policy says; and it models how a
    launch is put together from arguments and a project's configuration, what it
    writes and starts, and that it ends.

    ** Files

    - Prelude: results, panics ([exec]), byte lists, big-endian numbers, slices,
      tactics and the hint database [agentvm].
    - RustIo, RustStr: [std::io] and [str] as the program uses them.
    - PayloadProtocol: src/payload-protocol/src/lib.rs. The decoder computes
      exactly the relation [parses], however the stream is fragmented; round
      trips; bounds of its buffer.
    - StreamBuffer: src/vm-frontend/src/stream_buffer.rs. Pending buffers keep
      their limit; best-effort writes lose no byte.
    - VmnetStream: src/vm-frontend/src/vmnet_stream.rs. The blocking,
      non-blocking and async readers of QEMU's frames refine one specification.
    - NetworkPolicy: src/vm-frontend/src/network_policy.rs and [GuestNetwork] of
      lib.rs. What the default policy and the command line give.
    - L2Gateway: src/vm-frontend/src/l2_gateway.rs. ARP and DHCP, total on every
      frame, and answered exactly on the frames described by [answers_arp] and
      [answers_dhcp], which do not mention the parser; the DHCP exchange; checksums.
    - DnsProxy: src/vm-frontend/src/dns_proxy.rs. The upstream is consulted for
      allowed domains only; allowlist entries match whole labels.
    - TcpGateway, HttpRequest: src/vm-frontend/src/tcp_gateway.rs. The decision
      table; private addresses are unreachable under the default ranges; the
      summary of an HTTP request.
    - Smoltcp: the interfaces of smoltcp's packets, sockets and polling that the
      program uses, with their laws and a small stack for the witnesses.
    - GuestTcp: src/vm-frontend/src/guest_tcp.rs. The sockets with their slots;
      every handle the adapter gives out is in the set, at every point of a
      history.
    - VmnetGateway: src/vm-frontend/src/vmnet_gateway.rs. The dispatch of guest
      frames is total, resets the connections the policy denies and asks the
      resolver only for names it allows. Packets with IPv4 options or padding pass
      this filter ([options_pass_filter]); the proxy asks the policy again.
    - HostIngress: src/vm-frontend/src/host_ingress.rs. Connections of the host to
      ports of the guest: bytes are conserved, buffers keep their limits; two
      theorems exhibit defects in how closed sessions are dropped.
    - TlsMitm: src/vm-frontend/src/tls_mitm.rs. TLS sessions over an interface of
      rustls, the certificates and their cache.
    - TcpProxy: src/vm-frontend/src/tcp_proxy.rs. Only allowed connections are
      opened; bytes are conserved in both directions ([ledger], [flow_since]), in
      order but for the plaintext an intercepted HTTPS session sends upstream;
      three theorems exhibit defects.
    - VmnetServiceIo: src/vm-frontend/src/vmnet_service_io.rs. Requests that are
      handed to a task and their completions, over an interface of bounded
      channels: together they refine a queue, until a full channel ends the task.
    - VmnetRuntime: src/vm-frontend/src/vmnet_runtime.rs. The owner loop that
      composes the network: its select as a relation, a round as a function, the
      tasks interleaved at will. The invariant [rt_ok] of its histories puts the
      theorems of the parts together; when the loop panics and what it does when
      a task has ended are stated exactly; the wait for descriptors is fair as long as no
      call of it fails, which ends the loop.
    - PayloadMessages: the JSON messages of src/payload-protocol/src/lib.rs, over
      an interface of serde_json, and [payload_event_from_frame].
    - GuestService: src/guest-service/src/lib.rs. The agent in the guest: the
      primary session as a step relation, diagnostics with their output limit,
      admission of payloads, how the child gives up its privileges, the bridge to
      the Docker socket between connections that start with nothing received or
      sent.
    - PayloadClient: src/vm-frontend/src/payload_client.rs. The host's side of a
      session: its reader, writer and signal tasks, and the diagnostic exchange.
    - PayloadSession: the two sides composed over a bounded wire. What the child
      writes is what the client prints, in order; one theorem exhibits that the
      two can wait for each other.
    - FsPath: the path functions of src/composed-fs/src/lib.rs.
    - HostOps: src/composed-fs/src/host_ops.rs. Calls of the host kernel are
      recorded values; [runs] and [calls] are the logic of what code may call.
    - Manifest: src/composed-fs/src/manifest.rs. The shape check.
    - Namespace: src/composed-fs/src/namespace.rs and state.rs. The invariant
      [wf] of the inode tables, established by [from_manifest].
    - ComposedFs: src/composed-fs/src/lib.rs. Every handler, [handle_request] and
      sessions ([serve]). One proof over the step logic [steps], with the
      parameter [ro], gives both that sessions are total and confined, and that
      read-only mounts are not changed. Also: refused requests, locks, directory
      pages, filtered names, which live beneath the shadow root of their mount
      ([in_shadow]), and two theorems that exhibit defects: [open] on a
      read-only mount passes on [O_CREAT], and filtered names can make a
      directory seem to end early.
    - Frontend: src/vm-frontend/src/lib.rs and the configuration of
      src/composed-fs/src/server.rs. The paths, the QEMU command line, which QEMU,
      an interface with the laws of its manual, reads as the configuration, and the
      plan of the tasks.
    - RuntimeManifest: src/vm-frontend/src/runtime_manifest.rs. The manifests a
      launch writes, and when the composed filesystem accepts them.
    - Supervisor: src/vm-frontend/src/supervisor.rs and supervisor_control.rs. The
      statuses in watch channels, the control protocol on both sides, and the
      subscription.
    - Launch: src/vm-frontend/src/launch.rs. The start of the services and of QEMU,
      and the life of QEMU among them as a step relation: nothing is left running,
      unless a call on the child fails or a monitor panics ([lc_faults]).
    - CliText, GuestCli: the helpers of src/vm-frontend/src/cli_main.rs (numbers,
      paths, quoting, scripts), and src/guest-service/src/main.rs.
    - Config: src/vm-frontend/src/config.rs. The configuration of a project, its
      migrations, and that it is read back as it was written.
    - Appliance: src/vm-frontend/src/appliance.rs. The check that the sources of
      the appliance have not changed.
    - LaunchCli: the arguments of src/vm-frontend/src/launch_cli.rs, and the
      mounts, environment and policy derived from them.
    - TlsBootstrap: src/vm-frontend/src/tls_bootstrap.rs. The certificate authority
      of a project and its files.
    - Wrapper: the arguments of src/vm-frontend/src/wrapper.rs. The shadows of a
      configuration, one for one, are directories below the project; one theorem
      exhibits that an allowlist without entries opens the network.
    - ProjectLock: the lock of launch_cli.rs among processes. Launches exclude each
      other, that is hold the lock one at a time; one theorem exhibits that a reset
      breaks this.
    - LaunchRun: the run of a launch with a payload of launch_cli.rs, and
      src/vm-frontend/src/payload_cli.rs.
    - Tui: src/vm-frontend/src/tui.rs. The editor of the configuration, the keys for
      the guest, the prompt and the status line.
    - DockerProxy: src/vm-frontend/src/docker_proxy.rs. The serving loop with its
      permits as a step relation, and the abort of its clients when it ends.
    - WrapperLaunch: prepare_wrapper_launch of wrapper.rs, which composes Wrapper,
      Config, Tui and TlsBootstrap: what the editor returns for its keys the next launch reads.
    - LaunchSetup: what launch_cli.rs starts the frontend with. Joined with
      WrapperLaunch it shows that [--no-net] holds from the command line to the
      policy the gateway is started with.
    - Commands: the commands of cli_main.rs and src/vm-frontend/src/vmnet_cli.rs. The
      gateway that runs by itself has the policy of a launch with the same options;
      the control command finds the socket of the launch.

    PayloadProtocol, StreamBuffer and VmnetStream stand on RustIo. NetworkPolicy
    is used by DnsProxy and TcpGateway. VmnetGateway uses L2Gateway, DnsProxy,
    TcpGateway and GuestTcp, which stands on Smoltcp; TcpProxy and HostIngress
    act on sessions of the gateway; VmnetRuntime composes them with VmnetStream
    and VmnetServiceIo. PayloadSession composes GuestService and PayloadClient,
    which stand on PayloadMessages. ComposedFs uses Namespace, which uses HostOps,
    Manifest and FsPath. RuntimeManifest is proved against Manifest, whose checks
    its files have to pass. Launch stands on Frontend, RuntimeManifest and
    Supervisor; LaunchCli gives it its mounts and policy, and Wrapper and Commands
    give LaunchCli its request.

    ** Conventions

    Integers are [Z] with the source's saturation and casts written out. Code
    that can panic returns [exec]; fallible code returns [result], and an I/O
    error is a value, with the messages of the source but without the values they
    interpolate. Handlers of the filesystem are functions over a state that holds
    the host, the calls made, the namespace, the handles and the locks; an error
    keeps the effects made before it. Third-party code is a class or a parameter
    with its documented laws: QEMU's reading of its command line, hickory_proto,
    ipnet, serde_json, smoltcp, rustls,
    rcgen, httparse, shlex, sha2, vt100, tokio's channels, sockets, files, the
    kernel and the clocks. What clap makes of the arguments is a record of the
    values by their ids, and a JSON value is an abstract type with accessors.
    Watch channels and locked files are state of a step relation. Paths are
    strings, compared by components where the source compares paths.
    Constants of libc are those of x86-64 Linux. Text of events and log lines is
    left out: an event is a value.

    ** Fuel and bounds

    Loops that are not structural take fuel, and running out of it is a panic, so
    a theorem that a function returns shows that the fuel is enough.
    [lock_wait_loop] has 52: a wait of 250 ms in steps of 5 ms makes at most 51
    retries. The frame readers have one step per byte of the largest frame and
    its header; the decoder, the options of DHCP and the pending writes one step
    per byte of their input; the loops that drain a socket or a TLS connection
    one step per byte that is waiting, and the loop that accepts connections one
    per connection of its limit; the reader of a control message one per byte of
    the largest message. A wait that polls takes the list of what its polls
    give, and returns nothing while the list is too short: its termination is
    stated for lists that reach the deadline. The runtime assumes that the [2^64] tokens of
    its requests do not run out. The sessions of ComposedFs assume that the inode
    numbers do not run out: one for each request, and twice the budget for a
    directory page.

    ** Not modelled

    Concurrency in the filesystem: one request is handled at a time, as under the
    namespace lock, and locks are not poisoned. A snapshot of the supervisor is
    taken in one step, where the code reads its channels one after the other.
    (The network has one owner; its
    service tasks are interleaved with it.) Closing of descriptors is not
    recorded. What the kernel does with a call is not described: the theorems
    bound the calls made. In [confined], calls through [/proc/self/fd] paths and
    absolute paths of file mounts are unrestricted, and [mutates] does not follow
    descriptors to mounts. Of the modelled files these parts are left out because
    they are input and output around a library: binding, accepting and connecting
    sockets, the packet capture of the frame stream, the choice of the default
    resolver, the builders of rustls configurations, drawing in the terminal, the
    copy between the two sockets of a Docker client, the tracing subscriber, the
    declaration of the arguments to clap, and the text of log lines and traces. Of
    launch_cli.rs the answers of the HTTP server of a smoke test are left out, of
    tui.rs the session of the viewport, whose parts are in PayloadClient; of
    launch.rs the tasks that run the services, which are steps taken at will, and
    run_qemu_process_async, which has no services; of the service tasks
    [shutdown], which the runtime never calls. Functions that only tests use, the
    self test, the tests and the fuzzing harness are not part of the program that
    runs. The scripts that build the appliance and the init of the guest are shell
    around external tools, and virtiofsd is third-party code. *)

From stdpp Require Import base option list numbers strings.
From Stdlib Require Import ZArith Lia.
From Stdlib Require Strings.Byte.

Declare Scope rust_scope.
Delimit Scope rust_scope with rust.
Open Scope rust_scope.
Open Scope Z_scope.

(** * Proof automation of the development *)

Create HintDb agentvm.

(** Turns boolean tests of the source into propositions. *)
Ltac b2p :=
  repeat match goal with
  | H : andb _ _ = true |- _ => apply andb_true_iff in H; destruct H
  | H : orb _ _ = false |- _ => apply orb_false_iff in H; destruct H
  | H : negb _ = true |- _ => apply negb_true_iff in H
  | H : negb _ = false |- _ => apply negb_false_iff in H
  | H : Z.ltb _ _ = true |- _ => apply Z.ltb_lt in H
  | H : Z.ltb _ _ = false |- _ => apply Z.ltb_ge in H
  | H : Z.leb _ _ = true |- _ => apply Z.leb_le in H
  | H : Z.leb _ _ = false |- _ => apply Z.leb_gt in H
  | H : Z.gtb _ _ = _ |- _ => rewrite Z.gtb_ltb in H
  | H : Z.geb _ _ = _ |- _ => rewrite Z.geb_leb in H
  | H : Z.eqb _ _ = true |- _ => apply Z.eqb_eq in H
  | H : Z.eqb _ _ = false |- _ => apply Z.eqb_neq in H
  | H : bool_decide _ = true |- _ => apply bool_decide_eq_true_1 in H
  | H : bool_decide _ = false |- _ => apply bool_decide_eq_false_1 in H
  end.

(** Case analysis on the test the goal is blocked on, with the test turned
    into a proposition. *)
Ltac case_test :=
  match goal with
  | |- context [ if ?b then _ else _ ] =>
      match type of b with
      | bool => let E := fresh "Etest" in destruct b eqn:E; b2p
      end
  end.

(** * Rust results and panics *)

(** [Result<A, E>]. *)
Inductive result (A E : Type) : Type :=
| Ok (a : A)
| Err (e : E).
Arguments Ok {A E} a.
Arguments Err {A E} e.

(** A computation that may panic (an out-of-range index or slice, a failed
    [expect]); [exec (result A E)] is fallible code that may also panic. *)
Inductive exec (A : Type) : Type :=
| Ret (a : A)
| Panic.
Arguments Ret {A} a.
Arguments Panic {A}.

Definition exec_bind {A B} (m : exec A) (k : A -> exec B) : exec B :=
  match m with Ret a => k a | Panic => Panic end.

Definition result_bind {A B E} (m : result A E) (k : A -> result B E) : result B E :=
  match m with Ok a => k a | Err e => Err e end.

(** The [?] operator inside code that may panic. *)
Definition try_bind {A B E} (m : exec (result A E)) (k : A -> exec (result B E))
  : exec (result B E) :=
  match m with
  | Ret (Ok a) => k a
  | Ret (Err e) => Ret (Err e)
  | Panic => Panic
  end.

Notation "'let!' x ':=' m 'in' k" := (exec_bind m (fun x => k))
  (at level 200, x pattern, m at level 100, k at level 200) : rust_scope.
Notation "'let?' x ':=' m 'in' k" := (result_bind m (fun x => k))
  (at level 200, x pattern, m at level 100, k at level 200) : rust_scope.
Notation "'let!?' x ':=' m 'in' k" := (try_bind m (fun x => k))
  (at level 200, x pattern, m at level 100, k at level 200) : rust_scope.

Definition map_err {A E F} (f : E -> F) (m : result A E) : result A F :=
  match m with Ok a => Ok a | Err e => Err (f e) end.

Definition ok_or {A E} (o : option A) (e : E) : result A E :=
  match o with Some a => Ok a | None => Err e end.

(** [holds m Q]: [m] does not panic and its value satisfies [Q]. *)
Definition holds {A} (m : exec A) (Q : A -> Prop) : Prop :=
  match m with Ret a => Q a | Panic => False end.

Lemma holds_bind {A B} (m : exec A) (k : A -> exec B) (Q : B -> Prop) :
  holds m (fun a => holds (k a) Q) -> holds (exec_bind m k) Q.
Proof. by destruct m. Qed.

Lemma holds_mono {A} (m : exec A) (P Q : A -> Prop) :
  holds m P -> (forall a, P a -> Q a) -> holds m Q.
Proof. destruct m; simpl; eauto. Qed.

Lemma holds_no_panic {A} (m : exec A) (Q : A -> Prop) : holds m Q -> m <> Panic.
Proof. by destruct m. Qed.

Lemma holds_ret {A} (m : exec A) (Q : A -> Prop) :
  holds m Q <-> exists a, m = Ret a /\ Q a.
Proof.
  destruct m; simpl; split; [eauto | by intros (? & [= ->] & ?) | done | by intros (? & ? & ?)].
Qed.

(** A closed computation that returns, by evaluation of a boolean. *)
Definition returns {A} (m : exec A) : bool := match m with Ret _ => true | Panic => false end.

Lemma returns_inv {A} (m : exec A) : returns m = true -> exists a, m = Ret a.
Proof. destruct m; [eauto|done]. Qed.

Definition returns_ok {A E} (m : exec (result A E)) : bool :=
  match m with Ret (Ok _) => true | _ => false end.

Lemma returns_ok_inv {A E} (m : exec (result A E)) :
  returns_ok m = true -> exists a, m = Ret (Ok a).
Proof. destruct m as [[]|]; [eauto|done..]. Qed.

(** * Machine integers *)

Definition u8_max : Z := 2 ^ 8 - 1.
Definition u16_max : Z := 2 ^ 16 - 1.
Definition u32_max : Z := 2 ^ 32 - 1.
Definition u64_max : Z := 2 ^ 64 - 1.
Definition i64_max : Z := 2 ^ 63 - 1.
(** The targets of the program are 64-bit: [usize] is [u64]. *)
Definition usize_max : Z := u64_max.

Definition wrap8 (z : Z) : Z := z mod 2 ^ 8.
Definition wrap16 (z : Z) : Z := z mod 2 ^ 16.
Definition wrap32 (z : Z) : Z := z mod 2 ^ 32.
Definition wrap64 (z : Z) : Z := z mod 2 ^ 64.

Definition saturating_add (max a b : Z) : Z := Z.min max (a + b).
Definition saturating_sub (a b : Z) : Z := Z.max 0 (a - b).

(** * Bytes *)

Notation byte := Init.Byte.byte.

#[global] Instance byte_eq_dec : EqDecision byte := Byte.byte_eq_dec.

Definition u8 (b : byte) : Z := Z.of_N (Byte.to_N b).

Definition byte_of_Z (z : Z) : byte :=
  default Byte.x00 (Byte.of_N (Z.to_N (wrap8 z))).

Lemma u8_range b : 0 <= u8 b < 256.
Proof. unfold u8. pose proof (Byte.to_N_bounded b). lia. Qed.

Lemma wrap8_range z : 0 <= wrap8 z < 256.
Proof. apply Z.mod_pos_bound. lia. Qed.

Lemma u8_byte_of_Z z : u8 (byte_of_Z z) = wrap8 z.
Proof.
  unfold u8, byte_of_Z. pose proof (wrap8_range z) as R.
  destruct (Byte.of_N (Z.to_N (wrap8 z))) as [b|] eqn:E; simpl.
  - apply Byte.to_of_N in E. rewrite E. lia.
  - apply Byte.of_N_None_iff in E. lia.
Qed.

Lemma u8_inj b1 b2 : u8 b1 = u8 b2 -> b1 = b2.
Proof.
  unfold u8. intros H%N2Z.inj.
  pose proof (Byte.of_to_N b1). pose proof (Byte.of_to_N b2). congruence.
Qed.

Lemma byte_of_Z_u8 b : byte_of_Z (u8 b) = b.
Proof.
  apply u8_inj. rewrite u8_byte_of_Z. apply Z.mod_small, u8_range.
Qed.

(** Big-endian encodings: [to_be_bytes] and [from_be_bytes]. *)
Definition to_be16 (z : Z) : list byte := [byte_of_Z (z / 2 ^ 8); byte_of_Z z].
Definition from_be16 (a b : byte) : Z := u8 a * 2 ^ 8 + u8 b.
Definition to_be32 (z : Z) : list byte :=
  [byte_of_Z (z / 2 ^ 24); byte_of_Z (z / 2 ^ 16); byte_of_Z (z / 2 ^ 8); byte_of_Z z].
Definition from_be32 (a b c d : byte) : Z :=
  u8 a * 2 ^ 24 + u8 b * 2 ^ 16 + u8 c * 2 ^ 8 + u8 d.

Ltac solve_divmod := Z.div_mod_to_equations; lia.

Lemma from_to_be16 z :
  0 <= z < 2 ^ 16 -> from_be16 (byte_of_Z (z / 2 ^ 8)) (byte_of_Z z) = z.
Proof. intros. unfold from_be16. rewrite !u8_byte_of_Z. unfold wrap8. solve_divmod. Qed.

Lemma from_to_be32 z :
  0 <= z < 2 ^ 32 ->
  from_be32 (byte_of_Z (z / 2 ^ 24)) (byte_of_Z (z / 2 ^ 16))
            (byte_of_Z (z / 2 ^ 8)) (byte_of_Z z) = z.
Proof. intros. unfold from_be32. rewrite !u8_byte_of_Z. unfold wrap8. solve_divmod. Qed.

Lemma from_be16_range a b : 0 <= from_be16 a b < 2 ^ 16.
Proof. unfold from_be16. pose proof (u8_range a). pose proof (u8_range b). lia. Qed.

Lemma from_be32_range a b c d : 0 <= from_be32 a b c d < 2 ^ 32.
Proof.
  unfold from_be32. pose proof (u8_range a). pose proof (u8_range b).
  pose proof (u8_range c). pose proof (u8_range d). lia.
Qed.

Lemma to_from_be16 a b : to_be16 (from_be16 a b) = [a; b].
Proof.
  unfold to_be16, from_be16. pose proof (u8_range a). pose proof (u8_range b).
  repeat f_equal; apply u8_inj; rewrite u8_byte_of_Z; unfold wrap8; solve_divmod.
Qed.

Lemma to_from_be32 a b c d : to_be32 (from_be32 a b c d) = [a; b; c; d].
Proof.
  unfold to_be32, from_be32. pose proof (u8_range a). pose proof (u8_range b).
  pose proof (u8_range c). pose proof (u8_range d).
  repeat f_equal; apply u8_inj; rewrite u8_byte_of_Z; unfold wrap8; solve_divmod.
Qed.

(** * Slices *)

(** [len()] as an unbounded integer: the lengths of live slices always fit. *)
Definition len {A} (l : list A) : Z := Z.of_nat (length l).

Definition zdrop {A} (n : Z) (l : list A) : list A := drop (Z.to_nat n) l.
Definition ztake {A} (n : Z) (l : list A) : list A := take (Z.to_nat n) l.

(** [l[i]], which panics out of range. *)
Definition idx {A} (l : list A) (i : Z) : exec A :=
  match l !! Z.to_nat i with Some a => Ret a | None => Panic end.

(** [&l[i..j]], which panics unless [i <= j <= l.len()]. *)
Definition slice {A} (l : list A) (i j : Z) : exec (list A) :=
  if (i <=? j) && (j <=? len l) then Ret (ztake (j - i) (zdrop i l)) else Panic.

(** [l[i] = a], which panics out of range. *)
Definition set_idx {A} (l : list A) (i : Z) (a : A) : exec (list A) :=
  if (0 <=? i) && (i <? len l) then Ret (<[Z.to_nat i := a]> l) else Panic.

(** [l[i..j].copy_from_slice(src)], which panics unless the range is valid and
    as long as [src]. *)
Definition copy_from_slice {A} (l : list A) (i j : Z) (src : list A) : exec (list A) :=
  if (0 <=? i) && (i <=? j) && (j <=? len l) && (len src =? j - i)
  then Ret (ztake i l ++ src ++ zdrop j l) else Panic.

(** [slice.try_into::<[T; n]>().ok()]. *)
Definition try_into {A} (n : Z) (l : list A) : option (list A) :=
  if len l =? n then Some l else None.

Lemma len_nonneg {A} (l : list A) : 0 <= len l.
Proof. unfold len. lia. Qed.

Lemma len_app {A} (l1 l2 : list A) : len (l1 ++ l2) = len l1 + len l2.
Proof. unfold len. rewrite length_app. lia. Qed.

Lemma len_cons {A} (a : A) l : len (a :: l) = 1 + len l.
Proof. unfold len. simpl. lia. Qed.

Lemma len_nil {A} : len (@nil A) = 0.
Proof. done. Qed.

Lemma len_zero {A} (l : list A) : len l = 0 -> l = [].
Proof. destruct l; [done|]. rewrite len_cons. pose proof (len_nonneg l). lia. Qed.

Lemma len_zdrop {A} n (l : list A) : 0 <= n -> len (zdrop n l) = Z.max 0 (len l - n).
Proof. unfold len, zdrop. rewrite length_drop. lia. Qed.

Lemma len_ztake {A} n (l : list A) : 0 <= n -> len (ztake n l) = Z.min n (len l).
Proof. unfold len, ztake. rewrite length_take. lia. Qed.

Lemma ztake_zdrop {A} n (l : list A) : ztake n l ++ zdrop n l = l.
Proof. apply take_drop. Qed.

Lemma zdrop_app_exact {A} n (l1 l2 : list A) : n = len l1 -> zdrop n (l1 ++ l2) = l2.
Proof. intros ->. unfold zdrop, len. rewrite Nat2Z.id. apply drop_app_length. Qed.

Lemma ztake_app_exact {A} n (l1 l2 : list A) : n = len l1 -> ztake n (l1 ++ l2) = l1.
Proof. intros ->. unfold ztake, len. rewrite Nat2Z.id. apply take_app_length. Qed.

Lemma ztake_all {A} n (l : list A) : len l <= n -> ztake n l = l.
Proof. intros. unfold ztake, len in *. apply take_ge. lia. Qed.

Lemma ztake_app_le {A} n (l1 l2 : list A) : n <= len l1 -> ztake n (l1 ++ l2) = ztake n l1.
Proof. intros. unfold ztake, len in *. apply take_app_le. lia. Qed.

Lemma ztake_app_ge {A} n (l1 l2 : list A) :
  len l1 <= n -> ztake n (l1 ++ l2) = l1 ++ ztake (n - len l1) l2.
Proof. unfold ztake, len. intros. rewrite take_app_ge by lia. by rewrite Z2Nat.inj_sub, Nat2Z.id by lia. Qed.

Lemma zdrop_app_le {A} n (l1 l2 : list A) : n <= len l1 -> zdrop n (l1 ++ l2) = zdrop n l1 ++ l2.
Proof. intros. unfold zdrop, len in *. apply drop_app_le. lia. Qed.

Lemma holds_idx {A} (l : list A) i (Q : A -> Prop) :
  0 <= i < len l -> (forall a, l !! Z.to_nat i = Some a -> Q a) -> holds (idx l i) Q.
Proof.
  intros Hi HQ. unfold idx. destruct (l !! Z.to_nat i) eqn:E; simpl; [auto|].
  apply lookup_ge_None in E. unfold len in Hi. lia.
Qed.

Lemma holds_slice {A} (l : list A) i j (Q : list A -> Prop) :
  0 <= i -> i <= j -> j <= len l ->
  (len (ztake (j - i) (zdrop i l)) = j - i -> Q (ztake (j - i) (zdrop i l))) ->
  holds (slice l i j) Q.
Proof.
  intros Hi Hij Hj HQ. unfold slice.
  rewrite (proj2 (Z.leb_le i j)), (proj2 (Z.leb_le j (len l))) by lia. simpl.
  apply HQ. rewrite len_ztake, len_zdrop by lia. lia.
Qed.

Lemma slice_ret {A} (l : list A) i j :
  0 <= i -> i <= j -> j <= len l -> exists x, slice l i j = Ret x /\ len x = j - i.
Proof. intros. apply holds_ret, holds_slice; auto. Qed.

Lemma slice_mid {A} (a x b : list A) i j :
  i = len a -> j = i + len x -> slice (a ++ x ++ b) i j = Ret x.
Proof.
  intros -> ->. unfold slice. rewrite !len_app.
  pose proof (len_nonneg x). pose proof (len_nonneg b).
  rewrite !(proj2 (Z.leb_le _ _)) by lia. cbn [andb].
  rewrite zdrop_app_exact by done. by rewrite ztake_app_exact by lia.
Qed.

Lemma slice_tail {A} (a x : list A) i j :
  i = len a -> j = len a + len x -> slice (a ++ x) i j = Ret x.
Proof.
  intros -> ->. rewrite <- (right_id_L [] (++) x) at 1. by apply slice_mid.
Qed.

Lemma slice_from {A} (l : list A) i : 0 <= i <= len l -> slice l i (len l) = Ret (zdrop i l).
Proof.
  intros Hi. rewrite <- (ztake_zdrop i l) at 1. apply slice_tail; [|rewrite <- len_app, ztake_zdrop];
    rewrite ?len_ztake; lia.
Qed.

Lemma idx_app_l {A} (l k : list A) i b : idx l i = Ret b -> idx (l ++ k) i = Ret b.
Proof.
  unfold idx. destruct (l !! Z.to_nat i) eqn:E; [|done]. by rewrite (lookup_app_l_Some _ _ _ _ E).
Qed.

Lemma split_at {A} n (l : list A) :
  0 <= n <= len l -> exists a b, l = a ++ b /\ len a = n.
Proof.
  intros Hn. exists (ztake n l), (zdrop n l). rewrite ztake_zdrop, len_ztake by lia.
  split; [done|lia].
Qed.

(** Evaluates the accesses to explicit lists that the goal is blocked on. *)
Ltac exec_eval :=
  repeat (match goal with
  | |- context [exec_bind (idx ?l ?i) _] =>
      let r := eval vm_compute in (idx l i) in
      lazymatch r with Ret _ => change (idx l i) with r end
  | |- context [exec_bind (slice ?l ?i ?j) _] =>
      let r := eval vm_compute in (slice l i j) in
      lazymatch r with Ret _ => change (slice l i j) with r end
  end; cbn [exec_bind]).

(** ** Numbers as texts of binary digits

    An encoding for the witnesses of code that stores or sends data as text. *)
Fixpoint binary (p : positive) : list byte :=
  match p with xH => [] | xO p => Byte.x30 :: binary p | xI p => Byte.x31 :: binary p end.

Fixpoint unbinary (bs : list byte) : positive :=
  match bs with
  | [] => xH
  | b :: bs => if bool_decide (b = Byte.x30) then xO (unbinary bs) else xI (unbinary bs)
  end.

Lemma unbinary_binary p : unbinary (binary p) = p.
Proof. induction p as [p IH|p IH|]; cbn; [by rewrite IH|by rewrite IH|done]. Qed.

Lemma binary_digits p b : b ∈ binary p -> b = Byte.x30 \/ b = Byte.x31.
Proof.
  induction p as [p IH|p IH|]; cbn; [..|by intros ?%elem_of_nil]; intros [->|Hin]%elem_of_cons; auto.
Qed.
