(* ===== verification/RustIo.v ===== *)
(** Input and output as the program sees it: [std::io::Error] and the [Read]
    and [Write] traits. The implementations behind the traits (sockets, files)
    are parameters; what the program relies on is stated as laws over ghost
    histories of the bytes that crossed the interface. *)

From stdpp Require Import base option list numbers strings.
From Stdlib Require Import ZArith Lia.
From S2P Require Import Prelude.

Inductive ErrorKind :=
| NotFound | WouldBlock | TimedOut | Interrupted | InvalidInput | UnexpectedEof
| WriteZero | OtherKind.

#[global] Instance ErrorKind_eq_dec : EqDecision ErrorKind.
Proof. solve_decision. Defined.

Inductive io_error :=
| OsError (code : Z)
| CustomError (kind : ErrorKind) (message : string).

#[global] Instance io_error_eq_dec : EqDecision io_error.
Proof. solve_decision. Defined.

(** Linux error numbers the program names. *)
Definition EPERM : Z := 1.
Definition ENOENT : Z := 2.
Definition EBADF : Z := 9.
Definition EAGAIN : Z := 11.
Definition EACCES : Z := 13.
Definition EXDEV : Z := 18.
Definition ENOTDIR : Z := 20.
Definition EISDIR : Z := 21.
Definition EINVAL : Z := 22.
Definition EROFS : Z := 30.
Definition ENOSYS : Z := 38.
Definition EOPNOTSUPP : Z := 95.
Definition ESTALE : Z := 116.

Definition raw_os_error (e : io_error) : option Z :=
  match e with OsError c => Some c | CustomError _ _ => None end.

(** [io::Error::kind], for the error numbers the program tells apart. *)
Definition error_kind (e : io_error) : ErrorKind :=
  match e with
  | CustomError k _ => k
  | OsError c =>
      if c =? ENOENT then NotFound
      else if c =? EAGAIN then WouldBlock
      else if c =? 110 then TimedOut
      else if c =? 4 then Interrupted
      else if c =? EINVAL then InvalidInput
      else OtherKind
  end.

Definition io_result (A : Type) : Type := result A io_error.

(** [Read::read] into a buffer of [n] bytes and [Write::write]; both may
    transfer fewer bytes than asked for. *)
Class Read (R : Type) := read : R -> Z -> io_result (list byte) * R.
Class Write (W : Type) := {
  write : W -> list byte -> io_result Z * W;
  write_all : W -> list byte -> io_result unit * W
}.

(** [received r] is every byte [r] has returned so far. *)
Class ReadLaws (R : Type) `{Read R} (received : R -> list byte) := {
  read_ok r n bs r' : 0 <= n -> read r n = (Ok bs, r') ->
    len bs <= n /\ received r' = received r ++ bs;
  read_err r n e r' : read r n = (Err e, r') -> received r' = received r
}.

(** [sent w] is every byte [w] has accepted so far. *)
Class WriteLaws (W : Type) `{Write W} (sent : W -> list byte) := {
  write_ok w bs n w' : write w bs = (Ok n, w') ->
    0 <= n <= len bs /\ sent w' = sent w ++ ztake n bs;
  write_err w bs e w' : write w bs = (Err e, w') -> sent w' = sent w;
  write_all_ok w bs w' : write_all w bs = (Ok tt, w') -> sent w' = sent w ++ bs;
  write_all_err w bs e w' : write_all w bs = (Err e, w') ->
    exists n, 0 <= n <= len bs /\ sent w' = sent w ++ ztake n bs
}.

(** A connection read and written through the same object: the directions are
    independent. *)
Class DuplexLaws (C : Type) `{Read C} `{Write C} (received sent : C -> list byte) := {
  duplex_read :: ReadLaws C received;
  duplex_write :: WriteLaws C sent;
  read_keeps_sent c n r c' : read c n = (r, c') -> sent c' = sent c;
  write_keeps_received c bs r c' : write c bs = (r, c') -> received c' = received c;
  write_all_keeps_received c bs r c' : write_all c bs = (r, c') -> received c' = received c
}.

(** ** A scripted stream

    The stream of the witnesses: a list of things that happen, in order. A
    chunk longer than the buffer is handed out piecewise; when the script is
    over the peer has closed. *)

Inductive io_event := Deliver (bs : list byte) | Fault (e : io_error).

Record scripted := mkScripted { script : list io_event; history : list byte }.

#[global] Instance scripted_read : Read scripted := fun s n =>
  match script s with
  | [] => (Ok [], s)
  | Fault e :: t => (Err e, mkScripted t (history s))
  | Deliver bs :: t =>
      if len bs <=? n then (Ok bs, mkScripted t (history s ++ bs))
      else (Ok (ztake n bs),
            mkScripted (Deliver (zdrop n bs) :: t) (history s ++ ztake n bs))
  end.

#[global] Instance scripted_laws : ReadLaws scripted history.
Proof.
  split; intros s n; unfold read, scripted_read; destruct (script s) as [|[b|e] t].
  - intros bs s' Hn E. injection E as <- <-. by rewrite app_nil_r.
  - intros bs s' Hn. case_test; intros E; injection E as <- <-; [done|].
    split; [|done]. rewrite len_ztake by done. lia.
  - done.
  - done.
  - intros e s'. by case_test.
  - intros e' s' E. by injection E as <- <-.
Qed.

(** A sink that accepts at most [budget] bytes in all, then would block. *)
Record sink := mkSink { budget : Z; accepted : list byte }.

Definition sink_write (w : sink) (bs : list byte) : io_result Z * sink :=
  let n := Z.min (Z.max 0 (budget w)) (len bs) in
  if n =? 0 then (Err (OsError EAGAIN), w)
  else (Ok n, mkSink (budget w - n) (accepted w ++ ztake n bs)).

Definition sink_write_all (w : sink) (bs : list byte) : io_result unit * sink :=
  if len bs <=? budget w then (Ok tt, mkSink (budget w - len bs) (accepted w ++ bs))
  else (Err (OsError EAGAIN), w).

#[global] Instance sink_writer : Write sink :=
  {| write := sink_write; write_all := sink_write_all |}.

#[global] Instance sink_laws : WriteLaws sink accepted.
Proof.
  split; intros w bs; unfold write, write_all, sink_writer, sink_write, sink_write_all.
  - intros n w'. case_test; intros E; [done|]. injection E as <- <-.
    pose proof (len_nonneg bs). split; [lia|done].
  - intros e w'. case_test; intros E; [by injection E as <- <-|done].
  - intros w'. case_test; intros E; [by injection E as <-|done].
  - intros e w'. case_test; intros E; [done|]. injection E as <- <-. exists 0.
    pose proof (len_nonneg bs). split; [lia|]. by rewrite app_nil_r.
Qed.

(** A scripted stream one way and a sink the other way. *)
Record duplex := mkDuplex { inbound : scripted; outbound : sink }.

#[global] Instance duplex_reader : Read duplex := fun c n =>
  let '(r, i) := read (inbound c) n in (r, mkDuplex i (outbound c)).

#[global] Instance duplex_writer : Write duplex := {|
  write c bs := let '(r, o) := write (outbound c) bs in (r, mkDuplex (inbound c) o);
  write_all c bs := let '(r, o) := write_all (outbound c) bs in (r, mkDuplex (inbound c) o)
|}.

Definition duplex_received (c : duplex) : list byte := history (inbound c).
Definition duplex_sent (c : duplex) : list byte := accepted (outbound c).

#[global] Instance duplex_laws : DuplexLaws duplex duplex_received duplex_sent.
Proof.
  split; [split|split|..].
  - intros c n bs c' Hn. unfold read at 1, duplex_reader.
    destruct (read (inbound c) n) as [r i] eqn:E. intros [= -> <-].
    exact (read_ok (received := history) _ _ _ _ Hn E).
  - intros c n e c'. unfold read at 1, duplex_reader.
    destruct (read (inbound c) n) as [r i] eqn:E. intros [= -> <-].
    exact (read_err (received := history) _ _ _ _ E).
  - intros c bs n c'. cbn. destruct (sink_write (outbound c) bs) as [r o] eqn:E.
    intros [= -> <-]. exact (write_ok (sent := accepted) _ _ _ _ E).
  - intros c bs e c'. cbn. destruct (sink_write (outbound c) bs) as [r o] eqn:E.
    intros [= -> <-]. exact (write_err (sent := accepted) _ _ _ _ E).
  - intros c bs c'. cbn. destruct (sink_write_all (outbound c) bs) as [r o] eqn:E.
    intros [= -> <-]. exact (write_all_ok (sent := accepted) _ _ _ E).
  - intros c bs e c'. cbn. destruct (sink_write_all (outbound c) bs) as [r o] eqn:E.
    intros [= -> <-]. exact (write_all_err (sent := accepted) _ _ _ _ E).
  - intros c n r c'. unfold read, duplex_reader.
    destruct (read (inbound c) n) as [r' i]. by intros [= <- <-].
  - intros c bs r c'. cbn. destruct (sink_write (outbound c) bs) as [r' o]. by intros [= <- <-].
  - intros c bs r c'. cbn. destruct (sink_write_all (outbound c) bs) as [r' o]. by intros [= <- <-].
Qed.
