(* ===== verification/RustStr.v ===== *)
(** The string operations of the Rust standard library that the program uses.
    A [&str] is its UTF-8 bytes, modelled as a [string]; every operation below
    is byte-wise in Rust too, because the characters involved are ASCII. *)

From stdpp Require Import base option list numbers strings pretty.
From Stdlib Require Import ZArith Lia Ascii String.
From S2P Require Import Prelude.

Local Open Scope string_scope.
Local Open Scope Z_scope.

(** [str::len]. *)
Definition str_len (s : string) : Z := Z.of_nat (String.length s).

(** [s.split(c)]. *)
Fixpoint split_char (c : ascii) (s : string) : list string :=
  match s with
  | EmptyString => [""]
  | String a s' =>
      if decide (a = c) then "" :: split_char c s'
      else
        match split_char c s' with
        | h :: t => String a h :: t
        | [] => [String a ""]
        end
  end.

(** [s.contains(c)]. *)
Fixpoint contains_char (c : ascii) (s : string) : bool :=
  match s with
  | EmptyString => false
  | String a s' => if decide (a = c) then true else contains_char c s'
  end.

(** [parts.join(sep)]. *)
Fixpoint join (sep : string) (parts : list string) : string :=
  match parts with
  | [] => ""
  | [p] => p
  | p :: ps => p ++ sep ++ join sep ps
  end.

(** [s.starts_with(p)], [s.strip_prefix(p)]. *)
Fixpoint strip_prefix (p s : string) : option string :=
  match p, s with
  | EmptyString, _ => Some s
  | String a p', String b s' => if decide (a = b) then strip_prefix p' s' else None
  | String _ _, EmptyString => None
  end.

Definition starts_with (p s : string) : bool :=
  match strip_prefix p s with Some _ => true | None => false end.

(** [s.ends_with(p)]: some suffix of [s] is [p]. *)
Fixpoint ends_with (p s : string) : bool :=
  bool_decide (s = p) ||
  match s with EmptyString => false | String _ s' => ends_with p s' end.

(** [s.trim_end_matches(c)]. *)
Fixpoint trim_end_matches (c : ascii) (s : string) : string :=
  match s with
  | EmptyString => ""
  | String a s' =>
      match trim_end_matches c s' with
      | EmptyString => if decide (a = c) then "" else String a ""
      | t => String a t
      end
  end.

(** [u8::to_ascii_lowercase], [str::to_ascii_lowercase]. *)
Definition to_lower (a : ascii) : ascii :=
  let n := N_of_ascii a in
  if (65 <=? n)%N && (n <=? 90)%N then ascii_of_N (n + 32) else a.

Fixpoint to_ascii_lowercase (s : string) : string :=
  match s with
  | EmptyString => ""
  | String a s' => String (to_lower a) (to_ascii_lowercase s')
  end.

(** [char::to_digit]. *)
Definition to_digit (radix : Z) (a : ascii) : option Z :=
  let n := Z.of_N (N_of_ascii a) in
  let d := if (48 <=? n) && (n <=? 57) then n - 48
           else if (97 <=? n) && (n <=? 122) then n - 87
           else if (65 <=? n) && (n <=? 90) then n - 55
           else radix in
  if d <? radix then Some d else None.

Fixpoint parse_digits (radix max acc : Z) (s : string) : option Z :=
  match s with
  | EmptyString => Some acc
  | String a s' =>
      match to_digit radix a with
      | None => None
      | Some d =>
          let acc' := acc * radix + d in
          if max <? acc' then None else parse_digits radix max acc' s'
      end
  end.

(** [uN::from_str_radix]: at least one digit, an optional leading [+], and an
    error on overflow. *)
Definition from_str_radix (radix max : Z) (s : string) : option Z :=
  match s with
  | EmptyString => None
  | String a s' =>
      if decide (a = "+"%char)
      then match s' with EmptyString => None | _ => parse_digits radix max 0 s' end
      else parse_digits radix max 0 s
  end.

(** The message of the error [from_str_radix] fails with. *)
Fixpoint digits_overflow (radix max acc : Z) (s : string) : bool :=
  match s with
  | EmptyString => false
  | String a s' =>
      match to_digit radix a with
      | None => false
      | Some d =>
          let acc' := acc * radix + d in
          if max <? acc' then true else digits_overflow radix max acc' s'
      end
  end.

Definition parse_int_error (max : Z) (s : string) : string :=
  match s with
  | EmptyString => "cannot parse integer from empty string"
  | String a s' =>
      if digits_overflow 10 max 0 (if decide (a = "+"%char) then s' else s)
      then "number too large to fit in target type"
      else "invalid digit found in string"
  end.

(** [s.parse::<u8>()]. *)
Definition parse_u8 (s : string) : option Z := from_str_radix 10 u8_max s.

(** The loop [bytes[i] = part.parse::<u8>()?] over the parts of an address. *)
Fixpoint parse_u8_all (parts : list string) : option (list byte) :=
  match parts with
  | [] => Some []
  | p :: ps =>
      match parse_u8 p with
      | None => None
      | Some n => option_map (cons (byte_of_Z n)) (parse_u8_all ps)
      end
  end.

(** [s.parse::<Ipv4Addr>()]: four decimal octets of one to three digits,
    without sign and without a leading zero. *)
Definition parse_octet (s : string) : option Z :=
  match s with
  | EmptyString => None
  | String a s' =>
      if decide (a = "+"%char) then None
      else if bool_decide (a = "0"%char) && negb (bool_decide (s' = "")) then None
      else parse_digits 10 u8_max 0 s
  end.

(** [std::net::Ipv4Addr]. *)
Record Ipv4Addr := Ipv4 { oct1 : byte; oct2 : byte; oct3 : byte; oct4 : byte }.

#[global] Instance Ipv4Addr_eq_dec : EqDecision Ipv4Addr.
Proof. solve_decision. Defined.

Definition octets (ip : Ipv4Addr) : list byte := [oct1 ip; oct2 ip; oct3 ip; oct4 ip].

(** [Ipv4Addr::to_bits]. *)
Definition ip_bits (ip : Ipv4Addr) : Z := from_be32 (oct1 ip) (oct2 ip) (oct3 ip) (oct4 ip).

Definition parse_ipv4_addr (s : string) : option Ipv4Addr :=
  match split_char "." s with
  | [a; b; c; d] =>
      match parse_octet a, parse_octet b, parse_octet c, parse_octet d with
      | Some a, Some b, Some c, Some d =>
          Some (Ipv4 (byte_of_Z a) (byte_of_Z b) (byte_of_Z c) (byte_of_Z d))
      | _, _, _, _ => None
      end
  | _ => None
  end.

(** ** Printing of octets, for the round trips *)

Definition digit_char (d : Z) : ascii := ascii_of_N (Z.to_N (48 + d)).

(** [u8::to_string]. *)
Definition show_u8 (n : Z) : string :=
  if n <? 10 then String (digit_char n) ""
  else if n <? 100 then String (digit_char (n / 10)) (String (digit_char (n mod 10)) "")
  else String (digit_char (n / 100))
         (String (digit_char (n / 10 mod 10)) (String (digit_char (n mod 10)) "")).

Definition hex_char (d : Z) : ascii := ascii_of_N (Z.to_N (if d <? 10 then 48 + d else 87 + d)).

(** [format!("{:02x}", n)]. *)
Definition show_hex2 (n : Z) : string :=
  String (hex_char (n / 16)) (String (hex_char (n mod 16)) "").

Lemma parse_show_u8 b : parse_u8 (show_u8 (u8 b)) = Some (u8 b).
Proof. by destruct b. Qed.

Lemma parse_octet_show_u8 b : parse_octet (show_u8 (u8 b)) = Some (u8 b).
Proof. by destruct b. Qed.

Lemma parse_show_hex2 b : from_str_radix 16 u8_max (show_hex2 (u8 b)) = Some (u8 b).
Proof. by destruct b. Qed.

Lemma show_u8_no_dot b : contains_char "." (show_u8 (u8 b)) = false.
Proof. by destruct b. Qed.

Lemma show_hex2_no_colon b : contains_char ":" (show_hex2 (u8 b)) = false.
Proof. by destruct b. Qed.

Lemma show_hex2_len b : str_len (show_hex2 (u8 b)) = 2.
Proof. done. Qed.

(** ** Splitting and joining *)

Lemma split_char_nonempty c s : split_char c s <> [].
Proof. destruct s; simpl; [done|]. repeat case_match; done. Qed.

Lemma split_char_none c s : contains_char c s = false -> split_char c s = [s].
Proof.
  induction s as [|a s IH]; simpl; [done|]. case_decide; [done|].
  intros H1. by rewrite IH.
Qed.

Lemma split_char_app c s t :
  contains_char c s = false -> split_char c (s ++ String c t) = s :: split_char c t.
Proof.
  induction s as [|a s IH]; simpl.
  - by rewrite decide_True.
  - case_decide; [done|]. intros H1. by rewrite IH.
Qed.

(** Splitting undoes joining parts that do not contain the separator. *)
Lemma split_join c parts :
  parts <> [] -> Forall (fun p => contains_char c p = false) parts ->
  split_char c (join (String c "") parts) = parts.
Proof.
  intros Hne. induction 1 as [|p ps Hp Hps IH]; [done|].
  destruct ps as [|q qs]; [by apply split_char_none|].
  change (join (String c "") (p :: q :: qs)) with (p ++ String c (join (String c "") (q :: qs))).
  rewrite split_char_app by done. f_equal. by apply IH.
Qed.

(** Joining undoes splitting. *)
Lemma join_split c s : join (String c "") (split_char c s) = s.
Proof.
  induction s as [|a s IH]; [done|]. simpl. case_decide as Hc.
  - subst a. destruct (split_char c s) as [|h t] eqn:E; [by apply split_char_nonempty in E|].
    change (join (String c "") ("" :: h :: t)) with (String c (join (String c "") (h :: t))).
    by rewrite IH.
  - destruct (split_char c s) as [|h t] eqn:E; [by apply split_char_nonempty in E|].
    destruct t; simpl in *; by rewrite <- IH.
Qed.

Lemma split_char_parts c s : Forall (fun p => contains_char c p = false) (split_char c s).
Proof.
  induction s as [|a s IH]; simpl; [by constructor|]. case_decide as Hc; [by constructor|].
  destruct (split_char c s) as [|h t]; [by repeat constructor; simpl; rewrite decide_False|].
  inversion IH; subst. constructor; [|done]. simpl. by rewrite decide_False.
Qed.

(** ** Suffixes *)

Lemma str_cons_app a (s t : string) : String a s ++ t = String a (s ++ t).
Proof. done. Qed.

Lemma str_app_assoc (s t u : string) : (s ++ t) ++ u = s ++ (t ++ u).
Proof. induction s as [|a s IH]; [done|]. by rewrite ?str_cons_app, IH. Qed.

Lemma str_app_nil (s : string) : s ++ "" = s.
Proof. induction s as [|a s IH]; [done|]. by rewrite ?str_cons_app, IH. Qed.

Lemma split_char_sep c t u : split_char c (t ++ String c u) = (split_char c t ++ split_char c u)%list.
Proof.
  induction t as [|a t IH].
  - change ("" ++ String c u) with (String c u). cbn [split_char]. by rewrite decide_True.
  - rewrite str_cons_app. cbn [split_char]. rewrite IH. case_decide; [done|].
    by destruct (split_char c t) as [|h r] eqn:E; [apply split_char_nonempty in E|].
Qed.

Lemma join_app c xs ys : xs <> [] -> ys <> [] ->
  join (String c "") (xs ++ ys)%list = join (String c "") xs ++ String c (join (String c "") ys).
Proof.
  intros Hx Hy. induction xs as [|x [|x' xs] IH]; [done| |].
  - destruct ys; [done|]. done.
  - change (join (String c "") ((x :: x' :: xs) ++ ys)%list) with
      (x ++ String c (join (String c "") ((x' :: xs) ++ ys)%list)).
    rewrite IH by done.
    change (join (String c "") (x :: x' :: xs)) with (x ++ String c (join (String c "") (x' :: xs))).
    by rewrite str_app_assoc.
Qed.

Lemma ends_with_iff p s : ends_with p s = true <-> exists t, s = t ++ p.
Proof.
  induction s as [|a s IH]; simpl.
  - rewrite orb_false_r. split.
    + intros H%bool_decide_eq_true. by exists "".
    + intros [[] ?]; [|done]. by apply bool_decide_eq_true.
  - rewrite orb_true_iff, bool_decide_eq_true, IH. split.
    + intros [->|[t ->]]; [by exists ""|by exists (String a t)].
    + intros [[|b t] H]; [by left|right]. injection H as -> ->. by exists t.
Qed.

Lemma strip_prefix_iff p s t : strip_prefix p s = Some t <-> s = p ++ t.
Proof.
  revert s. induction p as [|a p IH]; intros s; simpl; [split; [by intros [= ->]|by intros ->]|].
  destruct s as [|b s]; [done|]. rewrite str_cons_app.
  case_decide as Hab; [rewrite IH|]; split; congruence.
Qed.

Lemma lowercase_app s t :
  to_ascii_lowercase (s ++ t) = to_ascii_lowercase s ++ to_ascii_lowercase t.
Proof.
  induction s as [|a s IH]; [done|].
  rewrite str_cons_app. cbn [to_ascii_lowercase]. by rewrite IH, str_cons_app.
Qed.

Lemma to_lower_idem a : to_lower (to_lower a) = to_lower a.
Proof. by destruct a as [[] [] [] [] [] [] [] []]. Qed.

Lemma lowercase_idem s : to_ascii_lowercase (to_ascii_lowercase s) = to_ascii_lowercase s.
Proof. induction s; simpl; [done|]. by rewrite to_lower_idem, IHs. Qed.

(** ** Printed addresses *)

(** [Ipv4Addr::to_string]. *)
Definition show_ipv4 (ip : Ipv4Addr) : string :=
  join "." (map (fun b => show_u8 (u8 b)) (octets ip)).

Lemma split_show_ipv4 ip :
  split_char "." (show_ipv4 ip) = map (fun b => show_u8 (u8 b)) (octets ip).
Proof. apply split_join; [done|]. repeat constructor; apply show_u8_no_dot. Qed.

Lemma parse_show_ipv4 ip : parse_ipv4_addr (show_ipv4 ip) = Some ip.
Proof.
  unfold parse_ipv4_addr. rewrite split_show_ipv4. cbn [map octets].
  rewrite !parse_octet_show_u8, !byte_of_Z_u8. by destruct ip.
Qed.

Lemma ip_bits_range ip : 0 <= ip_bits ip < 2 ^ 32.
Proof. apply from_be32_range. Qed.

Lemma contains_char_app c s t :
  contains_char c (s ++ t) = contains_char c s || contains_char c t.
Proof.
  induction s as [|a s IH]; [done|]. rewrite str_cons_app. cbn [contains_char].
  case_decide; [done|]. apply IH.
Qed.

Lemma contains_char_join c sep parts :
  contains_char c sep = false -> Forall (fun p => contains_char c p = false) parts ->
  contains_char c (join sep parts) = false.
Proof.
  intros Hs. induction 1 as [|p ps Hp Hps IH]; [done|]. destruct ps; [done|].
  cbn [join] in *. by rewrite !contains_char_app, Hp, Hs, IH.
Qed.

Lemma show_u8_no_slash b : contains_char "/" (show_u8 (u8 b)) = false.
Proof. by destruct b. Qed.

Lemma show_ipv4_no_slash ip : contains_char "/" (show_ipv4 ip) = false.
Proof.
  apply contains_char_join; [done|]. repeat constructor; apply show_u8_no_slash.
Qed.

(** ** Printed numbers *)

(** [usize::to_string], and [format!("{n:04}")], which fills up with zeros. *)
Definition show_usize (n : Z) : string := pretty (Z.to_N n).

Fixpoint zeros (k : nat) : string :=
  match k with O => "" | S k => String "0" (zeros k) end.

Definition show_usize_04 (n : Z) : string :=
  let s := show_usize n in zeros (4 - String.length s) ++ s.

Lemma pretty_char_digit x : (x < 10)%N -> to_digit 10 (pretty_N_char x) = Some (Z.of_N x).
Proof.
  intros Hx. assert (x = 0 \/ x = 1 \/ x = 2 \/ x = 3 \/ x = 4 \/ x = 5 \/ x = 6 \/ x = 7 \/ x = 8 \/ x = 9)%N
    as Hc by lia.
  by repeat (destruct Hc as [->|Hc]; [done|]); subst.
Qed.

Lemma parse_digits_go max x s :
  Z.of_N x <= max -> parse_digits 10 max 0 (pretty_N_go x s) = parse_digits 10 max (Z.of_N x) s.
Proof.
  revert s. induction (N.lt_wf_0 x) as [x _ IH]; intros s Hm.
  destruct (decide (x = 0)%N) as [->|Hx]; [done|].
  rewrite pretty_N_go_step by lia.
  pose proof (N.div_mod x 10 ltac:(lia)) as Hd. pose proof (N.mod_lt x 10 ltac:(lia)) as Hr.
  assert (x `div` 10 < x)%N as Hlt by (apply N.div_lt; lia).
  rewrite IH by lia. cbn [parse_digits].
  rewrite pretty_char_digit by done.
  replace (Z.of_N (x `div` 10) * 10 + Z.of_N (x `mod` 10)) with (Z.of_N x) by lia.
  by rewrite (proj2 (Z.ltb_ge _ _)).
Qed.

Lemma parse_digits_show max n : 0 <= n <= max -> parse_digits 10 max 0 (show_usize n) = Some n.
Proof.
  intros Hn. unfold show_usize, pretty, pretty_N. case_decide as E.
  - assert (n = 0) as -> by lia. cbn [parse_digits]. change (to_digit 10 "0") with (Some 0).
    cbv beta iota zeta. by rewrite (proj2 (Z.ltb_ge _ _)) by lia.
  - rewrite parse_digits_go by lia. cbn. f_equal. lia.
Qed.

Lemma parse_digits_zeros max k s : 0 <= max -> parse_digits 10 max 0 (zeros k ++ s) = parse_digits 10 max 0 s.
Proof.
  intros Hm. induction k as [|k IH]; [done|]. cbn [zeros]. rewrite str_cons_app. cbn [parse_digits].
  change (to_digit 10 "0") with (Some 0). cbn [parse_digits]. rewrite (proj2 (Z.ltb_ge _ _)) by lia. apply IH.
Qed.

Lemma show_usize_04_inj m n : 0 <= m -> 0 <= n -> show_usize_04 m = show_usize_04 n -> m = n.
Proof.
  intros Hm Hn E. apply (f_equal (parse_digits 10 (Z.max m n) 0)) in E.
  unfold show_usize_04 in E. rewrite !parse_digits_zeros, !parse_digits_show in E by lia. congruence.
Qed.

(** A character that is not a digit is not in a printed number. *)
Lemma parse_digits_contains c max acc s n :
  to_digit 10 c = None -> parse_digits 10 max acc s = Some n -> contains_char c s = false.
Proof.
  intros Hc. revert acc. induction s as [|a s IH]; intros acc; [done|]. cbn [parse_digits contains_char].
  case_decide as E; [subst; by rewrite Hc|]. destruct (to_digit 10 a); [|done]. case_test; [done|]. apply IH.
Qed.

Lemma show_usize_04_contains c n : to_digit 10 c = None -> 0 <= n -> contains_char c (show_usize_04 n) = false.
Proof.
  intros Hc Hn. eapply (parse_digits_contains c n 0 _ n Hc).
  unfold show_usize_04. rewrite parse_digits_zeros by done. by apply parse_digits_show.
Qed.
