(* ===== verification/PayloadProtocol.v ===== *)
(** The payload frame protocol shared by the frontend and the guest service
    (src/payload-protocol/src/lib.rs): frame kinds, the five-byte header, the
    incremental decoder and the blocking read and write of one frame.

    The decoder is refined by the relation [parses], which says that a byte
    string is a sequence of encoded frames followed by a rest; the theorems
    below show that [push] computes exactly that relation whatever the way the
    transport fragments the stream. *)

From stdpp Require Import base option list numbers strings.
From Stdlib Require Import ZArith Lia.
From S2P Require Import Prelude RustStr.

Module Payload.

Definition MAX_FRAME_PAYLOAD : Z := 16 * 1024 * 1024.
Definition FRAME_HEADER_LEN : Z := 5.

Record FrameKind := mkFrameKind { kind_byte : byte }.

Definition from_byte (byte_ : byte) : FrameKind := mkFrameKind byte_.
Definition as_byte (kind : FrameKind) : byte := kind_byte kind.

#[global] Instance FrameKind_eq_dec : EqDecision FrameKind.
Proof. solve_decision. Defined.

Definition PING : FrameKind := from_byte Byte.x50.
Definition RUN_PRIMARY : FrameKind := from_byte Byte.x52.
Definition RUN_DIAGNOSTIC : FrameKind := from_byte Byte.x44.
Definition OK : FrameKind := from_byte Byte.x4b.
Definition OUTPUT : FrameKind := from_byte Byte.x4f.
Definition EXIT : FrameKind := from_byte Byte.x58.
Definition FAILURE : FrameKind := from_byte Byte.x46.
Definition INPUT : FrameKind := from_byte Byte.x49.
Definition RESIZE : FrameKind := from_byte Byte.x57.
Definition SIGNAL : FrameKind := from_byte Byte.x53.

Record Frame := mkFrame { kind : FrameKind; payload : list byte }.

Inductive FrameError :=
| PayloadTooLarge (length max : Z)
| IncompleteFrame (buffered needed : Z).

(** The messages of [Display]. *)
Definition frame_error_to_string (e : FrameError) : string :=
  match e with
  | PayloadTooLarge length max =>
      "payload frame too large: " ++ show_usize length ++ " > " ++ show_usize max
  | IncompleteFrame buffered needed =>
      "incomplete payload frame: buffered " ++ show_usize buffered ++ " < needed " ++ show_usize needed
  end%string.

Definition Frame_new (k : FrameKind) (p : list byte) : result Frame FrameError :=
  if len p >? MAX_FRAME_PAYLOAD
  then Err (PayloadTooLarge (len p) MAX_FRAME_PAYLOAD)
  else Ok (mkFrame k p).

Definition encode (f : Frame) : list byte :=
  [as_byte (kind f)] ++ to_be32 (wrap32 (len (payload f))) ++ payload f.

Definition encode_frame (k : FrameKind) (p : list byte) : result (list byte) FrameError :=
  let? f := Frame_new k p in Ok (encode f).

Definition decode_header (h0 h1 h2 h3 h4 : byte) : result (FrameKind * Z) FrameError :=
  let k := from_byte h0 in
  let length := from_be32 h1 h2 h3 h4 in
  if length >? MAX_FRAME_PAYLOAD
  then Err (PayloadTooLarge length MAX_FRAME_PAYLOAD)
  else Ok (k, length).

Record FrameDecoder := mkDecoder { buffer : list byte }.

Definition FrameDecoder_new : FrameDecoder := mkDecoder [].

Definition buffered_len (d : FrameDecoder) : Z := len (buffer d).

Definition peek_header (d : FrameDecoder) : exec (result (option (FrameKind * Z)) FrameError) :=
  if len (buffer d) <? FRAME_HEADER_LEN then Ret (Ok None)
  else
    let! b0 := idx (buffer d) 0 in
    let! b1 := idx (buffer d) 1 in
    let! b2 := idx (buffer d) 2 in
    let! b3 := idx (buffer d) 3 in
    let! b4 := idx (buffer d) 4 in
    Ret (let? h := decode_header b0 b1 b2 b3 b4 in Ok (Some h)).

(** The loop of [push]: every iteration that does not leave the loop drains at
    least the header, so the length of the buffer bounds the iterations. *)
Fixpoint push_loop (fuel : nat) (d : FrameDecoder) (frames : list Frame)
  : exec (result (list Frame) FrameError * FrameDecoder) :=
  match fuel with
  | O => Panic
  | S fuel =>
      let! h := peek_header d in
      match h with
      | Err e => Ret (Err e, d)
      | Ok None => Ret (Ok frames, d)
      | Ok (Some (k, length)) =>
          let frame_len := FRAME_HEADER_LEN + length in
          if len (buffer d) <? frame_len then Ret (Ok frames, d)
          else
            let rest := zdrop FRAME_HEADER_LEN (buffer d) in
            push_loop fuel (mkDecoder (zdrop length rest))
              (frames ++ [mkFrame k (ztake length rest)])
      end
  end.

Definition push (d : FrameDecoder) (bytes : list byte)
  : exec (result (list Frame) FrameError * FrameDecoder) :=
  let buf := buffer d ++ bytes in
  push_loop (S (length buf)) (mkDecoder buf) [].

Definition finish (d : FrameDecoder) : exec (result unit FrameError) :=
  if len (buffer d) =? 0 then Ret (Ok tt)
  else if len (buffer d) <? FRAME_HEADER_LEN
  then Ret (Err (IncompleteFrame (len (buffer d)) FRAME_HEADER_LEN))
  else
    let!? h := peek_header d in
    match h with
    | None => Panic
    | Some (_, length) =>
        Ret (Err (IncompleteFrame (len (buffer d)) (FRAME_HEADER_LEN + length)))
    end.

(** A session: every chunk the transport delivers, in order, then [finish]. *)
Fixpoint push_all (d : FrameDecoder) (chunks : list (list byte))
  : exec (result (list Frame) FrameError * FrameDecoder) :=
  match chunks with
  | [] => Ret (Ok [], d)
  | c :: cs =>
      let! (r, d1) := push d c in
      match r with
      | Err e => Ret (Err e, d1)
      | Ok fs =>
          let! (r2, d2) := push_all d1 cs in
          Ret (let? fs2 := r2 in Ok (fs ++ fs2), d2)
      end
  end.

(** ** Reading and writing one frame

    The transport is a parameter: [tokio]'s [read_exact] and [write_all]. *)

Inductive AsyncFrameError (E : Type) :=
| AsyncIo (e : E)
| AsyncFrame (e : FrameError).
Arguments AsyncIo {E} e.
Arguments AsyncFrame {E} e.

Class AsyncReader (R E : Type) := read_exact : R -> Z -> result (list byte) E * R.
Class AsyncWriter (W E : Type) := write_all : W -> list byte -> result unit E * W.

(** [read_exact] either fills the buffer with the next bytes of the stream or,
    when the stream ends first, fails. *)
Class AsyncReaderLaws (R E : Type) `{AsyncReader R E} (incoming : R -> list byte) := {
  read_exact_full r n : 0 <= n <= len (incoming r) ->
    exists r', read_exact r n = (Ok (ztake n (incoming r)), r') /\
               incoming r' = zdrop n (incoming r);
  read_exact_eof r n : len (incoming r) < n -> exists e r', read_exact r n = (Err e, r')
}.

(** A successful [write_all] has handed every byte to the transport, in order. *)
Class AsyncWriterLaws (W E : Type) `{AsyncWriter W E} (sent : W -> list byte) :=
  write_all_sent w bs w' : write_all w bs = (Ok tt, w') -> sent w' = sent w ++ bs.

Section Async.
Context {R W E : Type} `{AsyncReader R E} `{AsyncWriter W E}.

Definition read_frame_async (reader : R) : exec (result Frame (AsyncFrameError E) * R) :=
  match read_exact reader FRAME_HEADER_LEN with
  | (Err e, r1) => Ret (Err (AsyncIo e), r1)
  | (Ok header, r1) =>
      match header with
      | [h0; h1; h2; h3; h4] =>
          match decode_header h0 h1 h2 h3 h4 with
          | Err e => Ret (Err (AsyncFrame e), r1)
          | Ok (k, length) =>
              match read_exact r1 length with
              | (Err e, r2) => Ret (Err (AsyncIo e), r2)
              | (Ok p, r2) => Ret (Ok (mkFrame k p), r2)
              end
          end
      | _ => Panic
      end
  end.

Definition write_frame_async (writer : W) (f : Frame)
  : result unit (AsyncFrameError E) * W :=
  if len (payload f) >? MAX_FRAME_PAYLOAD
  then (Err (AsyncFrame (PayloadTooLarge (len (payload f)) MAX_FRAME_PAYLOAD)), writer)
  else
    match write_all writer (encode f) with
    | (Err e, w) => (Err (AsyncIo e), w)
    | (Ok tt, w) => (Ok tt, w)
    end.

End Async.

(** ** Specification *)

Definition frame_ok (f : Frame) : Prop := len (payload f) <= MAX_FRAME_PAYLOAD.

(** [parses bs fs r]: [bs] is the encodings of the frames [fs], then [r]. *)
Inductive parses : list byte -> list Frame -> list byte -> Prop :=
| parses_done r : parses r [] r
| parses_frame f bs fs r :
    frame_ok f -> parses bs fs r -> parses (encode f ++ bs) (f :: fs) r.

(** What the first bytes of a rest say. *)
Inductive head_status :=
| NeedHeader
| BadLength (length : Z)
| NeedPayload (length : Z)
| HasFrame (f : Frame) (rest : list byte).

Definition head (bs : list byte) : head_status :=
  match bs with
  | h0 :: h1 :: h2 :: h3 :: h4 :: tl =>
      let length := from_be32 h1 h2 h3 h4 in
      if length >? MAX_FRAME_PAYLOAD then BadLength length
      else if len tl <? length then NeedPayload length
      else HasFrame (mkFrame (from_byte h0) (ztake length tl)) (zdrop length tl)
  | _ => NeedHeader
  end.

Definition incomplete (bs : list byte) : Prop :=
  head bs = NeedHeader \/ exists n, head bs = NeedPayload n.

(** ** The head of the buffer *)

Lemma encode_cons f bs :
  encode f ++ bs =
  as_byte (kind f) :: to_be32 (wrap32 (len (payload f))) ++ payload f ++ bs.
Proof. done. Qed.

Lemma wrap32_small n : 0 <= n <= MAX_FRAME_PAYLOAD -> wrap32 n = n.
Proof. intros. unfold MAX_FRAME_PAYLOAD in *. apply Z.mod_small. lia. Qed.

Lemma head_encode f bs : frame_ok f -> head (encode f ++ bs) = HasFrame f bs.
Proof.
  intros Hf. unfold frame_ok in Hf. pose proof (len_nonneg (payload f)) as Hn.
  rewrite encode_cons, wrap32_small by lia. cbn [to_be32 app head].
  rewrite from_to_be32 by (unfold MAX_FRAME_PAYLOAD in *; lia).
  rewrite Z.gtb_ltb, (proj2 (Z.ltb_ge _ _)) by lia.
  rewrite len_app, (proj2 (Z.ltb_ge _ _)) by (pose proof (len_nonneg bs); lia).
  rewrite ztake_app_exact, zdrop_app_exact by done. by destruct f as [[] ?].
Qed.

Lemma head_frame_inv bs f rest :
  head bs = HasFrame f rest -> frame_ok f /\ bs = encode f ++ rest.
Proof.
  destruct bs as [|h0 [|h1 [|h2 [|h3 [|h4 tl]]]]]; try done. cbn [head].
  pose proof (from_be32_range h1 h2 h3 h4) as R.
  do 2 (case_test; try done). intros [= <- <-].
  assert (len (ztake (from_be32 h1 h2 h3 h4) tl) = from_be32 h1 h2 h3 h4) as L.
  { rewrite len_ztake by lia. lia. }
  split; [unfold frame_ok; simpl; lia|].
  rewrite encode_cons. cbn [kind payload as_byte]. rewrite L.
  unfold wrap32. rewrite Z.mod_small, to_from_be32 by lia. simpl.
  by rewrite ztake_zdrop.
Qed.

Lemma encode_length f : (5 <= length (encode f))%nat.
Proof. unfold encode, to_be32. simpl. lia. Qed.

(** ** Algebra of [parses] *)

Lemma parses_app bs fs r x : parses bs fs r -> parses (bs ++ x) fs (r ++ x).
Proof.
  induction 1; simpl; [constructor|]. rewrite <- app_assoc. by constructor.
Qed.

Lemma parses_trans bs fs r fs' r' :
  parses bs fs r -> parses r fs' r' -> parses bs (fs ++ fs') r'.
Proof. induction 1; simpl; [done|]. constructor; auto. Qed.

Lemma parses_encode fs r : Forall frame_ok fs -> parses (concat (map encode fs) ++ r) fs r.
Proof.
  induction 1; simpl; [constructor|]. rewrite <- app_assoc. by constructor.
Qed.

(** A rest is stuck when no complete frame starts it. *)
Definition stuck (bs : list byte) : Prop := forall f r, head bs <> HasFrame f r.

Lemma incomplete_stuck bs : incomplete bs -> stuck bs.
Proof. intros [H|[n H]] f r; congruence. Qed.

Lemma bad_stuck bs n : head bs = BadLength n -> stuck bs.
Proof. intros H f r. congruence. Qed.

Lemma stuck_parses bs fs r : stuck bs -> parses bs fs r -> fs = [] /\ r = bs.
Proof.
  intros Hs H. destruct H as [|f bs fs r Hf]; [done|].
  by destruct (Hs f bs); apply head_encode.
Qed.

Lemma parses_det bs fs r fs' r' :
  parses bs fs r -> stuck r -> parses bs fs' r' -> stuck r' -> fs = fs' /\ r = r'.
Proof.
  intros H Hr H' Hr'. revert fs' H'. induction H as [r|f bs fs r Hf H IH]; intros fs' H'.
  - apply (stuck_parses r) in H' as [-> ->]; auto.
  - remember (encode f ++ bs) as bs0 eqn:E. destruct H' as [r'|f' bs' fs' r' Hf' H'].
    + subst. by destruct (Hr' f bs); apply head_encode.
    + apply (f_equal head) in E. rewrite !head_encode in E by done.
      injection E as -> ->. by destruct (IH Hr _ H') as [-> ->].
Qed.

(** ** The decoder computes [parses] *)

Lemma peek_header_cons h0 h1 h2 h3 h4 tl :
  peek_header (mkDecoder (h0 :: h1 :: h2 :: h3 :: h4 :: tl)) =
  Ret (let? h := decode_header h0 h1 h2 h3 h4 in Ok (Some h)).
Proof.
  unfold peek_header. cbn [buffer]. rewrite !len_cons. pose proof (len_nonneg tl).
  by rewrite (proj2 (Z.ltb_ge _ _)) by (unfold FRAME_HEADER_LEN; lia).
Qed.

Lemma push_loop_step n d frames :
  push_loop (S n) d frames =
  match head (buffer d) with
  | NeedHeader | NeedPayload _ => Ret (Ok frames, d)
  | BadLength l => Ret (Err (PayloadTooLarge l MAX_FRAME_PAYLOAD), d)
  | HasFrame f rest => push_loop n (mkDecoder rest) (frames ++ [f])
  end.
Proof.
  destruct d as [buf]. cbn [push_loop buffer].
  destruct buf as [|h0 [|h1 [|h2 [|h3 [|h4 tl]]]]]; try reflexivity.
  rewrite peek_header_cons. unfold decode_header. cbn [head exec_bind].
  case_test; [done|]. cbn [result_bind]. rewrite !len_cons.
  replace (1 + (1 + (1 + (1 + (1 + len tl)))) <? FRAME_HEADER_LEN + from_be32 h1 h2 h3 h4)
    with (len tl <? from_be32 h1 h2 h3 h4)
    by (unfold FRAME_HEADER_LEN; destruct (Z.ltb_spec (len tl) (from_be32 h1 h2 h3 h4));
        symmetry; [apply Z.ltb_lt|apply Z.ltb_ge]; lia).
  by case_test.
Qed.

(** What a run of the loop leaves: the frames it added and the rest. *)
Definition loop_post (frames : list Frame) (bs : list byte)
  (out : result (list Frame) FrameError * FrameDecoder) : Prop :=
  exists fs, parses bs fs (buffer out.2) /\
    ((out.1 = Ok (frames ++ fs) /\ incomplete (buffer out.2)) \/
     (exists l, head (buffer out.2) = BadLength l /\
                out.1 = Err (PayloadTooLarge l MAX_FRAME_PAYLOAD))).

Lemma push_loop_spec n d frames :
  (length (buffer d) < n)%nat -> holds (push_loop n d frames) (loop_post frames (buffer d)).
Proof.
  revert d frames. induction n as [|n IH]; intros d frames Hn; [lia|].
  rewrite push_loop_step. destruct (head (buffer d)) as [|l|l|f rest] eqn:E.
  - exists []. split; [constructor|left]. simpl. rewrite app_nil_r. split; [done|by left].
  - exists []. split; [constructor|right]. eauto.
  - exists []. split; [constructor|left]. simpl. rewrite app_nil_r. split; [done|right; eauto].
  - apply head_frame_inv in E as [Hf E]. rewrite E in *.
    rewrite length_app in Hn. pose proof (encode_length f).
    eapply holds_mono; [apply IH; simpl; lia|].
    intros out (fs & Hp & Hout). exists (f :: fs). split; [by constructor|].
    by rewrite <- app_assoc in Hout.
Qed.

Lemma push_holds d bs : holds (push d bs) (loop_post [] (buffer d ++ bs)).
Proof. apply (push_loop_spec _ (mkDecoder (buffer d ++ bs))). simpl. lia. Qed.

Lemma push_ok_iff d bs fs d' :
  push d bs = Ret (Ok fs, d') <->
  parses (buffer d ++ bs) fs (buffer d') /\ incomplete (buffer d').
Proof.
  destruct (proj1 (holds_ret _ _) (push_holds d bs)) as ([r d1] & E & fs1 & Hp & Hr).
  rewrite E. simpl in *. split.
  - intros [= -> ->]. destruct Hr as [[[= ->] ?]|(? & ? & ?)]; [done|congruence].
  - intros [Hp' Hi].
    assert (stuck (buffer d1)) as Hs
      by (destruct Hr as [[_ ?]|(? & ? & _)]; eauto using incomplete_stuck, bad_stuck).
    destruct (parses_det _ _ _ _ _ Hp Hs Hp' (incomplete_stuck _ Hi)) as [-> Hb].
    destruct d1, d'; simpl in *; subst.
    destruct Hr as [[-> _]|(l & Hl & _)]; [done|].
    destruct Hi as [?|[? ?]]; congruence.
Qed.

Lemma push_err_iff d bs e d' :
  push d bs = Ret (Err e, d') <->
  exists fs l, parses (buffer d ++ bs) fs (buffer d') /\
    head (buffer d') = BadLength l /\ e = PayloadTooLarge l MAX_FRAME_PAYLOAD.
Proof.
  destruct (proj1 (holds_ret _ _) (push_holds d bs)) as ([r d1] & E & fs1 & Hp & Hr).
  rewrite E. simpl in *. split.
  - intros [= -> ->]. destruct Hr as [[? _]|(l & ? & [= ->])]; [done|eauto].
  - intros (fs & l & Hp' & Hb & ->).
    assert (stuck (buffer d1)) as Hs
      by (destruct Hr as [[_ ?]|(? & ? & _)]; eauto using incomplete_stuck, bad_stuck).
    destruct (parses_det _ _ _ _ _ Hp Hs Hp' (bad_stuck _ _ Hb)) as [-> Hd].
    destruct d1, d'; simpl in *; subst.
    destruct Hr as [[_ [?|[? ?]]]|(l' & Hl & ->)]; congruence.
Qed.

Lemma push_ret d bs : exists r d', push d bs = Ret (r, d').
Proof.
  destruct (proj1 (holds_ret _ _) (push_holds d bs)) as ([r d1] & E & _). eauto.
Qed.

(** ** Theorems *)

(** C34 (refinement). On any buffer and any input [push] returns, without a
    panic; it returns [Ok fs] exactly when the buffered bytes followed by the
    input are the encodings of [fs] followed by an incomplete frame, which
    stays buffered, and [Err] exactly when, after some complete frames, a header
    declares a payload above the limit. *)
Theorem push_refines_parses d bs :
  (exists r d', push d bs = Ret (r, d')) /\
  (forall fs d', push d bs = Ret (Ok fs, d') <->
     parses (buffer d ++ bs) fs (buffer d') /\ incomplete (buffer d')) /\
  (forall e d', push d bs = Ret (Err e, d') <->
     exists fs l, parses (buffer d ++ bs) fs (buffer d') /\
       head (buffer d') = BadLength l /\ e = PayloadTooLarge l MAX_FRAME_PAYLOAD).
Proof. auto using push_ret, push_ok_iff, push_err_iff. Qed.

Lemma push_all_ok d chunks fs d' :
  incomplete (buffer d) ->
  push_all d chunks = Ret (Ok fs, d') -> push d (concat chunks) = Ret (Ok fs, d').
Proof.
  revert d fs. induction chunks as [|c cs IH]; intros d fs Hd; cbn [push_all concat].
  - intros [= <- <-]. apply push_ok_iff. rewrite app_nil_r. split; [constructor|done].
  - destruct (push_ret d c) as ([fs1|e] & d1 & E); rewrite E; cbn [exec_bind]; [|done].
    apply push_ok_iff in E as [Hp1 Hi1].
    destruct (push_all d1 cs) as [[[fs2|e] d2]|] eqn:E2; cbn; try done.
    intros [= <- <-]. specialize (IH _ _ Hi1 E2). apply push_ok_iff in IH as [Hp2 Hi2].
    apply push_ok_iff. split; [|done]. rewrite app_assoc.
    eauto using parses_trans, parses_app.
Qed.

(** A header stays bad when more bytes arrive. *)
Lemma head_bad_app bs n x : head bs = BadLength n -> head (bs ++ x) = BadLength n.
Proof.
  destruct bs as [|h0 [|h1 [|h2 [|h3 [|h4 tl]]]]]; try done. cbn [head app].
  case_test; [done|]. by case_test.
Qed.

Lemma push_all_err d chunks e d' :
  push_all d chunks = Ret (Err e, d') ->
  exists d'', push d (concat chunks) = Ret (Err e, d'').
Proof.
  revert d e. induction chunks as [|c cs IH]; intros d e; cbn [push_all concat]; [done|].
  destruct (push_ret d c) as ([fs1|e1] & d1 & E); rewrite E; cbn [exec_bind].
  - apply push_ok_iff in E as [Hp1 Hi1].
    destruct (push_all d1 cs) as [[[fs2|e2] d2]|] eqn:E2; cbn; try done.
    intros [= <- <-]. destruct (IH _ _ E2) as [d'' E3].
    apply push_err_iff in E3 as (fs & l & Hp & Hb & ->). exists d''. apply push_err_iff.
    exists (fs1 ++ fs), l. rewrite app_assoc. eauto using parses_trans, parses_app.
  - intros [= <- <-]. apply push_err_iff in E as (fs & l & Hp & Hb & ->).
    exists (mkDecoder (buffer d1 ++ concat cs)). apply push_err_iff. exists fs, l. cbn.
    rewrite app_assoc. eauto using parses_app, head_bad_app.
Qed.

Lemma push_all_ret d chunks : exists r d', push_all d chunks = Ret (r, d').
Proof.
  revert d. induction chunks as [|c cs IH]; intros d; cbn [push_all]; [eauto|].
  destruct (push_ret d c) as ([fs1|e] & d1 & ->); cbn [exec_bind]; [|eauto].
  destruct (IH d1) as (r2 & d2 & ->). cbn. eauto.
Qed.

(** Fragmentation is invisible: delivering a byte string in
    any chunks gives the frames, or the error, of delivering it at once, and,
    when there is no error, the same decoder state. *)
Theorem push_all_fragmentation d chunks r d' :
  incomplete (buffer d) ->
  push_all d chunks = Ret (r, d') ->
  exists d'', push d (concat chunks) = Ret (r, d'') /\
    (forall fs, r = Ok fs -> d'' = d').
Proof.
  intros Hd E. destruct r as [fs|e].
  - exists d'. eauto using push_all_ok.
  - destruct (push_all_err _ _ _ _ E) as [d'' ?]. by exists d''.
Qed.

(** A sequence of frames within the limit, encoded and then
    delivered in any fragments, is decoded to exactly that sequence, and the
    stream then ends cleanly. *)
Theorem payload_stream_roundtrip fs chunks :
  Forall frame_ok fs ->
  concat chunks = concat (map encode fs) ->
  push_all FrameDecoder_new chunks = Ret (Ok fs, FrameDecoder_new) /\
  finish FrameDecoder_new = Ret (Ok tt).
Proof.
  intros Hf Hc. split; [|done].
  assert (push FrameDecoder_new (concat chunks) = Ret (Ok fs, FrameDecoder_new)) as E.
  { apply push_ok_iff. rewrite Hc. split; [|by left].
    rewrite <- (app_nil_r (buffer _ ++ _)). by apply parses_encode. }
  destruct (push_all_ret FrameDecoder_new chunks) as ([fs'|e] & d' & E').
  - apply push_all_ok in E' as E2; [|by left]. congruence.
  - apply push_all_err in E' as [d'' E2]. congruence.
Qed.

Example push_all_fragmentation_example :
  exists d'', push FrameDecoder_new [Byte.x50; Byte.x00; Byte.x00; Byte.x00; Byte.x00; Byte.x4b]
    = Ret (Ok [mkFrame PING []], d'').
Proof.
  destruct (push_all_fragmentation FrameDecoder_new
    [[Byte.x50; Byte.x00]; [Byte.x00; Byte.x00; Byte.x00; Byte.x4b]]
    (Ok [mkFrame PING []]) (mkDecoder [Byte.x4b])) as (d'' & H & _).
  - by left.
  - vm_compute. reflexivity.
  - exists d''. exact H.
Defined.

(** Whatever the peer sends, after a successful [push] the decoder
    holds less than one header and one maximal payload, and after a failed one
    it has not consumed the offending header. *)
Theorem push_bounded_buffer d bs :
  (forall fs d', push d bs = Ret (Ok fs, d') ->
     buffered_len d' < FRAME_HEADER_LEN + MAX_FRAME_PAYLOAD) /\
  (forall e d', push d bs = Ret (Err e, d') ->
     FRAME_HEADER_LEN <= buffered_len d' <= buffered_len d + len bs).
Proof.
  split.
  - intros fs d' [_ Hi]%push_ok_iff. unfold buffered_len. destruct Hi as [Hi|[n Hi]];
      destruct (buffer d') as [|h0 [|h1 [|h2 [|h3 [|h4 tl]]]]];
      cbn [head] in Hi; rewrite ?len_cons, ?len_nil;
      try (unfold FRAME_HEADER_LEN, MAX_FRAME_PAYLOAD; lia);
      repeat case_match; try done; b2p; unfold FRAME_HEADER_LEN in *; lia.
  - intros e d' (fs & l & Hp & Hb & _)%push_err_iff. unfold buffered_len. split.
    + destruct (buffer d') as [|h0 [|h1 [|h2 [|h3 [|h4 tl]]]]]; try done.
      rewrite !len_cons. pose proof (len_nonneg tl). unfold FRAME_HEADER_LEN. lia.
    + rewrite <- len_app. clear -Hp. induction Hp; [lia|]. rewrite len_app.
      pose proof (len_nonneg (encode f)). lia.
Qed.

(** At end of stream [finish] succeeds exactly when nothing is
    buffered; on a partial header or a partial payload left by [push] it
    reports how many bytes the frame needed, and it never panics. *)
Theorem finish_reports_incomplete d :
  incomplete (buffer d) ->
  finish d = Ret
    (match head (buffer d) with
     | NeedPayload n => Err (IncompleteFrame (buffered_len d) (FRAME_HEADER_LEN + n))
     | _ => if decide (buffer d = []) then Ok tt
            else Err (IncompleteFrame (buffered_len d) FRAME_HEADER_LEN)
     end).
Proof.
  destruct d as [buf]. unfold finish, buffered_len. cbn [buffer].
  destruct buf as [|h0 [|h1 [|h2 [|h3 [|h4 tl]]]]]; try reflexivity.
  rewrite peek_header_cons. unfold decode_header. intros Hi. rewrite !len_cons.
  pose proof (len_nonneg tl).
  rewrite (proj2 (Z.eqb_neq _ _)), (proj2 (Z.ltb_ge _ _)) by (unfold FRAME_HEADER_LEN; lia).
  destruct Hi as [Hi|[n Hi]]; cbn [head buffer] in *; by repeat case_match.
Qed.

Section AsyncTheorems.
Context {R W E : Type} `{AsyncReader R E} `{AsyncWriter W E}.
Context (incoming : R -> list byte) (sent : W -> list byte).
Context `{!AsyncReaderLaws R E incoming} `{!AsyncWriterLaws W E sent}.

Lemma read_header_encoded r f rest :
  frame_ok f -> incoming r = encode f ++ rest ->
  exists h0 h1 h2 h3 h4 r', read_exact r FRAME_HEADER_LEN = (Ok [h0; h1; h2; h3; h4], r') /\
    decode_header h0 h1 h2 h3 h4 = Ok (kind f, len (payload f)) /\ incoming r' = payload f ++ rest.
Proof.
  intros Hf Hin. unfold frame_ok in Hf. pose proof (len_nonneg (payload f)) as Hn.
  rewrite encode_cons, wrap32_small in Hin by lia. cbn [to_be32 app] in Hin.
  destruct (read_exact_full r FRAME_HEADER_LEN) as (r1 & E1 & I1).
  { rewrite Hin, !len_cons, len_app. pose proof (len_nonneg rest). unfold FRAME_HEADER_LEN. lia. }
  rewrite E1, Hin in *. do 5 eexists. exists r1. split; [reflexivity|]. split; [|exact I1].
  unfold decode_header. rewrite from_to_be32 by (unfold MAX_FRAME_PAYLOAD in *; lia).
  rewrite Z.gtb_ltb, (proj2 (Z.ltb_ge _ _)) by lia. by destruct f as [[] ?].
Qed.

Lemma read_frame_async_encoded r f rest :
  frame_ok f -> incoming r = encode f ++ rest ->
  exists r', read_frame_async r = Ret (Ok f, r') /\ incoming r' = rest.
Proof.
  intros Hf Hin. destruct (read_header_encoded r f rest Hf Hin) as (h0 & h1 & h2 & h3 & h4 & r1 & E1 & Ed & I1).
  unfold read_frame_async. rewrite E1, Ed. pose proof (len_nonneg rest). pose proof (len_nonneg (payload f)).
  destruct (read_exact_full r1 (len (payload f))) as (r2 & E2 & I2); [rewrite I1, len_app; lia|].
  rewrite E2, I1, ztake_app_exact by done. exists r2.
  rewrite I2, I1, zdrop_app_exact by done. by destruct f.
Qed.

Lemma read_exact_ok r n bs r' :
  0 <= n -> read_exact r n = (Ok bs, r') -> incoming r = bs ++ incoming r' /\ len bs = n.
Proof.
  intros Hn Er. destruct (Z_le_gt_dec n (len (incoming r))) as [Hle|Hgt].
  - destruct (read_exact_full r n) as (r1 & E1 & I1); [done|]. rewrite Er in E1. injection E1 as -> ->.
    rewrite I1, ztake_zdrop. split; [done|]. rewrite len_ztake by lia. lia.
  - destruct (read_exact_eof r n) as (e & r1 & E1); [lia|]. by rewrite Er in E1.
Qed.

(** A frame that was read is taken from the front of the stream. *)
Lemma read_frame_async_ok r f r' :
  read_frame_async r = Ret (Ok f, r') -> incoming r = encode f ++ incoming r'.
Proof.
  unfold read_frame_async. destruct (read_exact r FRAME_HEADER_LEN) as [[header|] r1] eqn:E1; [|done].
  apply read_exact_ok in E1 as [-> _]; [|done].
  destruct header as [|h0 [|h1 [|h2 [|h3 [|h4 [|]]]]]]; try done. unfold decode_header.
  pose proof (from_be32_range h1 h2 h3 h4). case_test; [done|].
  destruct (read_exact r1 _) as [[p|] r2] eqn:E2; [|done]. intros [= <- <-].
  apply read_exact_ok in E2 as [-> El]; [|lia].
  unfold encode. cbn [kind payload as_byte from_byte kind_byte]. rewrite El.
  rewrite wrap32_small by lia. by rewrite to_from_be32, <-!app_assoc.
Qed.

(** A frame that [write_frame_async] wrote is the frame that
    [read_frame_async] returns at the other end, and what follows it in the
    stream is left unread; a frame above the limit is refused before any byte
    is written. *)
Theorem write_read_frame_async w f w' r rest :
  write_frame_async w f = (Ok tt, w') ->
  sent w = [] ->
  incoming r = sent w' ++ rest ->
  frame_ok f /\ exists r', read_frame_async r = Ret (Ok f, r') /\ incoming r' = rest.
Proof.
  unfold write_frame_async. case_test; [done|].
  destruct (write_all w (encode f)) as [[[]|e] w1] eqn:Ew; [|done].
  intros [= <-] Hs Hin. apply write_all_sent in Ew. rewrite Hs in Ew. simpl in Ew.
  rewrite Ew in Hin. split; [done|]. eauto using read_frame_async_encoded.
Qed.

End AsyncTheorems.

(** An in-memory transport satisfies the transport laws. *)
#[local] Instance mem_reader : AsyncReader (list byte) unit :=
  fun r n => if n <=? len r then (Ok (ztake n r), zdrop n r) else (Err tt, []).
#[local] Instance mem_writer : AsyncWriter (list byte) unit :=
  fun w bs => (Ok tt, w ++ bs).
#[local] Instance mem_reader_laws : AsyncReaderLaws (list byte) unit id.
Proof.
  split; intros r n Hn; unfold read_exact, mem_reader, id in *; case_test; try lia; eauto.
Qed.
#[local] Instance mem_writer_laws : AsyncWriterLaws (list byte) unit id.
Proof. intros w bs w' Hw. by injection Hw as <-. Qed.

End Payload.
