(* ===== verification/StreamBuffer.v ===== *)
(** Bounded pending buffers between the gateway and host sockets
    (src/vm-frontend/src/stream_buffer.rs). Where the source returns the text of
    an I/O error, the model returns the error itself. *)

From stdpp Require Import base option list numbers strings.
From Stdlib Require Import ZArith Lia.
From S2P Require Import Prelude RustIo.

Module StreamBuffer.

Definition DEFAULT_STREAM_CHUNK_BYTES : Z := 64 * 1024.

Record PendingBufferLimit := mkLimit { limit : Z; attempted : Z }.

Definition check_pending_buffer_limit (current incoming limit : Z)
  : result Z PendingBufferLimit :=
  let attempted := saturating_add usize_max current incoming in
  if attempted >? limit then Err (mkLimit limit attempted) else Ok attempted.

Definition extend_pending_buffer (pending bytes : list byte) (limit : Z)
  : result unit PendingBufferLimit * list byte :=
  match check_pending_buffer_limit (len pending) (len bytes) limit with
  | Err e => (Err e, pending)
  | Ok _ => (Ok tt, pending ++ bytes)
  end.

Inductive NonblockingRead :=
| Payload (bs : list byte)
| Closed
| ReadWouldBlock.

(** Where the source returns [error.to_string()], the model returns the error
    itself: the text is a function of it. *)
Section Connection.
Context {C : Type} `{Read C} `{Write C}.

Definition read_nonblocking_chunk (connection : C) (max_bytes : Z)
  : result NonblockingRead io_error * C :=
  if max_bytes =? 0 then (Ok ReadWouldBlock, connection)
  else
    match read connection (Z.min max_bytes DEFAULT_STREAM_CHUNK_BYTES) with
    | (Ok [], c) => (Ok Closed, c)
    | (Ok bs, c) => (Ok (Payload bs), c)
    | (Err e, c) =>
        if bool_decide (error_kind e = WouldBlock) then (Ok ReadWouldBlock, c) else (Err e, c)
    end.

(** The loop of [write_pending_best_effort]: an iteration that stays in the
    loop drains at least one byte, so [pending.len()] bounds the iterations. A
    writer that claims to have written more than it was given would make
    [drain] panic. *)
Fixpoint write_pending_loop (fuel : nat) (connection : C) (pending : list byte)
  (max_bytes written : Z) : exec (result Z io_error * C * list byte) :=
  match fuel with
  | O => Panic
  | S fuel =>
      if negb (len pending =? 0) && (written <? max_bytes) then
        let writable := Z.min (max_bytes - written) (len pending) in
        match write connection (ztake writable pending) with
        | (Ok count, c) =>
            if count =? 0 then Ret (Ok written, c, pending)
            else if count <=? len pending
            then write_pending_loop fuel c (zdrop count pending) max_bytes (written + count)
            else Panic
        | (Err e, c) =>
            if bool_decide (error_kind e = WouldBlock) then Ret (Ok written, c, pending)
            else Ret (Err e, c, pending)
        end
      else Ret (Ok written, connection, pending)
  end.

Definition write_pending_best_effort (connection : C) (pending : list byte) (max_bytes : Z)
  : exec (result Z io_error * C * list byte) :=
  write_pending_loop (S (length pending)) connection pending max_bytes 0.

Definition append_and_write_pending_best_effort (connection : C) (pending bytes : list byte)
  : exec (result Z io_error * C * list byte) :=
  write_pending_best_effort connection (pending ++ bytes) usize_max.

End Connection.

(** ** Theorems *)

(** A buffer kept through [extend_pending_buffer] never grows
    beyond a limit below [usize::MAX]: an accepted extension appends all the
    bytes and stays within the limit, a refused one leaves the buffer as it was
    and reports the length it would have reached. *)
Lemma extend_pending_within_limit pending bytes limit :
  limit < usize_max ->
  (extend_pending_buffer pending bytes limit = (Ok tt, pending ++ bytes) /\
   len (pending ++ bytes) <= limit) \/
  (extend_pending_buffer pending bytes limit =
     (Err (mkLimit limit (Z.min usize_max (len pending + len bytes))), pending) /\
   limit < len (pending ++ bytes)).
Proof.
  intros Hl. unfold extend_pending_buffer, check_pending_buffer_limit, saturating_add.
  rewrite len_app. case_test; [right|left]; split; try done; lia.
Qed.

Section Laws.
Context {C : Type} `{Read C} `{Write C} (received sent : C -> list byte).
Context `{!ReadLaws C received} `{!WriteLaws C sent}.

(** A non-blocking read returns a non-empty chunk of at most
    the allowed size, which is what the connection delivered, or says why there
    is none; reading nothing is reported as closed only when room was offered. *)
Lemma read_nonblocking_chunk_spec c max_bytes r c' :
  0 <= max_bytes ->
  read_nonblocking_chunk c max_bytes = (r, c') ->
  match r with
  | Ok (Payload bs) =>
      bs <> [] /\ len bs <= Z.min max_bytes DEFAULT_STREAM_CHUNK_BYTES /\
      received c' = received c ++ bs
  | Ok Closed => max_bytes <> 0 /\ received c' = received c
  | Ok ReadWouldBlock => received c' = received c
  | Err e => error_kind e <> WouldBlock /\ received c' = received c
  end.
Proof.
  intros Hm. unfold read_nonblocking_chunk. case_test; [by intros [= <- <-]|].
  destruct (read c _) as [[bs|e] c1] eqn:E.
  - apply read_ok in E as [Hl Hr]; [|unfold DEFAULT_STREAM_CHUNK_BYTES; lia].
    destruct bs; intros [= <- <-]; [|done]. by rewrite Hr, app_nil_r.
  - apply read_err in E. case_test; by intros [= <- <-].
Qed.

(** What a write leaves as it is, the flush leaves as it is. *)
Lemma write_pending_loop_keeps {A} (f : C -> A) fuel c pending max_bytes written r c' pending' :
  (forall c bs r c', write c bs = (r, c') -> f c' = f c) ->
  write_pending_loop fuel c pending max_bytes written = Ret (r, c', pending') -> f c' = f c.
Proof.
  intros Hf. revert c pending written. induction fuel as [|fuel IH]; [done|].
  intros c pending written. cbn [write_pending_loop]. case_test; [|by intros [= _ <- _]].
  destruct (write c _) as [[count|e] c1] eqn:E; apply Hf in E.
  - case_test; [by intros [= _ <- _]|]. case_test; [|done]. intros Hr%IH. congruence.
  - case_test; by intros [= _ <- _].
Qed.

Lemma read_nonblocking_chunk_keeps {A} (f : C -> A) c max_bytes r c' :
  (forall c n r c', read c n = (r, c') -> f c' = f c) ->
  read_nonblocking_chunk c max_bytes = (r, c') -> f c' = f c.
Proof.
  intros Hf. unfold read_nonblocking_chunk. case_test; [by intros [= _ <-]|].
  destruct (read c _) as [[[|b bs]|e] c1] eqn:E; apply Hf in E.
  1-2: by intros [= _ <-].
  case_test; by intros [= _ <-].
Qed.

Definition write_post (pending : list byte) (c : C) (max_bytes written : Z)
  (out : result Z io_error * C * list byte) : Prop :=
  let '(r, c', pending') := out in
  exists moved, pending = moved ++ pending' /\ sent c' = sent c ++ moved /\
    written + len moved <= max_bytes /\
    (forall n, r = Ok n -> n = written + len moved).

Lemma write_pending_loop_spec fuel c pending max_bytes written :
  (length pending < fuel)%nat -> 0 <= written <= max_bytes ->
  holds (write_pending_loop fuel c pending max_bytes written)
        (write_post pending c max_bytes written).
Proof.
  revert c pending written. induction fuel as [|fuel IH]; intros c pending written Hf Hw; [lia|].
  assert (forall c' r, sent c' = sent c -> (forall n, r = Ok n -> n = written) ->
    write_post pending c max_bytes written (r, c', pending)) as Hstop.
  { intros c' r Hs Hr. exists []. rewrite app_nil_r, len_nil. repeat split; [done|lia|].
    intros n ->. specialize (Hr n eq_refl). lia. }
  cbn [write_pending_loop]. case_test; [|apply Hstop; [done|congruence]].
  pose proof (len_nonneg pending).
  destruct (write c _) as [[count|e] c1] eqn:E.
  - apply write_ok in E as [Hc Hs]. rewrite len_ztake in Hc by lia.
    case_test; [apply Hstop; [|congruence]; rewrite Hs; subst; apply app_nil_r|].
    rewrite (proj2 (Z.leb_le _ _)) by lia.
    eapply holds_mono; [apply IH|].
    + unfold zdrop, len in *. rewrite length_drop. lia.
    + lia.
    + intros [[r c'] pending'] (moved & Hp & Hs' & Hm & Hr).
      exists (ztake count pending ++ moved). rewrite <- app_assoc, <- Hp, ztake_zdrop.
      rewrite len_app, len_ztake by lia. rewrite Hs', Hs, <- app_assoc.
      assert (ztake count (ztake (Z.min (max_bytes - written) (len pending)) pending)
              = ztake count pending) as ->.
      { unfold ztake. rewrite take_take. f_equal. lia. }
      repeat split; [lia|]. intros n Hn. specialize (Hr n Hn). lia.
  - apply write_err in E. case_test; apply Hstop; [done|congruence|done|done].
Qed.

(** A connection that takes at least a byte of every write takes all it may. *)
Lemma write_pending_loop_eager fuel c pending max_bytes written :
  (forall c bs, bs <> [] -> exists n c', write c bs = (Ok n, c') /\ 0 < n) ->
  (length pending < fuel)%nat -> 0 <= written <= max_bytes ->
  exists c', write_pending_loop fuel c pending max_bytes written =
    Ret (Ok (written + Z.min (max_bytes - written) (len pending)), c',
         zdrop (max_bytes - written) pending).
Proof.
  intros Heager. revert c pending written.
  induction fuel as [|fuel IH]; intros c pending written Hf Hw; [lia|].
  cbn [write_pending_loop]. pose proof (len_nonneg pending) as Hlen.
  destruct (negb (len pending =? 0) && (written <? max_bytes)) eqn:Etest; b2p.
  - destruct (Heager c (ztake (Z.min (max_bytes - written) (len pending)) pending))
      as (n & c1 & E & Hn).
    { intros Hz. assert (len (ztake (Z.min (max_bytes - written) (len pending)) pending) = 0) as Hl
        by (by rewrite Hz). rewrite len_ztake in Hl; lia. }
    rewrite E. apply write_ok in E as [Hc _]. rewrite len_ztake in Hc by lia.
    rewrite (proj2 (Z.eqb_neq _ _)), (proj2 (Z.leb_le _ _)) by lia.
    destruct (IH c1 (zdrop n pending) (written + n)) as [c' ->].
    { unfold zdrop, len in *. rewrite length_drop. lia. }
    { lia. }
    exists c'. rewrite len_zdrop by lia.
    assert (zdrop (max_bytes - (written + n)) (zdrop n pending) =
            zdrop (max_bytes - written) pending) as ->
      by (unfold zdrop; rewrite drop_drop; f_equal; lia).
    by replace (written + n + _) with (written + Z.min (max_bytes - written) (len pending)) by lia.
  - exists c. apply andb_false_iff in Etest as [E|E]; b2p.
    + apply len_zero in E as ->. rewrite len_nil, Z.min_r, Z.add_0_r by lia.
      by unfold zdrop; rewrite drop_nil.
    + replace (max_bytes - written) with 0 by lia. rewrite Z.min_l, Z.add_0_r by lia. done.
Qed.

(** The best-effort flush terminates without a panic; the
    bytes that left the buffer are exactly the bytes the connection accepted,
    in order, at most [max_bytes] of them, the others stay pending, and the
    returned count is their number. Nothing is lost, repeated or reordered,
    also when the connection fails half way. *)
Theorem write_pending_conserves c pending max_bytes :
  0 <= max_bytes ->
  exists r c' pending' moved,
    write_pending_best_effort c pending max_bytes = Ret (r, c', pending') /\
    pending = moved ++ pending' /\ sent c' = sent c ++ moved /\
    len moved <= max_bytes /\ (forall n, r = Ok n -> n = len moved).
Proof.
  intros Hm. pose proof (write_pending_loop_spec (S (length pending)) c pending max_bytes 0) as Hp.
  apply holds_ret in Hp as ([[r c'] pending'] & E & moved & Hd); [|lia..].
  exists r, c', pending', moved. split; [exact E|]. exact Hd.
Qed.

End Laws.

End StreamBuffer.
