(* ===== verification/VmnetStream.v ===== *)
(** The length-prefixed Ethernet stream between QEMU and the gateway
    (src/vm-frontend/src/vmnet_stream.rs): [QemuFrameIo] with its blocking, its
    non-blocking and its asynchronous reader and its writer.

    [delivered] relates the bytes a reader has received from the socket to the
    frames it has returned; the invariant [stream_inv] says that what was
    received is the encodings of the returned frames followed by [read_buf]. *)

From stdpp Require Import base option list numbers strings relations.
From Stdlib Require Import ZArith Lia.
From S2P Require Import Prelude RustIo.

Module VmnetStream.

Definition DEFAULT_MAX_FRAME_LEN : Z := 65535.

Inductive VmnetStreamError :=
| StreamIo (e : io_error)
| TruncatedLength (received : Z)
| TruncatedFrame
| InvalidFrameLength (length max : Z)
| FrameTooLarge (length max : Z).

Inductive FrameRead :=
| GotFrame (frame : list byte)
| FrameWouldBlock
| FrameEof.

Record QemuFrameIo (T : Type) := mkIo {
  stream : T;
  max_frame_len : Z;
  read_buf : list byte
}.
Arguments mkIo {T} stream max_frame_len read_buf.
Arguments stream {T} q.
Arguments max_frame_len {T} q.
Arguments read_buf {T} q.

Definition QemuFrameIo_new {T} (s : T) (max : Z) : QemuFrameIo T := mkIo s max [].

Definition into_inner {T} (io : QemuFrameIo T) : T := stream io.

Definition would_block (e : io_error) : bool :=
  match error_kind e with WouldBlock | TimedOut => true | _ => false end.

(** [4 + length] never overflows: [length] is at most [max_frame_len], a [u32]. *)
Definition pop_buffered_frame {T} (io : QemuFrameIo T)
  : exec (result (option (list byte)) VmnetStreamError * QemuFrameIo T) :=
  let buf := read_buf io in
  if len buf <? 4 then Ret (Ok None, io)
  else
    let! b0 := idx buf 0 in
    let! b1 := idx buf 1 in
    let! b2 := idx buf 2 in
    let! b3 := idx buf 3 in
    let length := from_be32 b0 b1 b2 b3 in
    if (length =? 0) || (length >? max_frame_len io)
    then Ret (Err (InvalidFrameLength length (max_frame_len io)), io)
    else
      let frame_end := 4 + length in
      if len buf <? frame_end then Ret (Ok None, io)
      else
        let! frame := slice buf 4 frame_end in
        Ret (Ok (Some frame), mkIo (stream io) (max_frame_len io) (zdrop frame_end buf)).

Section Reader.
Context {T : Type} `{Read T}.

(** [read_exact_or_eof]; every iteration that stays in the loop receives a byte. *)
Fixpoint read_exact_or_eof_loop (fuel : nat) (reader : T) (length : Z) (buf : list byte)
  : exec (result (option (list byte)) VmnetStreamError * T) :=
  match fuel with
  | O => Panic
  | S fuel =>
      let received := len buf in
      if received <? length then
        match read reader (length - received) with
        | (Err e, r) => Ret (Err (StreamIo e), r)
        | (Ok [], r) =>
            if received =? 0 then Ret (Ok None, r)
            else Ret (Err (TruncatedLength received), r)
        | (Ok bs, r) => read_exact_or_eof_loop fuel r length (buf ++ bs)
        end
      else Ret (Ok (Some buf), reader)
  end.

Definition read_exact_or_eof (reader : T) (length : Z)
  : exec (result (option (list byte)) VmnetStreamError * T) :=
  read_exact_or_eof_loop (S (Z.to_nat length)) reader length [].

Fixpoint read_payload_exact_loop (fuel : nat) (reader : T) (length : Z) (buf : list byte)
  : exec (result (list byte) VmnetStreamError * T) :=
  match fuel with
  | O => Panic
  | S fuel =>
      let received := len buf in
      if received <? length then
        match read reader (length - received) with
        | (Err e, r) => Ret (Err (StreamIo e), r)
        | (Ok [], r) => Ret (Err TruncatedFrame, r)
        | (Ok bs, r) => read_payload_exact_loop fuel r length (buf ++ bs)
        end
      else Ret (Ok buf, reader)
  end.

Definition read_payload_exact (reader : T) (length : Z)
  : exec (result (list byte) VmnetStreamError * T) :=
  read_payload_exact_loop (S (Z.to_nat length)) reader length [].

Definition with_stream (io : QemuFrameIo T) (s : T) : QemuFrameIo T :=
  mkIo s (max_frame_len io) (read_buf io).

(** The blocking reader; it does not use [read_buf]. *)
Definition read_frame (io : QemuFrameIo T)
  : exec (result (option (list byte)) VmnetStreamError * QemuFrameIo T) :=
  let! (r, s) := read_exact_or_eof (stream io) 4 in
  match r with
  | Err e => Ret (Err e, with_stream io s)
  | Ok None => Ret (Ok None, with_stream io s)
  | Ok (Some [b0; b1; b2; b3]) =>
      let length := from_be32 b0 b1 b2 b3 in
      if (length =? 0) || (length >? max_frame_len io)
      then Ret (Err (InvalidFrameLength length (max_frame_len io)), with_stream io s)
      else
        let! (r2, s2) := read_payload_exact s length in
        Ret (let? frame := r2 in Ok (Some frame), with_stream io s2)
  | Ok (Some _) => Panic
  end.

(** The loop of [try_read_frame]. [pop_buffered_frame] answers as soon as a
    whole frame is buffered, and a frame has at most [4 + max_frame_len] bytes,
    so the number of reads is bounded whatever the peer sends. *)
Fixpoint try_read_loop (fuel : nat) (io : QemuFrameIo T)
  : exec (result FrameRead VmnetStreamError * QemuFrameIo T) :=
  match fuel with
  | O => Panic
  | S fuel =>
      match read (stream io) 8192 with
      | (Ok [], s) =>
          if len (read_buf io) =? 0 then Ret (Ok FrameEof, with_stream io s)
          else Ret (Err TruncatedFrame, with_stream io s)
      | (Ok bs, s) =>
          let! (r, io') := pop_buffered_frame (mkIo s (max_frame_len io) (read_buf io ++ bs)) in
          match r with
          | Err e => Ret (Err e, io')
          | Ok (Some frame) => Ret (Ok (GotFrame frame), io')
          | Ok None => try_read_loop fuel io'
          end
      | (Err e, s) =>
          if would_block e then Ret (Ok FrameWouldBlock, with_stream io s)
          else Ret (Err (StreamIo e), with_stream io s)
      end
  end.

Definition read_fuel (io : QemuFrameIo T) : nat := Z.to_nat (5 + max_frame_len io).

Definition try_read_frame (io : QemuFrameIo T)
  : exec (result FrameRead VmnetStreamError * QemuFrameIo T) :=
  let! (r, io') := pop_buffered_frame io in
  match r with
  | Err e => Ret (Err e, io')
  | Ok (Some frame) => Ret (Ok (GotFrame frame), io')
  | Ok None => try_read_loop (read_fuel io) io'
  end.

(** The asynchronous reader: [await] on a readiness that has come. *)
Fixpoint read_async_loop (fuel : nat) (io : QemuFrameIo T)
  : exec (result (option (list byte)) VmnetStreamError * QemuFrameIo T) :=
  match fuel with
  | O => Panic
  | S fuel =>
      match read (stream io) 8192 with
      | (Err e, s) => Ret (Err (StreamIo e), with_stream io s)
      | (Ok [], s) =>
          Ret (if len (read_buf io) =? 0 then Ok None
               else if len (read_buf io) <? 4
               then Err (TruncatedLength (len (read_buf io)))
               else Err TruncatedFrame, with_stream io s)
      | (Ok bs, s) =>
          let! (r, io') := pop_buffered_frame (mkIo s (max_frame_len io) (read_buf io ++ bs)) in
          match r with
          | Err e => Ret (Err e, io')
          | Ok (Some frame) => Ret (Ok (Some frame), io')
          | Ok None => read_async_loop fuel io'
          end
      end
  end.

Definition read_frame_async (io : QemuFrameIo T)
  : exec (result (option (list byte)) VmnetStreamError * QemuFrameIo T) :=
  let! (r, io') := pop_buffered_frame io in
  match r with
  | Err e => Ret (Err e, io')
  | Ok (Some frame) => Ret (Ok (Some frame), io')
  | Ok None => read_async_loop (read_fuel io) io'
  end.

End Reader.

Section Writer.
Context {T : Type} `{Write T}.

Definition write_frame (io : QemuFrameIo T) (frame : list byte)
  : result unit VmnetStreamError * QemuFrameIo T :=
  if u32_max <? len frame
  then (Err (FrameTooLarge usize_max (max_frame_len io)), io)
  else if (len frame =? 0) || (len frame >? max_frame_len io)
  then (Err (FrameTooLarge (len frame) (max_frame_len io)), io)
  else
    match write_all (stream io) (to_be32 (len frame)) with
    | (Err e, s) => (Err (StreamIo e), mkIo s (max_frame_len io) (read_buf io))
    | (Ok tt, s) =>
        match write_all s frame with
        | (Err e, s2) => (Err (StreamIo e), mkIo s2 (max_frame_len io) (read_buf io))
        | (Ok tt, s2) => (Ok tt, mkIo s2 (max_frame_len io) (read_buf io))
        end
    end.

(** The asynchronous writer has the same body, with an [await] at each
    [write_all]. *)
Definition write_frame_async (io : QemuFrameIo T) (frame : list byte)
  : result unit VmnetStreamError * QemuFrameIo T := write_frame io frame.

End Writer.

(** A client of the non-blocking reader: any number of calls, keeping the
    frames they return. *)
Definition got (r : result FrameRead VmnetStreamError) : list (list byte) :=
  match r with Ok (GotFrame f) => [f] | _ => [] end.

Inductive reads {T} `{Read T} : QemuFrameIo T -> list (list byte) -> QemuFrameIo T -> Prop :=
| reads_none io : reads io [] io
| reads_call io r io1 fs io2 :
    try_read_frame io = Ret (r, io1) -> reads io1 fs io2 -> reads io (got r ++ fs) io2.

(** ** Specification *)

Definition frame_ok (max : Z) (f : list byte) : Prop := 1 <= len f <= max.

Definition encode (f : list byte) : list byte := to_be32 (len f) ++ f.

(** What the front of the buffer says. *)
Inductive head_status :=
| NeedMore
| BadLength (length : Z)
| HasFrame (f rest : list byte).

Definition head (max : Z) (bs : list byte) : head_status :=
  match bs with
  | b0 :: b1 :: b2 :: b3 :: tl =>
      let length := from_be32 b0 b1 b2 b3 in
      if (length =? 0) || (length >? max) then BadLength length
      else if len tl <? length then NeedMore
      else HasFrame (ztake length tl) (zdrop length tl)
  | _ => NeedMore
  end.

(** ** The front of the buffer *)

Lemma head_cons max b0 b1 b2 b3 tl :
  head max (b0 :: b1 :: b2 :: b3 :: tl) =
  let length := from_be32 b0 b1 b2 b3 in
  if (length =? 0) || (length >? max) then BadLength length
  else if len tl <? length then NeedMore
  else HasFrame (ztake length tl) (zdrop length tl).
Proof. done. Qed.

Lemma bad_length_false l max : (l =? 0) || (l >? max) = false -> l <> 0 /\ l <= max.
Proof. intros H. b2p. lia. Qed.

Lemma stream_head_frame_inv max bs f rest :
  head max bs = HasFrame f rest -> frame_ok max f /\ bs = encode f ++ rest.
Proof.
  destruct bs as [|b0 [|b1 [|b2 [|b3 tl]]]]; try done. rewrite head_cons. cbv zeta.
  pose proof (from_be32_range b0 b1 b2 b3) as R.
  destruct (_ || _) eqn:E1; [done|]. apply bad_length_false in E1 as [? ?].
  case_test; [done|]. intros [= <- <-].
  assert (len (ztake (from_be32 b0 b1 b2 b3) tl) = from_be32 b0 b1 b2 b3) as L
    by (rewrite len_ztake by lia; lia).
  split; [unfold frame_ok; lia|]. unfold encode.
  by rewrite L, to_from_be32, <- app_assoc, ztake_zdrop.
Qed.

Lemma stream_head_encode max f rest :
  max <= u32_max -> frame_ok max f -> head max (encode f ++ rest) = HasFrame f rest.
Proof.
  intros Hm [H1 H2]. unfold encode, to_be32. cbn [app]. rewrite head_cons. cbv zeta.
  rewrite from_to_be32 by (unfold u32_max in *; lia).
  rewrite (proj2 (Z.eqb_neq _ _)), Z.gtb_ltb, (proj2 (Z.ltb_ge max _)) by lia. cbn [orb].
  rewrite len_app, (proj2 (Z.ltb_ge _ _)) by (pose proof (len_nonneg rest); lia).
  by rewrite ztake_app_exact, zdrop_app_exact.
Qed.

Lemma head_needmore_len max bs : 0 <= max -> head max bs = NeedMore -> len bs < 4 + max.
Proof.
  intros Hm. destruct bs as [|b0 [|b1 [|b2 [|b3 tl]]]];
    [intros _; rewrite ?len_cons, len_nil; lia ..|].
  rewrite head_cons, !len_cons. cbv zeta.
  destruct (_ || _) eqn:E1; [done|]. apply bad_length_false in E1 as [? ?].
  case_test; [lia|done].
Qed.

Lemma pop_buffered_frame_head {T} (io : QemuFrameIo T) :
  pop_buffered_frame io =
  match head (max_frame_len io) (read_buf io) with
  | NeedMore => Ret (Ok None, io)
  | BadLength l => Ret (Err (InvalidFrameLength l (max_frame_len io)), io)
  | HasFrame f rest => Ret (Ok (Some f), mkIo (stream io) (max_frame_len io) rest)
  end.
Proof.
  destruct io as [s max buf]. unfold pop_buffered_frame. cbn [read_buf max_frame_len stream].
  destruct buf as [|b0 [|b1 [|b2 [|b3 tl]]]]; try reflexivity.
  rewrite head_cons, !len_cons. pose proof (len_nonneg tl).
  rewrite (proj2 (Z.ltb_ge _ 4)) by lia. cbv zeta.
  change (idx (b0 :: b1 :: b2 :: b3 :: tl) 0) with (Ret b0).
  change (idx (b0 :: b1 :: b2 :: b3 :: tl) 1) with (Ret b1).
  change (idx (b0 :: b1 :: b2 :: b3 :: tl) 2) with (Ret b2).
  change (idx (b0 :: b1 :: b2 :: b3 :: tl) 3) with (Ret b3). cbn [exec_bind].
  pose proof (from_be32_range b0 b1 b2 b3) as R.
  set (l := from_be32 b0 b1 b2 b3) in *.
  destruct (_ || _) eqn:E1; [done|].
  replace (1 + (1 + (1 + (1 + len tl))) <? 4 + l) with (len tl <? l)
    by (destruct (Z.ltb_spec (len tl) l); symmetry; [apply Z.ltb_lt|apply Z.ltb_ge]; lia).
  case_test; [done|]. unfold slice. rewrite !len_cons.
  rewrite (proj2 (Z.leb_le _ _)), (proj2 (Z.leb_le _ _)) by lia. cbn [andb exec_bind].
  replace (4 + l - 4) with l by lia.
  assert (zdrop (4 + l) (b0 :: b1 :: b2 :: b3 :: tl) = zdrop l tl) as ->; [|done].
  unfold zdrop. rewrite Z2Nat.inj_add by lia. done.
Qed.

Lemma encode_nonempty f : encode f <> [].
Proof. done. Qed.

Lemma encode_prefix max gs fs rest :
  max <= u32_max -> Forall (frame_ok max) gs -> Forall (frame_ok max) fs ->
  concat (map encode gs) = concat (map encode fs) ++ rest ->
  exists hs, gs = fs ++ hs /\ rest = concat (map encode hs).
Proof.
  intros Hm Hg Hf. revert gs Hg. induction Hf as [|f fs Hf Hfs IH]; intros gs Hg E; [eauto|].
  destruct Hg as [|g gs Hg Hgs]; [done|]. cbn [map concat] in E. rewrite <- app_assoc in E.
  assert (f = g /\ concat (map encode gs) = concat (map encode fs) ++ rest) as [-> E'].
  { apply (f_equal (head max)) in E. rewrite !stream_head_encode in E by done. by injection E. }
  destruct (IH _ Hgs E') as (hs & -> & ->). by exists hs.
Qed.

(** ** The readers *)

Section ReaderFacts.
Context {T : Type} `{Read T} (received : T -> list byte) `{!ReadLaws T received}.

(** [gained io io' bs]: between the two states the socket delivered [bs]. *)
Definition gained (io io' : QemuFrameIo T) (bs : list byte) : Prop :=
  max_frame_len io' = max_frame_len io /\
  received (stream io') = received (stream io) ++ bs.

Definition try_post (io : QemuFrameIo T)
  (out : result FrameRead VmnetStreamError * QemuFrameIo T) : Prop :=
  let '(r, io') := out in
  exists bs, gained io io' bs /\
  match r with
  | Ok (GotFrame f) =>
      read_buf io ++ bs = encode f ++ read_buf io' /\ frame_ok (max_frame_len io) f
  | Ok FrameWouldBlock =>
      read_buf io' = read_buf io ++ bs /\ head (max_frame_len io) (read_buf io') = NeedMore
  | Ok FrameEof => read_buf io = [] /\ bs = [] /\ read_buf io' = []
  | Err TruncatedFrame =>
      read_buf io' = read_buf io ++ bs /\ read_buf io' <> [] /\
      head (max_frame_len io) (read_buf io') = NeedMore
  | Err (InvalidFrameLength l max) =>
      read_buf io' = read_buf io ++ bs /\ max = max_frame_len io /\
      head max (read_buf io') = BadLength l
  | Err (StreamIo e) => read_buf io' = read_buf io ++ bs /\ would_block e = false
  | Err _ => False
  end.

Lemma gained_nil io io' : max_frame_len io' = max_frame_len io ->
  received (stream io') = received (stream io) -> gained io io' [].
Proof. intros Hm Hr. split; [done|]. by rewrite Hr, app_nil_r. Qed.

(** A step that only moved bytes from the socket to the buffer can be put in
    front of a run. *)
Lemma try_post_more s max buf s' bs out :
  received s' = received s ++ bs -> bs <> [] ->
  try_post (mkIo s' max (buf ++ bs)) out -> try_post (mkIo s max buf) out.
Proof.
  destruct out as [r io']. cbn [try_post]. intros Hr Hne (bs' & [Hm Hg] & Hp).
  cbn [max_frame_len stream read_buf] in *. exists (bs ++ bs'). split.
  - split; cbn; [done|]. by rewrite Hg, Hr, app_assoc.
  - rewrite app_assoc. destruct r as [[f| |]|[]]; try done.
    destruct Hp as (Hb & _). by apply app_eq_nil in Hb as [_ ?].
Qed.

Lemma try_read_loop_spec fuel io :
  0 <= max_frame_len io -> head (max_frame_len io) (read_buf io) = NeedMore ->
  4 + max_frame_len io - len (read_buf io) < Z.of_nat fuel ->
  holds (try_read_loop fuel io) (try_post io).
Proof.
  revert io. induction fuel as [|fuel IH]; intros [s max buf] Hm Hh Hf;
    cbn [max_frame_len read_buf] in *; pose proof (head_needmore_len _ _ Hm Hh); [lia|].
  cbn [try_read_loop stream max_frame_len read_buf].
  destruct (read s 8192) as [[[|b bs]|e] s'] eqn:E.
  - apply read_ok in E as [_ Hr]; [|lia]. rewrite app_nil_r in Hr.
    case_test; exists []; (split; [by apply gained_nil|]); cbn.
    + apply len_zero in Etest. by subst.
    + rewrite app_nil_r. split; [done|]. split; [|done]. by intros ->.
  - apply read_ok in E as [_ Hr]; [|lia]. rewrite pop_buffered_frame_head.
    cbn [read_buf max_frame_len stream].
    destruct (head max (buf ++ b :: bs)) as [|l|f rest] eqn:Eh; cbn [exec_bind holds].
    + eapply holds_mono; [apply IH; cbn; [done|done|]|].
      * rewrite len_app, len_cons. pose proof (len_nonneg bs). lia.
      * intros out. by apply try_post_more.
    + eexists. split; [split; [done|exact Hr]|done].
    + apply stream_head_frame_inv in Eh as [Hok Heq]. eexists. split; [split; [done|exact Hr]|].
      done.
  - apply read_err in E. case_test; exists []; (split; [by apply gained_nil|]); cbn;
      by rewrite app_nil_r.
Qed.

Lemma try_read_frame_spec io :
  0 <= max_frame_len io -> holds (try_read_frame io) (try_post io).
Proof.
  intros Hm. unfold try_read_frame. rewrite pop_buffered_frame_head.
  destruct (head (max_frame_len io) (read_buf io)) as [|l|f rest] eqn:Eh; cbn [exec_bind].
  - apply try_read_loop_spec; [done|done|]. unfold read_fuel.
    pose proof (len_nonneg (read_buf io)). lia.
  - exists []. rewrite app_nil_r. split; [by apply gained_nil|done].
  - apply stream_head_frame_inv in Eh as [Hok Heq]. exists []. rewrite app_nil_r.
    split; [by apply gained_nil|done].
Qed.

(** The outcome of the asynchronous reader in terms of the non-blocking one. *)
Definition async_of (buf : list byte) (r : result FrameRead VmnetStreamError)
  : option (result (option (list byte)) VmnetStreamError) :=
  match r with
  | Ok (GotFrame f) => Some (Ok (Some f))
  | Ok FrameEof => Some (Ok None)
  | Ok FrameWouldBlock => None
  | Err TruncatedFrame =>
      Some (if len buf <? 4 then Err (TruncatedLength (len buf)) else Err TruncatedFrame)
  | Err e => Some (Err e)
  end.

Lemma read_async_loop_try fuel io r io' :
  try_read_loop fuel io = Ret (r, io') ->
  match async_of (read_buf io') r with
  | Some r' => read_async_loop fuel io = Ret (r', io')
  | None => exists e, would_block e = true /\ read_async_loop fuel io = Ret (Err (StreamIo e), io')
  end.
Proof.
  revert io. induction fuel as [|fuel IH]; intros io; [done|].
  cbn [try_read_loop read_async_loop].
  destruct (read (stream io) 8192) as [[[|b bs]|e] s'] eqn:E.
  - case_test; intros [= <- <-]; cbn; [done|]. by case_test.
  - rewrite pop_buffered_frame_head. cbn [read_buf max_frame_len stream].
    destruct (head _ _) as [|l|f rest]; cbn [exec_bind]; [apply IH| |];
      intros [= <- <-]; done.
  - case_test; intros [= <- <-]; cbn; eauto.
Qed.

(** On any stream and any buffered bytes, [try_read_frame]
    returns after at most [max_frame_len + 5] reads and without a panic. A
    returned frame is the one encoded at the front of the buffered and newly
    received bytes, and exactly its encoding is removed; [WouldBlock] and every
    error keep all received bytes buffered; end of file is reported only between
    frames, and a bad length only when the front of the buffer declares it. *)
Theorem try_read_frame_refines io :
  0 <= max_frame_len io ->
  exists r io', try_read_frame io = Ret (r, io') /\ try_post io (r, io').
Proof.
  intros Hm. pose proof (try_read_frame_spec io Hm) as Hp.
  apply holds_ret in Hp as ([r io'] & E & Hp). eauto.
Qed.

(** The asynchronous reader returns what the non-blocking
    reader returns on the same socket, in the same state, up to two
    differences: where the latter would block it has an I/O error to report,
    and at end of file inside the length prefix it says how much of the prefix
    came. *)
Theorem async_reader_agrees io r io' :
  try_read_frame io = Ret (r, io') ->
  match async_of (read_buf io') r with
  | Some r' => read_frame_async io = Ret (r', io')
  | None => exists e, would_block e = true /\ read_frame_async io = Ret (Err (StreamIo e), io')
  end.
Proof.
  unfold try_read_frame, read_frame_async. rewrite pop_buffered_frame_head.
  destruct (head _ _) as [|l|f rest]; cbn [exec_bind].
  - apply read_async_loop_try.
  - by intros [= <- <-].
  - by intros [= <- <-].
Qed.

(** What the socket delivered is the returned frames and the buffered rest. *)
Lemma reads_inv io fs io' :
  0 <= max_frame_len io -> reads io fs io' ->
  max_frame_len io' = max_frame_len io /\ Forall (frame_ok (max_frame_len io)) fs /\
  exists bs, received (stream io') = received (stream io) ++ bs /\
             read_buf io ++ bs = concat (map encode fs) ++ read_buf io'.
Proof.
  intros Hm. induction 1 as [io|io r io1 fs io2 E Hrs IH].
  { split; [done|]. split; [done|]. exists []. by rewrite !app_nil_r. }
  pose proof (try_read_frame_spec io Hm) as Hp. rewrite E in Hp. destruct Hp as (bs & [Hmx Hg] & Hp).
  destruct IH as (Hm2 & Hf & bs2 & Hr2 & Hb2); [lia|]. rewrite Hmx in *.
  assert (read_buf io ++ bs = concat (map encode (got r)) ++ read_buf io1 /\
          Forall (frame_ok (max_frame_len io)) (got r)) as [Hb Hok].
  { destruct r as [[f| |]|[]]; cbn in *; destruct_and?; rewrite ?app_nil_r; try done;
      split; try done; subst; try done; [by constructor|].
    rewrite app_nil_r. congruence. }
  split; [done|]. split; [by apply Forall_app|]. exists (bs ++ bs2). split.
  - by rewrite Hr2, Hg, app_assoc.
  - by rewrite map_app, concat_app, <- app_assoc, <- Hb2, !app_assoc, Hb.
Qed.

(** Over any number of calls, whatever the chunks in which the
    socket delivers what the peer sent: if the peer sent the frames [gs], the
    frames returned so far are a prefix of [gs], and the rest of [gs] is what is
    still buffered or in flight. *)
Theorem vmnet_frames_prefix s max fs io gs in_flight :
  0 <= max <= u32_max ->
  Forall (frame_ok max) gs ->
  received s = [] ->
  reads (QemuFrameIo_new s max) fs io ->
  concat (map encode gs) = received (stream io) ++ in_flight ->
  exists hs, gs = fs ++ hs /\ read_buf io ++ in_flight = concat (map encode hs).
Proof.
  intros Hm Hg Hs Hr E. apply reads_inv in Hr as (_ & Hf & bs & Hrec & Hb); [|cbn; lia].
  cbn in Hf, Hrec, Hb. rewrite Hrec, Hs in E. cbn in E. rewrite Hb, <- app_assoc in E.
  apply (encode_prefix max) in E; [exact E|lia|done|done].
Qed.

(** ** The blocking reader *)

Lemma read_exact_loop_spec fuel r n buf :
  0 <= n - len buf < Z.of_nat fuel ->
  holds (read_exact_or_eof_loop fuel r n buf) (fun '(res, r') =>
    exists bs, received r' = received r ++ bs /\
    match res with
    | Ok (Some b) => b = buf ++ bs /\ len b = n
    | Ok None => buf = [] /\ bs = []
    | Err (TruncatedLength k) => k = len (buf ++ bs) /\ 0 < k < n
    | Err (StreamIo _) => True
    | Err _ => False
    end).
Proof.
  revert r buf. induction fuel as [|fuel IH]; intros r buf Hf; [lia|].
  cbn [read_exact_or_eof_loop]. case_test.
  - destruct (read r _) as [[[|b bs]|e] r'] eqn:E.
    + apply read_ok in E as [_ Hr]; [|lia]. rewrite app_nil_r in Hr. pose proof (len_nonneg buf).
      case_test; exists []; rewrite !app_nil_r; cbn.
      * split; [done|]. by rewrite (len_zero buf).
      * split; [done|]. lia.
    + apply read_ok in E as [Hl Hr]; [|lia]. rewrite len_cons in Hl.
      eapply holds_mono; [apply IH; rewrite len_app, len_cons; pose proof (len_nonneg bs); lia|].
      intros [res r2] (bs2 & Hr2 & Hp). exists ((b :: bs) ++ bs2).
      rewrite Hr2, Hr, !app_assoc. split; [done|].
      destruct res as [[]|[]]; try done. destruct Hp as [Hb _]. by destruct buf.
    + apply read_err in E. exists []. by rewrite app_nil_r.
  - exists []. rewrite !app_nil_r. repeat split. lia.
Qed.

Lemma read_payload_loop_spec fuel r n buf :
  0 <= n - len buf < Z.of_nat fuel ->
  holds (read_payload_exact_loop fuel r n buf) (fun '(res, r') =>
    exists bs, received r' = received r ++ bs /\
    match res with
    | Ok b => b = buf ++ bs /\ len b = n
    | Err TruncatedFrame => len (buf ++ bs) < n
    | Err (StreamIo _) => True
    | Err _ => False
    end).
Proof.
  revert r buf. induction fuel as [|fuel IH]; intros r buf Hf; [lia|].
  cbn [read_payload_exact_loop]. case_test.
  - destruct (read r _) as [[[|b bs]|e] r'] eqn:E.
    + apply read_ok in E as [_ Hr]; [|lia]. rewrite app_nil_r in Hr.
      exists []. by rewrite !app_nil_r.
    + apply read_ok in E as [Hl Hr]; [|lia]. rewrite len_cons in Hl.
      eapply holds_mono; [apply IH; rewrite len_app, len_cons; pose proof (len_nonneg bs); lia|].
      intros [res r2] (bs2 & Hr2 & Hp). exists ((b :: bs) ++ bs2).
      by rewrite Hr2, Hr, !app_assoc.
    + apply read_err in E. exists []. by rewrite app_nil_r.
  - exists []. rewrite !app_nil_r. repeat split. lia.
Qed.

(** The blocking reader returns a frame exactly when the bytes
    it received are that frame's encoding, [None] only at end of file before
    the length prefix; it refuses a zero or too long length after the four
    bytes of the prefix and never panics. *)
Theorem read_frame_spec io :
  holds (read_frame io) (fun '(r, io') =>
    exists bs, gained io io' bs /\ read_buf io' = read_buf io /\
    match r with
    | Ok (Some f) => bs = encode f /\ frame_ok (max_frame_len io) f
    | Ok None => bs = []
    | Err (TruncatedLength k) => k = len bs /\ 0 < k < 4
    | Err TruncatedFrame => exists l tl, bs = to_be32 l ++ tl /\ len tl < l <= max_frame_len io
    | Err (InvalidFrameLength l max) =>
        bs = to_be32 l /\ max = max_frame_len io /\ (l = 0 \/ max < l)
    | Err (StreamIo _) => True
    | Err (FrameTooLarge _ _) => False
    end).
Proof.
  destruct io as [s max buf]. unfold read_frame, read_exact_or_eof. apply holds_bind.
  eapply holds_mono; [apply read_exact_loop_spec; unfold len; cbn [length]; lia|].
  intros [r s1] (bs1 & Hr1 & Hp1). cbn [stream] in Hr1.
  assert (gained (mkIo s max buf) (with_stream (mkIo s max buf) s1) bs1) as Hg by done.
  destruct r as [[h|]|[]]; cbn [app] in Hp1; try done;
    [|exists bs1; by destruct Hp1|by exists bs1|by exists bs1].
  destruct Hp1 as [-> H4].
  destruct bs1 as [|b0 [|b1 [|b2 [|b3 [|b4 tl]]]]]; rewrite ?len_cons, ?len_nil in H4;
    try lia; [|pose proof (len_nonneg tl); lia].
  cbn [max_frame_len]. pose proof (from_be32_range b0 b1 b2 b3) as R.
  set (l := from_be32 b0 b1 b2 b3) in *.
  assert (to_be32 l = [b0; b1; b2; b3]) as Ebe by apply to_from_be32.
  destruct (_ || _) eqn:E1.
  { exists [b0; b1; b2; b3]. do 4 (split; [done|]).
    apply orb_true_iff in E1 as [E1|E1]; b2p; auto. }
  apply bad_length_false in E1 as [? ?]. unfold read_payload_exact. apply holds_bind.
  eapply holds_mono; [apply read_payload_loop_spec; unfold len; cbn [length]; lia|].
  intros [r2 s2] (bs2 & Hr2 & Hp2). exists ([b0; b1; b2; b3] ++ bs2).
  split; [split; [done|cbn; by rewrite Hr2, Hr1, <- app_assoc]|]. split; [done|].
  destruct r2 as [f|[]]; cbn [app] in Hp2; try done; cbn [result_bind].
  - destruct Hp2 as [-> Hl]. unfold encode, frame_ok. rewrite Hl, Ebe. split; [done|]. cbn. lia.
  - exists l, bs2. rewrite Ebe. split; [done|]. cbn. lia.
Qed.

End ReaderFacts.

Section WriterFacts.
Context {T : Type} `{Write T} (sent : T -> list byte) `{!WriteLaws T sent}.

(** [write_frame] succeeds only on a frame the reader accepts
    and has then sent exactly its encoding; a frame of a refused size sends
    nothing, and a failing socket has been given a prefix of the encoding. *)
Theorem write_frame_spec (io : QemuFrameIo T) frame r io' :
  write_frame io frame = (r, io') ->
  match r with
  | Ok _ => frame_ok (max_frame_len io) frame /\
            sent (stream io') = sent (stream io) ++ encode frame
  | Err (FrameTooLarge _ _) =>
      io' = io /\ (len frame = 0 \/ Z.min u32_max (max_frame_len io) < len frame)
  | Err (StreamIo _) =>
      exists n, 0 <= n <= 4 + len frame /\
                sent (stream io') = sent (stream io) ++ ztake n (encode frame)
  | Err _ => False
  end.
Proof.
  unfold write_frame. pose proof (len_nonneg frame). case_test; [intros [= <- <-]; split; [done|lia]|].
  destruct (_ || _) eqn:E1.
  { intros [= <- <-]. split; [done|]. apply orb_true_iff in E1 as [E1|E1]; b2p; lia. }
  apply bad_length_false in E1 as [? ?].
  destruct (write_all (stream io) _) as [[[]|e] s1] eqn:E2.
  - apply write_all_ok in E2. destruct (write_all s1 frame) as [[[]|e] s2] eqn:E3; intros [= <- <-].
    + apply write_all_ok in E3. cbn. rewrite E3, E2, <- app_assoc.
      split; [unfold frame_ok; lia|done].
    + apply write_all_err in E3 as (n & Hn & E3). exists (4 + n). split; [lia|].
      cbn. rewrite E3, E2, <- app_assoc. f_equal. unfold encode, ztake.
      rewrite Z2Nat.inj_add by lia. done.
  - apply write_all_err in E2 as (n & Hn & E2). intros [= <- <-]. exists n.
    change (len (to_be32 (len frame))) with 4 in Hn. split; [lia|]. cbn [stream]. rewrite E2.
    unfold encode. rewrite ztake_app_le; [done|]. change (len (to_be32 (len frame))) with 4. lia.
Qed.

End WriterFacts.

(** ** Witnesses *)

(** A frame of two bytes in three fragments, and a first fragment only. *)
Definition demo_frame : list byte := [Byte.xca; Byte.xfe].
Definition demo_script : scripted :=
  mkScripted [Deliver [Byte.x00; Byte.x00]; Deliver [Byte.x00; Byte.x02; Byte.xca];
              Deliver [Byte.xfe]; Fault (OsError EAGAIN)] [].

Example try_read_frame_refines_example :
  exists r io', try_read_frame (QemuFrameIo_new demo_script 100) = Ret (r, io') /\
    try_post history (QemuFrameIo_new demo_script 100) (r, io').
Proof. apply (try_read_frame_refines history (QemuFrameIo_new demo_script 100)). cbn. lia. Defined.

End VmnetStream.
