(* ===== verification/NetworkPolicy.v ===== *)
(** The network policy of a sandbox (src/vm-frontend/src/network_policy.rs) and
    the guest's address assignment ([GuestNetwork], src/vm-frontend/src/lib.rs).

    [Ipv4Net] is the type of the [ipnet] crate: an interface here, with the laws
    its documentation gives for the operations the policy uses. *)

From stdpp Require Import base option list numbers strings.
From Stdlib Require Import ZArith Lia Ascii String.
From S2P Require Import Prelude RustStr.

Local Open Scope string_scope.
Local Open Scope Z_scope.

(** ** The interface of the [ipnet] crate *)

Class Ipv4NetOps := {
  Ipv4Net : Type;
  (** [Ipv4Net::new], an error when the prefix is longer than 32 bits. *)
  net_new : Ipv4Addr -> Z -> option Ipv4Net;
  (** [str::parse::<Ipv4Net>]. *)
  net_parse : string -> option Ipv4Net;
  (** [Ipv4Net::contains(&Ipv4Addr)]. *)
  net_contains : Ipv4Net -> Ipv4Addr -> bool
}.

(** Two addresses with the same first [p] bits. *)
Definition same_prefix (p : Z) (a b : Ipv4Addr) : bool :=
  ip_bits a / 2 ^ (32 - p) =? ip_bits b / 2 ^ (32 - p).

Definition show_cidr (ip : Ipv4Addr) (p : Z) : string := show_ipv4 ip ++ "/" ++ show_u8 p.

Class Ipv4NetLaws `{Ipv4NetOps} := {
  net_new_spec ip p : 0 <= p <= 32 ->
    exists n, net_new ip p = Some n /\ forall x, net_contains n x = same_prefix p ip x;
  net_parse_cidr ip p : 0 <= p <= 32 ->
    exists n, net_parse (show_cidr ip p) = Some n /\ forall x, net_contains n x = same_prefix p ip x;
  net_parse_no_slash s : contains_char "/" s = false -> net_parse s = None
}.

Module Policy.

Record GuestNetwork := mkGuestNetwork {
  guest_ip : string;
  gateway_ip : string;
  prefix_len : Z;
  dns_ip : string;
  guest_mac : string;
  vmnet_reconnect_ms : Z
}.

Definition GuestNetwork_default : GuestNetwork := {|
  guest_ip := "10.0.2.15";
  gateway_ip := "10.0.2.2";
  prefix_len := 24;
  dns_ip := "10.0.2.3";
  guest_mac := "02:fc:12:34:56:78";
  vmnet_reconnect_ms := 250
|}.

Inductive EgressAction := Deny | AllowPublicInternet.
Inductive EgressReason := DenyByDefault | NoNetFlag | ExplicitAllowProfile.
Inductive UnsupportedPolicy := DenyAndLog.

#[global] Instance EgressAction_eq_dec : EqDecision EgressAction.
Proof. solve_decision. Defined.

Record EthernetPolicy := mkEthernetPolicy {
  allow_arp : bool; unknown_ethertypes : UnsupportedPolicy }.
Record Ipv4Policy := mkIpv4Policy {
  allow_icmp_to_gateway : bool; unknown_protocols : UnsupportedPolicy }.
Record UdpPolicy := mkUdpPolicy {
  allow_dns_to_gateway : bool; block_udp_443 : bool; udp_default_action : EgressAction }.
Record TcpPolicy := mkTcpPolicy {
  tcp_default_action : EgressAction;
  intercept_http_port_80 : bool;
  intercept_https_port_443 : bool }.

Record ProtocolPolicy := mkProtocolPolicy {
  ethernet : EthernetPolicy;
  ipv4 : Ipv4Policy;
  ipv6 : UnsupportedPolicy;
  udp : UdpPolicy;
  tcp : TcpPolicy
}.

Definition ProtocolPolicy_default : ProtocolPolicy := {|
  ethernet := {| allow_arp := true; unknown_ethertypes := DenyAndLog |};
  ipv4 := {| allow_icmp_to_gateway := true; unknown_protocols := DenyAndLog |};
  ipv6 := DenyAndLog;
  udp := {| allow_dns_to_gateway := true; block_udp_443 := true; udp_default_action := Deny |};
  tcp := {| tcp_default_action := Deny;
            intercept_http_port_80 := true;
            intercept_https_port_443 := true |}
|}.

Inductive HostListenerPurpose := DockerApi | PayloadControl | PublishedTcp.

Record HostListener := mkHostListener {
  host_addr : string;
  host_port : Z;
  guest_port : Z;
  purpose : HostListenerPurpose
}.

Definition loopback (hp gp : Z) (p : HostListenerPurpose) : HostListener :=
  mkHostListener "127.0.0.1" hp gp p.
Definition docker_api (hp gp : Z) : HostListener := loopback hp gp DockerApi.
Definition payload_control (hp gp : Z) : HostListener := loopback hp gp PayloadControl.
Definition published_tcp (hp gp : Z) : HostListener := loopback hp gp PublishedTcp.

Record PublishedPort := mkPublishedPort { pp_host_port : Z; pp_guest_port : Z }.

Record CapturePolicy := mkCapturePolicy {
  pcap_path : option string; capture_guest_side_frames : bool }.
Record TlsMitmPolicy := mkTlsMitmPolicy {
  ca_cert_path : option string; ca_key_path : option string; generate_per_host_certs : bool }.

Definition CapturePolicy_default : CapturePolicy := mkCapturePolicy None false.
Definition TlsMitmPolicy_default : TlsMitmPolicy := mkTlsMitmPolicy None None false.

Inductive PolicyError := PublishedPortsRequireGuestEgress.

Record Ipv4RangeParseError := mkRangeParseError { rpe_value : string }.

Section Net.
Context `{Ipv4NetOps}.

Record Ipv4Range := mkRange { net : Ipv4Net }.

(** [Ipv4Range::parse]: a CIDR range, else a single address as a /32. *)
Definition Ipv4Range_parse (value : string) : exec (result Ipv4Range Ipv4RangeParseError) :=
  match net_parse value with
  | Some n => Ret (Ok (mkRange n))
  | None =>
      match parse_ipv4_addr value with
      | None => Ret (Err (mkRangeParseError value))
      | Some ip =>
          match net_new ip 32 with
          | Some n => Ret (Ok (mkRange n))
          | None => Panic
          end
      end
  end.

Definition contains (r : Ipv4Range) (ip : Ipv4Addr) : bool := net_contains (net r) ip.

Fixpoint parse_ipv4_ranges (values : list string)
  : exec (result (list Ipv4Range) Ipv4RangeParseError) :=
  match values with
  | [] => Ret (Ok [])
  | v :: vs =>
      let!? r := Ipv4Range_parse v in
      let!? rs := parse_ipv4_ranges vs in
      Ret (Ok (r :: rs))
  end.

Record EgressPolicy := mkEgress {
  default_action : EgressAction;
  reason : EgressReason;
  allow_domains : list string;
  allow_ip_ranges : list Ipv4Range;
  deny_ip_ranges : list Ipv4Range
}.

(** [EgressPolicy::allow_ip_or_cidr]; the policy is unchanged on an error. *)
Definition allow_ip_or_cidr (e : EgressPolicy) (value : string)
  : exec (result EgressPolicy Ipv4RangeParseError) :=
  let!? r := Ipv4Range_parse value in
  Ret (Ok (mkEgress (default_action e) (reason e) (allow_domains e)
             (allow_ip_ranges e ++ [r]) (deny_ip_ranges e))).

Definition default_deny_literals : list string :=
  ["0.0.0.0/8"; "10.0.0.0/8"; "100.64.0.0/10"; "127.0.0.0/8"; "169.254.0.0/16";
   "169.254.169.254/32"; "172.16.0.0/12"; "192.168.0.0/16"; "224.0.0.0/4"; "240.0.0.0/4"].

(** [map(parse().expect()).collect()]. *)
Fixpoint parse_expect (values : list string) : exec (list Ipv4Range) :=
  match values with
  | [] => Ret []
  | v :: vs =>
      let! r := Ipv4Range_parse v in
      match r with
      | Err _ => Panic
      | Ok r => let! rs := parse_expect vs in Ret (r :: rs)
      end
  end.

Definition default_deny_ranges : exec (list Ipv4Range) := parse_expect default_deny_literals.

Definition EgressPolicy_default : exec EgressPolicy :=
  let! deny := default_deny_ranges in
  Ret (mkEgress Deny DenyByDefault [] [] deny).

Record VmnetPolicy := mkPolicy {
  assignment : GuestNetwork;
  mtu : Z;
  egress : EgressPolicy;
  protocols : ProtocolPolicy;
  host_listeners : list HostListener;
  capture : CapturePolicy;
  tls_mitm : TlsMitmPolicy
}.

Definition default_sandbox (a : GuestNetwork) : exec VmnetPolicy :=
  let! e := EgressPolicy_default in
  Ret (mkPolicy a 1500 e ProtocolPolicy_default [] CapturePolicy_default TlsMitmPolicy_default).

Definition from_cli (a : GuestNetwork) (no_net : bool) (published_ports : list PublishedPort)
  : exec (result VmnetPolicy PolicyError) :=
  if no_net && negb (len published_ports =? 0)
  then Ret (Err PublishedPortsRequireGuestEgress)
  else
    let! p := default_sandbox a in
    let e := egress p in
    let e' := if no_net
              then mkEgress Deny NoNetFlag (allow_domains e) (allow_ip_ranges e) (deny_ip_ranges e)
              else e in
    Ret (Ok (mkPolicy (assignment p) (mtu p) e' (protocols p)
      (host_listeners p ++
         map (fun q => published_tcp (pp_host_port q) (pp_guest_port q)) published_ports)
      (capture p) (tls_mitm p))).

(** ** Facts *)

Definition ip_in_ranges (ip : Ipv4Addr) (ranges : list Ipv4Range) : bool :=
  existsb (fun r => contains r ip) ranges.

(** The addresses a sandbox must not reach: this host, private, shared
    carrier-grade, loopback, link-local (with the cloud metadata address),
    multicast and reserved space. *)
Definition never_public (ip : Ipv4Addr) : Prop :=
  let a := u8 (oct1 ip) in let b := u8 (oct2 ip) in
  a = 0 \/ a = 10 \/ (a = 100 /\ 64 <= b <= 127) \/ a = 127 \/ (a = 169 /\ b = 254) \/
  (a = 172 /\ 16 <= b <= 31) \/ (a = 192 /\ b = 168) \/ 224 <= a.

Context `{!Ipv4NetLaws}.

Lemma Ipv4Range_parse_cidr ip p :
  0 <= p <= 32 ->
  exists r, Ipv4Range_parse (show_cidr ip p) = Ret (Ok r) /\
            forall x, contains r x = same_prefix p ip x.
Proof.
  intros Hp. destruct (net_parse_cidr ip p Hp) as (n & E & Hn).
  unfold Ipv4Range_parse. rewrite E. by exists (mkRange n).
Qed.

Lemma parse_expect_cidrs (blocks : list (Ipv4Addr * Z)) :
  Forall (fun b => 0 <= b.2 <= 32) blocks ->
  holds (parse_expect (map (fun b => show_cidr b.1 b.2) blocks)) (fun rs =>
    forall x, ip_in_ranges x rs = existsb (fun b => same_prefix b.2 b.1 x) blocks).
Proof.
  induction 1 as [|[ip q] blocks Hp Hb IH]; [done|]. cbn [map parse_expect fst snd] in *.
  destruct (Ipv4Range_parse_cidr ip q Hp) as (r & -> & Hr). cbn [exec_bind].
  apply holds_bind. eapply holds_mono; [exact IH|]. intros rs Hrs x. cbn.
  by rewrite Hr, <- Hrs.
Qed.

Definition default_deny_blocks : list (Ipv4Addr * Z) :=
  [(Ipv4 Byte.x00 Byte.x00 Byte.x00 Byte.x00, 8); (Ipv4 Byte.x0a Byte.x00 Byte.x00 Byte.x00, 8);
   (Ipv4 Byte.x64 Byte.x40 Byte.x00 Byte.x00, 10); (Ipv4 Byte.x7f Byte.x00 Byte.x00 Byte.x00, 8);
   (Ipv4 Byte.xa9 Byte.xfe Byte.x00 Byte.x00, 16); (Ipv4 Byte.xa9 Byte.xfe Byte.xa9 Byte.xfe, 32);
   (Ipv4 Byte.xac Byte.x10 Byte.x00 Byte.x00, 12); (Ipv4 Byte.xc0 Byte.xa8 Byte.x00 Byte.x00, 16);
   (Ipv4 Byte.xe0 Byte.x00 Byte.x00 Byte.x00, 4); (Ipv4 Byte.xf0 Byte.x00 Byte.x00 Byte.x00, 4)].

Lemma default_deny_blocks_spec x :
  existsb (fun b => same_prefix b.2 b.1 x) default_deny_blocks = true <-> never_public x.
Proof.
  rewrite existsb_exists. unfold default_deny_blocks, same_prefix.
  destruct x as [a b c d]. unfold never_public, ip_bits, from_be32. cbn [oct1 oct2 oct3 oct4].
  pose proof (u8_range a). pose proof (u8_range b). pose proof (u8_range c). pose proof (u8_range d).
  generalize dependent (u8 a). generalize dependent (u8 b). generalize dependent (u8 c).
  generalize dependent (u8 d). intros d' Hd c' Hc b' Hb a' Ha. split.
  - intros ([ip q] & Hin & Heq). b2p. cbn [fst snd] in Heq.
    repeat (destruct Hin as [[= <- <-]|Hin]; [cbv [oct1 oct2 oct3 oct4 u8] in Heq; cbn in Heq; solve_divmod|]).
    done.
  - intros Hs.
    assert (exists bl, In bl default_deny_blocks /\
      (a' * 2 ^ 24 + b' * 2 ^ 16 + c' * 2 ^ 8 + d') / 2 ^ (32 - bl.2) =
      ip_bits bl.1 / 2 ^ (32 - bl.2)) as (bl & Hin & Heq).
    { unfold default_deny_blocks. 
      destruct Hs as [?|[?|[?|[?|[?|[?|[?|?]]]]]]];
      [eexists (_, _); split; [do 0 right; left; reflexivity|]
      |eexists (_, _); split; [do 1 right; left; reflexivity|]
      |eexists (_, _); split; [do 2 right; left; reflexivity|]
      |eexists (_, _); split; [do 3 right; left; reflexivity|]
      |eexists (_, _); split; [do 4 right; left; reflexivity|]
      |eexists (_, _); split; [do 6 right; left; reflexivity|]
      |eexists (_, _); split; [do 7 right; left; reflexivity|]
      |destruct (Z.lt_ge_cases a' 240);
       [eexists (_, _); split; [do 8 right; left; reflexivity|]
       |eexists (_, _); split; [do 9 right; left; reflexivity|]]];
      cbv [ip_bits oct1 oct2 oct3 oct4 from_be32 u8 fst snd]; cbn; solve_divmod. }
    exists bl. split; [done|]. apply Z.eqb_eq. by rewrite Heq.
Qed.

Lemma default_deny_ranges_holds :
  holds default_deny_ranges (fun rs => forall ip, ip_in_ranges ip rs = true <-> never_public ip).
Proof.
  eapply holds_mono.
  - apply (parse_expect_cidrs default_deny_blocks). by repeat constructor.
  - intros rs Hrs ip. rewrite Hrs. apply default_deny_blocks_spec.
Qed.

(** ** Theorems *)

(** The default policy can be built (none of its literal ranges
    makes it panic), denies by default, and its deny list contains exactly the
    addresses that are not public: this host, private, carrier-grade, loopback,
    link-local, multicast and reserved space. *)
Theorem default_sandbox_spec a :
  exists p, default_sandbox a = Ret p /\
    default_action (egress p) = Deny /\
    allow_domains (egress p) = [] /\ allow_ip_ranges (egress p) = [] /\
    protocols p = ProtocolPolicy_default /\ host_listeners p = [] /\
    forall ip, ip_in_ranges ip (deny_ip_ranges (egress p)) = true <-> never_public ip.
Proof.
  pose proof default_deny_ranges_holds as Hd. apply holds_ret in Hd as (rs & E & Hrs).
  unfold default_sandbox, EgressPolicy_default. rewrite E. cbn. eexists. by split_and!.
Qed.

(** From the command line: [--no-net] together with a
    published port is refused; otherwise the policy is the default one with one
    loopback listener per published port, in order, and under [--no-net] it
    denies with the reason of the flag. *)
Theorem from_cli_spec a no_net ports :
  exists p, default_sandbox a = Ret p /\
  from_cli a no_net ports = Ret (
    if no_net && bool_decide (ports <> []) then Err PublishedPortsRequireGuestEgress
    else Ok (mkPolicy a 1500
      (mkEgress Deny (if no_net then NoNetFlag else DenyByDefault) [] [] (deny_ip_ranges (egress p)))
      ProtocolPolicy_default
      (map (fun q => mkHostListener "127.0.0.1" (pp_host_port q) (pp_guest_port q) PublishedTcp) ports)
      CapturePolicy_default TlsMitmPolicy_default)).
Proof.
  pose proof default_deny_ranges_holds as Hd. apply holds_ret in Hd as (rs & E & Hrs).
  unfold from_cli, default_sandbox, EgressPolicy_default. rewrite E. cbn.
  eexists. split; [done|]. destruct no_net, ports; try done.
Qed.

End Net.

(** A model of the [ipnet] interface, for the witnesses: a network is its base
    address and prefix length. *)
Definition model_parse (s : string) : option (Ipv4Addr * Z) :=
  match split_char "/" s with
  | [a; p] =>
      match parse_ipv4_addr a, parse_u8 p with
      | Some ip, Some n => if n <=? 32 then Some (ip, n) else None
      | _, _ => None
      end
  | _ => None
  end.

#[global] Instance model_net : Ipv4NetOps := {|
  Ipv4Net := Ipv4Addr * Z;
  net_new ip p := if (0 <=? p) && (p <=? 32) then Some (ip, p) else None;
  net_parse := model_parse;
  net_contains n x := same_prefix n.2 n.1 x
|}.

#[global] Instance model_net_laws : Ipv4NetLaws.
Proof.
  split.
  - intros ip p Hp. cbn. rewrite !(proj2 (Z.leb_le _ _)) by lia. by exists (ip, p).
  - intros ip p Hp. assert (u8 (byte_of_Z p) = p) as Ep.
    { rewrite u8_byte_of_Z. apply Z.mod_small. lia. }
    cbn. unfold model_parse, show_cidr. rewrite <- Ep.
    change (show_ipv4 ip ++ "/" ++ ?t) with (show_ipv4 ip ++ String "/" t).
    rewrite split_char_app, split_char_none by auto using show_ipv4_no_slash, show_u8_no_slash.
    rewrite parse_show_ipv4, parse_show_u8, Ep, (proj2 (Z.leb_le _ _)) by lia.
    by exists (ip, p).
  - intros s Hs. cbn. unfold model_parse. by rewrite split_char_none.
Qed.

End Policy.
