(* ===== verification/L2Gateway.v ===== *)
(** The link layer of the gateway (src/vm-frontend/src/l2_gateway.rs): answers
    to ARP requests for the gateway and to DHCP, the parsers of the guest's
    addresses and the Internet checksum.

    Fixed-size arrays are lists; [wf] states their lengths. *)

From stdpp Require Import base option list numbers strings.
From Stdlib Require Import ZArith Lia Ascii String.
From S2P Require Import Prelude RustStr NetworkPolicy.

Local Open Scope string_scope.
Local Open Scope Z_scope.

Module L2.

Definition ETHERTYPE_ARP : Z := 0x0806.
Definition ETHERTYPE_IPV4 : Z := 0x0800.
Definition ARP_HTYPE_ETHERNET : Z := 1.
Definition ARP_PTYPE_IPV4 : Z := 0x0800.
Definition ARP_REQUEST : Z := 1.
Definition ARP_REPLY : Z := 2.
Definition IPPROTO_UDP : Z := 17.
Definition DHCP_SERVER_PORT : Z := 67.
Definition DHCP_CLIENT_PORT : Z := 68.
Definition DHCP_MAGIC_COOKIE : list byte := map byte_of_Z [99; 130; 83; 99].

Record L2Gateway := mkL2 {
  gateway_mac : list byte;
  guest_mac : list byte;
  gateway_ip : list byte;
  guest_ip : list byte;
  dns_ip : list byte;
  prefix_len : Z;
  mtu : Z
}.

Inductive ParseAddressError := InvalidIpv4 | InvalidMac.

(** ** Addresses *)

Definition parse_ipv4 (value : string) : result (list byte) ParseAddressError :=
  let parts := split_char "." value in
  if negb (len parts =? 4) then Err InvalidIpv4
  else ok_or (parse_u8_all parts) InvalidIpv4.

Fixpoint parse_mac_parts (parts : list string) : result (list byte) ParseAddressError :=
  match parts with
  | [] => Ok []
  | part :: rest =>
      if negb (str_len part =? 2) then Err InvalidMac
      else
        let? b := ok_or (from_str_radix 16 u8_max part) InvalidMac in
        let? bs := parse_mac_parts rest in
        Ok (byte_of_Z b :: bs)
  end.

Definition parse_mac (value : string) : result (list byte) ParseAddressError :=
  let parts := split_char ":" value in
  if negb (len parts =? 6) then Err InvalidMac else parse_mac_parts parts.

Definition from_guest_network (network : Policy.GuestNetwork) (gw_mac : list byte) (m : Z)
  : result L2Gateway ParseAddressError :=
  let? gmac := parse_mac (Policy.guest_mac network) in
  let? gwip := parse_ipv4 (Policy.gateway_ip network) in
  let? gip := parse_ipv4 (Policy.guest_ip network) in
  let? dip := parse_ipv4 (Policy.dns_ip network) in
  Ok (mkL2 gw_mac gmac gwip gip dip (Policy.prefix_len network) m).

(** [u32::MAX << n], with [n < 32]. *)
Definition subnet_mask (p : Z) : list byte :=
  to_be32 (if p =? 0 then 0 else wrap32 (Z.shiftl u32_max (32 - Z.min p 32))).

(** ** The Internet checksum *)

(** The sum over [chunks(2)], wrapping at 32 bits. *)
Fixpoint checksum_words (sum : Z) (header : list byte) : Z :=
  match header with
  | [] => sum
  | [a] => wrap32 (sum + Z.shiftl (u8 a) 8)
  | a :: b :: rest => checksum_words (wrap32 (sum + from_be16 a b)) rest
  end.

(** [while sum >> 16 != 0]; two rounds are enough for a 32-bit sum. *)
Fixpoint checksum_fold (fuel : nat) (sum : Z) : exec Z :=
  match fuel with
  | O => Panic
  | S fuel =>
      if Z.shiftr sum 16 =? 0 then Ret sum
      else checksum_fold fuel (Z.land sum 0xffff + Z.shiftr sum 16)
  end.

Definition ipv4_checksum (header : list byte) : exec Z :=
  let! sum := checksum_fold 3 (checksum_words 0 header) in
  Ret (u16_max - wrap16 sum).

(** ** DHCP *)

Fixpoint dhcp_option_loop (fuel : nat) (payload : list byte) (code : Z) (index : Z)
  : exec (option (list byte)) :=
  match fuel with
  | O => Panic
  | S fuel =>
      if index <? len payload then
        let! b := idx payload index in
        let current := u8 b in
        if current =? 0 then dhcp_option_loop fuel payload code (index + 1)
        else if current =? 255 then Ret None
        else
          match payload !! Z.to_nat (index + 1) with
          | None => Ret None
          | Some l =>
              let start := index + 2 in
              let stop := start + u8 l in
              if len payload <? stop then Ret None
              else if current =? code then
                let! v := slice payload start stop in Ret (Some v)
              else dhcp_option_loop fuel payload code stop
          end
      else Ret None
  end.

(** Each round advances the index, so the length of the payload bounds them. *)
Definition dhcp_option (payload : list byte) (code : Z) : exec (option (list byte)) :=
  dhcp_option_loop (S (List.length payload)) payload code 240.

Definition bytes (l : list Z) : list byte := map byte_of_Z l.

(** The options of a response. *)
Definition dhcp_options (g : L2Gateway) (message_type : Z) : list byte :=
  (bytes [53; 1; message_type] ++ bytes [54; 4] ++ gateway_ip g ++
   bytes [51; 4; 0; 0; 14; 16] ++ bytes [1; 4] ++ subnet_mask (prefix_len g) ++
   bytes [3; 4] ++ gateway_ip g ++ bytes [6; 4] ++ dns_ip g ++
   bytes [26; 2] ++ to_be16 (mtu g) ++ bytes [255])%list.

(** The BOOTP message of a response. *)
Definition dhcp_bootp (g : L2Gateway) (message_type : Z) (xid client_mac : list byte)
  : exec (list byte) :=
  let bootp := replicate 240 Byte.x00 in
  let! bootp := set_idx bootp 0 (byte_of_Z 2) in
  let! bootp := set_idx bootp 1 (byte_of_Z 1) in
  let! bootp := set_idx bootp 2 (byte_of_Z 6) in
  let! bootp := copy_from_slice bootp 4 8 xid in
  let! bootp := copy_from_slice bootp 16 20 (guest_ip g) in
  let! bootp := copy_from_slice bootp 20 24 (gateway_ip g) in
  let! bootp := copy_from_slice bootp 28 34 client_mac in
  let! bootp := copy_from_slice bootp 236 240 DHCP_MAGIC_COOKIE in
  Ret (bootp ++ dhcp_options g message_type)%list.

(** The IPv4 header before its checksum is filled in. *)
Definition dhcp_ipv4_header (g : L2Gateway) (ip_total_len : Z) : list byte :=
  (bytes [0x45; 0] ++ to_be16 (wrap16 ip_total_len) ++ to_be16 0 ++ to_be16 0 ++
   bytes [64; IPPROTO_UDP] ++ to_be16 0 ++ gateway_ip g ++ bytes [255; 255; 255; 255])%list.

Definition dhcp_response (g : L2Gateway) (message_type : Z) (xid client_mac : list byte)
  : exec (list byte) :=
  let! bootp := dhcp_bootp g message_type xid client_mac in
  let udp_len := 8 + len bootp in
  let ip_total_len := 20 + udp_len in
  let ipv4 := dhcp_ipv4_header g ip_total_len in
  let! checksum := ipv4_checksum ipv4 in
  let! ipv4 := copy_from_slice ipv4 10 12 (to_be16 checksum) in
  let ipv4 := (ipv4 ++ to_be16 DHCP_SERVER_PORT ++ to_be16 DHCP_CLIENT_PORT ++
    to_be16 (wrap16 udp_len) ++ to_be16 0 ++ bootp)%list in
  Ret (replicate 6 Byte.xff ++ gateway_mac g ++ to_be16 ETHERTYPE_IPV4 ++ ipv4)%list.

Definition handle_dhcp (g : L2Gateway) (payload : list byte) : exec (option (list byte)) :=
  if len payload <? 240 then Ret None
  else
    let! cookie := slice payload 236 240 in
    if negb (bool_decide (cookie = DHCP_MAGIC_COOKIE)) then Ret None
    else
      let! value := dhcp_option payload 53 in
      match value ≫= head with
      | None => Ret None
      | Some message_type =>
          let response_type :=
            if u8 message_type =? 1 then Some 2
            else if u8 message_type =? 3 then Some 5 else None in
          match response_type with
          | None => Ret None
          | Some response_type =>
              let! mac := slice payload 28 34 in
              let! x := slice payload 4 8 in
              match try_into 6 mac, try_into 4 x with
              | Some client_mac, Some xid =>
                  let! r := dhcp_response g response_type xid client_mac in Ret (Some r)
              | _, _ => Ret None
              end
          end
      end.

(** ** Frames *)

Definition handle_arp (g : L2Gateway) (frame : list byte) : exec (option (list byte)) :=
  if len frame <? 42 then Ret None
  else
    let! arp := slice frame 14 42 in
    let! a0 := idx arp 0 in let! a1 := idx arp 1 in
    let! a2 := idx arp 2 in let! a3 := idx arp 3 in
    let! hlen := idx arp 4 in let! plen := idx arp 5 in
    let! a6 := idx arp 6 in let! a7 := idx arp 7 in
    if negb (from_be16 a0 a1 =? ARP_HTYPE_ETHERNET) || negb (from_be16 a2 a3 =? ARP_PTYPE_IPV4)
       || negb (u8 hlen =? 6) || negb (u8 plen =? 4) || negb (from_be16 a6 a7 =? ARP_REQUEST)
    then Ret None
    else
      let! target := slice arp 24 28 in
      if negb (bool_decide (target = gateway_ip g)) then Ret None
      else
        let! m := slice arp 8 14 in
        let! i := slice arp 14 18 in
        match try_into 6 m, try_into 4 i with
        | Some sender_mac, Some sender_ip =>
            Ret (Some (sender_mac ++ gateway_mac g ++ to_be16 ETHERTYPE_ARP ++
              to_be16 ARP_HTYPE_ETHERNET ++ to_be16 ARP_PTYPE_IPV4 ++ bytes [6; 4] ++
              to_be16 ARP_REPLY ++ gateway_mac g ++ gateway_ip g ++ sender_mac ++ sender_ip)%list)
        | _, _ => Ret None
        end.

Definition handle_ipv4 (g : L2Gateway) (frame : list byte) : exec (option (list byte)) :=
  if len frame <? 34 then Ret None
  else
    let! ip := slice frame 14 (len frame) in
    let! b0 := idx ip 0 in
    let ihl := Z.land (u8 b0) 0x0f * 4 in
    if negb (Z.shiftr (u8 b0) 4 =? 4) || (ihl <? 20) || (len ip <? ihl + 8) then Ret None
    else
      let! proto := idx ip 9 in
      if negb (u8 proto =? IPPROTO_UDP) then Ret None
      else
        let! b2 := idx ip 2 in let! b3 := idx ip 3 in
        let total_len := from_be16 b2 b3 in
        if (total_len <? ihl + 8) || (len ip <? total_len) then Ret None
        else
          let! udp := slice ip ihl total_len in
          let! u0 := idx udp 0 in let! u1 := idx udp 1 in
          let! u2 := idx udp 2 in let! u3 := idx udp 3 in
          let! u4 := idx udp 4 in let! u5 := idx udp 5 in
          let udp_len := from_be16 u4 u5 in
          if negb (from_be16 u0 u1 =? DHCP_CLIENT_PORT) || negb (from_be16 u2 u3 =? DHCP_SERVER_PORT)
             || (udp_len <? 8) || (len udp <? udp_len)
          then Ret None
          else let! payload := slice udp 8 udp_len in handle_dhcp g payload.

Definition handle_frame (g : L2Gateway) (frame : list byte) : exec (option (list byte)) :=
  if len frame <? 14 then Ret None
  else
    let! b12 := idx frame 12 in let! b13 := idx frame 13 in
    let ethertype := from_be16 b12 b13 in
    if ethertype =? ETHERTYPE_ARP then handle_arp g frame
    else if ethertype =? ETHERTYPE_IPV4 then handle_ipv4 g frame
    else Ret None.

(** The lengths and ranges the source's types guarantee. *)
Record wf (g : L2Gateway) : Prop := {
  wf_gateway_mac : len (gateway_mac g) = 6;
  wf_guest_mac : len (guest_mac g) = 6;
  wf_gateway_ip : len (gateway_ip g) = 4;
  wf_guest_ip : len (guest_ip g) = 4;
  wf_dns_ip : len (dns_ip g) = 4;
  wf_prefix : 0 <= prefix_len g <= u8_max;
  wf_mtu : 0 <= mtu g <= u16_max
}.

(** ** Checksum facts *)

(** The sum of the 16-bit words, without wrapping. *)
Fixpoint word_sum (l : list byte) : Z :=
  match l with
  | [] => 0
  | [a] => u8 a * 2 ^ 8
  | a :: b :: rest => from_be16 a b + word_sum rest
  end.

Lemma pair_ind {A} (P : list A -> Prop) :
  P [] -> (forall a, P [a]) -> (forall a b l, P l -> P (a :: b :: l)) -> forall l, P l.
Proof.
  intros H0 H1 H2. fix IH 1. intros [|a [|b l]]; [apply H0|apply H1|apply H2, IH].
Qed.

Lemma word_sum_bound l : 0 <= word_sum l <= 65535 * ((len l + 1) / 2).
Proof.
  induction l as [|a|a b l IH] using pair_ind; [done| |].
  - pose proof (u8_range a). change ((len [a] + 1) / 2) with 1. cbn [word_sum]. lia.
  - pose proof (from_be16_range a b). cbn [word_sum]. rewrite !len_cons.
    replace (1 + (1 + len l) + 1) with (len l + 1 + 1 * 2) by lia.
    rewrite Z.div_add by lia. lia.
Qed.

Lemma checksum_words_sum l s :
  0 <= s -> s + word_sum l < 2 ^ 32 -> checksum_words s l = s + word_sum l.
Proof.
  revert s. induction l as [|a|a b l IH] using pair_ind; intros s Hs Hb;
    cbn [checksum_words word_sum] in *.
  - lia.
  - pose proof (u8_range a). rewrite Z.shiftl_mul_pow2 by lia. apply Z.mod_small. lia.
  - pose proof (from_be16_range a b). pose proof (word_sum_bound l).
    unfold wrap32. rewrite Z.mod_small by lia. rewrite IH; lia.
Qed.

Lemma word_sum_app l1 l2 n :
  len l1 = 2 * n -> word_sum (l1 ++ l2) = word_sum l1 + word_sum l2.
Proof.
  revert n. induction l1 as [|a|a b l IH] using pair_ind; intros n Hn.
  - done.
  - rewrite len_cons, len_nil in Hn. lia.
  - rewrite !len_cons in Hn. cbn [app word_sum]. rewrite (IH (n - 1)) by lia. lia.
Qed.

(** Folding computes the representative of the sum modulo 65535 in 1..65535,
    and 0 for 0; two rounds suffice. *)
Definition fold16 (s : Z) : Z := if s =? 0 then 0 else (s - 1) mod 65535 + 1.

Lemma fold16_step s :
  0 <= s -> s / 2 ^ 16 <> 0 -> fold16 (s mod 2 ^ 16 + s / 2 ^ 16) = fold16 s.
Proof.
  intros Hs Hq. pose proof (Z.div_mod s (2 ^ 16)) as Hd.
  pose proof (Z.mod_pos_bound s (2 ^ 16)). pose proof (Z.div_pos s (2 ^ 16)).
  unfold fold16. rewrite !(proj2 (Z.eqb_neq _ _)) by lia. f_equal.
  replace (s - 1) with (s mod 2 ^ 16 + s / 2 ^ 16 - 1 + s / 2 ^ 16 * 65535) by lia.
  by rewrite Z.mod_add.
Qed.

Lemma fold16_small s : 0 <= s < 2 ^ 16 -> fold16 s = s.
Proof. intros Hs. unfold fold16. case_test; [done|]. rewrite Z.mod_small; lia. Qed.

Lemma fold16_complement s : 0 <= s -> fold16 (s + (65535 - fold16 s)) = 65535.
Proof.
  intros Hs. unfold fold16 at 2. case_test; [by subst|].
  pose proof (Z.div_mod (s - 1) 65535). pose proof (Z.mod_pos_bound (s - 1) 65535).
  pose proof (Z.div_pos (s - 1) 65535).
  replace (s + _) with (65535 + (s - 1) / 65535 * 65535) by lia.
  unfold fold16. rewrite (proj2 (Z.eqb_neq _ _)) by lia.
  replace (_ - 1) with (65534 + (s - 1) / 65535 * 65535) by lia.
  by rewrite Z.mod_add.
Qed.

Lemma checksum_fold_step fuel s :
  0 <= s ->
  checksum_fold (S fuel) s =
    if s <? 2 ^ 16 then Ret s else checksum_fold fuel (s mod 2 ^ 16 + s / 2 ^ 16).
Proof.
  intros Hs. cbn [checksum_fold]. change 0xffff with (Z.ones 16).
  rewrite Z.land_ones, Z.shiftr_div_pow2 by lia.
  destruct (s <? 2 ^ 16) eqn:E; b2p.
  - by rewrite Z.div_small by lia.
  - rewrite (proj2 (Z.eqb_neq _ _)); [done|]. solve_divmod.
Qed.

Lemma checksum_fold_spec s : 0 <= s < 2 ^ 32 -> checksum_fold 3 s = Ret (fold16 s).
Proof.
  intros Hs. rewrite checksum_fold_step by lia. case_test; [by rewrite fold16_small by lia|].
  rewrite <- (fold16_step s) by (try lia; solve_divmod).
  set (s1 := s mod 2 ^ 16 + s / 2 ^ 16).
  assert (0 <= s1 <= 2 ^ 17 - 2) by (subst s1; solve_divmod). clearbody s1.
  rewrite checksum_fold_step by lia. case_test; [by rewrite fold16_small by lia|].
  rewrite <- (fold16_step s1) by (try lia; solve_divmod).
  set (s2 := s1 mod 2 ^ 16 + s1 / 2 ^ 16).
  assert (0 <= s2 < 2 ^ 16) by (subst s2; solve_divmod). clearbody s2.
  rewrite checksum_fold_step, fold16_small by lia. by rewrite (proj2 (Z.ltb_lt _ _)) by lia.
Qed.

Lemma ipv4_checksum_spec l :
  len l < 2 ^ 17 -> ipv4_checksum l = Ret (65535 - fold16 (word_sum l)).
Proof.
  intros Hl. unfold ipv4_checksum. pose proof (word_sum_bound l) as Hw.
  assert (word_sum l < 2 ^ 32) by (Z.div_mod_to_equations; lia).
  rewrite checksum_words_sum, Z.add_0_l, checksum_fold_spec by lia. cbn.
  unfold wrap16, u16_max, fold16. f_equal. case_test; [done|].
  rewrite Z.mod_small; [done|]. pose proof (Z.mod_pos_bound (word_sum l - 1) 65535). lia.
Qed.

(** ** Shapes of frames *)

Definition arp_packet (dst src : list byte) (oper : Z) (smac sip tmac tip : list byte) : list byte :=
  (dst ++ src ++ to_be16 ETHERTYPE_ARP ++ to_be16 ARP_HTYPE_ETHERNET ++ to_be16 ARP_PTYPE_IPV4 ++
   bytes [6; 4] ++ to_be16 oper ++ smac ++ sip ++ tmac ++ tip)%list.

(** The gateway's answer [r] to [frame]: an ARP reply to a request for the
    gateway's address, addressed to the sender. *)
Definition answers_arp (g : L2Gateway) (frame r : list byte) : Prop :=
  exists dst src smac sip tmac pad,
    len dst = 6 /\ len src = 6 /\ len smac = 6 /\ len sip = 4 /\ len tmac = 6 /\
    frame = (arp_packet dst src ARP_REQUEST smac sip tmac (gateway_ip g) ++ pad)%list /\
    r = arp_packet smac (gateway_mac g) ARP_REPLY (gateway_mac g) (gateway_ip g) smac sip.

(** The value [v] of an option in a list of DHCP options: zero bytes between the
    options are skipped, 255 ends the list, and of several values the first
    counts. *)
Inductive has_option (code : Z) : list byte -> list byte -> Prop :=
| option_pad b rest v : u8 b = 0 -> has_option code rest v -> has_option code (b :: rest) v
| option_here b l v rest : u8 b = code -> u8 l = len v -> has_option code (b :: l :: v ++ rest) v
| option_other b l w rest v :
    u8 b <> 0 -> u8 b <> 255 -> u8 b <> code -> u8 l = len w -> has_option code rest v ->
    has_option code (b :: l :: w ++ rest) v.

(** An IPv4 packet with a UDP datagram from port 68 to port 67 that carries
    [payload]: a header of [4 * n] bytes, whose length field counts what follows up
    to [rest]; [pad] is behind the packet. *)
Definition dhcp_datagram (frame payload : list byte) : Prop :=
  exists dst src n vi tos middle options uck rest pad,
    len dst = 6 /\ len src = 6 /\ 5 <= n <= 15 /\ u8 vi = 0x40 + n /\
    len middle = 5 /\ len options = 4 * n - 10 /\ len uck = 2 /\
    4 * n + 8 + len payload + len rest <= u16_max /\
    frame = ((dst ++ src ++ to_be16 ETHERTYPE_IPV4) ++
      ([vi; tos] ++ to_be16 (4 * n + 8 + len payload + len rest) ++ middle ++ [byte_of_Z IPPROTO_UDP] ++ options) ++
      (to_be16 68 ++ to_be16 67 ++ to_be16 (8 + len payload) ++ uck) ++ payload ++ rest ++ pad)%list.

(** A DHCP message of type [ask], its transaction id and its client's address. *)
Definition dhcp_asks (payload : list byte) (ask : Z) (xid mac : list byte) : Prop :=
  240 <= len payload /\ slice payload 236 240 = Ret DHCP_MAGIC_COOKIE /\
  slice payload 4 8 = Ret xid /\ slice payload 28 34 = Ret mac /\
  exists v, has_option 53 (zdrop 240 payload) (byte_of_Z ask :: v).

(** Or a DHCP offer (2) or acknowledgement (5) to a discover (1) or request (3)
    that [frame] carries, with the transaction id and hardware address of the
    client. *)
Definition answers_dhcp (g : L2Gateway) (frame r : list byte) : Prop :=
  exists payload ask answer xid mac,
    dhcp_datagram frame payload /\ dhcp_asks payload ask xid mac /\
    (ask = 1 /\ answer = 2 \/ ask = 3 /\ answer = 5) /\ dhcp_response g answer xid mac = Ret r.

(** ** Totality *)

Ltac exec_step :=
  lazymatch goal with
  | |- holds (exec_bind (idx _ _) _) _ =>
      apply holds_bind, holds_idx; [|intros ? ?]
  | |- holds (exec_bind (slice _ _ _) _) _ =>
      apply holds_bind, holds_slice; [| | |intros ?]
  | |- holds (if _ then _ else _) _ => case_test
  end; try lia.

Lemma len_app_inj {A} (a b c d : list A) : (a ++ b = c ++ d)%list -> len a = len c -> a = c /\ b = d.
Proof. intros E Hl. apply app_inj_1; [unfold len in Hl; lia|done]. Qed.

(** The loop over the options behind [pre] finds exactly the value of the option. *)
Lemma option_loop_spec fuel pre l code :
  0 < code < 255 -> (List.length l < fuel)%nat ->
  exists o, dhcp_option_loop fuel (pre ++ l) code (len pre) = Ret o /\
    forall v, o = Some v <-> has_option code l v.
Proof.
  intros Hcode. revert pre l. induction fuel as [|fuel IH]; intros pre l Hf; [lia|].
  cbn [dhcp_option_loop]. destruct l as [|b l]; cbn [List.length] in Hf.
  { rewrite app_nil_r, Z.ltb_irrefl. exists None. split; [done|]. intros v. split; [done|]. inversion 1. }
  pose proof (len_nonneg pre) as Hpre. pose proof (len_nonneg l) as Hll.
  rewrite (proj2 (Z.ltb_lt _ _)) by (rewrite len_app, len_cons; lia).
  assert (idx (pre ++ b :: l) (len pre) = Ret b) as ->
    by (unfold idx, len; by rewrite Nat2Z.id, list_lookup_middle).
  cbn [exec_bind]. destruct (u8 b =? 0) eqn:E0; b2p.
  { destruct (IH (pre ++ [b])%list l) as (o & Eo & Ho); [lia|]. rewrite <-app_assoc, len_app in Eo.
    exists o. split; [exact Eo|]. intros v. rewrite Ho. split; [by apply option_pad|].
    inversion 1; subst; [done|lia|done]. }
  destruct (u8 b =? 255) eqn:E1; b2p.
  { exists None. split; [done|]. intros v. split; [done|]. inversion 1; subst; [done|lia|done]. }
  assert (forall n, (pre ++ b :: n)%list !! Z.to_nat (len pre + 1) = n !! O) as Hnext.
  { intros n. unfold len. rewrite lookup_app_r by lia.
    by replace (Z.to_nat (Z.of_nat (List.length pre) + 1) - List.length pre)%nat with 1%nat by lia. }
  rewrite Hnext. destruct l as [|n l]; cbn [lookup list_lookup].
  { exists None. split; [done|]. intros v. split; [done|]. inversion 1; subst; done. }
  cbn [List.length] in Hf. pose proof (u8_range n) as Hn. pose proof (len_nonneg l).
  rewrite !len_app, !len_cons. destruct (_ <? len pre + 2 + u8 n) eqn:E2; b2p.
  { exists None. split; [done|]. intros v. split; [done|].
    inversion 1; subst; [done|..]; rewrite len_app in *; pose proof (len_nonneg rest); lia. }
  destruct (split_at (u8 n) l) as (w & rest & -> & Hw); [lia|]. rewrite length_app in Hf.
  destruct (u8 b =? code) eqn:E3; b2p.
  - exists (Some w). replace (pre ++ b :: n :: w ++ rest)%list with ((pre ++ [b; n]) ++ w ++ rest)%list
      by (by rewrite <-app_assoc).
    rewrite slice_mid by (rewrite ?len_app, ?len_cons, ?len_nil; lia). split; [done|].
    intros v. split; [intros [= <-]; by apply option_here|].
    inversion 1 as [|b' n' v' rest' Hb Hv Heq|]; subst; [done| |done].
    match goal with E : (_ ++ _ = _ ++ _)%list |- _ => apply len_app_inj in E as [-> _]; [done|lia] end.
  - destruct (IH (pre ++ b :: n :: w)%list rest) as (o & Eo & Ho); [lia|].
    rewrite <-app_assoc, len_app, !len_cons, Hw in Eo.
    replace (len pre + (1 + (1 + u8 n))) with (len pre + 2 + u8 n) in Eo by lia. exists o. split; [exact Eo|].
    intros v. rewrite Ho. split; [by apply option_other|].
    inversion 1; subst; [done|done|].
    match goal with E : (_ ++ _ = _ ++ _)%list |- _ => apply len_app_inj in E as [_ ->]; [done|lia] end.
Qed.

Lemma dhcp_option_spec payload code :
  0 < code < 255 -> 240 <= len payload ->
  exists o, dhcp_option payload code = Ret o /\ forall v, o = Some v <-> has_option code (zdrop 240 payload) v.
Proof.
  intros Hc Hl. destruct (split_at 240 payload) as (pre & l & -> & Hp); [lia|].
  rewrite zdrop_app_exact by done. unfold dhcp_option. rewrite <-Hp. apply option_loop_spec; [done|].
  rewrite length_app. lia.
Qed.

(** ** The DHCP response *)

Lemma len4_inv {A} (l : list A) : len l = 4 -> exists a b c d, l = [a; b; c; d].
Proof.
  destruct l as [|a [|b [|c [|d [|e l]]]]]; rewrite ?len_cons, ?len_nil;
    try (intros; lia); [eauto|pose proof (len_nonneg l); lia].
Qed.

Lemma len5_inv {A} (l : list A) : len l = 5 -> exists a b c d e, l = [a; b; c; d; e].
Proof.
  destruct l as [|a [|b [|c [|d [|e [|h l]]]]]]; rewrite ?len_cons, ?len_nil;
    try (intros; lia); [eauto 8|pose proof (len_nonneg l); lia].
Qed.

Lemma len6_inv {A} (l : list A) : len l = 6 -> exists a b c d e f, l = [a; b; c; d; e; f].
Proof.
  destruct l as [|a [|b [|c [|d [|e [|f [|h l]]]]]]]; rewrite ?len_cons, ?len_nil;
    try (intros; lia); [eauto 8|pose proof (len_nonneg l); lia].
Qed.

(** The fixed part of the message, then the options. *)
Definition bootp_image (g : L2Gateway) (message_type : Z) (xid mac : list byte) : list byte :=
  (bytes [2; 1; 6; 0] ++ xid ++ replicate 8 Byte.x00 ++ guest_ip g ++ gateway_ip g ++
   replicate 4 Byte.x00 ++ mac ++ replicate 202 Byte.x00 ++ DHCP_MAGIC_COOKIE ++
   dhcp_options g message_type)%list.

Lemma dhcp_bootp_image g t xid mac :
  wf g -> len xid = 4 -> len mac = 6 -> dhcp_bootp g t xid mac = Ret (bootp_image g t xid mac).
Proof.
  intros [_ _ Hgw Hg _ _ _] (?&?&?&?&->)%len4_inv (?&?&?&?&?&?&->)%len6_inv.
  unfold dhcp_bootp, bootp_image. generalize (dhcp_options g t). intros opts.
  apply len4_inv in Hgw as (?&?&?&?&->), Hg as (?&?&?&?&->). vm_compute. reflexivity.
Qed.

Lemma len_bootp_image g t xid mac :
  wf g -> len xid = 4 -> len mac = 6 -> len (bootp_image g t xid mac) = 278.
Proof.
  intros [_ _ Hgw Hg Hd _ _] Hx Hm. unfold bootp_image, dhcp_options.
  rewrite !len_app, Hgw, Hg, Hd, Hx, Hm. done.
Qed.

Lemma dhcp_header_split g n :
  exists a b, dhcp_ipv4_header g n = (a ++ to_be16 0 ++ b)%list /\ len a = 10 /\
    b = (gateway_ip g ++ bytes [255; 255; 255; 255])%list.
Proof.
  exists (bytes [0x45; 0] ++ to_be16 (wrap16 n) ++ to_be16 0 ++ to_be16 0 ++ bytes [64; IPPROTO_UDP])%list.
  eexists. split; [|by split]. unfold dhcp_ipv4_header. by rewrite <- !(assoc_L (++)).
Qed.

Lemma copy_middle {A} (a m b src : list A) i j :
  i = len a -> j = i + len m -> len src = len m ->
  copy_from_slice (a ++ m ++ b) i j src = Ret (a ++ src ++ b)%list.
Proof.
  intros -> -> Hs. unfold copy_from_slice. rewrite !len_app, Hs.
  pose proof (len_nonneg a). pose proof (len_nonneg m). pose proof (len_nonneg b).
  rewrite !(proj2 (Z.leb_le _ _)), (proj2 (Z.eqb_eq _ _)) by lia. cbn [andb].
  rewrite ztake_app_exact by done. rewrite (assoc_L (++) a m b).
  by rewrite zdrop_app_exact by (rewrite len_app; lia).
Qed.

(** Filling in the checksum field makes the checksum of the header zero. *)
Lemma checksum_fill a b n :
  len a = 2 * n -> len (a ++ to_be16 0 ++ b) < 2 ^ 17 ->
  exists c, ipv4_checksum (a ++ to_be16 0 ++ b) = Ret c /\ 0 <= c <= u16_max /\
            ipv4_checksum (a ++ to_be16 c ++ b) = Ret 0.
Proof.
  intros Ha Hl. rewrite ipv4_checksum_spec by done. eexists. split; [done|].
  assert (forall c, 0 <= c < 2 ^ 16 ->
    word_sum (a ++ to_be16 c ++ b) = word_sum a + word_sum b + c) as Hw.
  { intros c Hc. rewrite (word_sum_app a _ n) by done.
    change (to_be16 c ++ b)%list with (byte_of_Z (c / 2 ^ 8) :: byte_of_Z c :: b).
    cbn [word_sum]. rewrite from_to_be16 by done. lia. }
  rewrite (Hw 0) by lia. rewrite Z.add_0_r.
  pose proof (word_sum_bound a). pose proof (word_sum_bound b).
  set (s := word_sum a + word_sum b) in *.
  assert (0 <= fold16 s <= 65535) as Hf.
  { unfold fold16. case_test; [lia|]. pose proof (Z.mod_pos_bound (s - 1) 65535). lia. }
  split; [unfold u16_max; lia|]. rewrite ipv4_checksum_spec.
  2:{ rewrite !len_app in *. change (len (to_be16 _)) with 2 in *. lia. }
  rewrite Hw by lia. fold s. rewrite fold16_complement by lia. done.
Qed.

(** The response exists, its IPv4 header passes verification, and it carries the
    BOOTP message. *)
Lemma dhcp_response_frame g t xid mac :
  wf g -> len xid = 4 -> len mac = 6 ->
  exists header,
    dhcp_response g t xid mac = Ret (replicate 6 Byte.xff ++ gateway_mac g ++ to_be16 ETHERTYPE_IPV4 ++
      header ++ to_be16 67 ++ to_be16 68 ++ to_be16 286 ++ to_be16 0 ++ bootp_image g t xid mac)%list /\
    len header = 20 /\ ztake 4 header = bytes [0x45; 0; 1; 50] /\ ipv4_checksum header = Ret 0.
Proof.
  intros Hwf Hx Hm. unfold dhcp_response.
  rewrite dhcp_bootp_image by done. cbn [exec_bind]. rewrite len_bootp_image by done.
  destruct (dhcp_header_split g (20 + (8 + 278))) as (a & b & E & Ha & Hb). rewrite E.
  assert (len b = 8) as Hlb by (by rewrite Hb, len_app, (wf_gateway_ip g Hwf)).
  destruct (checksum_fill a b 5) as (c & Ec & Hc & E0); [done| |].
  { rewrite !len_app, Ha, Hlb. done. }
  rewrite Ec. cbn [exec_bind]. rewrite copy_middle by done. cbn [exec_bind].
  exists (a ++ to_be16 c ++ b)%list. split; [by rewrite <- !(assoc_L (++))|].
  split; [by rewrite !len_app, Ha, Hlb|]. split; [|done].
  rewrite ztake_app_le by (rewrite Ha; lia).
  rewrite <- (ztake_app_le 4 a (to_be16 0 ++ b)), <- E by (rewrite Ha; lia). done.
Qed.

Lemma handle_dhcp_spec g payload :
  wf g ->
  exists o, handle_dhcp g payload = Ret o /\
    forall r, o = Some r <-> exists ask answer xid mac, dhcp_asks payload ask xid mac /\
      (ask = 1 /\ answer = 2 \/ ask = 3 /\ answer = 5) /\ dhcp_response g answer xid mac = Ret r.
Proof.
  intros Hwf. unfold handle_dhcp. destruct (len payload <? 240) eqn:El; b2p.
  { exists None. split; [done|]. intros r. split; [done|]. intros (? & ? & ? & ? & (? & _) & _). lia. }
  destruct (slice_ret payload 236 240) as (cookie & Ec & _); [lia..|]. rewrite Ec. cbn [exec_bind].
  case_bool_decide as Hcookie; cbn [negb]; [subst cookie|].
  2:{ exists None. split; [done|]. intros r. split; [done|]. intros (? & ? & ? & ? & (_ & E & _) & _). congruence. }
  destruct (dhcp_option_spec payload 53) as (o & -> & Ho); [lia..|]. cbn [exec_bind].
  destruct (slice_ret payload 28 34) as (mac & Em & Hm); [lia..|].
  destruct (slice_ret payload 4 8) as (x & Ex & Hx); [lia..|]. rewrite Em, Ex. cbn [exec_bind].
  assert (forall ask xid mac', dhcp_asks payload ask xid mac' ->
    xid = x /\ mac' = mac /\ exists v, o = Some (byte_of_Z ask :: v)) as Hasks.
  { intros ask xid mac' (_ & _ & E1 & E2 & v & Hv). apply Ho in Hv. split_and!; [congruence..|]. by exists v. }
  assert (forall ask v, o = Some (byte_of_Z ask :: v) -> dhcp_asks payload ask x mac) as Hasked
    by (intros ask v Hv; split_and!; try done; exists v; by apply Ho).
  unfold try_into. rewrite Hm, Hx. cbn [Z.eqb Pos.eqb Z.sub Z.add Z.opp Z.pos_sub].
  change (34 - 28 =? 6) with true. change (8 - 4 =? 4) with true. cbv iota.
  destruct o as [[|t v]|]; cbn.
  1,3: exists None; split; [done|]; intros r; split; [done|];
    intros (ask & ans & xid & mac' & (_ & _ & v' & [=])%Hasks & _).
  assert (forall ask answer, u8 t = ask -> (ask = 1 /\ answer = 2 \/ ask = 3 /\ answer = 5) ->
    exists o', (let! r := dhcp_response g answer x mac in Ret (Some r)) = Ret o' /\
      forall r, o' = Some r <-> exists ask answer xid mac, dhcp_asks payload ask xid mac /\
        (ask = 1 /\ answer = 2 \/ ask = 3 /\ answer = 5) /\ dhcp_response g answer xid mac = Ret r) as Hreply.
  { intros ask answer Ht Hans. destruct (dhcp_response_frame g answer x mac) as (h & Er & _); [done..|].
    rewrite Er. cbn [exec_bind]. eexists. split; [done|]. intros r. split.
    - intros [= <-]. exists ask, answer, x, mac. split_and!; [|done|done]. apply (Hasked ask v).
      by rewrite <-Ht, byte_of_Z_u8.
    - intros (ask' & answer' & xid & mac' & (-> & -> & v' & [= Et _])%Hasks & Hans' & Er').
      assert (ask' = ask) as -> by (rewrite <-Ht, Et, u8_byte_of_Z; unfold wrap8; destruct Hans' as [[-> _]|[-> _]]; done).
      assert (answer' = answer) as -> by lia. congruence. }
  destruct (u8 t =? 1) eqn:E1; b2p; [apply (Hreply 1); auto|].
  destruct (u8 t =? 3) eqn:E3; b2p; [apply (Hreply 3); auto|].
  exists None. split; [done|]. intros r. split; [done|].
  intros (ask' & answer' & xid & mac' & (-> & -> & v' & [= Et _])%Hasks & Hans' & _).
  rewrite Et, u8_byte_of_Z in E1, E3. unfold wrap8 in *. destruct Hans' as [[-> _]|[-> _]]; done.
Qed.

(** ** ARP *)

Lemma len2_inv {A} (l : list A) : len l = 2 -> exists a b, l = [a; b].
Proof.
  destruct l as [|a [|b [|c l]]]; rewrite ?len_cons, ?len_nil;
    try (intros; lia); [eauto|pose proof (len_nonneg l); lia].
Qed.

(** The eight bytes before the addresses of an ARP packet are the expected
    ones. *)
Definition arp_header_ok (h0 h1 h2 h3 h4 h5 h6 h7 : byte) : bool :=
  negb (negb (from_be16 h0 h1 =? ARP_HTYPE_ETHERNET) || negb (from_be16 h2 h3 =? ARP_PTYPE_IPV4)
    || negb (u8 h4 =? 6) || negb (u8 h5 =? 4) || negb (from_be16 h6 h7 =? ARP_REQUEST)).

Lemma arp_header_ok_iff h0 h1 h2 h3 h4 h5 h6 h7 :
  arp_header_ok h0 h1 h2 h3 h4 h5 h6 h7 = true <->
  [h0; h1; h2; h3; h4; h5; h6; h7] =
    (to_be16 ARP_HTYPE_ETHERNET ++ to_be16 ARP_PTYPE_IPV4 ++ bytes [6; 4] ++ to_be16 ARP_REQUEST)%list.
Proof.
  unfold arp_header_ok. split.
  - intros H. b2p. rewrite <- H, <- H0, <- H3, !to_from_be16.
    unfold bytes. cbn [map app]. by rewrite <- H1, <- H2, !byte_of_Z_u8.
  - by intros [= -> -> -> -> -> -> -> ->].
Qed.

Lemma handle_arp_fields g eth h0 h1 h2 h3 h4 h5 h6 h7 smac sip tmac tip pad :
  len eth = 14 -> len smac = 6 -> len sip = 4 -> len tmac = 6 -> len tip = 4 ->
  handle_arp g (eth ++ ([h0; h1; h2; h3; h4; h5; h6; h7] ++ smac ++ sip ++ tmac ++ tip) ++ pad) =
  Ret (if arp_header_ok h0 h1 h2 h3 h4 h5 h6 h7 && bool_decide (tip = gateway_ip g)
       then Some (arp_packet smac (gateway_mac g) ARP_REPLY (gateway_mac g) (gateway_ip g) smac sip)
       else None).
Proof.
  intros He Hs Hi Ht Htip.
  apply len6_inv in Hs as (?&?&?&?&?&?&->), Ht as (?&?&?&?&?&?&->).
  apply len4_inv in Hi as (?&?&?&?&->), Htip as (?&?&?&?&->).
  unfold handle_arp. rewrite (slice_mid eth) by (rewrite ?He; done).
  rewrite (proj2 (Z.ltb_ge _ _)).
  2:{ rewrite !len_app, He, !len_cons, len_nil. pose proof (len_nonneg pad). lia. }
  cbn [app exec_bind]. exec_eval. unfold arp_header_ok.
  destruct (_ || _); [done|]. exec_eval. by destruct (bool_decide _).
Qed.

(** A frame long enough for ARP, field by field. *)
Lemma arp_frame_fields (frame : list byte) :
  42 <= len frame ->
  exists dst src t0 t1 h0 h1 h2 h3 h4 h5 h6 h7 smac sip tmac tip pad,
    frame = ((dst ++ src ++ [t0; t1]) ++
      ([h0; h1; h2; h3; h4; h5; h6; h7] ++ smac ++ sip ++ tmac ++ tip) ++ pad)%list /\
    len dst = 6 /\ len src = 6 /\ len smac = 6 /\ len sip = 4 /\ len tmac = 6 /\ len tip = 4.
Proof.
  intros H.
  destruct (split_at 6 frame) as (dst & f1 & -> & Hd); [lia|]. rewrite len_app in H.
  destruct (split_at 6 f1) as (src & f2 & -> & Hs); [lia|]. rewrite len_app in H.
  destruct (split_at 2 f2) as (ty & f3 & -> & Ht); [lia|]. rewrite len_app in H.
  destruct (split_at 4 f3) as (h & f4 & -> & Hh); [lia|]. rewrite len_app in H.
  destruct (split_at 4 f4) as (h' & f5 & -> & Hh'); [lia|]. rewrite len_app in H.
  destruct (split_at 6 f5) as (smac & f6 & -> & Hsm); [lia|]. rewrite len_app in H.
  destruct (split_at 4 f6) as (sip & f7 & -> & Hsi); [lia|]. rewrite len_app in H.
  destruct (split_at 6 f7) as (tmac & f8 & -> & Htm); [lia|]. rewrite len_app in H.
  destruct (split_at 4 f8) as (tip & pad & -> & Hti); [lia|].
  apply len2_inv in Ht as (t0 & t1 & ->).
  apply len4_inv in Hh as (h0 & h1 & h2 & h3 & ->), Hh' as (h4 & h5 & h6 & h7 & ->).
  exists dst, src, t0, t1, h0, h1, h2, h3, h4, h5, h6, h7, smac, sip, tmac, tip, pad.
  split; [|done]. by rewrite <- !(assoc_L (++)).
Qed.

Lemma ethertype_read (dst src : list byte) t0 t1 rest :
  len dst = 6 -> len src = 6 ->
  idx ((dst ++ src ++ [t0; t1]) ++ rest)%list 12 = Ret t0 /\
  idx ((dst ++ src ++ [t0; t1]) ++ rest)%list 13 = Ret t1.
Proof. by intros (?&?&?&?&?&?&->)%len6_inv (?&?&?&?&?&?&->)%len6_inv. Qed.

Lemma handle_arp_holds g frame t0 t1 :
  idx frame 12 = Ret t0 -> idx frame 13 = Ret t1 -> from_be16 t0 t1 = ETHERTYPE_ARP ->
  holds (handle_arp g frame) (fun o => forall r, o = Some r -> answers_arp g frame r).
Proof.
  intros E0 E1 Ety. destruct (Z.lt_ge_cases (len frame) 42) as [Hl|Hl].
  { unfold handle_arp. by rewrite (proj2 (Z.ltb_lt _ _)). }
  destruct (arp_frame_fields frame) as (dst & src & u0 & u1 & h0 & h1 & h2 & h3 & h4 & h5 & h6 & h7 &
    smac & sip & tmac & tip & pad & -> & Hd & Hs & Hsm & Hsi & Htm & Hti); [lia|].
  destruct (ethertype_read dst src u0 u1 (([h0; h1; h2; h3; h4; h5; h6; h7] ++ smac ++ sip ++ tmac ++ tip)
    ++ pad) Hd Hs) as [F0 F1]. rewrite F0 in E0. rewrite F1 in E1. simplify_eq.
  rewrite handle_arp_fields by (done || rewrite !len_app, Hd, Hs; done).
  cbn [holds]. intros r Hr. case_match eqn:E; [|done]. b2p. simplify_eq.
  apply arp_header_ok_iff in H.
  exists dst, src, smac, sip, tmac, pad. split_and!; try done.
  unfold arp_packet. rewrite H, <- Ety, to_from_be16. by rewrite <- !(assoc_L (++)).
Qed.

(** ** DHCP requests *)

(** An Ethernet frame with an option-less IPv4 header and a UDP datagram from
    the client port to the server port. *)
Definition dhcp_client_frame (eth : list byte) (tos : byte) (id : list byte) (ttl : byte)
  (ck addrs uck payload : list byte) : list byte :=
  (eth ++ ([byte_of_Z 0x45; tos] ++ to_be16 (28 + len payload) ++ id ++ [ttl; byte_of_Z 17] ++
     ck ++ addrs) ++
   (to_be16 68 ++ to_be16 67 ++ to_be16 (8 + len payload) ++ uck) ++ payload)%list.

Lemma handle_ipv4_client g eth tos id ttl ck addrs uck payload :
  len eth = 14 -> len id = 4 -> len ck = 2 -> len addrs = 8 -> len uck = 2 ->
  28 + len payload <= u16_max ->
  handle_ipv4 g (dhcp_client_frame eth tos id ttl ck addrs uck payload) = handle_dhcp g payload.
Proof.
  intros He Hid Hck Ha Hu Hp. unfold handle_ipv4, dhcp_client_frame.
  pose proof (len_nonneg payload) as Hnn. unfold u16_max in Hp.
  set (iph := (_ ++ to_be16 (28 + len payload) ++ _)%list).
  set (udph := (to_be16 68 ++ _)%list).
  assert (len iph = 20) as Hiph by (subst iph; by rewrite !len_app, Hid, Hck, Ha).
  assert (len udph = 8) as Hudph by (subst udph; by rewrite !len_app, Hu).
  rewrite (proj2 (Z.ltb_ge _ _)) by (rewrite !len_app, He, Hiph, Hudph; lia).
  rewrite slice_tail by (rewrite ?len_app; lia). cbn [exec_bind].
  apply len4_inv in Hid as (?&?&?&?&->).
  rewrite !(idx_app_l iph _ 0 (byte_of_Z 0x45)), !(idx_app_l iph _ 9 (byte_of_Z 17)),
    (idx_app_l iph _ 2 (byte_of_Z ((28 + len payload) / 2 ^ 8))),
    (idx_app_l iph _ 3 (byte_of_Z (28 + len payload))) by done.
  cbn [exec_bind]. rewrite from_to_be16 by lia.
  change (Z.land (u8 (byte_of_Z 0x45)) 15 * 4) with 20.
  change (Z.shiftr (u8 (byte_of_Z 0x45)) 4 =? 4) with true.
  change (u8 (byte_of_Z 17) =? IPPROTO_UDP) with true.
  rewrite !len_app, Hiph, Hudph. rewrite !(proj2 (Z.ltb_ge _ _)) by lia. cbn [orb negb].
  rewrite slice_tail by (rewrite ?len_app; lia). cbn [exec_bind].
  apply len2_inv in Hu as (?&?&->).
  rewrite (idx_app_l udph payload 0 (byte_of_Z (68 / 2 ^ 8))), (idx_app_l udph payload 1 (byte_of_Z 68)),
    (idx_app_l udph payload 2 (byte_of_Z (67 / 2 ^ 8))), (idx_app_l udph payload 3 (byte_of_Z 67)),
    (idx_app_l udph payload 4 (byte_of_Z ((8 + len payload) / 2 ^ 8))),
    (idx_app_l udph payload 5 (byte_of_Z (8 + len payload))) by done.
  cbn [exec_bind]. rewrite !from_to_be16 by lia.
  rewrite len_app, Hudph, !(proj2 (Z.ltb_ge _ _)) by lia. cbn [orb negb Z.eqb Pos.eqb DHCP_CLIENT_PORT DHCP_SERVER_PORT].
  rewrite slice_tail by lia. done.
Qed.

Lemma handle_frame_ethertype g dst src ty rest :
  len dst = 6 -> len src = 6 -> 0 <= ty < 2 ^ 16 ->
  let frame := ((dst ++ src ++ to_be16 ty) ++ rest)%list in
  handle_frame g frame =
    if ty =? ETHERTYPE_ARP then handle_arp g frame
    else if ty =? ETHERTYPE_IPV4 then handle_ipv4 g frame else Ret None.
Proof.
  intros Hd Hs Ht frame. unfold handle_frame.
  destruct (ethertype_read dst src (byte_of_Z (ty / 2 ^ 8)) (byte_of_Z ty) rest Hd Hs) as [E0 E1].
  change ((dst ++ src ++ [byte_of_Z (ty / 2 ^ 8); byte_of_Z ty]) ++ rest)%list with frame in E0, E1.
  rewrite (proj2 (Z.ltb_ge _ _)), E0.
  - cbn [exec_bind]. rewrite E1. cbn [exec_bind]. by rewrite from_to_be16.
  - subst frame. rewrite !len_app, Hd, Hs. change (len (to_be16 ty)) with 2.
    pose proof (len_nonneg rest). lia.
Qed.

Lemma handle_frame_arp_request g dst src smac sip tmac pad :
  wf g -> len dst = 6 -> len src = 6 -> len smac = 6 -> len sip = 4 -> len tmac = 6 ->
  handle_frame g (arp_packet dst src ARP_REQUEST smac sip tmac (gateway_ip g) ++ pad) =
  Ret (Some (arp_packet smac (gateway_mac g) ARP_REPLY (gateway_mac g) (gateway_ip g) smac sip)).
Proof.
  intros Hwf Hd Hs Hsm Hsi Htm.
  replace (arp_packet dst src ARP_REQUEST smac sip tmac (gateway_ip g) ++ pad)%list with
    ((dst ++ src ++ to_be16 ETHERTYPE_ARP) ++ ((to_be16 ARP_HTYPE_ETHERNET ++ to_be16 ARP_PTYPE_IPV4 ++
       bytes [6; 4] ++ to_be16 ARP_REQUEST) ++ smac ++ sip ++ tmac ++ gateway_ip g) ++ pad)%list
    by (unfold arp_packet; by rewrite <- !(assoc_L (++))).
  rewrite handle_frame_ethertype by (done || unfold ETHERTYPE_ARP; lia).
  rewrite Z.eqb_refl.
  etrans; [apply handle_arp_fields; [|try done..]|].
  - by rewrite !len_app, Hd, Hs.
  - apply (wf_gateway_ip g Hwf).
  - by rewrite bool_decide_true.
Qed.

(** ** Printed addresses *)

Definition show_mac (mac : list byte) : string := join ":" (map (fun b => show_hex2 (u8 b)) mac).
Definition show_ip (ip : list byte) : string := join "." (map (fun b => show_u8 (u8 b)) ip).

Lemma parse_u8_all_show l : parse_u8_all (map (fun b => show_u8 (u8 b)) l) = Some l.
Proof.
  induction l as [|b l IH]; [done|]. cbn [map parse_u8_all].
  by rewrite parse_show_u8, IH, byte_of_Z_u8.
Qed.

Lemma parse_mac_parts_show l : parse_mac_parts (map (fun b => show_hex2 (u8 b)) l) = Ok l.
Proof.
  induction l as [|b l IH]; [done|]. cbn [map parse_mac_parts].
  rewrite show_hex2_len, parse_show_hex2. cbn [ok_or result_bind].
  change (negb (2 =? 2)) with false. cbv iota. by rewrite IH; cbn; rewrite byte_of_Z_u8.
Qed.

Lemma parse_show_ip ip : len ip = 4 -> parse_ipv4 (show_ip ip) = Ok ip.
Proof.
  intros Hl. unfold parse_ipv4, show_ip. rewrite split_join.
  - unfold len in *. rewrite length_map, Hl. by rewrite parse_u8_all_show.
  - by destruct ip.
  - apply Forall_map, Forall_true. intros b. apply show_u8_no_dot.
Qed.

Lemma parse_show_mac mac : len mac = 6 -> parse_mac (show_mac mac) = Ok mac.
Proof.
  intros Hl. unfold parse_mac, show_mac. rewrite split_join.
  - unfold len in *. rewrite length_map, Hl. by rewrite parse_mac_parts_show.
  - by destruct mac.
  - apply Forall_map, Forall_true. intros b. apply show_hex2_no_colon.
Qed.

Lemma parse_u8_all_len parts l : parse_u8_all parts = Some l -> len l = len parts.
Proof.
  revert l. induction parts as [|p ps IH]; cbn [parse_u8_all]; [by intros l [= <-]|].
  intros l. destruct (parse_u8 p) as [n|]; [|done]. destruct (parse_u8_all ps) as [l'|]; [|done].
  intros [= <-]. rewrite !len_cons, IH; done.
Qed.

Lemma parse_mac_parts_len parts l : parse_mac_parts parts = Ok l -> len l = len parts.
Proof.
  revert l. induction parts as [|p ps IH]; cbn [parse_mac_parts]; [by intros l [= <-]|].
  intros l. case_test; [done|]. destruct (from_str_radix 16 u8_max p) as [b|]; cbn; [|done].
  destruct (parse_mac_parts ps) as [l'|]; cbn; [|done]. intros [= <-]. rewrite !len_cons, IH; done.
Qed.

Lemma parse_ipv4_len s l : parse_ipv4 s = Ok l -> len l = 4.
Proof.
  unfold parse_ipv4. case_test; [done|]. destruct (parse_u8_all _) as [l'|] eqn:E; [|done].
  intros [= <-]. apply parse_u8_all_len in E. congruence.
Qed.

Lemma parse_mac_len s l : parse_mac s = Ok l -> len l = 6.
Proof. unfold parse_mac. case_test; [done|]. intros E%parse_mac_parts_len. congruence. Qed.

(** A gateway made from a configuration has the shapes its types promise. *)
Lemma from_guest_network_wf network gw_mac m g :
  len gw_mac = 6 -> 0 <= Policy.prefix_len network <= u8_max -> 0 <= m <= u16_max ->
  from_guest_network network gw_mac m = Ok g -> wf g.
Proof.
  intros Hmac Hp Hm. unfold from_guest_network, result_bind.
  destruct (parse_mac _) as [gmac|] eqn:E1; [|done].
  destruct (parse_ipv4 (Policy.gateway_ip _)) as [gw|] eqn:E2; [|done].
  destruct (parse_ipv4 (Policy.guest_ip _)) as [gi|] eqn:E3; [|done].
  destruct (parse_ipv4 (Policy.dns_ip _)) as [di|] eqn:E4; [|done].
  intros [= <-]. split; cbn; eauto using parse_ipv4_len, parse_mac_len.
Qed.

(** *** Datagrams to the DHCP server *)

Lemma handle_ipv4_fields g eth vi tos b2 b3 middle proto options u0 u1 u2 u3 u4 u5 uck body :
  let ihl := Z.land (u8 vi) 0x0f * 4 in
  let total := from_be16 b2 b3 in
  let udp_len := from_be16 u4 u5 in
  len eth = 14 -> len middle = 5 -> len options = ihl - 10 -> 20 <= ihl -> len uck = 2 ->
  handle_ipv4 g (eth ++ ([vi; tos; b2; b3] ++ middle ++ [proto] ++ options) ++
    ([u0; u1; u2; u3; u4; u5] ++ uck) ++ body) =
  if (Z.shiftr (u8 vi) 4 =? 4) && (u8 proto =? IPPROTO_UDP) && (ihl + 8 <=? total) && (total - ihl <=? 8 + len body)
     && (from_be16 u0 u1 =? DHCP_CLIENT_PORT) && (from_be16 u2 u3 =? DHCP_SERVER_PORT)
     && (8 <=? udp_len) && (udp_len <=? total - ihl)
  then handle_dhcp g (ztake (udp_len - 8) body) else Ret None.
Proof.
  intros ihl total udp_len He Hm Ho Hi Hu. unfold handle_ipv4.
  set (iph := ([vi; tos; b2; b3] ++ _)%list). set (udph := ([u0; u1; u2; u3; u4; u5] ++ uck)%list).
  assert (len iph = ihl) as Hiph.
  { subst iph. rewrite !len_app, Hm, Ho. change (len [vi; tos; b2; b3]) with 4. change (len [proto]) with 1. lia. }
  assert (len udph = 8) as Hudph by (subst udph; rewrite len_app, Hu; done).
  pose proof (len_nonneg body) as Hb. pose proof (from_be16_range b2 b3) as Htot.
  rewrite (proj2 (Z.ltb_ge _ _)) by (rewrite !len_app, He, Hiph, Hudph; lia).
  rewrite slice_tail by (rewrite ?len_app; lia). cbn [exec_bind].
  assert (exists m0 m1 m2 m3 m4, middle = [m0; m1; m2; m3; m4]) as (m0 & m1 & m2 & m3 & m4 & Em)
    by (by apply len5_inv).
  rewrite !(idx_app_l iph _ 0 vi), !(idx_app_l iph _ 9 proto), (idx_app_l iph _ 2 b2), (idx_app_l iph _ 3 b3)
    by (subst iph; rewrite ?Em; done).
  cbn [exec_bind]. fold ihl. fold total. rewrite !len_app, Hiph, Hudph.
  rewrite (proj2 (Z.ltb_ge (ihl + (8 + len body)) (ihl + 8))), (proj2 (Z.ltb_ge ihl 20)) by lia.
  rewrite !orb_false_r. destruct (Z.shiftr (u8 vi) 4 =? 4); [|done]. cbn [negb andb].
  destruct (u8 proto =? IPPROTO_UDP); [|done]. cbn [negb andb].
  destruct (ihl + 8 <=? total) eqn:E1; b2p; [|by rewrite (proj2 (Z.ltb_lt _ _))].
  rewrite (proj2 (Z.ltb_ge total (ihl + 8))) by lia. cbn [orb andb].
  destruct (total - ihl <=? 8 + len body) eqn:E2; b2p; [|by rewrite (proj2 (Z.ltb_lt _ _)) by lia].
  rewrite (proj2 (Z.ltb_ge _ _)) by lia. cbn [andb].
  assert (slice (iph ++ udph ++ body) ihl total = Ret (udph ++ ztake (total - ihl - 8) body)%list) as ->.
  { unfold slice. rewrite !(proj2 (Z.leb_le _ _)) by (rewrite ?len_app; lia). cbn [andb].
    rewrite zdrop_app_exact by done. f_equal.
    rewrite ztake_app_ge by lia. by rewrite Hudph. }
  cbn [exec_bind]. set (rest := ztake (total - ihl - 8) body).
  rewrite (idx_app_l udph rest 0 u0), (idx_app_l udph rest 1 u1), (idx_app_l udph rest 2 u2), (idx_app_l udph rest 3 u3),
    (idx_app_l udph rest 4 u4), (idx_app_l udph rest 5 u5) by done.
  cbn [exec_bind]. fold udp_len.
  assert (len rest = total - ihl - 8) as Hrest by (subst rest; rewrite len_ztake by lia; lia).
  rewrite len_app, Hudph, Hrest. replace (8 + (total - ihl - 8)) with (total - ihl) by lia.
  destruct (from_be16 u0 u1 =? DHCP_CLIENT_PORT); [|done]. destruct (from_be16 u2 u3 =? DHCP_SERVER_PORT); [|done].
  cbn [negb andb orb].
  destruct (8 <=? udp_len) eqn:E3; b2p; [|by rewrite (proj2 (Z.ltb_lt _ _))].
  rewrite (proj2 (Z.ltb_ge udp_len 8)) by lia. cbn [orb andb].
  destruct (udp_len <=? total - ihl) eqn:E4; b2p; [|by rewrite (proj2 (Z.ltb_lt _ _))].
  rewrite (proj2 (Z.ltb_ge _ _)) by lia.
  unfold slice. rewrite !(proj2 (Z.leb_le _ _)) by (rewrite ?len_app; lia). cbn [andb exec_bind].
  rewrite zdrop_app_exact by done. subst rest. f_equal.
  unfold ztake. rewrite take_take. f_equal. lia.
Qed.

(** A frame with room for the headers, field by field. *)
Lemma ipv4_frame_fields (frame : list byte) vi :
  let ihl := Z.land (u8 vi) 0x0f * 4 in
  frame !! 14%nat = Some vi -> 20 <= ihl -> 14 + ihl + 8 <= len frame ->
  exists dst src t0 t1 tos b2 b3 middle proto options u0 u1 u2 u3 u4 u5 uck body,
    frame = ((dst ++ src ++ [t0; t1]) ++ ([vi; tos; b2; b3] ++ middle ++ [proto] ++ options) ++
      ([u0; u1; u2; u3; u4; u5] ++ uck) ++ body)%list /\
    len dst = 6 /\ len src = 6 /\ len middle = 5 /\ len options = ihl - 10 /\ len uck = 2.
Proof.
  intros ihl Hvi Hi Hl.
  destruct (split_at 6 frame) as (dst & f1 & -> & Hd); [lia|]. rewrite len_app in Hl.
  destruct (split_at 6 f1) as (src & f2 & -> & Hs); [lia|]. rewrite len_app in Hl.
  destruct (split_at 2 f2) as (ty & f3 & -> & Ht); [lia|]. rewrite len_app in Hl.
  destruct (split_at 4 f3) as (h & f4 & -> & Hh); [lia|]. rewrite len_app in Hl.
  destruct (split_at 6 f4) as (h' & f5 & -> & Hh'); [lia|]. rewrite len_app in Hl.
  destruct (split_at (ihl - 10) f5) as (options & f6 & -> & Ho); [lia|]. rewrite len_app in Hl.
  destruct (split_at 6 f6) as (u & f7 & -> & Hu); [lia|]. rewrite len_app in Hl.
  destruct (split_at 2 f7) as (uck & body & -> & Huck); [lia|].
  apply len2_inv in Ht as (t0 & t1 & ->). apply len4_inv in Hh as (v & tos & b2 & b3 & ->).
  apply len6_inv in Hh' as (m0 & m1 & m2 & m3 & m4 & proto & ->), Hu as (u0 & u1 & u2 & u3 & u4 & u5 & ->).
  assert (v = vi) as ->.
  { apply len6_inv in Hd as (?&?&?&?&?&?&->), Hs as (?&?&?&?&?&?&->). by injection Hvi. }
  exists dst, src, t0, t1, tos, b2, b3, [m0; m1; m2; m3; m4], proto, options, u0, u1, u2, u3, u4, u5, uck, body.
  split; [|done]. cbn [app]. rewrite <- !(assoc_L (++)). done.
Qed.

Lemma version_ihl vi : Z.shiftr (u8 vi) 4 = 4 <-> u8 vi = 0x40 + Z.land (u8 vi) 0x0f.
Proof.
  pose proof (u8_range vi) as Hv. change 0x0f with (Z.ones 4). rewrite Z.land_ones by lia.
  rewrite Z.shiftr_div_pow2 by lia. change (2 ^ 4) with 16.
  pose proof (Z.div_mod (u8 vi) 16). lia.
Qed.

(** What the gateway answers to IPv4 is for a datagram to its DHCP server. *)
Lemma handle_ipv4_holds g frame t0 t1 :
  wf g -> idx frame 12 = Ret t0 -> idx frame 13 = Ret t1 -> from_be16 t0 t1 = ETHERTYPE_IPV4 ->
  holds (handle_ipv4 g frame) (fun o => forall r, o = Some r -> answers_dhcp g frame r).
Proof.
  intros Hwf E0 E1 Ety. destruct (Z.lt_ge_cases (len frame) 34) as [Hl|Hl].
  { unfold handle_ipv4. by rewrite (proj2 (Z.ltb_lt _ _)). }
  destruct (lookup_lt_is_Some_2 frame 14) as [vi Hvi]; [unfold len in Hl; lia|].
  set (ihl := Z.land (u8 vi) 0x0f * 4).
  destruct (decide (20 <= ihl /\ 14 + ihl + 8 <= len frame)) as [[Hi Hr]|Hshort]; cycle 1.
  { unfold handle_ipv4. rewrite (proj2 (Z.ltb_ge _ _)) by lia.
    rewrite slice_from by lia. cbn [exec_bind].
    assert (idx (zdrop 14 frame) 0 = Ret vi) as -> by (unfold idx, zdrop; rewrite lookup_drop;
      change (Z.to_nat 14 + Z.to_nat 0)%nat with 14%nat; by rewrite Hvi).
    cbn [exec_bind]. fold ihl. rewrite len_zdrop by lia.
    destruct (ihl <? 20) eqn:E2; b2p; [by rewrite orb_true_r|].
    destruct (_ <? ihl + 8) eqn:E3; b2p; [by rewrite orb_true_r|]. lia. }
  destruct (ipv4_frame_fields frame vi Hvi Hi Hr) as (dst & src & x0 & x1 & tos & b2 & b3 & middle & proto & options &
    u0 & u1 & u2 & u3 & u4 & u5 & uck & body & -> & Hd & Hs & Hm & Ho & Hu).
  destruct (ethertype_read dst src x0 x1 (([vi; tos; b2; b3] ++ middle ++ [proto] ++ options) ++
    ([u0; u1; u2; u3; u4; u5] ++ uck) ++ body) Hd Hs) as [F0 F1]. rewrite F0 in E0. rewrite F1 in E1. simplify_eq.
  rewrite handle_ipv4_fields by (done || rewrite !len_app, Hd, Hs; done). fold ihl.
  case_match eqn:Ec; [|done]. b2p.
  pose proof (from_be16_range b2 b3). pose proof (from_be16_range u4 u5). pose proof (len_nonneg body).
  destruct (split_at (from_be16 u4 u5 - 8) body) as (payload & body' & -> & Hp); [lia|].
  rewrite ztake_app_exact by done. rewrite len_app in *.
  destruct (handle_dhcp_spec g payload Hwf) as (o & -> & Hspec). cbn [holds]. intros r Hr'.
  apply Hspec in Hr' as (ask & answer & xid & mac & Hask & Hans & Hresp).
  exists payload, ask, answer, xid, mac. split; [|done].
  destruct (split_at (from_be16 b2 b3 - ihl - from_be16 u4 u5) body') as (rest & pad & -> & Hrest); [lia|].
  assert (u8 vi = 0x40 + Z.land (u8 vi) 0x0f) as Hver by (by apply version_ihl).
  pose proof (Z.land_ones (u8 vi) 4) as Hones. change (Z.ones 4) with 0x0f in Hones.
  pose proof (Z.mod_pos_bound (u8 vi) (2 ^ 4)). unfold ihl in *.
  exists dst, src, (Z.land (u8 vi) 0x0f), vi, tos, middle, options, uck, rest, pad.
  replace (4 * Z.land (u8 vi) 15 + 8 + len payload + len rest) with (from_be16 b2 b3) by lia.
  replace (8 + len payload) with (from_be16 u4 u5) by lia.
  split_and!; try done; try (unfold u16_max; lia).
  rewrite <-Ety, !to_from_be16. rewrite <-(byte_of_Z_u8 proto). unfold DHCP_CLIENT_PORT, DHCP_SERVER_PORT in *.
  repeat match goal with E : from_be16 _ _ = 68 |- _ => rewrite <-E | E : from_be16 _ _ = 67 |- _ => rewrite <-E end.
  repeat match goal with E : u8 proto = _ |- _ => rewrite <-E end.
  rewrite !to_from_be16, !byte_of_Z_u8. cbn [app]. by rewrite <- !(assoc_L (++)).
Qed.

(** A datagram to the DHCP server is read by it. *)
Lemma handle_frame_dhcp g frame payload :
  dhcp_datagram frame payload -> handle_frame g frame = handle_dhcp g payload.
Proof.
  intros (dst & src & n & vi & tos & middle & options & uck & rest & pad & Hd & Hs & Hn & Hvi & Hm & Ho & Hu & Htot & ->).
  pose proof (len_nonneg payload). pose proof (len_nonneg rest). pose proof (len_nonneg pad).
  rewrite handle_frame_ethertype by (done || unfold ETHERTYPE_IPV4; lia).
  change (ETHERTYPE_IPV4 =? ETHERTYPE_ARP) with false. rewrite Z.eqb_refl. cbv iota.
  assert (Z.land (u8 vi) 0x0f = n) as Hland.
  { change 0x0f with (Z.ones 4). rewrite Z.land_ones by lia. rewrite Hvi. change (2 ^ 4) with 16.
    replace (0x40 + n) with (n + 4 * 16) by lia. rewrite Z.mod_add by lia. apply Z.mod_small. lia. }
  unfold u16_max in Htot.
  assert (forall z, 0 <= z < 2 ^ 16 -> exists a b, to_be16 z = [a; b] /\ from_be16 a b = z) as Hbe
    by (intros z Hz; eexists _, _; split; [done|]; by apply from_to_be16).
  destruct (Hbe (4 * n + 8 + len payload + len rest)) as (b2 & b3 & Eb & Fb); [lia|].
  destruct (Hbe (8 + len payload)) as (u4 & u5 & Eu & Fu); [lia|]. rewrite Eb, Eu.
  change ([vi; tos] ++ [b2; b3] ++ ?x)%list with ([vi; tos; b2; b3] ++ x)%list.
  change (to_be16 68 ++ to_be16 67 ++ [u4; u5] ++ uck)%list with
    ([byte_of_Z (68 / 2 ^ 8); byte_of_Z 68; byte_of_Z (67 / 2 ^ 8); byte_of_Z 67; u4; u5] ++ uck)%list.
  rewrite handle_ipv4_fields; rewrite ?Hland; try done; try lia.
  - rewrite Fb, Fu, !from_to_be16 by lia.
    rewrite (proj2 (Z.eqb_eq (Z.shiftr (u8 vi) 4) 4)) by (apply version_ihl; lia).
    change (u8 (byte_of_Z IPPROTO_UDP) =? IPPROTO_UDP) with true.
    rewrite !(proj2 (Z.leb_le _ _)) by (rewrite ?len_app; lia). cbn [andb].
    change (68 =? DHCP_CLIENT_PORT) with true. change (67 =? DHCP_SERVER_PORT) with true. cbn [andb].
    by rewrite ztake_app_exact by lia.
  - by rewrite !len_app, Hd, Hs.
Qed.

Lemma handle_frame_holds g frame :
  wf g ->
  holds (handle_frame g frame) (fun o =>
    forall r, o = Some r -> answers_arp g frame r \/ answers_dhcp g frame r).
Proof.
  intros Hwf. unfold handle_frame. exec_step; [done|].
  apply holds_bind, holds_idx; [lia|]. intros t0 E0.
  apply holds_bind, holds_idx; [lia|]. intros t1 E1.
  exec_step; [|exec_step; [|done]].
  - eapply holds_mono; [eapply (handle_arp_holds g frame t0 t1); unfold idx|by auto];
      [by rewrite E0|by rewrite E1|done].
  - eapply holds_mono; [eapply (handle_ipv4_holds g frame t0 t1); unfold idx|by auto];
      [done|by rewrite E0|by rewrite E1|done].
Qed.

(** ** Theorems *)

(** What a DHCP client reads from the message [bootp] of an answer. *)
Record lease (g : L2Gateway) (message_type : Z) (xid mac bootp : list byte) : Prop := {
  lease_xid : slice bootp 4 8 = Ret xid;
  lease_address : slice bootp 16 20 = Ret (guest_ip g);
  lease_mac : slice bootp 28 34 = Ret mac;
  lease_type : has_option 53 (zdrop 240 bootp) [byte_of_Z message_type];
  lease_server : has_option 54 (zdrop 240 bootp) (gateway_ip g);
  lease_time : has_option 51 (zdrop 240 bootp) (to_be32 3600);
  lease_mask : has_option 1 (zdrop 240 bootp) (to_be32 (2 ^ 32 - 2 ^ (32 - Z.min (prefix_len g) 32)));
  lease_router : has_option 3 (zdrop 240 bootp) (gateway_ip g);
  lease_dns : has_option 6 (zdrop 240 bootp) (dns_ip g);
  lease_mtu : has_option 26 (zdrop 240 bootp) (to_be16 (mtu g))
}.

Lemma subnet_mask_spec p :
  0 <= p <= u8_max -> subnet_mask p = to_be32 (2 ^ 32 - 2 ^ (32 - Z.min p 32)).
Proof.
  intros Hp. unfold subnet_mask. case_test; [by subst|]. f_equal.
  unfold wrap32, u32_max. rewrite Z.shiftl_mul_pow2 by lia.
  set (k := 32 - Z.min p 32). assert (0 <= k < 32) by lia.
  assert (2 ^ 32 = 2 ^ (32 - k) * 2 ^ k) as E by (rewrite <- Z.pow_add_r by lia; f_equal; lia).
  assert (0 < 2 ^ k) by lia. assert (2 ^ k <= 2 ^ 32) by (apply Z.pow_le_mono_r; lia).
  replace ((2 ^ 32 - 1) * 2 ^ k) with (2 ^ 32 - 2 ^ k + (2 ^ k - 1) * 2 ^ 32) by ring.
  rewrite Z.mod_add by lia. apply Z.mod_small. lia.
Qed.

Lemma option_read payload code v :
  0 < code < 255 -> 240 <= len payload -> dhcp_option payload code = Ret (Some v) ->
  has_option code (zdrop 240 payload) v.
Proof.
  intros Hc Hl E. destruct (dhcp_option_spec payload code Hc Hl) as (o & E' & Ho). apply Ho. congruence.
Qed.

Lemma bootp_image_lease g t xid mac :
  wf g -> len xid = 4 -> len mac = 6 -> lease g t xid mac (bootp_image g t xid mac).
Proof.
  intros Hwf Hx Hm. pose proof (len_bootp_image g t xid mac Hwf Hx Hm) as Hlen.
  destruct Hwf as [_ _ Hgw Hg Hd Hp _].
  apply len4_inv in Hx as (?&?&?&?&->). apply len6_inv in Hm as (?&?&?&?&?&?&->).
  apply subnet_mask_spec in Hp. destruct g as [gm um gw gu dn pl m].
  cbn [guest_ip gateway_ip dns_ip prefix_len mtu] in *.
  apply len4_inv in Hgw as (?&?&?&?&->), Hg as (?&?&?&?&->), Hd as (?&?&?&?&->).
  assert (exists m0 m1 m2 m3, subnet_mask pl = [m0; m1; m2; m3]) as (m0 & m1 & m2 & m3 & Em)
    by (unfold subnet_mask, to_be32; eauto).
  rewrite Em in Hp. split; cbn [guest_ip gateway_ip dns_ip prefix_len mtu]; rewrite <- ?Hp.
  all: try (apply option_read; [done|lia|]).
  all: unfold bootp_image, dhcp_options; cbn [guest_ip gateway_ip dns_ip prefix_len mtu];
    rewrite Em; unfold bytes, to_be16; cbn [map];
    generalize (byte_of_Z t), (byte_of_Z m), (byte_of_Z (m / 2 ^ 8)); intros; vm_compute; reflexivity.
Qed.

(** An offer or an acknowledgement, broadcast by the gateway: an IPv4 header whose
    checksum verifies, a UDP datagram from port 67 to port 68, and a lease. *)
Definition offers (g : L2Gateway) (r : list byte) : Prop :=
  exists header bootp answer xid mac,
    r = (replicate 6 Byte.xff ++ gateway_mac g ++ to_be16 ETHERTYPE_IPV4 ++ header ++
      to_be16 67 ++ to_be16 68 ++ to_be16 (8 + len bootp) ++ to_be16 0 ++ bootp)%list /\
    len header = 20 /\ ipv4_checksum header = Ret 0 /\ lease g answer xid mac bootp.

Lemma response_offers g payload ask answer xid mac r :
  wf g -> dhcp_asks payload ask xid mac -> dhcp_response g answer xid mac = Ret r -> offers g r.
Proof.
  intros Hwf (Hl & _ & Hx & Hm & _) Er.
  destruct (slice_ret payload 4 8) as (x & Ex & Lx); [lia..|].
  destruct (slice_ret payload 28 34) as (y & Ey & Ly); [lia..|].
  rewrite Hx in Ex. rewrite Hm in Ey. injection Ex as <-. injection Ey as <-.
  destruct (dhcp_response_frame g answer xid mac) as (h & Er' & Hh & _ & Hc); [done..|].
  rewrite Er in Er'. injection Er' as ->.
  exists h, (bootp_image g answer xid mac), answer, xid, mac. rewrite len_bootp_image by done.
  split_and!; try done. by apply bootp_image_lease.
Qed.


(** A client's DHCP discover or request is answered: for every
    frame that carries one (Ethernet, an IPv4 header without options, UDP from
    port 68 to 67), the answer is an offer or an acknowledgement for the same
    transaction and hardware address whose IPv4 header checksum verifies and
    whose message leases the guest's configured address with the mask of the
    prefix length, the gateway as router and server, the DNS address and the
    MTU. *)
Theorem dhcp_exchange g dst src tos id ttl ck addrs uck payload ask v answer xid mac :
  wf g -> len dst = 6 -> len src = 6 -> len id = 4 -> len ck = 2 -> len addrs = 8 -> len uck = 2 ->
  240 <= len payload -> 28 + len payload <= u16_max ->
  slice payload 236 240 = Ret DHCP_MAGIC_COOKIE ->
  dhcp_option payload 53 = Ret (Some (ask :: v)) ->
  (u8 ask = 1 /\ answer = 2 \/ u8 ask = 3 /\ answer = 5) ->
  slice payload 4 8 = Ret xid -> slice payload 28 34 = Ret mac ->
  exists header bootp,
    handle_frame g (dhcp_client_frame (dst ++ src ++ to_be16 ETHERTYPE_IPV4) tos id ttl ck addrs uck payload) =
      Ret (Some (replicate 6 Byte.xff ++ gateway_mac g ++ to_be16 ETHERTYPE_IPV4 ++ header ++
        to_be16 67 ++ to_be16 68 ++ to_be16 (8 + len bootp) ++ to_be16 0 ++ bootp)%list) /\
    len header = 20 /\ ipv4_checksum header = Ret 0 /\ lease g answer xid mac bootp.
Proof.
  intros Hwf Hd Hs Hid Hck Ha Hu Hlo Hhi Hco Hopt Hty Hx Hm.
  assert (len xid = 4 /\ len mac = 6) as [Lx Lm].
  { destruct (slice_ret payload 4 8) as (x & Ex & Lx); [lia..|].
    destruct (slice_ret payload 28 34) as (y & Ey & Ly); [lia..|].
    rewrite Hx in Ex. rewrite Hm in Ey. injection Ex as <-. injection Ey as <-. done. }
  destruct (dhcp_response_frame g answer xid mac) as (h & Er & Hl & _ & Hc); [done..|].
  exists h, (bootp_image g answer xid mac). rewrite len_bootp_image by done.
  split_and!; [|done..|by apply bootp_image_lease].
  unfold dhcp_client_frame. rewrite handle_frame_ethertype by (done || unfold ETHERTYPE_IPV4; lia).
  change (ETHERTYPE_IPV4 =? ETHERTYPE_ARP) with false. rewrite Z.eqb_refl. cbv iota.
  etrans; [apply handle_ipv4_client; try done; by rewrite !len_app, Hd, Hs|].
  unfold handle_dhcp. rewrite (proj2 (Z.ltb_ge _ _)), Hco, Hopt by lia. cbn [exec_bind].
  rewrite bool_decide_true by done. cbn. unfold try_into.
  destruct Hty as [[-> ->]|[-> ->]]; cbn [Z.eqb Pos.eqb]; rewrite Hx, Hm; cbn [exec_bind];
    rewrite Lx, Lm; cbn [Z.eqb Pos.eqb]; by rewrite Er.
Qed.

(** Printed addresses are read back: the gateway built from a
    guest network whose addresses are printed in the usual notation has exactly
    those addresses, and is well formed. *)
Theorem from_guest_network_roundtrip gw_mac gmac gwip gip dip pl ms m :
  len gw_mac = 6 -> len gmac = 6 -> len gwip = 4 -> len gip = 4 -> len dip = 4 ->
  0 <= pl <= u8_max -> 0 <= m <= u16_max ->
  let g := mkL2 gw_mac gmac gwip gip dip pl m in
  from_guest_network
    (Policy.mkGuestNetwork (show_ip gip) (show_ip gwip) pl (show_ip dip) (show_mac gmac) ms)
    gw_mac m = Ok g /\ wf g.
Proof.
  intros Hgw Hg H1 H2 H3 Hp Hm g. split; [|by split].
  unfold from_guest_network. cbn [Policy.guest_mac Policy.gateway_ip Policy.guest_ip Policy.dns_ip].
  by rewrite parse_show_mac, !parse_show_ip.
Qed.

(** ** Witnesses *)

Definition demo_gateway : L2Gateway :=
  mkL2 (bytes [2; 0xfc; 0; 0; 0; 1]) (bytes [2; 0xfc; 0x12; 0x34; 0x56; 0x78])
    (bytes [10; 0; 2; 2]) (bytes [10; 0; 2; 15]) (bytes [10; 0; 2; 3]) 24 1500.

Lemma demo_gateway_wf : wf demo_gateway.
Proof. split; vm_compute; intuition congruence. Qed.

Definition demo_discover : list byte :=
  (bytes [1; 1; 6; 0; 7; 7; 7; 7] ++ replicate 20 Byte.x00 ++ guest_mac demo_gateway ++
   replicate 202 Byte.x00 ++ DHCP_MAGIC_COOKIE ++ bytes [0; 53; 1; 1; 255])%list.

Definition demo_ask : list byte :=
  dhcp_client_frame (replicate 6 Byte.xff ++ guest_mac demo_gateway ++ to_be16 ETHERTYPE_IPV4) Byte.x00
    (bytes [0; 0; 0; 0]) (byte_of_Z 64) (bytes [0; 0]) (replicate 8 Byte.x00) (bytes [0; 0]) demo_discover.


End L2.
