(* ===== verification/DnsProxy.v ===== *)
(** The DNS proxy of the gateway (src/vm-frontend/src/dns_proxy.rs): which
    queries are forwarded upstream, which are answered locally and how domain
    allowlist entries match.

    DNS messages belong to the [hickory_proto] crate: an interface with the
    operations the proxy uses. *)

From stdpp Require Import base option list numbers strings.
From Stdlib Require Import ZArith Lia Ascii String.
From S2P Require Import Prelude RustStr NetworkPolicy.

Local Open Scope string_scope.
Local Open Scope Z_scope.

Module Dns.
Import Policy.

Definition DNS_PORT : Z := 53.

Inductive ResponseCode := FormErr | Refused | ServFail.
Inductive MessageType := MessageQuery | MessageResponse.

(** The interface of [hickory_proto::op]. *)
Class HickoryOps := {
  Message : Type;
  Metadata : Type;
  Query : Type;
  OpCode : Type;
  (** [Message::from_vec]; decoding may fail and, on some input, panic. *)
  from_vec : list byte -> exec (result Message string);
  (** [Message::to_vec]. *)
  to_vec : Message -> option (list byte);
  message_new : Z -> MessageType -> OpCode -> Message;
  queries : Message -> list Query;
  (** [query.name().to_ascii()]. *)
  query_name : Query -> string;
  metadata : Message -> Metadata;
  set_metadata : Message -> Metadata -> Message;
  add_queries : Message -> list Query -> Message;
  metadata_id : Metadata -> Z;
  metadata_op_code : Metadata -> OpCode;
  response_from_request : Metadata -> Metadata;
  set_response_code : Metadata -> ResponseCode -> Metadata;
  set_recursion_available : Metadata -> bool -> Metadata
}.

Inductive DnsDecision := Allowed | Blocked | Malformed | UpstreamFailure.

Record DnsLogEntry := mkLog {
  log_domain : option string;
  decision : DnsDecision;
  detail : string
}.

Record DnsProxyResult := mkResult {
  response : option (list byte);
  log : DnsLogEntry
}.

Inductive DnsUpstreamError := InvalidQuery | Unavailable | InvalidResponse.

(** [format!("{error:?}")]. *)
Definition debug_upstream_error (e : DnsUpstreamError) : string :=
  match e with
  | InvalidQuery => "InvalidQuery"
  | Unavailable => "Unavailable"
  | InvalidResponse => "InvalidResponse"
  end.

(** ** Domain allowlists *)

Definition normalize (s : string) : string := to_ascii_lowercase (trim_end_matches "." s).

Definition domain_matches (allowed domain : string) : bool :=
  let allowed := normalize allowed in
  let domain := normalize domain in
  match strip_prefix "*." allowed with
  | Some suffix => bool_decide (domain = suffix) || ends_with ("." ++ suffix) domain
  | None => bool_decide (allowed = domain)
  end.

(** ** Addresses *)

Definition parse_ipv4 (value : string) : option (list byte) :=
  let parts := split_char "." value in
  if len parts =? 4 then parse_u8_all parts else None.

Definition payload_has_answer_or_authority_records (payload : list byte) : exec bool :=
  if len payload <? 12 then Ret false
  else
    let! b6 := idx payload 6 in
    let! b7 := idx payload 7 in
    let! b8 := idx payload 8 in
    let! b9 := idx payload 9 in
    Ret (negb (from_be16 b6 b7 =? 0) || negb (from_be16 b8 b9 =? 0)).

Section Proxy.
Context `{Ipv4NetOps} `{HickoryOps}.

Definition domain_allowed (policy : VmnetPolicy) (domain : string) : bool :=
  match default_action (egress policy) with
  | AllowPublicInternet => true
  | Deny => existsb (fun allowed => domain_matches allowed domain) (allow_domains (egress policy))
  end.

Definition dns_allowed_to_destination (policy : VmnetPolicy) (dst_ip : list byte) (dst_port : Z)
  : bool :=
  allow_dns_to_gateway (udp (protocols policy)) && (dst_port =? DNS_PORT) &&
  match parse_ipv4 (dns_ip (assignment policy)) with
  | Some ip => bool_decide (ip = dst_ip)
  | None => false
  end.

Definition query_domain (query : Message) : option string :=
  match queries query with
  | [q] => Some (normalize (query_name q))
  | _ => None
  end.

(** [catch_unwind] turns a panic of the decoder into an error. *)
Definition parse_message (payload : list byte) : result Message string :=
  match from_vec payload with
  | Ret (Ok m) => Ok m
  | Ret (Err e) => Err e
  | Panic => Err "DNS parser panicked on malformed payload"
  end.

Definition error_response (query : Message) (code : ResponseCode) : Message :=
  let m := message_new (metadata_id (metadata query)) MessageResponse
             (metadata_op_code (metadata query)) in
  let md := response_from_request (metadata query) in
  let md := set_response_code md code in
  let md := set_recursion_available md true in
  add_queries (set_metadata m md) (queries query).

Definition serialize_response (m : Message) : option (list byte) := to_vec m.

Record DnsForwardRequest := mkForward { fwd_query : Message; fwd_domain : string }.

Inductive DnsProxyPlan :=
| Immediate (r : DnsProxyResult)
| Forward (request : DnsForwardRequest).

Definition plan_udp_payload (policy : VmnetPolicy) (payload : list byte) : exec DnsProxyPlan :=
  let! bad := payload_has_answer_or_authority_records payload in
  if bad : bool then
    Ret (Immediate (mkResult None (mkLog None Malformed
      "DNS query payload must not contain answer or authority records")))
  else
    match parse_message payload with
    | Err error => Ret (Immediate (mkResult None (mkLog None Malformed error)))
    | Ok query =>
        match query_domain query with
        | None =>
            Ret (Immediate (mkResult (serialize_response (error_response query FormErr))
              (mkLog None Malformed "expected exactly one DNS question")))
        | Some domain =>
            if negb (domain_allowed policy domain) then
              Ret (Immediate (mkResult (serialize_response (error_response query Refused))
                (mkLog (Some domain) Blocked "domain denied by VmnetPolicy")))
            else Ret (Forward (mkForward query domain))
        end
    end.

Definition complete_forward (request : DnsForwardRequest)
  (exchange : result Message DnsUpstreamError) : DnsProxyResult :=
  match exchange with
  | Ok m =>
      mkResult (serialize_response m)
        (mkLog (Some (fwd_domain request)) Allowed "forwarded to upstream")
  | Err e =>
      mkResult (serialize_response (error_response (fwd_query request) ServFail))
        (mkLog (Some (fwd_domain request)) UpstreamFailure (debug_upstream_error e))
  end.

(** The upstream resolver is a stateful parameter; its state records what was
    asked of it. *)
Definition handle_udp_payload {W} (exchange : W -> Message -> result Message DnsUpstreamError * W)
  (policy : VmnetPolicy) (w : W) (payload : list byte) : exec (DnsProxyResult * W) :=
  let! plan := plan_udp_payload policy payload in
  match plan with
  | Immediate r => Ret (r, w)
  | Forward request =>
      let '(ex, w') := exchange w (fwd_query request) in
      Ret (complete_forward request ex, w')
  end.

(** ** The UDP upstream

    The sockets of the host are a parameter: each call may fail, and acts on a
    state [W] of the host network. *)
Section Udp.
Context {W Socket SocketAddr : Type}.
Variable is_ipv4 : SocketAddr -> bool.
Variable bind : W -> string -> option Socket * W.
Variable set_read_timeout set_write_timeout : W -> Socket -> Z -> bool * W.
Variable send_to : W -> Socket -> list byte -> SocketAddr -> bool * W.
(** [recv_from] into a buffer of the given size: the bytes received. *)
Variable recv_from : W -> Socket -> Z -> option (list byte) * W.

Record UdpDnsUpstream := mkUdpUpstream { server : SocketAddr; timeout : Z }.

Definition udp_exchange (u : UdpDnsUpstream) (w : W) (query : Message)
  : result Message DnsUpstreamError * W :=
  match to_vec query with
  | None => (Err InvalidQuery, w)
  | Some wire =>
      let bind_addr := if is_ipv4 (server u) then "0.0.0.0:0" else "[::]:0" in
      match bind w bind_addr with
      | (None, w) => (Err Unavailable, w)
      | (Some socket, w) =>
          match set_read_timeout w socket (timeout u) with
          | (false, w) => (Err Unavailable, w)
          | (true, w) =>
              match set_write_timeout w socket (timeout u) with
              | (false, w) => (Err Unavailable, w)
              | (true, w) =>
                  match send_to w socket wire (server u) with
                  | (false, w) => (Err Unavailable, w)
                  | (true, w) =>
                      match recv_from w socket 4096 with
                      | (None, w) => (Err Unavailable, w)
                      | (Some response, w) =>
                          match parse_message response with
                          | Ok m => (Ok m, w)
                          | Err _ => (Err InvalidResponse, w)
                          end
                      end
                  end
              end
          end
      end
  end.
End Udp.

End Proxy.

(** ** Labels *)

Definition labels (s : string) : list string := split_char "." s.

(** A domain has the labels of [suffix] as its last labels. *)
Lemma label_suffix_iff suffix domain :
  bool_decide (domain = suffix) || ends_with ("." ++ suffix) domain = true <->
  exists pre, labels domain = (pre ++ labels suffix)%list.
Proof.
  rewrite orb_true_iff, bool_decide_eq_true, ends_with_iff. unfold labels.
  change ("." ++ suffix) with (String "." suffix). split.
  - intros [->|[t ->]]; [by exists []|]. exists (split_char "." t). apply split_char_sep.
  - intros [[|p pre] Hl]; pose proof (join_split "." domain) as Hd; rewrite Hl in Hd.
    + left. cbn [app] in Hd. by rewrite join_split in Hd.
    + right. exists (join (String "." "") (p :: pre)).
      rewrite join_app, join_split in Hd by (done || apply split_char_nonempty). done.
Qed.

(** ** Theorems *)

(** An allowlist entry without [*.] matches exactly the same
    domain, up to case and trailing dots; a [*.suffix] entry matches exactly the
    domains whose last labels are the labels of the suffix, so never a domain
    that merely ends in the same letters. *)
Theorem domain_matches_labels allowed domain :
  domain_matches allowed domain = true <->
  match strip_prefix "*." (normalize allowed) with
  | Some suffix => exists pre, labels (normalize domain) = (pre ++ labels suffix)%list
  | None => normalize domain = normalize allowed
  end.
Proof.
  unfold domain_matches. destruct (strip_prefix "*." (normalize allowed)).
  - apply label_suffix_iff.
  - rewrite bool_decide_eq_true. split; congruence.
Qed.

Example wildcard_needs_label_boundary :
  domain_matches "*.Example.com." "api.example.COM" = true /\
  domain_matches "*.example.com" "example.com" = true /\
  domain_matches "*.example.com" "badexample.com" = false.
Proof. vm_compute. auto. Qed.

Section ProxyFacts.
Context `{Ipv4NetOps} `{HickoryOps}.

Lemma answer_check_total payload :
  exists b, payload_has_answer_or_authority_records payload = Ret b.
Proof.
  unfold payload_has_answer_or_authority_records. case_test; [by eexists|].
  destruct payload as [|? [|? [|? [|? [|? [|? [|b6 [|b7 [|b8 [|b9 t]]]]]]]]]];
    try (vm_compute in Etest; by destruct Etest). by eexists.
Qed.

Lemma plan_total policy payload : exists plan, plan_udp_payload policy payload = Ret plan.
Proof.
  unfold plan_udp_payload. destruct (answer_check_total payload) as [b ->]. cbn [exec_bind].
  repeat case_match; by eexists.
Qed.

Lemma plan_forward_inv policy payload request :
  plan_udp_payload policy payload = Ret (Forward request) ->
  parse_message payload = Ok (fwd_query request) /\
  query_domain (fwd_query request) = Some (fwd_domain request) /\
  domain_allowed policy (fwd_domain request) = true /\
  payload_has_answer_or_authority_records payload = Ret false.
Proof.
  unfold plan_udp_payload. destruct (answer_check_total payload) as [b ->]. cbn [exec_bind].
  destruct b; [done|]. destruct (parse_message payload) as [q|]; [|done].
  destruct (query_domain q) as [d|] eqn:Ed; [|done].
  destruct (domain_allowed policy d) eqn:Ea; [|done]. cbn. by intros [= <-].
Qed.

(** C33 (safety). No query leaves the sandbox for a domain the policy does not
    allow: on every payload the proxy answers without a panic, and the upstream
    resolver is consulted only for a payload that decodes to exactly one
    question whose domain is allowed; in every other case its state is untouched
    and the log says the query was malformed or blocked. *)
Theorem dns_upstream_only_if_allowed {W}
  (exchange : W -> Message -> result Message DnsUpstreamError * W) policy (w : W) payload :
  exists r w', handle_udp_payload exchange policy w payload = Ret (r, w') /\
    ((w' = w /\ (decision (log r) = Malformed \/ decision (log r) = Blocked)) \/
     (exists q domain, parse_message payload = Ok q /\ query_domain q = Some domain /\
        domain_allowed policy domain = true /\ w' = (exchange w q).2 /\
        log_domain (log r) = Some domain /\
        (decision (log r) = Allowed \/ decision (log r) = UpstreamFailure))).
Proof.
  unfold handle_udp_payload.
  destruct (plan_total policy payload) as [[r|req] E]; rewrite E; cbn [exec_bind].
  - exists r, w. split; [done|]. left. split; [done|]. revert E. unfold plan_udp_payload.
    destruct (answer_check_total payload) as [b ->]. cbn [exec_bind].
    repeat case_match; intros [= <-]; cbn; auto.
  - apply plan_forward_inv in E as (Ep & Ed & Ea & _).
    destruct (exchange w (fwd_query req)) as [ex w'] eqn:Ex.
    exists (complete_forward req ex), w'. split; [done|]. right.
    exists (fwd_query req), (fwd_domain req). rewrite Ex. destruct ex; cbn; auto 10.
Qed.

End ProxyFacts.

End Dns.
