(* ===== verification/TcpGateway.v ===== *)
(** The TCP egress decision and the dialling of upstream hosts
    (src/vm-frontend/src/tcp_gateway.rs). *)

From stdpp Require Import base option list numbers strings.
From Stdlib Require Import ZArith Lia Ascii String.
From S2P Require Import Prelude RustStr NetworkPolicy DnsProxy.

Local Open Scope string_scope.
Local Open Scope Z_scope.

Module Tcp.
Import Policy Dns.

Record TcpDestination := mkDest { dest_ip : Ipv4Addr; dest_port : Z; dest_domain : option string }.

Inductive TcpAction := TcpDeny | Connect | InterceptHttp | InterceptHttps.

#[global] Instance TcpAction_eq_dec : EqDecision TcpAction.
Proof. solve_decision. Defined.

Record TcpDecision := mkDecision { action : TcpAction; decision_reason : string }.

Inductive TcpConnectError := PolicyDenied (d : TcpDecision) | UpstreamUnavailable.

Record UpstreamMapping := mkMapping {
  map_guest_ip : Ipv4Addr; map_guest_port : Z; map_host_ip : Ipv4Addr; map_host_port : Z }.

Section Decision.
Context `{Ipv4NetOps}.

Definition tcp_destination_allowed (policy : VmnetPolicy) (d : TcpDestination) : bool :=
  match default_action (egress policy) with
  | AllowPublicInternet => true
  | Deny =>
      match dest_domain d with
      | Some domain => domain_allowed policy domain
      | None => false
      end || ip_in_ranges (dest_ip d) (allow_ip_ranges (egress policy))
  end.

Definition https_mitm_configured (policy : VmnetPolicy) : bool :=
  bool_decide (is_Some (ca_cert_path (tls_mitm policy))) &&
  bool_decide (is_Some (ca_key_path (tls_mitm policy))) &&
  generate_per_host_certs (tls_mitm policy).

Definition evaluate_tcp_destination (policy : VmnetPolicy) (d : TcpDestination) : TcpDecision :=
  if ip_in_ranges (dest_ip d) (deny_ip_ranges (egress policy))
  then mkDecision TcpDeny "destination is in a denied range"
  else if negb (tcp_destination_allowed policy d)
  then mkDecision TcpDeny "destination denied by egress policy"
  else if (dest_port d =? 80) && intercept_http_port_80 (tcp (protocols policy))
  then mkDecision InterceptHttp "HTTP interception enabled"
  else if (dest_port d =? 443) && intercept_https_port_443 (tcp (protocols policy))
  then
    if negb (https_mitm_configured policy)
    then mkDecision TcpDeny
      "HTTPS MITM requires configured CA cert/key and per-host certificate generation"
    else mkDecision InterceptHttps "HTTPS interception enabled"
  else mkDecision Connect "generic TCP connect allowed".

(** ** Dialling

    The sockets of the host are a parameter: [connect_timeout], and the two
    socket options, over a state of the host network. *)
Context {W Stream : Type}.
Variable connect_timeout : W -> Ipv4Addr -> Z -> Z -> option Stream * W.
Variable set_nonblocking : W -> Stream -> bool * W.
Variable set_nodelay : W -> Stream -> bool * W.

Definition connect_socket_addr (w : W) (ip : Ipv4Addr) (port timeout : Z)
  : result Stream TcpConnectError * W :=
  match connect_timeout w ip port timeout with
  | (None, w1) => (Err UpstreamUnavailable, w1)
  | (Some s, w1) =>
      match set_nonblocking w1 s with
      | (false, w2) => (Err UpstreamUnavailable, w2)
      | (true, w2) =>
          match set_nodelay w2 s with
          | (false, w3) => (Err UpstreamUnavailable, w3)
          | (true, w3) => (Ok s, w3)
          end
      end
  end.

Definition std_connect (timeout : Z) (w : W) (d : TcpDestination)
  : result Stream TcpConnectError * W :=
  connect_socket_addr w (dest_ip d) (dest_port d) timeout.

Definition find_mapping (mappings : list UpstreamMapping) (d : TcpDestination)
  : option UpstreamMapping :=
  List.find (fun m => bool_decide (map_guest_ip m = dest_ip d) && (map_guest_port m =? dest_port d))
    mappings.

Definition mapped_connect (timeout : Z) (mappings : list UpstreamMapping) (w : W)
  (d : TcpDestination) : result Stream TcpConnectError * W :=
  match find_mapping mappings d with
  | Some m => connect_socket_addr w (map_host_ip m) (map_host_port m) timeout
  | None => std_connect timeout w d
  end.

Definition connect_if_allowed (policy : VmnetPolicy) (d : TcpDestination)
  (connect : W -> TcpDestination -> result Stream TcpConnectError * W) (w : W)
  : result (TcpDecision * Stream) TcpConnectError * W :=
  let dec := evaluate_tcp_destination policy d in
  if bool_decide (action dec = TcpDeny) then (Err (PolicyDenied dec), w)
  else
    match connect w d with
    | (Err e, w') => (Err e, w')
    | (Ok c, w') => (Ok (dec, c), w')
    end.

(** ** Facts *)

Lemma evaluate_not_deny policy d :
  action (evaluate_tcp_destination policy d) <> TcpDeny ->
  ip_in_ranges (dest_ip d) (deny_ip_ranges (egress policy)) = false /\
  tcp_destination_allowed policy d = true.
Proof.
  unfold evaluate_tcp_destination. repeat case_test; cbn; try done; intros _;
    split; try done; by apply negb_false_iff.
Qed.

Lemma evaluate_denied_range policy d :
  ip_in_ranges (dest_ip d) (deny_ip_ranges (egress policy)) = true ->
  action (evaluate_tcp_destination policy d) = TcpDeny.
Proof. unfold evaluate_tcp_destination. by intros ->. Qed.

(** The decision on every destination: the deny ranges come
    first and no allowlist overrides them; then the destination must be allowed
    by mode, by domain or by address; port 80 and 443 are intercepted when the
    policy says so, and HTTPS is refused rather than passed through when
    interception has no certificate authority. *)
Theorem evaluate_tcp_destination_table policy d :
  let denied := ip_in_ranges (dest_ip d) (deny_ip_ranges (egress policy)) in
  let allowed := tcp_destination_allowed policy d in
  let http := (dest_port d =? 80) && intercept_http_port_80 (tcp (protocols policy)) in
  let https := (dest_port d =? 443) && intercept_https_port_443 (tcp (protocols policy)) in
  let mitm := https_mitm_configured policy in
  (action (evaluate_tcp_destination policy d) = TcpDeny <->
     denied = true \/ allowed = false \/ (http = false /\ https = true /\ mitm = false)) /\
  (action (evaluate_tcp_destination policy d) = Connect <->
     denied = false /\ allowed = true /\ http = false /\ https = false) /\
  (action (evaluate_tcp_destination policy d) = InterceptHttp <->
     denied = false /\ allowed = true /\ http = true) /\
  (action (evaluate_tcp_destination policy d) = InterceptHttps <->
     denied = false /\ allowed = true /\ https = true /\ mitm = true).
Proof.
  cbv zeta. unfold evaluate_tcp_destination.
  assert ((dest_port d =? 80) && intercept_http_port_80 (tcp (protocols policy)) = true ->
          (dest_port d =? 443) && intercept_https_port_443 (tcp (protocols policy)) = false) as Hp.
  { intros Hp. b2p. by rewrite H0. }
  destruct (ip_in_ranges _ _), (tcp_destination_allowed _ _), (https_mitm_configured _),
    ((dest_port d =? 80) && _), ((dest_port d =? 443) && _); cbn;
    try specialize (Hp eq_refl); intuition congruence.
Qed.

Context `{!Ipv4NetLaws}.

(** C4 (safety). Whatever an operator adds to the allowlists, and also with
    public internet access enabled, a policy that keeps the default deny ranges
    refuses every destination whose guest-visible address is not public
    (loopback, private networks, the cloud metadata service), also one reached
    under an allowed domain name. The decision is about the address the guest
    dials: a configured upstream mapping of an allowed address is dialled as
    configured. *)
Theorem sandbox_never_reaches_private a p policy d :
  default_sandbox a = Ret p ->
  deny_ip_ranges (egress policy) = deny_ip_ranges (egress p) ->
  never_public (dest_ip d) ->
  action (evaluate_tcp_destination policy d) = TcpDeny.
Proof.
  intros Hp Hd Hn. apply evaluate_denied_range. rewrite Hd.
  pose proof default_deny_ranges_holds as Hr. apply holds_ret in Hr as (rs & Er & Hrs).
  unfold default_sandbox, EgressPolicy_default in Hp. rewrite Er in Hp. injection Hp as <-.
  cbn. by apply Hrs.
Qed.

(** Under [--no-net] every TCP destination is denied and every
    domain is blocked. *)
Theorem no_net_denies_everything a ports policy d :
  from_cli a true ports = Ret (Ok policy) ->
  action (evaluate_tcp_destination policy d) = TcpDeny /\
  forall domain, domain_allowed policy domain = false.
Proof.
  unfold from_cli. case_test; [done|].
  unfold default_sandbox, EgressPolicy_default.
  destruct default_deny_ranges as [rs|]; [|done]. cbn [exec_bind].
  intros [= <-]. split; [|done].
  unfold evaluate_tcp_destination, tcp_destination_allowed. cbn.
  destruct (dest_domain d); cbn; by repeat case_match.
Qed.

(** A denied destination opens no socket: the state of the host
    network is untouched and the error carries the decision; an accepted one
    dials exactly the mapped address when the guest's address and port have a
    mapping, and the guest's own address otherwise. *)
Theorem connect_if_allowed_spec policy d timeout mappings w :
  let dec := evaluate_tcp_destination policy d in
  connect_if_allowed policy d (mapped_connect timeout mappings) w =
  if decide (action dec = TcpDeny) then (Err (PolicyDenied dec), w)
  else
    let '(ip, port) :=
      match find_mapping mappings d with
      | Some m => (map_host_ip m, map_host_port m)
      | None => (dest_ip d, dest_port d)
      end in
    let '(r, w') := connect_socket_addr w ip port timeout in
    (let? c := r in Ok (dec, c), w').
Proof.
  cbv zeta. unfold connect_if_allowed, mapped_connect, std_connect.
  case_decide as Hd; [by rewrite bool_decide_true|]. rewrite bool_decide_false by done.
  by destruct (find_mapping mappings d); destruct (connect_socket_addr _ _ _ _) as [[]].
Qed.

End Decision.

(** ** Witnesses *)

Lemma sandbox_never_reaches_private_witness :
  exists p, default_sandbox GuestNetwork_default = Ret p /\
  action (evaluate_tcp_destination
    (mkPolicy GuestNetwork_default 1500
       (mkEgress AllowPublicInternet ExplicitAllowProfile ["*.internal"] [] (deny_ip_ranges (egress p)))
       ProtocolPolicy_default [] CapturePolicy_default TlsMitmPolicy_default)
    (mkDest (Ipv4 Byte.xa9 Byte.xfe Byte.xa9 Byte.xfe) 80 (Some "metadata.internal"))) = TcpDeny.
Proof.
  destruct (returns_inv (default_sandbox GuestNetwork_default)) as [p E]; [vm_compute; reflexivity|].
  exists p. split; [exact E|].
  apply (sandbox_never_reaches_private GuestNetwork_default p); [exact E|reflexivity|].
  do 4 right. left. split; reflexivity.
Defined.

End Tcp.
