(* ===== verification/FsPath.v ===== *)
(** Paths of the composed filesystem: [std::path] as the program uses it, and
    the path checks of src/composed-fs/src/lib.rs.

    A path is its bytes, a [string], with the standard library's view of it as
    a list of components. Error messages are kept without the values the source
    interpolates into them. *)

From stdpp Require Import base option list numbers strings.
From Stdlib Require Import ZArith Lia Ascii String.
From S2P Require Import Prelude RustIo RustStr.

Local Open Scope string_scope.
Local Open Scope Z_scope.

Module FsPath.

Definition invalid_input (message : string) : io_error := CustomError InvalidInput message.

Definition NUL : ascii := ascii_of_N 0.

(** ** [std::path] *)

Inductive Component := RootDir | CurDir | ParentDir | Normal (part : string).

#[global] Instance Component_eq_dec : EqDecision Component.
Proof. solve_decision. Defined.

Definition is_absolute (p : string) : bool := starts_with "/" p.

(** The components between separators: empty ones and [.] disappear. *)
Definition part_component (s : string) : option Component :=
  if bool_decide (s = "") || bool_decide (s = ".") then None
  else if bool_decide (s = "..") then Some ParentDir
  else Some (Normal s).

(** [Path::components]: a leading separator is the root, and a leading [.] of a
    relative path is kept. *)
Definition components (p : string) : list Component :=
  let parts := split_char "/" p in
  let body := omap part_component parts in
  if is_absolute p then RootDir :: body
  else match parts with
       | first :: _ => if bool_decide (first = ".") then CurDir :: body else body
       | [] => body
       end.

(** [PathBuf::join]. *)
Definition path_join (base p : string) : string :=
  if is_absolute p then p
  else if bool_decide (base = "") then p
  else if ends_with "/" base then base ++ p
  else base ++ "/" ++ p.

(** [Path::file_name]: the last component, when it is a name. *)
Definition file_name (p : string) : option string :=
  match last (components p) with
  | Some (Normal s) => Some s
  | _ => None
  end.

Definition component_str (c : Component) : string :=
  match c with RootDir => "/" | CurDir => "." | ParentDir => ".." | Normal s => s end.

Definition path_of_components (cs : list Component) : string :=
  match cs with
  | RootDir :: rest => "/" ++ join "/" (map component_str rest)
  | _ => join "/" (map component_str cs)
  end.

(** [Path::parent], as a path with the same components as the standard
    library's. *)
Definition parent (p : string) : option string :=
  match last (components p) with
  | None | Some RootDir => None
  | Some _ => Some (path_of_components (removelast (components p)))
  end.

(** ** Checks of the program *)

Definition validate_single_path_component (name : string) : io_result unit :=
  if bool_decide (name = "") || bool_decide (name = ".") || bool_decide (name = "..")
     || contains_char "/" name
  then Err (OsError ENOENT)
  else if contains_char NUL name then Err (OsError ENOENT)
  else Ok tt.

Definition component_safe (c : Component) : bool :=
  match c with Normal part => negb (contains_char NUL part) | _ => false end.

Definition validate_relative_path (path : string) : io_result unit :=
  if forallb component_safe (components path) then Ok tt
  else Err (invalid_input "unsafe host-relative path component").

Fixpoint check_components (parts : list string) : io_result (list string) :=
  match parts with
  | [] => Ok []
  | c :: rest =>
      if bool_decide (c = "") then check_components rest
      else if bool_decide (c = ".") || bool_decide (c = "..")
      then Err (invalid_input "guest_path contains invalid component")
      else if contains_char NUL c
      then Err (invalid_input "guest_path contains NUL byte in component")
      else let? cs := check_components rest in Ok (c :: cs)
  end.

Definition path_components (path : string) : io_result (list string) :=
  check_components (split_char "/" path).

Definition normalize_guest_path (path : string) : io_result string :=
  if negb (starts_with "/" path) then Err (invalid_input "guest_path must be absolute")
  else
    let? cs := path_components path in
    match cs with
    | [] => Ok "/"
    | _ => Ok ("/" ++ join "/" cs)
    end.

Definition parse_octal_mode (value : string) : io_result Z :=
  let trimmed := default value (strip_prefix "0o" value) in
  ok_or (from_str_radix 8 u32_max trimmed) (invalid_input "invalid octal mode").

(** ** Facts *)

(** A name that can be a directory entry. *)
Definition safe_name (s : string) : Prop :=
  s <> "" /\ s <> "." /\ s <> ".." /\ contains_char "/" s = false /\ contains_char NUL s = false.

Lemma validate_single_iff name :
  validate_single_path_component name = Ok tt <-> safe_name name.
Proof.
  unfold validate_single_path_component, safe_name. split.
  - by repeat case_test.
  - intros (? & ? & ? & -> & ->). by rewrite !bool_decide_false.
Qed.

Lemma safe_name_component s : safe_name s -> part_component s = Some (Normal s).
Proof. intros (? & ? & ? & _). unfold part_component. by rewrite !bool_decide_false. Qed.

Lemma slash_part_component s c :
  part_component s = Some c -> c = ParentDir \/ c = Normal s.
Proof. unfold part_component. repeat case_match; intros [= <-]; auto. Qed.

(** A relative path built from names: no separator at either end, and its
    components are exactly the names. *)
Definition rel_path (p : string) (names : list string) : Prop :=
  p = join "/" names /\ Forall safe_name names.

Lemma safe_no_slash names :
  Forall safe_name names -> Forall (fun s => contains_char "/" s = false) names.
Proof. intros H. eapply Forall_impl; [exact H|]. by intros s (_ & _ & _ & ? & _). Qed.

Lemma omap_safe names : Forall safe_name names -> omap part_component names = map Normal names.
Proof.
  induction 1 as [|s names Hs _ IH]; [done|]. cbn. by rewrite safe_name_component, IH.
Qed.

Lemma starts_with_slash_split p :
  starts_with "/" p = true -> exists rest, split_char "/" p = "" :: rest.
Proof.
  destruct p as [|a p]; [done|]. unfold starts_with. cbn. case_decide; [subst|done].
  intros _. rewrite decide_True by done. by eexists.
Qed.

Lemma rel_path_components p names : rel_path p names -> components p = map Normal names.
Proof.
  intros [-> Hs]. destruct names as [|s names]; [done|].
  assert (split_char "/" (join "/" (s :: names)) = s :: names) as E
    by (apply split_join; [done|by apply safe_no_slash]).
  unfold components. rewrite E, omap_safe by done.
  inversion Hs as [|? ? (Hne & Hdot & _) ?]; subst.
  destruct (is_absolute (join "/" (s :: names))) eqn:Ea.
  - apply starts_with_slash_split in Ea as [rest Ea]. rewrite E in Ea. by simplify_eq.
  - by rewrite bool_decide_false.
Qed.

Lemma rel_path_valid p names : rel_path p names -> validate_relative_path p = Ok tt.
Proof.
  intros Hp. unfold validate_relative_path. rewrite (rel_path_components p names Hp).
  destruct Hp as [_ Hs]. rewrite (proj2 (forallb_forall _ _)); [done|].
  intros c (s & <- & Hin)%in_map_iff. rewrite Forall_forall in Hs.
  destruct (Hs s) as (_ & _ & _ & _ & Hn); [by apply list_elem_of_In|].
  unfold component_safe. by rewrite Hn.
Qed.

Lemma ends_with_slash_last names :
  names <> [] -> Forall safe_name names -> ends_with "/" (join "/" names) = false.
Proof.
  intros Hne Hs. apply not_true_iff_false. intros [t Ht]%ends_with_iff.
  assert (split_char "/" (join "/" names) = names) as E
    by (apply split_join; [done|by apply safe_no_slash]).
  rewrite Ht in E. change (t ++ "/") with (t ++ String "/" "") in E.
  rewrite split_char_sep in E. change (split_char "/" "") with [""] in E. subst names.
  apply Forall_app in Hs as [_ Hs]. inversion Hs as [|? ? (Hx & _) _]. done.
Qed.

Lemma rel_path_join p names s :
  rel_path p names -> safe_name s -> rel_path (path_join p s) (names ++ [s]).
Proof.
  intros [-> Hs] Hn. split; [|by apply Forall_app_2; [|constructor]].
  unfold path_join.
  destruct (is_absolute s) eqn:Ea.
  { destruct Hn as (Hne & _ & _ & Hc & _). apply starts_with_slash_split in Ea as [rest Ea].
    rewrite split_char_none in Ea by done. by injection Ea as ->. }
  destruct names as [|n names]; [done|].
  rewrite bool_decide_false.
  2:{ inversion Hs as [|? ? (Hne & _) _]; subst. destruct n; [done|]. by destruct names. }
  rewrite ends_with_slash_last by done. by rewrite join_app.
Qed.

Lemma rel_path_nil : rel_path "" [].
Proof. by split. Qed.

Lemma rel_path_single s : safe_name s -> rel_path s [s].
Proof. intros Hs. split; [done|by constructor]. Qed.

Lemma rel_path_file_name p names s : rel_path p (names ++ [s]) -> file_name p = Some s.
Proof.
  intros Hp. unfold file_name. rewrite (rel_path_components _ _ Hp), map_app.
  change (map Normal [s]) with [Normal s]. by rewrite last_snoc.
Qed.

(** A relative path that was checked consists of safe names. *)
Lemma validate_relative_names p :
  validate_relative_path p = Ok tt ->
  is_absolute p = false /\
  exists names, omap part_component (split_char "/" p) = map Normal names /\ Forall safe_name names.
Proof.
  unfold validate_relative_path. destruct (forallb component_safe (components p)) eqn:E; [|done]. intros _.
  unfold components in E. destruct (is_absolute p); [done|]. split; [done|].
  assert (forallb component_safe (omap part_component (split_char "/" p)) = true) as E'
    by (destruct (split_char "/" p); [done|]; by case_bool_decide).
  pose proof (split_char_parts "/" p) as Hs. revert E' Hs. clear E.
  induction (split_char "/" p) as [|t parts IH]; intros E Hs; [by exists []|].
  inversion Hs as [|? ? Ht Hs']; subst. cbn in E |- *.
  destruct (part_component t) as [c|] eqn:Ec; [|by apply IH]. cbn in E.
  apply andb_true_iff in E as [En E]. destruct (IH E Hs') as (names & E' & Hn). exists (t :: names).
  unfold part_component in Ec. repeat case_bool_decide; try done; injection Ec as <-; [done|].
  apply negb_true_iff in En. split; [cbn; by rewrite <-E'|by constructor].
Qed.

Lemma removelast_map {A B} (f : A -> B) l : removelast (map f l) = map f (removelast l).
Proof. induction l as [|x [|y l] IH]; [done..|]. cbn in *. by rewrite IH. Qed.

Lemma rel_path_of_names names : Forall safe_name names -> rel_path (path_of_components (map Normal names)) names.
Proof.
  intros Hn. split; [|done]. destruct names; [done|]. unfold path_of_components. cbn. f_equal.
  by rewrite map_map, map_id.
Qed.

(** The directory of a checked path put beneath a directory named [s]. *)
Lemma parent_beneath s p d :
  safe_name s -> validate_relative_path p = Ok tt -> parent (path_join s p) = Some d ->
  exists names, rel_path d names /\ (names = [] \/ head names = Some s).
Proof.
  intros Hs Hv. apply validate_relative_names in Hv as (Ha & names & En & Hn).
  assert (Forall safe_name (s :: names)) as Hn' by (by constructor).
  assert (ends_with "/" s = false) as He.
  { apply (ends_with_slash_last [s]); [done|by constructor]. }
  assert (path_join s p = (s ++ String "/" p)%string) as Ej.
  { unfold path_join. rewrite Ha, He, bool_decide_false by apply Hs. done. }
  assert (components (path_join s p) = map Normal (s :: names)) as Ec.
  { assert (split_char "/" (s ++ String "/" p) = s :: split_char "/" p) as Es
      by (rewrite split_char_sep, split_char_none by apply Hs; done).
    unfold components. rewrite Ej, Es. cbn [omap list_omap].
    destruct (is_absolute (s ++ String "/" p)) eqn:Ea.
    { apply starts_with_slash_split in Ea as [rest Ea]. rewrite Es in Ea. injection Ea as -> _. by destruct Hs. }
    rewrite safe_name_component by done. cbn. rewrite bool_decide_false by apply Hs. by f_equal. }
  intros Hd. exists (removelast (s :: names)).
  assert (d = path_of_components (removelast (map Normal (s :: names)))) as ->
    by (revert Hd; unfold parent; rewrite Ec; repeat case_match; congruence).
  split; [|destruct names; [by left|by right]]. rewrite removelast_map.
  apply rel_path_of_names. rewrite (app_removelast_last "") in Hn' by done. by apply Forall_app in Hn' as [? _].
Qed.

(** ** Guest paths *)

Lemma check_components_ok parts cs :
  Forall (fun s => contains_char "/" s = false) parts ->
  check_components parts = Ok cs ->
  cs = filter (fun s => s <> "") parts /\ Forall safe_name cs.
Proof.
  intros Hp. revert cs. induction Hp as [|c parts Hc _ IH]; intros cs; cbn [check_components].
  - intros [= <-]. by split.
  - destruct (decide (c = "")) as [->|Hne].
    + rewrite bool_decide_true by done. intros H. rewrite filter_cons_False by auto. auto.
    + rewrite (bool_decide_false (c = "")) by done. repeat case_test; try done.
      destruct (check_components parts) as [cs'|]; [|done]. cbn [result_bind]. intros [= <-].
      destruct (IH cs' eq_refl) as [-> Hs]. rewrite filter_cons_True by done.
      split; [done|]. by constructor; [repeat split|].
Qed.

Lemma check_components_err parts e :
  check_components parts = Err e ->
  error_kind e = InvalidInput /\ exists c, c ∈ parts /\ c <> "" /\ ~ safe_name c.
Proof.
  induction parts as [|c parts IH]; [done|]. cbn [check_components].
  assert ((exists d, d ∈ parts /\ d <> "" /\ ~ safe_name d) ->
    exists d, d ∈ c :: parts /\ d <> "" /\ ~ safe_name d) as Hmore
    by (intros (d & ? & ?); exists d; split; [by right|done]).
  case_test; [intros H; destruct (IH H); auto|].
  repeat case_test.
  1,2: intros [= <-]; split; [done|]; exists c; split_and!; [by left|done|];
    intros (_ & ? & ? & _ & ?); b2p; try congruence.
  - apply orb_true_iff in Etest0 as [?|?]; b2p; congruence.
  - destruct (check_components parts) as [|e']; [done|]. cbn [result_bind]. intros [= ->].
    destruct (IH eq_refl); auto.
Qed.

Lemma check_components_safe cs : Forall safe_name cs -> check_components cs = Ok cs.
Proof.
  induction 1 as [|c cs (H1 & H2 & H3 & _ & H5) _ IH]; [done|].
  cbn [check_components]. rewrite !bool_decide_false by done. cbn [orb]. by rewrite H5, IH.
Qed.

Definition guest_path_of (cs : list string) : string :=
  match cs with [] => "/" | _ => "/" ++ join "/" cs end.

Lemma normalize_components path cs :
  starts_with "/" path = true -> path_components path = Ok cs ->
  normalize_guest_path path = Ok (guest_path_of cs) /\ Forall safe_name cs.
Proof.
  intros Hs Hp. unfold normalize_guest_path. rewrite Hs. cbn. rewrite Hp. cbn.
  apply check_components_ok in Hp as [_ Hf]; [|apply split_char_parts].
  split; [by destruct cs|done].
Qed.

Lemma path_components_of cs :
  Forall safe_name cs -> path_components (guest_path_of cs) = Ok cs.
Proof.
  intros Hs. destruct cs as [|c cs]; [done|]. unfold path_components, guest_path_of.
  change ("/" ++ join "/" (c :: cs)) with (String "/" (join "/" (c :: cs))).
  cbn [split_char]. rewrite decide_True by done.
  change (check_components ("" :: ?l)) with (check_components l).
  rewrite split_join; [|done|by apply safe_no_slash]. by apply check_components_safe.
Qed.

(** ** Theorems *)

(** A guest path is accepted exactly when it is absolute and
    none of its components is [.] or [..] or has a NUL byte; the result is the
    absolute path of its non-empty components, and normalising it again changes
    nothing. *)
Theorem normalize_guest_path_spec path :
  match normalize_guest_path path with
  | Ok p => starts_with "/" path = true /\
      exists cs, path_components path = Ok cs /\ Forall safe_name cs /\
        cs = filter (fun s => s <> "") (split_char "/" path) /\
        p = guest_path_of cs /\ normalize_guest_path p = Ok p
  | Err e => error_kind e = InvalidInput /\
      (starts_with "/" path = false \/
       exists c, c ∈ split_char "/" path /\ c <> "" /\ ~ safe_name c)
  end.
Proof.
  destruct (starts_with "/" path) eqn:Hs.
  2:{ unfold normalize_guest_path. rewrite Hs. cbn. auto. }
  destruct (path_components path) as [cs|e] eqn:Hp.
  - destruct (normalize_components path cs Hs Hp) as [-> Hf]. split; [done|].
    exists cs. split_and!; try done.
    + apply check_components_ok in Hp as [-> _]; [done|apply split_char_parts].
    + apply normalize_components; [by destruct cs|by apply path_components_of].
  - unfold normalize_guest_path. rewrite Hs. cbn. rewrite Hp. cbn.
    apply check_components_err in Hp as [? Hc]. auto.
Qed.

End FsPath.
