(* ===== verification/HostOps.v ===== *)
(** The host side of the composed filesystem
    (src/composed-fs/src/host_ops.rs): every call the server makes to the
    kernel, and the functions that make them.

    The kernel is a parameter: [kernel w c] is its answer to the system call [c]
    in the state [w] of the host. A call is a value of [syscall], and the state of
    the server keeps the calls made so far in [trace], so that theorems can speak
    about what the server asks of the kernel whatever it answers. An open file is
    its descriptor; closing it when it is dropped is not recorded. Flag values
    are those of Linux on x86-64. *)

From stdpp Require Import base option list numbers strings pretty.
From Stdlib Require Import ZArith Lia Ascii String.
From S2P Require Import Prelude RustIo RustStr FsPath.

Local Open Scope string_scope.
Local Open Scope Z_scope.

Module HostOps.
Import FsPath.

(** ** Constants of [libc] *)

Definition O_RDONLY : Z := 0.
Definition O_WRONLY : Z := 1.
Definition O_RDWR : Z := 2.
Definition O_ACCMODE : Z := 3.
Definition O_CREAT : Z := 0x40.
Definition O_TRUNC : Z := 0x200.
Definition O_APPEND : Z := 0x400.
Definition O_DIRECTORY : Z := 0x10000.
Definition O_NOFOLLOW : Z := 0x20000.
Definition O_CLOEXEC : Z := 0x80000.
Definition O_PATH : Z := 0x200000.
Definition RESOLVE_NO_MAGICLINKS : Z := 0x02.
Definition RESOLVE_IN_ROOT : Z := 0x10.
Definition F_RDLCK : Z := 0.
Definition F_WRLCK : Z := 1.
Definition F_UNLCK : Z := 2.
Definition F_OFD_GETLK : Z := 36.
Definition F_OFD_SETLK : Z := 37.
Definition SEEK_SET : Z := 0.
Definition AT_FDCWD : Z := -100.
Definition AT_REMOVEDIR : Z := 0x200.
Definition AT_EACCESS : Z := 0x200.
Definition W_OK : Z := 2.
Definition S_IFMT : Z := 0xf000.
Definition S_IFIFO : Z := 0x1000.
Definition S_IFCHR : Z := 0x2000.
Definition S_IFDIR : Z := 0x4000.
Definition S_IFBLK : Z := 0x6000.
Definition S_IFREG : Z := 0x8000.
Definition S_IFLNK : Z := 0xa000.
Definition S_IFSOCK : Z := 0xc000.
Definition UTIME_NOW : Z := 2 ^ 30 - 1.
Definition UTIME_OMIT : Z := 2 ^ 30 - 2.

(** [x as i32] of a [u32]. *)
Definition as_i32 (z : Z) : Z := if z <? 2 ^ 31 then z else z - 2 ^ 32.

(** ** Data *)

(** [std::fs::Metadata]. *)
Record Metadata := mkMetadata {
  md_dev : Z; md_ino : Z; md_mode : Z; md_nlink : Z; md_uid : Z; md_gid : Z; md_rdev : Z;
  md_size : Z; md_blksize : Z; md_blocks : Z;
  md_atime : Z; md_atime_nsec : Z; md_mtime : Z; md_mtime_nsec : Z; md_ctime : Z; md_ctime_nsec : Z
}.

Definition is_dir (m : Metadata) : bool := Z.land (md_mode m) S_IFMT =? S_IFDIR.
Definition is_file (m : Metadata) : bool := Z.land (md_mode m) S_IFMT =? S_IFREG.

(** [libc::flock] and [fuse::FileLock]. *)
Record flock := mkFlock { l_type : Z; l_whence : Z; l_start : Z; l_len : Z; l_pid : Z }.
Record FileLock := mkFileLock { fl_start : Z; fl_end : Z; fl_type : Z; fl_pid : Z }.

Record timespec := mkTimespec { tv_sec : Z; tv_nsec : Z }.

(** The fields of [libc::statvfs64] the program sets itself. *)
Record statvfs := mkStatvfs { f_bsize : Z; f_namemax : Z }.

Inductive MountKind := Dir | File.
Inductive AccessMode := Ro | Rw.

#[global] Instance MountKind_eq_dec : EqDecision MountKind.
Proof. solve_decision. Defined.
#[global] Instance AccessMode_eq_dec : EqDecision AccessMode.
Proof. solve_decision. Defined.

Record HostIdentity := mkIdentity { id_dev : Z; id_ino : Z }.

#[global] Instance HostIdentity_eq_dec : EqDecision HostIdentity.
Proof. solve_decision. Defined.

Record MountRuntime := mkMount {
  mt_id : string;
  root_path : string;
  root : Z;
  mt_kind : MountKind;
  mt_access : AccessMode;
  filter_suffixes : list string;
  mt_shadow_root_path : option string;
  mt_shadow_root : option Z
}.

Record FileHandle := mkHandle {
  h_inode : Z; h_file : Z; h_writable : bool; h_lock_path : string; h_dev : Z; h_ino : Z }.

(** ** System calls *)

Inductive syscall :=
| Open (path : string) (flags mode : Z)
| Openat2 (dir : Z) (path : string) (flags mode resolve : Z)
| Fstat (fd : Z)
| SymlinkMetadata (path : string)
| ReadDir (path : string)
| CreateDirAll (path : string)
| Mkdirat (dir : Z) (leaf : string) (mode : Z)
| Mknodat (dir : Z) (leaf : string) (mode rdev : Z)
| Unlinkat (dir : Z) (leaf : string) (flags : Z)
| Renameat (olddir : Z) (oldleaf : string) (newdir : Z) (newleaf : string)
| Renameat2 (olddir : Z) (oldleaf : string) (newdir : Z) (newleaf : string) (flags : Z)
| Linkat (olddir : Z) (oldleaf : string) (newdir : Z) (newleaf : string) (flags : Z)
| Symlinkat (target : string) (dir : Z) (leaf : string)
| Readlinkat (dir : Z) (leaf : string) (size : Z)
| Faccessat (dir : Z) (path : string) (mask flags : Z)
| Fstatvfs (fd : Z)
| Fchmod (fd mode : Z)
| Fchown (fd uid gid : Z)
| Ftruncate (fd size : Z)
| Futimens (fd : Z) (atime mtime : timespec)
| Fsetxattr (fd : Z) (name : string) (value : list byte) (flags : Z)
| FgetxattrSize (fd : Z) (name : string)
| Fgetxattr (fd : Z) (name : string) (size : Z)
| FlistxattrSize (fd : Z)
| Flistxattr (fd size : Z)
| Fremovexattr (fd : Z) (name : string)
| FcntlLock (fd command : Z) (lock : flock)
| ReadAt (fd size offset : Z)
| WriteAt (fd size offset : Z)
| Fsync (fd : Z) (datasync : bool)
| Lseek (fd offset whence : Z).

(** What each call answers when it succeeds. A directory is read as a list of
    entries, each an error or a name, [None] when the name is not UTF-8. *)
Definition answer (c : syscall) : Type :=
  match c with
  | Open _ _ _ | Openat2 _ _ _ _ _ => Z
  | Fstat _ | SymlinkMetadata _ => Metadata
  | ReadDir _ => list (result (option string) Z)
  | Readlinkat _ _ _ | Fgetxattr _ _ _ | Flistxattr _ _ => list byte
  | Fstatvfs _ => statvfs
  | FgetxattrSize _ _ | FlistxattrSize _ | ReadAt _ _ _ | WriteAt _ _ _ | Lseek _ _ _ => Z
  | FcntlLock _ _ _ => flock
  | _ => unit
  end.

(** The kernel and the clocks of the host: wall-clock seconds, a monotonic
    clock in milliseconds, and sleeping. *)
Class HostOs (W : Type) := {
  kernel : W -> forall c : syscall, result (answer c) Z * W;
  wall_clock : W -> Z;
  instant_now : W -> Z;
  thread_sleep : W -> Z -> W
}.

(** ** Effects *)

Record Os (W : Type) := mkOs { world : W; trace : list syscall }.
Arguments mkOs {W} _ _.
Arguments world {W} _.
Arguments trace {W} _.

(** Fallible code over a state [S]; an error keeps the effects made so far. *)
Definition M (S A : Type) : Type := S -> exec (io_result A * S).

Definition ret {S A} (a : A) : M S A := fun s => Ret (Ok a, s).
Definition throw {S A} (e : io_error) : M S A := fun s => Ret (Err e, s).
Definition lift {S A} (r : io_result A) : M S A := fun s => Ret (r, s).

Definition bind {S A B} (m : M S A) (k : A -> M S B) : M S B :=
  fun s => let! (r, s') := m s in
           match r with Ok a => k a s' | Err e => Ret (Err e, s') end.

(** Runs [m] and keeps its outcome as a value, for code that matches on it. *)
Definition attempt {S A} (m : M S A) : M S (io_result A) :=
  fun s => let! (r, s') := m s in Ret (Ok r, s').

Notation "'let*' x ':=' m 'in' k" := (bind m (fun x => k))
  (at level 200, x pattern, m at level 100, k at level 200) : rust_scope.

Section Host.
Context {W : Type} `{HostOs W}.

Definition io := M (Os W).

Definition sys (c : syscall) : io (answer c) :=
  fun os =>
    let '(r, w) := kernel (world os) c in
    Ret (match r with Ok a => Ok a | Err code => Err (OsError code) end,
         mkOs w (trace os ++ [c])).

Definition CString_new (s : string) : io_result string :=
  if contains_char NUL s then Err (CustomError InvalidInput "data provided contains a nul byte")
  else Ok s.

(** ** Opening *)

Definition fstat_file (fd : Z) : io Metadata := sys (Fstat fd).

Definition open_mount_root (path : string) (kind : MountKind) : io Z :=
  if contains_char NUL path then throw (invalid_input "host_path contains NUL byte")
  else
    let* c_path := lift (CString_new path) in
    let flags := Z.lor (Z.lor O_PATH O_CLOEXEC) O_NOFOLLOW in
    let flags := match kind with Dir => Z.lor flags O_DIRECTORY | File => flags end in
    let* fd := sys (Open c_path flags 0) in
    let* metadata := fstat_file fd in
    match kind, is_dir metadata, is_file metadata with
    | Dir, true, _ => ret fd
    | File, _, true => ret fd
    | Dir, _, _ => throw (OsError ENOTDIR)
    | File, _, _ => throw (OsError EINVAL)
    end.

Definition openat2_required_error : io_error := OsError EOPNOTSUPP.

Definition open_beneath_with_mode_impl (root_fd : Z) (relative_path : string) (flags mode : Z)
  (force_openat2_unavailable : bool) : io Z :=
  let* _ := lift (validate_relative_path relative_path) in
  let* path := lift (CString_new (if bool_decide (relative_path = "") then "." else relative_path)) in
  if force_openat2_unavailable then throw openat2_required_error
  else
    let* r := attempt (sys (Openat2 root_fd path (Z.lor flags O_CLOEXEC) (Z.land mode 0xfff)
                              (Z.lor RESOLVE_IN_ROOT RESOLVE_NO_MAGICLINKS))) in
    match r with
    | Ok fd => ret fd
    | Err e =>
        if bool_decide (raw_os_error e = Some ENOSYS) || bool_decide (raw_os_error e = Some EINVAL)
        then throw openat2_required_error else throw e
    end.

Definition open_beneath_with_mode (root_fd : Z) (relative_path : string) (flags mode : Z) : io Z :=
  open_beneath_with_mode_impl root_fd relative_path flags mode false.

Definition open_beneath (root_fd : Z) (relative_path : string) (flags : Z) : io Z :=
  open_beneath_with_mode root_fd relative_path flags 0.

Definition open_beneath_for_io (root_fd : Z) (relative_path : string) (flags mode : Z) : io Z :=
  open_beneath_with_mode root_fd relative_path flags mode.

Definition stat_beneath (root_fd : Z) (relative_path : string) : io Metadata :=
  let* file := open_beneath root_fd relative_path (Z.lor O_PATH O_NOFOLLOW) in
  fstat_file file.

Definition open_absolute_nofollow (path : string) (flags mode : Z) : io Z :=
  if contains_char NUL path then throw (OsError ENOENT)
  else
    let* path := lift (CString_new path) in
    sys (Open path (Z.lor (Z.lor flags O_CLOEXEC) O_NOFOLLOW) mode).

Definition open_host_file_for_io (mount : MountRuntime) (relative_path : string) (flags mode : Z)
  : io Z :=
  if bool_decide (relative_path = "") && bool_decide (mt_kind mount = File)
  then open_absolute_nofollow (root_path mount) flags mode
  else open_beneath_for_io (root mount) relative_path flags mode.

Definition identity_matches (identity : HostIdentity) (metadata : Metadata) : bool :=
  (id_dev identity =? md_dev metadata) && (id_ino identity =? md_ino metadata).

Definition validate_host_identity (metadata : Metadata) (identity : HostIdentity) : io_result unit :=
  if identity_matches identity metadata then Ok tt else Err (OsError ESTALE).

Definition open_flags_want_write (flags : Z) : bool :=
  let access_mode := Z.land (as_i32 flags) O_ACCMODE in
  (access_mode =? O_WRONLY) || (access_mode =? O_RDWR)
  || negb (Z.land flags (Z.lor O_TRUNC O_APPEND) =? 0).

(** ** Locks *)

Definition reopen_lock_file (handle : FileHandle) : io Z :=
  let flags := if h_writable handle then O_RDWR else O_RDONLY in
  let* file := open_absolute_nofollow (h_lock_path handle) flags 0 in
  let* metadata := fstat_file file in
  let* _ := lift (validate_host_identity metadata (mkIdentity (h_dev handle) (h_ino handle))) in
  ret file.

(** [libc::off_t::try_from] of a [u64]. *)
Definition off_t_try_from (z : Z) : io_result Z :=
  if z <=? i64_max then Ok z else Err (OsError EINVAL).

Definition lock_type (t : Z) : io_result Z :=
  if (t =? F_RDLCK) || (t =? F_WRLCK) || (t =? F_UNLCK) then Ok t else Err (OsError EINVAL).

Definition fuse_lock_to_host (lock : FileLock) : io_result flock :=
  let? t := lock_type (as_i32 (fl_type lock)) in
  if negb (fl_end lock =? u64_max) && (fl_end lock <? fl_start lock) then Err (OsError EINVAL)
  else
    let? start := off_t_try_from (fl_start lock) in
    let? n :=
      if fl_end lock =? u64_max then Ok 0
      else if (fl_end lock <? fl_start lock) || (u64_max <? fl_end lock - fl_start lock + 1)
      then Err (OsError EINVAL)
      else off_t_try_from (fl_end lock - fl_start lock + 1) in
    Ok (mkFlock t SEEK_SET start n 0).

(** [u64::try_from] of an [off_t]. *)
Definition u64_try_from (z : Z) : io_result Z :=
  if 0 <=? z then Ok z else Err (OsError EINVAL).

Definition host_lock_to_fuse (lock : flock) : io_result FileLock :=
  let? t := lock_type (l_type lock) in
  let? start := u64_try_from (l_start lock) in
  let? stop :=
    if l_len lock =? 0 then Ok u64_max
    else
      let? n := u64_try_from (l_len lock) in
      if (u64_max <? start + n) || (start + n <? 1) then Err (OsError EINVAL)
      else Ok (start + n - 1) in
  Ok (mkFileLock start stop t (if 0 <=? l_pid lock then l_pid lock else 0)).

Definition fcntl_ofd_lock (fd command : Z) (lock : flock) : io flock :=
  sys (FcntlLock fd command lock).

Definition is_lock_conflict (e : io_error) : bool :=
  bool_decide (raw_os_error e = Some EACCES) || bool_decide (raw_os_error e = Some EAGAIN).

Definition SETLKW_MAX_WAIT : Z := 250.
Definition SETLKW_RETRY_DELAY : Z := 5.

(** The retry loop; the clock is read only after a conflict, as the guard of the
    source's match arm does. *)
Fixpoint lock_wait_loop (fuel : nat) (deadline fd : Z) (lock : flock) : io flock :=
  match fuel with
  | O => fun _ => Panic
  | S fuel =>
      let* r := attempt (fcntl_ofd_lock fd F_OFD_SETLK lock) in
      match r with
      | Ok l => ret l
      | Err e => fun os =>
          if is_lock_conflict e && (instant_now (world os) <? deadline)
          then lock_wait_loop fuel deadline fd lock
                 (mkOs (thread_sleep (world os) SETLKW_RETRY_DELAY) (trace os))
          else Ret (Err e, os)
      end
  end.

(** A wait of 250 ms in steps of at least 5 ms makes at most 51 attempts. *)
Definition fcntl_ofd_lock_wait_bounded (fd : Z) (lock : flock) : io flock :=
  fun os => lock_wait_loop 52 (instant_now (world os) + SETLKW_MAX_WAIT) fd lock os.

(** ** Calls relative to a parent directory *)

Definition parent_and_leaf (path : string) : io_result (string * string) :=
  let? _ := validate_relative_path path in
  let? leaf := ok_or (file_name path) (OsError EINVAL) in
  if contains_char NUL leaf then Err (OsError ENOENT)
  else
    let? c_leaf := CString_new leaf in
    Ok (default "" (parent path), c_leaf).

Definition open_parent (root_fd : Z) (dir : string) : io Z :=
  open_beneath_with_mode root_fd dir (Z.lor O_RDONLY O_DIRECTORY) 0.

Definition with_parent_dir {T} (root_fd : Z) (path : string) (f : Z -> string -> io T) : io T :=
  let* (dir, leaf) := lift (parent_and_leaf path) in
  let* parent_fd := open_parent root_fd dir in
  f parent_fd leaf.

Definition mkdir_beneath (root_fd : Z) (path : string) (mode : Z) : io unit :=
  with_parent_dir root_fd path (fun parent_fd leaf => sys (Mkdirat parent_fd leaf mode)).

Definition mknod_beneath (root_fd : Z) (path : string) (mode rdev : Z) : io unit :=
  with_parent_dir root_fd path (fun parent_fd leaf => sys (Mknodat parent_fd leaf mode rdev)).

Definition unlink_beneath (root_fd : Z) (path : string) (directory : bool) : io unit :=
  with_parent_dir root_fd path (fun parent_fd leaf =>
    let flags := if directory then AT_REMOVEDIR else 0 in sys (Unlinkat parent_fd leaf flags)).

Definition rename_beneath (root_fd : Z) (old_path new_path : string) (flags : Z) : io unit :=
  let* (old_dir, old_leaf) := lift (parent_and_leaf old_path) in
  let* (new_dir, new_leaf) := lift (parent_and_leaf new_path) in
  let* old_parent := open_parent root_fd old_dir in
  let* new_parent := open_parent root_fd new_dir in
  if flags =? 0 then sys (Renameat old_parent old_leaf new_parent new_leaf)
  else sys (Renameat2 old_parent old_leaf new_parent new_leaf flags).

Definition link_beneath (root_fd : Z) (old_path new_path : string) : io unit :=
  let* (old_dir, old_leaf) := lift (parent_and_leaf old_path) in
  let* (new_dir, new_leaf) := lift (parent_and_leaf new_path) in
  let* old_parent := open_parent root_fd old_dir in
  let* new_parent := open_parent root_fd new_dir in
  sys (Linkat old_parent old_leaf new_parent new_leaf 0).

Definition symlink_beneath (root_fd : Z) (linkname path : string) : io unit :=
  with_parent_dir root_fd path (fun parent_fd leaf => sys (Symlinkat linkname parent_fd leaf)).

Definition readlink_beneath (root_fd : Z) (path : string) : io (list byte) :=
  with_parent_dir root_fd path (fun parent_fd leaf => sys (Readlinkat parent_fd leaf 4096)).

Definition access_beneath (root_fd : Z) (path : string) (mask : Z) : io unit :=
  if bool_decide (path = "") then sys (Faccessat root_fd "." mask AT_EACCESS)
  else with_parent_dir root_fd path (fun parent_fd leaf =>
         sys (Faccessat parent_fd leaf mask AT_EACCESS)).

Definition access_host_path (mount : MountRuntime) (path : string) (mask : Z) : io unit :=
  if bool_decide (path = "") && bool_decide (mt_kind mount = File) then
    if contains_char NUL (root_path mount) then throw (OsError ENOENT)
    else
      let* c_path := lift (CString_new (root_path mount)) in
      sys (Faccessat AT_FDCWD c_path mask AT_EACCESS)
  else access_beneath (root mount) path mask.

Definition fstatvfs_file (fd : Z) : io statvfs := sys (Fstatvfs fd).

(** ** Attributes *)

(** The bits of [SetattrValid]. *)
Definition SV_MODE : Z := 1.
Definition SV_UID : Z := 2.
Definition SV_GID : Z := 4.
Definition SV_SIZE : Z := 8.
Definition SV_ATIME : Z := 16.
Definition SV_MTIME : Z := 32.
Definition SV_ATIME_NOW : Z := 128.
Definition SV_MTIME_NOW : Z := 256.

Definition flags_contain (valid bits : Z) : bool := Z.land valid bits =? bits.
Definition flags_intersect (valid bits : Z) : bool := negb (Z.land valid bits =? 0).

Definition SV_TIMES : Z := Z.lor (Z.lor SV_ATIME SV_MTIME) (Z.lor SV_ATIME_NOW SV_MTIME_NOW).

Definition setattr_wants_mutation (valid : Z) : bool :=
  flags_intersect valid
    (Z.lor (Z.lor (Z.lor SV_MODE SV_UID) (Z.lor SV_GID SV_SIZE)) SV_TIMES).

(** [fuse::SetattrIn], the fields the program reads. *)
Record SetattrIn := mkSetattrIn {
  sa_size : Z; sa_atime : Z; sa_mtime : Z; sa_atimensec : Z; sa_mtimensec : Z;
  sa_mode : Z; sa_uid : Z; sa_gid : Z }.

(** [x as i64] of a [u64]. *)
Definition as_i64 (z : Z) : Z := if z <? 2 ^ 63 then z else z - 2 ^ 64.

Definition setattr_time (set_explicit set_now : bool) (sec nsec : Z) : timespec :=
  if set_now then mkTimespec 0 UTIME_NOW
  else if set_explicit then mkTimespec (as_i64 sec) nsec
  else mkTimespec 0 UTIME_OMIT.

Definition when (b : bool) (m : io unit) : io unit := if b then m else ret tt.

Definition apply_setattr (fd : Z) (attr : SetattrIn) (valid : Z) : io unit :=
  let* _ := when (flags_contain valid SV_MODE) (sys (Fchmod fd (Z.land (sa_mode attr) 0xfff))) in
  let* _ := when (flags_intersect valid (Z.lor SV_UID SV_GID))
    (sys (Fchown fd (if flags_contain valid SV_UID then sa_uid attr else u32_max)
                    (if flags_contain valid SV_GID then sa_gid attr else u32_max))) in
  let* _ := when (flags_contain valid SV_SIZE) (sys (Ftruncate fd (as_i64 (sa_size attr)))) in
  when (flags_intersect valid SV_TIMES)
    (sys (Futimens fd
      (setattr_time (flags_contain valid SV_ATIME) (flags_contain valid SV_ATIME_NOW)
         (sa_atime attr) (sa_atimensec attr))
      (setattr_time (flags_contain valid SV_MTIME) (flags_contain valid SV_MTIME_NOW)
         (sa_mtime attr) (sa_mtimensec attr)))).

(** ** Extended attributes *)

Inductive GetxattrReply := XCount (n : Z) | XValue (value : list byte).

Definition setxattr_file (fd : Z) (name : string) (value : list byte) (flags : Z) : io unit :=
  sys (Fsetxattr fd name value (as_i32 flags)).

Definition getxattr_file (fd : Z) (name : string) (size : Z) : io GetxattrReply :=
  let* needed := sys (FgetxattrSize fd name) in
  if size =? 0 then ret (XCount (wrap32 needed))
  else let* value := sys (Fgetxattr fd name size) in ret (XValue value).

Definition listxattr_file (fd size : Z) : io GetxattrReply :=
  let* needed := sys (FlistxattrSize fd) in
  if size =? 0 then ret (XCount (wrap32 needed))
  else let* names := sys (Flistxattr fd size) in ret (XValue names).

Definition removexattr_file (fd : Z) (name : string) : io unit := sys (Fremovexattr fd name).

(** ** Directories *)

Record HostDirEntry := mkDirEntry { de_name : string; de_metadata : Metadata }.

Definition readdir_entry_budget (size : Z) : Z :=
  if size =? 0 then 0 else Z.max 1 (Z.min 1024 (size / 64)).

(** [usize::try_from(offset)] of a [u64] always succeeds on a 64-bit target. *)
Definition readdir_collection_limit (offset entry_budget : Z) : Z :=
  saturating_add usize_max offset entry_budget.

Definition proc_fd_path (fd : Z) : string := "/proc/self/fd/" ++ pretty fd.

Fixpoint collect_entries (dir_path : string) (listing : list (result (option string) Z))
  (limit : Z) (entries : list HostDirEntry) : io (list HostDirEntry) :=
  match listing with
  | [] => ret entries
  | Err code :: _ => throw (OsError code)
  | Ok None :: rest => collect_entries dir_path rest limit entries
  | Ok (Some name) :: rest =>
      match validate_single_path_component name with
      | Err _ => collect_entries dir_path rest limit entries
      | Ok _ =>
          let* metadata := sys (SymlinkMetadata (path_join dir_path name)) in
          let entries := (entries ++ [mkDirEntry name metadata])%list in
          if limit <=? len entries then ret entries
          else collect_entries dir_path rest limit entries
      end
  end.

Definition read_dir_beneath (root_fd : Z) (relative_path : string) (limit : Z)
  : io (list HostDirEntry) :=
  let* dir := open_beneath root_fd relative_path (Z.lor (Z.lor O_RDONLY O_DIRECTORY) O_NOFOLLOW) in
  if limit =? 0 then ret []
  else
    let* listing := sys (ReadDir (proc_fd_path dir)) in
    collect_entries (proc_fd_path dir) listing limit [].

End Host.

(** ** What a computation returns *)

(** [yields m Q]: what [m] returns satisfies [Q]. *)
Definition yields {S A} (m : M S A) (Q : A -> Prop) : Prop :=
  forall s a s', m s = Ret (Ok a, s') -> Q a.

Lemma yields_bind {S A B} (m : M S A) (k : A -> M S B) Q :
  yields m (fun a => yields (k a) Q) -> yields (bind m k) Q.
Proof.
  intros Hm s b s'. unfold bind. destruct (m s) as [[[a|e] s1]|] eqn:E; cbn; [|done..].
  intros Hk. exact (Hm _ _ _ E _ _ _ Hk).
Qed.

Lemma yields_any {S A B} (m : M S A) (k : A -> M S B) Q :
  (forall a, yields (k a) Q) -> yields (bind m k) Q.
Proof. intros Hk. apply yields_bind. by intros s a s' _. Qed.

Lemma yields_ret {S A} (a : A) (Q : A -> Prop) : Q a -> yields (ret a : M S A) Q.
Proof. by intros HQ s b s' [= <- <-]. Qed.

Lemma yields_throw {S A} e (Q : A -> Prop) : yields (throw e : M S A) Q.
Proof. by intros s b s' [=]. Qed.

Lemma yields_lift {S A B} (r : io_result A) (k : A -> M S B) Q :
  (forall a, r = Ok a -> yields (k a) Q) -> yields (bind (lift r) k) Q.
Proof. intros Hk. apply yields_bind. intros s a s' [= -> ->]. by apply Hk. Qed.

(** The same with the middle condition named. *)
Lemma yields_seq {S A B} (m : M S A) (k : A -> M S B) (P : A -> Prop) (Q : B -> Prop) :
  yields m P -> (forall a, P a -> yields (k a) Q) -> yields (bind m k) Q.
Proof. intros Hm Hk. apply yields_bind. intros s a s' E. apply Hk. by eapply Hm. Qed.

Lemma yields_true {S A} (m : M S A) : yields m (fun _ => True).
Proof. by intros s a s'. Qed.

Lemma yields_of {S A} (r : io_result A) (Q : A -> Prop) : (forall a, r = Ok a -> Q a) -> yields (lift (S := S) r) Q.
Proof. intros HQ s a s' [= E _]. auto. Qed.

(** ** Reasoning about calls *)

(** A state that records system calls. *)
Class Traced (S : Type) := calls_of : S -> list syscall.

#[global] Instance Os_traced W : Traced (Os W) := trace.

(** [runs P m s Q]: from [s], [m] does not panic, every call it makes satisfies
    [P], and [Q] holds of its outcome. *)
Definition runs {S A} `{Traced S} (P : syscall -> Prop) (m : M S A) (s : S)
  (Q : io_result A -> S -> Prop) : Prop :=
  match m s with
  | Ret (r, s') => (exists new, calls_of s' = (calls_of s ++ new)%list /\ Forall P new) /\ Q r s'
  | Panic => False
  end.

(** [calls P m]: from every state, [m] does not panic and its calls satisfy [P]. *)
Definition calls {S A} `{Traced S} (P : syscall -> Prop) (m : M S A) : Prop :=
  forall s, runs P m s (fun _ _ => True).

Section Runs.
Context {S : Type} `{Traced S} (P : syscall -> Prop).

Lemma runs_here {A} (m : M S A) s r Q : m s = Ret (r, s) -> Q r s -> runs P m s Q.
Proof.
  intros E HQ. unfold runs. rewrite E. split; [|done].
  exists []. split; [by rewrite (right_id_L [] (++))|constructor].
Qed.

Lemma runs_mono {A} (m : M S A) s (Q Q' : io_result A -> S -> Prop) :
  runs P m s Q -> (forall r s', Q r s' -> Q' r s') -> runs P m s Q'.
Proof. unfold runs. destruct (m s) as [[r s']|]; [|done]. intros [? ?] HQ. auto. Qed.

Lemma runs_bind {A B} (m : M S A) (k : A -> M S B) s Q :
  runs P m s (fun r s' => match r with Ok a => runs P (k a) s' Q | Err e => Q (Err e) s' end) ->
  runs P (bind m k) s Q.
Proof.
  unfold runs, bind. destruct (m s) as [[[a|e] s1]|]; cbn [exec_bind]; [|done|done].
  intros [(n1 & E1 & F1) Hk]. destruct (k a s1) as [[r s2]|]; [|done].
  destruct Hk as [(n2 & E2 & F2) HQ]. split; [|done]. exists (n1 ++ n2)%list.
  rewrite E2, E1, (assoc_L (++)). split; [done|by apply Forall_app_2].
Qed.

Lemma runs_attempt {A} (m : M S A) s Q :
  runs P m s (fun r s' => Q (Ok r) s') -> runs P (attempt m) s Q.
Proof. unfold runs, attempt. by destruct (m s) as [[r s1]|]. Qed.

Lemma calls_ret {A} (a : A) : calls P (ret a : M S A).
Proof. intros s. by eapply runs_here. Qed.

Lemma calls_throw {A} e : calls P (throw e : M S A).
Proof. intros s. by eapply runs_here. Qed.

Lemma calls_lift_bind {A B} (r : io_result A) (k : A -> M S B) :
  (forall a, r = Ok a -> calls P (k a)) -> calls P (bind (lift r) k).
Proof.
  intros Hk s. apply runs_bind. eapply runs_here; [done|]. destruct r as [a|]; [|done].
  by apply Hk.
Qed.

Lemma calls_bind {A B} (m : M S A) (k : A -> M S B) :
  calls P m -> (forall a, calls P (k a)) -> calls P (bind m k).
Proof.
  intros Hm Hk s. apply runs_bind. eapply runs_mono; [apply Hm|]. intros [a|e] s' _; [apply Hk|done].
Qed.

Lemma calls_attempt {A} (m : M S A) : calls P m -> calls P (attempt m).
Proof. intros Hm s. apply runs_attempt. eapply runs_mono; [apply Hm|done]. Qed.

End Runs.

#[export] Hint Resolve calls_ret calls_throw calls_attempt : agentvm.

Section HostFacts.
Context {W : Type} `{HostOs W}.

Lemma calls_sys (P : syscall -> Prop) c : P c -> calls P (sys c).
Proof.
  intros Hc os. unfold runs, sys. destruct (kernel (world os) c) as [r w].
  split; [|done]. exists [c]. split; [done|by constructor].
Qed.

(** What may be passed to [openat2]: the directory itself, or names only. *)
Definition path_ok (path : string) : Prop :=
  path = "." \/ forallb component_safe (components path) = true.

Definition RESOLVE_BENEATH_ROOT : Z := Z.lor RESOLVE_IN_ROOT RESOLVE_NO_MAGICLINKS.

Lemma open_beneath_calls (P : syscall -> Prop) root_fd p flags mode :
  (forall path, path_ok path ->
     P (Openat2 root_fd path (Z.lor flags O_CLOEXEC) (Z.land mode 0xfff) RESOLVE_BENEATH_ROOT)) ->
  calls P (open_beneath_with_mode root_fd p flags mode).
Proof.
  intros HP. unfold open_beneath_with_mode, open_beneath_with_mode_impl.
  apply calls_lift_bind. intros [] Hv. apply calls_lift_bind. intros path Hc.
  apply calls_bind.
  - apply calls_attempt, calls_sys, HP. unfold CString_new in Hc.
    case_match; [done|]. injection Hc as <-. unfold validate_relative_path in Hv.
    case_bool_decide; [by left|right]. by case_match.
  - intros [fd|e]; [apply calls_ret|].
    destruct (bool_decide (raw_os_error e = Some ENOSYS) || _); apply calls_throw.
Qed.

Lemma Normal_component_safe p s :
  Normal s ∈ components p -> contains_char NUL s = false -> safe_name s.
Proof.
  intros Hin Hn.
  assert (Normal s ∈ omap part_component (split_char "/" p)) as Hin'.
  { unfold components in Hin. destruct (is_absolute p); [by inversion Hin|].
    destruct (split_char "/" p) as [|f r] eqn:E; [done|].
    case_bool_decide; [by inversion Hin|done]. }
  apply list_elem_of_omap in Hin' as (t & Ht & Hc).
  pose proof (split_char_parts "/" p) as Hs. rewrite Forall_forall in Hs. specialize (Hs t Ht).
  unfold part_component in Hc. repeat case_bool_decide; try done. injection Hc as ->. done.
Qed.

Lemma parent_and_leaf_safe p dir leaf : parent_and_leaf p = Ok (dir, leaf) -> safe_name leaf.
Proof.
  unfold parent_and_leaf, validate_relative_path.
  destruct (forallb component_safe (components p)) eqn:Ev; [|done]. cbn [result_bind].
  unfold file_name. destruct (last (components p)) as [[| | |s]|] eqn:El; cbn [ok_or result_bind]; try done.
  destruct (contains_char NUL s) eqn:En; [done|]. unfold CString_new. rewrite En. cbn [result_bind].
  intros [= <- <-]. apply (Normal_component_safe p); [|done].
  by apply last_Some_elem_of.
Qed.

Lemma open_parent_calls (P : syscall -> Prop) root_fd dir :
  (forall path, path_ok path ->
     P (Openat2 root_fd path (Z.lor (Z.lor O_RDONLY O_DIRECTORY) O_CLOEXEC) 0 RESOLVE_BENEATH_ROOT)) ->
  calls P (open_parent root_fd dir).
Proof. intros HP. by apply open_beneath_calls. Qed.

Lemma with_parent_dir_calls {T} (P : syscall -> Prop) root_fd p (f : Z -> string -> io T) :
  (forall path, path_ok path ->
     P (Openat2 root_fd path (Z.lor (Z.lor O_RDONLY O_DIRECTORY) O_CLOEXEC) 0 RESOLVE_BENEATH_ROOT)) ->
  (forall fd leaf, safe_name leaf -> calls P (f fd leaf)) ->
  calls P (with_parent_dir root_fd p f).
Proof.
  intros Ho Hf. apply calls_lift_bind. intros [dir leaf] Hl.
  apply calls_bind; [by apply open_parent_calls|]. intros fd.
  by eapply Hf, parent_and_leaf_safe.
Qed.

(** *** Confined calls and calls that change the host *)

(** Name arguments are single safe names, paths given to [openat2] contain names
    only, and it resolves them beneath the root without magic links. *)
Definition confined (c : syscall) : Prop :=
  match c with
  | Openat2 _ path _ _ resolve => path_ok path /\ resolve = RESOLVE_BENEATH_ROOT
  | Mkdirat _ leaf _ | Mknodat _ leaf _ _ | Unlinkat _ leaf _ | Symlinkat _ _ leaf
  | Readlinkat _ leaf _ => safe_name leaf
  | Renameat _ l _ l' | Renameat2 _ l _ l' _ | Linkat _ l _ l' _ => safe_name l /\ safe_name l'
  | Faccessat dir path _ _ => dir = AT_FDCWD \/ path = "." \/ safe_name path
  | _ => True
  end.

(** The flags of an [open] that can create, truncate or write a file. The access
    mode 3 of Linux gives a descriptor that neither reads nor writes. *)
Definition open_mutates (flags : Z) : bool :=
  let access_mode := Z.land flags O_ACCMODE in
  (access_mode =? O_WRONLY) || (access_mode =? O_RDWR)
  || negb (Z.land flags (Z.lor O_CREAT O_TRUNC) =? 0).

(** The calls that can change a file or a directory of the host. *)
Definition mutates (c : syscall) : bool :=
  match c with
  | Open _ flags _ | Openat2 _ _ flags _ _ => open_mutates flags
  | CreateDirAll _ | Mkdirat _ _ _ | Mknodat _ _ _ _ | Unlinkat _ _ _ | Renameat _ _ _ _
  | Renameat2 _ _ _ _ _ | Linkat _ _ _ _ _ | Symlinkat _ _ _ | Fchmod _ _ | Fchown _ _ _
  | Ftruncate _ _ | Futimens _ _ _ | Fsetxattr _ _ _ _ | Fremovexattr _ _ | WriteAt _ _ _ => true
  | _ => false
  end.

Definition harmless (c : syscall) : Prop := confined c /\ mutates c = false.

Lemma runs_weaken {S A} `{Traced S} (P P' : syscall -> Prop) (m : M S A) s Q :
  (forall c, P c -> P' c) -> runs P m s Q -> runs P' m s Q.
Proof.
  intros HP. unfold runs. destruct (m s) as [[r s']|]; [|done].
  intros [(n & ? & Hf) ?]. split; [|done]. exists n. split; [done|].
  by eapply Forall_impl.
Qed.

Lemma calls_weaken {S A} `{Traced S} (P P' : syscall -> Prop) (m : M S A) :
  (forall c, P c -> P' c) -> calls P m -> calls P' m.
Proof. intros HP Hm s. eapply runs_weaken; [exact HP|apply Hm]. Qed.

Lemma fstat_calls fd : calls harmless (fstat_file fd).
Proof. by apply (calls_sys harmless (Fstat fd)). Qed.

Lemma stat_beneath_calls root_fd p : calls harmless (stat_beneath root_fd p).
Proof.
  apply calls_bind; [|apply fstat_calls]. by apply open_beneath_calls.
Qed.

Lemma open_beneath_harmless root_fd p flags mode :
  open_mutates (Z.lor flags O_CLOEXEC) = false ->
  calls harmless (open_beneath_with_mode root_fd p flags mode).
Proof. intros Hf. by apply open_beneath_calls. Qed.

Lemma open_absolute_calls (P : syscall -> Prop) path flags mode :
  (forall c_path, P (Open c_path (Z.lor (Z.lor flags O_CLOEXEC) O_NOFOLLOW) mode)) ->
  calls P (open_absolute_nofollow path flags mode).
Proof.
  intros HP. unfold open_absolute_nofollow. case_match; [apply calls_throw|].
  apply calls_lift_bind. intros c _.
  by apply (calls_sys P (Open c _ _)).
Qed.

Lemma open_mutates_cloexec flags :
  open_mutates (Z.lor flags O_CLOEXEC) = open_mutates flags /\
  open_mutates (Z.lor (Z.lor flags O_CLOEXEC) O_NOFOLLOW) = open_mutates flags.
Proof.
  unfold open_mutates. rewrite !Z.land_lor_distr_l.
  change (Z.land O_CLOEXEC O_ACCMODE) with 0. change (Z.land O_NOFOLLOW O_ACCMODE) with 0.
  change (Z.land O_CLOEXEC (Z.lor O_CREAT O_TRUNC)) with 0.
  change (Z.land O_NOFOLLOW (Z.lor O_CREAT O_TRUNC)) with 0. by rewrite !Z.lor_0_r.
Qed.

Lemma open_host_file_harmless mount p flags mode :
  open_mutates flags = false -> calls harmless (open_host_file_for_io mount p flags mode).
Proof.
  intros Hf. destruct (open_mutates_cloexec flags) as [E1 E2].
  unfold open_host_file_for_io. case_match.
  - apply open_absolute_calls. intros c. split; [done|]. cbn. by rewrite E2.
  - apply open_beneath_harmless. by rewrite E1.
Qed.

Lemma open_host_file_confined mount p flags mode :
  calls confined (open_host_file_for_io mount p flags mode).
Proof.
  unfold open_host_file_for_io. case_match; [by apply open_absolute_calls|by apply open_beneath_calls].
Qed.

Ltac beneath :=
  apply with_parent_dir_calls; [done|]; intros ? ? ?;
  lazymatch goal with |- calls ?P (sys ?c) => apply (calls_sys P c) end.

Lemma mkdir_calls root_fd p mode : calls confined (mkdir_beneath root_fd p mode).
Proof. by beneath. Qed.

Lemma mknod_calls root_fd p mode rdev : calls confined (mknod_beneath root_fd p mode rdev).
Proof. by beneath. Qed.

Lemma unlink_calls root_fd p d : calls confined (unlink_beneath root_fd p d).
Proof.
  apply with_parent_dir_calls; [done|]. intros fd leaf Hl.
  by apply (calls_sys confined (Unlinkat fd leaf _)).
Qed.

Lemma symlink_calls root_fd l p : calls confined (symlink_beneath root_fd l p).
Proof. by beneath. Qed.

Lemma readlink_calls root_fd p : calls harmless (readlink_beneath root_fd p).
Proof. by beneath. Qed.

Lemma rename_calls root_fd p q flags : calls confined (rename_beneath root_fd p q flags).
Proof.
  apply calls_lift_bind. intros [d l] Hl%parent_and_leaf_safe.
  apply calls_lift_bind. intros [d' l'] Hl'%parent_and_leaf_safe.
  apply calls_bind; [by apply open_parent_calls|intros f].
  apply calls_bind; [by apply open_parent_calls|intros f']. case_match.
  - by apply (calls_sys confined (Renameat f l f' l')).
  - by apply (calls_sys confined (Renameat2 f l f' l' flags)).
Qed.

Lemma link_calls root_fd p q : calls confined (link_beneath root_fd p q).
Proof.
  apply calls_lift_bind. intros [d l] Hl%parent_and_leaf_safe.
  apply calls_lift_bind. intros [d' l'] Hl'%parent_and_leaf_safe.
  apply calls_bind; [by apply open_parent_calls|intros f].
  apply calls_bind; [by apply open_parent_calls|intros f'].
  by apply (calls_sys confined (Linkat f l f' l' 0)).
Qed.

Lemma access_calls mount p mask : calls harmless (access_host_path mount p mask).
Proof.
  unfold access_host_path, access_beneath. case_match; [case_match; [apply calls_throw|]|case_match].
  - apply calls_lift_bind. intros c _. apply (calls_sys harmless (Faccessat AT_FDCWD c mask _)).
    split; [by left|done].
  - apply (calls_sys harmless (Faccessat (root mount) "." mask _)). split; [by right; left|done].
  - beneath. split; [by right; right|done].
Qed.

Lemma statvfs_calls fd : calls harmless (fstatvfs_file fd).
Proof. by apply (calls_sys harmless (Fstatvfs fd)). Qed.

Lemma getxattr_calls fd name size : calls harmless (getxattr_file fd name size).
Proof.
  apply calls_bind; [by apply (calls_sys harmless (FgetxattrSize fd name))|intros n].
  case_match; [apply calls_ret|].
  apply calls_bind; [by apply (calls_sys harmless (Fgetxattr fd name size))|intros v].
  apply calls_ret.
Qed.

Lemma listxattr_calls fd size : calls harmless (listxattr_file fd size).
Proof.
  apply calls_bind; [by apply (calls_sys harmless (FlistxattrSize fd))|intros n].
  case_match; [apply calls_ret|].
  apply calls_bind; [by apply (calls_sys harmless (Flistxattr fd size))|intros v].
  apply calls_ret.
Qed.

Lemma setxattr_calls fd name value flags : calls confined (setxattr_file fd name value flags).
Proof. by apply (calls_sys confined (Fsetxattr fd name value _)). Qed.

Lemma removexattr_calls fd name : calls confined (removexattr_file fd name).
Proof. by apply (calls_sys confined (Fremovexattr fd name)). Qed.

Lemma when_calls (P : syscall -> Prop) b (m : io (W := W) unit) : (b = true -> calls P m) -> calls P (when b m).
Proof. destruct b; cbn; [auto|]. intros _. apply calls_ret. Qed.

Lemma apply_setattr_calls fd attr valid : calls confined (apply_setattr fd attr valid).
Proof.
  unfold apply_setattr.
  apply calls_bind; [apply when_calls; intros _; by apply (calls_sys confined (Fchmod _ _))|intros _].
  apply calls_bind; [apply when_calls; intros _; by apply (calls_sys confined (Fchown _ _ _))|intros _].
  apply calls_bind; [apply when_calls; intros _; by apply (calls_sys confined (Ftruncate _ _))|intros _].
  apply when_calls; intros _; by apply (calls_sys confined (Futimens _ _ _)).
Qed.

(** The part of [valid] that a mask without mutation bits meets. *)
Lemma no_mutation_bits valid bits :
  setattr_wants_mutation valid = false ->
  Z.land bits 447 = bits -> Z.land valid bits = 0.
Proof.
  unfold setattr_wants_mutation, flags_intersect.
  change (Z.lor (Z.lor (Z.lor SV_MODE SV_UID) (Z.lor SV_GID SV_SIZE)) SV_TIMES) with 447.
  intros Hv Hb. b2p. rewrite <- Hb, (Z.land_comm bits), Z.land_assoc, Hv. done.
Qed.

Lemma apply_setattr_harmless fd attr valid :
  setattr_wants_mutation valid = false -> calls harmless (apply_setattr fd attr valid).
Proof.
  intros Hv. unfold apply_setattr, flags_contain, flags_intersect.
  rewrite (no_mutation_bits valid SV_MODE), (no_mutation_bits valid (Z.lor SV_UID SV_GID)),
    (no_mutation_bits valid SV_SIZE), (no_mutation_bits valid SV_TIMES) by done.
  cbn. repeat (apply calls_bind; [apply calls_ret|intros _]). apply calls_ret.
Qed.

Lemma collect_entries_calls dir listing limit entries :
  calls harmless (collect_entries dir listing limit entries).
Proof.
  revert entries. induction listing as [|[[name|]|code] listing IH]; intros entries;
    cbn [collect_entries]; [apply calls_ret| |apply IH|apply calls_throw].
  destruct (validate_single_path_component name); [|apply IH].
  apply calls_bind; [by apply (calls_sys harmless (SymlinkMetadata _))|intros md].
  case_match; [apply calls_ret|apply IH].
Qed.

Lemma read_dir_calls root_fd p limit : calls harmless (read_dir_beneath root_fd p limit).
Proof.
  apply calls_bind; [by apply open_beneath_calls|intros fd]. case_match; [apply calls_ret|].
  apply calls_bind; [by apply (calls_sys harmless (ReadDir _))|intros l].
  apply collect_entries_calls.
Qed.

(** *** Waiting for a lock *)

(** The monotonic clock: no call turns it back, and sleeping takes at least the
    time asked for. *)
Class ClockLaws := {
  kernel_clock w c : instant_now w <= instant_now (kernel w c).2;
  sleep_clock w d : instant_now w + d <= instant_now (thread_sleep w d)
}.

Context `{!ClockLaws}.

Lemma lock_wait_runs fuel deadline fd lock os :
  deadline - instant_now (world os) < SETLKW_RETRY_DELAY * (Z.of_nat fuel - 1) -> (0 < fuel)%nat ->
  runs (fun c => c = FcntlLock fd F_OFD_SETLK lock)
    (lock_wait_loop fuel deadline fd lock) os
    (fun r os' => len (trace os') <= len (trace os) + Z.of_nat fuel /\
     match r with
     | Ok _ => True
     | Err e => is_lock_conflict e = true -> deadline <= instant_now (world os')
     end).
Proof.
  revert os. induction fuel as [|fuel IH]; intros os Hd Hf; [lia|]. cbn [lock_wait_loop].
  apply runs_bind, runs_attempt. unfold fcntl_ofd_lock, runs at 1, sys.
  pose proof (kernel_clock (world os) (FcntlLock fd F_OFD_SETLK lock)) as Hk.
  destruct (kernel (world os) (FcntlLock fd F_OFD_SETLK lock)) as [r w]. cbn [snd] in Hk.
  split; [eexists; split; [done|by constructor]|].
  set (os1 := mkOs w _).
  assert (len (trace os1) = len (trace os) + 1) as Hl by (cbn [trace os1]; by rewrite len_app).
  destruct r as [l|code]; [eapply runs_here; [done|split; [lia|done]]|].
  destruct (is_lock_conflict (OsError code) && (instant_now w <? deadline)) eqn:E.
  - b2p. unfold runs. cbn [world trace os1]. rewrite (proj2 (andb_true_iff _ _)).
    2:{ split; [done|]. by apply Z.ltb_lt. }
    pose proof (sleep_clock w SETLKW_RETRY_DELAY) as Hs.
    assert (0 < Z.of_nat fuel) by (unfold SETLKW_RETRY_DELAY in *; cbn [world] in *; lia).
    specialize (IH (mkOs (thread_sleep w SETLKW_RETRY_DELAY) (trace os1))).
    unfold runs in IH. cbn [world trace os1] in IH.
    destruct (lock_wait_loop fuel deadline fd lock _) as [[r s']|];
      [|by apply IH; unfold SETLKW_RETRY_DELAY in *; lia].
    destruct IH as [Hc [Hn HQ]]; [unfold SETLKW_RETRY_DELAY in *; lia..|].
    rewrite len_app in Hn. change (len [_]) with 1 in Hn.
    split; [done|]. split; [lia|done].
  - eapply runs_here; [cbn [world os1]; by rewrite E|]. split; [lia|].
    cbn [world os1]. intros Hc. rewrite Hc in E. cbn in E. b2p. done.
Qed.

Lemma lock_wait_calls fd lock : calls harmless (fcntl_ofd_lock_wait_bounded fd lock).
Proof.
  intros os.
  pose proof (lock_wait_runs 52 (instant_now (world os) + SETLKW_MAX_WAIT) fd lock os) as Hr.
  unfold runs, fcntl_ofd_lock_wait_bounded in *.
  destruct (lock_wait_loop 52 _ fd lock os) as [[r os']|];
    (destruct Hr as [(n & En & Fn) _] || destruct Hr);
    try (unfold SETLKW_MAX_WAIT, SETLKW_RETRY_DELAY; lia).
  split; [|done]. exists n. split; [done|]. eapply Forall_impl; [exact Fn|]. by intros c ->.
Qed.

End HostFacts.

#[export] Hint Resolve calls_sys : agentvm.

(** ** Theorems *)

(** C37 (termination). Waiting for a lock always ends: whatever the kernel
    answers, the bounded wait makes at most 52 attempts, all of them for the
    lock asked for, and reports a conflict only once the 250 ms have passed. *)
Theorem lock_wait_bounded {W} `{HostOs W} `{!ClockLaws} fd lock os :
  exists r os' attempts,
    fcntl_ofd_lock_wait_bounded fd lock os = Ret (r, os') /\
    trace os' = (trace os ++ attempts)%list /\
    Forall (fun c => c = FcntlLock fd F_OFD_SETLK lock) attempts /\ len attempts <= 52 /\
    match r with
    | Ok _ => True
    | Err e => is_lock_conflict e = true ->
        instant_now (world os) + SETLKW_MAX_WAIT <= instant_now (world os')
    end.
Proof.
  pose proof (lock_wait_runs 52 (instant_now (world os) + SETLKW_MAX_WAIT) fd lock os) as Hr.
  unfold runs in Hr. unfold fcntl_ofd_lock_wait_bounded.
  destruct (lock_wait_loop 52 _ fd lock os) as [[r os']|].
  - destruct Hr as [(n & En & Fn) [Hn HQ]]; [unfold SETLKW_MAX_WAIT, SETLKW_RETRY_DELAY; lia|lia|].
    change (trace os' = (trace os ++ n)%list) in En. rewrite En, len_app in Hn.
    exists r, os', n. split_and!; try done. lia.
  - destruct Hr; unfold SETLKW_MAX_WAIT, SETLKW_RETRY_DELAY; lia.
Qed.

(** A lock of the guest translated for the host and back is the
    same lock, with the process id cleared; translation fails, with [EINVAL],
    exactly on an unknown lock type, an empty range, or an offset or length that
    [off_t] cannot hold. *)
Theorem lock_translation lock :
  0 <= fl_type lock <= u32_max -> 0 <= fl_start lock -> 0 <= fl_end lock <= u64_max ->
  let open_ended := fl_end lock = u64_max in
  match fuse_lock_to_host lock with
  | Ok h => host_lock_to_fuse h = Ok (mkFileLock (fl_start lock) (fl_end lock) (fl_type lock) 0) /\
      l_whence h = SEEK_SET /\ l_pid h = 0
  | Err e => e = OsError EINVAL /\
      (2 < fl_type lock \/ i64_max < fl_start lock \/
       (~ open_ended /\ (fl_end lock < fl_start lock \/ i64_max < fl_end lock - fl_start lock + 1)))
  end.
Proof.
  intros Ht Hs He. destruct lock as [start stop t pid]; cbn [fl_start fl_end fl_type] in *.
  unfold fuse_lock_to_host, host_lock_to_fuse, lock_type, off_t_try_from, u64_try_from, as_i32,
    F_RDLCK, F_WRLCK, F_UNLCK, i64_max, u64_max, u32_max in *. cbn [fl_start fl_end fl_type].
  destruct (t <? 2 ^ 31) eqn:Et; b2p;
  repeat (case_test; cbn [result_bind l_type l_start l_len l_pid l_whence];
    repeat match goal with H : (_ || _) = true |- _ => apply orb_true_iff in H as [H|H]; b2p end;
    try lia);
  try (split; [done|lia]); split_and!; try done; repeat f_equal; lia.
Qed.

(** ** Witnesses *)

(** A host for the witnesses: a clock, and an answer to every call. *)
Record toy := mkToy { toy_clock : Z; toy_answer : forall c, result (answer c) Z }.

#[global] Instance toy_os : HostOs toy := {|
  kernel w c := (toy_answer w c, w);
  wall_clock w := toy_clock w / 1000;
  instant_now := toy_clock;
  thread_sleep w d := mkToy (toy_clock w + d) (toy_answer w)
|}.

#[global] Instance toy_clock_laws : ClockLaws.
Proof. split; intros; cbn; lia. Qed.

(** A host on which every lock is taken. *)
Definition contended : toy := mkToy 0 (fun _ => Err EAGAIN).

Lemma lock_wait_bounded_witness :
  exists r os' attempts,
    fcntl_ofd_lock_wait_bounded 3 (mkFlock F_WRLCK SEEK_SET 0 0 0) (mkOs contended []) = Ret (r, os') /\
    trace os' = attempts.
Proof.
  destruct (lock_wait_bounded 3 (mkFlock F_WRLCK SEEK_SET 0 0 0) (mkOs contended []))
    as (r & os' & n & E & Et & _).
  exists r, os', n. split; [exact E|exact Et].
Defined.

End HostOps.
