(* ===== verification/Manifest.v ===== *)
(** The manifest of the composed filesystem
    (src/composed-fs/src/manifest.rs): its data and its validation. Decoding the
    JSON text is [serde_json]'s, a parameter. *)

From stdpp Require Import base option list sets numbers strings.
From Stdlib Require Import ZArith Lia Ascii String.
From S2P Require Import Prelude RustIo RustStr FsPath HostOps.

Local Open Scope string_scope.
Local Open Scope Z_scope.

Module Manifest.
Import FsPath HostOps.

Definition SCHEMA_VERSION : Z := 1.

Inductive FilterAction := HideAndShadow.

Record FilterSpec := mkFilter {
  flt_mount_id : option string; flt_suffixes : list string; flt_action : FilterAction }.

Inductive SourceClass :=
| Workspace | PersistentHome | ToolState | AuthConfig | SystemRo | UserRo | UserRw.

Inductive MetadataPolicy := HostPolicy.

Record MetadataSpec := mkMetadataSpec { uid_gid : MetadataPolicy; permissions : MetadataPolicy }.

Record MountSpec := mkMountSpec {
  ms_id : string;
  ms_guest_path : string;
  ms_host_path : string;
  ms_kind : MountKind;
  ms_access : AccessMode;
  ms_source_class : SourceClass;
  ms_required : bool;
  ms_bind : bool;
  ms_metadata : MetadataSpec
}.

Record SyntheticSpec := mkSynthetic { syn_uid : Z; syn_gid : Z; syn_dir_mode : string }.

Record Manifest := mkManifest {
  schema_version : Z;
  export_tag : option string;
  created_by : option string;
  mounts : list MountSpec;
  synthetic : option SyntheticSpec;
  protected_guest_paths : list string;
  shadow_root : option string;
  filters : list FilterSpec
}.

(** Each suffix is non-empty and has neither a separator nor a NUL byte. *)
Definition suffix_ok (suffix : string) : bool :=
  negb (bool_decide (suffix = "") || contains_char "/" suffix || contains_char NUL suffix).

Fixpoint check_suffixes (suffixes : list string) : io_result unit :=
  match suffixes with
  | [] => Ok tt
  | suffix :: rest =>
      if negb (suffix_ok suffix)
      then Err (invalid_input "filter suffix must be a non-empty path-component suffix")
      else check_suffixes rest
  end.

Definition FilterSpec_validate (f : FilterSpec) : io_result unit :=
  match flt_suffixes f with
  | [] => Err (invalid_input "filter suffixes cannot be empty")
  | suffixes => check_suffixes suffixes
  end.

Definition MountSpec_validate (m : MountSpec) : io_result unit :=
  if bool_decide (ms_id m = "") then Err (invalid_input "mount id cannot be empty")
  else
    match validate_single_path_component (ms_id m) with
    | Err _ => Err (invalid_input "mount id must be a safe path component")
    | Ok _ =>
        if negb (starts_with "/" (ms_host_path m))
        then Err (invalid_input "host_path must be absolute for mount")
        else Ok tt
    end.

(** The loop over the mounts, with the guest paths seen so far. *)
Fixpoint check_mounts (protected seen : list string) (ms : list MountSpec) : io_result unit :=
  match ms with
  | [] => Ok tt
  | m :: rest =>
      let? _ := MountSpec_validate m in
      let? guest_path := normalize_guest_path (ms_guest_path m) in
      if existsb (fun p => bool_decide (p = guest_path)) protected
      then Err (invalid_input "mount targets protected guest path")
      else if bool_decide (guest_path = "/")
      then Err (invalid_input "mount guest_path cannot be /")
      else if existsb (fun p => bool_decide (p = guest_path)) seen
      then Err (invalid_input "duplicate guest_path in manifest")
      else check_mounts protected (seen ++ [guest_path])%list rest
  end.

Definition validate_manifest_json_shape (from_str : string -> option Manifest) (text : string)
  : io_result unit :=
  let? manifest := ok_or (from_str text) (invalid_input "invalid manifest JSON") in
  if negb (schema_version manifest =? SCHEMA_VERSION)
  then Err (invalid_input "unsupported schema_version")
  else
    match mounts manifest with
    | [] => Err (invalid_input "manifest must contain at least one mount")
    | ms =>
        let? _ := match synthetic manifest with
                  | Some s => let? _ := parse_octal_mode (syn_dir_mode s) in Ok tt
                  | None => Ok tt
                  end in
        check_mounts (protected_guest_paths manifest) [] ms
    end.

(** ** Specification *)

(** A mount with a safe id and an absolute host path, on the normalised guest
    path [p]. *)
Definition mount_at_path (m : MountSpec) (p : string) : Prop :=
  safe_name (ms_id m) /\ starts_with "/" (ms_host_path m) = true /\
  normalize_guest_path (ms_guest_path m) = Ok p /\ p <> "/".

Definition well_shaped (manifest : Manifest) : Prop :=
  schema_version manifest = SCHEMA_VERSION /\ mounts manifest <> [] /\
  (forall s, synthetic manifest = Some s -> exists mode, parse_octal_mode (syn_dir_mode s) = Ok mode) /\
  exists paths, Forall2 mount_at_path (mounts manifest) paths /\ NoDup paths /\
    Forall (fun p => p ∉ protected_guest_paths manifest) paths.

Lemma MountSpec_validate_iff m :
  MountSpec_validate m = Ok tt <->
  safe_name (ms_id m) /\ starts_with "/" (ms_host_path m) = true.
Proof.
  unfold MountSpec_validate. split.
  - case_test; [done|]. destruct (validate_single_path_component (ms_id m)) as [[]|] eqn:E; [|done].
    case_test; [done|]. intros _. by split; [apply validate_single_iff|].
  - intros [Hs ->]. rewrite bool_decide_false by (by destruct Hs).
    by rewrite (proj2 (validate_single_iff _) Hs).
Qed.

Lemma existsb_elem (p : string) (l : list string) : existsb (fun q => bool_decide (q = p)) l = true <-> p ∈ l.
Proof.
  rewrite existsb_exists. split.
  - intros (q & Hin & ->%bool_decide_eq_true). by apply list_elem_of_In.
  - intros Hin. exists p. split; [by apply list_elem_of_In|by apply bool_decide_eq_true].
Qed.

Lemma check_mounts_iff protected seen ms :
  check_mounts protected seen ms = Ok tt <->
  exists paths, Forall2 mount_at_path ms paths /\ NoDup paths /\
    Forall (fun p => p ∉ protected /\ p ∉ seen) paths.
Proof.
  revert seen. induction ms as [|m ms IH]; intros seen; cbn [check_mounts].
  { split; [|done]. intros _. exists []. repeat constructor. }
  split.
  - destruct (MountSpec_validate m) as [[]|] eqn:Ev; [|done]. cbn [result_bind].
    destruct (normalize_guest_path (ms_guest_path m)) as [p|] eqn:En; [|done]. cbn [result_bind].
    destruct (existsb _ protected) eqn:Ep; [done|]. case_bool_decide; [done|].
    destruct (existsb _ seen) eqn:Es; [done|].
    intros (paths & Hf & Hd & Ha)%IH. apply not_true_iff_false in Ep, Es.
    rewrite existsb_elem in Ep, Es. apply MountSpec_validate_iff in Ev as [? ?].
    exists (p :: paths). split_and!.
    + by constructor.
    + constructor; [|done]. rewrite Forall_forall in Ha. intros Hin.
      destruct (Ha p Hin) as [_ Hn]. set_solver.
    + constructor; [done|]. eapply Forall_impl; [exact Ha|]. set_solver.
  - intros (paths & Hf & Hd & Ha). inversion Hf as [|? p ? paths' Hm Hf']; subst.
    destruct Hm as (Hi & Hh & En & Hr). apply NoDup_cons in Hd as [Hni Hd].
    apply Forall_cons in Ha as [[Hp Hs] Ha].
    rewrite (proj2 (MountSpec_validate_iff m)) by done. cbn [result_bind]. rewrite En. cbn [result_bind].
    rewrite <- existsb_elem in Hp, Hs. apply not_true_iff_false in Hp, Hs.
    rewrite Hp, Hs, bool_decide_false by done. apply IH. exists paths'. split_and!; [done..|].
    apply Forall_forall. intros q Hq. rewrite Forall_forall in Ha. destruct (Ha q Hq).
    split; [done|]. set_solver.
Qed.

(** The shape check accepts a manifest exactly when it decodes,
    has the supported version and at least one mount, an octal directory mode if
    it has a synthetic section, and its mounts have safe ids, absolute host
    paths and distinct normalised guest paths that are neither the root nor
    protected. *)
Theorem validate_manifest_spec from_str text :
  validate_manifest_json_shape from_str text = Ok tt <->
  exists manifest, from_str text = Some manifest /\ well_shaped manifest.
Proof.
  unfold validate_manifest_json_shape, well_shaped.
  destruct (from_str text) as [mf|]; cbn [ok_or result_bind]; [|split; [done|by intros (? & ? & _)]].
  split.
  - case_test; [done|]. destruct (mounts mf) as [|m ms] eqn:Em; [done|].
    destruct (synthetic mf) as [sy|] eqn:Es; cbn [result_bind].
    + destruct (parse_octal_mode (syn_dir_mode sy)) as [mode|] eqn:Eo; cbn [result_bind]; [|done].
      intros (paths & ? & ? & Ha)%check_mounts_iff. exists mf. rewrite Em, Es. split_and!; try done.
      * intros s [= <-]. eauto.
      * exists paths. split_and!; try done. eapply Forall_impl; [exact Ha|]. by intros ? [].
    + intros (paths & ? & ? & Ha)%check_mounts_iff. exists mf. rewrite Em, Es. split_and!; try done.
      exists paths. split_and!; try done. eapply Forall_impl; [exact Ha|]. by intros ? [].
  - intros (? & [= <-] & Hv & Hne & Hsy & paths & Hf & Hd & Ha).
    rewrite Hv, Z.eqb_refl. cbn [negb]. destruct (mounts mf) as [|m ms]; [done|].
    assert (check_mounts (protected_guest_paths mf) [] (m :: ms) = Ok tt) as Hc.
    { apply check_mounts_iff. exists paths. split_and!; try done.
      eapply Forall_impl; [exact Ha|]. intros p Hp. split; [done|]. apply not_elem_of_nil. }
    destruct (synthetic mf) as [sy|]; [|done].
    destruct (Hsy sy eq_refl) as [mode ->]. done.
Qed.

End Manifest.
