(* ===== verification/Namespace.v ===== *)
(** The namespace of the composed filesystem
    (src/composed-fs/src/namespace.rs, the tables of state.rs, and the attribute
    helpers of lib.rs): inodes, the synthetic tree of mount points, host and
    shadow nodes, and lookup counts.

    Handlers run one at a time under the namespace lock, so the state of the
    server is one value; a lock is never found poisoned because no handler
    panics. Inode numbers are [u64]: running out of them panics, as in a build
    with overflow checks. *)

From stdpp Require Import base option list gmap numbers strings sorting countable.
From Stdlib Require Import ZArith Lia Ascii String.
From S2P Require Import Prelude RustIo RustStr FsPath HostOps Manifest.

Local Open Scope string_scope.
Local Open Scope Z_scope.

Module Namespace.
Import FsPath HostOps Manifest.

Definition ROOT_ID : Z := 1.
Definition ATTR_TTL : Z := 1.
Definition ENTRY_TTL : Z := 1.

(** ** Keys *)

#[global] Instance HostIdentity_countable : Countable HostIdentity.
Proof.
  refine (inj_countable' (fun i => (id_dev i, id_ino i)) (fun '(d, i) => mkIdentity d i) _).
  by intros [].
Defined.

#[global] Instance Component_countable : Countable Component.
Proof.
  refine (inj_countable' (fun c => match c with
    | RootDir => inl 0%nat | CurDir => inl 1%nat | ParentDir => inl 2%nat | Normal s => inr s end)
    (fun x => match x with
    | inl O => RootDir | inl (S O) => CurDir | inl _ => ParentDir | inr s => Normal s end) _).
  by intros [].
Defined.

(** A host file is known by its mount and identity, a shadow file by its mount
    and path; paths are compared by components. *)
Definition HostKey : Type := nat * HostIdentity.
Definition ShadowKey : Type := nat * list Component.
Definition shadow_key (mount : nat) (relative_path : string) : ShadowKey :=
  (mount, components relative_path).

(** ** Data *)

(** [fuse::Attr]. *)
Record Attr := mkAttr {
  a_ino : Z; a_size : Z; a_blocks : Z; a_atime : Z; a_mtime : Z; a_ctime : Z;
  a_atimensec : Z; a_mtimensec : Z; a_ctimensec : Z; a_mode : Z; a_nlink : Z;
  a_uid : Z; a_gid : Z; a_rdev : Z; a_blksize : Z; a_flags : Z
}.

Record Entry := mkEntry {
  e_inode : Z; e_generation : Z; e_attr : Attr; e_attr_timeout : Z; e_entry_timeout : Z }.

Inductive NodeKind :=
| SyntheticDir
| OverlayDir (mount : nat) (relative_path : string)
| MountRoot (mount : nat)
| Host (mount : nat) (relative_path : string) (identity : HostIdentity)
| Shadow (mount : nat) (relative_path : string).

Record Node := mkNode {
  n_inode : Z; n_kind : NodeKind; n_mode : Z; n_uid : Z; n_gid : Z;
  lookup_count : Z; cached_attr : option Attr }.

Record Namespace := mkNamespace {
  nodes : gmap Z Node;
  children : gmap Z (gmap string Z);
  path_to_inode : gmap string Z;
  ns_mounts : list MountRuntime;
  host_inodes : gmap HostKey Z;
  shadow_inodes : gmap ShadowKey Z;
  next_inode : Z;
  synthetic_uid : Z;
  synthetic_gid : Z;
  synthetic_dir_mode : Z
}.

Definition set_nodes (f : gmap Z Node -> gmap Z Node) (ns : Namespace) : Namespace :=
  mkNamespace (f (nodes ns)) (children ns) (path_to_inode ns) (ns_mounts ns) (host_inodes ns)
    (shadow_inodes ns) (next_inode ns) (synthetic_uid ns) (synthetic_gid ns) (synthetic_dir_mode ns).
Definition set_children (f : gmap Z (gmap string Z) -> gmap Z (gmap string Z)) (ns : Namespace)
  : Namespace :=
  mkNamespace (nodes ns) (f (children ns)) (path_to_inode ns) (ns_mounts ns) (host_inodes ns)
    (shadow_inodes ns) (next_inode ns) (synthetic_uid ns) (synthetic_gid ns) (synthetic_dir_mode ns).
Definition set_paths (f : gmap string Z -> gmap string Z) (ns : Namespace) : Namespace :=
  mkNamespace (nodes ns) (children ns) (f (path_to_inode ns)) (ns_mounts ns) (host_inodes ns)
    (shadow_inodes ns) (next_inode ns) (synthetic_uid ns) (synthetic_gid ns) (synthetic_dir_mode ns).
Definition set_mounts (f : list MountRuntime -> list MountRuntime) (ns : Namespace) : Namespace :=
  mkNamespace (nodes ns) (children ns) (path_to_inode ns) (f (ns_mounts ns)) (host_inodes ns)
    (shadow_inodes ns) (next_inode ns) (synthetic_uid ns) (synthetic_gid ns) (synthetic_dir_mode ns).
Definition set_host_inodes (f : gmap HostKey Z -> gmap HostKey Z) (ns : Namespace) : Namespace :=
  mkNamespace (nodes ns) (children ns) (path_to_inode ns) (ns_mounts ns) (f (host_inodes ns))
    (shadow_inodes ns) (next_inode ns) (synthetic_uid ns) (synthetic_gid ns) (synthetic_dir_mode ns).
Definition set_shadow_inodes (f : gmap ShadowKey Z -> gmap ShadowKey Z) (ns : Namespace) : Namespace :=
  mkNamespace (nodes ns) (children ns) (path_to_inode ns) (ns_mounts ns) (host_inodes ns)
    (f (shadow_inodes ns)) (next_inode ns) (synthetic_uid ns) (synthetic_gid ns) (synthetic_dir_mode ns).
Definition set_next_inode (n : Z) (ns : Namespace) : Namespace :=
  mkNamespace (nodes ns) (children ns) (path_to_inode ns) (ns_mounts ns) (host_inodes ns)
    (shadow_inodes ns) n (synthetic_uid ns) (synthetic_gid ns) (synthetic_dir_mode ns).

(** ** Attributes *)

Definition attr_from_metadata (inode : Z) (m : Metadata) : Attr := {|
  a_ino := inode; a_size := md_size m; a_blocks := md_blocks m;
  a_atime := Z.max (md_atime m) 0; a_mtime := Z.max (md_mtime m) 0; a_ctime := Z.max (md_ctime m) 0;
  a_atimensec := wrap32 (md_atime_nsec m); a_mtimensec := wrap32 (md_mtime_nsec m);
  a_ctimensec := wrap32 (md_ctime_nsec m);
  a_mode := md_mode m; a_nlink := wrap32 (md_nlink m); a_uid := md_uid m; a_gid := md_gid m;
  a_rdev := wrap32 (md_rdev m); a_blksize := wrap32 (md_blksize m); a_flags := 0 |}.

Definition DT_UNKNOWN : Z := 0.
Definition DT_FIFO : Z := 1.
Definition DT_CHR : Z := 2.
Definition DT_DIR : Z := 4.
Definition DT_BLK : Z := 6.
Definition DT_REG : Z := 8.
Definition DT_LNK : Z := 10.
Definition DT_SOCK : Z := 12.

Definition dirent_type_from_mode (mode : Z) : Z :=
  let x := Z.land mode S_IFMT in
  if x =? S_IFDIR then DT_DIR
  else if x =? S_IFREG then DT_REG
  else if x =? S_IFLNK then DT_LNK
  else if x =? S_IFIFO then DT_FIFO
  else if x =? S_IFSOCK then DT_SOCK
  else if x =? S_IFCHR then DT_CHR
  else if x =? S_IFBLK then DT_BLK
  else DT_UNKNOWN.

(** ** The tree *)

Definition is_static (k : NodeKind) : bool :=
  match k with SyntheticDir | OverlayDir _ _ | MountRoot _ => true | _ => false end.

(** [children.entry(inode).or_default()]. *)
Definition ensure_children (inode : Z) (ns : Namespace) : Namespace :=
  set_children (fun c => match c !! inode with Some _ => c | None => <[inode := ∅]> c end) ns.

Definition insert_node (node : Node) (ns : Namespace) : Namespace :=
  let ns := if is_static (n_kind node) then ensure_children (n_inode node) ns else ns in
  set_nodes (fun m => <[n_inode node := node]> m) ns.

Definition insert_root (ns : Namespace) : Namespace :=
  let ns := set_nodes (fun m => <[ROOT_ID :=
    mkNode ROOT_ID SyntheticDir (Z.lor S_IFDIR (synthetic_dir_mode ns)) (synthetic_uid ns)
      (synthetic_gid ns) 1 None]> m) ns in
  set_paths (fun p => <["/" := ROOT_ID]> p) (ensure_children ROOT_ID ns).

(** [link_child]; a duplicate has already replaced the entry when the error is
    returned, and the namespace under construction is then dropped. *)
Definition link_child (parent : Z) (name : string) (child : Z) (ns : Namespace)
  : io_result Namespace :=
  match children ns !! parent with
  | None => Err (invalid_input "parent inode is not a directory")
  | Some cs =>
      match cs !! name with
      | Some _ => Err (invalid_input "duplicate child under parent inode")
      | None => Ok (set_children (fun c => <[parent := <[name := child]> cs]> c) ns)
      end
  end.

Definition allocate_inode (ns : Namespace) : exec (Z * Namespace) :=
  if next_inode ns <? u64_max then Ret (next_inode ns, set_next_inode (next_inode ns + 1) ns)
  else Panic.

(** ** Pure queries *)

(** [self.mounts[mount]]. *)
Definition mount_index {S} (ns : Namespace) (mount : nat) : M S MountRuntime :=
  fun s => match ns_mounts ns !! mount with Some m => Ret (Ok m, s) | None => Panic end.

Definition host_mount (ns : Namespace) (mount : nat) : io_result MountRuntime :=
  ok_or (ns_mounts ns !! mount) (OsError ENOENT).

Definition get_node (ns : Namespace) (inode : Z) : io_result Node :=
  ok_or (nodes ns !! inode) (OsError ENOENT).

Definition ensure_mount_writable (ns : Namespace) (mount : nat) : io_result unit :=
  let? m := host_mount ns mount in
  match mt_access m with Rw => Ok tt | Ro => Err (OsError EROFS) end.

Definition shadow_root_fd (ns : Namespace) (mount : nat) : io_result Z :=
  let? m := host_mount ns mount in ok_or (mt_shadow_root m) (OsError ENOENT).

Definition shadow_root_path (ns : Namespace) (mount : nat) : io_result string :=
  let? m := host_mount ns mount in ok_or (mt_shadow_root_path m) (OsError ENOENT).

Definition shadow_relative_path (ns : Namespace) (mount : nat) (relative_path : string)
  : io_result string :=
  let? _ := validate_relative_path relative_path in
  let? m := host_mount ns mount in
  Ok (path_join (mt_id m) relative_path).

(** [Path::to_str] always succeeds: relative paths are built from [String]s. *)
Definition filtered_path (ns : Namespace) (mount : nat) (relative_path : string) : io_result bool :=
  let? _ := validate_relative_path relative_path in
  match file_name relative_path with
  | None => Ok false
  | Some name =>
      let? m := host_mount ns mount in
      Ok (existsb (fun suffix => ends_with suffix name) (filter_suffixes m))
  end.

(** [host_location]; the guard [self.mounts[mount]] indexes. *)
Definition host_location (ns : Namespace) (node : Node) : exec (option (nat * string)) :=
  match n_kind node with
  | MountRoot mount =>
      match ns_mounts ns !! mount with
      | None => Panic
      | Some m => Ret (if decide (mt_kind m = Dir) then Some (mount, "") else None)
      end
  | OverlayDir mount relative_path | Host mount relative_path _ => Ret (Some (mount, relative_path))
  | _ => Ret None
  end.

Definition host_file_location (node : Node) : option (nat * string) :=
  match n_kind node with
  | MountRoot mount => Some (mount, "")
  | Host mount relative_path _ => Some (mount, relative_path)
  | _ => None
  end.

Definition shadow_file_location (node : Node) : option (nat * string) :=
  match n_kind node with
  | Shadow mount relative_path => Some (mount, relative_path)
  | _ => None
  end.

Definition host_identity (node : Node) : option HostIdentity :=
  match n_kind node with Host _ _ identity => Some identity | _ => None end.

(** Results of code that may also panic. *)
Definition of_exec {S A} (m : exec A) : M S A :=
  fun s => match m with Ret a => Ret (Ok a, s) | Panic => Panic end.

(** [host_file_location(node).or_else(|| host_location(node))]. *)
Definition file_or_dir_location (ns : Namespace) (node : Node) : exec (option (nat * string)) :=
  match host_file_location node with
  | Some l => Ret (Some l)
  | None => host_location ns node
  end.

Definition host_child_location {S} (ns : Namespace) (parent : Z) (name : string)
  : M S (nat * string) :=
  let* _ := lift (validate_single_path_component name) in
  let* parent := lift (get_node ns parent) in
  let* location := of_exec (host_location ns parent) in
  match location with
  | None => throw (OsError EROFS)
  | Some (mount, relative_path) => ret (mount, path_join relative_path name)
  end.

Definition xattr_location {S} (ns : Namespace) (inode : Z)
  : M S (nat * string * option HostIdentity) :=
  let* node := lift (get_node ns inode) in
  let* location := of_exec (file_or_dir_location ns node) in
  match location with
  | None => throw (OsError EOPNOTSUPP)
  | Some (mount, relative_path) => ret (mount, relative_path, host_identity node)
  end.

(** ** Host and shadow nodes *)

Definition HostIdentity_from_metadata (m : Metadata) : HostIdentity := mkIdentity (md_dev m) (md_ino m).

(** The metadata a known node takes over. *)
Definition refresh (kind : NodeKind) (inode : Z) (m : Metadata) (node : Node) : Node :=
  mkNode (n_inode node) kind (md_mode m) (md_uid m) (md_gid m) (lookup_count node)
    (Some (attr_from_metadata inode m)).

Definition get_or_create_host_node (mount_index : nat) (relative_path : string) (m : Metadata)
  (ns : Namespace) : exec (Z * Namespace) :=
  let identity := HostIdentity_from_metadata m in
  let key := (mount_index, identity) in
  match host_inodes ns !! key with
  | Some inode =>
      Ret (inode, set_nodes (alter (fun node =>
        let kind := match n_kind node with
                    | Host mount known_path known_identity =>
                        if decide (mount = mount_index) then Host mount relative_path identity
                        else Host mount known_path known_identity
                    | k => k
                    end in
        refresh kind inode m node) inode) ns)
  | None =>
      let! (inode, ns) := allocate_inode ns in
      let ns := insert_node (mkNode inode (Host mount_index relative_path identity)
        (md_mode m) (md_uid m) (md_gid m) 0 (Some (attr_from_metadata inode m))) ns in
      Ret (inode, set_host_inodes (fun h => <[key := inode]> h) ns)
  end.

Definition get_or_create_shadow_node (mount_index : nat) (relative_path : string) (m : Metadata)
  (ns : Namespace) : exec (Z * Namespace) :=
  let key := shadow_key mount_index relative_path in
  match shadow_inodes ns !! key with
  | Some inode =>
      Ret (inode, set_nodes (alter (fun node => refresh (n_kind node) inode m node) inode) ns)
  | None =>
      let! (inode, ns) := allocate_inode ns in
      let ns := insert_node (mkNode inode (Shadow mount_index relative_path)
        (md_mode m) (md_uid m) (md_gid m) 0 (Some (attr_from_metadata inode m))) ns in
      Ret (inode, set_shadow_inodes (fun h => <[key := inode]> h) ns)
  end.

Definition count_lookup (node : Node) : Node :=
  mkNode (n_inode node) (n_kind node) (n_mode node) (n_uid node) (n_gid node)
    (saturating_add u64_max (lookup_count node) 1) (cached_attr node).

Definition with_attr (a : Attr) (node : Node) : Node :=
  mkNode (n_inode node) (n_kind node) (n_mode node) (n_uid node) (n_gid node)
    (lookup_count node) (Some a).

Definition metadata_entry (inode : Z) (m : Metadata) : Entry :=
  mkEntry inode 0 (attr_from_metadata inode m) ATTR_TTL ENTRY_TTL.

(** The common end of [entry_for_host_metadata] and [entry_for_shadow_metadata]:
    count the lookup of a node that must exist. *)
Definition counted_entry (inode : Z) (m : Metadata) (ns : Namespace) : exec (Entry * Namespace) :=
  match nodes ns !! inode with
  | None => Panic
  | Some node =>
      Ret (metadata_entry inode m,
           set_nodes (fun ms => <[inode := with_attr (attr_from_metadata inode m) (count_lookup node)]> ms) ns)
  end.

Definition entry_for_host_metadata (mount_index : nat) (relative_path : string) (m : Metadata)
  (ns : Namespace) : exec (Entry * Namespace) :=
  let! (inode, ns) := get_or_create_host_node mount_index relative_path m ns in
  counted_entry inode m ns.

Definition entry_for_shadow_metadata (mount_index : nat) (relative_path : string) (m : Metadata)
  (ns : Namespace) : exec (Entry * Namespace) :=
  let! (inode, ns) := get_or_create_shadow_node mount_index relative_path m ns in
  counted_entry inode m ns.

(** ** Forgetting *)

Definition has_children (ns : Namespace) (inode : Z) : bool :=
  match children ns !! inode with Some cs => negb (bool_decide (cs = ∅)) | None => false end.

Definition prune_cold_inode (inode : Z) (ns : Namespace) : Namespace :=
  match nodes ns !! inode with
  | None => ns
  | Some node =>
      if negb (lookup_count node =? 0) then ns
      else if has_children ns inode then ns
      else
        match n_kind node with
        | Host mount _ identity =>
            set_host_inodes (delete (mount, identity))
              (set_children (delete inode) (set_nodes (delete inode) ns))
        | Shadow mount relative_path =>
            set_shadow_inodes (delete (shadow_key mount relative_path))
              (set_children (delete inode) (set_nodes (delete inode) ns))
        | _ => ns
        end
  end.

Definition uncount (count : Z) (node : Node) : Node :=
  mkNode (n_inode node) (n_kind node) (n_mode node) (n_uid node) (n_gid node)
    (saturating_sub (lookup_count node) count) (cached_attr node).

Definition forget_inode (inode count : Z) (ns : Namespace) : Namespace :=
  if inode =? ROOT_ID then ns
  else prune_cold_inode inode (set_nodes (alter (uncount count) inode) ns).

Definition is_cold (ns : Namespace) (inode : Z) (node : Node) : bool :=
  negb ((inode =? ROOT_ID) || negb (lookup_count node =? 0) || has_children ns inode
        || is_static (n_kind node)).

Definition prune_cold_host_shadow_nodes (ns : Namespace) : Namespace :=
  let inodes := map fst (filter (fun p => is_cold ns p.1 p.2 = true) (map_to_list (nodes ns))) in
  foldl (fun ns inode => prune_cold_inode inode ns) ns inodes.

(** ** The state of the server *)

Record LockKey := mkLockKey { lk_dev : Z; lk_ino : Z; lk_owner : Z }.

#[global] Instance LockKey_eq_dec : EqDecision LockKey.
Proof. solve_decision. Defined.
#[global] Instance LockKey_countable : Countable LockKey.
Proof.
  refine (inj_countable' (fun k => (lk_dev k, lk_ino k, lk_owner k))
    (fun '(d, i, o) => mkLockKey d i o) _). by intros [].
Defined.

Record HandleTable := mkHandles { next_handle : Z; h_files : gmap Z FileHandle }.
Record LockTable := mkLocks { lk_files : gmap LockKey Z }.

Record Fs (W : Type) := mkFs {
  fs_os : Os W; fs_ns : Namespace; fs_handles : HandleTable; fs_locks : LockTable }.
Arguments mkFs {W} _ _ _ _.
Arguments fs_os {W} _.
Arguments fs_ns {W} _.
Arguments fs_handles {W} _.
Arguments fs_locks {W} _.

#[global] Instance Fs_traced W : Traced (Fs W) := fun s => trace (fs_os s).

Section Server.
Context {W : Type} `{HostOs W}.

Definition fsM := M (Fs W).

(** Runs host code inside a handler. *)
Definition os_do {A} (m : io (W := W) A) : fsM A :=
  fun s => let! (r, os) := m (fs_os s) in
           Ret (r, mkFs os (fs_ns s) (fs_handles s) (fs_locks s)).

Definition get_ns : fsM Namespace := fun s => Ret (Ok (fs_ns s), s).
Definition put_ns (ns : Namespace) : fsM unit :=
  fun s => Ret (Ok tt, mkFs (fs_os s) ns (fs_handles s) (fs_locks s)).

(** Runs code that updates the namespace and may panic. *)
Definition update_ns {A} (f : Namespace -> exec (A * Namespace)) : fsM A :=
  let* ns := get_ns in
  let* (a, ns) := of_exec (f ns) in
  let* _ := put_ns ns in ret a.

(** ** Metadata of nodes *)

Definition shadow_metadata (ns : Namespace) (mount : nat) (relative_path : string) : io Metadata :=
  let* shadow_relative := lift (shadow_relative_path ns mount relative_path) in
  let* fd := lift (shadow_root_fd ns mount) in
  stat_beneath fd shadow_relative.

Definition host_metadata_for (ns : Namespace) (node : Node) : io (option Metadata) :=
  match n_kind node with
  | MountRoot mount =>
      let* m := lift (host_mount ns mount) in
      let* md := fstat_file (root m) in ret (Some md)
  | Host mount relative_path identity =>
      let* m := lift (host_mount ns mount) in
      let* md := stat_beneath (root m) relative_path in
      let* _ := lift (validate_host_identity md identity) in
      ret (Some md)
  | OverlayDir mount relative_path =>
      let* m := lift (host_mount ns mount) in
      let* md := stat_beneath (root m) relative_path in ret (Some md)
  | Shadow mount relative_path =>
      let* md := shadow_metadata ns mount relative_path in ret (Some md)
  | SyntheticDir => ret None
  end.

Definition now_secs : io Z := fun os => Ret (Ok (wall_clock (world os)), os).

Definition attr_for (ns : Namespace) (node : Node) : io Attr :=
  let* r := attempt (host_metadata_for ns node) in
  match r with
  | Ok (Some md) => ret (attr_from_metadata (n_inode node) md)
  | Err e =>
      if bool_decide (raw_os_error e = Some ENOENT)
      then match cached_attr node with Some attr => ret attr | None => throw e end
      else throw e
  | Ok None =>
      let* now := now_secs in
      let nlink := match n_kind node with SyntheticDir | OverlayDir _ _ => 2 | _ => 1 end in
      ret {| a_ino := n_inode node; a_size := 0; a_blocks := 0; a_atime := now; a_mtime := now;
             a_ctime := now; a_atimensec := 0; a_mtimensec := 0; a_ctimensec := 0;
             a_mode := n_mode node; a_nlink := nlink; a_uid := n_uid node; a_gid := n_gid node;
             a_rdev := 0; a_blksize := 4096; a_flags := 0 |}
  end.

Definition entry_for (ns : Namespace) (node : Node) : io Entry :=
  let* attr := attr_for ns node in
  ret (mkEntry (n_inode node) 0 attr ATTR_TTL ENTRY_TTL).

Definition node_is_dir (ns : Namespace) (node : Node) : io bool :=
  match n_kind node with
  | SyntheticDir | OverlayDir _ _ => ret true
  | MountRoot mount =>
      let* m := mount_index ns mount in ret (bool_decide (mt_kind m = Dir))
  | Host _ _ _ | Shadow _ _ =>
      let* md := host_metadata_for ns node in
      ret (match md with Some md => is_dir md | None => false end)
  end.

Definition dirent_type_for (ns : Namespace) (node : Node) : io Z :=
  match n_kind node with
  | SyntheticDir | OverlayDir _ _ => ret DT_DIR
  | MountRoot mount =>
      let* m := mount_index ns mount in
      ret (match mt_kind m with Dir => DT_DIR | File => DT_REG end)
  | Host _ _ _ | Shadow _ _ =>
      let* md := host_metadata_for ns node in
      let* md := lift (ok_or md (OsError ENOENT)) in
      ret (dirent_type_from_mode (md_mode md))
  end.

Definition ensure_shadow_parent (ns : Namespace) (mount : nat) (relative_path : string) : io unit :=
  let* shadow_root := lift (shadow_root_path ns mount) in
  let* shadow_relative := lift (shadow_relative_path ns mount relative_path) in
  match parent shadow_relative with
  | Some dir => sys (CreateDirAll (path_join shadow_root dir))
  | None => ret tt
  end.

(** ** Looking up a host child *)

Definition lookup_host_child (parent : Node) (name : string) : fsM (option (Z * Entry)) :=
  let* ns := get_ns in
  let* location := of_exec (host_location ns parent) in
  match location with
  | None => ret None
  | Some (mount_index, parent_relative) =>
      let* mount := lift (host_mount ns mount_index) in
      let* dir := os_do (node_is_dir ns parent) in
      if negb dir then throw (OsError ENOTDIR)
      else
        let relative_path := path_join parent_relative name in
        let* filtered := lift (filtered_path ns mount_index relative_path) in
        if filtered : bool then
          let* r := attempt (os_do (shadow_metadata ns mount_index relative_path)) in
          match r with
          | Ok md =>
              let* entry := update_ns (entry_for_shadow_metadata mount_index relative_path md) in
              ret (Some (e_inode entry, entry))
          | Err e => if bool_decide (raw_os_error e = Some ENOENT) then ret None else throw e
          end
        else
          let* r := attempt (os_do (stat_beneath (root mount) relative_path)) in
          match r with
          | Ok md =>
              let* inode := update_ns (get_or_create_host_node mount_index relative_path md) in
              let* ns := get_ns in
              let* node := lift (get_node ns inode) in
              let* _ := put_ns (set_nodes (fun m => <[inode := count_lookup node]> m) ns) in
              ret (Some (inode, metadata_entry inode md))
          | Err e => if bool_decide (raw_os_error e = Some ENOENT) then ret None else throw e
          end
  end.

(** ** Building the namespace *)

(** A directory inside a mount overlays the host's directory there. *)
Definition child_dir_kind (parent : option NodeKind) (name : string) : NodeKind :=
  match parent with
  | Some (MountRoot mount) => OverlayDir mount name
  | Some (OverlayDir mount relative_path) => OverlayDir mount (path_join relative_path name)
  | Some (Host mount relative_path _) => OverlayDir mount (path_join relative_path name)
  | _ => SyntheticDir
  end.

Definition ensure_synthetic_dir (parent : Z) (name guest_path : string) (ns : Namespace)
  : io (Z * Namespace) :=
  match children ns !! parent ≫= (fun c => c !! name) with
  | Some inode =>
      match nodes ns !! inode with
      | None => fun _ => Panic
      | Some node =>
          let* dir := node_is_dir ns node in
          if negb dir
          then throw (invalid_input "path component conflicts with non-directory manifest entry")
          else ret (inode, ns)
      end
  | None =>
      let* (inode, ns) := of_exec (allocate_inode ns) in
      let kind := child_dir_kind (n_kind <$> nodes ns !! parent) name in
      let ns := insert_node (mkNode inode kind (Z.lor S_IFDIR (synthetic_dir_mode ns))
                  (synthetic_uid ns) (synthetic_gid ns) 0 None) ns in
      let* ns := lift (link_child parent name inode ns) in
      ret (inode, set_paths (fun p => <[guest_path := inode]> p) ns)
  end.

(** The loop over the components before the leaf. *)
Fixpoint ensure_dirs (parent : Z) (current_path : string) (names : list string) (ns : Namespace)
  : io (Z * Namespace) :=
  match names with
  | [] => ret (parent, ns)
  | name :: rest =>
      let current_path := current_path ++ "/" ++ name in
      let* (parent, ns) := ensure_synthetic_dir parent name current_path ns in
      ensure_dirs parent current_path rest ns
  end.

Definition mount_filter_suffixes (manifest : Manifest) (m : MountSpec) : list string :=
  List.concat (map flt_suffixes (filter (fun f =>
    match flt_mount_id f with None => true | Some id => bool_decide (id = ms_id m) end = true)
    (filters manifest))).

Definition add_mount (manifest : Manifest) (m : MountSpec) (ns : Namespace) : io Namespace :=
  let* _ := lift (MountSpec_validate m) in
  let* guest_path := lift (normalize_guest_path (ms_guest_path m)) in
  if existsb (fun p => bool_decide (p = guest_path)) (protected_guest_paths manifest)
  then throw (invalid_input "mount targets protected guest path")
  else if bool_decide (guest_path = "/") then throw (invalid_input "mount guest_path cannot be /")
  else if bool_decide (is_Some (path_to_inode ns !! guest_path))
  then throw (invalid_input "duplicate guest_path in manifest")
  else
    let mount_index := List.length (ns_mounts ns) in
    let filter_suffixes := mount_filter_suffixes manifest m in
    let* shadow_path :=
      match filter_suffixes with
      | [] => ret None
      | _ => match shadow_root manifest with Some p => ret (Some p) | None => fun _ => Panic end
      end in
    let* shadow_fd :=
      match shadow_path with
      | Some p => let* fd := open_mount_root p Dir in ret (Some fd)
      | None => ret None
      end in
    let* root_fd := open_mount_root (ms_host_path m) (ms_kind m) in
    let ns := set_mounts (fun ms => ms ++ [mkMount (ms_id m) (ms_host_path m) root_fd (ms_kind m)
                (ms_access m) filter_suffixes shadow_path shadow_fd])%list ns in
    let* components := lift (path_components guest_path) in
    let* (parent, ns) := ensure_dirs ROOT_ID "" (removelast components) ns in
    match list.last components with
    | None => fun _ => Panic
    | Some leaf =>
        let* (inode, ns) := of_exec (allocate_inode ns) in
        let mode := match ms_kind m with
                    | Dir => Z.lor S_IFDIR 0x1ed | File => Z.lor S_IFREG 0x124 end in
        let ns := insert_node (mkNode inode (MountRoot mount_index) mode (synthetic_uid ns)
                    (synthetic_gid ns) 0 None) ns in
        let* ns := lift (link_child parent leaf inode ns) in
        ret (set_paths (fun p => <[guest_path := inode]> p) ns)
    end.

Fixpoint add_mounts (manifest : Manifest) (ms : list MountSpec) (ns : Namespace) : io Namespace :=
  match ms with
  | [] => ret ns
  | m :: rest => let* ns := add_mount manifest m ns in add_mounts manifest rest ns
  end.

Fixpoint check_filters (mounts : list MountSpec) (fs : list FilterSpec) : io_result unit :=
  match fs with
  | [] => Ok tt
  | f :: rest =>
      let? _ := FilterSpec_validate f in
      if match flt_mount_id f with
         | Some id => negb (existsb (fun m => bool_decide (ms_id m = id)) mounts)
         | None => false
         end
      then Err (invalid_input "filter references unknown mount_id")
      else check_filters mounts rest
  end.

Definition from_manifest (manifest : Manifest) : io Namespace :=
  if negb (schema_version manifest =? SCHEMA_VERSION)
  then throw (invalid_input "unsupported schema_version")
  else if bool_decide (len (mounts manifest) = 0)
  then throw (invalid_input "manifest must contain at least one mount")
  else if bool_decide (is_Some (shadow_root manifest)) && bool_decide (len (filters manifest) = 0)
  then throw (invalid_input "shadow_root requires at least one filter")
  else
    let* _ := lift (check_filters (mounts manifest) (filters manifest)) in
    if negb (bool_decide (len (filters manifest) = 0)) && bool_decide (shadow_root manifest = None)
    then throw (invalid_input "filters require shadow_root")
    else
      let* _ := match shadow_root manifest with
                | Some path =>
                    if negb (is_absolute path) then throw (invalid_input "shadow_root must be absolute")
                    else sys (CreateDirAll path)
                | None => ret tt
                end in
      let uid := match synthetic manifest with Some s => syn_uid s | None => 0 end in
      let gid := match synthetic manifest with Some s => syn_gid s | None => 0 end in
      let* mode := match synthetic manifest with
                   | Some s => lift (parse_octal_mode (syn_dir_mode s))
                   | None => ret 0x16d
                   end in
      let ns := insert_root (mkNamespace ∅ ∅ ∅ [] ∅ ∅ (ROOT_ID + 1) uid gid mode) in
      add_mounts manifest (mounts manifest) ns.

End Server.

(** ** The invariant *)

(** What the tables know of a node: static nodes are never removed, host and
    shadow nodes are found by their key. *)
Inductive node_tag := TStatic | THost (k : HostKey) | TShadow (k : ShadowKey).

Definition tag_of (k : NodeKind) : node_tag :=
  match k with
  | Host mount _ identity => THost (mount, identity)
  | Shadow mount relative_path => TShadow (shadow_key mount relative_path)
  | _ => TStatic
  end.

Definition tag (ns : Namespace) (i : Z) : option node_tag :=
  (fun n => tag_of (n_kind n)) <$> nodes ns !! i.

Definition kind_mount (k : NodeKind) : option nat :=
  match k with
  | SyntheticDir => None
  | OverlayDir m _ | MountRoot m | Host m _ _ | Shadow m _ => Some m
  end.

Definition node_ok (ns : Namespace) (i : Z) (n : Node) : Prop :=
  n_inode n = i /\ ROOT_ID <= i < next_inode ns /\ 0 <= lookup_count n <= u64_max /\
  forall m, kind_mount (n_kind n) = Some m -> (m < List.length (ns_mounts ns))%nat.

(** Nodes are stored under their own number, below the next one to be given;
    the tables of host and shadow inodes hold exactly the host and shadow nodes;
    the tree consists of static nodes only. *)
Record wf (ns : Namespace) : Prop := {
  wf_root : tag ns ROOT_ID = Some TStatic;
  wf_nodes : map_Forall (node_ok ns) (nodes ns);
  wf_host k i : host_inodes ns !! k = Some i <-> tag ns i = Some (THost k);
  wf_shadow k i : shadow_inodes ns !! k = Some i <-> tag ns i = Some (TShadow k);
  wf_tree : map_Forall (fun p cs => tag ns p = Some TStatic /\
    map_Forall (fun _ c => tag ns c = Some TStatic) cs) (children ns);
  wf_next : ROOT_ID < next_inode ns <= u64_max
}.

Lemma tag_lookup ns i t :
  tag ns i = Some t <-> exists n, nodes ns !! i = Some n /\ tag_of (n_kind n) = t.
Proof.
  unfold tag. destruct (nodes ns !! i) as [n|]; cbn; split.
  - intros [= <-]. eauto.
  - by intros (? & [= <-] & ->).
  - done.
  - by intros (? & ? & _).
Qed.

(** A change of nodes in place that keeps their tags. *)
Lemma wf_update_node ns i n n' :
  wf ns -> nodes ns !! i = Some n -> node_ok ns i n' ->
  tag_of (n_kind n') = tag_of (n_kind n) ->
  wf (set_nodes (fun m => <[i := n']> m) ns).
Proof.
  intros [Hr Hn Hh Hs Ht Hx] Hi Hok Htag.
  assert (forall j, tag (set_nodes (fun m => <[i := n']> m) ns) j = tag ns j) as Et.
  { intros j. unfold tag. cbn. destruct (decide (i = j)) as [<-|].
    - by rewrite lookup_insert_eq, Hi; cbn; rewrite Htag.
    - by rewrite lookup_insert_ne. }
  split; cbn.
  - by rewrite Et.
  - apply map_Forall_insert_2; [done|]. exact Hn.
  - intros k j. rewrite Et. apply Hh.
  - intros k j. rewrite Et. apply Hs.
  - eapply map_Forall_impl; [exact Ht|]. intros p cs [Hp Hc]. rewrite Et. split; [done|].
    eapply map_Forall_impl; [exact Hc|]. intros name c Hc'. by rewrite Et.
  - done.
Qed.

Lemma insert_alter (m : gmap Z Node) i n f :
  m !! i = Some n -> alter f i m = <[i := f n]> m.
Proof.
  intros Hi. apply map_eq. intros j. destruct (decide (i = j)) as [<-|].
  - by rewrite lookup_alter_eq, lookup_insert_eq, Hi.
  - by rewrite lookup_alter_ne, lookup_insert_ne.
Qed.

Lemma wf_alter_node ns i f :
  wf ns ->
  (forall n, nodes ns !! i = Some n -> node_ok ns i (f n) /\ tag_of (n_kind (f n)) = tag_of (n_kind n)) ->
  wf (set_nodes (alter f i) ns).
Proof.
  intros Hwf Hf. destruct (nodes ns !! i) as [n|] eqn:Hi.
  - destruct (Hf n eq_refl). unfold set_nodes. rewrite (insert_alter _ _ n) by done.
    by apply (wf_update_node ns i n (f n)).
  - unfold set_nodes. rewrite alter_id by (intros; congruence). by destruct ns.
Qed.

Lemma tag_fresh ns i : wf ns -> next_inode ns <= i -> nodes ns !! i = None.
Proof.
  intros Hwf Hi. destruct (nodes ns !! i) as [n|] eqn:E; [|done].
  apply (wf_nodes ns Hwf) in E as (_ & ? & _). lia.
Qed.

(** The lookups a node has seen stay in range. *)
Lemma count_range n : 0 <= n <= u64_max -> 0 <= saturating_add u64_max n 1 <= u64_max.
Proof. unfold saturating_add. lia. Qed.

(** ** A new host or shadow node *)

Definition fresh_node (ns : Namespace) (k : NodeKind) (m : Metadata) : Node :=
  mkNode (next_inode ns) k (md_mode m) (md_uid m) (md_gid m) 0
    (Some (attr_from_metadata (next_inode ns) m)).

Definition add_keyed (ns : Namespace) (k : NodeKind) (m : Metadata) : Namespace :=
  let ns' := set_nodes (fun ms => <[next_inode ns := fresh_node ns k m]> ms)
               (set_next_inode (next_inode ns + 1) ns) in
  match tag_of k with
  | THost key => set_host_inodes (fun h => <[key := next_inode ns]> h) ns'
  | TShadow key => set_shadow_inodes (fun h => <[key := next_inode ns]> h) ns'
  | TStatic => ns'
  end.

Lemma tag_add_keyed ns k m j :
  wf ns -> tag (add_keyed ns k m) j = if decide (j = next_inode ns) then Some (tag_of k) else tag ns j.
Proof.
  intros Hwf. unfold tag, add_keyed. destruct (tag_of k) eqn:Ek; cbn; case_decide as E; subst;
    [rewrite lookup_insert_eq|by rewrite lookup_insert_ne by congruence
    |rewrite lookup_insert_eq|by rewrite lookup_insert_ne by congruence
    |rewrite lookup_insert_eq|by rewrite lookup_insert_ne by congruence]; cbn; by rewrite Ek.
Qed.

Lemma add_keyed_wf ns k m :
  wf ns -> next_inode ns < u64_max ->
  (forall mt, kind_mount k = Some mt -> (mt < List.length (ns_mounts ns))%nat) ->
  match tag_of k with
  | THost key => host_inodes ns !! key = None
  | TShadow key => shadow_inodes ns !! key = None
  | TStatic => False
  end ->
  wf (add_keyed ns k m).
Proof.
  intros Hwf Hlt Hm Hnew. pose proof (tag_add_keyed ns k m) as Et.
  destruct (wf_next ns Hwf) as [Hx1 Hx2].
  assert (tag ns (next_inode ns) = None) as Hfresh
    by (unfold tag; by rewrite (tag_fresh ns) by (done || lia)).
  split.
  - rewrite Et by done. case_decide; [lia|]. apply (wf_root ns Hwf).
  - assert (map_Forall (node_ok (add_keyed ns k m)) (<[next_inode ns := fresh_node ns k m]> (nodes ns))) as Hn.
    { apply map_Forall_insert_2.
      - split_and!; try done; unfold add_keyed; destruct (tag_of k); cbn; try lia; auto.
      - eapply map_Forall_impl; [apply (wf_nodes ns Hwf)|]. intros i n (? & ? & ? & ?).
        split_and!; try done; unfold add_keyed; destruct (tag_of k); cbn; try lia; auto. }
    unfold add_keyed in *. by destruct (tag_of k).
  - intros key i. rewrite Et by done. unfold add_keyed. destruct (tag_of k) as [|hk|sk] eqn:Ek; [done| |]; cbn.
    + destruct (decide (key = hk)) as [->|Hne].
      * rewrite lookup_insert_eq. case_decide; split; try congruence.
        intros Ht%(wf_host ns Hwf). congruence.
      * rewrite lookup_insert_ne by congruence. rewrite (wf_host ns Hwf).
        case_decide; subst; [|done]. rewrite Hfresh. split; congruence.
    + rewrite (wf_host ns Hwf). case_decide; subst; [|done]. rewrite Hfresh. split; congruence.
  - intros key i. rewrite Et by done. unfold add_keyed. destruct (tag_of k) as [|hk|sk] eqn:Ek; [done| |]; cbn.
    + rewrite (wf_shadow ns Hwf). case_decide; subst; [|done]. rewrite Hfresh. split; congruence.
    + destruct (decide (key = sk)) as [->|Hne].
      * rewrite lookup_insert_eq. case_decide; split; try congruence.
        intros Ht%(wf_shadow ns Hwf). congruence.
      * rewrite lookup_insert_ne by congruence. rewrite (wf_shadow ns Hwf).
        case_decide; subst; [|done]. rewrite Hfresh. split; congruence.
  - assert (children (add_keyed ns k m) = children ns) as ->
      by (unfold add_keyed; by destruct (tag_of k)).
    assert (forall j, tag ns j = Some TStatic -> tag (add_keyed ns k m) j = Some TStatic) as Hk.
    { intros j Hj. rewrite Et by done. case_decide; subst; [congruence|done]. }
    eapply map_Forall_impl; [apply (wf_tree ns Hwf)|]. intros p cs [Hp Hc].
    split; [by apply Hk|]. eapply map_Forall_impl; [exact Hc|]. auto.
  - unfold add_keyed. destruct (tag_of k); cbn; lia.
Qed.

(** [ns'] has the nodes of [ns] with the same tags and lookup counts (and
    perhaps one more), the same tree and the same mounts. *)
Record extends (ns ns' : Namespace) : Prop := {
  ext_nodes i n : nodes ns !! i = Some n ->
    exists n', nodes ns' !! i = Some n' /\ lookup_count n' = lookup_count n /\
               tag_of (n_kind n') = tag_of (n_kind n);
  ext_mounts : ns_mounts ns' = ns_mounts ns;
  ext_children : children ns' = children ns;
  ext_next : next_inode ns <= next_inode ns' <= next_inode ns + 1
}.

Lemma extends_alter ns i f :
  (forall n, nodes ns !! i = Some n ->
     lookup_count (f n) = lookup_count n /\ tag_of (n_kind (f n)) = tag_of (n_kind n)) ->
  extends ns (set_nodes (alter f i) ns).
Proof.
  intros Hf. split; cbn; try done; [|lia]. intros j n Hj. destruct (decide (i = j)) as [<-|].
  - rewrite lookup_alter_eq, Hj. cbn. destruct (Hf n Hj). eauto.
  - rewrite lookup_alter_ne by done. eauto.
Qed.

Lemma extends_add_keyed ns k m : wf ns -> extends ns (add_keyed ns k m).
Proof.
  intros Hwf. split; unfold add_keyed; try (destruct (tag_of k); cbn; done || lia).
  intros i n Hi. exists n. split; [|done].
  assert (i <> next_inode ns) by (intros ->; by rewrite (tag_fresh ns) in Hi by (done || lia)).
  destruct (tag_of k); cbn; by rewrite lookup_insert_ne.
Qed.

(** What the two lookups of a node by key promise. *)
Definition finds_node (t : node_tag) (ns : Namespace) (r : Z * Namespace) : Prop :=
  wf r.2 /\ extends ns r.2 /\ tag r.2 r.1 = Some t.

Lemma get_or_create_host_holds mt rel m ns :
  wf ns -> next_inode ns < u64_max -> (mt < List.length (ns_mounts ns))%nat ->
  holds (get_or_create_host_node mt rel m ns)
    (finds_node (THost (mt, HostIdentity_from_metadata m)) ns).
Proof.
  intros Hwf Hlt Hm. unfold get_or_create_host_node.
  set (key := (mt, HostIdentity_from_metadata m)).
  destruct (host_inodes ns !! key) as [i|] eqn:Ek; cbn [holds].
  - pose proof Ek as Et. apply (wf_host ns Hwf) in Et.
    apply tag_lookup in Et as (n & Hn & Ht).
    destruct (n_kind n) as [| | |mt' rel' id'|] eqn:Ekind; try done. injection Ht as -> ->.
    match goal with |- finds_node _ _ (_, set_nodes (alter ?f _) _) => set (upd := f) end.
    assert (n_kind (upd n) = Host mt rel (HostIdentity_from_metadata m)) as Eu
      by (subst upd; cbn; rewrite Ekind; by rewrite decide_True).
    assert (forall n', nodes ns !! i = Some n' -> n' = n) as Hu by (intros; congruence).
    split_and!; cbn [fst snd].
    + apply wf_alter_node; [done|]. intros n' ->%Hu. rewrite Eu, Ekind. split; [|done].
      destruct (wf_nodes ns Hwf i n Hn) as (? & ? & ? & _).
      unfold node_ok. rewrite Eu. change (n_inode (upd n)) with (n_inode n).
      change (lookup_count (upd n)) with (lookup_count n).
      split_and!; try done; try lia. by intros ? [= <-].
    + apply extends_alter. intros n' ->%Hu. by rewrite Eu, Ekind.
    + apply tag_lookup. cbn. rewrite lookup_alter_eq, Hn. cbn. eexists. split; [done|]. by rewrite Eu.
  - unfold allocate_inode. rewrite (proj2 (Z.ltb_lt _ _)) by done. cbn [exec_bind holds].
    change (finds_node (THost key) ns
      (next_inode ns, add_keyed ns (Host mt rel (HostIdentity_from_metadata m)) m)).
    split_and!; cbn [fst snd].
    + apply add_keyed_wf; try done. by intros ? [= <-].
    + by apply extends_add_keyed.
    + rewrite tag_add_keyed by done. by rewrite decide_True.
Qed.

Lemma get_or_create_shadow_holds mt rel m ns :
  wf ns -> next_inode ns < u64_max -> (mt < List.length (ns_mounts ns))%nat ->
  holds (get_or_create_shadow_node mt rel m ns) (finds_node (TShadow (shadow_key mt rel)) ns).
Proof.
  intros Hwf Hlt Hm. unfold get_or_create_shadow_node. set (key := shadow_key mt rel).
  destruct (shadow_inodes ns !! key) as [i|] eqn:Ek; cbn [holds].
  - pose proof Ek as Et. apply (wf_shadow ns Hwf) in Et.
    apply tag_lookup in Et as (n & Hn & Ht). split_and!; cbn [fst snd].
    + apply wf_alter_node; [done|]. intros n' Hn'. split; [|done].
      by destruct (wf_nodes ns Hwf i n' Hn') as (? & ? & ? & ?).
    + by apply extends_alter.
    + apply tag_lookup. cbn. rewrite lookup_alter_eq, Hn. cbn. eexists. by split.
  - unfold allocate_inode. rewrite (proj2 (Z.ltb_lt _ _)) by done. cbn [exec_bind holds].
    change (finds_node (TShadow key) ns (next_inode ns, add_keyed ns (Shadow mt rel) m)).
    split_and!; cbn [fst snd].
    + apply add_keyed_wf; try done. by intros ? [= <-].
    + by apply extends_add_keyed.
    + rewrite tag_add_keyed by done. by rewrite decide_True.
Qed.

(** ** Forgetting *)

(** [ns'] is [ns] without some nodes that the guest no longer holds. *)
Record sheds (ns ns' : Namespace) : Prop := {
  shed_kept i n : nodes ns !! i = Some n ->
    nodes ns' !! i = Some n \/
    nodes ns' !! i = None /\ lookup_count n = 0 /\ is_static (n_kind n) = false;
  shed_only i n : nodes ns' !! i = Some n -> nodes ns !! i = Some n;
  shed_mounts : ns_mounts ns' = ns_mounts ns;
  shed_next : next_inode ns' = next_inode ns
}.

Lemma tag_static k : tag_of k = TStatic <-> is_static k = true.
Proof. by destruct k. Qed.

Lemma sheds_refl ns : sheds ns ns.
Proof. split; auto. Qed.

Lemma sheds_trans ns1 ns2 ns3 : sheds ns1 ns2 -> sheds ns2 ns3 -> sheds ns1 ns3.
Proof.
  intros H1 H2. split.
  - intros i n Hi. destruct (shed_kept _ _ H1 i n Hi) as [Hk|(Hk & ? & ?)].
    + by apply (shed_kept _ _ H2).
    + right. split; [|done]. destruct (nodes ns3 !! i) as [n'|] eqn:E; [|done].
      apply (shed_only _ _ H2) in E. congruence.
  - intros i n Hi. by apply (shed_only _ _ H1), (shed_only _ _ H2).
  - by rewrite (shed_mounts _ _ H2), (shed_mounts _ _ H1).
  - by rewrite (shed_next _ _ H2), (shed_next _ _ H1).
Qed.

Lemma wf_dynamic_no_children ns i t :
  wf ns -> tag ns i = Some t -> t <> TStatic -> children ns !! i = None.
Proof.
  intros Hwf Ht Hne. destruct (children ns !! i) as [cs|] eqn:E; [|done].
  apply (wf_tree ns Hwf) in E as [E _]. congruence.
Qed.

(** Removing a host or shadow node with its key. *)
Definition remove_keyed (ns : Namespace) (i : Z) (t : node_tag) : Namespace :=
  let ns' := set_children (delete i) (set_nodes (delete i) ns) in
  match t with
  | THost k => set_host_inodes (delete k) ns'
  | TShadow k => set_shadow_inodes (delete k) ns'
  | TStatic => ns'
  end.

Lemma tag_remove_keyed ns i t j :
  tag (remove_keyed ns i t) j = if decide (j = i) then None else tag ns j.
Proof.
  unfold tag, remove_keyed. destruct t; cbn; case_decide; subst;
    by rewrite ?lookup_delete_eq, ?lookup_delete_ne by congruence.
Qed.

Lemma remove_keyed_wf ns i t :
  wf ns -> tag ns i = Some t -> t <> TStatic -> wf (remove_keyed ns i t).
Proof.
  intros Hwf Ht Hne. pose proof (tag_remove_keyed ns i t) as Et.
  pose proof (wf_dynamic_no_children ns i t Hwf Ht Hne) as Hc.
  assert (forall j, tag ns j = Some TStatic -> tag (remove_keyed ns i t) j = Some TStatic) as Hk.
  { intros j Hj. rewrite Et. case_decide; subst; [congruence|done]. }
  split.
  - apply Hk, (wf_root ns Hwf).
  - assert (map_Forall (node_ok (remove_keyed ns i t)) (delete i (nodes ns))) as Hn.
    { apply map_Forall_delete. eapply map_Forall_impl; [apply (wf_nodes ns Hwf)|].
      intros j n. unfold node_ok, remove_keyed. by destruct t. }
    unfold remove_keyed in *. by destruct t.
  - intros k j. rewrite Et. unfold remove_keyed. destruct t as [|hk|sk]; [done| |]; cbn.
    + destruct (decide (k = hk)) as [->|].
      * rewrite lookup_delete_eq. apply (wf_host ns Hwf) in Ht. case_decide; [done|].
        split; [done|]. intros Hj%(wf_host ns Hwf). congruence.
      * rewrite lookup_delete_ne by congruence. rewrite (wf_host ns Hwf).
        case_decide; subst; [|done]. split; congruence.
    + rewrite (wf_host ns Hwf). case_decide; subst; [|done]. split; congruence.
  - intros k j. rewrite Et. unfold remove_keyed. destruct t as [|hk|sk]; [done| |]; cbn.
    + rewrite (wf_shadow ns Hwf). case_decide; subst; [|done]. split; congruence.
    + destruct (decide (k = sk)) as [->|].
      * rewrite lookup_delete_eq. apply (wf_shadow ns Hwf) in Ht. case_decide; [done|].
        split; [done|]. intros Hj%(wf_shadow ns Hwf). congruence.
      * rewrite lookup_delete_ne by congruence. rewrite (wf_shadow ns Hwf).
        case_decide; subst; [|done]. split; congruence.
  - assert (children (remove_keyed ns i t) = children ns) as ->
      by (unfold remove_keyed; destruct t; cbn; by apply delete_id).
    eapply map_Forall_impl; [apply (wf_tree ns Hwf)|]. intros p cs [Hp Hcs].
    split; [by apply Hk|]. eapply map_Forall_impl; [exact Hcs|]. auto.
  - unfold remove_keyed. destruct t; cbn; apply (wf_next ns Hwf).
Qed.

Lemma remove_keyed_sheds ns i n t :
  nodes ns !! i = Some n -> tag_of (n_kind n) = t -> t <> TStatic -> lookup_count n = 0 ->
  sheds ns (remove_keyed ns i t).
Proof.
  intros Hi Ht Hne H0.
  assert (nodes (remove_keyed ns i t) = delete i (nodes ns)) as En
    by (unfold remove_keyed; by destruct t).
  split; rewrite ?En; try (unfold remove_keyed; by destruct t).
  - intros j m Hj. destruct (decide (j = i)) as [->|].
    + right. rewrite lookup_delete_eq. simplify_eq. split_and!; try done.
      apply not_true_iff_false. by rewrite <- tag_static.
    + left. by rewrite lookup_delete_ne.
  - intros j m [_ Hj]%lookup_delete_Some. done.
Qed.

Lemma prune_cold_cases i ns :
  prune_cold_inode i ns = ns \/
  exists n t, nodes ns !! i = Some n /\ tag_of (n_kind n) = t /\ t <> TStatic /\
    lookup_count n = 0 /\ prune_cold_inode i ns = remove_keyed ns i t.
Proof.
  unfold prune_cold_inode. destruct (nodes ns !! i) as [n|] eqn:E; [|by left].
  case_test; [by left|]. case_test; [by left|].
  destruct (n_kind n) eqn:Ek; try (by left); right; exists n; rewrite Ek; eexists; split_and!; done.
Qed.

Lemma prune_cold_wf i ns : wf ns -> wf (prune_cold_inode i ns) /\ sheds ns (prune_cold_inode i ns).
Proof.
  intros Hwf. destruct (prune_cold_cases i ns) as [->|(n & t & Hn & Ht & Hne & H0 & ->)].
  - split; [done|apply sheds_refl].
  - split; [|by eapply remove_keyed_sheds]. apply remove_keyed_wf; try done.
    apply tag_lookup. eauto.
Qed.

Lemma prune_all_wf ns :
  wf ns -> wf (prune_cold_host_shadow_nodes ns) /\ sheds ns (prune_cold_host_shadow_nodes ns).
Proof.
  unfold prune_cold_host_shadow_nodes. generalize (map fst (filter (fun p => is_cold ns p.1 p.2 = true)
    (map_to_list (nodes ns)))). intros l. revert ns.
  induction l as [|i l IH]; intros ns Hwf; cbn [foldl]; [split; [done|apply sheds_refl]|].
  destruct (prune_cold_wf i ns Hwf) as [Hw Hs]. destruct (IH _ Hw) as [Hw' Hs'].
  split; [done|by eapply sheds_trans].
Qed.

Lemma forget_wf i c ns : 0 <= c -> wf ns -> wf (forget_inode i c ns).
Proof.
  intros Hc Hwf. unfold forget_inode. case_test; [done|]. apply prune_cold_wf, wf_alter_node; [done|].
  intros n Hn. split; [|done]. destruct (wf_nodes ns Hwf i n Hn) as (? & ? & ? & ?).
  split_and!; try done; cbn; unfold saturating_sub; lia.
Qed.

(** ** Host calls of the queries *)

(** The mount a node refers to exists. *)
Definition mount_valid (ns : Namespace) (n : Node) : Prop :=
  forall m, kind_mount (n_kind n) = Some m -> (m < List.length (ns_mounts ns))%nat.

Section Queries.
Context {W : Type} `{HostOs W}.

Lemma shadow_metadata_calls ns mt rel : calls harmless (shadow_metadata ns mt rel).
Proof.
  apply calls_lift_bind. intros p _. apply calls_lift_bind. intros fd _. apply stat_beneath_calls.
Qed.

Lemma host_metadata_calls ns n : calls harmless (host_metadata_for ns n).
Proof.
  unfold host_metadata_for. destruct (n_kind n).
  - apply calls_ret.
  - apply calls_lift_bind. intros m _. apply calls_bind; [apply stat_beneath_calls|].
    intros md. apply calls_ret.
  - apply calls_lift_bind. intros m _. apply calls_bind; [apply fstat_calls|].
    intros md. apply calls_ret.
  - apply calls_lift_bind. intros m _. apply calls_bind; [apply stat_beneath_calls|].
    intros md. apply calls_lift_bind. intros _ _. apply calls_ret.
  - apply calls_bind; [apply shadow_metadata_calls|]. intros md. apply calls_ret.
Qed.

Lemma attr_for_calls ns n : calls harmless (attr_for ns n).
Proof.
  apply calls_bind; [apply calls_attempt, host_metadata_calls|].
  intros [[md|]|e]; [apply calls_ret| |].
  - apply calls_bind; [intros s; by eapply runs_here|]. intros now. apply calls_ret.
  - case_match; [destruct (cached_attr n); [apply calls_ret|]|]; apply calls_throw.
Qed.

Lemma entry_for_calls ns n : calls harmless (entry_for ns n).
Proof. apply calls_bind; [apply attr_for_calls|]. intros a. apply calls_ret. Qed.

Lemma mount_index_bind_calls {S} `{Traced S} {B} P ns mt (k : MountRuntime -> M S B) :
  (mt < List.length (ns_mounts ns))%nat -> (forall m, calls P (k m)) ->
  calls P (bind (mount_index ns mt) k).
Proof.
  intros [m Hm]%lookup_lt_is_Some_2 Hk s. apply runs_bind.
  eapply runs_here; [unfold mount_index; by rewrite Hm|]. apply Hk.
Qed.

Lemma node_is_dir_calls ns n : mount_valid ns n -> calls harmless (node_is_dir ns n).
Proof.
  intros Hv. unfold node_is_dir, mount_valid in *. destruct (n_kind n) eqn:E; try apply calls_ret.
  - apply mount_index_bind_calls; [by apply Hv|]. intros m. apply calls_ret.
  - apply calls_bind; [apply host_metadata_calls|]. intros md. apply calls_ret.
  - apply calls_bind; [apply host_metadata_calls|]. intros md. apply calls_ret.
Qed.

Lemma dirent_type_calls ns n : mount_valid ns n -> calls harmless (dirent_type_for ns n).
Proof.
  intros Hv. unfold dirent_type_for, mount_valid in *. destruct (n_kind n) eqn:E; try apply calls_ret.
  - apply mount_index_bind_calls; [by apply Hv|]. intros m. apply calls_ret.
  - apply calls_bind; [apply host_metadata_calls|]. intros md.
    apply calls_lift_bind. intros m _. apply calls_ret.
  - apply calls_bind; [apply host_metadata_calls|]. intros md.
    apply calls_lift_bind. intros m _. apply calls_ret.
Qed.

Lemma host_location_ret ns n :
  mount_valid ns n ->
  exists l, host_location ns n = Ret l /\
    forall mt rel, l = Some (mt, rel) -> (mt < List.length (ns_mounts ns))%nat.
Proof.
  intros Hv. unfold host_location, mount_valid in *. destruct (n_kind n) as [|mt rel|mt|mt rel id|mt rel];
    cbn in Hv; try (eexists; split; [done|]; by intros ? ? [= <- <-]; apply Hv).
  destruct (lookup_lt_is_Some_2 _ _ (Hv mt eq_refl)) as [m ->]. eexists. split; [done|].
  intros ? ?. case_decide; [|done]. intros [= <- <-]. by apply Hv.
Qed.

Lemma file_or_dir_location_ret ns n :
  mount_valid ns n ->
  exists l, file_or_dir_location ns n = Ret l /\
    forall mt rel, l = Some (mt, rel) -> (mt < List.length (ns_mounts ns))%nat.
Proof.
  intros Hv. unfold file_or_dir_location, host_file_location.
  destruct (n_kind n) as [|mt rel|mt|mt rel id|mt rel] eqn:E; try by apply host_location_ret.
  - eexists. split; [done|]. intros ? ? [= <- <-]. apply Hv. by rewrite E.
  - eexists. split; [done|]. intros ? ? [= <- <-]. apply Hv. by rewrite E.
Qed.

End Queries.

(** ** Building *)

Lemma wf_set_paths f ns : wf ns -> wf (set_paths f ns).
Proof. by intros []; split. Qed.

Lemma wf_add_mount_runtime m ns : wf ns -> wf (set_mounts (fun ms => ms ++ [m])%list ns).
Proof.
  intros [Hr Hn Hh Hs Ht Hx]. split; try done. cbn.
  eapply map_Forall_impl; [exact Hn|]. intros i n (? & ? & ? & Hm).
  unfold node_ok. cbn. split_and!; try done; try lia.
  intros mt Hk. rewrite length_app. specialize (Hm mt Hk). lia.
Qed.

Lemma wf_link_child p name c ns ns' :
  wf ns -> tag ns c = Some TStatic -> link_child p name c ns = Ok ns' ->
  wf ns' /\ nodes ns' = nodes ns /\ next_inode ns' = next_inode ns /\ ns_mounts ns' = ns_mounts ns.
Proof.
  intros [Hr Hn Hh Hs Ht Hx] Hc. unfold link_child.
  destruct (children ns !! p) as [cs|] eqn:Ep; [|done]. destruct (cs !! name); [done|].
  intros [= <-]. split; [|done]. split; try done. cbn.
  apply map_Forall_insert_2; [|done]. destruct (Ht p cs Ep) as [Hp Hcs].
  split; [done|]. by apply map_Forall_insert_2.
Qed.

(** A fresh static node. *)
Definition add_static (ns : Namespace) (k : NodeKind) (mode : Z) : Namespace :=
  insert_node (mkNode (next_inode ns) k mode (synthetic_uid ns) (synthetic_gid ns) 0 None)
    (set_next_inode (next_inode ns + 1) ns).

Lemma add_static_wf ns k mode :
  wf ns -> next_inode ns < u64_max -> is_static k = true ->
  (forall mt, kind_mount k = Some mt -> (mt < List.length (ns_mounts ns))%nat) ->
  wf (add_static ns k mode) /\ tag (add_static ns k mode) (next_inode ns) = Some TStatic /\
  next_inode (add_static ns k mode) = next_inode ns + 1 /\
  ns_mounts (add_static ns k mode) = ns_mounts ns.
Proof.
  intros Hwf Hlt Hk Hm. destruct (wf_next ns Hwf) as [Hx1 Hx2].
  assert (children ns !! next_inode ns = None) as Hc.
  { destruct (children ns !! next_inode ns) as [cs|] eqn:E; [|done].
    apply (wf_tree ns Hwf) in E as [E _]. unfold tag in E. by rewrite tag_fresh in E by (done || lia). }
  assert (forall j, tag (add_static ns k mode) j =
    if decide (j = next_inode ns) then Some TStatic else tag ns j) as Et.
  { intros j. unfold tag, add_static, insert_node. cbn [n_kind n_inode]. rewrite Hk. cbn.
    case_decide; subst; [rewrite lookup_insert_eq; cbn; by rewrite (proj2 (tag_static k))|].
    by rewrite lookup_insert_ne. }
  assert (forall j t, tag ns j = Some t -> tag (add_static ns k mode) j = Some t) as Hkeep.
  { intros j t Hj. rewrite Et. case_decide; subst; [|done].
    unfold tag in Hj. by rewrite tag_fresh in Hj by (done || lia). }
  assert (forall j t, t <> TStatic -> tag (add_static ns k mode) j = Some t -> tag ns j = Some t) as Hback.
  { intros j t Ht. rewrite Et. case_decide; [congruence|done]. }
  assert (children (add_static ns k mode) = <[next_inode ns := ∅]> (children ns) /\
          nodes (add_static ns k mode) = <[next_inode ns := mkNode (next_inode ns) k mode
            (synthetic_uid ns) (synthetic_gid ns) 0 None]> (nodes ns) /\
          host_inodes (add_static ns k mode) = host_inodes ns /\
          shadow_inodes (add_static ns k mode) = shadow_inodes ns /\
          next_inode (add_static ns k mode) = next_inode ns + 1 /\
          ns_mounts (add_static ns k mode) = ns_mounts ns) as (Ec & En & Eh & Es & Ex & Em).
  { unfold add_static, insert_node. cbn [n_kind n_inode]. rewrite Hk. cbn. by rewrite Hc. }
  split_and!; [|rewrite Et; by rewrite decide_True|done..]. split.
  - apply Hkeep, (wf_root ns Hwf).
  - rewrite En. unfold node_ok. rewrite Ex, Em. apply map_Forall_insert_2.
    + cbn. unfold u64_max in *. split_and!; try done; lia.
    + eapply map_Forall_impl; [apply (wf_nodes ns Hwf)|]. intros j n (? & ? & ? & ?).
      split_and!; try done; lia.
  - intros key j. rewrite Eh, (wf_host ns Hwf). split; [apply Hkeep|by apply Hback].
  - intros key j. rewrite Es, (wf_shadow ns Hwf). split; [apply Hkeep|by apply Hback].
  - rewrite Ec. apply map_Forall_insert_2.
    + rewrite Et, decide_True by done. split; [done|]. apply map_Forall_empty.
    + eapply map_Forall_impl; [apply (wf_tree ns Hwf)|]. intros p cs [Hp Hcs].
      split; [by apply Hkeep|]. eapply map_Forall_impl; [exact Hcs|]. intros name c. apply Hkeep.
  - rewrite Ex. lia.
Qed.

Section Building.
Context {W : Type} `{HostOs W}.

(** A step of the construction that allocates at most [k] inodes. *)
Definition built (k : Z) (ns : Namespace) (r : io_result (Z * Namespace)) (os : Os W) : Prop :=
  match r with
  | Ok (i, ns') => wf ns' /\ tag ns' i = Some TStatic /\
      next_inode ns' <= next_inode ns + k /\ ns_mounts ns' = ns_mounts ns
  | Err _ => True
  end.

Lemma overlay_kind_ok ns p name :
  wf ns ->
  let k := child_dir_kind (n_kind <$> nodes ns !! p) name in
  is_static k = true /\
  forall mt, kind_mount k = Some mt -> (mt < List.length (ns_mounts ns))%nat.
Proof.
  intros Hwf. destruct (nodes ns !! p) as [n|] eqn:E; [|by split].
  apply (wf_nodes ns Hwf) in E as (_ & _ & _ & Hm). cbn. destruct (n_kind n); by split.
Qed.

Lemma ensure_synthetic_dir_runs p name path ns os :
  wf ns -> next_inode ns < u64_max ->
  runs confined (ensure_synthetic_dir p name path ns) os (built 1 ns).
Proof.
  intros Hwf Hlt. unfold ensure_synthetic_dir.
  destruct (children ns !! p ≫= (fun c => c !! name)) as [i|] eqn:Ec.
  - destruct (children ns !! p) as [cs|] eqn:Ep; [|done]. cbn in Ec.
    destruct (wf_tree ns Hwf p cs Ep) as [_ Hcs]. specialize (Hcs name i Ec).
    pose proof Hcs as Ht. apply tag_lookup in Ht as (n & Hn & _). rewrite Hn.
    apply runs_bind. eapply runs_mono.
    { eapply runs_weaken; [|apply node_is_dir_calls; by apply (wf_nodes ns Hwf) in Hn as (_ & _ & _ & ?)].
      by intros c []. }
    intros [d|e] os' _; [|done]. destruct d; cbn [negb]; eapply runs_here; try done.
    cbn. split_and!; try done. lia.
  - apply runs_bind. eapply runs_here.
    { unfold of_exec, allocate_inode. by rewrite (proj2 (Z.ltb_lt _ _)). }
    cbv beta iota zeta. set (k := child_dir_kind (n_kind <$> nodes ns !! p) name).
    destruct (overlay_kind_ok ns p name Hwf) as [Hk Hm].
    destruct (add_static_wf ns k (Z.lor S_IFDIR (synthetic_dir_mode ns)) Hwf Hlt Hk Hm)
      as (Hw & Ht & Hx & Hms).
    apply runs_bind. eapply runs_here; [done|].
    match goal with |- context [link_child p name ?c ?n] => change n with
      (add_static ns k (Z.lor S_IFDIR (synthetic_dir_mode ns))) end.
    destruct (link_child p name _ _) as [ns2|e] eqn:El; [|done].
    destruct (wf_link_child _ _ _ _ _ Hw Ht El) as (Hw2 & En & Ex & Em).
    eapply runs_here; [done|]. cbn. split_and!.
    + by apply wf_set_paths.
    + unfold tag. cbn. rewrite En. exact Ht.
    + lia.
    + by rewrite Em.
Qed.

Lemma ensure_dirs_runs names p path ns os :
  wf ns -> tag ns p = Some TStatic -> next_inode ns + len names <= u64_max ->
  runs confined (ensure_dirs p path names ns) os (built (len names) ns).
Proof.
  revert p path ns os. induction names as [|name names IH]; intros p path ns os Hwf Hp Hl; cbn [ensure_dirs].
  - eapply runs_here; [done|]. cbn. rewrite len_nil. split_and!; try done. lia.
  - rewrite len_cons in Hl. pose proof (len_nonneg names). apply runs_bind.
    eapply runs_mono; [apply ensure_synthetic_dir_runs; [done|lia]|].
    intros [[i ns1]|e] os1; [|done]. intros (Hw & Ht & Hx & Hm).
    eapply runs_mono; [apply IH; [done|done|lia]|].
    intros [[j ns2]|e] os2; [|done]. intros (Hw2 & Ht2 & Hx2 & Hm2). cbn.
    rewrite len_cons. split_and!; try done; [lia|congruence].
Qed.

(** The runtime mount of a mount of the manifest. *)
Definition mount_of (manifest : Manifest) (m : MountSpec) (rt : MountRuntime) : Prop :=
  mt_id rt = ms_id m /\ safe_name (mt_id rt) /\ root_path rt = ms_host_path m /\ mt_kind rt = ms_kind m /\
  mt_access rt = ms_access m /\ filter_suffixes rt = mount_filter_suffixes manifest m.

Definition path_cost (m : MountSpec) : Z := len (split_char "/" (ms_guest_path m)).

Lemma open_mount_root_calls path kind : calls confined (open_mount_root (W := W) path kind).
Proof.
  unfold open_mount_root. case_match; [apply calls_throw|]. apply calls_lift_bind. intros c _.
  apply calls_bind; [by apply (calls_sys confined (Open c _ 0))|intros fd].
  apply calls_bind; [eapply calls_weaken; [|apply fstat_calls]; by intros ? []|intros md].
  destruct kind, (is_dir md), (is_file md); apply calls_ret || apply calls_throw.
Qed.

Lemma filter_length_le {A} (P : A -> Prop) `{!forall x, Decision (P x)} (l : list A) :
  len (filter P l) <= len l.
Proof.
  induction l as [|x l IH]; [done|]. rewrite filter_cons. case_decide; rewrite ?len_cons; lia.
Qed.

(** The components of a guest path that was accepted. *)
Lemma guest_components m p :
  normalize_guest_path (ms_guest_path m) = Ok p -> p <> "/" ->
  exists names leaf, path_components p = Ok (names ++ [leaf])%list /\ len names + 1 <= path_cost m.
Proof.
  intros En Hr. unfold normalize_guest_path in En.
  destruct (starts_with "/" (ms_guest_path m)) eqn:Es; [|done]. cbn [negb] in En.
  destruct (path_components (ms_guest_path m)) as [cs|] eqn:Ec; [|done]. cbn [result_bind] in En.
  pose proof Ec as Hc. apply check_components_ok in Hc as [Hcs Hsafe]; [|apply split_char_parts].
  assert (p = guest_path_of cs) as -> by (destruct cs; by injection En as <-).
  rewrite path_components_of by done.
  destruct cs as [|leaf names _] using rev_ind; [done|]. exists names, leaf. split; [done|].
  unfold path_cost. pose proof (filter_length_le (fun s => s <> "") (split_char "/" (ms_guest_path m))) as Hl.
  rewrite <- Hcs, len_app in Hl. exact Hl.
Qed.

Lemma add_mount_runs manifest m ns os :
  wf ns -> next_inode ns + path_cost m <= u64_max ->
  (filters manifest <> [] -> shadow_root manifest <> None) ->
  runs confined (add_mount manifest m ns) os (fun r _ =>
    match r with
    | Ok ns' => wf ns' /\ next_inode ns' <= next_inode ns + path_cost m /\
        exists rt, ns_mounts ns' = (ns_mounts ns ++ [rt])%list /\ mount_of manifest m rt
    | Err _ => True
    end).
Proof.
  intros Hwf Hcost Hsh. unfold add_mount.
  apply runs_bind. eapply runs_here; [done|]. destruct (MountSpec_validate m) as [[]|] eqn:Ev; [|done].
  apply MountSpec_validate_iff in Ev as [Hid _].
  apply runs_bind. eapply runs_here; [done|].
  destruct (normalize_guest_path (ms_guest_path m)) as [p|] eqn:En; [|done].
  case_match; [by eapply runs_here|]. case_bool_decide as Hroot; [by eapply runs_here|].
  case_match; [by eapply runs_here|].
  destruct (guest_components m p En Hroot) as (names & leaf & Ecs & Hlen).
  apply runs_bind. eapply (runs_mono _ _ _ (fun _ _ => True)).
  { destruct (mount_filter_suffixes manifest m) eqn:Ef; [by eapply runs_here|].
    destruct (shadow_root manifest) eqn:Esr; [by eapply runs_here|].
    exfalso. apply Hsh; [|done]. intros Hf. unfold mount_filter_suffixes in Ef. by rewrite Hf in Ef. }
  intros [sp|] os1 _; [|done]. apply runs_bind. eapply (runs_mono _ _ _ (fun _ _ => True)).
  { destruct sp; [|by eapply runs_here].
    apply (calls_bind confined (open_mount_root s Dir)); [apply open_mount_root_calls|].
    intros fd. apply calls_ret. }
  intros [sfd|] os2 _; [|done]. apply runs_bind. eapply runs_mono; [apply open_mount_root_calls|].
  intros [rfd|] os3 _; [|done]. set (rt := mkMount _ _ rfd _ _ _ _ _).
  apply runs_bind. eapply runs_here; [done|]. rewrite Ecs. cbv beta iota.
  rewrite removelast_last. apply runs_bind.
  set (ns1 := set_mounts _ ns). assert (wf ns1) as Hw1 by (by apply wf_add_mount_runtime).
  eapply runs_mono; [apply ensure_dirs_runs; [done|apply (wf_root ns1 Hw1)|cbn; lia]|].
  intros [[par ns2]|e] os4; [|done]. intros (Hw2 & Hp2 & Hx2 & Hm2). cbv beta iota.
  rewrite last_snoc. cbn in Hx2, Hm2. apply runs_bind. eapply runs_here.
  { unfold of_exec, allocate_inode. by rewrite (proj2 (Z.ltb_lt _ _)) by lia. }
  cbv beta iota zeta. apply runs_bind. eapply runs_here; [done|].
  match goal with |- context [link_child par leaf ?c ?n] => change n with
    (add_static ns2 (MountRoot (List.length (ns_mounts ns)))
      (match ms_kind m with Dir => Z.lor S_IFDIR 0x1ed | File => Z.lor S_IFREG 0x124 end)) end.
  edestruct (add_static_wf ns2 (MountRoot (List.length (ns_mounts ns)))) as (Hw3 & Ht3 & Hx3 & Hm3);
    [done|lia|done|intros ? [= <-]; rewrite Hm2, length_app; cbn; lia|].
  destruct (link_child par leaf _ _) as [ns4|e] eqn:El; [|done].
  destruct (wf_link_child _ _ _ _ _ Hw3 Ht3 El) as (Hw4 & _ & Hx4 & Hm4).
  eapply runs_here; [done|]. split_and!; [by apply wf_set_paths|cbn; lia|].
  exists rt. cbn. split; [congruence|]. by split_and!.
Qed.

Fixpoint path_costs (ms : list MountSpec) : Z :=
  match ms with [] => 0 | m :: rest => path_cost m + path_costs rest end.

Lemma path_costs_nonneg ms : 0 <= path_costs ms.
Proof. induction ms; cbn; [done|]. unfold path_cost. pose proof (len_nonneg (split_char "/" (ms_guest_path a))). lia. Qed.

Lemma add_mounts_runs manifest ms ns os :
  wf ns -> next_inode ns + path_costs ms <= u64_max ->
  (filters manifest <> [] -> shadow_root manifest <> None) ->
  runs confined (add_mounts manifest ms ns) os (fun r _ =>
    match r with
    | Ok ns' => wf ns' /\ exists rts, ns_mounts ns' = (ns_mounts ns ++ rts)%list /\
        Forall2 (mount_of manifest) ms rts
    | Err _ => True
    end).
Proof.
  revert ns os. induction ms as [|m ms IH]; intros ns os Hwf Hc Hsh; cbn [add_mounts].
  - eapply runs_here; [done|]. split; [done|]. exists []. by rewrite (right_id_L [] (++)).
  - cbn [path_costs] in Hc. pose proof (path_costs_nonneg ms). apply runs_bind.
    eapply runs_mono; [apply add_mount_runs; [done|lia|done]|].
    intros [ns1|e] os1; [|done]. intros (Hw & Hx & rt & Em & Hrt).
    eapply runs_mono; [apply IH; [done|lia|done]|].
    intros [ns2|e] os2; [|done]. intros (Hw2 & rts & Em2 & Hrts). split; [done|].
    exists (rt :: rts). rewrite Em2, Em, <- (assoc_L (++)). split; [done|by constructor].
Qed.

Lemma insert_root_wf uid gid mode :
  wf (insert_root (mkNamespace ∅ ∅ ∅ [] ∅ ∅ (ROOT_ID + 1) uid gid mode)).
Proof.
  unfold insert_root, ensure_children. cbn.
  split; cbn.
  - unfold tag. cbn. by rewrite lookup_insert_eq.
  - apply map_Forall_insert_2; [|apply map_Forall_empty]. by unfold node_ok.
  - intros k i. rewrite lookup_empty. unfold tag. cbn. split; [done|].
    destruct (decide (i = ROOT_ID)) as [->|]; [by rewrite lookup_insert_eq|].
    by rewrite lookup_insert_ne, lookup_empty.
  - intros k i. rewrite lookup_empty. unfold tag. cbn. split; [done|].
    destruct (decide (i = ROOT_ID)) as [->|]; [by rewrite lookup_insert_eq|].
    by rewrite lookup_insert_ne, lookup_empty.
  - rewrite lookup_empty. apply map_Forall_insert_2; [|apply map_Forall_empty].
    split; [|apply map_Forall_empty]. unfold tag. cbn. by rewrite lookup_insert_eq.
  - unfold ROOT_ID, u64_max. lia.
Qed.

Lemma from_manifest_runs manifest os :
  ROOT_ID + 1 + path_costs (mounts manifest) <= u64_max ->
  runs confined (from_manifest manifest) os (fun r _ =>
    match r with
    | Ok ns => wf ns /\ Forall2 (mount_of manifest) (mounts manifest) (ns_mounts ns)
    | Err _ => True
    end).
Proof.
  intros Hc. unfold from_manifest. do 3 (case_match; [by eapply runs_here|]).
  apply runs_bind. eapply runs_here; [done|]. destruct (check_filters _ _); [|done].
  case_match eqn:Ef; [by eapply runs_here|]. apply runs_bind.
  eapply (runs_mono _ _ _ (fun _ _ => True)).
  { destruct (shadow_root manifest) as [path|]; [|by eapply runs_here].
    case_match; [by eapply runs_here|]. by apply (calls_sys confined (CreateDirAll path)). }
  intros [[]|e] os1 _; [|done]. apply runs_bind. eapply (runs_mono _ _ _ (fun _ _ => True)).
  { destruct (synthetic manifest); by eapply runs_here. }
  intros [mode|e] os2 _; [|done].
  eapply runs_mono; [apply add_mounts_runs; [apply insert_root_wf|done|]|].
  - intros Hf Hs. rewrite bool_decide_false, bool_decide_true in Ef by (done || by intros ?%len_zero).
    done.
  - intros [ns|e] os3; [|done]. intros (Hw & rts & -> & Hrts). by split.
Qed.

End Building.

(** ** Theorems *)

(** Building the namespace of a manifest never panics and makes
    confined calls only; when it succeeds, the namespace satisfies the invariant
    (every node under its own number, the key tables exactly the host and shadow
    nodes, a tree of static nodes) and has one runtime mount per mount of the
    manifest, in order, with its id, which is a safe name, its path, kind, access mode and filters. *)
Theorem from_manifest_builds {W} `{HostOs W} manifest (os : Os W) :
  ROOT_ID + 1 + path_costs (mounts manifest) <= u64_max ->
  exists r os' new, from_manifest manifest os = Ret (r, os') /\
    trace os' = (trace os ++ new)%list /\ Forall confined new /\
    match r with
    | Ok ns => wf ns /\ Forall2 (mount_of manifest) (mounts manifest) (ns_mounts ns)
    | Err _ => True
    end.
Proof.
  intros Hc. pose proof (from_manifest_runs manifest os Hc) as Hr. unfold runs in Hr.
  destruct (from_manifest manifest os) as [[r os']|]; [|done].
  destruct Hr as [(n & En & Fn) HQ]. by exists r, os', n.
Qed.

(** Forgetting: the root and the static tree are never removed;
    a host or shadow node loses [count] references, stays under its number while
    some remain, and is removed together with its key when none is left, so that
    a later lookup of the same file makes a new node. *)
Theorem forget_inode_spec ns i count n :
  wf ns -> 0 <= count -> nodes ns !! i = Some n ->
  let ns' := forget_inode i count ns in
  wf ns' /\ (forall j, j <> i -> nodes ns' !! j = nodes ns !! j) /\
  if is_static (n_kind n) || (count <? lookup_count n)
  then exists n', nodes ns' !! i = Some n' /\ n_kind n' = n_kind n
  else nodes ns' !! i = None /\
    match tag_of (n_kind n) with
    | THost k => host_inodes ns' !! k = None
    | TShadow k => shadow_inodes ns' !! k = None
    | TStatic => False
    end.
Proof.
  intros Hwf Hc Hi ns'. split; [by apply forget_wf|]. subst ns'. unfold forget_inode.
  destruct (i =? ROOT_ID) eqn:Er; b2p.
  { subst. pose proof (wf_root ns Hwf) as Ht. apply tag_lookup in Ht as (m & Hm & Ht).
    simplify_eq. rewrite (proj1 (tag_static _) Ht). split; [done|]. by exists n. }
  set (ns1 := set_nodes (alter (uncount count) i) ns).
  assert (nodes ns1 !! i = Some (uncount count n)) as H1 by (cbn; by rewrite lookup_alter_eq, Hi).
  assert (forall j, j <> i -> nodes ns1 !! j = nodes ns !! j) as Hother
    by (intros j Hj; cbn; by rewrite lookup_alter_ne).
  assert (tag ns i = Some (tag_of (n_kind n))) as Ht by (apply tag_lookup; eauto).
  unfold prune_cold_inode. rewrite H1.
  change (lookup_count (uncount count n)) with (saturating_sub (lookup_count n) count).
  change (n_kind (uncount count n)) with (n_kind n). unfold saturating_sub.
  destruct (wf_nodes ns Hwf i n Hi) as (_ & _ & Hrange & _).
  destruct (count <? lookup_count n) eqn:Ecount; b2p.
  { rewrite (proj2 (Z.eqb_neq _ _)) by lia. rewrite orb_true_r. split; [done|]. by eexists. }
  rewrite (proj2 (Z.eqb_eq _ _)) by lia. rewrite orb_false_r. cbn [negb].
  destruct (is_static (n_kind n)) eqn:Est.
  { destruct (has_children ns1 i), (n_kind n) eqn:Ek; try done;
      (split; [exact Hother|exists (uncount count n)]; by split; [|rewrite <- Ek]). }
  assert (has_children ns1 i = false) as ->.
  { unfold has_children. cbn. erewrite wf_dynamic_no_children; try done.
    intros Hst. apply tag_static in Hst. congruence. }
  destruct (n_kind n) eqn:Ek; try done; cbn; split_and!;
    by (intros j Hj; rewrite lookup_delete_ne by done; apply Hother) || by rewrite lookup_delete_eq.
Qed.

(** ** Witnesses *)

Definition demo_metadata (mode : Z) : Metadata :=
  mkMetadata 1 7 mode 1 1000 1000 0 12 4096 8 0 0 0 0 0 0.

(** A host with the directory [/srv/work] (descriptor 10) that holds [a.env] and
    [b.txt], and an empty shadow root [/shadow] (descriptor 12). *)
Definition demo_host : toy := mkToy 0 (fun c =>
  match c return result (answer c) Z with
  | Open path _ _ => Ok (if bool_decide (path = "/shadow") then 12 else 10)
  | Openat2 dir _ _ _ _ => if dir =? 12 then Err ENOENT else Ok 11
  | Fstat fd => Ok (demo_metadata (if fd =? 11 then Z.lor S_IFREG 0x1a4 else Z.lor S_IFDIR 0x1ed))
  | ReadDir _ => Ok [Ok (Some "a.env"); Ok (Some "b.txt")]
  | SymlinkMetadata _ => Ok (demo_metadata (Z.lor S_IFREG 0x1a4))
  | CreateDirAll _ => Ok tt
  | _ => Err EPERM
  end).

Definition demo_manifest (access : AccessMode) : Manifest :=
  mkManifest SCHEMA_VERSION None None
    [mkMountSpec "work" "/work" "/srv/work" Dir access Workspace true false
       (mkMetadataSpec HostPolicy HostPolicy)]
    None [] (Some "/shadow") [mkFilter None [".env"] HideAndShadow].

Example from_manifest_builds_example :
  exists r os' new, from_manifest (demo_manifest Ro) (mkOs demo_host []) = Ret (r, os') /\
    trace os' = new /\ Forall confined new.
Proof.
  destruct (from_manifest_builds (demo_manifest Ro) (mkOs demo_host [])) as (r & os' & new & E & Et & F & _).
  - vm_compute. discriminate.
  - exists r, os', new. split; [exact E|]. split; [exact Et|exact F].
Defined.

End Namespace.
