(* ===== verification/ComposedFs.v ===== *)
(** The handlers of the composed filesystem (src/composed-fs/src/lib.rs): every
    FUSE operation of [impl FileSystem for ComposedFs], over the namespace, the
    handle table and the lock table.

    A C string argument is [Some s] when it is UTF-8 and [None] otherwise.
    Arguments the source ignores are left out. *)

From stdpp Require Import base option list gmap numbers strings sorting.
From Stdlib Require Import ZArith Lia Ascii String.
From S2P Require Import Prelude RustIo RustStr FsPath HostOps Manifest Namespace.

Local Open Scope string_scope.
Local Open Scope Z_scope.

Module ComposedFs.
Import FsPath HostOps Manifest Namespace.

Definition to_str (name : option string) : io_result string := ok_or name (OsError ENOENT).

Definition FS_POSIX_LOCKS : Z := 0x2.
Definition FS_BIG_WRITES : Z := 0x20.

(** [FileSystem::init]: the options the server offers. *)
Definition init (capable : Z) : Z := Z.land capable (Z.lor FS_BIG_WRITES FS_POSIX_LOCKS).

Record OwnedDirEntry := mkOwned { o_ino : Z; o_offset : Z; o_type : Z; o_name : string }.

Record VecDirIter := mkIter { it_entries : list OwnedDirEntry; it_index : nat }.

Definition VecDirIter_next (it : VecDirIter) : option OwnedDirEntry * VecDirIter :=
  match it_entries it !! it_index it with
  | Some e => (Some e, mkIter (it_entries it) (S (it_index it)))
  | None => (None, it)
  end.

(** The order of a [BTreeMap<String, _>]. *)
Definition name_le (a b : string * Z) : Prop := String.leb a.1 b.1 = true.
#[global] Instance name_le_dec : RelDecision name_le.
Proof. intros a b. unfold name_le. apply _. Defined.

Definition sorted_children (cs : gmap string Z) : list (string * Z) :=
  merge_sort name_le (map_to_list cs).

Section Handlers.
Context {W : Type} `{HostOs W}.

Local Notation fsM := (Namespace.fsM (W := W)).

(** ** Handles *)

Definition get_handles : fsM HandleTable := fun s => Ret (Ok (fs_handles s), s).
Definition put_handles (h : HandleTable) : fsM unit :=
  fun s => Ret (Ok tt, mkFs (fs_os s) (fs_ns s) h (fs_locks s)).
Definition get_locks : fsM LockTable := fun s => Ret (Ok (fs_locks s), s).
Definition put_locks (l : LockTable) : fsM unit :=
  fun s => Ret (Ok tt, mkFs (fs_os s) (fs_ns s) (fs_handles s) l).

(** [ComposedFs::new]. *)
Definition ComposedFs_new (os : Os W) (ns : Namespace) : Fs W :=
  mkFs os ns (mkHandles 1 ∅) (mkLocks ∅).

Definition insert_file_handle (inode file : Z) (writable : bool) (lock_path : string) : fsM Z :=
  let* metadata := os_do (fstat_file file) in
  let* h := get_handles in
  let handle := next_handle h in
  let* _ := put_handles (mkHandles (saturating_add u64_max handle 1)
    (<[handle := mkHandle inode file writable lock_path (md_dev metadata) (md_ino metadata)]> (h_files h))) in
  ret handle.

(** The handle, when it exists and belongs to the inode. *)
Definition find_handle (h : HandleTable) (inode handle : Z) : io_result FileHandle :=
  let? file := ok_or (h_files h !! handle) (OsError EBADF) in
  if negb (h_inode file =? inode) then Err (OsError EBADF) else Ok file.

Definition with_file_handle {T} (inode handle : Z) (f : FileHandle -> fsM T) : fsM T :=
  let* h := get_handles in
  let* file := lift (find_handle h inode handle) in
  f file.

(** ** Locks *)

Definition lock_file_for (inode handle owner : Z) : fsM Z :=
  let* h := get_handles in
  let* handle_file := lift (find_handle h inode handle) in
  let key := mkLockKey (h_dev handle_file) (h_ino handle_file) owner in
  let* locks := get_locks in
  match lk_files locks !! key with
  | Some file => ret file
  | None =>
      let* h := get_handles in
      let* handle_file := lift (find_handle h inode handle) in
      let* file := os_do (reopen_lock_file handle_file) in
      let* _ := put_locks (mkLocks (<[key := file]> (lk_files locks))) in
      ret file
  end.

Definition retain (keep : LockKey -> bool) : fsM unit :=
  let* locks := get_locks in
  put_locks (mkLocks (filter (fun kv => keep kv.1 = true) (lk_files locks))).

Definition not_owned (dev ino owner : Z) (k : LockKey) : bool :=
  negb (lk_dev k =? dev) || negb (lk_ino k =? ino) || negb (lk_owner k =? owner).

Definition remove_locks_for_owner (inode handle owner : Z) : fsM unit :=
  let* (dev, ino) := with_file_handle inode handle (fun file => ret (h_dev file, h_ino file)) in
  retain (not_owned dev ino owner).

Definition remove_released_file_locks (dev ino : Z) (owner : option Z) (has_remaining_handle : bool)
  : fsM unit :=
  match owner with
  | Some owner => retain (not_owned dev ino owner)
  | None =>
      if negb has_remaining_handle
      then retain (fun k => negb (lk_dev k =? dev) || negb (lk_ino k =? ino))
      else ret tt
  end.

Definition getlk (inode handle owner : Z) (lock : FileLock) : fsM FileLock :=
  let* file := lock_file_for inode handle owner in
  let* host_lock := lift (fuse_lock_to_host lock) in
  let* r := os_do (fcntl_ofd_lock file F_OFD_GETLK host_lock) in
  lift (host_lock_to_fuse r).

Definition setlk (inode handle owner : Z) (lock : FileLock) : fsM unit :=
  let* file := lock_file_for inode handle owner in
  let* host_lock := lift (fuse_lock_to_host lock) in
  let* _ := os_do (fcntl_ofd_lock file F_OFD_SETLK host_lock) in
  ret tt.

Definition setlkw (inode handle owner : Z) (lock : FileLock) : fsM unit :=
  let* file := lock_file_for inode handle owner in
  let* host_lock := lift (fuse_lock_to_host lock) in
  let* _ := os_do (fcntl_ofd_lock_wait_bounded file host_lock) in
  ret tt.

(** ** Names *)

(** [namespace.children.get(&parent).and_then(|children| children.get(name))]. *)
Definition child_of (ns : Namespace) (parent : Z) (name : string) : option Z :=
  match children ns !! parent with Some cs => cs !! name | None => None end.


Definition lookup (parent : Z) (name : option string) : fsM Entry :=
  let* name := lift (to_str name) in
  let* _ := lift (validate_single_path_component name) in
  let* ns := get_ns in
  let* parent_node := lift (get_node ns parent) in
  let parent_snapshot := mkNode parent (n_kind parent_node) 0 0 0 0 None in
  match child_of ns parent name with
  | Some inode =>
      let* node := lift (get_node ns inode) in
      let node := count_lookup node in
      let ns := set_nodes (fun m => <[inode := node]> m) ns in
      let* _ := put_ns ns in
      os_do (entry_for ns node)
  | None =>
      let* r := lookup_host_child parent_snapshot name in
      match r with
      | Some (_, entry) => ret entry
      | None => throw (OsError ENOENT)
      end
  end.

Definition forget (inode count : Z) : fsM unit :=
  let* ns := get_ns in put_ns (forget_inode inode count ns).

Definition batch_forget (requests : list (Z * Z)) : fsM unit :=
  let* ns := get_ns in
  put_ns (foldl (fun ns '(inode, count) => forget_inode inode count ns) ns requests).

(** ** Attributes *)

Definition getattr (inode : Z) : fsM (Attr * Z) :=
  let* ns := get_ns in
  let* node := lift (get_node ns inode) in
  let* attr := os_do (attr_for ns node) in
  ret (attr, ATTR_TTL).

(** Opens the file of a located node and checks that it is still the same. *)
Definition check_identity (identity : option HostIdentity) (file : Z) : io (W := W) unit :=
  match identity with
  | Some identity =>
      let* md := fstat_file file in lift (validate_host_identity md identity)
  | None => ret tt
  end.

Definition is_shadow (k : NodeKind) : bool := match k with Shadow _ _ => true | _ => false end.

(** The flags [setattr] opens the file with. *)
Definition setattr_open_flags (ns : Namespace) (node : Node) (valid : Z) : fsM Z :=
  if flags_contain valid SV_SIZE then ret O_RDWR
  else
    let* dir :=
      match n_kind node with
      | OverlayDir _ _ => ret true
      | MountRoot mount =>
          let* m := mount_index ns mount in
          if bool_decide (mt_kind m = Dir) then ret true else os_do (node_is_dir ns node)
      | _ => os_do (node_is_dir ns node)
      end in
    ret (if dir : bool then Z.lor O_RDONLY O_DIRECTORY else O_RDONLY).

(** The file of a node on the host or in the shadow store. *)
Definition open_node_file (ns : Namespace) (node : Node) (mount_idx : nat) (relative_path : string)
  (open_flags : Z) : fsM Z :=
  if is_shadow (n_kind node) then
    let* shadow_relative := lift (shadow_relative_path ns mount_idx relative_path) in
    let* fd := lift (shadow_root_fd ns mount_idx) in
    os_do (open_beneath_for_io fd shadow_relative open_flags 0)
  else
    let* mount := lift (host_mount ns mount_idx) in
    os_do (open_host_file_for_io mount relative_path open_flags 0).

Definition setattr (inode : Z) (attr : SetattrIn) (valid : Z) : fsM (Attr * Z) :=
  let* ns := get_ns in
  let* node := lift (get_node ns inode) in
  let* location := of_exec (match shadow_file_location node with
                            | Some l => Ret (Some l)
                            | None => file_or_dir_location ns node
                            end) in
  match location with
  | None =>
      if valid =? 0
      then let* attr := os_do (attr_for ns node) in ret (attr, ATTR_TTL)
      else throw (OsError EPERM)
  | Some (mount_idx, relative_path) =>
      let* _ := if setattr_wants_mutation valid then lift (ensure_mount_writable ns mount_idx) else ret tt in
      let* open_flags := setattr_open_flags ns node valid in
      let identity := host_identity node in
      let* file := open_node_file ns node mount_idx relative_path open_flags in
      let* _ := os_do (check_identity identity file) in
      let* _ := os_do (apply_setattr file attr valid) in
      let* metadata := os_do (fstat_file file) in
      ret (attr_from_metadata inode metadata, ATTR_TTL)
  end.

(** ** Directories *)

Definition opendir (inode : Z) : fsM Z :=
  let* ns := get_ns in
  let* node := lift (get_node ns inode) in
  let* dir := os_do (node_is_dir ns node) in
  if negb dir then throw (OsError ENOTDIR) else ret inode.

(** The state of the loops of [readdir]. *)
Record Listing := mkListing {
  ls_entries : list OwnedDirEntry; ls_seen : gset string; ls_offset : Z }.

(** What a loop does with a name. *)
Inductive step := Skip (l : Listing) | Stop (l : Listing) | Take (l : Listing).

Definition next_name (offset budget : Z) (name : string) (l : Listing) : step :=
  if decide (name ∈ ls_seen l) then Skip l
  else
    let l := mkListing (ls_entries l) ({[ name ]} ∪ ls_seen l)
               (saturating_add u64_max (ls_offset l) 1) in
    if ls_offset l <=? offset then Skip l
    else if budget <=? len (ls_entries l) then Stop l
    else Take l.

Definition push_entry (l : Listing) (ino type_ : Z) (name : string) : io_result Listing :=
  let? c_name := map_err (fun _ => invalid_input "invalid dir entry name") (CString_new name) in
  Ok (mkListing (ls_entries l ++ [mkOwned ino (ls_offset l) type_ c_name])%list (ls_seen l) (ls_offset l)).

Fixpoint list_children (ns : Namespace) (offset budget : Z) (cs : list (string * Z)) (l : Listing)
  : fsM Listing :=
  match cs with
  | [] => ret l
  | (name, child_inode) :: rest =>
      match next_name offset budget name l with
      | Skip l => list_children ns offset budget rest l
      | Stop l => ret l
      | Take l =>
          let* child := lift (get_node ns child_inode) in
          let* type_ := os_do (dirent_type_for ns child) in
          let* l := lift (push_entry l child_inode type_ name) in
          list_children ns offset budget rest l
      end
  end.

(** The two loops over directory entries of the host, with [keep] the test on
    [filtered_path] and [node_for] the table that numbers the entries. *)
Fixpoint list_entries (keep : bool -> bool)
  (node_for : nat -> string -> Metadata -> Namespace -> exec (Z * Namespace))
  (mount_idx : nat) (relative_path : string) (offset budget : Z) (es : list HostDirEntry) (l : Listing)
  : fsM Listing :=
  match es with
  | [] => ret l
  | e :: rest =>
      let child_relative := path_join relative_path (de_name e) in
      let* ns := get_ns in
      let* filtered := lift (filtered_path ns mount_idx child_relative) in
      if negb (keep filtered) then list_entries keep node_for mount_idx relative_path offset budget rest l
      else
        match next_name offset budget (de_name e) l with
        | Skip l => list_entries keep node_for mount_idx relative_path offset budget rest l
        | Stop l => ret l
        | Take l =>
            let* child_inode := update_ns (node_for mount_idx child_relative (de_metadata e)) in
            let* l := lift (push_entry l child_inode (dirent_type_from_mode (md_mode (de_metadata e)))
                              (de_name e)) in
            list_entries keep node_for mount_idx relative_path offset budget rest l
        end
  end.

Definition list_host_dir (mount_idx : nat) (relative_path : string) (offset budget limit : Z)
  (l : Listing) : fsM Listing :=
  let* ns := get_ns in
  let* mount := lift (host_mount ns mount_idx) in
  let* es := os_do (read_dir_beneath (root mount) relative_path limit) in
  let* l := list_entries negb get_or_create_host_node mount_idx relative_path offset budget es l in
  match mt_shadow_root mount with
  | None => ret l
  | Some _ =>
      let* ns := get_ns in
      let* shadow_parent := lift (shadow_relative_path ns mount_idx relative_path) in
      let* fd := lift (shadow_root_fd ns mount_idx) in
      let* r := attempt (os_do (read_dir_beneath fd shadow_parent limit)) in
      match r with
      | Ok es => list_entries id get_or_create_shadow_node mount_idx relative_path offset budget es l
      | Err e => if bool_decide (raw_os_error e = Some ENOENT) then ret l else throw e
      end
  end.

Definition readdir (inode size offset : Z) : fsM VecDirIter :=
  let* ns := get_ns in
  let* node := lift (get_node ns inode) in
  let* dir := os_do (node_is_dir ns node) in
  if negb dir then throw (OsError ENOTDIR)
  else
    let entry_budget := readdir_entry_budget size in
    let collection_limit := readdir_collection_limit offset entry_budget in
    let* l :=
      match children ns !! inode with
      | Some cs => list_children ns offset entry_budget (sorted_children cs) (mkListing [] ∅ 0)
      | None => ret (mkListing [] ∅ 0)
      end in
    let* l :=
      if len (ls_entries l) <? entry_budget then
        let* location := of_exec (host_location ns node) in
        match location with
        | Some (mount_idx, relative_path) =>
            list_host_dir mount_idx relative_path offset entry_budget collection_limit l
        | None => ret l
        end
      else ret l in
    let* ns := get_ns in
    let* _ := put_ns (prune_cold_host_shadow_nodes ns) in
    ret (mkIter (ls_entries l) 0).

(** ** Files *)

Definition open_shadow (inode flags : Z) (mount_idx : nat) (relative_path : string) (ns : Namespace)
  : fsM Z :=
  let* _ := if open_flags_want_write flags then lift (ensure_mount_writable ns mount_idx) else ret tt in
  let* _ := os_do (ensure_shadow_parent ns mount_idx relative_path) in
  let* shadow_relative := lift (shadow_relative_path ns mount_idx relative_path) in
  let* fd := lift (shadow_root_fd ns mount_idx) in
  let* file := os_do (open_beneath_for_io fd shadow_relative (as_i32 flags) 0) in
  let* shadow_path := lift (shadow_root_path ns mount_idx) in
  insert_file_handle inode file (open_flags_want_write flags) (path_join shadow_path shadow_relative).

Definition open (inode flags : Z) : fsM Z :=
  let* ns := get_ns in
  let* node := lift (get_node ns inode) in
  match shadow_file_location node with
  | Some (mount_idx, relative_path) => open_shadow inode flags mount_idx relative_path ns
  | None =>
      match host_file_location node with
      | None => throw (OsError EISDIR)
      | Some (mount_idx, relative_path) =>
          let* dir_root :=
            match n_kind node with
            | MountRoot mount =>
                let* m := mount_index ns mount in ret (bool_decide (mt_kind m = Dir))
            | _ => ret false
            end in
          if dir_root : bool then throw (OsError EISDIR)
          else
            let* _ := if open_flags_want_write flags then lift (ensure_mount_writable ns mount_idx)
                      else ret tt in
            let identity := host_identity node in
            let* mount := lift (host_mount ns mount_idx) in
            let* file := os_do (open_host_file_for_io mount relative_path (as_i32 flags) 0) in
            let* _ := os_do (check_identity identity file) in
            insert_file_handle inode file (open_flags_want_write flags)
              (path_join (root_path mount) relative_path)
      end
  end.

Definition create (parent : Z) (name : option string) (mode flags umask : Z) : fsM (Entry * Z) :=
  let* name := lift (to_str name) in
  let* ns := get_ns in
  let* (mount_idx, relative_path) := host_child_location ns parent name in
  let* _ := lift (ensure_mount_writable ns mount_idx) in
  let create_flags := Z.lor (as_i32 flags) O_CREAT in
  let create_mode := Z.ldiff mode umask in
  let* filtered := lift (filtered_path ns mount_idx relative_path) in
  if filtered : bool then
    let* _ := os_do (ensure_shadow_parent ns mount_idx relative_path) in
    let* shadow_relative := lift (shadow_relative_path ns mount_idx relative_path) in
    let* fd := lift (shadow_root_fd ns mount_idx) in
    let* file := os_do (open_beneath_for_io fd shadow_relative create_flags create_mode) in
    let* metadata := os_do (fstat_file file) in
    let* shadow_path := lift (shadow_root_path ns mount_idx) in
    let* entry := update_ns (entry_for_shadow_metadata mount_idx relative_path metadata) in
    let* handle := insert_file_handle (e_inode entry) file (open_flags_want_write flags)
                     (path_join shadow_path shadow_relative) in
    ret (entry, handle)
  else
    let* mount := lift (host_mount ns mount_idx) in
    let* file := os_do (open_beneath_for_io (root mount) relative_path create_flags create_mode) in
    let* metadata := os_do (fstat_file file) in
    let* entry := update_ns (entry_for_host_metadata mount_idx relative_path metadata) in
    let* handle := insert_file_handle (e_inode entry) file (open_flags_want_write flags)
                     (path_join (root_path mount) relative_path) in
    ret (entry, handle).

Definition readlink (inode : Z) : fsM (list byte) :=
  let* ns := get_ns in
  let* node := lift (get_node ns inode) in
  match host_file_location node with
  | None => throw (OsError EINVAL)
  | Some (mount_idx, relative_path) =>
      let* _ := os_do (host_metadata_for ns node) in
      let* mount := lift (host_mount ns mount_idx) in
      os_do (readlink_beneath (root mount) relative_path)
  end.

(** The common course of [symlink], [mkdir] and [mknod]: locate the child on a
    writable mount, make it with [make], and enter what is there now. *)
Definition make_child (parent : Z) (name : option string) (make : Z -> string -> io (W := W) unit)
  : fsM Entry :=
  let* name := lift (to_str name) in
  let* ns := get_ns in
  let* (mount_idx, relative_path) := host_child_location ns parent name in
  let* _ := lift (ensure_mount_writable ns mount_idx) in
  let* mount := lift (host_mount ns mount_idx) in
  let* _ := os_do (make (root mount) relative_path) in
  let* metadata := os_do (stat_beneath (root mount) relative_path) in
  update_ns (entry_for_host_metadata mount_idx relative_path metadata).

Definition symlink (linkname : string) (parent : Z) (name : option string) : fsM Entry :=
  make_child parent name (fun fd path => symlink_beneath fd linkname path).

Definition mkdir (parent : Z) (name : option string) (mode umask : Z) : fsM Entry :=
  make_child parent name (fun fd path => mkdir_beneath fd path (Z.ldiff mode umask)).

Definition mknod (parent : Z) (name : option string) (mode rdev umask : Z) : fsM Entry :=
  let kind := Z.land mode S_IFMT in
  if negb (kind =? 0) && negb (kind =? S_IFREG) && negb (kind =? S_IFIFO)
  then throw (OsError EPERM)
  else make_child parent name (fun fd path => mknod_beneath fd path (Z.ldiff mode umask) rdev).

Definition unlink (parent : Z) (name : option string) : fsM unit :=
  let* name := lift (to_str name) in
  let* ns := get_ns in
  let* (mount_idx, relative_path) := host_child_location ns parent name in
  let* _ := lift (ensure_mount_writable ns mount_idx) in
  let* filtered := lift (filtered_path ns mount_idx relative_path) in
  if filtered : bool then
    let* shadow_relative := lift (shadow_relative_path ns mount_idx relative_path) in
    let* fd := lift (shadow_root_fd ns mount_idx) in
    os_do (unlink_beneath fd shadow_relative false)
  else
    let* mount := lift (host_mount ns mount_idx) in
    os_do (unlink_beneath (root mount) relative_path false).

Definition rmdir (parent : Z) (name : option string) : fsM unit :=
  let* name := lift (to_str name) in
  let* ns := get_ns in
  let* (mount_idx, relative_path) := host_child_location ns parent name in
  let* _ := lift (ensure_mount_writable ns mount_idx) in
  let* mount := lift (host_mount ns mount_idx) in
  os_do (unlink_beneath (root mount) relative_path true).

Definition rename (olddir : Z) (oldname : option string) (newdir : Z) (newname : option string)
  (flags : Z) : fsM unit :=
  let* oldname := lift (to_str oldname) in
  let* newname := lift (to_str newname) in
  let* ns := get_ns in
  let* (old_mount, old_relative) := host_child_location ns olddir oldname in
  let* (new_mount, new_relative) := host_child_location ns newdir newname in
  if negb (old_mount =? new_mount)%nat then throw (OsError EXDEV)
  else
    let* _ := lift (ensure_mount_writable ns old_mount) in
    let* old_filtered := lift (filtered_path ns old_mount old_relative) in
    let* new_filtered := lift (filtered_path ns new_mount new_relative) in
    match old_filtered, new_filtered with
    | true, true =>
        let* _ := os_do (ensure_shadow_parent ns new_mount new_relative) in
        let* old_shadow := lift (shadow_relative_path ns old_mount old_relative) in
        let* new_shadow := lift (shadow_relative_path ns new_mount new_relative) in
        let* fd := lift (shadow_root_fd ns old_mount) in
        os_do (rename_beneath fd old_shadow new_shadow flags)
    | true, false | false, true => throw (OsError EXDEV)
    | false, false =>
        let* mount := lift (host_mount ns old_mount) in
        os_do (rename_beneath (root mount) old_relative new_relative flags)
    end.

Definition link (inode newparent : Z) (newname : option string) : fsM Entry :=
  let* newname := lift (to_str newname) in
  let* ns := get_ns in
  let* node := lift (get_node ns inode) in
  match host_file_location node with
  | None => throw (OsError EPERM)
  | Some (old_mount, old_relative) =>
      let* (new_mount, new_relative) := host_child_location ns newparent newname in
      if negb (old_mount =? new_mount)%nat then throw (OsError EXDEV)
      else
        let* filtered := lift (filtered_path ns new_mount new_relative) in
        if filtered : bool then throw (OsError EXDEV)
        else
          let* _ := os_do (host_metadata_for ns node) in
          let* _ := lift (ensure_mount_writable ns old_mount) in
          let* mount := lift (host_mount ns old_mount) in
          let* _ := os_do (link_beneath (root mount) old_relative new_relative) in
          let* metadata := os_do (stat_beneath (root mount) new_relative) in
          update_ns (entry_for_host_metadata new_mount new_relative metadata)
  end.

(** ** Data: the zero-copy transfers of the transport are the calls [ReadAt] and
    [WriteAt] of a number of bytes at an offset. *)

Definition read (inode handle size offset : Z) : fsM Z :=
  with_file_handle inode handle (fun file => os_do (sys (ReadAt (h_file file) size offset))).

Definition write (inode handle size offset : Z) : fsM Z :=
  with_file_handle inode handle (fun file =>
    if negb (h_writable file) then throw (OsError EBADF)
    else os_do (sys (WriteAt (h_file file) size offset))).

Definition flush (inode handle lock_owner : Z) : fsM unit :=
  let* _ := with_file_handle inode handle (fun _ => ret tt) in
  remove_locks_for_owner inode handle lock_owner.

Definition fsync (inode : Z) (datasync : bool) (handle : Z) : fsM unit :=
  with_file_handle inode handle (fun file => os_do (sys (Fsync (h_file file) datasync))).

Definition statfs (inode : Z) : fsM statvfs :=
  let* ns := get_ns in
  let* node := lift (get_node ns inode) in
  let* location := of_exec (file_or_dir_location ns node) in
  match location with
  | None => ret (mkStatvfs 4096 255)
  | Some (mount_idx, _) =>
      let* mount := lift (host_mount ns mount_idx) in
      os_do (fstatvfs_file (root mount))
  end.

Definition access (inode mask : Z) : fsM unit :=
  let* ns := get_ns in
  let* node := lift (get_node ns inode) in
  let* location := of_exec (file_or_dir_location ns node) in
  let* _ :=
    if negb (Z.land mask W_OK =? 0) then
      match location with
      | Some (mount_idx, _) => lift (ensure_mount_writable ns mount_idx)
      | None => ret tt
      end
    else ret tt in
  match location with
  | None => ret tt
  | Some (mount_idx, relative_path) =>
      let* _ := os_do (host_metadata_for ns node) in
      let* mount := lift (host_mount ns mount_idx) in
      os_do (access_host_path mount relative_path (as_i32 mask))
  end.

Definition lseek (inode handle offset whence : Z) : fsM Z :=
  with_file_handle inode handle (fun file =>
    os_do (sys (Lseek (h_file file) (as_i64 offset) (as_i32 whence)))).

(** ** Extended attributes *)

(** The file every handler of extended attributes opens. *)
Definition xattr_file (ns : Namespace) (mount_idx : nat) (relative_path : string)
  (identity : option HostIdentity) : fsM Z :=
  let* mount := lift (host_mount ns mount_idx) in
  let* file := os_do (open_host_file_for_io mount relative_path O_RDONLY 0) in
  let* _ := os_do (check_identity identity file) in
  ret file.

Definition setxattr (inode : Z) (name : string) (value : list byte) (flags : Z) : fsM unit :=
  let* ns := get_ns in
  let* (mount_idx, relative_path, identity) := xattr_location ns inode in
  let* _ := lift (ensure_mount_writable ns mount_idx) in
  let* file := xattr_file ns mount_idx relative_path identity in
  os_do (setxattr_file file name value flags).

Definition getxattr (inode : Z) (name : string) (size : Z) : fsM GetxattrReply :=
  let* ns := get_ns in
  let* (mount_idx, relative_path, identity) := xattr_location ns inode in
  let* file := xattr_file ns mount_idx relative_path identity in
  os_do (getxattr_file file name size).

Definition listxattr (inode size : Z) : fsM GetxattrReply :=
  let* ns := get_ns in
  let* (mount_idx, relative_path, identity) := xattr_location ns inode in
  let* file := xattr_file ns mount_idx relative_path identity in
  os_do (listxattr_file file size).

Definition removexattr (inode : Z) (name : string) : fsM unit :=
  let* ns := get_ns in
  let* (mount_idx, relative_path, identity) := xattr_location ns inode in
  let* _ := lift (ensure_mount_writable ns mount_idx) in
  let* file := xattr_file ns mount_idx relative_path identity in
  os_do (removexattr_file file name).

(** ** Closing *)

Definition same_file (dev ino : Z) (h : FileHandle) : bool := (h_dev h =? dev) && (h_ino h =? ino).

Definition release (inode handle : Z) (flush : bool) (lock_owner : option Z) : fsM unit :=
  let* h := get_handles in
  let* file := lift (find_handle h inode handle) in
  let rest := delete handle (h_files h) in
  let has_remaining_handle :=
    existsb (fun kv => same_file (h_dev file) (h_ino file) kv.2) (map_to_list rest) in
  let* _ := put_handles (mkHandles (next_handle h) rest) in
  let* _ := if flush && h_writable file then os_do (sys (Fsync (h_file file) false)) else ret tt in
  remove_released_file_locks (h_dev file) (h_ino file) lock_owner has_remaining_handle.

Definition fsyncdir : fsM unit := ret tt.
Definition releasedir : fsM unit := ret tt.

End Handlers.

(** ** Requests *)

(** The requests of the FUSE server, with the arguments the handlers use. *)
Inductive request :=
| QLookup (parent : Z) (name : option string)
| QForget (inode count : Z)
| QBatchForget (requests : list (Z * Z))
| QGetattr (inode : Z)
| QSetattr (inode : Z) (attr : SetattrIn) (valid : Z)
| QReadlink (inode : Z)
| QSymlink (linkname : string) (parent : Z) (name : option string)
| QMknod (parent : Z) (name : option string) (mode rdev umask : Z)
| QMkdir (parent : Z) (name : option string) (mode umask : Z)
| QUnlink (parent : Z) (name : option string)
| QRmdir (parent : Z) (name : option string)
| QRename (olddir : Z) (oldname : option string) (newdir : Z) (newname : option string) (flags : Z)
| QLink (inode newparent : Z) (newname : option string)
| QOpen (inode flags : Z)
| QCreate (parent : Z) (name : option string) (mode flags umask : Z)
| QRead (inode handle size offset : Z)
| QWrite (inode handle size offset : Z)
| QStatfs (inode : Z)
| QRelease (inode handle : Z) (flush : bool) (lock_owner : option Z)
| QFsync (inode : Z) (datasync : bool) (handle : Z)
| QFlush (inode handle lock_owner : Z)
| QSetxattr (inode : Z) (name : string) (value : list byte) (flags : Z)
| QGetxattr (inode : Z) (name : string) (size : Z)
| QListxattr (inode size : Z)
| QRemovexattr (inode : Z) (name : string)
| QOpendir (inode : Z)
| QReaddir (inode size offset : Z)
| QFsyncdir
| QReleasedir
| QGetlk (inode handle owner : Z) (lock : FileLock)
| QSetlk (inode handle owner : Z) (lock : FileLock)
| QSetlkw (inode handle owner : Z) (lock : FileLock)
| QAccess (inode mask : Z)
| QLseek (inode handle offset whence : Z).

Inductive reply :=
| RUnit
| REntry (e : Entry)
| RAttr (a : Attr) (ttl : Z)
| RHandle (handle : Z)
| RCreated (e : Entry) (handle : Z)
| RSize (n : Z)
| RBytes (bs : list byte)
| RXattr (x : GetxattrReply)
| RStatfs (st : statvfs)
| RLock (lock : FileLock)
| RDir (it : VecDirIter).

Section Dispatch.
Context {W : Type} `{HostOs W}.

Local Notation fsM := (Namespace.fsM (W := W)).

Definition reply_of {A} (f : A -> reply) (m : fsM A) : fsM reply := let* a := m in ret (f a).
Definition done_of (m : fsM unit) : fsM reply := reply_of (fun _ => RUnit) m.

Definition handle_request (q : request) : fsM reply :=
  match q with
  | QLookup parent name => reply_of REntry (lookup parent name)
  | QForget inode count => done_of (forget inode count)
  | QBatchForget requests => done_of (batch_forget requests)
  | QGetattr inode => reply_of (fun r => RAttr r.1 r.2) (getattr inode)
  | QSetattr inode attr valid => reply_of (fun r => RAttr r.1 r.2) (setattr inode attr valid)
  | QReadlink inode => reply_of RBytes (readlink inode)
  | QSymlink linkname parent name => reply_of REntry (symlink linkname parent name)
  | QMknod parent name mode rdev umask => reply_of REntry (mknod parent name mode rdev umask)
  | QMkdir parent name mode umask => reply_of REntry (mkdir parent name mode umask)
  | QUnlink parent name => done_of (unlink parent name)
  | QRmdir parent name => done_of (rmdir parent name)
  | QRename olddir oldname newdir newname flags => done_of (rename olddir oldname newdir newname flags)
  | QLink inode newparent newname => reply_of REntry (link inode newparent newname)
  | QOpen inode flags => reply_of RHandle (open inode flags)
  | QCreate parent name mode flags umask =>
      reply_of (fun r => RCreated r.1 r.2) (create parent name mode flags umask)
  | QRead inode handle size offset => reply_of RSize (read inode handle size offset)
  | QWrite inode handle size offset => reply_of RSize (write inode handle size offset)
  | QStatfs inode => reply_of RStatfs (statfs inode)
  | QRelease inode handle flush owner => done_of (release inode handle flush owner)
  | QFsync inode datasync handle => done_of (fsync inode datasync handle)
  | QFlush inode handle owner => done_of (flush inode handle owner)
  | QSetxattr inode name value flags => done_of (setxattr inode name value flags)
  | QGetxattr inode name size => reply_of RXattr (getxattr inode name size)
  | QListxattr inode size => reply_of RXattr (listxattr inode size)
  | QRemovexattr inode name => done_of (removexattr inode name)
  | QOpendir inode => reply_of RHandle (opendir inode)
  | QReaddir inode size offset => reply_of RDir (readdir inode size offset)
  | QFsyncdir => done_of fsyncdir
  | QReleasedir => done_of releasedir
  | QGetlk inode handle owner lock => reply_of RLock (getlk inode handle owner lock)
  | QSetlk inode handle owner lock => done_of (setlk inode handle owner lock)
  | QSetlkw inode handle owner lock => done_of (setlkw inode handle owner lock)
  | QAccess inode mask => done_of (access inode mask)
  | QLseek inode handle offset whence => reply_of RSize (lseek inode handle offset whence)
  end.

(** A session: requests answered one after the other, an error ending none but
    its own request. *)
Fixpoint serve (qs : list request) : fsM (list (io_result reply)) :=
  match qs with
  | [] => ret []
  | q :: rest =>
      let* r := attempt (handle_request q) in
      let* rs := serve rest in
      ret (r :: rs)
  end.

End Dispatch.

(** ** Steps *)

(** What a session is allowed to do: the mounts it has, and whether it must not
    change the host. *)
Record regime := mkRegime { strict :> bool; rg_mounts : list MountRuntime }.

(** The shadow root of one of the mounts, or the directory named after the mount
    in it, or a directory beneath that: the path goes on from the shadow root
    with a relative path of safe names. *)
Definition shadow_dir (ms : list MountRuntime) (p : string) : Prop :=
  exists m path d names, m ∈ ms /\ mt_shadow_root_path m = Some path /\ p = path_join path d /\
    rel_path d names /\ (names = [] \/ head names = Some (mt_id m)).

(** Under a strict regime, the only call that may change the host makes a
    directory beneath a shadow root. *)
Definition allowed (ro : regime) (c : syscall) : Prop :=
  confined c /\ (ro = true :> bool -> mutates c = true ->
    exists p, c = CreateDirAll p /\ shadow_dir (rg_mounts ro) p).

Definition all_readonly (ns : Namespace) : Prop := Forall (fun m => mt_access m = Ro) (ns_mounts ns).

(** The identifiers of the mounts are names, which the manifest's check demands. *)
Definition named_mounts (ns : Namespace) : Prop := Forall (fun m => safe_name (mt_id m)) (ns_mounts ns).

Record good {W} (ro : regime) (s : Fs W) : Prop := {
  good_wf : wf (fs_ns s);
  good_ro : ro = true :> bool -> all_readonly (fs_ns s);
  good_handles : map_Forall (fun _ h => ro = true :> bool -> h_writable h = false) (h_files (fs_handles s));
  good_mounts : ns_mounts (fs_ns s) = rg_mounts ro;
  good_names : ro = true :> bool -> named_mounts (fs_ns s)
}.

(** They are in the namespace of a manifest. *)
Lemma mounts_named manifest ms ns :
  wf ns /\ Forall2 (mount_of manifest) ms (ns_mounts ns) -> named_mounts ns.
Proof.
  intros [_ Hf]. unfold named_mounts. revert Hf. generalize (ns_mounts ns) as rts. intros rts.
  induction 1 as [|m rt ? ? Hm _ IH]; constructor; [apply Hm|exact IH].
Qed.

(** The mounts stay and at most [k] inode numbers are given out. *)
Definition grows (k : Z) (ns ns' : Namespace) : Prop :=
  ns_mounts ns' = ns_mounts ns /\ next_inode ns <= next_inode ns' <= next_inode ns + k.

Lemma grows_weaken k k' ns ns' : grows k ns ns' -> k <= k' -> grows k' ns ns'.
Proof. unfold grows. intros [? ?] ?. split; [done|lia]. Qed.

Lemma grows_refl k ns : 0 <= k -> grows k ns ns.
Proof. split; [done|lia]. Qed.

Lemma grows_trans j k ns ns' ns'' : grows j ns ns' -> grows k ns' ns'' -> grows (j + k) ns ns''.
Proof. unfold grows. intros [E ?] [E' ?]. split; [congruence|lia]. Qed.

Lemma harmless_allowed ro c : harmless c -> allowed ro c.
Proof. intros [? E]. split; [done|]. intros _. by rewrite E. Qed.

Section Steps.
Context {W : Type} `{HostOs W} (ro : regime).

Local Notation fsM := (Namespace.fsM (W := W)).

(** [steps ns k m]: in a good state whose namespace is [ns], with [k] inode
    numbers left, [m] does not panic, makes allowed calls only, and leaves a
    good state. *)
Definition steps {A} (ns : Namespace) (k : Z) (m : fsM A) : Prop :=
  forall s, fs_ns s = ns -> good ro s -> next_inode ns + k <= u64_max ->
    runs (allowed ro) m s (fun _ s' => good ro s' /\ grows k ns (fs_ns s')).

Lemma steps_pure {A} ns k (m : fsM A) :
  0 <= k -> (forall s, fs_ns s = ns -> exists r, m s = Ret (r, s)) -> steps ns k m.
Proof.
  intros Hk Hm s Es Hg Hr. destruct (Hm s Es) as [r E]. eapply runs_here; [exact E|].
  rewrite Es. split; [done|by apply grows_refl].
Qed.

Lemma steps_ret {A} ns k (a : A) : 0 <= k -> steps ns k (ret a).
Proof. intros ?. apply steps_pure; [done|]. by eexists. Qed.

Lemma steps_throw {A} ns k e : 0 <= k -> steps ns k (throw e : fsM A).
Proof. intros ?. apply steps_pure; [done|]. by eexists. Qed.

(** What a computation that leaves the namespace and the handles alone does. *)
Definition quiet {A} (m : fsM A) : Prop :=
  forall s, good ro s -> runs (allowed ro) m s (fun _ s' => good ro s' /\ fs_ns s' = fs_ns s).

Lemma steps_quiet_bind {A B} ns k (m : fsM A) (f : A -> fsM B) :
  0 <= k -> quiet m -> (forall a, steps ns k (f a)) -> steps ns k (bind m f).
Proof.
  intros Hk Hm Hf s Es Hg Hr. apply runs_bind. eapply runs_mono; [by apply Hm|].
  intros [a|e] s' [Hg' E]; [apply Hf; congruence|]. split; [done|]. rewrite E, Es. by apply grows_refl.
Qed.

Lemma steps_quiet {A} ns k (m : fsM A) : 0 <= k -> quiet m -> steps ns k m.
Proof.
  intros Hk Hm s Es Hg Hr. eapply runs_mono; [by apply Hm|]. intros r s' [Hg' E].
  split; [done|]. rewrite E, Es. by apply grows_refl.
Qed.

Lemma os_quiet {A} (m : io (W := W) A) : calls (allowed ro) m -> quiet (os_do m).
Proof.
  intros Hm s Hg. specialize (Hm (fs_os s)). unfold runs, os_do in *.
  destruct (m (fs_os s)) as [[r os]|]; [|done]. cbn. destruct Hm as [Hc _].
  split; [exact Hc|]. split; [|done]. by destruct Hg.
Qed.

Lemma os_harmless {A} (m : io (W := W) A) : calls harmless m -> quiet (os_do m).
Proof. intros Hm. apply os_quiet. eapply calls_weaken; [apply harmless_allowed|done]. Qed.

Lemma attempt_quiet {A} (m : fsM A) : quiet m -> quiet (attempt m).
Proof. intros Hm s Hg. apply runs_attempt. eapply runs_mono; [by apply Hm|done]. Qed.

Lemma steps_get {A} ns k (f : Namespace -> fsM A) : steps ns k (f ns) -> steps ns k (bind get_ns f).
Proof.
  intros Hf s Es Hg Hr. apply runs_bind. eapply runs_here; [done|]. rewrite Es. by apply Hf.
Qed.

Lemma steps_lift {A B} ns k (r : io_result A) (f : A -> fsM B) :
  0 <= k -> (forall a, r = Ok a -> steps ns k (f a)) -> steps ns k (bind (lift r) f).
Proof.
  intros Hk Hf s Es Hg Hr. apply runs_bind. eapply runs_here; [done|].
  destruct r as [a|e]; [by apply Hf|]. rewrite Es. split; [done|by apply grows_refl].
Qed.

Lemma steps_exec {A B} ns k (m : exec A) a (f : A -> fsM B) :
  m = Ret a -> steps ns k (f a) -> steps ns k (bind (of_exec m) f).
Proof. intros -> Hf s Es Hg Hr. apply runs_bind. eapply runs_here; [done|]. by apply Hf. Qed.

Lemma steps_good {A} ns k (m : fsM A) :
  (wf ns -> (ro = true :> bool -> all_readonly ns) -> steps ns k m) -> steps ns k m.
Proof. intros Hm s Es Hg Hr. apply Hm; try done; rewrite <- Es; apply Hg. Qed.

Lemma steps_mounts {A} ns k (m : fsM A) :
  (ns_mounts ns = rg_mounts ro -> (ro = true :> bool -> named_mounts ns) -> steps ns k m) -> steps ns k m.
Proof. intros Hm s Es Hg Hr. apply Hm; try done; rewrite <- Es; apply Hg. Qed.

(** Behind the check that a mount is writable, every confined call is allowed. *)
Lemma steps_writable {B} ns k mt (f : unit -> fsM B) :
  0 <= k -> (ro = false :> bool -> steps ns k (f tt)) ->
  steps ns k (bind (lift (ensure_mount_writable ns mt)) f).
Proof.
  intros Hk Hf. apply steps_good. intros _ Hro. apply steps_lift; [done|]. intros [] E. apply Hf.
  destruct (strict ro); [|done]. exfalso. unfold ensure_mount_writable, host_mount in E.
  destruct (ns_mounts ns !! mt) as [m|] eqn:Em; [|done]. cbn in E.
  rewrite (Forall_lookup_1 _ _ _ _ (Hro eq_refl) Em) in E. done.
Qed.

Lemma os_confined {A} (m : io (W := W) A) : ro = false :> bool -> calls confined m -> quiet (os_do m).
Proof.
  intros Ero Hm. apply os_quiet. eapply calls_weaken; [|done]. intros c Hc. split; [done|congruence].
Qed.

Lemma put_ns_steps ns k ns' :
  wf ns' -> grows k ns ns' -> steps ns k (put_ns ns').
Proof.
  intros Hw [Em Hn] s Es [_ Hro Hh Hms Hid] Hr. eapply (runs_mono _ _ _ (fun _ s' => s' = mkFs (fs_os s) ns'
    (fs_handles s) (fs_locks s))).
  - unfold runs, put_ns. split; [|done]. exists []. by rewrite (right_id_L [] (++)).
  - intros r s' ->. split; [|done]. split; try done; cbn; [|congruence|].
    + intros E. unfold all_readonly. rewrite Em, <- Es. by apply Hro.
    + intros E. unfold named_mounts. rewrite Em, <- Es. by apply Hid.
Qed.

Lemma steps_bind {A B} ns j k (m : fsM A) (f : A -> fsM B) :
  0 <= j -> 0 <= k -> steps ns j m ->
  (forall a ns', wf ns' -> grows j ns ns' -> steps ns' k (f a)) -> steps ns (j + k) (bind m f).
Proof.
  intros Hj Hk Hm Hf s Es Hg Hr. apply runs_bind. eapply runs_mono; [apply Hm; [done..|lia]|].
  intros [a|e] s' [Hg' Hgr].
  - eapply runs_mono.
    + eapply (Hf a (fs_ns s')); [apply Hg'|done|done|done|]. destruct Hgr. lia.
    + intros r s'' [? ?]. split; [done|]. by eapply grows_trans.
  - split; [done|]. eapply grows_weaken; [done|lia].
Qed.

Lemma steps_weaken {A} ns j k (m : fsM A) : steps ns j m -> j <= k -> steps ns k m.
Proof.
  intros Hm Hle s Es Hg Hr. eapply runs_mono; [apply Hm; [done..|lia]|].
  intros r s' [? ?]. split; [done|]. by eapply grows_weaken.
Qed.

(** An update of the namespace that may panic. *)
Lemma update_ns_steps {A} ns k (f : Namespace -> exec (A * Namespace)) :
  0 <= k -> (wf ns -> next_inode ns + k <= u64_max -> holds (f ns) (fun r => wf r.2 /\ grows k ns r.2)) ->
  steps ns k (update_ns f).
Proof.
  intros Hk Hf s Es Hg Hr.
  assert (holds (f ns) (fun r => wf r.2 /\ grows k ns r.2)) as Hh
    by (apply Hf; [rewrite <- Es; apply Hg|done]).
  destruct (f ns) as [[a ns']|] eqn:E; [|done]. destruct Hh as [Hw Hgr].
  pose proof (put_ns_steps ns k ns' Hw Hgr s Es Hg Hr) as Hp.
  unfold runs, update_ns, bind, get_ns, of_exec, put_ns, ret in *. cbn. by rewrite Es, E.
Qed.

End Steps.

(** *** Entering nodes *)

Lemma get_node_valid ns i n : wf ns -> get_node ns i = Ok n -> nodes ns !! i = Some n /\ mount_valid ns n.
Proof.
  unfold get_node. intros Hw E. destruct (nodes ns !! i) as [n'|] eqn:Ei; [|done]. injection E as ->.
  split; [done|]. by destruct (wf_nodes ns Hw i n Ei) as (_ & _ & _ & ?).
Qed.

Lemma finds_grows t ns r : finds_node t ns r -> wf r.2 /\ grows 1 ns r.2.
Proof. intros (Hw & He & _). split; [done|]. split; [apply He|apply (ext_next _ _ He)]. Qed.

Lemma count_lookup_wf ns i n f :
  wf ns -> nodes ns !! i = Some n ->
  n_inode f = n_inode n -> n_kind f = n_kind n ->
  lookup_count f = saturating_add u64_max (lookup_count n) 1 ->
  wf (set_nodes (fun m => <[i := f]> m) ns).
Proof.
  intros Hw Hi Ei Ek Ec. eapply wf_update_node; [done..| |by rewrite Ek].
  destruct (wf_nodes ns Hw i n Hi) as (? & ? & ? & Hm). unfold node_ok. rewrite Ei, Ek, Ec.
  split_and!; try done; try lia; by apply count_range.
Qed.

Lemma counted_entry_holds k ns i t m :
  wf ns -> tag ns i = Some t -> 0 <= k ->
  holds (counted_entry i m ns) (fun r => wf r.2 /\ grows k ns r.2).
Proof.
  intros Hw (n & Hn & _)%tag_lookup Hk. unfold counted_entry. rewrite Hn. cbn [holds snd].
  split; [by eapply count_lookup_wf|]. split; cbn; [done|lia].
Qed.

Lemma entered_holds t (g : Namespace -> exec (Z * Namespace)) m ns :
  holds (g ns) (finds_node t ns) ->
  holds (let! (inode, ns) := g ns in counted_entry inode m ns) (fun r => wf r.2 /\ grows 1 ns r.2).
Proof.
  destruct (g ns) as [[i ns1]|]; [|done]. cbn [holds exec_bind]. intros Hf.
  pose proof (finds_grows _ _ _ Hf) as [_ Hg]. destruct Hf as (Hw & _ & Ht).
  pose proof (counted_entry_holds 0 ns1 i t m Hw Ht) as Hc. cbn [fst snd] in *.
  destruct (counted_entry i m ns1) as [[e ns2]|]; cbn [holds] in *; [|by apply Hc].
  destruct Hc as [? Hg2]; [done|]. split; [done|].
  rewrite <- (Z.add_0_r 1). by eapply grows_trans.
Qed.

Section Handled.
Context {W : Type} `{HostOs W} (ro : regime).

Local Notation fsM := (Namespace.fsM (W := W)).
Local Notation steps := (steps (W := W) ro).
Local Notation quiet := (quiet (W := W) ro).

Lemma enter_host_steps ns mt rel md :
  (mt < List.length (ns_mounts ns))%nat -> steps ns 1 (update_ns (entry_for_host_metadata mt rel md)).
Proof.
  intros Hm. apply update_ns_steps; [lia|]. intros Hw Hr.
  eapply (entered_holds _ (get_or_create_host_node mt rel md)).
  apply get_or_create_host_holds; [done|lia|done].
Qed.

Lemma enter_shadow_steps ns mt rel md :
  (mt < List.length (ns_mounts ns))%nat -> steps ns 1 (update_ns (entry_for_shadow_metadata mt rel md)).
Proof.
  intros Hm. apply update_ns_steps; [lia|]. intros Hw Hr.
  eapply (entered_holds _ (get_or_create_shadow_node mt rel md)).
  apply get_or_create_shadow_holds; [done|lia|done].
Qed.

Lemma steps_node {B} ns k i (f : Node -> fsM B) :
  0 <= k -> (forall n, nodes ns !! i = Some n -> mount_valid ns n -> steps ns k (f n)) ->
  steps ns k (bind (lift (get_node ns i)) f).
Proof.
  intros Hk Hf. apply steps_good. intros Hw _. apply steps_lift; [done|]. intros n E.
  destruct (get_node_valid ns i n Hw E). by apply Hf.
Qed.

Lemma steps_child {B} ns k p name (f : nat * string -> fsM B) :
  0 <= k -> (forall mt rel, (mt < List.length (ns_mounts ns))%nat -> steps ns k (f (mt, rel))) ->
  steps ns k (bind (host_child_location ns p name) f).
Proof.
  intros Hk Hf s Es Hg Hr. destruct (validate_single_path_component name) as [[]|e] eqn:Ev;
    [|eapply (steps_pure ro ns k); try done; intros s' _; unfold bind, host_child_location, lift;
      rewrite Ev; by eexists].
  destruct (get_node ns p) as [n|e] eqn:En;
    [|eapply (steps_pure ro ns k); try done; intros s' _; unfold bind, host_child_location, lift;
      rewrite Ev; cbn; rewrite En; by eexists].
  destruct (get_node_valid ns p n) as [_ Hv]; [rewrite <- Es; apply Hg|done|].
  destruct (host_location_ret ns n Hv) as (l & El & Hl).
  enough (steps ns k (bind (match l with
    | None => throw (OsError EROFS)
    | Some (mt, rel) => ret (mt, path_join rel name) end) f)) as Hs.
  - specialize (Hs s Es Hg Hr). unfold runs, bind, host_child_location, lift, of_exec in *.
    rewrite Ev. cbn. rewrite En. cbn. rewrite El. exact Hs.
  - destruct l as [[mt rel]|].
    + intros s' Es' Hg' Hr'. apply runs_bind. eapply runs_here; [done|]. apply Hf; try done. by eapply Hl.
    + apply steps_pure; [done|]. by eexists.
Qed.

Lemma steps_location {B} ns k n (f : option (nat * string) -> fsM B) :
  mount_valid ns n ->
  (forall l, (forall mt rel, l = Some (mt, rel) -> (mt < List.length (ns_mounts ns))%nat) -> steps ns k (f l)) ->
  steps ns k (bind (of_exec (file_or_dir_location ns n)) f).
Proof.
  intros Hv Hf. destruct (file_or_dir_location_ret ns n Hv) as (l & El & Hl).
  eapply steps_exec; [exact El|]. by apply Hf.
Qed.

(** *** Handles and locks *)

Lemma steps_handle {B} ns k i h (f : FileHandle -> fsM B) :
  0 <= k -> (forall file, (ro = true :> bool -> h_writable file = false) -> steps ns k (f file)) ->
  steps ns k (with_file_handle i h f).
Proof.
  intros Hk Hf s Es Hg Hr. unfold with_file_handle. apply runs_bind. eapply runs_here; [done|].
  apply (steps_lift ro ns); try done. intros file E. apply Hf.
  unfold find_handle in E. destruct (h_files (fs_handles s) !! h) as [fh|] eqn:Eh; [|done].
  cbn in E. case_match; [done|]. injection E as ->. apply (good_handles ro s Hg h file Eh).
Qed.

Lemma insert_handle_steps ns k i file w p :
  0 <= k -> (ro = true :> bool -> w = false) -> steps ns k (insert_file_handle i file w p).
Proof.
  intros Hk Hw. apply steps_quiet_bind; [done|apply os_harmless, fstat_calls|]. intros md s Es Hg Hr.
  unfold runs. cbn. split; [exists []; by rewrite (right_id_L [] (++))|].
  rewrite Es. split; [|by apply grows_refl]. destruct Hg as [? ? Hh ? ?].
  split; cbn; [congruence|intros; rewrite <- Es; auto| |congruence|intros; rewrite <- Es; auto].
  by apply map_Forall_insert_2.
Qed.

Lemma get_locks_quiet : quiet get_locks.
Proof. intros s Hg. by eapply runs_here. Qed.

Lemma put_locks_quiet l : quiet (put_locks l).
Proof.
  intros s Hg. unfold runs. cbn. split; [exists []; by rewrite (right_id_L [] (++))|].
  split; [|done]. by destruct Hg.
Qed.

Lemma retain_steps ns k keep : 0 <= k -> steps ns k (retain keep).
Proof.
  intros Hk. apply steps_quiet_bind; [done|apply get_locks_quiet|]. intros l.
  apply steps_quiet; [done|apply put_locks_quiet].
Qed.

Lemma reopen_calls h :
  (ro = true :> bool -> h_writable h = false) -> calls (allowed ro) (reopen_lock_file (W := W) h).
Proof.
  intros Hh. unfold reopen_lock_file. apply calls_bind.
  - apply open_absolute_calls. intros c. split; [done|]. intros E. rewrite (Hh E). done.
  - intros file. apply calls_bind; [eapply calls_weaken; [apply harmless_allowed|apply fstat_calls]|].
    intros md. apply calls_lift_bind. intros _ _. apply calls_ret.
Qed.

Lemma steps_find {B} ns k i h (f : FileHandle -> fsM B) :
  0 <= k -> (forall file, (ro = true :> bool -> h_writable file = false) -> steps ns k (f file)) ->
  steps ns k (let* t := get_handles in let* file := lift (find_handle t i h) in f file).
Proof. apply steps_handle. Qed.

Lemma lock_file_steps ns k i h o : 0 <= k -> steps ns k (lock_file_for i h o).
Proof.
  intros Hk. apply steps_find; [done|]. intros fh Hfh.
  apply steps_quiet_bind; [done|apply get_locks_quiet|]. intros locks.
  case_match; [by apply steps_ret|]. apply steps_find; [done|]. intros fh' Hfh'.
  apply steps_quiet_bind; [done|by apply os_quiet, reopen_calls|]. intros file.
  apply steps_quiet_bind; [done|apply put_locks_quiet|]. intros _. by apply steps_ret.
Qed.

Lemma steps_then {A B} ns k (m : fsM A) (f : A -> fsM B) :
  0 <= k -> steps ns 0 m -> (forall a ns', steps ns' k (f a)) -> steps ns k (bind m f).
Proof. intros Hk Hm Hf. rewrite <- (Z.add_0_l k). apply steps_bind; [done..|]. intros. apply Hf. Qed.

(** *** The handlers *)

Ltac st_leaf :=
  first
  [ apply os_harmless; first
      [ apply fstat_calls | apply stat_beneath_calls | apply host_metadata_calls | apply attr_for_calls
      | apply entry_for_calls | by apply node_is_dir_calls | by apply dirent_type_calls
      | apply readlink_calls | apply access_calls | apply statvfs_calls | apply getxattr_calls
      | apply listxattr_calls | apply read_dir_calls | apply shadow_metadata_calls
      | by apply open_host_file_harmless ]
  | apply os_confined; [done|]; first
      [ apply mkdir_calls | apply mknod_calls | apply unlink_calls | apply symlink_calls
      | apply rename_calls | apply link_calls | apply setxattr_calls | apply removexattr_calls
      | apply open_host_file_confined | by apply open_beneath_calls ]
  | assumption ].

Ltac st :=
  lazymatch goal with
  | |- ComposedFs.steps _ _ _ (ret _) => apply steps_ret; lia
  | |- ComposedFs.steps _ _ _ (throw _) => apply steps_throw; lia
  | |- ComposedFs.steps _ _ _ (bind get_ns _) => apply steps_get
  | |- ComposedFs.steps _ _ _ (bind (lift (get_node _ _)) _) => apply steps_node; [lia|intros]
  | |- ComposedFs.steps _ _ _ (bind (lift (ensure_mount_writable _ _)) _) =>
      apply steps_writable; [lia|intros]
  | |- ComposedFs.steps _ _ _ (bind (lift _) _) => apply steps_lift; [lia|intros]
  | |- ComposedFs.steps _ _ _ (bind (host_child_location _ _ _) _) => apply steps_child; [lia|intros]
  | |- ComposedFs.steps _ _ _ (bind (of_exec (file_or_dir_location _ _)) _) =>
      apply steps_location; [done|intros]
  | |- ComposedFs.steps _ _ _ (bind (os_do _) _) => apply steps_quiet_bind; [lia|st_leaf|intros]
  | |- ComposedFs.steps _ _ _ (os_do _) => apply steps_quiet; [lia|st_leaf]
  end.

Lemma check_identity_quiet id file : quiet (os_do (check_identity id file)).
Proof.
  apply os_harmless. unfold check_identity. destruct id as [id|]; [|apply calls_ret].
  apply calls_bind; [apply fstat_calls|]. intros md s. by eapply runs_here.
Qed.

(** The directory that [ensure_shadow_parent] makes. *)
Lemma shadow_parent_dir ns mt m rel sr p d :
  ns_mounts ns !! mt = Some m -> safe_name (mt_id m) ->
  shadow_root_path ns mt = Ok sr -> shadow_relative_path ns mt rel = Ok p -> parent p = Some d ->
  shadow_dir [m] (path_join sr d).
Proof.
  unfold shadow_root_path, shadow_relative_path, host_mount. intros -> Hs Hsr Hp Hd. cbn in Hsr.
  destruct (mt_shadow_root_path m) as [path|] eqn:Ep; [|done]. injection Hsr as ->.
  destruct (validate_relative_path rel) as [[]|] eqn:Ev; [|done]. injection Hp as <-.
  destruct (parent_beneath _ _ _ Hs Ev Hd) as (names & ? & ?).
  exists m, sr, d, names. split_and!; try done. by apply list_elem_of_singleton.
Qed.

Lemma steps_shadow_parent {B} ns k mt rel (f : unit -> fsM B) :
  0 <= k -> steps ns k (f tt) -> steps ns k (bind (os_do (ensure_shadow_parent ns mt rel)) f).
Proof.
  intros Hk Hf. apply steps_mounts. intros Em Hid. apply steps_quiet_bind; [done| |by intros []].
  apply os_quiet. apply calls_lift_bind. intros sr Hsr. apply calls_lift_bind. intros p Hp.
  destruct (parent p) as [d|] eqn:Ed; [|apply calls_ret].
  apply (calls_sys (allowed ro) (CreateDirAll _)). split; [done|]. intros Hro _. eexists. split; [done|].
  destruct (ns_mounts ns !! mt) as [m|] eqn:E; [|by unfold shadow_root_path, host_mount in Hsr; rewrite E in Hsr].
  destruct (shadow_parent_dir ns mt m rel sr p d E) as (m' & path & d' & names & Hin & Hm'); try done.
  { exact (Forall_lookup_1 _ _ _ _ (Hid Hro) E). }
  apply list_elem_of_singleton in Hin as ->. exists m, path, d', names. split; [|done].
  rewrite <- Em. by eapply list_elem_of_lookup_2.
Qed.

Lemma getattr_steps ns i : steps ns 1 (getattr i).
Proof. unfold getattr. repeat st. Qed.

Lemma opendir_steps ns i : steps ns 1 (opendir i).
Proof. unfold opendir. repeat st. destruct (negb a); st. Qed.

Lemma readlink_steps ns i : steps ns 1 (readlink i).
Proof. unfold readlink. repeat st. destruct (host_file_location n) as [[mt rel]|]; repeat st. Qed.

Lemma statfs_steps ns i : steps ns 1 (statfs i).
Proof. unfold statfs. repeat st. destruct l as [[mt rel]|]; repeat st. Qed.

Lemma access_steps ns i mask : steps ns 1 (access i mask).
Proof.
  unfold access. repeat st. apply steps_quiet_bind; [lia| |intros _; destruct l as [[mt rel]|]; repeat st].
  intros s Hg. destruct (negb _); [destruct l as [[mt rel]|]|]; by eapply runs_here.
Qed.

Lemma make_child_steps ns p name make :
  (forall fd path, calls confined (make fd path)) -> steps ns 1 (make_child p name make).
Proof.
  intros Hm. unfold make_child. do 5 st.
  apply steps_quiet_bind; [lia|by apply os_confined|intros _]. st. by apply enter_host_steps.
Qed.

Lemma symlink_steps ns l p name : steps ns 1 (symlink l p name).
Proof. apply make_child_steps. intros. apply symlink_calls. Qed.

Lemma mkdir_steps ns p name mode umask : steps ns 1 (mkdir p name mode umask).
Proof. apply make_child_steps. intros. apply mkdir_calls. Qed.

Lemma mknod_steps ns p name mode rdev umask : steps ns 1 (mknod p name mode rdev umask).
Proof. unfold mknod. case_match; [st|]. apply make_child_steps. intros. apply mknod_calls. Qed.

Lemma unlink_steps ns p name : steps ns 1 (unlink p name).
Proof. unfold unlink. do 5 st. destruct a0; repeat st. Qed.

Lemma rmdir_steps ns p name : steps ns 1 (rmdir p name).
Proof. unfold rmdir. repeat st. Qed.

Lemma rename_steps ns od on nd nn flags : steps ns 1 (rename od on nd nn flags).
Proof.
  unfold rename. do 5 st. case_match; [st|]. do 3 st. destruct a1, a2; try st; [|repeat st].
  apply steps_shadow_parent; [lia|]. repeat st.
Qed.

Lemma link_steps ns i np nn : steps ns 1 (link i np nn).
Proof.
  unfold link. do 3 st. destruct (host_file_location n) as [[mt rel]|]; [|st]. st. case_match; [st|].
  st. destruct a0; [st|]. repeat st. by apply enter_host_steps.
Qed.

Lemma xattr_steps {B} ns i (f : nat * string * option HostIdentity -> fsM B) :
  (forall mt rel id, steps ns 1 (f (mt, rel, id))) -> steps ns 1 (bind (xattr_location ns i) f).
Proof.
  intros Hf s Es Hg Hr.
  assert (steps ns 1 (let* node := lift (get_node ns i) in
    let* location := of_exec (file_or_dir_location ns node) in
    match location with
    | None => throw (OsError EOPNOTSUPP)
    | Some (mount, relative_path) => f (mount, relative_path, host_identity node) end)) as Hs.
  { repeat st. destruct l as [[mt rel]|]; [apply Hf|st]. }
  specialize (Hs s Es Hg Hr). unfold runs, xattr_location, bind, lift, of_exec in *. cbn in *.
  destruct (get_node ns i) as [n|]; [|exact Hs]. cbn in *.
  destruct (file_or_dir_location ns n) as [[[mt rel]|]|]; exact Hs.
Qed.

Lemma xattr_file_steps {B} ns mt rel id (f : Z -> fsM B) :
  (forall file, steps ns 1 (f file)) -> steps ns 1 (bind (xattr_file ns mt rel id) f).
Proof.
  intros Hf s Es Hg Hr.
  assert (steps ns 1 (let* mount := lift (host_mount ns mt) in
    let* file := os_do (open_host_file_for_io mount rel O_RDONLY 0) in
    let* _ := os_do (check_identity id file) in f file)) as Hs.
  { st. st. apply steps_quiet_bind; [lia|apply check_identity_quiet|]. intros _. apply Hf. }
  specialize (Hs s Es Hg Hr). unfold runs, xattr_file, bind, lift, ret in *. cbn in *.
  destruct (host_mount ns mt) as [m|]; [|exact Hs]. cbn in *.
  destruct (os_do _ s) as [[[fd|] s1]|]; [|exact Hs..]. cbn in *.
  destruct (os_do _ s1) as [[[[]|] s2]|]; exact Hs.
Qed.

Lemma setxattr_steps ns i name v flags : steps ns 1 (setxattr i name v flags).
Proof. unfold setxattr. st. apply xattr_steps. intros. st. apply xattr_file_steps. intros. st. Qed.

Lemma getxattr_steps ns i name size : steps ns 1 (getxattr i name size).
Proof. unfold getxattr. st. apply xattr_steps. intros. apply xattr_file_steps. intros. st. Qed.

Lemma listxattr_steps ns i size : steps ns 1 (listxattr i size).
Proof. unfold listxattr. st. apply xattr_steps. intros. apply xattr_file_steps. intros. st. Qed.

Lemma removexattr_steps ns i name : steps ns 1 (removexattr i name).
Proof. unfold removexattr. st. apply xattr_steps. intros. st. apply xattr_file_steps. intros. st. Qed.

Lemma land_as_i32 flags mask : Z.land (Z.ones 32) mask = mask -> Z.land (as_i32 flags) mask = Z.land flags mask.
Proof.
  intros Hm. unfold as_i32. case_match; [done|]. rewrite <- Hm, !Z.land_assoc, !Z.land_ones by lia.
  replace (flags - 2 ^ 32) with (flags + (-1) * 2 ^ 32) by lia. by rewrite Z.mod_add by lia.
Qed.

Lemma open_not_mutating flags :
  open_flags_want_write flags = false -> Z.land flags O_CREAT = 0 -> open_mutates (as_i32 flags) = false.
Proof.
  unfold open_flags_want_write, open_mutates. intros Hw Hc.
  apply orb_false_iff in Hw as [Hw Ht]. rewrite Hw. cbn [orb].
  rewrite land_as_i32 by done. apply negb_false_iff, Z.eqb_eq in Ht. apply negb_false_iff, Z.eqb_eq.
  rewrite Z.land_lor_distr_r in *. apply Z.lor_eq_0_iff in Ht as [Ht _]. by rewrite Hc, Ht.
Qed.

(** Behind [if open_flags_want_write flags then ensure_mount_writable ...]. *)
Lemma steps_open_guard {B} ns k mt flags (f : unit -> fsM B) :
  0 <= k -> (ro = true :> bool -> Z.land flags O_CREAT = 0) ->
  ((ro = true :> bool -> open_flags_want_write flags = false /\ open_mutates (as_i32 flags) = false) ->
   steps ns k (f tt)) ->
  steps ns k (bind (if open_flags_want_write flags then lift (ensure_mount_writable ns mt) else ret tt) f).
Proof.
  intros Hk Hc Hf. destruct (open_flags_want_write flags) eqn:Ew.
  - apply steps_writable; [done|]. intros Ero. apply Hf. congruence.
  - apply steps_quiet_bind; [done|intros s Hg; by eapply runs_here|]. intros []. apply Hf.
    intros E. split; [done|]. by apply open_not_mutating; [|apply Hc].
Qed.

Lemma open_beneath_quiet fd p flags mode :
  (ro = true :> bool -> open_mutates flags = false) -> quiet (os_do (open_beneath_for_io fd p flags mode)).
Proof.
  intros Hf. apply os_quiet. destruct (open_mutates_cloexec flags) as [E1 _].
  apply open_beneath_calls; intros; split; try done; cbn; intros E; rewrite E1, (Hf E); done.
Qed.

Lemma open_host_quiet m p flags mode :
  (ro = true :> bool -> open_mutates flags = false) -> quiet (os_do (open_host_file_for_io m p flags mode)).
Proof.
  intros Hf. destruct (bool_decide (ro = true :> bool)) eqn:E.
  - apply bool_decide_eq_true in E. apply os_harmless, open_host_file_harmless. by apply Hf.
  - apply bool_decide_eq_false in E. apply os_confined; [by destruct (strict ro)|apply open_host_file_confined].
Qed.

Lemma open_steps ns i flags : (ro = true :> bool -> Z.land flags O_CREAT = 0) -> steps ns 1 (open i flags).
Proof.
  intros Hc. unfold open, open_shadow. do 2 st.
  destruct (shadow_file_location n) as [[mt rel]|].
  - apply steps_open_guard; [lia|done|]. intros Hf.
    apply steps_shadow_parent; [lia|]. do 2 st.
    apply steps_quiet_bind; [lia|apply open_beneath_quiet; naive_solver|intros file]. st.
    apply insert_handle_steps; [lia|naive_solver].
  - destruct (host_file_location n) as [[mt rel]|] eqn:El; [|st].
    apply steps_quiet_bind; [lia| |].
    { intros s Hg. destruct (n_kind n) as [| |mt'| |] eqn:Ek; try by eapply runs_here.
      destruct (lookup_lt_is_Some_2 (ns_mounts ns) mt') as [m Em]; [apply H1; by rewrite Ek|].
      eapply runs_here; [unfold bind, mount_index; by rewrite Em|done]. }
    intros [|]; [st|]. apply steps_open_guard; [lia|done|]. intros Hf. st.
    apply steps_quiet_bind; [lia|apply open_host_quiet; naive_solver|intros file].
    apply steps_quiet_bind; [lia|apply check_identity_quiet|intros _].
    apply insert_handle_steps; [lia|naive_solver].
Qed.

Lemma entered_handle_steps {A} ns (m : fsM Entry) file w p (g : Entry -> Z -> A) :
  ro = false :> bool -> steps ns 1 m ->
  steps ns 1 (let* e := m in let* h := insert_file_handle (e_inode e) file w p in ret (g e h)).
Proof.
  intros Hro Hm. rewrite <- (Z.add_0_r 1). apply steps_bind; [lia..|done|]. intros e ns' _ _.
  apply steps_then; [lia|by apply insert_handle_steps; [|congruence]|]. intros. st.
Qed.

Lemma create_steps ns p name mode flags umask : steps ns 1 (create p name mode flags umask).
Proof.
  unfold create. do 4 st. st. destruct a0.
  - apply steps_shadow_parent; [lia|]. do 2 st.
    apply steps_quiet_bind; [lia|apply open_beneath_quiet; congruence|intros file]. do 2 st.
    apply entered_handle_steps; [done|by apply enter_shadow_steps].
  - st. apply steps_quiet_bind; [lia|apply open_beneath_quiet; congruence|intros file]. st.
    apply entered_handle_steps; [done|by apply enter_host_steps].
Qed.

Lemma setattr_flags_runs ns n valid s :
  mount_valid ns n -> good ro s ->
  runs (allowed ro) (setattr_open_flags ns n valid) s (fun r s' =>
    (good ro s' /\ fs_ns s' = fs_ns s) /\
    forall f, r = Ok f -> setattr_wants_mutation valid = false -> open_mutates f = false).
Proof.
  intros Hv Hg. unfold setattr_open_flags. destruct (flags_contain valid SV_SIZE) eqn:E.
  - eapply runs_here; [done|]. split; [done|]. intros f _ Hm. exfalso.
    unfold flags_contain in E. rewrite (no_mutation_bits valid SV_SIZE Hm eq_refl) in E. done.
  - assert (quiet (os_do (node_is_dir ns n))) as Hq by by apply os_harmless, node_is_dir_calls.
    apply runs_bind. eapply (runs_mono _ _ _ (fun _ s' => good ro s' /\ fs_ns s' = fs_ns s)).
    + destruct (n_kind n) as [| |mt| |] eqn:Ek; try (by apply Hq); [by eapply runs_here|].
      destruct (lookup_lt_is_Some_2 (ns_mounts ns) mt) as [m Em]; [apply Hv; by rewrite Ek|].
      apply runs_bind. eapply runs_here; [unfold mount_index; by rewrite Em|]. cbn beta iota.
      destruct (bool_decide (mt_kind m = Dir)); [by eapply runs_here|by apply Hq].
    + intros [dir|e] s' ?; [|done]. eapply runs_here; [done|]. split; [done|].
      intros f [= <-] _. by destruct dir.
Qed.

Lemma setattr_tail_steps ns n mt rel i valid flags attr :
  (ro = true :> bool -> setattr_wants_mutation valid = false) ->
  (setattr_wants_mutation valid = false -> open_mutates flags = false) ->
  steps ns 1 (
    let* file := open_node_file ns n mt rel flags in
    let* _ := os_do (check_identity (host_identity n) file) in
    let* _ := os_do (apply_setattr file attr valid) in
    let* metadata := os_do (fstat_file file) in
    ret (attr_from_metadata i metadata, ATTR_TTL)).
Proof.
  intros Hro Hof. unfold open_node_file. apply steps_then; [lia| |].
  - destruct (is_shadow (n_kind n)); repeat (apply steps_lift; [lia|intros]);
      (apply steps_quiet; [lia|]); [apply open_beneath_quiet|apply open_host_quiet]; auto.
  - intros file ns'. apply steps_quiet_bind; [lia|apply check_identity_quiet|intros _].
    apply steps_quiet_bind; [lia| |intros _; repeat st].
    destruct (setattr_wants_mutation valid) eqn:E.
    + apply os_confined; [destruct (strict ro); [by discriminate Hro|done]|apply apply_setattr_calls].
    + by apply os_harmless, apply_setattr_harmless.
Qed.

Lemma setattr_steps ns i attr valid : steps ns 1 (setattr i attr valid).
Proof.
  unfold setattr. do 2 st.
  assert (exists l, match shadow_file_location n with
    | Some l => Ret (Some l) | None => file_or_dir_location ns n end = Ret l) as [l El].
  { destruct (shadow_file_location n); [by eexists|].
    destruct (file_or_dir_location_ret ns n) as (l & ? & _); eauto. }
  eapply steps_exec; [exact El|]. destruct l as [[mt rel]|]; [|destruct (valid =? 0); repeat st].
  assert ((ro = true :> bool -> setattr_wants_mutation valid = false) -> steps ns 1 (
    let* flags := setattr_open_flags ns n valid in
    let* file := open_node_file ns n mt rel flags in
    let* _ := os_do (check_identity (host_identity n) file) in
    let* _ := os_do (apply_setattr file attr valid) in
    let* metadata := os_do (fstat_file file) in
    ret (attr_from_metadata i metadata, ATTR_TTL))) as Ht.
  { intros Hro s Es Hg Hr. apply runs_bind.
    eapply runs_mono; [by apply setattr_flags_runs|]. intros [f|e] s' [[Hg' E] Hf].
    - apply (setattr_tail_steps ns n mt rel i valid f attr); try done; [by apply Hf|congruence].
    - split; [done|]. rewrite E, Es. by apply grows_refl. }
  destruct (setattr_wants_mutation valid) eqn:E.
  - apply steps_writable; [lia|]. intros Ero. apply Ht. congruence.
  - apply steps_quiet_bind; [lia|intros s Hg; by eapply runs_here|]. intros _. by apply Ht.
Qed.

Lemma getlk_steps ns i h o lock : steps ns 1 (getlk i h o lock).
Proof.
  apply steps_then; [lia|by apply lock_file_steps|]. intros file ns'. st.
  apply steps_quiet_bind; [lia|by apply os_harmless, (calls_sys harmless (FcntlLock _ _ _))|].
  intros r. by apply steps_quiet; [|intros s Hg; eapply runs_here].
Qed.

Lemma setlk_steps ns i h o lock : steps ns 1 (setlk i h o lock).
Proof.
  apply steps_then; [lia|by apply lock_file_steps|]. intros file ns'. st.
  apply steps_quiet_bind; [lia|by apply os_harmless, (calls_sys harmless (FcntlLock _ _ _))|].
  intros r. st.
Qed.

Lemma setlkw_steps `{!ClockLaws} ns i h o lock : steps ns 1 (setlkw i h o lock).
Proof.
  apply steps_then; [lia|by apply lock_file_steps|]. intros file ns'. st.
  apply steps_quiet_bind; [lia|apply os_harmless, lock_wait_calls|]. intros r. st.
Qed.

Lemma sys_steps ns c : harmless c -> steps ns 1 (os_do (sys c)).
Proof. intros Hc. apply steps_quiet; [lia|]. by apply os_harmless, calls_sys. Qed.

Lemma read_steps ns i h size off : steps ns 1 (read i h size off).
Proof. apply steps_handle; [lia|]. intros f _. by apply (sys_steps ns (ReadAt _ _ _)). Qed.

Lemma lseek_steps ns i h off wh : steps ns 1 (lseek i h off wh).
Proof. apply steps_handle; [lia|]. intros f _. by apply (sys_steps ns (Lseek _ _ _)). Qed.

Lemma fsync_steps ns i d h : steps ns 1 (fsync i d h).
Proof. apply steps_handle; [lia|]. intros f _. by apply (sys_steps ns (Fsync _ _)). Qed.

Lemma write_steps ns i h size off : steps ns 1 (write i h size off).
Proof.
  apply steps_handle; [lia|]. intros f Hf. destruct (h_writable f) eqn:E; cbn [negb]; [|st].
  apply steps_quiet; [lia|]. apply os_quiet, (calls_sys (allowed ro) (WriteAt _ _ _)).
  split; [done|]. intros Ero. specialize (Hf Ero). congruence.
Qed.

Lemma flush_steps ns i h o : steps ns 1 (flush i h o).
Proof.
  apply steps_then; [lia|apply steps_handle; [lia|intros; st]|]. intros _ ns'.
  apply steps_then; [lia|apply steps_handle; [lia|intros; st]|]. intros [dev ino] ns''.
  apply retain_steps. lia.
Qed.

Lemma release_steps ns i h fl o : steps ns 1 (release i h fl o).
Proof.
  intros s Es Hg Hr. unfold release. apply runs_bind. eapply runs_here; [done|].
  apply runs_bind. eapply runs_here; [done|].
  destruct (find_handle (fs_handles s) i h) as [f|e].
  2:{ split; [done|]. rewrite Es. apply grows_refl. lia. }
  apply runs_bind. set (s1 := mkFs (fs_os s) (fs_ns s) (mkHandles (next_handle (fs_handles s))
    (delete h (h_files (fs_handles s)))) (fs_locks s)).
  assert (good ro s1) as Hg1
    by (destruct Hg; split; [done|done| |done|done]; by apply map_Forall_delete).
  unfold runs at 1. cbn. split; [exists []; by rewrite (right_id_L [] (++))|].
  refine (steps_then ns 1 _ _ _ _ _ s1 Es Hg1 Hr); [lia| |].
  - destruct (fl && h_writable f); [|st]. apply steps_quiet; [lia|].
    by apply os_harmless, (calls_sys harmless (Fsync _ _)).
  - intros _ ns'. unfold remove_released_file_locks.
    destruct o; [|case_match]; (apply retain_steps; lia) || st.
Qed.

Lemma lift_quiet {A} (r : io_result A) : quiet (lift r).
Proof. intros s Hg. by eapply runs_here. Qed.

(** The namespace after [forget_inode]: same mounts, same next inode. *)
Lemma forget_grows i c ns : 0 <= c -> wf ns -> grows 0 ns (forget_inode i c ns).
Proof.
  intros Hc Hw. unfold forget_inode. case_match; [by apply grows_refl|].
  match goal with |- grows _ _ (prune_cold_inode _ ?x) => set (ns1 := x) end.
  destruct (prune_cold_cases i ns1) as [->|(n & t & _ & _ & _ & _ & ->)];
    [|unfold remove_keyed; destruct t]; split; cbn; done || lia.
Qed.

Lemma forget_steps ns i c : 0 <= c -> steps ns 1 (forget i c).
Proof.
  intros Hc. unfold forget. st. apply steps_good. intros Hw _.
  apply put_ns_steps; [by apply forget_wf|]. eapply grows_weaken; [by apply forget_grows|lia].
Qed.

Lemma batch_forget_steps ns qs : Forall (fun q => 0 <= q.2) qs -> steps ns 1 (batch_forget qs).
Proof.
  intros Hq. unfold batch_forget. st. apply steps_good. intros Hw _.
  assert (forall ns', wf ns' -> wf (foldl (fun ns '(inode, count) => forget_inode inode count ns) ns' qs)
    /\ grows 0 ns' (foldl (fun ns '(inode, count) => forget_inode inode count ns) ns' qs)) as Hf.
  { induction Hq as [|[i c] qs Hc _ IH]; intros ns' Hw'; cbn [foldl]; [by split; [|apply grows_refl]|].
    destruct (IH (forget_inode i c ns')) as [? Hg]; [by apply forget_wf|]. split; [done|].
    apply (grows_trans 0 0 _ (forget_inode i c ns')); [by apply forget_grows|done]. }
  destruct (Hf ns Hw) as [? ?]. apply put_ns_steps; [done|]. by eapply grows_weaken.
Qed.

Lemma get_host_steps ns mt rel md :
  (mt < List.length (ns_mounts ns))%nat -> steps ns 1 (update_ns (get_or_create_host_node mt rel md)).
Proof.
  intros Hm. apply update_ns_steps; [lia|]. intros Hw Hr.
  pose proof (get_or_create_host_holds mt rel md ns Hw) as Hh.
  destruct (get_or_create_host_node mt rel md ns) as [r|]; [|by apply Hh; [lia|]].
  by eapply finds_grows, Hh; [lia|].
Qed.

Lemma get_shadow_steps ns mt rel md :
  (mt < List.length (ns_mounts ns))%nat -> steps ns 1 (update_ns (get_or_create_shadow_node mt rel md)).
Proof.
  intros Hm. apply update_ns_steps; [lia|]. intros Hw Hr.
  pose proof (get_or_create_shadow_holds mt rel md ns Hw) as Hh.
  destruct (get_or_create_shadow_node mt rel md ns) as [r|]; [|by apply Hh; [lia|]].
  by eapply finds_grows, Hh; [lia|].
Qed.

Lemma count_steps {B} ns i (f : unit -> fsM B) :
  (forall ns', steps ns' 0 (f tt)) ->
  steps ns 0 (let* ns := get_ns in let* node := lift (get_node ns i) in
    let* _ := put_ns (set_nodes (fun m => <[i := count_lookup node]> m) ns) in f tt).
Proof.
  intros Hf. st. st. apply steps_good. intros Hw _.
  apply steps_then; [lia| |intros []; apply Hf].
  apply put_ns_steps; [by eapply count_lookup_wf|]. split; cbn; [done|lia].
Qed.

Lemma lookup_host_child_steps ns n name :
  mount_valid ns n -> steps ns 1 (lookup_host_child n name).
Proof.
  intros Hv. unfold lookup_host_child. st. destruct (host_location_ret ns n Hv) as (l & El & Hl).
  eapply steps_exec; [exact El|]. destruct l as [[mt rel]|]; [|st]. st. st.
  destruct (negb a0); [st|]. st. specialize (Hl _ _ eq_refl). destruct a1.
  - apply steps_quiet_bind; [lia|apply attempt_quiet; st_leaf|]. intros [md|e]; [|case_match; st].
    rewrite <- (Z.add_0_r 1). apply steps_bind; [lia..|by apply enter_shadow_steps|]. intros; st.
  - apply steps_quiet_bind; [lia|apply attempt_quiet; st_leaf|]. intros [md|e]; [|case_match; st].
    rewrite <- (Z.add_0_r 1). apply steps_bind; [lia..|by apply get_host_steps|].
    intros i ns' _ _. refine (count_steps ns' i (fun _ => ret _) _). intros; st.
Qed.

Lemma lookup_steps ns p name : steps ns 1 (lookup p name).
Proof.
  unfold lookup. do 4 st. destruct (child_of ns p a) as [i|].
  - st. apply steps_good. intros Hw _. apply steps_then; [lia| |].
    + apply put_ns_steps; [by eapply count_lookup_wf|]. split; cbn; [done|lia].
    + intros _ ns'. st.
  - rewrite <- (Z.add_0_r 1). apply steps_bind; [lia..|by apply lookup_host_child_steps|].
    intros [[i e]|] ns' _ _; st.
Qed.

(** *** Listing a directory *)

Lemma list_children_quiet ns off budget cs l :
  wf ns -> quiet (list_children ns off budget cs l).
Proof.
  intros Hw. revert l. induction cs as [|[name c] cs IH]; intros l s Hg; cbn [list_children];
    [by eapply runs_here|].
  destruct (next_name off budget name l) as [l'|l'|l']; [by apply IH|by eapply runs_here|].
  apply runs_bind. eapply runs_here; [done|]. destruct (get_node ns c) as [n|e] eqn:En; [|done].
  apply get_node_valid in En as [_ Hv]; [|done]. apply runs_bind.
  eapply runs_mono; [apply os_harmless; [by apply dirent_type_calls|done]|].
  intros [t|e] s1 [Hg1 E1]; [|done]. apply runs_bind. eapply runs_here; [done|].
  destruct (push_entry l' c t name) as [l''|]; [|done].
  eapply runs_mono; [by apply IH|]. intros r s2 [? E2]. split; [done|congruence].
Qed.

Lemma push_entry_len l i t name l' :
  push_entry l i t name = Ok l' -> len (ls_entries l') = len (ls_entries l) + 1.
Proof.
  unfold push_entry. destruct (map_err _ _); [|done]. intros [= <-]. cbn. by rewrite len_app.
Qed.

Lemma next_name_entries off budget name l l' :
  next_name off budget name l = Skip l' \/ next_name off budget name l = Take l' ->
  ls_entries l' = ls_entries l /\
  (next_name off budget name l = Take l' -> len (ls_entries l) < budget).
Proof.
  unfold next_name. case_decide; [intros [[= <-]|?]; done|].
  cbn. destruct (_ <=? off); [intros [[= <-]|?]; done|].
  destruct (budget <=? _) eqn:E; b2p; [by intros [?|?]|]. intros [?|[= <-]]; [done|]. cbn. split; [done|lia].
Qed.

Lemma list_entries_steps keep node_for mt rel off budget es l ns :
  (forall ns rel md, (mt < List.length (ns_mounts ns))%nat -> steps ns 1 (update_ns (node_for mt rel md))) ->
  (mt < List.length (ns_mounts ns))%nat ->
  steps ns (Z.max 0 (budget - len (ls_entries l)))
    (list_entries keep node_for mt rel off budget es l).
Proof.
  intros Hnode. revert ns l. induction es as [|e es IH]; intros ns l Hm; cbn [list_entries]; [st|].
  st. st. destruct (negb (keep a)); [by apply IH|].
  destruct (next_name off budget (de_name e) l) as [l'|l'|l'] eqn:En; [|st|].
  - destruct (next_name_entries off budget (de_name e) l l') as [E _]; [by left|].
    rewrite <- E. by apply IH.
  - destruct (next_name_entries off budget (de_name e) l l') as [E Hlt]; [by right|].
    specialize (Hlt En). pose proof (len_nonneg (ls_entries l)).
    replace (Z.max 0 (budget - len (ls_entries l)))
      with (1 + (budget - len (ls_entries l) - 1)) by lia.
    apply steps_bind; [lia..|by apply Hnode|]. intros i ns' _ [Em _].
    apply steps_lift; [lia|]. intros l'' Hp. apply push_entry_len in Hp. rewrite E in Hp.
    eapply steps_weaken; [apply IH; by rewrite Em|lia].
Qed.

Lemma list_host_dir_steps mt rel off budget limit l ns :
  0 <= budget -> (mt < List.length (ns_mounts ns))%nat ->
  steps ns (2 * budget) (list_host_dir mt rel off budget limit l).
Proof.
  intros Hb Hm. unfold list_host_dir. st. st. st. pose proof (len_nonneg (ls_entries l)).
  replace (2 * budget) with (budget + budget) by lia. apply steps_bind; [lia..| |].
  - eapply steps_weaken; [apply list_entries_steps; [intros; by apply get_host_steps|done]|lia].
  - intros l' ns' _ [Em _]. pose proof (len_nonneg (ls_entries l')).
    destruct (mt_shadow_root a); [|st]. do 3 st.
    apply steps_quiet_bind; [lia|apply attempt_quiet; st_leaf|]. intros [es|e].
    + eapply steps_weaken; [apply list_entries_steps; [intros; by apply get_shadow_steps|by rewrite Em]|lia].
    + case_match; st.
Qed.

Lemma readdir_budget_nonneg size : 0 <= readdir_entry_budget size.
Proof. unfold readdir_entry_budget. case_match; lia. Qed.

Lemma readdir_steps ns i size off : steps ns (2 * readdir_entry_budget size) (readdir i size off).
Proof.
  pose proof (readdir_budget_nonneg size) as Hb. set (b := readdir_entry_budget size) in *.
  unfold readdir. fold b. do 3 st. destruct (negb a); [st|]. apply steps_good. intros Hw _.
  apply steps_quiet_bind; [lia| |].
  { destruct (children ns !! i); [by apply list_children_quiet|intros s Hg; by eapply runs_here]. }
  intros l. rewrite <- (Z.add_0_r (2 * b)). apply steps_bind; [lia..| |].
  - destruct (_ <? b); [|st]. destruct (host_location_ret ns n) as (loc & El & Hl); [done|].
    eapply steps_exec; [exact El|]. destruct loc as [[mt rel]|]; [|st].
    apply list_host_dir_steps; [done|by eapply Hl].
  - intros l' ns' Hw' _. st. destruct (prune_all_wf ns' Hw') as [? Hs].
    apply steps_then; [lia| |intros; st]. apply put_ns_steps; [done|].
    split; [apply (shed_mounts _ _ Hs)|]. rewrite (shed_next _ _ Hs). lia.
Qed.

End Handled.

(** *** Requests *)

(** What the transport guarantees: counts are unsigned. With [ro], [open] is not
    asked to create. *)
Definition request_ok (ro : bool) (q : request) : Prop :=
  match q with
  | QForget _ count => 0 <= count
  | QBatchForget requests => Forall (fun q => 0 <= q.2) requests
  | QOpen _ flags => ro = true -> Z.land flags O_CREAT = 0
  | _ => True
  end.


(** The inode numbers a request may use up. *)
Definition cost (q : request) : Z :=
  match q with QReaddir _ size _ => 2 * readdir_entry_budget size | _ => 1 end.

Fixpoint costs (qs : list request) : Z :=
  match qs with [] => 0 | q :: rest => cost q + costs rest end.

Lemma cost_nonneg q : 0 <= cost q.
Proof. destruct q; cbn [cost]; try lia. pose proof (readdir_budget_nonneg size). lia. Qed.

Lemma costs_nonneg qs : 0 <= costs qs.
Proof. induction qs as [|q qs IH]; cbn [costs]; [done|]. pose proof (cost_nonneg q). lia. Qed.

Section Served.
Context {W : Type} `{HostOs W} `{!ClockLaws} (ro : regime).

#[local] Hint Resolve lookup_steps forget_steps batch_forget_steps getattr_steps setattr_steps
  readlink_steps symlink_steps mknod_steps mkdir_steps unlink_steps rmdir_steps rename_steps
  link_steps open_steps create_steps read_steps write_steps statfs_steps release_steps fsync_steps
  flush_steps setxattr_steps getxattr_steps listxattr_steps removexattr_steps opendir_steps
  readdir_steps getlk_steps setlk_steps setlkw_steps access_steps lseek_steps : agentvm.

Lemma reply_steps {A} ns k (m : Namespace.fsM (W := W) A) f :
  0 <= k -> steps ro ns k m -> steps ro ns k (reply_of f m).
Proof.
  intros Hk Hm. rewrite <- (Z.add_0_r k). apply steps_bind; [lia..|done|]. intros a ns' _ _.
  by apply steps_ret.
Qed.

Lemma handle_request_steps ns q : request_ok ro q -> steps (W := W) ro ns (cost q) (handle_request q).
Proof.
  intros Hq. destruct q; cbn [handle_request cost request_ok] in *; unfold done_of;
    apply reply_steps; try lia; try (pose proof (readdir_budget_nonneg size); lia);
    try (by auto with agentvm nocore); apply steps_ret; lia.
Qed.

Lemma serve_steps ns qs : Forall (request_ok ro) qs -> steps (W := W) ro ns (costs qs) (serve qs).
Proof.
  revert ns. induction qs as [|q qs IH]; intros ns Hq; cbn [serve costs].
  - apply steps_ret. lia.
  - apply Forall_cons in Hq as [Hq Hqs]. pose proof (cost_nonneg q). pose proof (costs_nonneg qs).
    apply steps_bind; [lia..| |].
    + intros s Es Hg Hr. apply runs_attempt. by apply handle_request_steps.
    + intros r ns' _ _. rewrite <- (Z.add_0_r (costs qs)). apply steps_bind; [lia..|by apply IH|].
      intros. apply steps_ret. lia.
Qed.

End Served.

(** *** Sessions *)

Lemma serve_answers {W} `{HostOs W} qs (s : Fs W) r s' :
  serve qs s = Ret (r, s') -> exists rs, r = Ok rs /\ List.length rs = List.length qs.
Proof.
  revert s r s'. induction qs as [|q qs IH]; intros s r s'; cbn [serve].
  - intros [= <- _]. by exists [].
  - unfold bind, attempt, ret. destruct (handle_request q s) as [[r1 s1]|]; [|done]. cbn.
    destruct (serve qs s1) as [[rs s2]|] eqn:E; [|done]. cbn.
    destruct (IH _ _ _ E) as (rs' & -> & El). intros [= <- _].
    exists (r1 :: rs'). cbn. by rewrite El.
Qed.

Lemma serve_runs {W} `{HostOs W} `{!ClockLaws} (ro : regime) qs (s : Fs W) :
  good ro s -> Forall (request_ok ro) qs -> next_inode (fs_ns s) + costs qs <= u64_max ->
  exists rs s' new, serve qs s = Ret (Ok rs, s') /\ List.length rs = List.length qs /\
    trace (fs_os s') = (trace (fs_os s) ++ new)%list /\ Forall (allowed ro) new /\
    good ro s' /\ ns_mounts (fs_ns s') = ns_mounts (fs_ns s).
Proof.
  intros Hg Hq Hr. pose proof (serve_steps ro (fs_ns s) qs Hq s eq_refl Hg Hr) as Hs.
  unfold runs in Hs. destruct (serve qs s) as [[r s']|] eqn:E; [|done].
  destruct (serve_answers qs s r s' E) as (rs & -> & El).
  destruct Hs as [(n & En & Fn) [Hg' [Em _]]]. by exists rs, s', n.
Qed.

(** *** Requests that are refused *)

(** The handle a request works on. *)
Definition handle_of (q : request) : option (Z * Z) :=
  match q with
  | QRead i h _ _ | QWrite i h _ _ | QFsync i _ h | QFlush i h _ | QLseek i h _ _
  | QRelease i h _ _ | QGetlk i h _ _ | QSetlk i h _ _ | QSetlkw i h _ _ => Some (i, h)
  | _ => None
  end.

(** The name a request makes or removes in a directory. *)
Definition changed_child (q : request) : option (Z * string) :=
  match q with
  | QCreate p (Some name) _ _ _ | QMkdir p (Some name) _ _ | QSymlink _ p (Some name)
  | QUnlink p (Some name) | QRmdir p (Some name) => Some (p, name)
  | QMknod p (Some name) mode _ _ =>
      let kind := Z.land mode S_IFMT in
      if (kind =? 0) || (kind =? S_IFREG) || (kind =? S_IFIFO) then Some (p, name) else None
  | _ => None
  end.

Lemma find_handle_missing t i h :
  (forall f, h_files t !! h = Some f -> h_inode f <> i) -> find_handle t i h = Err (OsError EBADF).
Proof.
  intros Hn. unfold find_handle. destruct (h_files t !! h) as [f|]; [|done]. cbn.
  by rewrite (proj2 (Z.eqb_neq _ _)) by by apply Hn.
Qed.

Lemma find_handle_found t i h f :
  h_files t !! h = Some f -> h_inode f = i -> find_handle t i h = Ok f.
Proof. intros E <-. unfold find_handle. rewrite E. cbn. by rewrite Z.eqb_refl. Qed.

(** *** Locks *)

Lemma not_owned_false dev ino owner k :
  not_owned dev ino owner k = false <-> k = mkLockKey dev ino owner.
Proof.
  unfold not_owned. destruct k as [d i o]; cbn. rewrite !orb_false_iff, !negb_false_iff, !Z.eqb_eq.
  split; [by intros [[-> ->] ->]|by intros [= -> -> ->]].
Qed.

Lemma retain_lookup keep (m : gmap LockKey Z) k :
  filter (fun kv => keep kv.1 = true) m !! k = if keep k then m !! k else None.
Proof.
  destruct (keep k) eqn:E.
  - destruct (m !! k) as [v|] eqn:Ek.
    + apply map_lookup_filter_Some_2; done.
    + by apply map_lookup_filter_None_2; left.
  - apply map_lookup_filter_None_2. right. intros v _. cbn. congruence.
Qed.

(** *** Theorems *)

(** C5 (safety). Whatever requests a guest sends, in whatever order, and whatever
    the host kernel answers: the server does not panic, answers each request, and
    keeps the invariant of the namespace; its calls are confined, that is, calls
    relative to a directory name a single safe component, and [openat2] gets paths
    of plain names and resolves them beneath its root without magic links. Opens
    by absolute path, of file mounts and lock files, are not restricted. *)
Theorem session_confined {W} `{HostOs W} `{!ClockLaws} qs (s : Fs W) :
  wf (fs_ns s) -> Forall (request_ok false) qs -> next_inode (fs_ns s) + costs qs <= u64_max ->
  exists rs s' new, serve qs s = Ret (Ok rs, s') /\ List.length rs = List.length qs /\
    trace (fs_os s') = (trace (fs_os s) ++ new)%list /\ Forall confined new /\
    wf (fs_ns s') /\ ns_mounts (fs_ns s') = ns_mounts (fs_ns s).
Proof.
  intros Hw Hq Hr. destruct (serve_runs (mkRegime false (ns_mounts (fs_ns s))) qs s) as (rs & s' & n & E & El & Et & Fn & Hg & Em);
    [by split|done|done|].
  exists rs, s', n. split_and!; try done; [|apply Hg].
  eapply Forall_impl; [exact Fn|]. by intros c [? _].
Qed.

(** C10 (safety). When every mount is read-only and no handle is writable, no
    session in which [open] is not asked to create changes the host: the only
    mutating call makes directories, and those are the shadow root of a mount or
    go on from it with the mount's identifier and safe names. *)
Theorem readonly_session {W} `{HostOs W} `{!ClockLaws} qs (s : Fs W) :
  wf (fs_ns s) -> named_mounts (fs_ns s) -> all_readonly (fs_ns s) ->
  map_Forall (fun _ h => h_writable h = false) (h_files (fs_handles s)) ->
  Forall (request_ok true) qs -> next_inode (fs_ns s) + costs qs <= u64_max ->
  exists rs s' new, serve qs s = Ret (Ok rs, s') /\
    trace (fs_os s') = (trace (fs_os s) ++ new)%list /\
    Forall (fun c => mutates c = true ->
      exists p, c = CreateDirAll p /\ shadow_dir (ns_mounts (fs_ns s)) p) new /\
    map_Forall (fun _ h => h_writable h = false) (h_files (fs_handles s')).
Proof.
  intros Hw Hid Hro Hh Hq Hr.
  destruct (serve_runs (mkRegime true (ns_mounts (fs_ns s))) qs s) as (rs & s' & n & E & _ & Et & Fn & Hg & _); [|done|done|].
  { split; [done|done| |done|done]. by eapply map_Forall_impl; [exact Hh|]. }
  exists rs, s', n. split_and!; try done.
  - eapply Forall_impl; [exact Fn|]. intros c [_ Hc]. by apply Hc.
  - eapply map_Forall_impl; [apply Hg|]. intros k h Hk. by apply Hk.
Qed.

(** A request that makes or removes a name in a directory of a
    read-only mount answers [EROFS], before any call on the host and without a
    change of the server's state. *)
Theorem readonly_mount_refuses {W} `{HostOs W} q p name mt rel m (s : Fs W) :
  changed_child q = Some (p, name) ->
  host_child_location (fs_ns s) p name s = Ret (Ok (mt, rel), s) ->
  ns_mounts (fs_ns s) !! mt = Some m -> mt_access m = Ro ->
  handle_request q s = Ret (Err (OsError EROFS), s).
Proof.
  intros Hq Hl Hm Hro.
  assert (ensure_mount_writable (fs_ns s) mt = Err (OsError EROFS)) as Hw
    by (unfold ensure_mount_writable, host_mount; rewrite Hm; cbn; by rewrite Hro).
  assert (forall make, make_child p (Some name) make s = Ret (Err (OsError EROFS), s)) as Hmake
    by (intros make; unfold make_child, bind, lift, get_ns; cbn [to_str ok_or exec_bind]; rewrite Hl; cbn [exec_bind]; by rewrite Hw).
  destruct q; cbn in Hq; try done;
    repeat match type of Hq with context [match ?x with _ => _ end] => destruct x eqn:?; try done end;
    injection Hq as -> ->; cbn [handle_request]; unfold done_of, reply_of, symlink, mkdir, mknod;
    unfold bind at 1; try (by rewrite Hmake);
    try (unfold create, unlink, rmdir, bind, lift, get_ns; cbn [to_str ok_or exec_bind]; rewrite Hl; cbn [exec_bind]; by rewrite Hw).
  cbv zeta. rewrite <- !negb_orb, Heqb. cbn [negb]. by rewrite Hmake.
Qed.

(** A request on a handle that does not exist, or that was opened for
    another inode, answers [EBADF], makes no call and changes nothing. *)
Theorem wrong_handle_refused {W} `{HostOs W} q i h (s : Fs W) :
  handle_of q = Some (i, h) ->
  (forall f, h_files (fs_handles s) !! h = Some f -> h_inode f <> i) ->
  handle_request q s = Ret (Err (OsError EBADF), s).
Proof.
  intros Hq Hn%find_handle_missing. destruct q; cbn in Hq; try done; injection Hq as -> ->;
    cbn [handle_request]; unfold done_of, reply_of, read, write, fsync, flush, lseek, release, getlk,
      setlk, setlkw, lock_file_for, with_file_handle, bind, lift, get_handles; cbn; by rewrite Hn.
Qed.

(** [flush] drops exactly the locks the owner holds on the file
    behind the handle; locks of other owners and files, the handles, the namespace
    and the host are as before. *)
Theorem flush_drops_locks {W} `{HostOs W} i h owner f (s : Fs W) :
  h_files (fs_handles s) !! h = Some f -> h_inode f = i ->
  exists s', flush i h owner s = Ret (Ok tt, s') /\
    fs_os s' = fs_os s /\ fs_ns s' = fs_ns s /\ fs_handles s' = fs_handles s /\
    forall k, lk_files (fs_locks s') !! k =
      if decide (k = mkLockKey (h_dev f) (h_ino f) owner) then None else lk_files (fs_locks s) !! k.
Proof.
  intros Hf Hi. unfold flush, remove_locks_for_owner, with_file_handle, retain, bind, lift, get_handles,
    get_locks, put_locks. cbn. pose proof (find_handle_found _ i h f Hf Hi) as E.
  rewrite E. cbn. rewrite E. cbn.
  eexists. split; [done|]. split_and!; try done. intros k. cbn. rewrite retain_lookup.
  case_decide as Ek.
  - apply not_owned_false in Ek. by rewrite Ek.
  - destruct (not_owned (h_dev f) (h_ino f) owner k) eqn:En; [done|].
    by apply not_owned_false in En.
Qed.

(** *** What a listing looks like *)

Definition before (a b : OwnedDirEntry) : Prop := o_offset a < o_offset b \/ o_offset b = u64_max.

(** A page of a directory: within the budget, past the offset, in the order of
    the offsets, no name twice. *)
Record page (offset budget : Z) (es : list OwnedDirEntry) : Prop := {
  page_budget : len es <= budget;
  page_past : Forall (fun e => offset < o_offset e) es;
  page_sorted : StronglySorted before es;
  page_names : NoDup (map o_name es)
}.

Record listing_ok (offset budget : Z) (l : Listing) : Prop := {
  lo_page : page offset budget (ls_entries l);
  lo_seen : Forall (fun e => o_name e ∈ ls_seen l) (ls_entries l);
  lo_below : Forall (fun e => o_offset e <= ls_offset l) (ls_entries l);
  lo_offset : 0 <= ls_offset l <= u64_max
}.

Lemma seen_more offset budget l name :
  listing_ok offset budget l ->
  listing_ok offset budget
    (mkListing (ls_entries l) ({[ name ]} ∪ ls_seen l) (saturating_add u64_max (ls_offset l) 1)).
Proof.
  intros [Hp Hs Hb Ho]. split; cbn; [done| | |by apply count_range].
  - eapply Forall_impl; [exact Hs|]. cbn. intros e He. apply elem_of_union. by right.
  - eapply Forall_impl; [exact Hb|]. cbn. unfold saturating_add. lia.
Qed.

Lemma next_name_ok offset budget name l :
  listing_ok offset budget l ->
  match next_name offset budget name l with
  | Skip l' | Stop l' => listing_ok offset budget l'
  | Take l' => forall i t l'', push_entry l' i t name = Ok l'' -> listing_ok offset budget l''
  end.
Proof.
  intros Hl. unfold next_name. case_decide as Hin; [done|].
  pose proof (seen_more offset budget l name Hl) as Hl'.
  set (l' := mkListing _ _ _) in *. destruct (ls_offset l' <=? offset) eqn:E1; [done|].
  destruct (budget <=? len (ls_entries l')) eqn:E2; [done|]. b2p. intros i t l''.
  unfold push_entry, CString_new. destruct (contains_char NUL name); [done|]. cbn [map_err result_bind].
  intros [= <-]. destruct Hl' as [[P1 P2 P3 P4] Hs Hb Ho].
  assert (Forall (fun e => before e (mkOwned i (ls_offset l') t name)) (ls_entries l')) as Hbefore.
  { eapply Forall_impl; [apply (lo_below _ _ _ Hl)|]. intros e He. unfold before. cbn [o_offset].
    change (ls_offset l') with (saturating_add u64_max (ls_offset l) 1).
    destruct Hl as [_ _ _ [? ?]]. cbn beta in He. unfold saturating_add. lia. }
  cbn [ls_entries ls_seen ls_offset l'] in *. split; [split| | |done]; cbn [ls_entries ls_seen ls_offset].
  - rewrite len_app. change (len [_]) with 1. lia.
  - apply Forall_app. split; [done|]. constructor; [cbn; lia|done].
  - apply StronglySorted_app_2; [|done|by repeat constructor].
    intros x1 x2 H1 ->%list_elem_of_singleton. by eapply Forall_forall in Hbefore.
  - rewrite map_app. apply NoDup_app. split_and!; [done| |apply NoDup_singleton].
    intros x (e & -> & He)%list_elem_of_fmap Hx%list_elem_of_singleton.
    cbn in Hx. apply Hin. rewrite <- Hx. pose proof (lo_seen _ _ _ Hl) as Hseen. rewrite Forall_forall in Hseen. by apply Hseen.
  - apply Forall_app. split; [done|]. constructor; [|done]. cbn. apply elem_of_union. left.
    by apply elem_of_singleton.
  - apply Forall_app. split; [done|]. by constructor.
Qed.

Section Listings.
Context {W : Type} `{HostOs W}.

Lemma list_children_yields ns off budget cs l :
  listing_ok off budget l -> yields (list_children (W := W) ns off budget cs l) (listing_ok off budget).
Proof.
  revert l. induction cs as [|[name c] cs IH]; intros l Hl; cbn [list_children]; [by apply yields_ret|].
  pose proof (next_name_ok off budget name l Hl) as Hn.
  destruct (next_name off budget name l); [by apply IH|by apply yields_ret|].
  apply yields_any. intros n. apply yields_any. intros t. apply yields_lift. intros l' Hp.
  by eapply IH, Hn.
Qed.

Lemma list_entries_yields keep node_for mt rel off budget es l :
  listing_ok off budget l ->
  yields (list_entries (W := W) keep node_for mt rel off budget es l) (listing_ok off budget).
Proof.
  revert l. induction es as [|e es IH]; intros l Hl; cbn [list_entries]; [by apply yields_ret|].
  apply yields_any. intros ns. apply yields_any. intros fl. destruct (negb (keep fl)); [by apply IH|].
  pose proof (next_name_ok off budget (de_name e) l Hl) as Hn.
  destruct (next_name off budget (de_name e) l); [by apply IH|by apply yields_ret|].
  apply yields_any. intros i. apply yields_lift. intros l' Hp. by eapply IH, Hn.
Qed.

Lemma list_host_dir_yields mt rel off budget limit l :
  listing_ok off budget l ->
  yields (list_host_dir (W := W) mt rel off budget limit l) (listing_ok off budget).
Proof.
  intros Hl. do 3 (apply yields_any; intros). apply yields_bind. intros s l' s' E.
  pose proof (list_entries_yields _ _ _ _ _ _ _ _ Hl _ _ _ E) as Hl'.
  destruct (mt_shadow_root _); [|by apply yields_ret].
  do 3 (apply yields_any; intros). apply yields_any. intros [es|e]; [by apply list_entries_yields|].
  case_match; [by apply yields_ret|apply yields_throw].
Qed.

End Listings.

(** A page of a directory holds at most as many entries as the
    buffer of the guest admits, all past the offset asked for, in increasing
    order of their offsets, and no name twice, though it is merged from the
    static tree, the host's directory and the shadow store. *)
Theorem readdir_page {W} `{HostOs W} i size offset (s : Fs W) it s' :
  0 <= offset -> readdir i size offset s = Ret (Ok it, s') ->
  it_index it = 0%nat /\ page offset (readdir_entry_budget size) (it_entries it).
Proof.
  intros Ho. revert s it s'. pose proof (readdir_budget_nonneg size) as Hb.
  change (yields (readdir (W := W) i size offset) (fun it =>
    it_index it = 0%nat /\ page offset (readdir_entry_budget size) (it_entries it))).
  assert (listing_ok offset (readdir_entry_budget size) (mkListing [] ∅ 0)) as H0.
  { split; cbn; [split|..]; try constructor; done. }
  do 3 (apply yields_any; intros). destruct (negb _); [apply yields_throw|].
  apply yields_bind. intros s1 l s2 E1.
  assert (listing_ok offset (readdir_entry_budget size) l) as Hl.
  { revert E1. case_match; [by apply list_children_yields|by intros [= <- _]]. }
  apply yields_bind. intros s3 l' s4 E2.
  assert (listing_ok offset (readdir_entry_budget size) l') as Hl'.
  { revert E2. destruct (len (ls_entries l) <? readdir_entry_budget size); [|by intros [= <- _]].
    revert s3 l' s4. apply yields_any.
    intros [[mt rel]|]; [by apply list_host_dir_yields|by apply yields_ret]. }
  do 2 (apply yields_any; intros). apply yields_ret. split; [done|apply Hl'].
Qed.

(** *** Filtered names *)

(** The descriptors that are open after a call, when it is [openat2]. *)
Definition opened (open : list Z) (c : syscall) : result (answer c) Z -> list Z :=
  match c return result (answer c) Z -> list Z with
  | Openat2 _ _ _ _ _ => fun r => match r with Ok fd => fd :: open | Err _ => open end
  | _ => fun _ => open
  end.

(** A call that reaches files of a mount through its shadow store only, [fd]
    being the descriptor of the shadow root and [open] those that [openat2]
    answered before. *)
Definition in_shadow (m : MountRuntime) (fd : Z) (open : list Z) (c : syscall) : Prop :=
  match c with
  | Openat2 dir path _ _ resolve => dir = fd /\ path_ok path /\ resolve = RESOLVE_BENEATH_ROOT
  | CreateDirAll path => shadow_dir [m] path
  | Fstat file => file ∈ open
  | Unlinkat dir leaf _ => dir ∈ open /\ safe_name leaf
  | _ => False
  end.

Section Filtered.
Context {W : Type} `{HostOs W} (P : list Z -> syscall -> Prop).

(** The calls [cs], answered by the kernel one after the other, each allowed by
    [P] with the descriptors opened before it. *)
Inductive answered : W -> list Z -> list syscall -> W -> list Z -> Prop :=
| answered_nil w open : answered w open [] w open
| answered_cons w open c r w1 cs w2 open2 :
    P open c -> kernel w c = (r, w1) -> answered w1 (opened open c r) cs w2 open2 ->
    answered w open (c :: cs) w2 open2.

Lemma answered_app w open cs w1 open1 cs' w2 open2 :
  answered w open cs w1 open1 -> answered w1 open1 cs' w2 open2 ->
  answered w open (cs ++ cs') w2 open2.
Proof. induction 1; [done|]. intros. cbn. econstructor; eauto. Qed.

(** [tracks os m s open Q]: from [s] on, [m] does not panic, its calls are
    allowed, and its outcome, the state, the open descriptors and the calls
    satisfy [Q]. *)
Definition tracks {S A} (os : S -> Os W) (m : M S A) (s : S) (open : list Z)
  (Q : io_result A -> S -> list Z -> list syscall -> Prop) : Prop :=
  match m s with
  | Ret (r, s') => exists cs open', trace (os s') = (trace (os s) ++ cs)%list /\
      answered (world (os s)) open cs (world (os s')) open' /\ Q r s' open' cs
  | Panic => False
  end.

Lemma tracks_here {S A} (os : S -> Os W) (m : M S A) s open r s' Q :
  m s = Ret (r, s') -> os s' = os s -> Q r s' open [] -> tracks os m s open Q.
Proof.
  unfold tracks. intros -> -> HQ. exists [], open. rewrite (right_id_L [] (++)).
  split_and!; [done|constructor|done].
Qed.

Lemma tracks_mono {S A} (os : S -> Os W) (m : M S A) s open (Q Q' : _ -> _ -> _ -> _ -> Prop) :
  tracks os m s open Q -> (forall r s' open' cs, Q r s' open' cs -> Q' r s' open' cs) ->
  tracks os m s open Q'.
Proof.
  unfold tracks. destruct (m s) as [[r s']|]; [|done]. intros (cs & o & ? & ? & HQ) HQ'.
  exists cs, o. split_and!; auto.
Qed.

Lemma tracks_bind {S A B} (os : S -> Os W) (m : M S A) (k : A -> M S B) s open Q :
  tracks os m s open (fun r s' open' cs => match r with
    | Ok a => tracks os (k a) s' open' (fun r' s'' open'' cs' => Q r' s'' open'' (cs ++ cs')%list)
    | Err e => Q (Err e) s' open' cs
    end) -> tracks os (bind m k) s open Q.
Proof.
  unfold tracks at 1 3, bind. destruct (m s) as [[[a|e] s1]|]; [| |done]; cbn [exec_bind].
  - intros (cs & o & Et & Ha & Hk). unfold tracks in Hk. destruct (k a s1) as [[r s2]|]; [|done].
    destruct Hk as (cs' & o' & Et' & Ha' & HQ). exists (cs ++ cs')%list, o'.
    rewrite Et', Et, (assoc_L (++)). split_and!; [done|by eapply answered_app|done].
  - done.
Qed.

Lemma tracks_lift {S A B} (os : S -> Os W) (r : io_result A) (k : A -> M S B) s open Q :
  (forall a, r = Ok a -> tracks os (k a) s open Q) ->
  (forall e, r = Err e -> Q (Err e) s open []) -> tracks os (bind (lift r) k) s open Q.
Proof.
  intros Hk He. apply tracks_bind. eapply tracks_here; [done..|]. destruct r as [a|e]; [|by apply He].
  eapply tracks_mono; [by apply Hk|]. done.
Qed.

Lemma tracks_sys c os open (Q : _ -> _ -> _ -> _ -> Prop) :
  P open c ->
  (forall r w, kernel (world os) c = (r, w) ->
     Q (match r with Ok a => Ok a | Err code => Err (OsError code) end)
       (mkOs w (trace os ++ [c])) (opened open c r) [c]) ->
  tracks id (sys c) os open Q.
Proof.
  intros Hc HQ. unfold tracks, sys. destruct (kernel (world os) c) as [r w] eqn:E. cbn.
  exists [c], (opened open c r). split_and!; [done| |by apply HQ].
  econstructor; [done|done|constructor].
Qed.

Lemma tracks_os {A} (m : io (W := W) A) (s : Fs W) open Q :
  tracks id m (fs_os s) open (fun r os open' cs =>
    Q r (mkFs os (fs_ns s) (fs_handles s) (fs_locks s)) open' cs) ->
  tracks fs_os (os_do m) s open Q.
Proof. unfold tracks, os_do. by destruct (m (fs_os s)) as [[r os]|]. Qed.

Lemma tracks_attempt {S A} (os : S -> Os W) (m : M S A) s open Q :
  tracks os m s open (fun r s' open' cs => Q (Ok r) s' open' cs) -> tracks os (attempt m) s open Q.
Proof. unfold tracks, attempt. by destruct (m s) as [[r s1]|]. Qed.

(** Opening a path beneath a directory asks the kernel once, and the descriptor
    it returns is open. *)
Lemma tracks_open fd p flags mode os open (Q : _ -> _ -> _ -> _ -> Prop) :
  let call path := Openat2 fd path (Z.lor flags O_CLOEXEC) (Z.land mode 0xfff) RESOLVE_BENEATH_ROOT in
  let path := if bool_decide (p = "") then "." else p in
  (path_ok path -> P open (call path)) ->
  (forall r os' open' cs, (forall file, r = Ok file -> file ∈ open' /\ call path ∈ cs) -> Q r os' open' cs) ->
  tracks id (open_beneath_with_mode fd p flags mode) os open Q.
Proof.
  intros call path HP HQ. unfold open_beneath_with_mode, open_beneath_with_mode_impl.
  apply tracks_lift; [|intros; by apply HQ]. intros [] Hv. apply tracks_lift; [|intros; by apply HQ].
  intros c Hc. apply tracks_bind, tracks_attempt, tracks_sys.
  - unfold CString_new in Hc. case_match; [done|]. injection Hc as <-. apply HP. unfold path_ok, path.
    unfold validate_relative_path in Hv. case_bool_decide; [by left|right]. by case_match.
  - intros r w _. unfold CString_new in Hc. case_match; [done|]. injection Hc as <-. destruct r as [file|e].
    + eapply tracks_here; [done..|]. apply HQ. intros ? [= <-]. split; [by left|]. by left.
    + cbn beta iota. destruct (bool_decide _ || _); (eapply tracks_here; [done..|]; by apply HQ).
Qed.

End Filtered.

(** Between two states of the server, [cs] are the calls made, and they reach the
    mount's files through its shadow store only. *)
Definition shadowed {W} `{HostOs W} (m : MountRuntime) (fd : Z) (s : Fs W) (cs : list syscall) (s' : Fs W) : Prop :=
  trace (fs_os s') = (trace (fs_os s) ++ cs)%list /\
  exists open, answered (in_shadow m fd) (world (fs_os s)) [] cs (world (fs_os s')) open.

Lemma tracks_shadowed {W A} `{HostOs W} m fd (k : Namespace.fsM (W := W) A) s (Q : io_result A -> list syscall -> Prop) :
  tracks (in_shadow m fd) fs_os k s [] (fun r _ _ cs => Q r cs) ->
  exists r s' cs, k s = Ret (r, s') /\ shadowed m fd s cs s' /\ Q r cs.
Proof.
  unfold tracks. destruct (k s) as [[r s']|]; [|done]. intros (cs & o & ? & ? & ?).
  exists r, s', cs. split_and!; try done. split; [done|]. by exists o.
Qed.

Section FilteredOps.
Context {W : Type} `{HostOs W} (m : MountRuntime) (fd : Z) (mt : nat) (rel : string) (s0 : Fs W).
Hypothesis (Hmount : ns_mounts (fs_ns s0) !! mt = Some m) (Hid : safe_name (mt_id m)).
Hypothesis (Hfd : mt_shadow_root m = Some fd).

(** Where the shadow of the file is, beneath the shadow root. *)
Let shadow : string := path_join (mt_id m) rel.

Lemma shadow_relative_is q : shadow_relative_path (fs_ns s0) mt rel = Ok q -> q = shadow /\ q <> "".
Proof using Hmount Hid.
  unfold shadow_relative_path, host_mount. destruct (validate_relative_path rel) as [[]|] eqn:Ev; [|done].
  rewrite Hmount. intros [= <-]. split; [done|]. apply validate_relative_names in Ev as [Ea _].
  unfold path_join. rewrite Ea, bool_decide_false by apply Hid. destruct (mt_id m); [by destruct Hid|].
  by case_match.
Qed.

Lemma shadow_fd_is : shadow_root_fd (fs_ns s0) mt = Ok fd.
Proof using Hmount Hfd. unfold shadow_root_fd, host_mount. by rewrite Hmount; cbn; rewrite Hfd. Qed.

Lemma shadow_parent_tracks open (s : Fs W) (Q : _ -> _ -> _ -> _ -> Prop) :
  (forall r s' open' cs, fs_ns s' = fs_ns s -> Q r s' open' cs) ->
  tracks (in_shadow m fd) fs_os (os_do (ensure_shadow_parent (fs_ns s0) mt rel)) s open Q.
Proof using Hmount Hid.
  intros HQ. apply tracks_os. unfold ensure_shadow_parent. apply tracks_lift; [|intros; by apply HQ].
  intros sr Hsr. apply tracks_lift; [|intros; by apply HQ]. intros q Hq.
  destruct (parent q) as [d|] eqn:Ed; [|eapply tracks_here; [done..|]; by apply HQ].
  apply (tracks_sys _ (CreateDirAll _)); [|intros; by apply HQ].
  by eapply shadow_parent_dir.
Qed.

Lemma fstat_tracks open file (s : Fs W) (Q : _ -> _ -> _ -> _ -> Prop) :
  file ∈ open -> (forall r s' cs, fs_ns s' = fs_ns s -> Q r s' open cs) ->
  tracks (in_shadow m fd) fs_os (os_do (fstat_file file)) s open Q.
Proof.
  intros Hf HQ. apply tracks_os, (tracks_sys _ (Fstat file)); [done|]. intros r w _. by apply HQ.
Qed.

(** Creating: the file is opened beneath the shadow root with [O_CREAT]. *)
Lemma create_shadow_tracks mode flags umask p name :
  wf (fs_ns s0) -> next_inode (fs_ns s0) < u64_max ->
  host_child_location (fs_ns s0) p name s0 = Ret (Ok (mt, rel), s0) ->
  filtered_path (fs_ns s0) mt rel = Ok true ->
  tracks (in_shadow m fd) fs_os (create p (Some name) mode flags umask) s0 [] (fun r _ _ cs =>
    forall x, r = Ok x ->
      Openat2 fd shadow (Z.lor (Z.lor (as_i32 flags) O_CREAT) O_CLOEXEC)
        (Z.land (Z.ldiff mode umask) 0xfff) RESOLVE_BENEATH_ROOT ∈ cs).
Proof using Hmount Hid Hfd.
  intros Hwf Hroom Hl Hf. unfold create. apply tracks_lift; [intros ? [= <-]|done]. apply tracks_bind.
  eapply tracks_here; [done..|]. cbn beta iota. apply tracks_bind. eapply tracks_here; [exact Hl|done|]. cbn beta iota.
  apply tracks_lift; [intros _ _|done]. apply tracks_lift; [|done]. rewrite Hf. intros ? [= <-].
  apply tracks_bind, shadow_parent_tracks. intros [[]|e] s1 o1 c1 E1; [|done].
  apply tracks_lift; [|done]. intros q [-> Hne]%shadow_relative_is.
  apply tracks_lift; [|done]. rewrite shadow_fd_is. intros ? [= <-].
  apply tracks_bind, tracks_os, tracks_open; [done|].
  rewrite bool_decide_false by done. intros [file|e] os2 o2 c2 Ho; [|done].
  destruct (Ho file eq_refl) as [Hin Hcall]. clear Ho.
  apply tracks_bind, fstat_tracks; [done|]. intros [md|e] s3 c3 E3; [|done]. cbn in E3.
  apply tracks_lift; [|done]. intros sp _. apply tracks_bind.
  assert ((mt < List.length (ns_mounts (fs_ns s0)))%nat) as Hm by (by eapply lookup_lt_Some).
  pose proof (entered_holds _ (get_or_create_shadow_node mt rel md) md (fs_ns s0)
    (get_or_create_shadow_holds mt rel md (fs_ns s0) Hwf Hroom Hm)) as He.
  destruct (entry_for_shadow_metadata mt rel md (fs_ns s0)) as [[e ns']|] eqn:Ee;
    [|unfold entry_for_shadow_metadata in Ee; rewrite Ee in He; done].
  eapply tracks_here; [unfold update_ns, bind, get_ns, of_exec, put_ns, ret; cbn; rewrite E3, E1, Ee; done|done|].
  cbn beta iota. apply tracks_bind. apply tracks_bind, fstat_tracks; [done|].
  intros [md'|e'] s4 c4 _; [|done]. eapply tracks_here; [by unfold bind, get_handles, put_handles, ret; cbn|done|]. cbn beta iota.
  eapply tracks_here; [done..|]. intros x _. set_solver.
Qed.

(** Unlinking: the name is removed from a directory opened beneath the shadow root. *)
Lemma unlink_shadow_tracks p name :
  host_child_location (fs_ns s0) p name s0 = Ret (Ok (mt, rel), s0) ->
  filtered_path (fs_ns s0) mt rel = Ok true ->
  tracks (in_shadow m fd) fs_os (unlink p (Some name)) s0 [] (fun r _ _ cs =>
    r = Ok tt -> exists dir leaf, Unlinkat dir leaf 0 ∈ cs /\ file_name shadow = Some leaf).
Proof using Hmount Hid Hfd.
  intros Hl Hf. unfold unlink. apply tracks_lift; [intros ? [= <-]|done]. apply tracks_bind.
  eapply tracks_here; [done..|]. cbn beta iota. apply tracks_bind. eapply tracks_here; [exact Hl|done|]. cbn beta iota.
  apply tracks_lift; [intros _ _|done]. apply tracks_lift; [|done]. rewrite Hf. intros ? [= <-].
  apply tracks_lift; [|done]. intros q [-> Hne]%shadow_relative_is.
  apply tracks_lift; [|done]. rewrite shadow_fd_is. intros ? [= <-].
  apply tracks_os. unfold unlink_beneath, with_parent_dir. apply tracks_lift; [|done].
  intros [dir leaf] Hp. apply tracks_bind, tracks_open; [done|]. intros [d|e] os1 o1 c1 Ho; [|done].
  destruct (Ho d eq_refl) as [Hin _].
  assert (file_name shadow = Some leaf) as Hleaf.
  { revert Hp. unfold parent_and_leaf, CString_new. destruct (validate_relative_path shadow) as [[]|]; [|done].
    cbn [result_bind]. destruct (file_name shadow) as [l|]; [|done]. cbn [ok_or result_bind].
    destruct (contains_char NUL l) eqn:En; [done|]. cbn. congruence. }
  apply (tracks_sys _ (Unlinkat d leaf 0)).
  - split; [done|]. by eapply parent_and_leaf_safe.
  - intros r w _ _. exists d, leaf. split; [|done]. set_solver.
Qed.

End FilteredOps.


(** [release] closes the handle, and a release that does not
    have to synchronise drops the locks of the owner it names, or, when it names
    none, all locks on the file once its last handle is closed. *)
Theorem release_closes {W} `{HostOs W} i h fl owner f (s : Fs W) :
  h_files (fs_handles s) !! h = Some f -> h_inode f = i -> fl && h_writable f = false ->
  exists s', release i h fl owner s = Ret (Ok tt, s') /\ fs_os s' = fs_os s /\ fs_ns s' = fs_ns s /\
    h_files (fs_handles s') = delete h (h_files (fs_handles s)) /\
    forall k, lk_files (fs_locks s') !! k =
      match owner with
      | Some o => if decide (k = mkLockKey (h_dev f) (h_ino f) o) then None
                  else lk_files (fs_locks s) !! k
      | None =>
          if decide (lk_dev k = h_dev f /\ lk_ino k = h_ino f /\
            map_Forall (fun h' f' => h' = h \/ ~ (h_dev f' = h_dev f /\ h_ino f' = h_ino f))
              (h_files (fs_handles s)))
          then None else lk_files (fs_locks s) !! k
      end.
Proof.
  intros Hf Hi Hfl. unfold release, remove_released_file_locks, retain, bind, lift, get_handles,
    put_handles, get_locks, put_locks, ret. cbn. rewrite (find_handle_found _ i h f) by done. cbn.
  rewrite Hfl. cbn. set (ex := existsb _ _).
  assert (ex = false <-> map_Forall (fun h' f' => h' = h \/ ~ (h_dev f' = h_dev f /\ h_ino f' = h_ino f))
            (h_files (fs_handles s))) as Hex.
  { subst ex. rewrite <- not_true_iff_false, existsb_exists. split.
    - intros Hne h' f' Hh'. destruct (decide (h' = h)); [by left|right]. intros [Hd Hino]. apply Hne.
      exists (h', f'). split; [apply list_elem_of_In, elem_of_map_to_list; by rewrite lookup_delete_ne|].
      unfold same_file. cbn. by rewrite Hd, Hino, !Z.eqb_refl.
    - intros Hall ([h' f'] & Hin%list_elem_of_In%elem_of_map_to_list & Hs). cbn in Hs.
      apply lookup_delete_Some in Hin as [? Hin]. unfold same_file in Hs. apply andb_true_iff in Hs as [Hd Hino]. b2p.
      destruct (Hall h' f' Hin) as [?|Hno]; [done|]. by apply Hno. }
  destruct owner as [o|].
  - eexists. split; [done|]. split_and!; try done. intros k. cbn. rewrite retain_lookup.
    case_decide as Ek.
    + apply not_owned_false in Ek. by rewrite Ek.
    + destruct (not_owned (h_dev f) (h_ino f) o k) eqn:En; [done|]. by apply not_owned_false in En.
  - destruct ex; cbn [negb]; eexists; (split; [done|]); split_and!; try done; intros k; cbn.
    + rewrite decide_False; [done|]. intros (_ & _ & Hall). by apply Hex in Hall.
    + rewrite (retain_lookup (fun k => negb (lk_dev k =? h_dev f) || negb (lk_ino k =? h_ino f))).
      pose proof (proj1 Hex eq_refl) as Hall.
      destruct (lk_dev k =? h_dev f) eqn:E1, (lk_ino k =? h_ino f) eqn:E2; b2p; cbn;
        [by rewrite decide_True|rewrite decide_False; [done|]; by intros (? & ? & _)..].
Qed.

(** *** A server on the example host *)

Definition demo_fs (access : AccessMode) : Fs toy :=
  match from_manifest (demo_manifest access) (mkOs demo_host []) with
  | Ret (Ok ns, os) => ComposedFs_new os ns
  | _ => ComposedFs_new (mkOs demo_host []) (insert_root (mkNamespace ∅ ∅ ∅ [] ∅ ∅ (ROOT_ID + 1) 0 0 0))
  end.

Lemma demo_wf access : wf (fs_ns (demo_fs access)).
Proof.
  unfold demo_fs. pose proof (from_manifest_runs (demo_manifest access) (mkOs demo_host [])) as Hr.
  unfold runs in Hr. destruct (from_manifest _ _) as [[[ns|e] os]|]; [|apply insert_root_wf..].
  apply Hr. vm_compute. discriminate.
Qed.

Lemma demo_named access : named_mounts (fs_ns (demo_fs access)).
Proof.
  unfold demo_fs. pose proof (from_manifest_runs (demo_manifest access) (mkOs demo_host [])) as Hr.
  unfold runs in Hr. destruct (from_manifest _ _) as [[[ns|e] os]|]; [|by apply Forall_nil..].
  eapply mounts_named, Hr. vm_compute. discriminate.
Qed.

(** The names of a page. *)
Definition names_of (r : exec (io_result VecDirIter * Fs toy)) : option (list string) :=
  match r with Ret (Ok it, _) => Some (map o_name (it_entries it)) | _ => None end.

(** Whether an [openat2] of [path] was made that may create the file. *)
Definition created (path : string) (cs : list syscall) : bool :=
  existsb (fun c => match c with
    | Openat2 _ p flags _ _ => bool_decide (p = path) && negb (Z.land flags O_CREAT =? 0)
    | _ => false
    end) cs.

Definition session_created (path : string) (r : exec (io_result (list (io_result reply)) * Fs toy)) : bool :=
  match r with
  | Ret (Ok [Ok (REntry _); Ok (RHandle _)], s) =>
      forallb (fun m => bool_decide (mt_access m = Ro)) (ns_mounts (fs_ns s)) &&
      created path (trace (fs_os s))
  | _ => false
  end.

(** The read-only check of [open] overlooks [O_CREAT]: on a mount
    that is read-only, [open] with [O_RDONLY | O_CREAT] succeeds and passes the
    flag to [openat2]. *)
Theorem open_creat_passes_readonly :
  session_created "b.txt" (serve [QLookup 2 (Some "b.txt"); QOpen 3 (Z.lor O_RDONLY O_CREAT)] (demo_fs Ro)) = true.
Proof. vm_compute. reflexivity. Qed.

(** Filtered names use up the limit of host entries that are read: of a
    directory with [a.env] (filtered) and [b.txt], a page for one entry is empty,
    which tells the guest that the directory has ended, though a page for two
    entries has [b.txt]. *)
Theorem readdir_filtered_ends_early :
  names_of (readdir 2 64 0 (demo_fs Rw)) = Some [] /\
  names_of (readdir 2 128 0 (demo_fs Rw)) = Some ["b.txt"].
Proof. split; vm_compute; reflexivity. Qed.

(** *** Witnesses *)

Definition demo_requests : list request :=
  [QLookup 2 (Some "b.txt"); QOpen 3 O_RDONLY; QRead 3 1 16 0; QWrite 3 1 16 0; QReaddir 2 4096 0;
   QMkdir 2 (Some "d") 0x1ed 0; QForget 3 1].

Lemma session_confined_witness :
  exists rs s' new, serve demo_requests (demo_fs Rw) = Ret (Ok rs, s') /\
    List.length rs = 7%nat /\ Forall confined new.
Proof.
  destruct (session_confined demo_requests (demo_fs Rw)) as (rs & s' & new & E & El & _ & F & _).
  - apply demo_wf.
  - repeat constructor; discriminate.
  - vm_compute. discriminate.
  - exists rs, s', new. split; [exact E|]. split; [exact El|exact F].
Defined.

Lemma readonly_session_witness :
  exists rs s' new, serve demo_requests (demo_fs Ro) = Ret (Ok rs, s') /\
    Forall (fun c => mutates c = true ->
      exists p, c = CreateDirAll p /\ shadow_dir (ns_mounts (fs_ns (demo_fs Ro))) p) new.
Proof.
  destruct (readonly_session demo_requests (demo_fs Ro)) as (rs & s' & new & E & _ & F & _).
  - apply demo_wf.
  - apply demo_named.
  - unfold all_readonly. apply (bool_decide_unpack _). vm_compute. exact I.
  - assert (h_files (fs_handles (demo_fs Ro)) = ∅) as -> by (vm_compute; reflexivity).
    apply map_Forall_empty.
  - repeat constructor; discriminate.
  - vm_compute. discriminate.
  - exists rs, s', new. split; [exact E|exact F].
Defined.

(** A server of two nodes, the root and the root of a mount, with a read-only
    handle and a lock. *)
Definition small_mount : MountRuntime :=
  mkMount "work" "/srv/work" 10 Dir Ro [".env"] (Some "/shadow") (Some 12).

Definition small_ns : Namespace :=
  add_static (set_mounts (fun ms => ms ++ [small_mount])%list
    (insert_root (mkNamespace ∅ ∅ ∅ [] ∅ ∅ (ROOT_ID + 1) 0 0 0))) (MountRoot 0) 0.

Definition small_handle : FileHandle := mkHandle 3 11 false "/srv/work/b.txt" 1 7.

Definition small_fs : Fs toy :=
  mkFs (mkOs demo_host []) small_ns (mkHandles 2 {[ 1 := small_handle ]})
    (mkLocks {[ mkLockKey 1 7 99 := 20 ]}).

Lemma small_wf : wf small_ns.
Proof.
  apply add_static_wf; [|done|done|].
  - apply wf_add_mount_runtime, insert_root_wf.
  - intros mt [= <-]. cbn. lia.
Qed.

(** A writable mount, on a host whose shadow root has the file. *)
Definition shadow_host : toy := mkToy 0 (fun c =>
  match c return result (answer c) Z with
  | Openat2 _ _ _ _ _ => Ok 21
  | Unlinkat dir _ _ => if dir =? 21 then Ok tt else Err EPERM
  | Fstat _ => Ok (demo_metadata (Z.lor S_IFREG 0x1a4))
  | CreateDirAll _ => Ok tt
  | _ => Err EPERM
  end).

Definition shadow_mount : MountRuntime :=
  mkMount "work" "/srv/work" 10 Dir Rw [".env"] (Some "/shadow") (Some 12).

Definition shadow_ns : Namespace :=
  add_static (set_mounts (fun ms => ms ++ [shadow_mount])%list
    (insert_root (mkNamespace ∅ ∅ ∅ [] ∅ ∅ (ROOT_ID + 1) 0 0 0))) (MountRoot 0) 0.

Definition shadow_fs : Fs toy :=
  mkFs (mkOs shadow_host []) shadow_ns (mkHandles 1 ∅) (mkLocks ∅).

Lemma shadow_wf : wf shadow_ns.
Proof.
  apply add_static_wf; [|done|done|].
  - apply wf_add_mount_runtime, insert_root_wf.
  - intros mt [= <-]. cbn. lia.
Qed.


End ComposedFs.
