(* ===== verification/Smoltcp.v ===== *)
(** The interface of the [smoltcp] crate the gateway is built on: the wire
    formats, the interface and the TCP sockets. The crate is not part of the
    sources; its types and operations are fields of classes, and what the
    program relies on, as its documentation states it, is a class of laws.

    Byte streams of a socket carry ghost histories: [enqueued] is every byte the
    socket accepted for sending, [delivered] every byte it handed out. *)

From stdpp Require Import base option list numbers strings gmap relations.
From Stdlib Require Import ZArith Lia Ascii String.
From S2P Require Import Prelude RustStr.

Local Open Scope string_scope.
Local Open Scope Z_scope.

(** ** Wire formats *)

Inductive EthernetProtocol := EtherIpv4 | EtherArp | EtherIpv6 | EtherUnknown (ty : Z).
Inductive IpProtocol := ProtoTcp | ProtoUdp | ProtoOther (number : Z).
Inductive TcpControl := CtlNone | CtlPsh | CtlSyn | CtlFin | CtlRst.

#[global] Instance EthernetProtocol_eq_dec : EqDecision EthernetProtocol.
Proof. solve_decision. Defined.
#[global] Instance IpProtocol_eq_dec : EqDecision IpProtocol.
Proof. solve_decision. Defined.
#[global] Instance TcpControl_eq_dec : EqDecision TcpControl.
Proof. solve_decision. Defined.

Record EthernetRepr := mkEthernetRepr {
  er_src_addr : list byte; er_dst_addr : list byte; er_ethertype : EthernetProtocol }.

Record Ipv4Repr := mkIpv4Repr {
  ir_src_addr : Ipv4Addr; ir_dst_addr : Ipv4Addr; ir_next_header : IpProtocol;
  ir_payload_len : Z; ir_hop_limit : Z }.

Record TcpRepr := mkTcpRepr {
  tr_src_port : Z; tr_dst_port : Z; tr_control : TcpControl;
  tr_seq_number : Z; tr_ack_number : option Z; tr_window_len : Z;
  tr_window_scale : option Z; tr_max_seg_size : option Z; tr_sack_permitted : bool;
  tr_sack_ranges : list (option (Z * Z)); tr_timestamp : option (Z * Z);
  tr_payload : list byte }.

(** [smoltcp::wire]: [new_checked] of a packet type tells whether the buffer is
    long enough for the accessors, [parse] of a representation validates the
    fields and the checksums. *)
Class SmolWire := {
  EthernetFrame_new_checked : list byte -> bool;
  eth_ethertype : list byte -> EthernetProtocol;
  eth_src_addr : list byte -> list byte;
  eth_dst_addr : list byte -> list byte;
  eth_payload : list byte -> list byte;
  EthernetRepr_parse : list byte -> option EthernetRepr;
  EthernetRepr_buffer_len : EthernetRepr -> Z;
  EthernetRepr_emit : EthernetRepr -> list byte -> list byte;
  Ipv4Packet_new_checked : list byte -> bool;
  ipv4_next_header : list byte -> IpProtocol;
  ipv4_src_addr : list byte -> Ipv4Addr;
  ipv4_dst_addr : list byte -> Ipv4Addr;
  ipv4_payload : list byte -> list byte;
  Ipv4Repr_parse : list byte -> option Ipv4Repr;
  Ipv4Repr_buffer_len : Ipv4Repr -> Z;
  Ipv4Repr_emit : Ipv4Repr -> list byte -> list byte;
  UdpPacket_new_checked : list byte -> bool;
  udp_src_port : list byte -> Z;
  udp_dst_port : list byte -> Z;
  udp_payload : list byte -> list byte;
  TcpPacket_new_checked : list byte -> bool;
  TcpRepr_parse : list byte -> Ipv4Addr -> Ipv4Addr -> option TcpRepr;
  TcpRepr_buffer_len : TcpRepr -> Z;
  TcpRepr_emit : TcpRepr -> Ipv4Addr -> Ipv4Addr -> list byte -> list byte;
  (** [TcpSeqNumber + usize]. *)
  seq_add : Z -> Z -> Z;
  (** [Display] of the protocol numbers. *)
  show_ethertype : EthernetProtocol -> string;
  show_protocol : IpProtocol -> string
}.

Class SmolWireLaws `{SmolWire} : Prop := {
  eth_checked_len f : EthernetFrame_new_checked f = true -> 14 <= len f;
  eth_payload_spec f : EthernetFrame_new_checked f = true -> eth_payload f = zdrop 14 f;
  eth_repr_parse f r : EthernetRepr_parse f = Some r ->
    er_src_addr r = eth_src_addr f /\ er_dst_addr r = eth_dst_addr f /\
    er_ethertype r = eth_ethertype f;
  (** A frame that is long enough has a representation. *)
  eth_repr_total f : EthernetFrame_new_checked f = true -> exists r, EthernetRepr_parse f = Some r;
  eth_repr_len r : EthernetRepr_buffer_len r = 14;
  eth_emit_len r b : len (EthernetRepr_emit r b) = len b;
  eth_addr_len f : EthernetFrame_new_checked f = true ->
    len (eth_src_addr f) = 6 /\ len (eth_dst_addr f) = 6;
  ipv4_checked_len p : Ipv4Packet_new_checked p = true -> 20 <= len p;
  ipv4_repr_parse p r : Ipv4Repr_parse p = Some r ->
    ir_src_addr r = ipv4_src_addr p /\ ir_dst_addr r = ipv4_dst_addr p /\
    ir_next_header r = ipv4_next_header p;
  ipv4_repr_len r : Ipv4Repr_buffer_len r = 20;
  ipv4_emit_len r b : len (Ipv4Repr_emit r b) = len b;
  tcp_repr_len r : 20 <= TcpRepr_buffer_len r;
  tcp_emit_len r src dst b : len (TcpRepr_emit r src dst b) = len b
}.

(** ** Devices *)

(** [phy::Device] with its tokens: [receive] hands out the next frame,
    [transmit] a buffer of the asked length that the caller fills. *)
Class Device (D : Type) := {
  device_receive : D -> option (list byte * D);
  device_transmit : D -> Z -> (list byte -> list byte) -> option D;
  device_mtu : D -> Z
}.

Inductive device_step {D} `{Device D} : D -> D -> Prop :=
| step_receive d frame d' : device_receive d = Some (frame, d') -> device_step d d'
| step_transmit d n fill d' :
    (forall buf, len (fill buf) = len buf) ->
    device_transmit d n fill = Some d' -> device_step d d'.

(** ** Sockets *)

(** [smoltcp::socket::tcp::State]. *)
Module State.
Inductive t :=
| Closed | Listen | SynSent | SynReceived | Established
| FinWait1 | FinWait2 | CloseWait | Closing | LastAck | TimeWait.

#[global] Instance t_eq_dec : EqDecision t.
Proof. solve_decision. Defined.
End State.

(** [IpEndpoint]; with only IPv4 enabled an address is an IPv4 address. *)
Record IpEndpoint := mkEndpoint { ep_addr : Ipv4Addr; ep_port : Z }.

Record Ipv4Cidr := mkCidr { cidr_address : Ipv4Addr; cidr_prefix_len : Z }.

Notation SocketHandle := nat (only parsing).

(** [smoltcp::iface] and [smoltcp::socket::tcp]; an [Instant] is a number of
    microseconds. *)
Class SmolStack := {
  Interface : Type;
  Socket : Type;
  PollResult : Type;
  ListenError : Type;
  ConnectError : Type;
  RecvError : Type;
  SendError : Type;
  show_listen_error : ListenError -> string;
  Ipv4Cidr_new : Ipv4Addr -> Z -> exec Ipv4Cidr;
  (** [Interface::new], for an Ethernet address and a random seed; of the device
      it reads the capabilities. *)
  iface_new : forall {D} `{Device D}, list byte -> Z -> D -> Z -> Interface;
  (** [ip_addrs.push], which fails when the list is full. *)
  iface_push_ip_addr : Ipv4Cidr -> Interface -> option Interface;
  iface_set_any_ip : bool -> Interface -> Interface;
  iface_any_ip : Interface -> bool;
  iface_ip_addrs : Interface -> list Ipv4Cidr;
  iface_poll : forall {D} `{Device D},
    Z -> D -> Interface -> gmap SocketHandle Socket ->
    PollResult * D * Interface * gmap SocketHandle Socket;
  iface_poll_delay : Z -> Interface -> gmap SocketHandle Socket -> option Z * Interface;
  (** The handle [SocketSet::add] picks. *)
  fresh_handle : gmap SocketHandle Socket -> SocketHandle;
  (** [tcp::Socket::new] with receive and transmit buffers of these sizes. *)
  socket_new : Z -> Z -> Socket;
  socket_listen : Socket -> Z -> result Socket ListenError;
  socket_connect : Socket -> Interface -> IpEndpoint -> Z ->
    result (Socket * Interface) ConnectError;
  socket_state : Socket -> State.t;
  socket_local_endpoint : Socket -> option IpEndpoint;
  socket_remote_endpoint : Socket -> option IpEndpoint;
  socket_can_recv : Socket -> bool;
  (** [recv(f)] calls [f] on the largest contiguous slice of the receive buffer
      and dequeues as many bytes as [f] says. *)
  socket_recv : forall {R}, Socket -> (list byte -> Z * R) -> result (R * Socket) RecvError;
  socket_send_slice : Socket -> list byte -> result (Z * Socket) SendError;
  socket_close : Socket -> Socket;
  recv_queue : Socket -> list byte;
  enqueued : Socket -> list byte;
  delivered : Socket -> list byte
}.

(** Two sockets that agree on the bytes that passed through them. *)
Definition same_streams `{SmolStack} (s s' : Socket) : Prop :=
  enqueued s' = enqueued s /\ delivered s' = delivered s.

Class SmolStackLaws `{SmolStack} : Prop := {
  fresh_handle_spec ss : ss !! fresh_handle ss = None;
  (** [Ipv4Cidr::new] panics on a prefix longer than 32 bits. *)
  cidr_new_spec a p :
    Ipv4Cidr_new a p = if p <=? 32 then Ret (mkCidr a p) else Panic;
  (** A new interface has room for an address. *)
  iface_new_addr {D} `{Device D} mac seed (d : D) now c :
    exists i, iface_push_ip_addr c (iface_new mac seed d now) = Some i;
  iface_push_spec c i i' : iface_push_ip_addr c i = Some i' ->
    iface_ip_addrs i' = (iface_ip_addrs i ++ [c])%list;
  iface_new_addrs {D} `{Device D} mac seed (d : D) now :
    iface_ip_addrs (iface_new mac seed d now) = [];
  iface_set_any_ip_spec b i :
    iface_any_ip (iface_set_any_ip b i) = b /\
    iface_ip_addrs (iface_set_any_ip b i) = iface_ip_addrs i;
  (** A poll acts on the device through its trait, neither adds nor removes
      sockets, and leaves it to the program to enqueue and to take out bytes. *)
  poll_device {D} `{Device D} now (d : D) i ss : rtc device_step d (iface_poll now d i ss).1.1.2;
  poll_sockets {D} `{Device D} now (d : D) i ss h s :
    ss !! h = Some s ->
    exists s', (iface_poll now d i ss).2 !! h = Some s' /\ same_streams s s';
  poll_no_new_sockets {D} `{Device D} now (d : D) i ss h :
    ss !! h = None -> (iface_poll now d i ss).2 !! h = None;
  socket_new_spec rx tx :
    socket_state (socket_new rx tx) = State.Closed /\
    enqueued (socket_new rx tx) = [] /\ delivered (socket_new rx tx) = [];
  (** Listening fails on a socket that is open or on port 0. *)
  socket_listen_closed s p : socket_state s = State.Closed -> 0 < p ->
    exists s', socket_listen s p = Ok s';
  socket_listen_ok s p s' : socket_listen s p = Ok s' -> socket_state s' = State.Listen;
  socket_connect_ok s i e p s' i' : socket_connect s i e p = Ok (s', i') -> same_streams s s';
  (** The endpoints are [None] unless connected. *)
  closed_no_endpoint s : socket_state s = State.Closed -> socket_local_endpoint s = None;
  can_recv_spec s : socket_can_recv s = true ->
    recv_queue s <> [] /\
    forall R (f : list byte -> Z * R), exists r s', socket_recv s f = Ok (r, s');
  recv_spec {R} s (f : list byte -> Z * R) r s' : socket_recv s f = Ok (r, s') ->
    exists data rest, recv_queue s = (data ++ rest)%list /\ (data = [] -> rest = []) /\
      (f data).2 = r /\
      (0 <= (f data).1 <= len data ->
       recv_queue s' = zdrop (f data).1 (recv_queue s) /\
       delivered s' = (delivered s ++ ztake (f data).1 data)%list /\
       enqueued s' = enqueued s);
  send_spec s data n s' : socket_send_slice s data = Ok (n, s') ->
    0 <= n <= len data /\ enqueued s' = (enqueued s ++ ztake n data)%list /\
    delivered s' = delivered s;
  close_spec s : same_streams s (socket_close s)
}.

Section Facts.
Context `{SmolStack} `{!SmolStackLaws}.

#[global] Instance same_streams_refl : Reflexive same_streams.
Proof. done. Qed.

#[global] Instance same_streams_trans : Transitive same_streams.
Proof. intros s1 s2 s3 [? ?] [? ?]. split; congruence. Qed.

Lemma poll_dom {D} `{Device D} now (d : D) i ss :
  dom (iface_poll now d i ss).2 = dom ss.
Proof.
  apply set_eq. intros h. rewrite !elem_of_dom. split; intros [s Hs].
  - destruct (ss !! h) as [s0|] eqn:E; [by eexists|].
    by rewrite (poll_no_new_sockets now d i ss h E) in Hs.
  - destruct (poll_sockets now d i ss h s Hs) as (s' & E & _). by eexists.
Qed.

End Facts.

(** ** A stack for the witnesses

    Checksums are not verified, and options of a header are skipped; a poll takes one frame
    from the device and answers it with one of 60 bytes. *)
Module Toy.

Definition byte_at (l : list byte) (i : nat) : byte := default Byte.x00 (l !! i).
Definition be16_at (l : list byte) (i : nat) : Z := from_be16 (byte_at l i) (byte_at l (S i)).
Definition ip_at (l : list byte) (i : nat) : Ipv4Addr :=
  Ipv4 (byte_at l i) (byte_at l (i + 1)) (byte_at l (i + 2)) (byte_at l (i + 3)).
Definition mac_at (l : list byte) (i : nat) : list byte := map (byte_at l) (seq i 6).

Definition ethertype_of (ty : Z) : EthernetProtocol :=
  if ty =? 0x0800 then EtherIpv4 else if ty =? 0x0806 then EtherArp
  else if ty =? 0x86DD then EtherIpv6 else EtherUnknown ty.
Definition ethertype_number (p : EthernetProtocol) : Z :=
  match p with
  | EtherIpv4 => 0x0800 | EtherArp => 0x0806 | EtherIpv6 => 0x86DD | EtherUnknown ty => ty
  end.
Definition protocol_of (n : Z) : IpProtocol :=
  if n =? 6 then ProtoTcp else if n =? 17 then ProtoUdp else ProtoOther n.
Definition protocol_number (p : IpProtocol) : Z :=
  match p with ProtoTcp => 6 | ProtoUdp => 17 | ProtoOther n => n end.
Definition control_of (flags : Z) : TcpControl :=
  if Z.testbit flags 1 then CtlSyn else if Z.testbit flags 2 then CtlRst
  else if Z.testbit flags 0 then CtlFin else CtlNone.
Definition control_flags (c : TcpControl) : Z :=
  match c with CtlSyn => 2 | CtlRst => 4 | CtlFin => 1 | CtlPsh => 8 | CtlNone => 0 end.

(** Writes a header over the start of a buffer. *)
Definition overwrite (header buf : list byte) : list byte :=
  ztake (len buf) (header ++ zdrop (len header) buf).

Lemma len_overwrite header buf : len (overwrite header buf) = len buf.
Proof.
  unfold overwrite. pose proof (len_nonneg buf). pose proof (len_nonneg header).
  rewrite len_ztake, len_app, len_zdrop by done. lia.
Qed.

#[global] Instance wire : SmolWire := {|
  EthernetFrame_new_checked f := 14 <=? len f;
  eth_ethertype f := ethertype_of (be16_at f 12);
  eth_src_addr f := mac_at f 6;
  eth_dst_addr f := mac_at f 0;
  eth_payload f := zdrop 14 f;
  EthernetRepr_parse f :=
    Some (mkEthernetRepr (mac_at f 6) (mac_at f 0) (ethertype_of (be16_at f 12)));
  EthernetRepr_buffer_len _ := 14;
  EthernetRepr_emit r b :=
    overwrite (er_dst_addr r ++ er_src_addr r ++ to_be16 (ethertype_number (er_ethertype r))) b;
  Ipv4Packet_new_checked p := 20 <=? len p;
  ipv4_next_header p := protocol_of (u8 (byte_at p 9));
  ipv4_src_addr p := ip_at p 12;
  ipv4_dst_addr p := ip_at p 16;
  ipv4_payload p := zdrop (4 * Z.land (u8 (byte_at p 0)) 15) p;
  Ipv4Repr_parse p := Some (mkIpv4Repr (ip_at p 12) (ip_at p 16)
    (protocol_of (u8 (byte_at p 9))) (len p - 20) (u8 (byte_at p 8)));
  Ipv4Repr_buffer_len _ := 20;
  Ipv4Repr_emit r b :=
    overwrite (map byte_of_Z [0x45; 0] ++ to_be16 (20 + ir_payload_len r) ++
      map byte_of_Z [0; 0; 0; 0; ir_hop_limit r; protocol_number (ir_next_header r); 0; 0] ++
      octets (ir_src_addr r) ++ octets (ir_dst_addr r)) b;
  UdpPacket_new_checked p := 8 <=? len p;
  udp_src_port p := be16_at p 0;
  udp_dst_port p := be16_at p 2;
  udp_payload p := zdrop 8 p;
  TcpPacket_new_checked p := 20 <=? len p;
  TcpRepr_parse p _ _ :=
    let flags := u8 (byte_at p 13) in
    Some (mkTcpRepr (be16_at p 0) (be16_at p 2) (control_of flags)
      (be16_at p 4 * 2 ^ 16 + be16_at p 6)
      (if Z.testbit flags 4 then Some (be16_at p 8 * 2 ^ 16 + be16_at p 10) else None)
      (be16_at p 14) None None false [None; None; None] None (zdrop 20 p));
  TcpRepr_buffer_len r := 20 + len (tr_payload r);
  TcpRepr_emit r _ _ b :=
    overwrite (to_be16 (tr_src_port r) ++ to_be16 (tr_dst_port r) ++ to_be32 (tr_seq_number r) ++
      to_be32 (default 0 (tr_ack_number r)) ++
      map byte_of_Z [0x50; control_flags (tr_control r) +
        (if tr_ack_number r then 16 else 0); 0; 0; 0; 0; 0; 0]) b;
  seq_add a n := wrap32 (a + n);
  show_ethertype p := "0x" ++ show_hex2 (ethertype_number p / 256) ++
                      show_hex2 (ethertype_number p mod 256);
  show_protocol p := show_u8 (protocol_number p)
|}.

#[global] Instance wire_laws : SmolWireLaws.
Proof.
  split; cbn; try done.
  - intros f ?. by b2p.
  - intros f r [= <-]. done.
  - intros f _. by eexists.
  - intros r b. apply len_overwrite.
  - intros p ?. by b2p.
  - intros p r [= <-]. done.
  - intros r b. apply len_overwrite.
  - intros r. pose proof (len_nonneg (tr_payload r)). lia.
  - intros r src dst b. apply len_overwrite.
Qed.

Record socket := mkSocket {
  st : State.t; local : option IpEndpoint; remote : option IpEndpoint;
  queue : list byte; enq : list byte; deliv : list byte }.

Record iface := mkIface { addrs : list Ipv4Cidr; any_ip : bool }.

Definition poll_dev {D} `{Device D} (d : D) : D :=
  match device_receive d with
  | None => d
  | Some (_, d) => default d (device_transmit d 60 (fun buf => buf))
  end.

Definition can_recv (s : socket) : bool := negb (bool_decide (queue s = [])).

Definition recv {R} (s : socket) (f : list byte -> Z * R) : result (R * socket) unit :=
  let '(n, r) := f (queue s) in
  Ok (r, mkSocket (st s) (local s) (remote s) (zdrop n (queue s)) (enq s)
           (deliv s ++ ztake n (queue s))).

(** Any endpoint the stack has for itself. *)
Definition own_ip : Ipv4Addr := Ipv4 Byte.x0a Byte.x00 Byte.x02 Byte.x02.

#[global] Instance stack : SmolStack := {|
  Interface := iface;
  Socket := socket;
  PollResult := unit;
  ListenError := unit;
  ConnectError := unit;
  RecvError := unit;
  SendError := unit;
  show_listen_error _ := "unaddressable";
  Ipv4Cidr_new a p := if p <=? 32 then Ret (mkCidr a p) else Panic;
  iface_new D _ mac seed d now := mkIface [] false;
  iface_push_ip_addr c i := Some (mkIface (addrs i ++ [c]) (any_ip i));
  iface_set_any_ip b i := mkIface (addrs i) b;
  iface_any_ip := any_ip;
  iface_ip_addrs := addrs;
  iface_poll D _ now d i ss := (tt, poll_dev d, i, ss);
  iface_poll_delay now i ss := (None, i);
  fresh_handle ss := fresh (dom ss);
  socket_new rx tx := mkSocket State.Closed None None [] [] [];
  socket_listen s p :=
    if bool_decide (st s = State.Closed) && (0 <? p)
    then Ok (mkSocket State.Listen None None (queue s) (enq s) (deliv s)) else Err tt;
  socket_connect s i e p :=
    if bool_decide (st s = State.Closed) && (0 <? p)
    then Ok (mkSocket State.Established (Some (mkEndpoint own_ip p)) (Some e)
               (queue s) (enq s) (deliv s), i)
    else Err tt;
  socket_state := st;
  socket_local_endpoint s := if bool_decide (st s = State.Closed) then None else local s;
  socket_remote_endpoint s := if bool_decide (st s = State.Closed) then None else remote s;
  socket_can_recv := can_recv;
  socket_recv R := recv;
  socket_send_slice s data :=
    let n := Z.min 4 (len data) in
    Ok (n, mkSocket (st s) (local s) (remote s) (queue s) (enq s ++ ztake n data) (deliv s));
  socket_close s := mkSocket State.Closed None None (queue s) (enq s) (deliv s);
  recv_queue := queue;
  enqueued := enq;
  delivered := deliv
|}.

Lemma poll_dev_steps {D} `{Device D} (d : D) : rtc device_step d (poll_dev d).
Proof.
  unfold poll_dev. destruct (device_receive d) as [[f d1]|] eqn:E; [|done].
  eapply rtc_l; [by eapply step_receive|].
  destruct (device_transmit d1 60 _) as [d2|] eqn:E2; cbn; [|done].
  apply rtc_once. by eapply step_transmit, E2.
Qed.

#[global] Instance stack_laws : SmolStackLaws.
Proof.
  split; cbn; try done.
  - intros ss. apply not_elem_of_dom. apply is_fresh.
  - intros. by eexists.
  - by intros c i i' [= <-].
  - intros. apply poll_dev_steps.
  - intros. by eexists.
  - intros s p Hs Hp. rewrite bool_decide_true, (proj2 (Z.ltb_lt _ _)) by done. by eexists.
  - intros s p s'. case_test; [by intros [= <-]|done].
  - intros s i e p s' i'. case_test; [by intros [= <- <-]|done].
  - intros s Hs. by rewrite bool_decide_true.
  - intros s. unfold can_recv, recv. rewrite negb_true_iff, bool_decide_eq_false. intros Hq.
    split; [done|]. intros R f. destruct (f (queue s)) as [n r]. by repeat eexists.
  - intros R s f r s'. unfold recv. destruct (f (queue s)) as [n r0] eqn:E.
    intros [= <- <-]. exists (queue s), []. rewrite app_nil_r, E. done.
  - intros s data n s' [= <- <-]. pose proof (len_nonneg data). split; [lia|done].
Qed.

End Toy.
