(* ===== verification/GuestTcp.v ===== *)
(** The TCP endpoints of the gateway towards the guest
    (src/vm-frontend/src/guest_tcp.rs): the set of listening and connecting
    sockets over [smoltcp], the frame queues it is driven through and the
    recognition of connection attempts. *)

From stdpp Require Import base option list numbers strings gmap sets relations.
From Stdlib Require Import ZArith Lia Ascii String.
From S2P Require Import Prelude RustStr NetworkPolicy DnsProxy TcpGateway Smoltcp.

Local Open Scope string_scope.
Local Open Scope list_scope.
Local Open Scope Z_scope.

Module GuestTcp.
Import Tcp.

Definition DEFAULT_GATEWAY_MAC : list byte :=
  map byte_of_Z [0x02; 0xfc; 0x12; 0x34; 0x56; 0x01].
Definition DEFAULT_TCP_BUFFER_BYTES : Z := 64 * 1024.

(** ** The queued device *)

Record QueuedEthernetDevice := mkDevice {
  mtu : Z; rx : list (list byte); tx : list (list byte) }.

Definition device_new (mtu : Z) : QueuedEthernetDevice := mkDevice mtu [] [].

Definition push_rx (frame : list byte) (d : QueuedEthernetDevice) : QueuedEthernetDevice :=
  mkDevice (mtu d) (rx d ++ [frame]) (tx d).

Definition pop_tx (d : QueuedEthernetDevice) : option (list byte) * QueuedEthernetDevice :=
  match tx d with
  | [] => (None, d)
  | frame :: rest => (Some frame, mkDevice (mtu d) (rx d) rest)
  end.

Definition tx_len (d : QueuedEthernetDevice) : Z := len (tx d).

(** [receive] pops the frame before the token is consumed. *)
Definition receive (d : QueuedEthernetDevice) : option (list byte * QueuedEthernetDevice) :=
  match rx d with
  | [] => None
  | frame :: rest => Some (frame, mkDevice (mtu d) rest (tx d))
  end.

(** [QueuedTxToken::consume]: the caller fills a zeroed frame. *)
Definition tx_consume (n : Z) (fill : list byte -> list byte) (d : QueuedEthernetDevice)
  : QueuedEthernetDevice :=
  let frame := replicate (Z.to_nat n) Byte.x00 in
  mkDevice (mtu d) (rx d) (tx d ++ [fill frame]).

Definition transmit (d : QueuedEthernetDevice) (n : Z) (fill : list byte -> list byte)
  : option QueuedEthernetDevice := Some (tx_consume n fill d).

Definition capabilities (d : QueuedEthernetDevice) : Z := mtu d.

#[global] Instance queued_device : Device QueuedEthernetDevice := {|
  device_receive := receive; device_transmit := transmit; device_mtu := capabilities |}.

(** ** The sockets *)

Record TcpListenerSlot := mkListener { ls_port : Z; ls_handle : SocketHandle }.
Record TcpConnectionSlot := mkConnection {
  cs_guest_port : Z; cs_local_port : Z; cs_handle : SocketHandle }.

Record GuestTcpReap := mkReap { listener_sessions : Z; reaped_host_connections : Z }.

Record GuestTcpSession := mkSession {
  session_state : State.t; session_local : IpEndpoint; session_remote : IpEndpoint }.
Record GuestTcpSessionRef := mkSessionRef {
  ref_handle : SocketHandle; ref_session : GuestTcpSession }.

Inductive GuestTcpCoreError := InvalidIpv4 (value : string).

Definition parse_ipv4 (value : string) : result Ipv4Addr GuestTcpCoreError :=
  ok_or (parse_ipv4_addr value) (InvalidIpv4 value).

Section Core.
Context `{SmolStack}.

Inductive GuestTcpConnectError :=
| CoreError (e : GuestTcpCoreError)
| ConnectFailed (e : ConnectError).

Record GuestTcpCore := mkCore {
  interface : Interface;
  sockets : gmap SocketHandle Socket;
  listeners : list TcpListenerSlot;
  host_connections : list TcpConnectionSlot
}.

(** [SocketSet::get] and [remove] panic on a handle that is not of the set. *)
Definition get (ss : gmap SocketHandle Socket) (handle : SocketHandle) : exec Socket :=
  match ss !! handle with Some s => Ret s | None => Panic end.

Definition remove (ss : gmap SocketHandle Socket) (handle : SocketHandle)
  : exec (gmap SocketHandle Socket) :=
  match ss !! handle with Some _ => Ret (delete handle ss) | None => Panic end.

Definition core_new (network : Policy.GuestNetwork) (gateway_mac : list byte) (now : Z)
  (device : QueuedEthernetDevice)
  : exec (result GuestTcpCore GuestTcpCoreError) :=
  let interface := iface_new gateway_mac 0xfeedcafed00dbeef device now in
  match parse_ipv4 (Policy.gateway_ip network) with
  | Err e => Ret (Err e)
  | Ok gateway_ip =>
      let! cidr := Ipv4Cidr_new gateway_ip (Policy.prefix_len network) in
      match iface_push_ip_addr cidr interface with
      | None => Panic
      | Some interface =>
          let interface := iface_set_any_ip true interface in
          Ret (Ok (mkCore interface ∅ [] []))
      end
  end.

Definition listen_tcp (core : GuestTcpCore) (port : Z)
  : result SocketHandle ListenError * GuestTcpCore :=
  let socket := socket_new DEFAULT_TCP_BUFFER_BYTES DEFAULT_TCP_BUFFER_BYTES in
  match socket_listen socket port with
  | Err e => (Err e, core)
  | Ok socket =>
      let handle := fresh_handle (sockets core) in
      (Ok handle, mkCore (interface core) (<[handle := socket]> (sockets core))
                    (listeners core ++ [mkListener port handle]) (host_connections core))
  end.

Definition listener_state (core : GuestTcpCore) (handle : SocketHandle) : exec State.t :=
  let! socket := get (sockets core) handle in Ret (socket_state socket).

(** [listeners.iter().find(..)]: the state is looked at only on the port. *)
Fixpoint find_listener (core : GuestTcpCore) (slots : list TcpListenerSlot) (port : Z)
  : exec (option TcpListenerSlot) :=
  match slots with
  | [] => Ret None
  | slot :: rest =>
      if ls_port slot =? port then
        let! state := listener_state core (ls_handle slot) in
        if bool_decide (state = State.Listen) then Ret (Some slot)
        else find_listener core rest port
      else find_listener core rest port
  end.

Definition ensure_listener (core : GuestTcpCore) (port : Z)
  : exec (result SocketHandle ListenError * GuestTcpCore) :=
  let! found := find_listener core (listeners core) port in
  match found with
  | Some slot => Ret (Ok (ls_handle slot), core)
  | None => Ret (listen_tcp core port)
  end.

Definition poll (core : GuestTcpCore) (now : Z) (device : QueuedEthernetDevice)
  : PollResult * GuestTcpCore * QueuedEthernetDevice :=
  let '(r, device, interface, sockets) := iface_poll now device (interface core) (sockets core) in
  (r, mkCore interface sockets (listeners core) (host_connections core), device).

(** The delay in microseconds. *)
Definition poll_delay (core : GuestTcpCore) (now : Z) : option Z * GuestTcpCore :=
  let '(delay, interface) := iface_poll_delay now (interface core) (sockets core) in
  (delay, mkCore interface (sockets core) (listeners core) (host_connections core)).

Definition connect_to_guest (core : GuestTcpCore) (network : Policy.GuestNetwork)
  (guest_port local_port now : Z) (device : QueuedEthernetDevice)
  : result SocketHandle GuestTcpConnectError * GuestTcpCore * QueuedEthernetDevice :=
  match parse_ipv4 (Policy.guest_ip network) with
  | Err e => (Err (CoreError e), core, device)
  | Ok guest_ip =>
      let socket := socket_new DEFAULT_TCP_BUFFER_BYTES DEFAULT_TCP_BUFFER_BYTES in
      match socket_connect socket (interface core) (mkEndpoint guest_ip guest_port) local_port with
      | Err e => (Err (ConnectFailed e), core, device)
      | Ok (socket, interface) =>
          let handle := fresh_handle (sockets core) in
          let core := mkCore interface (<[handle := socket]> (sockets core)) (listeners core)
            (host_connections core ++ [mkConnection guest_port local_port handle]) in
          let '(_, core, device) := poll core now device in
          (Ok handle, core, device)
      end
  end.

Definition session (core : GuestTcpCore) (handle : SocketHandle)
  : exec (option GuestTcpSession) :=
  let! socket := get (sockets core) handle in
  Ret match socket_local_endpoint socket, socket_remote_endpoint socket with
      | Some local, Some remote => Some (mkSession (socket_state socket) local remote)
      | _, _ => None
      end.

(** The [filter_map] shared by [active_sessions] and [host_ingress_sessions]. *)
Fixpoint session_refs (core : GuestTcpCore) (handles : list SocketHandle)
  : exec (list GuestTcpSessionRef) :=
  match handles with
  | [] => Ret []
  | handle :: rest =>
      let! s := session core handle in
      let! refs := session_refs core rest in
      Ret match s with Some s => mkSessionRef handle s :: refs | None => refs end
  end.

Definition active_sessions (core : GuestTcpCore) : exec (list GuestTcpSessionRef) :=
  session_refs core (map ls_handle (listeners core)).

Definition host_ingress_sessions (core : GuestTcpCore) : exec (list GuestTcpSessionRef) :=
  session_refs core (map cs_handle (host_connections core)).

(** The loop of [recv_available]: each round takes bytes out of the receive
    buffer, so its length bounds the rounds. *)
Fixpoint recv_loop (fuel : nat) (socket : Socket) (received : list byte)
  : exec (result (list byte) RecvError * Socket) :=
  match fuel with
  | O => Panic
  | S fuel =>
      if socket_can_recv socket then
        match socket_recv socket (fun data => (len data, data)) with
        | Err e => Ret (Err e, socket)
        | Ok (chunk, socket) =>
            if bool_decide (chunk = []) then Ret (Ok received, socket)
            else recv_loop fuel socket (received ++ chunk)
        end
      else Ret (Ok received, socket)
  end.

Definition set_socket (core : GuestTcpCore) (handle : SocketHandle) (socket : Socket)
  : GuestTcpCore :=
  mkCore (interface core) (<[handle := socket]> (sockets core)) (listeners core)
    (host_connections core).

Definition recv_available (core : GuestTcpCore) (handle : SocketHandle)
  : exec (result (list byte) RecvError * GuestTcpCore) :=
  let! socket := get (sockets core) handle in
  let! (r, socket) := recv_loop (S (List.length (recv_queue socket))) socket [] in
  Ret (r, set_socket core handle socket).

Definition send_to_session (core : GuestTcpCore) (handle : SocketHandle) (data : list byte)
  : exec (result Z SendError * GuestTcpCore) :=
  let! socket := get (sockets core) handle in
  match socket_send_slice socket data with
  | Err e => Ret (Err e, core)
  | Ok (n, socket) => Ret (Ok n, set_socket core handle socket)
  end.

Definition close_session (core : GuestTcpCore) (handle : SocketHandle) : exec GuestTcpCore :=
  let! socket := get (sockets core) handle in
  Ret (set_socket core handle (socket_close socket)).

Fixpoint closed_handles (core : GuestTcpCore) (handles : list SocketHandle)
  : exec (list SocketHandle) :=
  match handles with
  | [] => Ret []
  | handle :: rest =>
      let! socket := get (sockets core) handle in
      let! closed := closed_handles core rest in
      Ret (if bool_decide (socket_state socket = State.Closed) then handle :: closed else closed)
  end.

Fixpoint remove_all (ss : gmap SocketHandle Socket) (handles : list SocketHandle)
  : exec (gmap SocketHandle Socket) :=
  match handles with
  | [] => Ret ss
  | handle :: rest => let! ss := remove ss handle in remove_all ss rest
  end.

Definition reap_closed_sessions (core : GuestTcpCore) : exec (GuestTcpReap * GuestTcpCore) :=
  let! listener_handles := closed_handles core (map ls_handle (listeners core)) in
  let! host_connection_handles :=
    closed_handles core (map cs_handle (host_connections core)) in
  let listeners := filter (fun slot => ls_handle slot ∉ listener_handles) (listeners core) in
  let host_connections :=
    filter (fun slot => cs_handle slot ∉ host_connection_handles) (host_connections core) in
  let! sockets := remove_all (sockets core) (listener_handles ++ host_connection_handles) in
  Ret (mkReap (len listener_handles) (len host_connection_handles),
       mkCore (interface core) sockets listeners host_connections).

Definition any_ip_enabled (core : GuestTcpCore) : bool := iface_any_ip (interface core).
Definition ip_addrs (core : GuestTcpCore) : list Ipv4Cidr := iface_ip_addrs (interface core).

End Core.

(** ** Connection attempts *)

Section Syn.
Context `{SmolWire} `{Ipv4NetOps}.

Definition parse_tcp_syn_destination (frame : list byte) : exec (option TcpDestination) :=
  if negb (EthernetFrame_new_checked frame) then Ret None
  else
    match EthernetRepr_parse frame with
    | None => Ret None
    | Some ethernet =>
        if negb (bool_decide (er_ethertype ethernet = EtherIpv4)) then Ret None
        else
          let ip_offset := EthernetRepr_buffer_len ethernet in
          let! ip_bytes := slice frame ip_offset (len frame) in
          if negb (Ipv4Packet_new_checked ip_bytes) then Ret None
          else
            match Ipv4Repr_parse ip_bytes with
            | None => Ret None
            | Some ipv4 =>
                if negb (bool_decide (ir_next_header ipv4 = ProtoTcp)) then Ret None
                else
                  let tcp_offset := ip_offset + Ipv4Repr_buffer_len ipv4 in
                  let! tcp_bytes := slice frame tcp_offset (len frame) in
                  if negb (TcpPacket_new_checked tcp_bytes) then Ret None
                  else
                    match TcpRepr_parse tcp_bytes (ir_src_addr ipv4) (ir_dst_addr ipv4) with
                    | None => Ret None
                    | Some tcp =>
                        Ret (if bool_decide (tr_control tcp = CtlSyn) &&
                                bool_decide (tr_ack_number tcp = None)
                             then Some (mkDest (ir_dst_addr ipv4) (tr_dst_port tcp) None)
                             else None)
                    end
            end
    end.

Definition evaluate_tcp_syn_frame (policy : Policy.VmnetPolicy) (frame : list byte)
  : exec (option (TcpDestination * TcpDecision)) :=
  let! destination := parse_tcp_syn_destination frame in
  Ret (option_map (fun d => (d, evaluate_tcp_destination policy d)) destination).

End Syn.

Section SynFacts.
Context `{SmolWire} `{!SmolWireLaws} `{Ipv4NetOps}.

(** The offsets of the source are inside a frame whose headers were checked. *)
Lemma ip_slice frame e :
  EthernetFrame_new_checked frame = true ->
  slice frame (EthernetRepr_buffer_len e) (len frame) = Ret (eth_payload frame).
Proof.
  intros Hc. rewrite eth_repr_len, eth_payload_spec by done.
  apply slice_from. pose proof (eth_checked_len frame Hc). lia.
Qed.

Lemma tcp_slice frame e i :
  EthernetFrame_new_checked frame = true -> Ipv4Packet_new_checked (eth_payload frame) = true ->
  slice frame (EthernetRepr_buffer_len e + Ipv4Repr_buffer_len i) (len frame) =
    Ret (zdrop 34 frame).
Proof.
  intros Hc Hp. rewrite eth_repr_len, ipv4_repr_len. apply slice_from.
  pose proof (eth_checked_len frame Hc). apply ipv4_checked_len in Hp.
  rewrite eth_payload_spec, len_zdrop in Hp by done. lia.
Qed.

(** The frame carries TCP over IPv4. *)
Definition tcp_frame (frame : list byte) : Prop :=
  EthernetFrame_new_checked frame = true /\ eth_ethertype frame = EtherIpv4 /\
  Ipv4Packet_new_checked (eth_payload frame) = true /\
  ipv4_next_header (eth_payload frame) = ProtoTcp.

(** What the packet a frame carries asks for when [segment] is its TCP segment: a SYN
    without an acknowledgement, to this destination. *)
Definition syn_segment (frame segment : list byte) (d : TcpDestination) : Prop :=
  let packet := eth_payload frame in
  tcp_frame frame /\
  exists ip tcp, Ipv4Repr_parse packet = Some ip /\ TcpPacket_new_checked segment = true /\
    TcpRepr_parse segment (ipv4_src_addr packet) (ipv4_dst_addr packet) = Some tcp /\
    tr_control tcp = CtlSyn /\ tr_ack_number tcp = None /\
    d = mkDest (ipv4_dst_addr packet) (tr_dst_port tcp) None.

(** The frame opens a connection at the TCP endpoints, which find the segment behind the
    IPv4 header and its options. *)
Definition opens_connection (frame : list byte) (d : TcpDestination) : Prop :=
  syn_segment frame (ipv4_payload (eth_payload frame)) d.

(** The packet has no IPv4 options and ends with the frame. *)
Definition plain_packet (frame : list byte) : Prop := ipv4_payload (eth_payload frame) = zdrop 34 frame.

(** The code recognises the attempts whose segment starts at byte 34 of the frame. *)
Lemma parse_tcp_syn_spec frame :
  exists o, parse_tcp_syn_destination frame = Ret o /\ forall d, o = Some d <-> syn_segment frame (zdrop 34 frame) d.
Proof.
  unfold parse_tcp_syn_destination, syn_segment, tcp_frame.
  destruct (EthernetFrame_new_checked frame) eqn:Ec; [|eexists; split; [done|naive_solver]]. cbn [negb].
  destruct (eth_repr_total frame Ec) as [e Ee]. rewrite Ee. apply eth_repr_parse in Ee as (_ & _ & Hty). rewrite Hty.
  destruct (bool_decide_reflect (eth_ethertype frame = EtherIpv4)) as [H4|]; [|eexists; split; [done|naive_solver]].
  cbn [negb]. rewrite ip_slice by done. cbn [exec_bind].
  destruct (Ipv4Packet_new_checked (eth_payload frame)) eqn:Ei; [|eexists; split; [done|naive_solver]]. cbn [negb].
  destruct (Ipv4Repr_parse (eth_payload frame)) as [ip|] eqn:Ep; [|eexists; split; [done|naive_solver]].
  apply ipv4_repr_parse in Ep as (Hsrc & Hdst & Hnh). rewrite Hsrc, Hdst, Hnh.
  destruct (bool_decide_reflect (ipv4_next_header (eth_payload frame) = ProtoTcp)); [|eexists; split; [done|naive_solver]].
  cbn [negb]. rewrite tcp_slice by done. cbn [exec_bind].
  destruct (TcpPacket_new_checked _); [|eexists; split; [done|naive_solver]]. cbn [negb].
  destruct (TcpRepr_parse _ _ _) as [t|]; [|eexists; split; [done|naive_solver]].
  eexists. split; [done|]. intros d.
  destruct (bool_decide_reflect (tr_control t = CtlSyn)), (bool_decide_reflect (tr_ack_number t = None)); naive_solver.
Qed.

End SynFacts.

(** ** The queues of the device *)

(** What a stack can do to the device: take frames from the front of the
    receive queue and append to the transmit queue. *)
Lemma device_steps_queues d d' :
  rtc device_step d d' ->
  mtu d' = mtu d /\ (exists taken, rx d = taken ++ rx d') /\ (exists sent, tx d' = tx d ++ sent).
Proof.
  induction 1 as [d|d d1 d2 Hstep _ (Hm & [t Ht] & [s Hs])].
  - split; [done|]. split; [by exists []|]. exists []. by rewrite app_nil_r.
  - destruct Hstep as [d f d1 Hr|d n fill d1 _ Ht'].
    + cbn in Hr. unfold receive in Hr. destruct d as [m [|f0 r] x]; cbn in *; simplify_eq; cbn in *.
      split; [done|]. split; [exists (f :: t); by rewrite Ht|by exists s].
    + cbn in Ht'. unfold transmit, tx_consume in Ht'. injection Ht' as <-. cbn in *.
      split; [done|]. split; [by exists t|]. eexists. by rewrite Hs, <-(assoc_L (++)).
Qed.

(** ** The invariant

    Every slot has its own socket and there is no socket without a slot. *)

Section Invariant.
Context `{SmolStack} `{!SmolStackLaws}.

Definition handles (core : GuestTcpCore) : list SocketHandle :=
  map ls_handle (listeners core) ++ map cs_handle (host_connections core).

Record wf (core : GuestTcpCore) : Prop := {
  wf_nodup : NoDup (handles core);
  wf_sockets : forall h, h ∈ handles core <-> is_Some (sockets core !! h)
}.

Lemma get_ret core h : wf core -> h ∈ handles core -> exists s, get (sockets core) h = Ret s /\
  sockets core !! h = Some s.
Proof.
  intros [_ Hs] Hh. apply Hs in Hh as [s Hh]. exists s. unfold get. by rewrite Hh.
Qed.

Lemma core_new_spec network mac now d :
  match parse_ipv4_addr (Policy.gateway_ip network) with
  | None => core_new network mac now d = Ret (Err (InvalidIpv4 (Policy.gateway_ip network)))
  | Some ip =>
      if Policy.prefix_len network <=? 32 then
        exists core, core_new network mac now d = Ret (Ok core) /\
          any_ip_enabled core = true /\
          ip_addrs core = [mkCidr ip (Policy.prefix_len network)]
      else core_new network mac now d = Panic
  end.
Proof.
  unfold core_new.
  pose proof (iface_new_addr mac 0xfeedcafed00dbeef d now) as Ha.
  pose proof (iface_new_addrs mac 0xfeedcafed00dbeef d now) as Hl.
  unfold parse_ipv4. destruct (parse_ipv4_addr _) as [ip|]; cbn; [|done].
  rewrite cidr_new_spec. case_test; [|done]. cbn.
  destruct (Ha (mkCidr ip (Policy.prefix_len network))) as [i' Hi]. rewrite Hi.
  apply iface_push_spec in Hi. rewrite Hl in Hi.
  destruct (iface_set_any_ip_spec true i') as [Hany Haddrs].
  eexists. split; [done|]. unfold any_ip_enabled, ip_addrs. cbn. by rewrite Haddrs.
Qed.

Lemma core_new_wf network mac now d core :
  core_new network mac now d = Ret (Ok core) -> wf core /\ handles core = [].
Proof.
  unfold core_new. destruct (parse_ipv4 _) as [ip|]; [|done].
  destruct (Ipv4Cidr_new _ _); cbn; [|done]. destruct (iface_push_ip_addr _ _); [|done].
  intros [= <-]. split; [|done]. split; [apply NoDup_nil_2|]. intros h. cbn. rewrite lookup_empty.
  split; [by intros ?%elem_of_nil|by intros []].
Qed.

(** Adding a socket at a fresh handle together with its slot. *)
Lemma wf_add core core' s :
  wf core -> handles core' ≡ₚ fresh_handle (sockets core) :: handles core ->
  sockets core' = <[fresh_handle (sockets core) := s]> (sockets core) -> wf core'.
Proof.
  intros [Hn Hs] Hp Hss. pose proof (fresh_handle_spec (sockets core)) as Hf.
  assert (fresh_handle (sockets core) ∉ handles core) as Hni.
  { rewrite Hs, Hf. by intros []. }
  split; [rewrite Hp; by apply NoDup_cons|].
  intros h. rewrite Hss, Hp, elem_of_cons, Hs, lookup_insert_is_Some.
  destruct (decide (fresh_handle (sockets core) = h)); naive_solver.
Qed.

Lemma listen_tcp_wf core port : wf core -> wf (listen_tcp core port).2.
Proof.
  intros Hwf. unfold listen_tcp. destruct (socket_listen _ _) as [s|]; [|done].
  eapply (wf_add core); [done| |done]. unfold handles. cbn.
  rewrite map_app. cbn. rewrite <-(assoc_L (++)). cbn. by rewrite <-Permutation_middle.
Qed.

Lemma poll_wf core now d : wf core -> wf (poll core now d).1.2.
Proof.
  intros [Hn Hs]. unfold poll. pose proof (poll_dom now d (interface core) (sockets core)) as Hd.
  destruct (iface_poll _ _ _ _) as [[[r d'] i] ss]. cbn in *. split; [done|].
  intros h. cbn. rewrite <-elem_of_dom, Hd, elem_of_dom. apply Hs.
Qed.

Lemma poll_handles core now d : handles (poll core now d).1.2 = handles core.
Proof. unfold poll. by destruct (iface_poll _ _ _ _) as [[[r d'] i] ss]. Qed.

Lemma poll_queues core now d :
  let d' := (poll core now d).2 in
  mtu d' = mtu d /\ (exists taken, rx d = taken ++ rx d') /\ (exists sent, tx d' = tx d ++ sent).
Proof.
  unfold poll. pose proof (poll_device now d (interface core) (sockets core)) as Hd.
  destruct (iface_poll _ _ _ _) as [[[r d'] i] ss]. by apply device_steps_queues.
Qed.

Lemma connect_to_guest_wf core network gp lp now d :
  wf core -> wf (connect_to_guest core network gp lp now d).1.2.
Proof.
  intros Hwf. unfold connect_to_guest. destruct (parse_ipv4 _) as [ip|]; [|done].
  destruct (socket_connect _ _ _ _) as [[s i]|]; [|done].
  match goal with |- context [poll ?c now d] => assert (wf c) as Hc end.
  { eapply (wf_add core); [done| |done]. unfold handles. cbn.
    rewrite map_app, (assoc_L (++)). cbn. by rewrite <-Permutation_cons_append. }
  apply (poll_wf _ now d) in Hc. by destruct (poll _ now d) as [[r c] d'].
Qed.

Lemma set_socket_wf core h s : wf core -> h ∈ handles core -> wf (set_socket core h s).
Proof.
  intros [Hn Hs] Hh. split; [done|]. intros h'. cbn. rewrite lookup_insert_is_Some.
  destruct (decide (h = h')); [subst; naive_solver|]. rewrite Hs. naive_solver.
Qed.

(** The bytes that passed through the socket of a handle, in both directions. *)
Definition streams (core : GuestTcpCore) (h : SocketHandle) : option (list byte * list byte) :=
  (fun s => (enqueued s, delivered s)) <$> sockets core !! h.

Lemma poll_streams core now d h : streams (poll core now d).1.2 h = streams core h.
Proof.
  unfold poll, streams. pose proof (poll_sockets now d (interface core) (sockets core) h) as Hs.
  pose proof (poll_no_new_sockets now d (interface core) (sockets core) h) as Hn.
  destruct (iface_poll _ _ _ _) as [[[r d'] i] ss]. cbn in *.
  destruct (sockets core !! h) as [s|]; [|by rewrite Hn].
  destruct (Hs s eq_refl) as (s' & -> & [He Hd]). cbn. by rewrite He, Hd.
Qed.

Lemma streams_handle core h : wf core -> h ∈ handles core -> is_Some (streams core h).
Proof. intros [_ Hs] [s Hh]%Hs. unfold streams. rewrite Hh. by eexists. Qed.

Lemma streams_set core h s h' :
  streams (set_socket core h s) h' =
    if decide (h = h') then Some (enqueued s, delivered s) else streams core h'.
Proof.
  unfold streams, set_socket. cbn. destruct (decide (h = h')) as [->|];
    [by rewrite lookup_insert_eq|by rewrite lookup_insert_ne].
Qed.

Lemma poll_slots core now d :
  listeners (poll core now d).1.2 = listeners core /\
  host_connections (poll core now d).1.2 = host_connections core.
Proof. unfold poll. by destruct (iface_poll _ _ _ _) as [[[? ?] ?] ?]. Qed.

(** A connection gets a socket of its own; a failure changes nothing. *)
Lemma connect_to_guest_spec core network gp lp now d :
  wf core ->
  let '(r, core', d') := connect_to_guest core network gp lp now d in
  match r with
  | Ok h => h ∉ handles core /\ listeners core' = listeners core /\
      host_connections core' = host_connections core ++ [mkConnection gp lp h] /\
      streams core' h = Some ([], []) /\
      (forall h', h' <> h -> streams core' h' = streams core h')
  | Err _ => core' = core /\ d' = d
  end.
Proof.
  intros [_ Hs]. unfold connect_to_guest. destruct (parse_ipv4 _) as [ip|]; [|done].
  destruct (socket_connect _ _ _ _) as [[s i]|] eqn:Ec; [|done].
  apply socket_connect_ok in Ec as [He Hd].
  destruct (socket_new_spec DEFAULT_TCP_BUFFER_BYTES DEFAULT_TCP_BUFFER_BYTES) as (_ & He0 & Hd0).
  match goal with |- context [poll ?c now d] =>
    pose proof (poll_slots c now d) as Hp; pose proof (poll_streams c now d) as Hst;
    destruct (poll c now d) as [[? core'] d'] end.
  destruct Hp as [Hl Hc]. cbn [fst snd listeners host_connections] in *. split; [|split; [|split]].
  - rewrite Hs, fresh_handle_spec. by intros [].
  - done.
  - done.
  - split.
    + rewrite Hst. unfold streams. cbn. rewrite lookup_insert_eq. cbn.
      by rewrite He, Hd, He0, Hd0.
    + intros h' Hne. rewrite Hst. unfold streams. cbn. by rewrite lookup_insert_ne.
Qed.

(** ** Receiving *)

(** The loop takes out everything the socket can hand out, in order, and never
    fails. *)
Lemma recv_loop_spec fuel s acc :
  (List.length (recv_queue s) < fuel)%nat ->
  exists bs s', recv_loop fuel s acc = Ret (Ok (acc ++ bs), s') /\
    recv_queue s = bs ++ recv_queue s' /\ delivered s' = delivered s ++ bs /\
    enqueued s' = enqueued s /\ socket_can_recv s' = false.
Proof.
  revert s acc. induction fuel as [|fuel IH]; intros s acc Hf; [lia|]. cbn [recv_loop].
  destruct (socket_can_recv s) eqn:Ec;
    [|exists [], s; by rewrite !app_nil_r].
  apply can_recv_spec in Ec as [Hq Hok].
  destruct (Hok _ (fun data => (len data, data))) as (chunk & s1 & E). rewrite E.
  apply recv_spec in E as (data & rest & Hd & Hr & <- & Hs). cbn [fst snd] in *.
  rewrite bool_decide_false by (intros ->; apply Hq; by rewrite Hd, Hr).
  destruct Hs as (Hq1 & Hdel & Henq); [pose proof (len_nonneg data); lia|].
  rewrite Hd, zdrop_app_exact in Hq1 by done.
  rewrite ztake_all in Hdel by done.
  destruct (IH s1 (acc ++ data)) as (bs & s2 & E2 & Hq2 & Hdel2 & Henq2 & Hc).
  { rewrite Hq1. rewrite Hd, length_app in Hf. destruct data; [|cbn in Hf; lia].
    by rewrite Hd, Hr in Hq. }
  exists (data ++ bs), s2. rewrite E2, Hd, <-Hq1, Hq2, Hdel2, Hdel, Henq2, Henq.
  by rewrite !(assoc_L (++)).
Qed.

Lemma recv_available_lookup core h s :
  sockets core !! h = Some s ->
  exists bs s', recv_available core h = Ret (Ok bs, set_socket core h s') /\
    recv_queue s = bs ++ recv_queue s' /\ delivered s' = delivered s ++ bs /\
    enqueued s' = enqueued s /\ socket_can_recv s' = false.
Proof.
  intros Hs. unfold recv_available, get. rewrite Hs. cbn [exec_bind].
  destruct (recv_loop_spec (S (List.length (recv_queue s))) s []) as (bs & s' & -> & Hq); [lia|].
  by exists bs, s'.
Qed.

(** ** Reaping *)

Definition is_closed (core : GuestTcpCore) (h : SocketHandle) : bool :=
  match sockets core !! h with
  | Some s => bool_decide (socket_state s = State.Closed)
  | None => false
  end.

Lemma closed_handles_spec core hs :
  wf core -> (forall h, h ∈ hs -> h ∈ handles core) ->
  closed_handles core hs = Ret (filter (fun h => is_closed core h) hs).
Proof.
  intros Hwf. induction hs as [|h hs IH]; intros Hsub; [done|]. cbn [closed_handles].
  destruct (get_ret core h Hwf) as (s & -> & Hs); [apply Hsub; by left|]. cbn [exec_bind].
  rewrite IH by (intros; apply Hsub; by right). cbn [exec_bind]. f_equal.
  assert (is_closed core h = bool_decide (socket_state s = State.Closed)) as Ec.
  { unfold is_closed. by rewrite Hs. }
  rewrite filter_cons, Ec. by destruct (bool_decide _).
Qed.

Lemma remove_all_spec ss hs :
  NoDup hs -> (forall h, h ∈ hs -> is_Some (ss !! h)) ->
  remove_all ss hs = Ret (filter (fun p => p.1 ∉ hs) ss).
Proof.
  intros Hn. revert ss. induction Hn as [|h hs Hni Hn IH]; intros ss Hsub; cbn [remove_all].
  - f_equal. symmetry. apply map_filter_id. intros i x _. cbn. apply not_elem_of_nil.
  - unfold remove. destruct (Hsub h) as [s Hs]; [by left|]. rewrite Hs. cbn [exec_bind].
    rewrite IH.
    + f_equal. apply map_eq. intros i. apply option_eq. intros x.
      rewrite !map_lookup_filter_Some, lookup_delete_Some, not_elem_of_cons. naive_solver.
    + intros h' Hh'. rewrite lookup_delete_ne by (intros ->; done). apply Hsub. by right.
Qed.

Lemma elem_of_reaped core (hs : list SocketHandle) h :
  h ∈ filter (fun h => is_closed core h) hs <-> h ∈ hs /\ is_closed core h.
Proof. rewrite list_elem_of_filter. naive_solver. Qed.

Lemma filter_handles {A} (f : A -> SocketHandle) (P : SocketHandle -> bool) (l : list A) :
  map f (filter (fun a => P (f a)) l) = filter (fun h => P h) (map f l).
Proof.
  induction l as [|a l IH]; [done|]. rewrite filter_cons. cbn [map]. rewrite filter_cons.
  destruct (decide (P (f a))); cbn [map]; by rewrite IH.
Qed.

Lemma filter_ext_in {A} (P Q : A -> Prop) `{!forall x, Decision (P x)}
  `{!forall x, Decision (Q x)} (l : list A) :
  (forall x, x ∈ l -> P x <-> Q x) -> filter P l = filter Q l.
Proof.
  induction l as [|a l IH]; intros Hl; [done|]. rewrite !filter_cons.
  rewrite IH by (intros; apply Hl; by right). pose proof (Hl a (list_elem_of_here _ _)).
  repeat case_decide; naive_solver.
Qed.

(** The slots kept when the handles to drop are the closed ones among them. *)
Lemma retain_open {A} core (f : A -> SocketHandle) (l : list A) :
  filter (fun a => f a ∉ filter (fun h => is_closed core h) (map f l)) l =
  filter (fun a => negb (is_closed core (f a))) l.
Proof.
  apply filter_ext_in. intros a Ha. rewrite elem_of_reaped, negb_True.
  assert (f a ∈ map f l) by (by apply list_elem_of_fmap_2). naive_solver.
Qed.

(** What is left once the closed sockets are gone. *)
Definition reaped (core : GuestTcpCore) : GuestTcpCore :=
  mkCore (interface core)
    (filter (fun p => socket_state p.2 <> State.Closed) (sockets core))
    (filter (fun slot => negb (is_closed core (ls_handle slot))) (listeners core))
    (filter (fun slot => negb (is_closed core (cs_handle slot))) (host_connections core)).

Lemma handles_reaped core :
  handles (reaped core) = filter (fun h => negb (is_closed core h)) (handles core).
Proof. unfold handles. cbn. by rewrite !(filter_handles _ (fun h => negb (is_closed core h))), filter_app. Qed.

Lemma reaped_wf core : wf core -> wf (reaped core).
Proof.
  intros [Hn Hs]. split.
  - rewrite handles_reaped. by apply NoDup_filter.
  - intros h. rewrite handles_reaped, list_elem_of_filter, Hs. cbn.
    unfold is_closed, is_Some. setoid_rewrite map_lookup_filter_Some. cbn.
    destruct (sockets core !! h) as [s|]; [|naive_solver].
    destruct (bool_decide_reflect (socket_state s = State.Closed)); naive_solver.
Qed.

Lemma reap_closed_sessions_eq core :
  wf core ->
  reap_closed_sessions core =
    Ret (mkReap (len (filter (fun h => is_closed core h) (map ls_handle (listeners core))))
                (len (filter (fun h => is_closed core h) (map cs_handle (host_connections core)))),
         reaped core).
Proof.
  intros Hwf. unfold reap_closed_sessions.
  rewrite !closed_handles_spec by (done || (intros; unfold handles; set_solver)). cbn [exec_bind].
  rewrite !retain_open, <-filter_app. destruct Hwf as [Hn Hs].
  rewrite remove_all_spec.
  - cbn [exec_bind]. do 2 f_equal. unfold reaped. f_equal. apply map_eq. intros i.
    apply option_eq. intros s. rewrite !map_lookup_filter_Some. cbn.
    rewrite elem_of_reaped, Hs. unfold is_closed.
    split; intros [Hi Hc]; (split; [done|]); rewrite Hi in *;
      destruct (bool_decide_reflect (socket_state s = State.Closed)); naive_solver.
  - by apply NoDup_filter.
  - intros h [Hh _]%elem_of_reaped. by apply Hs.
Qed.

(** ** Listening *)

Definition listens (core : GuestTcpCore) (h : SocketHandle) : Prop :=
  exists s, sockets core !! h = Some s /\ socket_state s = State.Listen.

Lemma find_listener_spec core slots port :
  wf core -> (forall slot, slot ∈ slots -> ls_handle slot ∈ handles core) ->
  exists o, find_listener core slots port = Ret o /\
    match o with
    | Some slot => slot ∈ slots /\ ls_port slot = port /\ listens core (ls_handle slot)
    | None => forall slot, slot ∈ slots -> ls_port slot = port -> ~ listens core (ls_handle slot)
    end.
Proof.
  intros Hwf. induction slots as [|slot rest IH]; intros Hsub; cbn [find_listener].
  { exists None. split; [done|]. by intros ? ?%elem_of_nil. }
  destruct IH as (o & Ho & Hspec); [intros; apply Hsub; by right|].
  destruct (get_ret core (ls_handle slot) Hwf) as (s & Hg & Hs); [apply Hsub; by left|].
  unfold listener_state. rewrite Hg, Ho. cbn [exec_bind]. case_test; [case_test|].
  - exists (Some slot). split; [done|]. split; [by left|]. split; [done|]. by exists s.
  - exists o. split; [done|]. destruct o; [by destruct Hspec; split; [right|]|].
    intros slot' [->|?]%elem_of_cons; [|by apply Hspec]. intros _ (s' & E & ?). congruence.
  - exists o. split; [done|]. destruct o; [by destruct Hspec; split; [right|]|].
    intros slot' [->|?]%elem_of_cons; [|by apply Hspec]. lia.
Qed.

Lemma listener_handle core slot : slot ∈ listeners core -> ls_handle slot ∈ handles core.
Proof. intros. apply elem_of_app. left. by apply list_elem_of_fmap_2. Qed.

Lemma listen_tcp_spec core port h core' :
  listen_tcp core port = (Ok h, core') ->
  mkListener port h ∈ listeners core' /\ listens core' h /\ sockets core ⊆ sockets core'.
Proof.
  unfold listen_tcp. destruct (socket_listen _ _) as [s|] eqn:E; [|done].
  intros [= <- <-]. cbn. split; [set_solver|]. split.
  - exists s. cbn. rewrite lookup_insert_eq. split; [done|]. by eapply socket_listen_ok.
  - apply insert_subseteq, fresh_handle_spec.
Qed.

Lemma listen_tcp_ok core port : 0 < port -> exists h, (listen_tcp core port).1 = Ok h.
Proof.
  intros Hp. unfold listen_tcp.
  destruct (socket_new_spec DEFAULT_TCP_BUFFER_BYTES DEFAULT_TCP_BUFFER_BYTES) as [Hc _].
  destruct (socket_listen_closed _ port Hc Hp) as [s ->]. by eexists.
Qed.

Lemma ensure_listener_wf core port :
  wf core -> holds (ensure_listener core port) (fun r => wf r.2).
Proof.
  intros Hwf. unfold ensure_listener. apply holds_bind.
  destruct (find_listener_spec core (listeners core) port Hwf) as ([slot|] & -> & _);
    [by apply listener_handle|done|]. by apply listen_tcp_wf.
Qed.

(** ** Theorems *)

(** The operations of the core on the sockets it knows. *)
Inductive core_step : GuestTcpCore -> GuestTcpCore -> Prop :=
| core_listen core port : core_step core (listen_tcp core port).2
| core_ensure core port r core' :
    ensure_listener core port = Ret (r, core') -> core_step core core'
| core_poll core now d : core_step core (poll core now d).1.2
| core_poll_delay core now : core_step core (poll_delay core now).2
| core_connect core network gp lp now d :
    core_step core (connect_to_guest core network gp lp now d).1.2
| core_recv core h r core' : recv_available core h = Ret (r, core') -> core_step core core'
| core_send core h data r core' :
    send_to_session core h data = Ret (r, core') -> core_step core core'
| core_close core h core' : close_session core h = Ret core' -> core_step core core'
| core_reap core r core' : reap_closed_sessions core = Ret (r, core') -> core_step core core'.

Lemma get_inv core h s : wf core -> get (sockets core) h = Ret s -> h ∈ handles core.
Proof. intros [_ Hs]. unfold get. destruct (sockets core !! h) eqn:E; [|done]. intros _. apply Hs. by rewrite E. Qed.

Lemma core_step_wf core core' : wf core -> core_step core core' -> wf core'.
Proof.
  intros Hwf Hstep. destruct Hstep as [core port|core port r core' E|core now d|core now
    |core network gp lp now d|core h r core' E|core h data r core' E|core h core' E|core r core' E].
  - by apply listen_tcp_wf.
  - pose proof (ensure_listener_wf core port Hwf) as Hh. by rewrite E in Hh.
  - by apply poll_wf.
  - unfold poll_delay. destruct (iface_poll_delay _ _ _) as [o i]. by destruct Hwf.
  - by apply connect_to_guest_wf.
  - unfold recv_available in E. destruct (get _ _) as [s|] eqn:Eg; [|done].
    cbn [exec_bind] in E. destruct (recv_loop _ _ _) as [[r' s']|]; [|done].
    injection E as <- <-. eauto using set_socket_wf, get_inv.
  - unfold send_to_session in E. destruct (get _ _) as [s|] eqn:Eg; [|done].
    cbn [exec_bind] in E. destruct (socket_send_slice _ _) as [[n s']|];
      injection E as <- <-; eauto using set_socket_wf, get_inv.
  - unfold close_session in E. destruct (get _ _) as [s|] eqn:Eg; [|done].
    injection E as <-. eauto using set_socket_wf, get_inv.
  - rewrite reap_closed_sessions_eq in E by done. injection E as <- <-. by apply reaped_wf.
Qed.

Lemma session_refs_spec core hs refs :
  session_refs core hs = Ret refs ->
  forall a, a ∈ refs -> ref_handle a ∈ hs /\
    session core (ref_handle a) = Ret (Some (ref_session a)).
Proof.
  revert refs. induction hs as [|h hs IH]; intros refs; cbn [session_refs].
  { intros [= <-] a ?%elem_of_nil. done. }
  destruct (session core h) as [o|] eqn:Eo; [|done]. cbn [exec_bind].
  destruct (session_refs core hs) as [l|]; [|done]. cbn [exec_bind]. specialize (IH l eq_refl).
  destruct o as [s|]; intros [= <-] a.
  - intros [->|Ha]%elem_of_cons; [split; [by left|done]|]. destruct (IH a Ha). split; [by right|done].
  - intros Ha. destruct (IH a Ha). split; [by right|done].
Qed.

Lemma session_refs_nodup core hs refs :
  NoDup hs -> session_refs core hs = Ret refs -> NoDup (map ref_handle refs).
Proof.
  intros Hnd. revert refs. induction Hnd as [|h hs Hni Hnd IH]; intros refs; cbn [session_refs].
  { intros [= <-]. constructor. }
  destruct (session core h) as [o|] eqn:Eo; [|done]. cbn [exec_bind].
  destruct (session_refs core hs) as [l|] eqn:El; [|done]. cbn [exec_bind]. specialize (IH l eq_refl).
  destruct o as [s|]; intros [= <-]; [|done]. cbn. constructor; [|done].
  intros (a & Ea & Ha)%list_elem_of_fmap_1. apply Hni. cbn in Ea. rewrite Ea.
  by eapply session_refs_spec.
Qed.

Lemma session_refs_ret core hs :
  wf core -> (forall h, h ∈ hs -> h ∈ handles core) -> returns (session_refs core hs) = true.
Proof.
  intros Hwf. induction hs as [|h hs IH]; intros Hsub; [done|]. cbn [session_refs].
  unfold session. destruct (get_ret core h Hwf) as (s & -> & _); [apply Hsub; by left|].
  cbn [exec_bind]. destruct (returns_inv (session_refs core hs)) as [l ->]; [|done].
  apply IH. intros; apply Hsub; by right.
Qed.

(** C38 (type). In every core reachable from a fresh one each slot owns its
    own socket and there is no socket without a slot, whatever the stack does to
    the sockets in between; so no operation on a handle the core holds panics,
    and neither do the listings, the reaping and the set-up of a listener. *)
Theorem core_reachable_safe network mac now d core0 core :
  core_new network mac now d = Ret (Ok core0) -> rtc core_step core0 core ->
  wf core /\
  returns (active_sessions core) = true /\ returns (host_ingress_sessions core) = true /\
  returns (reap_closed_sessions core) = true /\
  (forall port, returns (ensure_listener core port) = true) /\
  (forall h, h ∈ handles core ->
     returns (recv_available core h) = true /\ returns (close_session core h) = true /\
     forall data, returns (send_to_session core h data) = true).
Proof.
  intros Hnew Hsteps. assert (wf core) as Hwf.
  { apply core_new_wf in Hnew as [Hnew _]. induction Hsteps; eauto using core_step_wf. }
  split; [done|].
  split; [apply session_refs_ret; [done|]; unfold handles; set_solver|].
  split; [apply session_refs_ret; [done|]; unfold handles; set_solver|].
  split; [by rewrite reap_closed_sessions_eq|]. split.
  - intros port. pose proof (ensure_listener_wf core port Hwf) as Hh.
    by destruct (ensure_listener core port).
  - intros h Hh. destruct (get_ret core h Hwf Hh) as (s & Hg & Hs). split; [|split].
    + by destruct (recv_available_lookup core h s Hs) as (bs & s' & -> & _).
    + unfold close_session. by rewrite Hg.
    + intros data. unfold send_to_session. rewrite Hg. cbn. by destruct (socket_send_slice s data) as [[]|].
Qed.

(** After [ensure_listener] on a port other than 0 the core has
    a slot for that port whose socket is listening; every socket it had is kept
    as it was, and a second call finds the same listener and changes nothing. *)
Theorem ensure_listener_spec core port :
  wf core -> 0 < port ->
  exists h core', ensure_listener core port = Ret (Ok h, core') /\
    mkListener port h ∈ listeners core' /\ listens core' h /\ sockets core ⊆ sockets core' /\
    exists h', ensure_listener core' port = Ret (Ok h', core').
Proof.
  intros Hwf Hp. assert (forall core, wf core -> forall slot, slot ∈ listeners core ->
    ls_port slot = port -> listens core (ls_handle slot) ->
    exists h', ensure_listener core port = Ret (Ok h', core)) as Hagain.
  { intros c Hc slot Hin Hport Hl. unfold ensure_listener.
    destruct (find_listener_spec c (listeners c) port Hc) as ([slot'|] & -> & Ho);
      [by apply listener_handle|by eexists|by destruct (Ho slot)]. }
  unfold ensure_listener at 1.
  destruct (find_listener_spec core (listeners core) port Hwf) as ([slot|] & -> & Ho);
    [by apply listener_handle| |]; cbn [exec_bind].
  - destruct Ho as (Hin & Hport & Hl). exists (ls_handle slot), core.
    split; [done|]. split; [by destruct slot; cbn in *; subst|]. eauto.
  - destruct (listen_tcp_ok core port Hp) as [h E].
    pose proof (listen_tcp_wf core port Hwf) as Hwf'.
    destruct (listen_tcp core port) as [r core'] eqn:El. cbn in E, Hwf'. subst r.
    destruct (listen_tcp_spec core port h core' El) as (Hin & Hl & Hsub).
    exists h, core'. split; [done|]. do 3 (split; [done|]).
    by apply (Hagain core' Hwf' (mkListener port h)).
Qed.

(** Reaping removes exactly the closed sockets and their slots,
    reports how many there were of each kind, and keeps every other socket and
    slot, in order. *)
Theorem reap_closed_sessions_spec core :
  wf core ->
  exists r core', reap_closed_sessions core = Ret (r, core') /\ wf core' /\
    (forall h s, sockets core' !! h = Some s <->
       sockets core !! h = Some s /\ socket_state s <> State.Closed) /\
    sublist (listeners core') (listeners core) /\
    sublist (host_connections core') (host_connections core) /\
    listener_sessions r = len (listeners core) - len (listeners core') /\
    reaped_host_connections r = len (host_connections core) - len (host_connections core').
Proof.
  intros Hwf. rewrite reap_closed_sessions_eq by done. eexists _, _. split; [done|].
  split; [by apply reaped_wf|]. cbn.
  assert (forall A (f : A -> SocketHandle) (l : list A),
    len (filter (fun h => is_closed core h) (map f l)) =
    len l - len (filter (fun a => negb (is_closed core (f a))) l)) as Hlen.
  { intros A f l. rewrite <-(filter_handles f (is_closed core)). unfold len. rewrite length_map.
    induction l as [|a l IH]; [done|]. rewrite !filter_cons.
    destruct (is_closed core (f a)); cbn [negb Is_true]; repeat case_decide; try done;
      cbn [List.length] in *; lia. }
  split; [|split; [apply sublist_filter|split; [apply sublist_filter|by split]]].
  intros h s. rewrite map_lookup_filter_Some. naive_solver.
Qed.

(** Receiving from a session ends, without an error, with all
    the bytes the socket could hand out, in the order they arrived, and with
    nothing left that can be received. *)
Theorem recv_available_drains core h s :
  sockets core !! h = Some s ->
  exists bs s', recv_available core h = Ret (Ok bs, set_socket core h s') /\
    recv_queue s = bs ++ recv_queue s' /\ delivered s' = delivered s ++ bs /\
    enqueued s' = enqueued s /\ socket_can_recv s' = false.
Proof. apply recv_available_lookup. Qed.

End Invariant.

(** ** Witnesses, over the stack of [Toy] *)

Definition example_core : GuestTcpCore :=
  mkCore (Toy.mkIface [mkCidr (Ipv4 Byte.x0a Byte.x00 Byte.x02 Byte.x02) 24] true) ∅ [] [].

(** A listener that is closed, one that listens, and a connection with data. *)
Definition example_busy_core : GuestTcpCore :=
  mkCore (Toy.mkIface [] true)
    {[ 0%nat := Toy.mkSocket State.Closed None None [] [] [];
       1%nat := Toy.mkSocket State.Listen None None [] [] [];
       2%nat := Toy.mkSocket State.Established (Some (mkEndpoint Toy.own_ip 40000))
                  (Some (mkEndpoint Toy.own_ip 80)) [Byte.x41; Byte.x42] [] [] ]}
    [mkListener 80 0%nat; mkListener 443 1%nat] [mkConnection 80 40000 2%nat].

Lemma example_busy_wf : wf example_busy_core.
Proof.
  split; [by apply (bool_decide_unpack (NoDup _)); vm_compute|].
  intros h. change (handles example_busy_core) with [0; 1; 2]%nat.
  unfold example_busy_core, sockets. rewrite !lookup_insert_is_Some', lookup_singleton_is_Some.
  rewrite !elem_of_cons, elem_of_nil. naive_solver.
Qed.

Lemma core_reachable_safe_witness :
  core_new Policy.GuestNetwork_default DEFAULT_GATEWAY_MAC 0 (device_new 1514) =
    Ret (Ok example_core) /\
  wf (listen_tcp example_core 80).2 /\
  returns (recv_available (listen_tcp example_core 80).2 0%nat) = true.
Proof.
  split; [reflexivity|].
  destruct (core_reachable_safe Policy.GuestNetwork_default DEFAULT_GATEWAY_MAC 0 (device_new 1514)
    example_core (listen_tcp example_core 80).2) as (Hwf & _ & _ & _ & _ & Hh).
  - reflexivity.
  - apply rtc_once. apply core_listen.
  - split; [exact Hwf|]. apply Hh. left.
Defined.

End GuestTcp.
