(* ===== verification/VmnetGateway.v ===== *)
(** The gateway between the guest's network card and the host
    (src/vm-frontend/src/vmnet_gateway.rs): every frame of the guest is answered
    by the link layer or by the DNS proxy, refused, or handed to the TCP
    endpoints. *)

From stdpp Require Import base option list numbers strings gmap sets relations.
From Stdlib Require Import ZArith Lia Ascii String.
From S2P Require Import Prelude RustStr NetworkPolicy L2Gateway DnsProxy TcpGateway.
From S2P Require Import Smoltcp GuestTcp.

Local Open Scope string_scope.
Local Open Scope list_scope.
Local Open Scope Z_scope.

Module Vmnet.
Import Dns Tcp GuestTcp.

(** ** Outcomes *)

Record UdpDenial := mkUdpDenial {
  ud_src_ip : list byte; ud_dst_ip : list byte; ud_src_port : Z; ud_dst_port : Z;
  ud_reason : string }.

Record UnsupportedProtocol := mkUnsupported { up_reason : string }.

Inductive GuestFrameOutcome :=
| L2Response
| DnsQuery (log : DnsLogEntry)
| UdpDenied (denial : UdpDenial)
| Unsupported (u : UnsupportedProtocol)
| TcpAccepted (destination : TcpDestination) (decision : TcpDecision)
| TcpDenied (destination : TcpDestination) (decision : TcpDecision)
| TcpSetupFailed (destination : TcpDestination) (detail : string)
| TcpProgress
| Ignored.

Record GuestFrameResult := mkFrameResult {
  outcome : GuestFrameOutcome; guest_frames : list (list byte) }.

Record HostIngressConnect := mkConnect {
  connect_handle : SocketHandle; connect_frames : list (list byte) }.

Inductive VmnetGatewayError :=
| Address (e : L2.ParseAddressError)
| TcpCore (e : GuestTcpCoreError).

(** [format!("{:?}")] of the policy for what is not supported. *)
Definition debug_unsupported (p : Policy.UnsupportedPolicy) : string :=
  match p with Policy.DenyAndLog => "DenyAndLog" end.

(** ** DNS frames *)

Record DnsResponseContext := mkDnsContext {
  ctx_src_mac : list byte; ctx_dst_mac : list byte; ctx_src_ip : list byte;
  ctx_dst_ip : list byte; ctx_src_port : Z; ctx_dst_port : Z }.

Record DnsQueryFrame := mkDnsQuery {
  q_src_mac : list byte; q_dst_mac : list byte; q_src_ip : list byte; q_dst_ip : list byte;
  q_src_port : Z; q_dst_port : Z; q_payload : list byte }.

Definition response_context (q : DnsQueryFrame) : DnsResponseContext :=
  mkDnsContext (q_src_mac q) (q_dst_mac q) (q_src_ip q) (q_dst_ip q) (q_src_port q) (q_dst_port q).

Record UdpFrame := mkUdpFrame {
  uf_src_mac : list byte; uf_dst_mac : list byte; uf_src_ip : list byte; uf_dst_ip : list byte;
  uf_src_port : Z; uf_dst_port : Z; uf_payload : list byte }.

(** The IPv4 header before its checksum is filled in. *)
Definition dns_ipv4_header (query : DnsResponseContext) (ip_total_len : Z) : list byte :=
  L2.bytes [0x45; 0] ++ to_be16 (wrap16 ip_total_len) ++ to_be16 0 ++ to_be16 0 ++
  L2.bytes [64; 17] ++ to_be16 0 ++ ctx_dst_ip query ++ ctx_src_ip query.

Definition dns_response_frame (query : DnsResponseContext) (payload : list byte)
  : exec (list byte) :=
  let udp_len := 8 + len payload in
  let ip_total_len := 20 + udp_len in
  let ipv4 := dns_ipv4_header query ip_total_len in
  let! checksum := L2.ipv4_checksum ipv4 in
  let! ipv4 := copy_from_slice ipv4 10 12 (to_be16 checksum) in
  let ipv4 := ipv4 ++ to_be16 (ctx_dst_port query) ++ to_be16 (ctx_src_port query) ++
    to_be16 (wrap16 udp_len) ++ to_be16 0 ++ payload in
  Ret (ctx_src_mac query ++ ctx_dst_mac query ++ to_be16 0x0800 ++ ipv4).

Record DnsFrameResult := mkDnsFrame { frame_response : option (list byte); frame_log : DnsLogEntry }.

Definition from_proxy_result (context : DnsResponseContext) (result : DnsProxyResult)
  : exec DnsFrameResult :=
  match response result with
  | None => Ret (mkDnsFrame None (log result))
  | Some payload =>
      let! frame := dns_response_frame context payload in
      Ret (mkDnsFrame (Some frame) (log result))
  end.

(** [Option::into_iter().collect()]. *)
Definition collect {A} (o : option A) : list A := match o with Some a => [a] | None => [] end.

Section Gateway.
Context `{SmolStack} `{SmolWire} `{Ipv4NetOps} `{HickoryOps}.
(** The upstream resolver, over a state that records what it was asked. *)
Context {W : Type} (exchange : W -> Message -> result Message DnsUpstreamError * W).

Record VmnetGateway := mkGateway {
  policy : Policy.VmnetPolicy;
  l2 : L2.L2Gateway;
  tcp_core : GuestTcpCore;
  tcp_device : QueuedEthernetDevice;
  dns_upstream : W
}.

Record VmnetPendingDnsQuery := mkPendingDns {
  context : DnsResponseContext; request : DnsForwardRequest }.

Inductive VmnetDeferredDnsFrame :=
| DeferImmediate (result : GuestFrameResult)
| DeferForward (pending : VmnetPendingDnsQuery).

Inductive VmnetDnsFramePlan :=
| PlanImmediate (result : DnsFrameResult)
| PlanForward (pending : VmnetPendingDnsQuery).

Definition with_tcp (g : VmnetGateway) (core : GuestTcpCore) (device : QueuedEthernetDevice)
  : VmnetGateway :=
  mkGateway (policy g) (l2 g) core device (dns_upstream g).

Definition ethernet_mtu (policy : Policy.VmnetPolicy) : Z := Policy.mtu policy + 14.

Definition new_with_dns_upstream (policy : Policy.VmnetPolicy) (network : Policy.GuestNetwork)
  (now : Z) (dns_upstream : W) : exec (result VmnetGateway VmnetGatewayError) :=
  let tcp_device := device_new (ethernet_mtu policy) in
  let! core := core_new network DEFAULT_GATEWAY_MAC now tcp_device in
  match core with
  | Err e => Ret (Err (TcpCore e))
  | Ok tcp_core =>
      match L2.from_guest_network network DEFAULT_GATEWAY_MAC (Policy.mtu policy) with
      | Err e => Ret (Err (Address e))
      | Ok l2 => Ret (Ok (mkGateway policy l2 tcp_core tcp_device dns_upstream))
      end
  end.

(** ** Classification of frames *)

Definition parse_udp_frame (frame : list byte) : option UdpFrame :=
  if negb (EthernetFrame_new_checked frame) then None
  else if negb (bool_decide (eth_ethertype frame = EtherIpv4)) then None
  else
    let ip := eth_payload frame in
    if negb (Ipv4Packet_new_checked ip) then None
    else if negb (bool_decide (ipv4_next_header ip = ProtoUdp)) then None
    else
      let udp := ipv4_payload ip in
      if negb (UdpPacket_new_checked udp) then None
      else Some (mkUdpFrame (eth_src_addr frame) (eth_dst_addr frame)
                   (octets (ipv4_src_addr ip)) (octets (ipv4_dst_addr ip))
                   (udp_src_port udp) (udp_dst_port udp) (udp_payload udp)).

Definition parse_dns_query_frame (policy : Policy.VmnetPolicy) (frame : list byte)
  : option DnsQueryFrame :=
  match parse_udp_frame frame with
  | None => None
  | Some udp =>
      if negb (dns_allowed_to_destination policy (uf_dst_ip udp) (uf_dst_port udp)) then None
      else Some (mkDnsQuery (uf_src_mac udp) (uf_dst_mac udp) (uf_src_ip udp) (uf_dst_ip udp)
                   (uf_src_port udp) (uf_dst_port udp) (uf_payload udp))
  end.

Definition udp_denial_from_frame (policy : Policy.VmnetPolicy) (frame : list byte)
  : option UdpDenial :=
  match parse_udp_frame frame with
  | None => None
  | Some udp =>
      let denial reason :=
        Some (mkUdpDenial (uf_src_ip udp) (uf_dst_ip udp) (uf_src_port udp) (uf_dst_port udp)
                reason) in
      let udp_policy := Policy.udp (Policy.protocols policy) in
      if Policy.block_udp_443 udp_policy && (uf_dst_port udp =? 443)
      then denial "udp/443 blocked to prevent QUIC bypass"
      else
        match Policy.udp_default_action udp_policy with
        | Policy.Deny => denial "unsupported UDP denied by default"
        | Policy.AllowPublicInternet => None
        end
  end.

Definition unsupported_ipv4_protocol_from_frame (policy : Policy.VmnetPolicy)
  (ip_payload : list byte) : option UnsupportedProtocol :=
  if negb (Ipv4Packet_new_checked ip_payload)
  then Some (mkUnsupported "malformed IPv4 denied by policy")
  else
    match ipv4_next_header ip_payload with
    | ProtoTcp => None
    | ProtoUdp =>
        if UdpPacket_new_checked (ipv4_payload ip_payload)
        then Some (mkUnsupported "UDP forwarding is not implemented")
        else Some (mkUnsupported "malformed UDP denied by policy")
    | protocol =>
        Some (mkUnsupported ("IPv4 protocol " ++ show_protocol protocol ++ " " ++
          debug_unsupported (Policy.unknown_protocols (Policy.ipv4 (Policy.protocols policy))) ++
          " by policy")%string)
    end.

Definition unsupported_protocol_from_frame (policy : Policy.VmnetPolicy) (frame : list byte)
  : option UnsupportedProtocol :=
  if negb (EthernetFrame_new_checked frame) then None
  else
    match eth_ethertype frame with
    | EtherArp => None
    | EtherIpv6 =>
        Some (mkUnsupported ("IPv6 " ++
          debug_unsupported (Policy.ipv6 (Policy.protocols policy)) ++ " by policy")%string)
    | EtherIpv4 => unsupported_ipv4_protocol_from_frame policy (eth_payload frame)
    | other =>
        Some (mkUnsupported ("ethertype " ++ show_ethertype other ++ " " ++
          debug_unsupported
            (Policy.unknown_ethertypes (Policy.ethernet (Policy.protocols policy))) ++
          " by policy")%string)
    end.

(** ** The reply to a refused connection attempt *)

Definition reset_tcp (tcp : TcpRepr) : TcpRepr := {|
  tr_src_port := tr_dst_port tcp;
  tr_dst_port := tr_src_port tcp;
  tr_control := CtlRst;
  tr_seq_number := 0;
  tr_ack_number := Some (seq_add (tr_seq_number tcp) 1);
  tr_window_len := 0;
  tr_window_scale := None;
  tr_max_seg_size := None;
  tr_sack_permitted := false;
  tr_sack_ranges := [None; None; None];
  tr_timestamp := None;
  tr_payload := []
|}.

(** Emits into [buf[offset..]]. *)
Definition emit_at (emit : list byte -> list byte) (offset : Z) (buf : list byte)
  : exec (list byte) :=
  let! tail := slice buf offset (len buf) in
  Ret (ztake offset buf ++ emit tail).

Definition reset_frame (ethernet : EthernetRepr) (ipv4 : Ipv4Repr) (tcp : TcpRepr)
  : exec (list byte) :=
  let reply_tcp := reset_tcp tcp in
  let reply_ipv4 := mkIpv4Repr (ir_dst_addr ipv4) (ir_src_addr ipv4) ProtoTcp
    (TcpRepr_buffer_len reply_tcp) 64 in
  let reply_ethernet := mkEthernetRepr (er_dst_addr ethernet) (er_src_addr ethernet) EtherIpv4 in
  let ip_offset := EthernetRepr_buffer_len reply_ethernet in
  let tcp_offset := ip_offset + Ipv4Repr_buffer_len reply_ipv4 in
  let reply := replicate (Z.to_nat (tcp_offset + TcpRepr_buffer_len reply_tcp)) Byte.x00 in
  let reply := EthernetRepr_emit reply_ethernet reply in
  let! reply := emit_at (Ipv4Repr_emit reply_ipv4) ip_offset reply in
  emit_at (TcpRepr_emit reply_tcp (ir_src_addr reply_ipv4) (ir_dst_addr reply_ipv4))
    tcp_offset reply.

Definition tcp_reset_for_denied_syn (frame : list byte) : exec (option (list byte)) :=
  if negb (EthernetFrame_new_checked frame) then Ret None
  else
    match EthernetRepr_parse frame with
    | None => Ret None
    | Some ethernet =>
        if negb (bool_decide (er_ethertype ethernet = EtherIpv4)) then Ret None
        else
          let ip_offset := EthernetRepr_buffer_len ethernet in
          let! ip_bytes := slice frame ip_offset (len frame) in
          if negb (Ipv4Packet_new_checked ip_bytes) then Ret None
          else
            match Ipv4Repr_parse ip_bytes with
            | None => Ret None
            | Some ipv4 =>
                if negb (bool_decide (ir_next_header ipv4 = ProtoTcp)) then Ret None
                else
                  let tcp_offset := ip_offset + Ipv4Repr_buffer_len ipv4 in
                  let! tcp_bytes := slice frame tcp_offset (len frame) in
                  if negb (TcpPacket_new_checked tcp_bytes) then Ret None
                  else
                    match TcpRepr_parse tcp_bytes (ir_src_addr ipv4) (ir_dst_addr ipv4) with
                    | None => Ret None
                    | Some tcp =>
                        let! reply := reset_frame ethernet ipv4 tcp in Ret (Some reply)
                    end
            end
    end.

(** ** Operations *)

(** [while let Some(frame) = pop_tx()]; the length of the queue bounds it. *)
Fixpoint drain_loop (fuel : nat) (d : QueuedEthernetDevice) (frames : list (list byte))
  : exec (list (list byte) * QueuedEthernetDevice) :=
  match fuel with
  | O => Panic
  | S fuel =>
      match pop_tx d with
      | (Some frame, d) => drain_loop fuel d (frames ++ [frame])
      | (None, d) => Ret (frames, d)
      end
  end.

Definition drain_tcp_frames (g : VmnetGateway) : exec (list (list byte) * VmnetGateway) :=
  let! (frames, d) := drain_loop (S (List.length (tx (tcp_device g)))) (tcp_device g) [] in
  Ret (frames, with_tcp g (tcp_core g) d).

(** [self.tcp_core.poll(now, &mut self.tcp_device)], whose result is dropped. *)
Definition poll_core (g : VmnetGateway) (now : Z) : VmnetGateway :=
  let '(_, core, device) := poll (tcp_core g) now (tcp_device g) in with_tcp g core device.

Definition poll_tcp (g : VmnetGateway) (now : Z) : exec (list (list byte) * VmnetGateway) :=
  drain_tcp_frames (poll_core g now).

Definition plan_dns_frame (g : VmnetGateway) (frame : list byte)
  : exec (option VmnetDnsFramePlan) :=
  match parse_dns_query_frame (policy g) frame with
  | None => Ret None
  | Some query =>
      let context := response_context query in
      let! plan := plan_udp_payload (policy g) (q_payload query) in
      match plan with
      | Immediate result =>
          let! r := from_proxy_result context result in Ret (Some (PlanImmediate r))
      | Forward request => Ret (Some (PlanForward (mkPendingDns context request)))
      end
  end.

Definition complete_pending_dns_query (pending : VmnetPendingDnsQuery)
  (exchanged : result Message DnsUpstreamError) : exec DnsFrameResult :=
  from_proxy_result (context pending) (complete_forward (request pending) exchanged).

Definition handle_non_dns_guest_frame (g : VmnetGateway) (frame : list byte) (now : Z)
  : exec (GuestFrameResult * VmnetGateway) :=
  match udp_denial_from_frame (policy g) frame with
  | Some denial => Ret (mkFrameResult (UdpDenied denial) [], g)
  | None =>
      match unsupported_protocol_from_frame (policy g) frame with
      | Some unsupported => Ret (mkFrameResult (Unsupported unsupported) [], g)
      | None =>
          let! syn := evaluate_tcp_syn_frame (policy g) frame in
          match syn with
          | Some (destination, decision) =>
              if bool_decide (action decision = TcpDeny) then
                let! reset := tcp_reset_for_denied_syn frame in
                Ret (mkFrameResult (TcpDenied destination decision) (collect reset), g)
              else
                let! (listener, core) := ensure_listener (tcp_core g) (dest_port destination) in
                let g := with_tcp g core (tcp_device g) in
                match listener with
                | Err error =>
                    Ret (mkFrameResult (TcpSetupFailed destination (show_listen_error error)) [],
                         g)
                | Ok _ =>
                    let g := with_tcp g (tcp_core g) (push_rx frame (tcp_device g)) in
                    let! (frames, g) := drain_tcp_frames (poll_core g now) in
                    Ret (mkFrameResult (TcpAccepted destination decision) frames, g)
                end
          | None =>
              let g := with_tcp g (tcp_core g) (push_rx frame (tcp_device g)) in
              let! (frames, g) := drain_tcp_frames (poll_core g now) in
              Ret (mkFrameResult (if bool_decide (frames = []) then Ignored else TcpProgress)
                     frames, g)
          end
      end
  end.

Definition handle_guest_frame_with_deferred_dns (g : VmnetGateway) (frame : list byte) (now : Z)
  : exec (VmnetDeferredDnsFrame * VmnetGateway) :=
  let! reply := L2.handle_frame (l2 g) frame in
  match reply with
  | Some reply => Ret (DeferImmediate (mkFrameResult L2Response [reply]), g)
  | None =>
      let! plan := plan_dns_frame g frame in
      match plan with
      | Some (PlanImmediate result) =>
          Ret (DeferImmediate (mkFrameResult (DnsQuery (frame_log result))
                                 (collect (frame_response result))), g)
      | Some (PlanForward pending) => Ret (DeferForward pending, g)
      | None =>
          let! (result, g) := handle_non_dns_guest_frame g frame now in
          Ret (DeferImmediate result, g)
      end
  end.

Definition handle_guest_frame (g : VmnetGateway) (frame : list byte) (now : Z)
  : exec (GuestFrameResult * VmnetGateway) :=
  let! (deferred, g) := handle_guest_frame_with_deferred_dns g frame now in
  match deferred with
  | DeferImmediate result => Ret (result, g)
  | DeferForward pending =>
      let '(exchanged, w) := exchange (dns_upstream g) (fwd_query (request pending)) in
      let g := mkGateway (policy g) (l2 g) (tcp_core g) (tcp_device g) w in
      let! result := complete_pending_dns_query pending exchanged in
      Ret (mkFrameResult (DnsQuery (frame_log result)) (collect (frame_response result)), g)
  end.

Definition active_tcp_sessions (g : VmnetGateway) : exec (list GuestTcpSessionRef) :=
  active_sessions (tcp_core g).

Definition gateway_ingress_sessions (g : VmnetGateway) : exec (list GuestTcpSessionRef) :=
  host_ingress_sessions (tcp_core g).

Definition connect_host_to_guest (g : VmnetGateway) (guest_port local_port now : Z)
  : exec (result HostIngressConnect GuestTcpConnectError * VmnetGateway) :=
  let '(r, core, device) := connect_to_guest (tcp_core g) (Policy.assignment (policy g))
    guest_port local_port now (tcp_device g) in
  let g := with_tcp g core device in
  match r with
  | Err e => Ret (Err e, g)
  | Ok handle =>
      let! (frames, g) := drain_tcp_frames (poll_core g now) in
      Ret (Ok (mkConnect handle frames), g)
  end.

Definition recv_tcp_session (g : VmnetGateway) (handle : SocketHandle)
  : exec (result (list byte) RecvError * VmnetGateway) :=
  let! (r, core) := recv_available (tcp_core g) handle in
  Ret (r, with_tcp g core (tcp_device g)).

Definition send_tcp_session_partial (g : VmnetGateway) (handle : SocketHandle)
  (data : list byte) (now : Z)
  : exec (result (Z * list (list byte)) SendError * VmnetGateway) :=
  let! (r, core) := send_to_session (tcp_core g) handle data in
  let g := with_tcp g core (tcp_device g) in
  match r with
  | Err e => Ret (Err e, g)
  | Ok written =>
      let! (frames, g) := drain_tcp_frames (poll_core g now) in
      Ret (Ok (written, frames), g)
  end.

Definition send_tcp_session (g : VmnetGateway) (handle : SocketHandle) (data : list byte)
  (now : Z) : exec (result (list (list byte)) SendError * VmnetGateway) :=
  let! (r, core) := send_to_session (tcp_core g) handle data in
  let g := with_tcp g core (tcp_device g) in
  match r with
  | Err e => Ret (Err e, g)
  | Ok _ =>
      let! (frames, g) := drain_tcp_frames (poll_core g now) in
      Ret (Ok frames, g)
  end.

Definition close_tcp_session (g : VmnetGateway) (handle : SocketHandle) (now : Z)
  : exec (list (list byte) * VmnetGateway) :=
  let! core := close_session (tcp_core g) handle in
  drain_tcp_frames (poll_core (with_tcp g core (tcp_device g)) now).

Definition tcp_poll_delay (g : VmnetGateway) (now : Z) : option Z * VmnetGateway :=
  let '(delay, core) := poll_delay (tcp_core g) now in (delay, with_tcp g core (tcp_device g)).

Definition reap_closed_tcp_sessions (g : VmnetGateway) : exec (GuestTcpReap * VmnetGateway) :=
  let! (r, core) := reap_closed_sessions (tcp_core g) in
  Ret (r, with_tcp g core (tcp_device g)).

End Gateway.

(** ** Facts *)

Section Facts.
Context `{SmolStack} `{!SmolStackLaws} `{SmolWire} `{!SmolWireLaws} `{Ipv4NetOps} `{HickoryOps}.
Context {W : Type} (exchange : W -> Message -> result Message DnsUpstreamError * W).
Local Notation VmnetGateway := (VmnetGateway (W := W)).
Implicit Types g : VmnetGateway.

(** Between two operations every frame the stack sent has been handed out. *)
Record gateway_wf g : Prop := {
  gw_l2 : L2.wf (l2 g);
  gw_core : GuestTcp.wf (tcp_core g);
  gw_drained : tx (tcp_device g) = []
}.

(** The two gateways differ in the TCP endpoints only. *)
Definition same_setup g g' : Prop :=
  policy g' = policy g /\ l2 g' = l2 g /\ dns_upstream g' = dns_upstream g.

Lemma with_tcp_id g : with_tcp g (tcp_core g) (tcp_device g) = g.
Proof. by destruct g. Qed.

Lemma drain_loop_spec fuel d acc :
  (List.length (tx d) < fuel)%nat ->
  drain_loop fuel d acc = Ret (acc ++ tx d, mkDevice (mtu d) (rx d) []).
Proof.
  revert d acc. induction fuel as [|fuel IH]; intros [m r t] acc Hf; [lia|]. cbn in Hf.
  cbn [drain_loop]. unfold pop_tx. cbn. destruct t as [|f t]; [by rewrite app_nil_r|].
  rewrite IH by (cbn in *; lia). cbn. by rewrite <-(assoc_L (++)).
Qed.

(** A poll followed by a drain returns every frame the stack sent. *)
Lemma drain_poll_holds g now :
  L2.wf (l2 g) -> GuestTcp.wf (tcp_core g) ->
  holds (drain_tcp_frames (poll_core g now)) (fun r =>
    gateway_wf r.2 /\ same_setup g r.2 /\ r.1 = tx (poll (tcp_core g) now (tcp_device g)).2 /\
    tcp_core r.2 = (poll (tcp_core g) now (tcp_device g)).1.2).
Proof.
  intros Hl Hc. unfold drain_tcp_frames, poll_core.
  pose proof (poll_wf (tcp_core g) now (tcp_device g) Hc) as Hp.
  destruct (poll (tcp_core g) now (tcp_device g)) as [[r core] d]. cbn [fst snd] in Hp.
  cbn [with_tcp tcp_device tcp_core]. rewrite drain_loop_spec by lia. cbn.
  by split; [split|].
Qed.

(** What the code hands to the TCP endpoints: frames too short to be Ethernet,
    ARP, and TCP over IPv4, the latter not when it is a plain packet that opens a
    connection at the endpoints which the policy refuses. *)
Definition forwardable (policy : Policy.VmnetPolicy) (frame : list byte) : Prop :=
  EthernetFrame_new_checked frame = false \/ eth_ethertype frame = EtherArp \/
  (tcp_frame frame /\ (plain_packet frame -> forall d, opens_connection frame d ->
     action (evaluate_tcp_destination policy d) <> TcpDeny)).

Lemma unsupported_none p frame :
  unsupported_protocol_from_frame p frame = None ->
  EthernetFrame_new_checked frame = false \/ eth_ethertype frame = EtherArp \/ tcp_frame frame.
Proof.
  unfold unsupported_protocol_from_frame, unsupported_ipv4_protocol_from_frame, tcp_frame.
  destruct (EthernetFrame_new_checked frame); [|by left]. cbn [negb].
  destruct (eth_ethertype frame); [|by intros _; right; left|done|done].
  destruct (Ipv4Packet_new_checked _); [|done]. cbn [negb].
  destruct (ipv4_next_header _); [by intros _; right; right| |done]. by case_test.
Qed.

(** A refused attempt is answered by one frame. *)
Lemma emit_at_ret emit offset (buf : list byte) :
  0 <= offset <= len buf -> (forall b, len (emit b) = len b) ->
  exists r, emit_at emit offset buf = Ret r /\ len r = len buf.
Proof.
  intros Ho He. unfold emit_at. rewrite slice_from by done. eexists. split; [done|].
  rewrite len_app, He, len_ztake, len_zdrop by lia. lia.
Qed.

Lemma reset_frame_ret e i t : exists r, reset_frame e i t = Ret r.
Proof.
  unfold reset_frame. rewrite eth_repr_len, ipv4_repr_len.
  pose proof (tcp_repr_len (reset_tcp t)) as Ht.
  edestruct emit_at_ret as (r1 & -> & Hl1); [|apply ipv4_emit_len|].
  { rewrite eth_emit_len. unfold len. rewrite length_replicate. lia. }
  cbn [exec_bind].
  edestruct emit_at_ret as (r2 & -> & _); [|apply tcp_emit_len|by eexists].
  rewrite Hl1, eth_emit_len. unfold len. rewrite length_replicate. lia.
Qed.

Lemma reset_for_syn frame d :
  parse_tcp_syn_destination frame = Ret (Some d) ->
  exists r, tcp_reset_for_denied_syn frame = Ret (Some r).
Proof.
  unfold parse_tcp_syn_destination, tcp_reset_for_denied_syn.
  destruct (EthernetFrame_new_checked frame) eqn:Ec; [|done]. cbn [negb].
  destruct (EthernetRepr_parse frame) as [e|]; [|done]. case_test; [done|].
  rewrite ip_slice by done. cbn [exec_bind].
  destruct (Ipv4Packet_new_checked (eth_payload frame)) eqn:Ei; [|done]. cbn [negb].
  destruct (Ipv4Repr_parse _) as [ip|]; [|done]. case_test; [done|].
  rewrite tcp_slice by done. cbn [exec_bind].
  destruct (TcpPacket_new_checked _); [|done]. cbn [negb].
  destruct (TcpRepr_parse _ _ _) as [t|]; [|done]. intros _.
  destruct (reset_frame_ret e ip t) as [r ->]. by eexists.
Qed.

(** ** DNS replies *)

Lemma dns_response_frame_ret q payload :
  len (ctx_src_ip q) = 4 -> len (ctx_dst_ip q) = 4 ->
  exists c,
    let header := L2.bytes [0x45; 0] ++ to_be16 (wrap16 (28 + len payload)) ++ to_be16 0 ++
      to_be16 0 ++ L2.bytes [64; 17] ++ to_be16 c ++ ctx_dst_ip q ++ ctx_src_ip q in
    dns_response_frame q payload =
      Ret (ctx_src_mac q ++ ctx_dst_mac q ++ to_be16 0x0800 ++ header ++
        to_be16 (ctx_dst_port q) ++ to_be16 (ctx_src_port q) ++
        to_be16 (wrap16 (8 + len payload)) ++ to_be16 0 ++ payload) /\
    L2.ipv4_checksum header = Ret 0.
Proof.
  intros Hs Hd. unfold dns_response_frame, dns_ipv4_header.
  replace (20 + (8 + len payload)) with (28 + len payload) by lia.
  set (a := L2.bytes [0x45; 0] ++ to_be16 (wrap16 (28 + len payload)) ++ to_be16 0 ++
    to_be16 0 ++ L2.bytes [64; 17]).
  assert (forall c, L2.bytes [0x45; 0] ++ to_be16 (wrap16 (28 + len payload)) ++ to_be16 0 ++
    to_be16 0 ++ L2.bytes [64; 17] ++ to_be16 c ++ ctx_dst_ip q ++ ctx_src_ip q =
    a ++ to_be16 c ++ ctx_dst_ip q ++ ctx_src_ip q) as Ha by done.
  destruct (L2.checksum_fill a (ctx_dst_ip q ++ ctx_src_ip q) 5) as (c & Ec & _ & E0).
  { done. }
  { rewrite !len_app, Hs, Hd. vm_compute. done. }
  exists c. cbn zeta. rewrite !Ha, Ec. cbn [exec_bind]. rewrite L2.copy_middle by done.
  cbn [exec_bind]. split; [|done]. by rewrite <-!(assoc_L (++)).
Qed.

Lemma from_proxy_result_ret q r :
  len (ctx_src_ip q) = 4 -> len (ctx_dst_ip q) = 4 ->
  exists f, from_proxy_result q r = Ret f /\ frame_log f = log r.
Proof.
  intros Hs Hd. unfold from_proxy_result. destruct (response r) as [p|]; [|by eexists].
  destruct (dns_response_frame_ret q p) as (c & E & _); [done..|].
  rewrite E. by eexists.
Qed.

(** The query a frame carries is UDP to the address and port the guest's DNS
    server has. *)
Lemma parse_dns_query_spec p frame q :
  parse_dns_query_frame p frame = Some q ->
  dns_allowed_to_destination p (q_dst_ip q) (q_dst_port q) = true /\
  len (ctx_src_ip (response_context q)) = 4 /\ len (ctx_dst_ip (response_context q)) = 4 /\
  eth_ethertype frame = EtherIpv4 /\ ipv4_next_header (eth_payload frame) = ProtoUdp /\
  q_payload q = udp_payload (ipv4_payload (eth_payload frame)).
Proof.
  unfold parse_dns_query_frame, parse_udp_frame.
  do 5 (case_test; [done|]). case_test; [done|]. by intros [= <-].
Qed.

(** [plan_dns_frame] never panics; it asks for an exchange only for an allowed
    domain. *)
Definition dns_plan_ok g (frame : list byte) (pending : VmnetPendingDnsQuery) : Prop :=
  exists q, parse_dns_query_frame (policy g) frame = Some q /\
    parse_message (q_payload q) = Ok (fwd_query (request pending)) /\
    query_domain (fwd_query (request pending)) = Some (fwd_domain (request pending)) /\
    domain_allowed (policy g) (fwd_domain (request pending)) = true /\
    context pending = response_context q.

Lemma plan_dns_frame_holds g frame :
  holds (plan_dns_frame g frame) (fun o =>
    forall pending, o = Some (PlanForward pending) -> dns_plan_ok g frame pending).
Proof.
  unfold plan_dns_frame. destruct (parse_dns_query_frame (policy g) frame) as [q|] eqn:Eq; [|done].
  destruct (plan_total (policy g) (q_payload q)) as [[r|req] E]; rewrite E; cbn [exec_bind].
  - apply parse_dns_query_spec in Eq as (_ & Hs & Hd & _).
    destruct (from_proxy_result_ret _ r Hs Hd) as (f & -> & _). by intros ? [=].
  - intros pending [= <-]. apply plan_forward_inv in E as (Ep & Ed & Ea & _). by exists q.
Qed.

(** ** Dispatch *)

(** What each outcome says about the frame, the reply and the state. *)
Definition outcome_ok g (frame : list byte) (r : GuestFrameResult) g' : Prop :=
  match outcome r with
  | L2Response =>
      g' = g /\ exists reply, guest_frames r = [reply] /\
        (L2.answers_arp (l2 g) frame reply \/ L2.answers_dhcp (l2 g) frame reply)
  | DnsQuery _ => g' = g /\ len (guest_frames r) <= 1
  | UdpDenied _ | Unsupported _ | TcpSetupFailed _ _ => g' = g /\ guest_frames r = []
  | TcpDenied d decision =>
      g' = g /\ len (guest_frames r) = 1 /\ syn_segment frame (zdrop 34 frame) d /\
      decision = evaluate_tcp_destination (policy g) d /\ action decision = TcpDeny
  | TcpAccepted d decision =>
      forwardable (policy g) frame /\ syn_segment frame (zdrop 34 frame) d /\
      decision = evaluate_tcp_destination (policy g) d /\ action decision <> TcpDeny
  | TcpProgress => forwardable (policy g) frame /\ forall d, ~ syn_segment frame (zdrop 34 frame) d
  | Ignored =>
      forwardable (policy g) frame /\ (forall d, ~ syn_segment frame (zdrop 34 frame) d) /\
      guest_frames r = []
  end.

(** Handing a frame to the endpoints. *)
Lemma forward_holds g core frame now :
  gateway_wf g -> GuestTcp.wf core ->
  holds (drain_tcp_frames (poll_core (with_tcp g core (push_rx frame (tcp_device g))) now))
    (fun r => gateway_wf r.2 /\ same_setup g r.2).
Proof.
  intros [Hl _ Htx] Hc. eapply holds_mono; [by apply drain_poll_holds|]. cbn. tauto.
Qed.

Lemma ensure_listener_err core port e core' :
  ensure_listener core port = Ret (Err e, core') -> core' = core.
Proof.
  unfold ensure_listener. destruct (find_listener _ _ _) as [[slot|]|]; cbn; [done| |done].
  unfold listen_tcp. destruct (socket_listen _ _); [done|]. by intros [= _ <-].
Qed.

Lemma handle_non_dns_holds g frame now :
  gateway_wf g ->
  holds (handle_non_dns_guest_frame g frame now) (fun r =>
    gateway_wf r.2 /\ same_setup g r.2 /\ outcome_ok g frame r.1 r.2).
Proof.
  intros Hwf. unfold handle_non_dns_guest_frame, outcome_ok.
  destruct (udp_denial_from_frame (policy g) frame); [by cbn|].
  destruct (unsupported_protocol_from_frame (policy g) frame) eqn:Eu; [by cbn|].
  apply unsupported_none in Eu.
  destruct (parse_tcp_syn_spec frame) as (o & Eo & Ho).
  unfold evaluate_tcp_syn_frame. rewrite Eo. cbn [exec_bind]. destruct o as [d|]; cbn [option_map].
  - pose proof (proj1 (Ho d) eq_refl) as Hd. pose proof (proj1 Hd) as Htcp. case_test.
    { destruct (reset_for_syn frame d Eo) as [r ->]. by cbn. }
    pose proof (ensure_listener_wf (tcp_core g) (dest_port d) (gw_core g Hwf)) as He.
    destruct (ensure_listener _ _) as [[[h|e] core]|] eqn:El; [|cbn|done]; cbn [exec_bind].
    + apply holds_bind. eapply holds_mono; [by apply (forward_holds g core)|].
      intros [fs g'] [Hw Hs]. cbn in *. do 2 (split; [done|]). split; [|done].
      right; right. split; [done|]. intros Hp d' Hd'. unfold opens_connection in Hd'. rewrite Hp in Hd'.
      apply Ho in Hd' as [= <-]. done.
    + apply ensure_listener_err in El as ->. rewrite with_tcp_id. by cbn.
  - apply holds_bind. eapply holds_mono; [by apply (forward_holds g), gw_core|].
    intros [fs g'] [Hw Hs]. cbn in *. do 2 (split; [done|]).
    assert (forwardable (policy g) frame) as Hf.
    { destruct Eu as [?|[?|?]]; [by left|by right; left|right; right].
      split; [done|]. intros Hp d Hd. unfold opens_connection in Hd. rewrite Hp in Hd. by apply Ho in Hd. }
    assert (forall d, ~ syn_segment frame (zdrop 34 frame) d) as Hn by (by intros d ?%Ho).
    case_test; by cbn.
Qed.

Lemma handle_deferred_holds g frame now :
  gateway_wf g ->
  holds (handle_guest_frame_with_deferred_dns g frame now) (fun r =>
    gateway_wf r.2 /\ same_setup g r.2 /\
    match r.1 with
    | DeferImmediate result => outcome_ok g frame result r.2
    | DeferForward pending => r.2 = g /\ dns_plan_ok g frame pending
    end).
Proof.
  intros Hwf. unfold handle_guest_frame_with_deferred_dns.
  apply holds_bind. eapply holds_mono; [by apply L2.handle_frame_holds, gw_l2|].
  intros [reply|] Hreply; [cbn; do 2 (split; [done|]); split; [done|]; by eauto|].
  apply holds_bind. eapply holds_mono; [apply plan_dns_frame_holds|].
  intros [[result|pending]|] Hplan.
  - cbn. do 2 (split; [done|]). split; [done|]. by destruct (frame_response result).
  - cbn. do 2 (split; [done|]). eauto.
  - apply holds_bind. eapply holds_mono; [by apply handle_non_dns_holds|]. by intros [r g'].
Qed.

(** ** Histories of operations *)

Lemma gateway_new_wf p network now w g :
  0 <= Policy.prefix_len network <= u8_max -> 0 <= Policy.mtu p <= u16_max ->
  new_with_dns_upstream p network now w = Ret (Ok g) -> gateway_wf g /\ policy g = p.
Proof.
  intros Hp Hm. unfold new_with_dns_upstream.
  destruct (core_new _ _ _ _) as [[core|e]|] eqn:Ec; cbn [exec_bind]; [|done|done].
  destruct (L2.from_guest_network _ _ _) as [l|] eqn:El; [|done]. intros [= <-].
  split; [|done]. split; cbn; [|by eapply core_new_wf|done].
  by apply (L2.from_guest_network_wf network DEFAULT_GATEWAY_MAC (Policy.mtu p)).
Qed.

(** The effect of an operation on a session: the gateway stays well formed, with
    the same sockets, and only the byte streams of [h] may change. *)
Record session_effect g (h : SocketHandle) (after : list byte * list byte) g' : Prop := {
  se_wf : gateway_wf g';
  se_setup : same_setup g g';
  se_handles : handles (tcp_core g') = handles (tcp_core g);
  se_slots : host_connections (tcp_core g') = host_connections (tcp_core g);
  se_streams h' : streams (tcp_core g') h' =
    if decide (h = h') then Some after else streams (tcp_core g) h'
}.

Lemma drain_poll_effect g core now h after :
  gateway_wf g -> GuestTcp.wf core -> handles core = handles (tcp_core g) ->
  host_connections core = host_connections (tcp_core g) ->
  (forall h', streams core h' = if decide (h = h') then Some after else streams (tcp_core g) h') ->
  holds (drain_tcp_frames (poll_core (with_tcp g core (tcp_device g)) now))
    (fun r => session_effect g h after r.2).
Proof.
  intros [Hl Hc Htx] Hwf Hh Hslots Hst. eapply holds_mono; [by apply drain_poll_holds|].
  intros [fs g'] (Hw & Hs & _ & Ec). cbn in *. split; [done|done|..]; rewrite Ec.
  - by rewrite poll_handles.
  - unfold poll. by destruct (iface_poll _ _ _ _) as [[[? ?] ?] ?].
  - intros h'. by rewrite poll_streams, Hst.
Qed.

Lemma recv_tcp_session_holds g h e d :
  gateway_wf g -> h ∈ handles (tcp_core g) -> streams (tcp_core g) h = Some (e, d) ->
  holds (recv_tcp_session g h) (fun r => exists bs, r.1 = Ok bs /\
    session_effect g h (e, d ++ bs) r.2).
Proof.
  intros [Hl Hc Htx] Hh Hst. unfold recv_tcp_session.
  destruct (sockets (tcp_core g) !! h) as [s|] eqn:Es; unfold streams in Hst; rewrite Es in Hst;
    [|done]. injection Hst as <- <-.
  destruct (recv_available_lookup (tcp_core g) h s Es) as (bs & s' & -> & _ & Hd & He & _).
  cbn. exists bs. split; [done|]. split; [|done|done|done|].
  - split; [done| |done]. by apply set_socket_wf.
  - intros h'. cbn. by rewrite streams_set, He, Hd.
Qed.

(** Receiving from a socket with nothing to receive changes nothing. *)
Lemma recv_nothing g h sock :
  sockets (tcp_core g) !! h = Some sock -> socket_can_recv sock = false ->
  recv_tcp_session g h = Ret (Ok [], g).
Proof.
  intros Hs Hr. unfold recv_tcp_session, recv_available, get. rewrite Hs. cbn [exec_bind recv_loop].
  rewrite Hr. cbn [exec_bind]. unfold set_socket. rewrite insert_id by done.
  by destruct g as [? ? [] ? ?].
Qed.

Lemma send_partial_holds g h data now e d :
  gateway_wf g -> h ∈ handles (tcp_core g) -> streams (tcp_core g) h = Some (e, d) ->
  holds (send_tcp_session_partial g h data now) (fun r =>
    match r.1 with
    | Ok (n, _) => 0 <= n <= len data /\ session_effect g h (e ++ ztake n data, d) r.2
    | Err _ => r.2 = g
    end).
Proof.
  intros Hwf Hh Hst. unfold send_tcp_session_partial, send_to_session, get.
  destruct (sockets (tcp_core g) !! h) as [s|] eqn:Es; unfold streams in Hst; rewrite Es in Hst;
    [|done]. injection Hst as <- <-. cbn [exec_bind].
  destruct (socket_send_slice s data) as [[n s']|err] eqn:E; cbn [exec_bind];
    [|by cbn; rewrite with_tcp_id].
  apply send_spec in E as (Hn & He & Hd).
  apply holds_bind. eapply holds_mono;
    [apply (drain_poll_effect g _ now h (enqueued s ++ ztake n data, delivered s))|].
  - done.
  - apply set_socket_wf; [apply Hwf|done].
  - done.
  - done.
  - intros h'. by rewrite streams_set, He, Hd.
  - intros [fs g'] Hse. by split.
Qed.

Lemma close_holds g h now e d :
  gateway_wf g -> h ∈ handles (tcp_core g) -> streams (tcp_core g) h = Some (e, d) ->
  holds (close_tcp_session g h now) (fun r => session_effect g h (e, d) r.2).
Proof.
  intros Hwf Hh Hst. unfold close_tcp_session, close_session, get.
  destruct (sockets (tcp_core g) !! h) as [s|] eqn:Es; unfold streams in Hst; rewrite Es in Hst;
    [|done]. injection Hst as <- <-. cbn [exec_bind].
  apply drain_poll_effect; [done| |done|done|].
  - apply set_socket_wf; [apply Hwf|done].
  - intros h'. rewrite streams_set. by destruct (close_spec s) as [-> ->].
Qed.

(** The gateway has the same sessions, with the same bytes. *)
Definition untouched g g' : Prop :=
  gateway_wf g' /\ same_setup g g' /\ handles (tcp_core g') = handles (tcp_core g) /\
  host_connections (tcp_core g') = host_connections (tcp_core g) /\
  forall h, streams (tcp_core g') h = streams (tcp_core g) h.

Lemma close_untouched g h now :
  gateway_wf g -> h ∈ handles (tcp_core g) ->
  holds (close_tcp_session g h now) (fun r => untouched g r.2).
Proof.
  intros Hw Hh. destruct (streams_handle _ h (gw_core _ Hw) Hh) as [[e d] Hst].
  eapply holds_mono; [by apply close_holds|]. intros [fs g'] [? ? ? ? Hs].
  repeat (split; [done|]). intros h'. rewrite Hs. by destruct (decide (h = h')) as [<-|].
Qed.

Lemma poll_untouched g now :
  gateway_wf g -> holds (poll_tcp g now) (fun r => untouched g r.2).
Proof.
  intros Hw. eapply holds_mono; [apply drain_poll_holds; apply Hw|].
  intros [fs g'] (? & ? & _ & Ec). cbn in Ec. split; [done|]. split; [done|]. cbn. rewrite Ec.
  split; [apply poll_handles|]. split; [apply poll_slots|]. apply poll_streams.
Qed.

Lemma connect_host_holds g gp lp now :
  gateway_wf g ->
  holds (connect_host_to_guest g gp lp now) (fun r =>
    gateway_wf r.2 /\ same_setup g r.2 /\
    match r.1 with
    | Ok c => connect_handle c ∉ handles (tcp_core g) /\
        handles (tcp_core r.2) = handles (tcp_core g) ++ [connect_handle c] /\
        host_connections (tcp_core r.2) =
          host_connections (tcp_core g) ++ [mkConnection gp lp (connect_handle c)] /\
        streams (tcp_core r.2) (connect_handle c) = Some ([], []) /\
        (forall h', h' <> connect_handle c -> streams (tcp_core r.2) h' = streams (tcp_core g) h')
    | Err _ => r.2 = g
    end).
Proof.
  intros Hwf. unfold connect_host_to_guest.
  pose proof (connect_to_guest_wf (tcp_core g) (Policy.assignment (policy g)) gp lp now
    (tcp_device g) (gw_core g Hwf)) as Hc.
  pose proof (connect_to_guest_spec (tcp_core g) (Policy.assignment (policy g)) gp lp now
    (tcp_device g) (gw_core g Hwf)) as Hspec.
  destruct (connect_to_guest _ _ _ _ _ _) as [[[h|e] core] d]; cbn in Hc;
    [|destruct Hspec as [-> ->]; cbn; by rewrite with_tcp_id].
  destruct Hspec as (Hni & Hl & Hcs & Hst & Hoth). apply holds_bind.
  eapply holds_mono; [apply drain_poll_holds; [apply Hwf|done]|].
  intros [fs g'] (Hw & Hs & _ & Ec). cbn in *. split; [done|]. split; [done|].
  split; [done|]. rewrite Ec, poll_handles, poll_streams. destruct (poll_slots core now d) as [_ ->].
  split; [|split; [done|split; [done|]]].
  - unfold handles. by rewrite Hl, Hcs, map_app, (assoc_L (++)).
  - intros h' Hne. rewrite poll_streams. by apply Hoth.
Qed.

Lemma handle_guest_frame_holds g frame now :
  gateway_wf g ->
  holds (handle_guest_frame exchange g frame now) (fun r =>
    gateway_wf r.2 /\ policy r.2 = policy g /\ l2 r.2 = l2 g /\
    (dns_upstream r.2 = dns_upstream g \/
     exists pending, dns_plan_ok g frame pending /\
       dns_upstream r.2 = (exchange (dns_upstream g) (fwd_query (request pending))).2)).
Proof.
  intros Hwf. unfold handle_guest_frame. apply holds_bind.
  eapply holds_mono; [by apply handle_deferred_holds|].
  intros [[result|pending] g'] (Hw & (Hp & Hl & Hd) & Hr); cbn in *; [by auto|].
  destruct Hr as [-> Hok].
  destruct (exchange (dns_upstream g) (fwd_query (request pending))) as [ex w] eqn:Ex.
  pose proof Hok as (q & Hq & _ & _ & _ & Hctx).
  apply parse_dns_query_spec in Hq as (_ & Hs4 & Hd4 & _). rewrite <-Hctx in Hs4, Hd4.
  unfold complete_pending_dns_query.
  destruct (from_proxy_result_ret _ (complete_forward (request pending) ex) Hs4 Hd4) as (f & -> & _).
  cbn. split; [by destruct Hw|]. split; [done|]. split; [done|]. right.
  exists pending. by rewrite Ex.
Qed.

(** The sessions of the gateway keep their bytes while a frame is handled. *)
Definition sessions_kept g g' : Prop :=
  host_connections (tcp_core g') = host_connections (tcp_core g) /\
  forall h, h ∈ handles (tcp_core g) -> streams (tcp_core g') h = streams (tcp_core g) h.

#[local] Instance sessions_kept_refl : Reflexive sessions_kept.
Proof. done. Qed.

Lemma forward_kept g core frame now r g' :
  gateway_wf g -> GuestTcp.wf core ->
  host_connections core = host_connections (tcp_core g) ->
  (forall h, h ∈ handles (tcp_core g) -> streams core h = streams (tcp_core g) h) ->
  drain_tcp_frames (poll_core (with_tcp g core (push_rx frame (tcp_device g))) now) = Ret (r, g') ->
  sessions_kept g g'.
Proof.
  intros [Hl _ _] Hc Hcs Hst E.
  pose proof (drain_poll_holds (with_tcp g core (push_rx frame (tcp_device g))) now Hl Hc) as Hh.
  rewrite E in Hh. destruct Hh as (_ & _ & _ & Ec). cbn in Ec. split; rewrite Ec.
  - rewrite <-Hcs. apply poll_slots.
  - intros h Hh. rewrite poll_streams. by apply Hst.
Qed.

Lemma ensure_listener_kept core port r core' :
  GuestTcp.wf core -> ensure_listener core port = Ret (r, core') ->
  host_connections core' = host_connections core /\
  forall h, h ∈ handles core -> streams core' h = streams core h.
Proof.
  intros Hw. unfold ensure_listener. destruct (find_listener _ _ _) as [[slot|]|]; cbn; [|..|done].
  - by intros [= _ <-].
  - unfold listen_tcp. destruct (socket_listen _ _); intros [= _ <-]; [|done].
    split; [done|]. intros h Hh%Hw. unfold streams. cbn. rewrite lookup_insert_ne; [done|].
    intros <-. rewrite fresh_handle_spec in Hh. by destruct Hh.
Qed.

Lemma handle_non_dns_kept g frame now r g' :
  gateway_wf g -> handle_non_dns_guest_frame g frame now = Ret (r, g') -> sessions_kept g g'.
Proof.
  intros Hwf. unfold handle_non_dns_guest_frame.
  destruct (udp_denial_from_frame _ _); [by intros [= _ <-]|].
  destruct (unsupported_protocol_from_frame _ _); [by intros [= _ <-]|].
  destruct (evaluate_tcp_syn_frame _ _) as [[[d dec]|]|]; cbn [exec_bind]; [..|done].
  - case_test; [destruct (tcp_reset_for_denied_syn frame); [by intros [= _ <-]|done]|].
    pose proof (ensure_listener_wf (tcp_core g) (dest_port d) (gw_core g Hwf)) as He.
    destruct (ensure_listener _ _) as [[l core]|] eqn:El; cbn [exec_bind]; [|done].
    apply ensure_listener_kept in El as [Hcs Hst]; [|apply Hwf].
    destruct l as [h|e]; [|by intros [= _ <-]].
    destruct (drain_tcp_frames _) as [[fs g2]|] eqn:Ed; [|done]. intros [= _ <-].
    by eapply (forward_kept g core).
  - destruct (drain_tcp_frames _) as [[fs g2]|] eqn:Ed; [|done]. intros [= _ <-].
    eapply (forward_kept g (tcp_core g)); [done|apply Hwf|done|done|exact Ed].
Qed.

Lemma handle_deferred_kept g frame now r g' :
  gateway_wf g -> handle_guest_frame_with_deferred_dns g frame now = Ret (r, g') ->
  sessions_kept g g'.
Proof.
  intros Hwf. unfold handle_guest_frame_with_deferred_dns.
  destruct (L2.handle_frame _ _) as [[reply|]|]; cbn [exec_bind]; [by intros [= _ <-]| |done].
  destruct (plan_dns_frame g frame) as [[[res|pending]|]|]; cbn [exec_bind];
    [by intros [= _ <-]|by intros [= _ <-]| |done].
  destruct (handle_non_dns_guest_frame g frame now) as [[res g2]|] eqn:E; [|done].
  intros [= _ <-]. by eapply handle_non_dns_kept.
Qed.

Lemma handle_guest_frame_kept g frame now r g' :
  gateway_wf g -> handle_guest_frame exchange g frame now = Ret (r, g') -> sessions_kept g g'.
Proof.
  intros Hwf. unfold handle_guest_frame.
  destruct (handle_guest_frame_with_deferred_dns g frame now) as [[d g2]|] eqn:E; [|done].
  apply handle_deferred_kept in E; [|done]. cbn [exec_bind].
  destruct d as [res|pending]; [by intros [= _ <-]|].
  destruct (exchange _ _) as [ex w].
  destruct (complete_pending_dns_query pending ex); [|done]. by intros [= _ <-].
Qed.

(** The operations of the gateway, on the sessions it has. *)
Inductive gateway_step : VmnetGateway -> VmnetGateway -> Prop :=
| gs_frame g frame now r g' :
    handle_guest_frame exchange g frame now = Ret (r, g') -> gateway_step g g'
| gs_deferred g frame now r g' :
    handle_guest_frame_with_deferred_dns g frame now = Ret (r, g') -> gateway_step g g'
| gs_connect g gp lp now r g' :
    connect_host_to_guest g gp lp now = Ret (r, g') -> gateway_step g g'
| gs_recv g h r g' : recv_tcp_session g h = Ret (r, g') -> gateway_step g g'
| gs_send g h data now r g' : send_tcp_session g h data now = Ret (r, g') -> gateway_step g g'
| gs_send_partial g h data now r g' :
    send_tcp_session_partial g h data now = Ret (r, g') -> gateway_step g g'
| gs_close g h now r g' : close_tcp_session g h now = Ret (r, g') -> gateway_step g g'
| gs_poll_delay g now : gateway_step g (tcp_poll_delay g now).2
| gs_poll g now r g' : poll_tcp g now = Ret (r, g') -> gateway_step g g'
| gs_reap g r g' : reap_closed_tcp_sessions g = Ret (r, g') -> gateway_step g g'.

(** What every operation leaves as it was. *)
Definition kept g g' : Prop := gateway_wf g' /\ policy g' = policy g /\ l2 g' = l2 g.

Lemma kept_core g core : gateway_wf g -> core_step (tcp_core g) core ->
  kept g (with_tcp g core (tcp_device g)).
Proof.
  intros [Hl Hc Ht] Hstep. split; [|done]. split; cbn; [done| |done].
  by eapply core_step_wf.
Qed.

Lemma kept_drain g core now r g' :
  gateway_wf g -> core_step (tcp_core g) core ->
  drain_tcp_frames (poll_core (with_tcp g core (tcp_device g)) now) = Ret (r, g') -> kept g g'.
Proof.
  intros Hwf Hstep E. destruct (kept_core g core Hwf Hstep) as ([Hl Hc _] & _).
  pose proof (drain_poll_holds (with_tcp g core (tcp_device g)) now Hl Hc) as Hh.
  rewrite E in Hh. destruct Hh as (Hw & (Hp & Hl' & _) & _). done.
Qed.

Lemma gateway_step_kept g g' : gateway_wf g -> gateway_step g g' -> kept g g'.
Proof.
  intros Hwf Hstep. destruct Hstep as [g frame now r g' E|g frame now r g' E|g gp lp now r g' E
    |g h r g' E|g h data now r g' E|g h data now r g' E|g h now r g' E|g now|g now r g' E|g r g' E].
  - pose proof (handle_guest_frame_holds g frame now Hwf) as Hh. rewrite E in Hh. by destruct Hh as (?&?&?&_).
  - pose proof (handle_deferred_holds g frame now Hwf) as Hh. rewrite E in Hh.
    by destruct Hh as (? & (? & ? & _) & _).
  - pose proof (connect_host_holds g gp lp now Hwf) as Hh. rewrite E in Hh.
    by destruct Hh as (? & (? & ? & _) & _).
  - unfold recv_tcp_session in E. destruct (recv_available _ _) as [[r' c]|] eqn:Er; [|done].
    injection E as <- <-. eapply kept_core; [done|by eapply core_recv].
  - unfold send_tcp_session in E. destruct (send_to_session _ _ _) as [[[n|e] c]|] eqn:Es;
      cbn [exec_bind] in E; [| |done].
    + destruct (drain_tcp_frames _) as [[fs g2]|] eqn:Ed; [|done]. injection E as <- <-.
      eapply kept_drain; [done|by eapply core_send|done].
    + injection E as <- <-. eapply kept_core; [done|by eapply core_send].
  - unfold send_tcp_session_partial in E. destruct (send_to_session _ _ _) as [[[n|e] c]|] eqn:Es;
      cbn [exec_bind] in E; [| |done].
    + destruct (drain_tcp_frames _) as [[fs g2]|] eqn:Ed; [|done]. injection E as <- <-.
      eapply kept_drain; [done|by eapply core_send|done].
    + injection E as <- <-. eapply kept_core; [done|by eapply core_send].
  - unfold close_tcp_session in E. destruct (close_session _ _) as [c|] eqn:Ec; [|done].
    eapply kept_drain; [done|by eapply core_close|done].
  - unfold tcp_poll_delay. pose proof (core_poll_delay (tcp_core g) now) as Hp.
    destruct (poll_delay _ _) as [o c]. by apply kept_core.
  - unfold poll_tcp in E. pose proof (drain_poll_holds g now (gw_l2 g Hwf) (gw_core g Hwf)) as Hh.
    rewrite E in Hh. by destruct Hh as (? & (? & ? & _) & _).
  - unfold reap_closed_tcp_sessions in E. destruct (reap_closed_sessions _) as [[r' c]|] eqn:Er; [|done].
    injection E as <- <-. eapply kept_core; [done|by eapply core_reap].
Qed.

(** ** Theorems *)


(** The upstream resolver hears of a frame only when the frame is a
    UDP packet to the DNS server of the guest's network whose payload decodes to
    one question for an allowed domain; on any other frame its state is the same
    afterwards. *)
Theorem guest_frame_dns_upstream g frame now :
  gateway_wf g ->
  exists r g', handle_guest_frame exchange g frame now = Ret (r, g') /\
    (dns_upstream g' = dns_upstream g \/
     exists q query domain,
       parse_dns_query_frame (policy g) frame = Some q /\
       dns_allowed_to_destination (policy g) (q_dst_ip q) (q_dst_port q) = true /\
       ipv4_next_header (eth_payload frame) = ProtoUdp /\
       parse_message (q_payload q) = Ok query /\ query_domain query = Some domain /\
       domain_allowed (policy g) domain = true /\
       dns_upstream g' = (exchange (dns_upstream g) query).2).
Proof.
  intros Hwf. pose proof (handle_guest_frame_holds g frame now Hwf) as Hh.
  apply holds_ret in Hh as ([r g'] & E & _ & _ & _ & [Hd|(pending & Hok & Hd)]);
    exists r, g'; (split; [done|]); [by left|right].
  destruct Hok as (q & Hq & Hm & Hdom & Ha & _).
  exists q, (fwd_query (request pending)), (fwd_domain (request pending)).
  pose proof (parse_dns_query_spec _ _ _ Hq) as (Hdst & _ & _ & _ & Hudp & _). done.
Qed.

(** The reply to a DNS query goes back where the query came
    from: hardware addresses, addresses and ports are swapped, the IPv4 header
    passes its checksum, and for a payload of at most 65507 bytes the length
    fields are those of the frame. *)
Theorem dns_response_frame_spec p frame q payload :
  parse_dns_query_frame p frame = Some q -> len payload <= 65507 ->
  exists c,
    let header := L2.bytes [0x45; 0] ++ to_be16 (28 + len payload) ++ to_be16 0 ++
      to_be16 0 ++ L2.bytes [64; 17] ++ to_be16 c ++ q_dst_ip q ++ q_src_ip q in
    dns_response_frame (response_context q) payload =
      Ret (q_src_mac q ++ q_dst_mac q ++ to_be16 0x0800 ++ header ++
        to_be16 (q_dst_port q) ++ to_be16 (q_src_port q) ++
        to_be16 (8 + len payload) ++ to_be16 0 ++ payload) /\
    L2.ipv4_checksum header = Ret 0.
Proof.
  intros Hq Hp. apply parse_dns_query_spec in Hq as (_ & Hs & Hd & _).
  destruct (dns_response_frame_ret (response_context q) payload Hs Hd) as (c & E & E0).
  exists c. pose proof (len_nonneg payload). unfold wrap16 in E, E0.
  rewrite !Z.mod_small in E by lia. rewrite Z.mod_small in E0 by lia. done.
Qed.

(** Over any history of operations from a fresh gateway, with
    any upstream resolver and any behaviour of the stack, the policy in force and
    the link-layer addresses are the configured ones, every socket belongs to a
    slot, every frame the stack sent has been handed out, and the next frame of
    the guest is handled without a panic. *)
Theorem gateway_reachable p network now w g0 g :
  0 <= Policy.prefix_len network <= u8_max -> 0 <= Policy.mtu p <= u16_max ->
  new_with_dns_upstream p network now w = Ret (Ok g0) -> rtc gateway_step g0 g ->
  gateway_wf g /\ policy g = p /\ l2 g = l2 g0 /\
  forall frame t, returns (handle_guest_frame exchange g frame t) = true.
Proof.
  intros Hp Hm Hnew Hsteps. apply gateway_new_wf in Hnew as [Hw Hpol]; [|done..].
  assert (kept g0 g) as (Hwf & Hp' & Hl').
  { induction Hsteps as [g|g g1 g2 Hstep _ IH]; [done|].
    destruct (gateway_step_kept g g1 Hw Hstep) as (Hw1 & Hp1 & Hl1).
    destruct IH as (Hw2 & Hp2 & Hl2); [done|congruence|]. split; [done|]. split; congruence. }
  split; [done|]. split; [congruence|]. split; [done|]. intros frame t.
  pose proof (handle_guest_frame_holds g frame t Hwf) as Hh.
  by destruct (handle_guest_frame exchange g frame t).
Qed.

End Facts.

(** ** Witnesses

    DNS messages of an identifier and the rest of the payload as a name; an
    upstream resolver that is never available and records what it was asked. *)

#[local] Instance toy_hickory : HickoryOps := {|
  Message := Z * list string;
  Metadata := Z;
  Query := string;
  OpCode := unit;
  from_vec payload :=
    if len payload <? 12 then Ret (Err "too short")
    else Ret (Ok (Toy.be16_at payload 0,
                  [string_of_list_ascii (map ascii_of_byte (zdrop 12 payload))]));
  to_vec m := Some (to_be16 m.1);
  message_new id _ _ := (id, []);
  queries m := m.2;
  query_name q := q;
  metadata m := m.1;
  set_metadata m md := (md, m.2);
  add_queries m qs := (m.1, m.2 ++ qs);
  metadata_id md := md;
  metadata_op_code _ := tt;
  response_from_request md := md;
  set_response_code md _ := md;
  set_recursion_available md _ := md
|}.

Definition no_upstream (w : list Message) (m : Message)
  : result Message DnsUpstreamError * list Message := (Err Unavailable, m :: w).

Definition example_policy : Policy.VmnetPolicy :=
  Policy.mkPolicy Policy.GuestNetwork_default 1500
    (Policy.mkEgress Policy.Deny Policy.DenyByDefault ["example.com"] [] [])
    Policy.ProtocolPolicy_default [] Policy.CapturePolicy_default Policy.TlsMitmPolicy_default.

Definition example_gateway : VmnetGateway (W := list Message) :=
  mkGateway example_policy
    (L2.mkL2 DEFAULT_GATEWAY_MAC (L2.bytes [0x02; 0xfc; 0x12; 0x34; 0x56; 0x78])
       (L2.bytes [10; 0; 2; 2]) (L2.bytes [10; 0; 2; 15]) (L2.bytes [10; 0; 2; 3]) 24 1500)
    example_core (device_new 1514) [].

Lemma example_gateway_new :
  new_with_dns_upstream example_policy Policy.GuestNetwork_default 0 [] = Ret (Ok example_gateway).
Proof. reflexivity. Qed.

Lemma example_gateway_wf : gateway_wf example_gateway.
Proof.
  apply (gateway_new_wf example_policy Policy.GuestNetwork_default 0 []);
    [vm_compute; by split..|exact example_gateway_new].
Qed.

(** Ethernet and IPv4 headers from the guest. *)
Definition example_headers (protocol : Z) (dst : list Z) : list byte :=
  DEFAULT_GATEWAY_MAC ++ L2.bytes [0x02; 0xfc; 0x12; 0x34; 0x56; 0x78; 0x08; 0x00] ++
  L2.bytes [0x45; 0; 0; 40; 0; 0; 0; 0; 64; protocol; 0; 0; 10; 0; 2; 15] ++ L2.bytes dst.

(** A connection attempt to 1.1.1.1:80. *)
Definition example_syn : list byte :=
  example_headers 6 [1; 1; 1; 1] ++
  L2.bytes [0x9c; 0x40; 0; 80; 0; 0; 0; 7; 0; 0; 0; 0; 0x50; 2; 0; 0; 0; 0; 0; 0].

(** A query for "a" to the guest's DNS server. *)
Definition example_query : list byte :=
  example_headers 17 [10; 0; 2; 3] ++
  L2.bytes [0x9c; 0x40; 0; 53; 0; 21; 0; 0; 0; 9; 1; 0; 0; 1; 0; 0; 0; 0; 0; 0; 97].

Definition refused (m : exec (VmnetDeferredDnsFrame * VmnetGateway (W := list Message))) : bool :=
  match m with
  | Ret (DeferImmediate (mkFrameResult (TcpDenied _ _) _), _) => true
  | _ => false
  end.


(** The same attempt behind an IPv4 option. *)
Definition options_syn : list byte :=
  DEFAULT_GATEWAY_MAC ++ L2.bytes [0x02; 0xfc; 0x12; 0x34; 0x56; 0x78; 0x08; 0x00] ++
  L2.bytes [0x46; 0; 0; 44; 0; 0; 0; 0; 64; 6; 0; 0; 10; 0; 2; 15; 1; 1; 1; 1; 1; 1; 1; 0] ++
  L2.bytes [0x9c; 0x40; 0; 80; 0; 0; 0; 7; 0; 0; 0; 0; 0x50; 2; 0; 0; 0; 0; 0; 0].

(** The filter looks for the segment at a fixed place: a refused attempt behind an IPv4
    option is handed to the endpoints. *)
Example options_pass_filter :
  (exists d, opens_connection options_syn d /\ action (evaluate_tcp_destination example_policy d) = TcpDeny) /\
  match handle_guest_frame_with_deferred_dns example_gateway options_syn 0 with
  | Ret (DeferImmediate r, _) => outcome r = TcpProgress
  | _ => False
  end.
Proof.
  split; [|vm_compute; reflexivity]. eexists. split; [|shelve]. split; [vm_compute; by split_and!|].
  eexists _, _. split; [vm_compute; reflexivity|]. split; [reflexivity|]. split; [vm_compute; reflexivity|].
  split; [reflexivity|]. split; reflexivity.
  Unshelve. vm_compute. reflexivity.
Qed.

End Vmnet.
