(* ===== verification/HostIngress.v ===== *)
(** Connections from the host into the guest
    (src/vm-frontend/src/host_ingress.rs): the queue of accepted connections,
    the listeners, and the bridge that copies bytes between a host connection
    and a TCP session of the gateway through bounded buffers.

    As in StreamBuffer, an I/O error stands where the source has its text. *)

From stdpp Require Import base option list numbers strings gmap sets relations.
From Stdlib Require Import ZArith Lia Ascii String.
From S2P Require Import Prelude RustIo RustStr NetworkPolicy L2Gateway DnsProxy TcpGateway.
From S2P Require Import StreamBuffer Smoltcp GuestTcp VmnetGateway.

Local Open Scope string_scope.
Local Open Scope list_scope.
Local Open Scope Z_scope.

Module Ingress.
Import GuestTcp Vmnet.

Definition DEFAULT_HOST_INGRESS_FIRST_LOCAL_PORT : Z := 40000.
Definition DEFAULT_HOST_INGRESS_ACCEPTS_PER_LISTENER_PUMP : Z := 64.
Definition DEFAULT_HOST_INGRESS_ACCEPT_QUEUE_LIMIT : Z := 128.
Definition DEFAULT_HOST_INGRESS_HOST_READ_BYTES_PER_SESSION_PUMP : Z := 1024 * 1024.
Definition DEFAULT_HOST_INGRESS_HOST_WRITE_BYTES_PER_SESSION_PUMP : Z := 1024 * 1024.
Definition DEFAULT_HOST_INGRESS_BUFFER_LIMIT : Z := 1024 * 1024.

(** ** Accepted connections *)

Section Accepted.
Context {C : Type}.

Record AcceptedHostConnection := mkAccepted {
  acc_guest_port : Z; acc_purpose : Policy.HostListenerPurpose; acc_connection : C }.

Record HostIngressAcceptedQueue := mkQueue {
  capacity : Z; queue : list AcceptedHostConnection }.

Definition queue_new (capacity : Z) : exec HostIngressAcceptedQueue :=
  if capacity >? 0 then Ret (mkQueue capacity []) else Panic.

Definition queue_push (q : HostIngressAcceptedQueue) (accepted : AcceptedHostConnection)
  : result unit AcceptedHostConnection * HostIngressAcceptedQueue :=
  if len (queue q) >=? capacity q then (Err accepted, q)
  else (Ok tt, mkQueue (capacity q) (queue q ++ [accepted])).

Definition drain_ready (q : HostIngressAcceptedQueue)
  : list AcceptedHostConnection * HostIngressAcceptedQueue :=
  (queue q, mkQueue (capacity q) []).

End Accepted.
Arguments AcceptedHostConnection : clear implicits.
Arguments HostIngressAcceptedQueue : clear implicits.

(** ** Listeners *)

Record HostIngressAcceptLimit := mkAcceptLimit {
  al_listener_index : nat; al_guest_port : Z; al_purpose : Policy.HostListenerPurpose;
  al_limit : Z; al_accepted : Z }.

Section Listeners.
(** The listening sockets of the host, over a state of its network. *)
Context {W Listener Stream : Type}.
Variable accept : W -> Listener -> io_result Stream * W.
Variable set_nonblocking : W -> Stream -> io_result unit * W.

Record HostIngressListener := mkHostIngressListener {
  config : Policy.HostListener; listener : Listener }.

Record HostIngressListenerSet := mkListenerSet { set_listeners : list HostIngressListener }.

Record HostIngressAcceptBatch := mkBatch {
  accepted : list (io_result (AcceptedHostConnection Stream));
  limit_reached : option HostIngressAcceptLimit }.

(** Each round that stays in the loop accepts, so [max_accepts] bounds them. *)
Fixpoint accept_loop (fuel : nat) (w : W) (l : HostIngressListener) (max_accepts : Z)
  (accepted : list (io_result (AcceptedHostConnection Stream)))
  : exec (list (io_result (AcceptedHostConnection Stream)) * W) :=
  match fuel with
  | O => Panic
  | S fuel =>
      if len accepted <? max_accepts then
        match accept w (listener l) with
        | (Ok stream, w) =>
            match set_nonblocking w stream with
            | (Err error, w) => accept_loop fuel w l max_accepts (accepted ++ [Err error])
            | (Ok _, w) =>
                accept_loop fuel w l max_accepts
                  (accepted ++ [Ok (mkAccepted (Policy.guest_port (config l))
                                      (Policy.purpose (config l)) stream)])
            end
        | (Err error, w) =>
            if bool_decide (error_kind error = WouldBlock) then Ret (accepted, w)
            else Ret (accepted ++ [Err error], w)
        end
      else Ret (accepted, w)
  end.

Definition accept_ready_limited (w : W) (set : HostIngressListenerSet) (listener_index : nat)
  (max_accepts : Z) : exec (HostIngressAcceptBatch * W) :=
  match set_listeners set !! listener_index with
  | None => Ret (mkBatch [] None, w)
  | Some l =>
      let! (accepted, w) := accept_loop (S (Z.to_nat max_accepts)) w l max_accepts [] in
      Ret (mkBatch accepted
             (if len accepted =? max_accepts
              then Some (mkAcceptLimit listener_index (Policy.guest_port (config l))
                           (Policy.purpose (config l)) max_accepts (len accepted))
              else None), w)
  end.

Definition accept_ready (w : W) (set : HostIngressListenerSet) (listener_index : nat)
  : exec (list (io_result (AcceptedHostConnection Stream)) * W) :=
  let! (batch, w) := accept_ready_limited w set listener_index usize_max in
  Ret (accepted batch, w).

Definition accept_pending (w : W) (set : HostIngressListenerSet)
  : exec (list (io_result (AcceptedHostConnection Stream)) * W) :=
  foldl (fun acc index =>
           let! (all, w) := acc in
           let! (more, w) := accept_ready w set index in
           Ret (all ++ more, w))
    (Ret ([], w)) (seq 0 (List.length (set_listeners set))).

(** The accepted batch is bounded, and the limit is reported when it is hit. *)
Lemma accept_loop_spec fuel w l max acc :
  len acc <= max -> (Z.to_nat (max - len acc) < fuel)%nat ->
  holds (accept_loop fuel w l max acc) (fun r =>
    len r.1 <= max /\ exists more, r.1 = acc ++ more /\
      forall a, Ok a ∈ more -> acc_guest_port a = Policy.guest_port (config l)).
Proof.
  revert w acc. induction fuel as [|fuel IH]; intros w acc Hm Hf; [lia|]. cbn [accept_loop].
  assert (forall x : io_result (AcceptedHostConnection Stream), len (acc ++ [x]) = len acc + 1) as Hlen
    by (intros; by rewrite len_app).
  assert (forall w' x, len acc < max ->
    (forall a, x = Ok a -> acc_guest_port a = Policy.guest_port (config l)) ->
    holds (accept_loop fuel w' l max (acc ++ [x])) (fun r =>
      len r.1 <= max /\ exists more, r.1 = acc ++ more /\
        forall a, Ok a ∈ more -> acc_guest_port a = Policy.guest_port (config l))) as Hstep.
  { intros w' x Hlt Hx. eapply holds_mono; [apply IH; rewrite Hlen; lia|].
    intros [r1 w2] (Hr & more & E & Hmore). cbn [fst] in *. subst r1.
    split; [done|]. exists (x :: more).
    rewrite <-(assoc_L (++)). split; [done|]. intros a [Ha|Ha]%elem_of_cons; [by apply Hx|by apply Hmore]. }
  case_test; [|split; [done|]; exists []; rewrite app_nil_r; split; [done|]; by intros a ?%elem_of_nil].
  destruct (accept w (listener l)) as [[stream|e] w1].
  - destruct (set_nonblocking w1 stream) as [[[]|e] w2]; apply Hstep; try done. by intros a [= <-].
  - case_test.
    + split; [done|]. exists []. rewrite app_nil_r. split; [done|]. by intros a ?%elem_of_nil.
    + split; [cbn; rewrite Hlen; lia|]. exists [Err e]. split; [done|].
      by intros a ?%list_elem_of_singleton.
Qed.

End Listeners.

(** ** Sessions *)

Record HostIngressBufferLimits := mkBufferLimits {
  limit_pending_host_write : Z; limit_pending_guest_write : Z }.
Record HostIngressPumpLimits := mkPumpLimits {
  host_read_bytes_per_session : Z; host_write_bytes_per_session : Z }.

Definition BufferLimits_default : HostIngressBufferLimits :=
  mkBufferLimits DEFAULT_HOST_INGRESS_BUFFER_LIMIT DEFAULT_HOST_INGRESS_BUFFER_LIMIT.
Definition PumpLimits_default : HostIngressPumpLimits :=
  mkPumpLimits DEFAULT_HOST_INGRESS_HOST_READ_BYTES_PER_SESSION_PUMP
    DEFAULT_HOST_INGRESS_HOST_WRITE_BYTES_PER_SESSION_PUMP.

Inductive HostIngressBufferKind := PendingHostWrite | PendingGuestWrite.

Record HostSessionInterest := mkInterest { want_readable : bool; want_writable : bool }.

Record HostIngressReadiness := mkReadiness {
  poll_all : bool; ready_readable : list SocketHandle; ready_writable : list SocketHandle }.

Definition readiness_all : HostIngressReadiness := mkReadiness true [] [].
Definition readiness_selected (readable writable : list SocketHandle) : HostIngressReadiness :=
  mkReadiness false readable writable.

Definition readable (r : HostIngressReadiness) (handle : SocketHandle) : bool :=
  poll_all r || bool_decide (handle ∈ ready_readable r).
Definition writable (r : HostIngressReadiness) (handle : SocketHandle) : bool :=
  poll_all r || bool_decide (handle ∈ ready_writable r).

Definition guest_closed_state (state : State.t) : bool :=
  match state with
  | State.CloseWait | State.Closing | State.LastAck | State.TimeWait | State.Closed => true
  | _ => false
  end.

Section Bridge.
Context `{SmolStack} `{Ipv4NetOps} {W : Type} {C : Type} `{Read C} `{Write C}.
Local Notation VmnetGateway := (VmnetGateway (W := W)).

Record HostIngressSession := mkIngressSession {
  guest_port : Z;
  connection : C;
  pending_host_write : list byte;
  pending_guest_write : list byte;
  guest_closed : option State.t
}.

Record HostIngressBridge := mkBridge {
  sessions : gmap SocketHandle HostIngressSession;
  next_local_port : Z;
  buffer_limits : HostIngressBufferLimits;
  pump_limits : HostIngressPumpLimits
}.

Record HostIngressOpen := mkOpen {
  open_handle : SocketHandle; open_guest_port : Z; open_local_port : Z;
  open_frames : list (list byte) }.

Inductive HostIngressEvent :=
| Opened (handle : SocketHandle) (guest_port : Z) (purpose : Policy.HostListenerPurpose)
| OpenFailed (guest_port : Z) (purpose : Policy.HostListenerPurpose) (error : string)
| AcceptQueueFull (guest_port : Z) (purpose : Policy.HostListenerPurpose) (capacity : Z)
| AcceptLimitReached (listener_index : nat) (guest_port : Z)
    (purpose : Policy.HostListenerPurpose) (limit accepted : Z)
| HostPayload (handle : SocketHandle) (guest_port bytes : Z) (guest_frames : list (list byte))
| GuestPayload (handle : SocketHandle) (guest_port bytes : Z)
| HostClosed (handle : SocketHandle) (guest_port : Z) (guest_frames : list (list byte))
| GuestClosed (handle : SocketHandle) (guest_port : Z) (state : State.t)
| GuestReadFailed (handle : SocketHandle) (error : RecvError)
| GuestWriteFailed (handle : SocketHandle) (error : SendError)
| HostReadFailed (handle : SocketHandle) (error : io_error)
| HostReadLimitReached (handle : SocketHandle) (guest_port limit read : Z)
| HostWriteLimitReached (handle : SocketHandle) (guest_port limit written : Z)
| HostWriteFailed (handle : SocketHandle) (error : io_error)
| BufferLimitExceeded (handle : SocketHandle) (guest_port : Z) (buffer : HostIngressBufferKind)
    (limit attempted : Z) (guest_frames : list (list byte)).

Definition bridge_new : HostIngressBridge :=
  mkBridge ∅ DEFAULT_HOST_INGRESS_FIRST_LOCAL_PORT BufferLimits_default PumpLimits_default.

Definition allocate_local_port (b : HostIngressBridge) : Z * HostIngressBridge :=
  let port := next_local_port b in
  (port, mkBridge (sessions b) (Z.max (wrap16 (next_local_port b + 1)) 1024)
           (buffer_limits b) (pump_limits b)).

Definition open_session (b : HostIngressBridge) (g : VmnetGateway) (guest_port : Z)
  (connection : C) (now : Z)
  : exec (result HostIngressOpen GuestTcpConnectError * HostIngressBridge * VmnetGateway) :=
  let '(local_port, b) := allocate_local_port b in
  let! (r, g) := connect_host_to_guest g guest_port local_port now in
  match r with
  | Err e => Ret (Err e, b, g)
  | Ok connect =>
      let session := mkIngressSession guest_port connection [] [] None in
      Ret (Ok (mkOpen (connect_handle connect) guest_port local_port (connect_frames connect)),
           mkBridge (<[connect_handle connect := session]> (sessions b)) (next_local_port b)
             (buffer_limits b) (pump_limits b), g)
  end.

Definition send_pending_guest_write (g : VmnetGateway) (handle : SocketHandle)
  (pending : list byte) (now : Z)
  : exec (result (list (list byte)) SendError * list byte * VmnetGateway) :=
  if bool_decide (pending = []) then Ret (Ok [], pending, g)
  else
    let! (r, g) := send_tcp_session_partial g handle pending now in
    match r with
    | Err e => Ret (Err e, pending, g)
    | Ok (written, guest_frames) =>
        if written <=? len pending then Ret (Ok guest_frames, zdrop written pending, g) else Panic
    end.

(** [HostRead] and [read_available]. *)
Inductive HostRead :=
| ReadPayload (bs : list byte)
| ReadClosed
| ReadNothing
| ReadFailed (error : io_error).

Definition read_available (connection : C) (max_bytes : Z) : HostRead * C :=
  match StreamBuffer.read_nonblocking_chunk connection max_bytes with
  | (Ok (StreamBuffer.Payload buffer), c) => (ReadPayload buffer, c)
  | (Ok StreamBuffer.Closed, c) => (ReadClosed, c)
  | (Ok StreamBuffer.ReadWouldBlock, c) => (ReadNothing, c)
  | (Err error, c) => (ReadFailed error, c)
  end.

Definition push_host_write_limit_if_reached (events : list HostIngressEvent)
  (handle : SocketHandle) (guest_port limit written : Z) (pending : list byte)
  : list HostIngressEvent :=
  if (limit >? 0) && (written >=? limit) && negb (bool_decide (pending = []))
  then events ++ [HostWriteLimitReached handle guest_port limit written] else events.

(** The variables of the loop body of [process_gateway_with_readiness] for one
    session. *)
Record pump := mkPump {
  p_session : HostIngressSession; p_gateway : VmnetGateway;
  p_events : list HostIngressEvent; p_closed : list SocketHandle }.

Definition set_connection (s : HostIngressSession) (c : C) : HostIngressSession :=
  mkIngressSession (guest_port s) c (pending_host_write s) (pending_guest_write s) (guest_closed s).
Definition set_pending_guest (s : HostIngressSession) (bs : list byte) : HostIngressSession :=
  mkIngressSession (guest_port s) (connection s) (pending_host_write s) bs (guest_closed s).
Definition set_pending_host (s : HostIngressSession) (bs : list byte) : HostIngressSession :=
  mkIngressSession (guest_port s) (connection s) bs (pending_guest_write s) (guest_closed s).
Definition set_guest_closed (s : HostIngressSession) (st : State.t) : HostIngressSession :=
  mkIngressSession (guest_port s) (connection s) (pending_host_write s) (pending_guest_write s)
    (Some st).

(** Sends what is pending to the guest and reports it as [bytes] read. *)
Definition push_send (p : pump) (handle : SocketHandle) (now bytes : Z) : exec pump :=
  let s := p_session p in
  let! (r, pending, g) :=
    send_pending_guest_write (p_gateway p) handle (pending_guest_write s) now in
  Ret (mkPump (set_pending_guest s pending) g
         (p_events p ++
          [match r with
           | Ok guest_frames => HostPayload handle (guest_port s) bytes guest_frames
           | Err error => GuestWriteFailed handle error
           end]) (p_closed p)).

(** Closes the session towards the guest, reports it and marks it for removal. *)
Definition close_with (p : pump) (handle : SocketHandle) (now : Z)
  (events : list (list byte) -> list HostIngressEvent) : exec pump :=
  let! (guest_frames, g) := close_tcp_session (p_gateway p) handle now in
  Ret (mkPump (p_session p) g (p_events p ++ events guest_frames) (p_closed p ++ [handle])).

(** The [loop] over reads from the host; a round that goes on has read at least
    one byte, so the limit bounds the rounds. *)
Fixpoint host_read_loop (fuel : nat) (bl : HostIngressBufferLimits) (limit : Z) (p : pump)
  (handle : SocketHandle) (now host_read_bytes : Z) : exec pump :=
  match fuel with
  | O => Panic
  | S fuel =>
      let s := p_session p in
      let remaining := saturating_sub limit host_read_bytes in
      let limit_event read := HostReadLimitReached handle (guest_port s) limit read in
      if remaining =? 0 then
        Ret (mkPump s (p_gateway p) (p_events p ++ [limit_event host_read_bytes]) (p_closed p))
      else
        match read_available (connection s) remaining with
        | (ReadPayload host_bytes, c) =>
            let s := set_connection s c in
            let bytes := len host_bytes in
            let host_read_bytes := host_read_bytes + bytes in
            match StreamBuffer.extend_pending_buffer (pending_guest_write s) host_bytes
                    (limit_pending_guest_write bl) with
            | (Err e, pending) =>
                close_with (mkPump (set_pending_guest s pending) (p_gateway p) (p_events p)
                              (p_closed p)) handle now
                  (fun guest_frames =>
                     [BufferLimitExceeded handle (guest_port s) PendingGuestWrite
                        (StreamBuffer.limit e) (StreamBuffer.attempted e) guest_frames])
            | (Ok _, pending) =>
                let! p := push_send (mkPump (set_pending_guest s pending) (p_gateway p)
                                       (p_events p) (p_closed p)) handle now bytes in
                if negb (bool_decide (pending_guest_write (p_session p) = [])) then Ret p
                else if host_read_bytes >=? limit then
                  Ret (mkPump (p_session p) (p_gateway p)
                         (p_events p ++ [limit_event host_read_bytes]) (p_closed p))
                else host_read_loop fuel bl limit p handle now host_read_bytes
            end
        | (ReadClosed, c) =>
            close_with (mkPump (set_connection s c) (p_gateway p) (p_events p) (p_closed p))
              handle now (fun guest_frames => [HostClosed handle (guest_port s) guest_frames])
        | (ReadNothing, c) =>
            Ret (mkPump (set_connection s c) (p_gateway p) (p_events p) (p_closed p))
        | (ReadFailed error, c) =>
            close_with (mkPump (set_connection s c) (p_gateway p) (p_events p) (p_closed p))
              handle now (fun guest_frames =>
                [HostReadFailed handle error; HostClosed handle (guest_port s) guest_frames])
        end
  end.

(** From the host to the guest, in an established session. *)
Definition host_to_guest (bl : HostIngressBufferLimits) (pl : HostIngressPumpLimits)
  (readiness : HostIngressReadiness) (p : pump) (handle : SocketHandle) (now : Z) : exec pump :=
  let! p :=
    if bool_decide (pending_guest_write (p_session p) = []) then Ret p
    else push_send p handle now 0 in
  if readable readiness handle && bool_decide (pending_guest_write (p_session p) = []) then
    host_read_loop (S (Z.to_nat (host_read_bytes_per_session pl))) bl
      (host_read_bytes_per_session pl) p handle now 0
  else Ret p.

(** Writes what is pending to the host connection. *)
Definition write_host (pl : HostIngressPumpLimits) (p : pump) (handle : SocketHandle) (now : Z)
  : exec pump :=
  let s := p_session p in
  let limit := host_write_bytes_per_session pl in
  let! (r, c, pending) :=
    StreamBuffer.write_pending_best_effort (connection s) (pending_host_write s) limit in
  let s := set_pending_host (set_connection s c) pending in
  match r with
  | Ok bytes =>
      Ret (mkPump s (p_gateway p)
             (if bytes >? 0 then
                push_host_write_limit_if_reached
                  (p_events p ++ [GuestPayload handle (guest_port s) bytes])
                  handle (guest_port s) limit bytes pending
              else p_events p) (p_closed p))
  | Err error =>
      close_with (mkPump s (p_gateway p) (p_events p) (p_closed p)) handle now
        (fun guest_frames =>
           [HostWriteFailed handle error; HostClosed handle (guest_port s) guest_frames])
  end.

(** The end of the loop body. *)
Definition note_guest_closed (p : pump) (handle : SocketHandle) (state : State.t) : pump :=
  let s := p_session p in
  let s := if guest_closed_state state then set_guest_closed s state else s in
  match guest_closed s with
  | Some state =>
      if bool_decide (pending_host_write s = []) then
        mkPump s (p_gateway p) (p_events p ++ [GuestClosed handle (guest_port s) state])
          (p_closed p ++ [handle])
      else mkPump s (p_gateway p) (p_events p) (p_closed p)
  | None => mkPump s (p_gateway p) (p_events p) (p_closed p)
  end.

(** From the guest to the host. *)
Definition guest_to_host (bl : HostIngressBufferLimits) (pl : HostIngressPumpLimits)
  (readiness : HostIngressReadiness) (p : pump) (handle : SocketHandle) (state : State.t)
  (now : Z) : exec pump :=
  let s := p_session p in
  let! (r, g) := recv_tcp_session (p_gateway p) handle in
  let p := mkPump s g (p_events p) (p_closed p) in
  match r with
  | Ok (b :: bs) =>
      match StreamBuffer.extend_pending_buffer (pending_host_write s) (b :: bs)
              (limit_pending_host_write bl) with
      | (Err e, pending) =>
          close_with (mkPump (set_pending_host s pending) g (p_events p) (p_closed p)) handle now
            (fun guest_frames =>
               [BufferLimitExceeded handle (guest_port s) PendingHostWrite
                  (StreamBuffer.limit e) (StreamBuffer.attempted e) guest_frames])
      | (Ok _, pending) =>
          let! p := write_host pl (mkPump (set_pending_host s pending) g (p_events p)
                                     (p_closed p)) handle now in
          Ret (note_guest_closed p handle state)
      end
  | Ok [] =>
      let! p :=
        if writable readiness handle && negb (bool_decide (pending_host_write s = []))
        then write_host pl p handle now else Ret p in
      Ret (note_guest_closed p handle state)
  | Err error =>
      Ret (note_guest_closed
             (mkPump s g (p_events p ++ [GuestReadFailed handle error]) (p_closed p))
             handle state)
  end.

Definition process_session (bl : HostIngressBufferLimits) (pl : HostIngressPumpLimits)
  (readiness : HostIngressReadiness) (p : pump) (active : GuestTcpSessionRef) (now : Z)
  : exec pump :=
  let handle := ref_handle active in
  let state := session_state (ref_session active) in
  let! p :=
    if bool_decide (state = State.Established)
    then host_to_guest bl pl readiness p handle now else Ret p in
  if negb (bool_decide (state = State.Established)) && negb (guest_closed_state state) then Ret p
  else guest_to_host bl pl readiness p handle state now.

(** The [for] loop over the sessions the gateway lists. *)
Fixpoint process_sessions (bl : HostIngressBufferLimits) (pl : HostIngressPumpLimits)
  (readiness : HostIngressReadiness) (active : list GuestTcpSessionRef) (now : Z)
  (ss : gmap SocketHandle HostIngressSession) (g : VmnetGateway)
  (events : list HostIngressEvent) (closed : list SocketHandle)
  : exec (gmap SocketHandle HostIngressSession * VmnetGateway *
          list HostIngressEvent * list SocketHandle) :=
  match active with
  | [] => Ret (ss, g, events, closed)
  | a :: rest =>
      match ss !! ref_handle a with
      | None => process_sessions bl pl readiness rest now ss g events closed
      | Some session =>
          let! p := process_session bl pl readiness (mkPump session g events closed) a now in
          process_sessions bl pl readiness rest now (<[ref_handle a := p_session p]> ss)
            (p_gateway p) (p_events p) (p_closed p)
      end
  end.

Definition process_gateway_with_readiness (b : HostIngressBridge) (g : VmnetGateway) (now : Z)
  (readiness : HostIngressReadiness)
  : exec (list HostIngressEvent * HostIngressBridge * VmnetGateway) :=
  let! active := gateway_ingress_sessions g in
  let! (ss, g, events, closed) :=
    process_sessions (buffer_limits b) (pump_limits b) readiness active now (sessions b) g [] [] in
  Ret (events,
       mkBridge (foldl (fun ss h => delete h ss) ss closed) (next_local_port b)
         (buffer_limits b) (pump_limits b), g).

Definition process_gateway (b : HostIngressBridge) (g : VmnetGateway) (now : Z)
  : exec (list HostIngressEvent * HostIngressBridge * VmnetGateway) :=
  process_gateway_with_readiness b g now readiness_all.

Definition session_interest (b : HostIngressBridge) (handle : SocketHandle)
  : option HostSessionInterest :=
  match sessions b !! handle with
  | None => None
  | Some s =>
      Some (mkInterest
              (bool_decide (guest_closed s = None) && bool_decide (pending_guest_write s = []))
              (negb (bool_decide (pending_host_write s = []))))
  end.

Definition session_handles (b : HostIngressBridge) : gset SocketHandle := dom (sessions b).

End Bridge.

(** ** Facts *)

Section Facts.
Context `{SmolStack} `{!SmolStackLaws} `{SmolWire} `{!SmolWireLaws} `{Ipv4NetOps}.
Context `{Dns.HickoryOps} {W : Type}.
Context (exchange : W -> Dns.Message -> result Dns.Message Dns.DnsUpstreamError * W).
Context {C : Type} `{Read C} `{Write C} (received sent : C -> list byte).
Context `{!DuplexLaws C received sent}.
Local Notation VmnetGateway := (VmnetGateway (W := W)).
Local Notation pump := (pump (W := W) (C := C)).
Local Notation HostIngressSession := (HostIngressSession (C := C)).
Local Notation HostIngressBridge := (HostIngressBridge (C := C)).
Implicit Types g : VmnetGateway.
Implicit Types p : pump.

(** Nothing is lost, repeated or reordered between the host connection and the
    session: what the host sent is what the session took plus what is pending,
    and what the session handed out is what the host got plus what is pending.
    Both buffers are within their limits. *)
Definition session_ok (bl : HostIngressBufferLimits) g (h : SocketHandle)
  (s : HostIngressSession) : Prop :=
  exists to_guest from_guest,
    streams (tcp_core g) h = Some (to_guest, from_guest) /\
    received (connection s) = to_guest ++ pending_guest_write s /\
    from_guest = sent (connection s) ++ pending_host_write s /\
    len (pending_guest_write s) <= limit_pending_guest_write bl /\
    len (pending_host_write s) <= limit_pending_host_write bl.

(** The events that announce the removal of a session. *)
Definition closes (h : SocketHandle) (e : HostIngressEvent) : Prop :=
  match e with
  | HostClosed h' _ _ | GuestClosed h' _ _ | BufferLimitExceeded h' _ _ _ _ _ => h' = h
  | _ => False
  end.

Record good (bl : HostIngressBufferLimits) (h : SocketHandle) p : Prop := {
  good_wf : gateway_wf (p_gateway p);
  good_handle : h ∈ handles (tcp_core (p_gateway p));
  good_session : h ∈ p_closed p \/ session_ok bl (p_gateway p) h (p_session p)
}.

(** What a step of the pump for [h] may change. *)
Record moved (h : SocketHandle) p p' : Prop := {
  mv_setup : same_setup (p_gateway p) (p_gateway p');
  mv_handles : handles (tcp_core (p_gateway p')) = handles (tcp_core (p_gateway p));
  mv_slots : host_connections (tcp_core (p_gateway p')) = host_connections (tcp_core (p_gateway p));
  mv_streams h' : h' <> h ->
    streams (tcp_core (p_gateway p')) h' = streams (tcp_core (p_gateway p)) h';
  mv_log : exists events closed,
    p_events p' = p_events p ++ events /\ p_closed p' = p_closed p ++ closed /\
    forall k, k ∈ closed -> k = h /\ exists e, e ∈ events /\ closes h e
}.

#[local] Instance moved_refl h : Reflexive (moved h).
Proof.
  intros p. split; [done..|]. exists [], []. rewrite !app_nil_r.
  split; [done|]. split; [done|]. by intros k ?%elem_of_nil.
Qed.

#[local] Instance moved_trans h : Transitive (moved h).
Proof.
  intros p1 p2 p3 [(Hp1 & Hl1 & Hd1) Hh1 Hc1 Hs1 (e1 & c1 & He1 & Hk1 & Hx1)]
    [(Hp2 & Hl2 & Hd2) Hh2 Hc2 Hs2 (e2 & c2 & He2 & Hk2 & Hx2)].
  split; [split_and!; congruence|congruence|congruence| |].
  - intros h' Hne. by rewrite Hs2, Hs1.
  - exists (e1 ++ e2), (c1 ++ c2). rewrite He2, He1, Hk2, Hk1, !(assoc_L (++)).
    split; [done|]. split; [done|]. intros k [Hk|Hk]%elem_of_app.
    + destruct (Hx1 k Hk) as (-> & e & He & ?). split; [done|]. exists e. set_solver.
    + destruct (Hx2 k Hk) as (-> & e & He & ?). split; [done|]. exists e. set_solver.
Qed.

Definition safe bl (h : SocketHandle) p (m : exec pump) : Prop :=
  holds m (fun p' => good bl h p' /\ moved h p p').

Lemma safe_bind bl h p m (k : pump -> exec pump) :
  safe bl h p m -> (forall p', good bl h p' -> safe bl h p' (k p')) ->
  safe bl h p (let! p' := m in k p').
Proof.
  intros Hm Hk. apply holds_bind. eapply holds_mono; [exact Hm|]. intros p1 [Hg1 Hmv].
  eapply holds_mono; [by apply Hk|]. intros p2 [Hg2 Hmv2]. split; [done|].
  by eapply moved_trans.
Qed.

Lemma safe_ret bl h p : good bl h p -> safe bl h p (Ret p).
Proof. intros Hg. split; [done|reflexivity]. Qed.

Lemma safe_after bl h p p1 m : moved h p p1 -> safe bl h p1 m -> safe bl h p m.
Proof.
  intros Hm Hs. eapply holds_mono; [exact Hs|]. intros p' [Hg Hm']. split; [done|by etrans].
Qed.

(** A pump that only changed its session and its log. *)
Lemma good_session_of bl h p s events :
  good bl h p ->
  (session_ok bl (p_gateway p) h (p_session p) -> session_ok bl (p_gateway p) h s) ->
  let p' := mkPump s (p_gateway p) (p_events p ++ events) (p_closed p) in
  good bl h p' /\ moved h p p'.
Proof.
  intros [Hw Hh Hs] Hok. split.
  - split; [done|done|]. destruct Hs; [by left|right; by apply Hok].
  - split; [done..|]. exists events, []. rewrite app_nil_r. split; [done|]. split; [done|].
    by intros k ?%elem_of_nil.
Qed.

(** The effect of an operation of the gateway on the session. *)
Lemma effect_moved h p after g' s events closed :
  session_effect (p_gateway p) h after g' ->
  (forall k, k ∈ closed -> k = h /\ exists e, e ∈ events /\ closes h e) ->
  moved h p (mkPump s g' (p_events p ++ events) (p_closed p ++ closed)).
Proof.
  intros [Hw Hs Hh Hc Hst] Hk. split; cbn; [done..| |by exists events, closed].
  intros h' Hne. rewrite Hst. by rewrite decide_False.
Qed.

Lemma effect_good bl h p after g' s events closed :
  good bl h p -> session_effect (p_gateway p) h after g' ->
  (h ∈ p_closed p ++ closed \/ session_ok bl g' h s) ->
  good bl h (mkPump s g' (p_events p ++ events) (p_closed p ++ closed)).
Proof.
  intros [_ Hh _] [Hw _ Hhs _ _] Hs. split; cbn; [done| |done]. by rewrite Hhs.
Qed.

Lemma alive_streams h p :
  gateway_wf (p_gateway p) -> h ∈ handles (tcp_core (p_gateway p)) ->
  exists e d, streams (tcp_core (p_gateway p)) h = Some (e, d).
Proof.
  intros Hw Hh. destruct (streams_handle _ h (gw_core _ Hw) Hh) as [[e d] E]. by exists e, d.
Qed.

(** Closing is safe whatever the state of the session, which is removed. *)
Lemma close_with_safe bl h p s now events :
  gateway_wf (p_gateway p) -> h ∈ handles (tcp_core (p_gateway p)) ->
  (forall fs, exists e, e ∈ events fs /\ closes h e) ->
  safe bl h p (close_with (mkPump s (p_gateway p) (p_events p) (p_closed p)) h now events).
Proof.
  intros Hw Hh He. unfold close_with. destruct (alive_streams h p Hw Hh) as (e & d & Hst).
  apply holds_bind. eapply holds_mono; [by eapply close_holds|].
  intros [fs g'] Hse. cbn [snd p_gateway] in Hse. split.
  - split; cbn; [apply Hse|by rewrite (se_handles _ _ _ _ Hse)|left; set_solver].
  - apply (effect_moved h p (e, d) g' s (events fs) [h]); [exact Hse|].
    intros k ->%list_elem_of_singleton. by split.
Qed.

Lemma push_send_safe bl h p now bytes : good bl h p -> safe bl h p (push_send p h now bytes).
Proof.
  intros Hg. unfold push_send, send_pending_guest_write. case_test.
  { cbn. apply good_session_of; [done|]. by destruct (p_session p). }
  destruct (alive_streams h p) as (e & d & Hst); [by eapply good_wf|by eapply good_handle|].
  apply holds_bind, holds_bind.
  eapply holds_mono; [eapply send_partial_holds; [by eapply good_wf|by eapply good_handle|exact Hst]|].
  intros [[[n fs]|err] g'] Hr; cbn in Hr.
  - destruct Hr as [Hn Hse]. rewrite (proj2 (Z.leb_le _ _)) by lia. cbn.
    rewrite <-(app_nil_r (p_closed p)). split.
    + eapply effect_good; [done|exact Hse|]. rewrite app_nil_r.
      destruct Hg as [_ _ [Hc|(e' & d' & Hst' & Hr & Hd & Hl & Hl')]]; [by left|right].
      rewrite Hst in Hst'. injection Hst' as <- <-. exists (e ++ ztake n (pending_guest_write (p_session p))), d.
      rewrite (se_streams _ _ _ _ Hse), decide_True by done. cbn.
      rewrite <-(assoc_L (++)), ztake_zdrop. split_and!; try done.
      rewrite len_zdrop by lia. pose proof (len_nonneg (pending_guest_write (p_session p))). lia.
    + eapply effect_moved; [exact Hse|]. by intros k ?%elem_of_nil.
  - subst g'. cbn. apply good_session_of; [done|]. by destruct (p_session p).
Qed.

Lemma write_host_safe bl pl h p now :
  0 <= host_write_bytes_per_session pl -> good bl h p -> safe bl h p (write_host pl p h now).
Proof.
  intros Hpl Hg. unfold write_host.
  pose proof (StreamBuffer.write_pending_loop_spec sent (S (List.length (pending_host_write (p_session p))))
    (connection (p_session p)) (pending_host_write (p_session p)) (host_write_bytes_per_session pl) 0)
    as Hw.
  destruct (StreamBuffer.write_pending_best_effort _ _ _) as [[[r c] pending]|] eqn:E;
    unfold StreamBuffer.write_pending_best_effort in E; rewrite E in Hw; [|by apply Hw; lia].
  destruct Hw as (out & Hp & Hs & _ & _); [lia..|].
  apply (StreamBuffer.write_pending_loop_keeps received) in E; [|by apply write_keeps_received].
  cbn [exec_bind].
  set (s' := set_pending_host (set_connection (p_session p) c) pending).
  assert (session_ok bl (p_gateway p) h (p_session p) -> session_ok bl (p_gateway p) h s') as Hok.
  { intros (to & from & Hst & Hr & -> & Hl & Hl'). exists to, (sent c ++ pending).
    cbn. rewrite Hst, Hp, Hs, <-(assoc_L (++)), E. split_and!; try done.
    rewrite Hp, len_app in Hl'. pose proof (len_nonneg out). lia. }
  destruct (good_session_of bl h p s' [] Hg Hok) as [Hg' Hm']. rewrite app_nil_r in Hg', Hm'.
  destruct r as [bytes|err].
  - case_test; [|done].
    unfold push_host_write_limit_if_reached. case_test; cbn; [rewrite <-(assoc_L (++))|];
      by apply good_session_of.
  - apply close_with_safe; [by eapply good_wf|by eapply good_handle|].
    intros fs. eexists. split; [by right; left|done].
Qed.

Lemma note_guest_closed_safe bl h p st :
  good bl h p -> safe bl h p (Ret (note_guest_closed p h st)).
Proof.
  intros Hg. unfold note_guest_closed.
  set (s' := if guest_closed_state st then set_guest_closed (p_session p) st else p_session p).
  assert (session_ok bl (p_gateway p) h (p_session p) -> session_ok bl (p_gateway p) h s') as Hok.
  { unfold s'. by destruct (guest_closed_state st). }
  destruct (good_session_of bl h p s' [] Hg Hok) as [Hg' Hm']. rewrite app_nil_r in Hg', Hm'.
  destruct (guest_closed s'); [|done]. case_test; [|done].
  split; [split; cbn; [by eapply good_wf|by eapply good_handle|left; set_solver]|].
  split; [done..|]. cbn. eexists _, _. split; [done|]. split; [done|].
  intros k ->%list_elem_of_singleton. split; [done|]. eexists. split; [by left|done].
Qed.

Definition limits_ok (bl : HostIngressBufferLimits) (pl : HostIngressPumpLimits) : Prop :=
  limit_pending_host_write bl < usize_max /\ limit_pending_guest_write bl < usize_max /\
  0 <= host_read_bytes_per_session pl /\ 0 <= host_write_bytes_per_session pl.

Lemma read_available_spec c n r c' :
  0 <= n -> read_available c n = (r, c') ->
  sent c' = sent c /\
  match r with
  | ReadPayload bs => bs <> [] /\ len bs <= n /\ received c' = received c ++ bs
  | _ => received c' = received c
  end.
Proof.
  intros Hn. unfold read_available.
  destruct (StreamBuffer.read_nonblocking_chunk c n) as [[[]|] c1] eqn:E; intros [= <- <-];
    (split; [eapply StreamBuffer.read_nonblocking_chunk_keeps in E; [exact E|apply read_keeps_sent]|]);
    apply (StreamBuffer.read_nonblocking_chunk_spec received) in E; try done; try tauto.
  destruct E as (? & ? & ?). split_and!; [done|lia|done].
Qed.

Lemma host_read_loop_safe bl pl fuel h p now count :
  limits_ok bl pl -> good bl h p -> 0 <= count <= host_read_bytes_per_session pl ->
  (Z.to_nat (host_read_bytes_per_session pl - count) < fuel)%nat ->
  safe bl h p (host_read_loop fuel bl (host_read_bytes_per_session pl) p h now count).
Proof.
  intros (Hl1 & Hl2 & Hr & _). set (limit := host_read_bytes_per_session pl) in *.
  revert p count. induction fuel as [|fuel IH]; intros p count Hg Hc Hf; [lia|].
  cbn [host_read_loop]. case_test; [by apply good_session_of|]. unfold saturating_sub in *.
  destruct (read_available (connection (p_session p)) (Z.max 0 (limit - count))) as [r c] eqn:E.
  apply read_available_spec in E as [Hsent E]; [|lia].
  assert (received c = received (connection (p_session p)) ->
    good bl h (mkPump (set_connection (p_session p) c) (p_gateway p) (p_events p) (p_closed p)) /\
    moved h p (mkPump (set_connection (p_session p) c) (p_gateway p) (p_events p) (p_closed p)))
    as Hsame.
  { intros Hrec. rewrite <-(app_nil_r (p_events p)). apply good_session_of; [done|].
    unfold session_ok. cbn. by rewrite Hrec, Hsent. }
  destruct r as [bs| | |err].
  - destruct E as (Hne & Hlen & Hrec).
    destruct (StreamBuffer.extend_pending_within_limit
      (pending_guest_write (p_session p)) bs (limit_pending_guest_write bl) Hl2) as [[Ex Hex]|[Ex _]];
      cbn [set_connection pending_guest_write]; rewrite Ex.
    + assert (good bl h (mkPump (set_pending_guest (set_connection (p_session p) c)
          (pending_guest_write (p_session p) ++ bs)) (p_gateway p) (p_events p) (p_closed p)) /\
        moved h p (mkPump (set_pending_guest (set_connection (p_session p) c)
          (pending_guest_write (p_session p) ++ bs)) (p_gateway p) (p_events p) (p_closed p)))
        as [Hg1 Hm1].
      { rewrite <-(app_nil_r (p_events p)). apply good_session_of; [done|].
        intros (to & from & Hst & Hrc & Hfr & Hb & Hb'). exists to, from. cbn.
        rewrite Hrec, Hrc, Hsent, <-(assoc_L (++)). by split_and!. }
      apply (safe_after _ _ _ _ _ Hm1). apply safe_bind; [by apply push_send_safe|].
      intros p2 Hg2. case_test; [by apply safe_ret|]. case_test; [by apply good_session_of|].
      pose proof (len_nonneg bs). assert (len bs <> 0) by (intros ?%len_zero; done).
      apply IH; [done|lia|lia].
    + apply close_with_safe; [by eapply good_wf|by eapply good_handle|].
      intros fs. eexists. split; [by left|done].
  - apply close_with_safe; [by eapply good_wf|by eapply good_handle|].
    intros fs. eexists. split; [by left|done].
  - by apply Hsame.
  - apply close_with_safe; [by eapply good_wf|by eapply good_handle|].
    intros fs. eexists. split; [by right; left|done].
Qed.

Lemma host_to_guest_safe bl pl r h p now :
  limits_ok bl pl -> good bl h p -> safe bl h p (host_to_guest bl pl r p h now).
Proof.
  intros Hl Hg. unfold host_to_guest. apply safe_bind.
  - case_test; [by apply safe_ret|by apply push_send_safe].
  - intros p' Hg'. case_test; [|by apply safe_ret].
    destruct Hl as (? & ? & ? & ?). by apply host_read_loop_safe; [| |lia|lia].
Qed.

Lemma guest_to_host_safe bl pl r h p st now :
  limits_ok bl pl -> good bl h p -> safe bl h p (guest_to_host bl pl r p h st now).
Proof.
  intros (Hl1 & Hl2 & _ & Hw) Hg. unfold guest_to_host.
  destruct (alive_streams h p) as (e & d & Hst); [by eapply good_wf|by eapply good_handle|].
  apply holds_bind. eapply holds_mono;
    [eapply recv_tcp_session_holds; [by eapply good_wf|by eapply good_handle|exact Hst]|].
  intros [r' g'] (bs & Ebs & Hse). cbn [fst snd] in Ebs, Hse. subst r'.
  assert (forall s', (session_ok bl (p_gateway p) h (p_session p) -> session_ok bl g' h s') ->
    good bl h (mkPump s' g' (p_events p) (p_closed p)) /\
    moved h p (mkPump s' g' (p_events p) (p_closed p))) as Hgo.
  { intros s' Hs'. rewrite <-(app_nil_r (p_events p)), <-(app_nil_r (p_closed p)). split.
    - eapply effect_good; [done|exact Hse|]. rewrite app_nil_r.
      destruct Hg as [_ _ [?|?]]; [by left|right; by apply Hs'].
    - eapply effect_moved; [exact Hse|]. by intros k ?%elem_of_nil. }
  destruct bs as [|b bs].
  - destruct (Hgo (p_session p)) as [Hg1 Hm1].
    { intros (to & from & Hst' & Hx). rewrite Hst in Hst'. injection Hst' as <- <-.
      exists e, d. rewrite (se_streams _ _ _ _ Hse), decide_True, app_nil_r by done. by split. }
    apply (safe_after _ _ _ _ _ Hm1).
    apply safe_bind; [|intros p' Hg'; by apply note_guest_closed_safe].
    cbn [p_session p_gateway p_events p_closed]. case_test; [by apply write_host_safe|by apply safe_ret].
  - destruct (StreamBuffer.extend_pending_within_limit
      (pending_host_write (p_session p)) (b :: bs) (limit_pending_host_write bl) Hl1)
      as [[Ex Hex]|[Ex _]]; cbn [p_events p_closed]; rewrite Ex.
    + destruct (Hgo (set_pending_host (p_session p) (pending_host_write (p_session p) ++ b :: bs)))
        as [Hg1 Hm1].
      { intros (to & from & Hst' & Hrc & Hfr & Hb & Hb'). rewrite Hst in Hst'. injection Hst' as <- <-.
        exists e, (d ++ b :: bs). rewrite (se_streams _ _ _ _ Hse), decide_True by done.
        cbn. rewrite Hfr, <-(assoc_L (++)). by split_and!. }
      apply (safe_after _ _ _ _ _ Hm1). apply safe_bind; [by apply write_host_safe|].
      intros p' Hg'. by apply note_guest_closed_safe.
    + assert (moved h p (mkPump (p_session p) g' (p_events p) (p_closed p))) as Hm1.
      { rewrite <-(app_nil_r (p_events p)), <-(app_nil_r (p_closed p)).
        eapply effect_moved; [exact Hse|]. by intros k ?%elem_of_nil. }
      apply (safe_after _ _ _ _ _ Hm1).
      apply (close_with_safe bl h (mkPump (p_session p) g' (p_events p) (p_closed p))); cbn.
      * apply Hse.
      * rewrite (se_handles _ _ _ _ Hse). by eapply good_handle.
      * intros fs. eexists. split; [by left|done].
Qed.

Lemma process_session_safe bl pl r p a now :
  limits_ok bl pl -> good bl (ref_handle a) p ->
  safe bl (ref_handle a) p (process_session bl pl r p a now).
Proof.
  intros Hl Hg. unfold process_session. apply safe_bind.
  - case_test; [by apply host_to_guest_safe|by apply safe_ret].
  - intros p' Hg'. case_test; [by apply safe_ret|by apply guest_to_host_safe].
Qed.

(** ** A pass over all sessions *)

Definition conn_handles g : list SocketHandle := map cs_handle (host_connections (tcp_core g)).

Lemma conn_handle_in g h : h ∈ conn_handles g -> h ∈ handles (tcp_core g).
Proof. intros. apply elem_of_app. by right. Qed.

Lemma session_ok_streams bl g g' h s :
  streams (tcp_core g') h = streams (tcp_core g) h -> session_ok bl g h s -> session_ok bl g' h s.
Proof. intros Hs. unfold session_ok. by rewrite Hs. Qed.

Definition sessions_ok bl g (ss : gmap SocketHandle HostIngressSession)
  (closed : list SocketHandle) : Prop :=
  forall h s, ss !! h = Some s -> h ∈ conn_handles g -> h ∈ closed \/ session_ok bl g h s.

(** What a pass over the sessions [active] may change. *)
Record passed (active : list GuestTcpSessionRef) g (ss : gmap SocketHandle HostIngressSession) (events : list HostIngressEvent)
  (closed : list SocketHandle) g' (ss' : gmap SocketHandle HostIngressSession)
  (events' : list HostIngressEvent) (closed' : list SocketHandle) : Prop := {
  ps_wf : gateway_wf g';
  ps_setup : same_setup g g';
  ps_handles : handles (tcp_core g') = handles (tcp_core g);
  ps_slots : host_connections (tcp_core g') = host_connections (tcp_core g);
  ps_streams h : h ∉ conn_handles g -> streams (tcp_core g') h = streams (tcp_core g) h;
  ps_dom : dom ss' = dom ss;
  ps_other h : h ∉ map ref_handle active -> ss' !! h = ss !! h;
  ps_log : exists new_events new_closed,
    events' = events ++ new_events /\ closed' = closed ++ new_closed /\
    forall k, k ∈ new_closed ->
      k ∈ map ref_handle active /\ exists e, e ∈ new_events /\ closes k e
}.

Lemma process_sessions_ok bl pl r active now g ss events closed :
  limits_ok bl pl -> gateway_wf g ->
  (forall a, a ∈ active -> ref_handle a ∈ conn_handles g) -> sessions_ok bl g ss closed ->
  holds (process_sessions bl pl r active now ss g events closed)
    (fun '(ss', g', events', closed') =>
       passed active g ss events closed g' ss' events' closed' /\ sessions_ok bl g' ss' closed').
Proof.
  intros Hl. revert g ss events closed.
  induction active as [|a rest IH]; intros g ss events closed Hw Hin Hok; cbn [process_sessions].
  { split; [|done]. split; [done..|]. exists [], []. rewrite !app_nil_r.
    split; [done|]. split; [done|]. by intros k ?%elem_of_nil. }
  destruct (ss !! ref_handle a) as [s|] eqn:Es; cycle 1.
  { eapply holds_mono; [apply IH; [done|set_solver|done]|].
    intros [[[ss' g'] events'] closed'] [[? ? ? ? ? ? Hoth (ev & cl & ? & ? & Hk)] ?].
    split; [|done]. split; [done..| |].
    - intros h Hh. apply Hoth. cbn in Hh. set_solver.
    - exists ev, cl. split; [done|]. split; [done|]. intros k Hk1. destruct (Hk k Hk1).
      cbn. split; [by right|done]. }
  assert (ref_handle a ∈ conn_handles g) as Ha by (apply Hin; by left).
  assert (good bl (ref_handle a) (mkPump s g events closed)) as Hg.
  { split; [done|by apply conn_handle_in|by apply Hok]. }
  apply holds_bind. eapply holds_mono; [by apply process_session_safe|].
  intros p [Hg' [Hmset Hmh Hms Hmst (ev & cl & Hev & Hcl & Hk)]]. cbn in *.
  assert (conn_handles (p_gateway p) = conn_handles g) as Hc by (unfold conn_handles; by rewrite Hms).
  eapply holds_mono; [apply IH; [by eapply good_wf|rewrite Hc; set_solver|]|].
  - intros h s'. rewrite lookup_insert_Some, Hc. intros [[<- <-]|[Hne Hs']] Hh.
    + by eapply good_session.
    + destruct (Hok h s' Hs' Hh) as [?|Hs2]; [left; rewrite Hcl; set_solver|right].
      eapply session_ok_streams; [|exact Hs2]. by apply Hmst.
  - intros [[[ss' g'] events'] closed'] [[Hw' (Hp1 & Hp2 & Hp3) Hph Hps Hpst Hpd Hoth (ev' & cl' & He' & Hc' & Hk')] Hok'].
    destruct Hmset as (Hm1 & Hm2 & Hm3). split; [|done]. split.
    + done.
    + split_and!; congruence.
    + congruence.
    + congruence.
    + intros h Hh. rewrite Hpst by (by rewrite Hc). apply Hmst. by intros ->.
    + rewrite Hpd, dom_insert_L. apply elem_of_dom_2 in Es. set_solver.
    + cbn. intros h [Hne Hni]%not_elem_of_cons. rewrite Hoth by done. by rewrite lookup_insert_ne.
    + exists (ev ++ ev'), (cl ++ cl'). rewrite He', Hev, Hc', Hcl, !(assoc_L (++)).
      split; [done|]. split; [done|]. intros k [Hk1|Hk1]%elem_of_app.
      * destruct (Hk k Hk1) as (-> & e & ? & ?). split; [by left|]. exists e. set_solver.
      * destruct (Hk' k Hk1) as (? & e & ? & ?). split; [by right|]. exists e. set_solver.
Qed.

Definition bridge_ok (b : HostIngressBridge) g : Prop :=
  forall h s, sessions b !! h = Some s -> h ∈ conn_handles g -> session_ok (buffer_limits b) g h s.

Lemma foldl_delete {A} (closed : list SocketHandle) (ss : gmap SocketHandle A) h :
  foldl (fun ss h => delete h ss) ss closed !! h = if decide (h ∈ closed) then None else ss !! h.
Proof.
  revert ss. induction closed as [|k closed IH]; intros ss; cbn [foldl].
  { by rewrite decide_False by apply not_elem_of_nil. }
  rewrite IH. destruct (decide (h ∈ closed)); [rewrite decide_True by (by right); done|].
  destruct (decide (h = k)) as [->|Hne].
  - rewrite decide_True by (by left). apply lookup_delete_eq.
  - rewrite decide_False by (rewrite not_elem_of_cons; by split). by apply lookup_delete_ne.
Qed.

Lemma ingress_sessions_ret g : gateway_wf g ->
  exists refs, gateway_ingress_sessions g = Ret refs /\
    forall a, a ∈ refs -> ref_handle a ∈ conn_handles g /\
      session (tcp_core g) (ref_handle a) = Ret (Some (ref_session a)).
Proof.
  intros Hw. destruct (returns_inv (gateway_ingress_sessions g)) as [refs E].
  { apply session_refs_ret; [apply Hw|]. intros h Hh. by apply conn_handle_in. }
  exists refs. split; [done|]. by apply session_refs_spec.
Qed.

Lemma process_gateway_ok b g now r :
  limits_ok (buffer_limits b) (pump_limits b) -> gateway_wf g -> bridge_ok b g ->
  holds (process_gateway_with_readiness b g now r) (fun '(events, b', g') =>
    gateway_wf g' /\ bridge_ok b' g' /\ same_setup g g' /\
    buffer_limits b' = buffer_limits b /\ pump_limits b' = pump_limits b /\
    next_local_port b' = next_local_port b /\
    host_connections (tcp_core g') = host_connections (tcp_core g) /\
    (forall h, h ∉ conn_handles g -> streams (tcp_core g') h = streams (tcp_core g) h) /\
    dom (sessions b') ⊆ dom (sessions b) /\
    forall h, h ∈ dom (sessions b) -> h ∉ dom (sessions b') -> exists e, e ∈ events /\ closes h e).
Proof.
  intros Hl Hw Hok. unfold process_gateway_with_readiness.
  destruct (ingress_sessions_ret g Hw) as (refs & -> & Hrefs). cbn [exec_bind].
  apply holds_bind. eapply holds_mono; [apply process_sessions_ok; [exact Hl|done| |]|].
  { intros a Ha. by apply Hrefs. }
  { intros h s Hs Hh. right. by apply Hok. }
  intros [[[ss g'] events] closed] [[Hw' Hset Hph Hps Hpst Hpd _ (ev & cl & -> & -> & Hk)] Hok']. cbn.
  split; [done|]. split.
  { intros h s. cbn. rewrite foldl_delete. case_decide; [done|].
    intros Hs Hh. destruct (Hok' h s Hs Hh); done. }
  do 5 (split; [done|]). split; [done|]. split.
  - intros h. rewrite <-Hpd, !elem_of_dom, foldl_delete. case_decide; [by intros []|done].
  - intros h. rewrite <-Hpd, !elem_of_dom, foldl_delete. case_decide; [|done]. intros _ _. by apply Hk.
Qed.

(** ** Histories of the bridge and the gateway *)

(** The bridge and the gateway as the event loop drives them: frames of the
    guest, timers, reaping, operations of the TCP proxy on the sessions of
    listeners, new host connections, which start without traffic, and passes of
    the bridge. *)
Inductive system_step : HostIngressBridge * VmnetGateway -> HostIngressBridge * VmnetGateway -> Prop :=
| sys_frame b g frame now r g' :
    handle_guest_frame exchange g frame now = Ret (r, g') -> system_step (b, g) (b, g')
| sys_deferred b g frame now r g' :
    handle_guest_frame_with_deferred_dns g frame now = Ret (r, g') -> system_step (b, g) (b, g')
| sys_poll b g now r g' : poll_tcp g now = Ret (r, g') -> system_step (b, g) (b, g')
| sys_reap b g r g' : reap_closed_tcp_sessions g = Ret (r, g') -> system_step (b, g) (b, g')
| sys_proxy_recv b g h r g' : h ∈ map ls_handle (listeners (tcp_core g)) ->
    recv_tcp_session g h = Ret (r, g') -> system_step (b, g) (b, g')
| sys_proxy_send b g h data now r g' : h ∈ map ls_handle (listeners (tcp_core g)) ->
    send_tcp_session_partial g h data now = Ret (r, g') -> system_step (b, g) (b, g')
| sys_proxy_close b g h now r g' : h ∈ map ls_handle (listeners (tcp_core g)) ->
    close_tcp_session g h now = Ret (r, g') -> system_step (b, g) (b, g')
| sys_open b g port c now r b' g' : received c = [] -> sent c = [] ->
    open_session b g port c now = Ret (r, b', g') -> system_step (b, g) (b', g')
| sys_pass b g now rd events b' g' :
    process_gateway_with_readiness b g now rd = Ret (events, b', g') ->
    system_step (b, g) (b', g').

Definition system_ok (bg : HostIngressBridge * VmnetGateway) : Prop :=
  let '(b, g) := bg in
  gateway_wf g /\ bridge_ok b g /\ limits_ok (buffer_limits b) (pump_limits b) /\
  0 <= limit_pending_host_write (buffer_limits b) /\
  0 <= limit_pending_guest_write (buffer_limits b) /\
  1024 <= next_local_port b <= u16_max.

(** The bridge does not notice a change of the gateway that keeps its sessions. *)
Lemma bridge_ok_kept b g g' :
  (forall h, h ∈ conn_handles g' -> h ∈ conn_handles g) ->
  (forall h, h ∈ conn_handles g' -> streams (tcp_core g') h = streams (tcp_core g) h) ->
  bridge_ok b g -> bridge_ok b g'.
Proof.
  intros Hc Hs Hok h s Hh Hin. eapply session_ok_streams; [by apply Hs|]. by apply Hok; [|apply Hc].
Qed.

Lemma bridge_ok_sessions_kept b g g' : sessions_kept g g' -> bridge_ok b g -> bridge_ok b g'.
Proof.
  intros [Hc Hs]. apply bridge_ok_kept; unfold conn_handles; rewrite Hc; [done|].
  intros h Hh. by apply Hs, conn_handle_in.
Qed.

Lemma bridge_ok_effect b g h after g' :
  gateway_wf g -> h ∈ map ls_handle (listeners (tcp_core g)) -> session_effect g h after g' ->
  bridge_ok b g -> bridge_ok b g'.
Proof.
  intros Hw Hh [_ _ _ Hslots Hst]. apply bridge_ok_kept; unfold conn_handles; rewrite Hslots; [done|].
  intros h' Hh'. rewrite Hst, decide_False; [done|]. intros <-.
  pose proof (wf_nodup _ (gw_core _ Hw)) as Hn. unfold handles in Hn.
  apply NoDup_app in Hn as (_ & Hn & _). by apply (Hn h).
Qed.

Lemma reap_kept g r g' : gateway_wf g -> reap_closed_tcp_sessions g = Ret (r, g') ->
  (forall h, h ∈ conn_handles g' -> h ∈ conn_handles g) /\
  (forall h, h ∈ conn_handles g' -> streams (tcp_core g') h = streams (tcp_core g) h).
Proof.
  intros Hw. unfold reap_closed_tcp_sessions. rewrite reap_closed_sessions_eq by apply Hw.
  intros [= _ <-]. unfold conn_handles. cbn. split.
  - intros h. rewrite (filter_handles cs_handle (fun h => negb (is_closed (tcp_core g) h))).
    by intros [_ ?]%list_elem_of_filter.
  - intros h. rewrite (filter_handles cs_handle (fun h => negb (is_closed (tcp_core g) h))).
    intros [Ho Hh]%list_elem_of_filter. unfold streams. cbn. f_equal. unfold is_closed in Ho.
    destruct (sockets (tcp_core g) !! h) as [s|] eqn:Es.
    + apply map_lookup_filter_Some. split; [done|]. cbn. intros E. rewrite bool_decide_true in Ho; done.
    + apply map_lookup_filter_None. by left.
Qed.

Lemma open_session_ok b g port c now :
  system_ok (b, g) -> received c = [] -> sent c = [] ->
  holds (open_session b g port c now) (fun '(r, b', g') => system_ok (b', g') /\
    match r with
    | Ok o => open_handle o ∉ handles (tcp_core g) /\ open_local_port o = next_local_port b
    | Err _ => sessions b' = sessions b /\ g' = g
    end).
Proof.
  intros (Hw & Hok & Hl & Hl1 & Hl2 & Hp) Hr Hs. unfold open_session, allocate_local_port.
  assert (1024 <= Z.max (wrap16 (next_local_port b + 1)) 1024 <= u16_max) as Hp'.
  { unfold wrap16. pose proof (Z.mod_pos_bound (next_local_port b + 1) (2 ^ 16)). unfold u16_max. lia. }
  apply holds_bind. eapply holds_mono; [by apply connect_host_holds|].
  intros [[cn|e] g'] (Hw' & Hset & Hc); cbn [fst snd] in *.
  - destruct Hc as (Hni & _ & Hcs & Hst & Hoth). split; [|done].
    split; [done|]. split; [|exact (conj Hl (conj Hl1 (conj Hl2 Hp')))].
    intros h s. cbn. rewrite lookup_insert_Some. unfold conn_handles. rewrite Hcs, map_app.
    intros [[<- <-]|[Hne Hh]] Hin.
    + exists [], []. cbn. rewrite Hr, Hs. by split_and!.
    + apply elem_of_app in Hin as [Hin|Hin]; [|cbn in Hin; set_solver].
      eapply session_ok_streams; [by apply Hoth; intros ->|]. by apply Hok.
  - subst g'. split; [|done]. exact (conj Hw (conj Hok (conj Hl (conj Hl1 (conj Hl2 Hp'))))).
Qed.

Lemma system_step_ok bg bg' : system_ok bg -> system_step bg bg' -> system_ok bg'.
Proof.
  intros Hsys Hstep. destruct Hstep as [b g frame now r g' E|b g frame now r g' E|b g now r g' E
    |b g r g' E|b g h r g' Hh E|b g h data now r g' Hh E|b g h now r g' Hh E
    |b g port c now r b' g' Hr Hs E|b g now rd events b' g' E];
    pose proof Hsys as (Hw & Hok & Hrest).
  - pose proof (gateway_step_kept exchange g g' Hw (gs_frame exchange g frame now r g' E)) as [Hw' _].
    apply handle_guest_frame_kept in E; [|done]. split; [done|]. split; [|done].
    by eapply bridge_ok_sessions_kept.
  - pose proof (gateway_step_kept exchange g g' Hw (gs_deferred exchange g frame now r g' E)) as [Hw' _].
    apply handle_deferred_kept in E; [|done]. split; [done|]. split; [|done].
    by eapply bridge_ok_sessions_kept.
  - pose proof (drain_poll_holds g now (gw_l2 g Hw) (gw_core g Hw)) as Hh. unfold poll_tcp in E.
    rewrite E in Hh. destruct Hh as (Hw' & _ & _ & Ec). split; [done|]. split; [|done].
    eapply bridge_ok_sessions_kept; [|done]. cbn in Ec. split; rewrite Ec; [apply poll_slots|].
    intros h _. apply poll_streams.
  - pose proof (gateway_step_kept exchange g g' Hw (gs_reap exchange g r g' E)) as [Hw' _].
    apply reap_kept in E as [Hc Hst]; [|done]. split; [done|]. split; [|done].
    by eapply bridge_ok_kept.
  - assert (h ∈ handles (tcp_core g)) as Hin by (apply elem_of_app; by left).
    destruct (streams_handle _ h (gw_core _ Hw) Hin) as [[e d] Est].
    pose proof (recv_tcp_session_holds g h e d Hw Hin Est) as Hx. rewrite E in Hx.
    destruct Hx as (bs & _ & Hse). split; [apply Hse|]. split; [by eapply bridge_ok_effect|done].
  - assert (h ∈ handles (tcp_core g)) as Hin by (apply elem_of_app; by left).
    destruct (streams_handle _ h (gw_core _ Hw) Hin) as [[e d] Est].
    pose proof (send_partial_holds g h data now e d Hw Hin Est) as Hx. rewrite E in Hx.
    destruct r as [[n fs]|err]; cbn in Hx; [|by subst g'].
    destruct Hx as (_ & Hse). split; [apply Hse|]. split; [by eapply bridge_ok_effect|done].
  - assert (h ∈ handles (tcp_core g)) as Hin by (apply elem_of_app; by left).
    destruct (streams_handle _ h (gw_core _ Hw) Hin) as [[e d] Est].
    pose proof (close_holds g h now e d Hw Hin Est) as Hse. rewrite E in Hse. cbn in Hse.
    split; [apply Hse|]. split; [by eapply bridge_ok_effect|done].
  - pose proof (open_session_ok b g port c now Hsys Hr Hs) as Hx. rewrite E in Hx. by destruct Hx.
  - destruct Hrest as (Hl & Hrest).
    pose proof (process_gateway_ok b g now rd Hl Hw Hok) as Hx. rewrite E in Hx.
    destruct Hx as (Hw' & Hok' & _ & Hbl & Hpl & Hnp & _). split; [done|]. split; [done|].
    by rewrite Hbl, Hpl, Hnp.
Qed.

(** ** Theorems *)

(** C9 (invariant). Bytes between the host and the guest are conserved. Over any
    history of the event loop from a fresh gateway and a fresh bridge, with any
    behaviour of the stack, the resolver and the connections: for every session
    the gateway still has, the bytes read from the host connection are those
    given to the TCP socket followed by those pending, the bytes taken from the
    socket are those written to the host followed by those pending, both buffers
    are within their limits, and the next pass of the bridge does not panic. *)
Theorem ingress_conservation pol network now w g0 b g :
  0 <= Policy.prefix_len network <= u8_max -> 0 <= Policy.mtu pol <= u16_max ->
  new_with_dns_upstream pol network now w = Ret (Ok g0) ->
  rtc system_step (bridge_new, g0) (b, g) ->
  (forall h s, sessions b !! h = Some s -> h ∈ conn_handles g ->
     session_ok (buffer_limits b) g h s) /\
  forall t rd, returns (process_gateway_with_readiness b g t rd) = true.
Proof.
  intros Hp Hm Hnew Hsteps. apply gateway_new_wf in Hnew as [Hw _]; [|done..].
  assert (system_ok (b, g)) as (Hw' & Hok & Hl & _).
  { assert (system_ok (bridge_new, g0)) as Hinit by (by split; [|split; [intros h s; cbn; rewrite lookup_empty|]]).
    remember (bridge_new, g0) as x eqn:Ex. remember (b, g) as y eqn:Ey. clear Ex Ey.
    induction Hsteps; eauto using system_step_ok. }
  split; [done|]. intros t rd. pose proof (process_gateway_ok b g t rd Hl Hw' Hok) as Hx.
  by destruct (process_gateway_with_readiness b g t rd).
Qed.

(** No session disappears silently: a pass removes a session only
    together with an event that says that the host closed it, that the guest
    closed it, or that a buffer exceeded its limit; it adds none, and the
    sessions of the TCP proxy are left alone. *)
Theorem removal_announced b g now rd :
  limits_ok (buffer_limits b) (pump_limits b) -> gateway_wf g -> bridge_ok b g ->
  exists events b' g', process_gateway_with_readiness b g now rd = Ret (events, b', g') /\
    dom (sessions b') ⊆ dom (sessions b) /\
    (forall h, h ∈ dom (sessions b) -> h ∉ dom (sessions b') -> exists e, e ∈ events /\ closes h e) /\
    (forall h, h ∉ conn_handles g -> streams (tcp_core g') h = streams (tcp_core g) h).
Proof.
  intros Hl Hw Hok. pose proof (process_gateway_ok b g now rd Hl Hw Hok) as Hx.
  apply holds_ret in Hx as ([[events b'] g'] & E & _ & _ & _ & _ & _ & _ & _ & Hst & Hd & Hk).
  by exists events, b', g'.
Qed.

(** A session whose socket was reset is never closed by the bridge:
    a closed socket has no endpoints, so the gateway does not list it, and every
    pass leaves the session, with its host connection, as it is. *)
Theorem closed_session_kept b g now rd h s sock :
  limits_ok (buffer_limits b) (pump_limits b) -> gateway_wf g -> bridge_ok b g ->
  sessions b !! h = Some s -> sockets (tcp_core g) !! h = Some sock ->
  socket_state sock = State.Closed ->
  exists events b' g', process_gateway_with_readiness b g now rd = Ret (events, b', g') /\
    sessions b' !! h = Some s.
Proof.
  intros Hl Hw Hok Hs Hsock Hc. unfold process_gateway_with_readiness.
  destruct (ingress_sessions_ret g Hw) as (refs & -> & Hrefs). cbn [exec_bind].
  assert (h ∉ map ref_handle refs) as Hni.
  { intros (a & -> & Ha)%list_elem_of_fmap_1. destruct (Hrefs a Ha) as [_ Hse].
    unfold session, get in Hse. rewrite Hsock in Hse. cbn in Hse.
    by rewrite closed_no_endpoint in Hse. }
  pose proof (process_sessions_ok (buffer_limits b) (pump_limits b) rd refs now g (sessions b) [] []
    Hl Hw) as Hx.
  apply holds_ret in Hx as ([[[ss g'] events] closed] & -> & [_ _ _ _ _ _ Hoth (ev & cl & -> & -> & Hk)] & _).
  - cbn. eexists _, _, _. split; [done|]. cbn. rewrite foldl_delete, decide_False.
    + by rewrite Hoth.
    + intros Hcl. by destruct (Hk h Hcl).
  - intros a Ha. by apply Hrefs.
  - intros h' s' Hs' Hh'. right. by apply Hok.
Qed.

(** When the guest has closed its side and nothing is pending
    the session is dropped without a word to the gateway: its state is exactly
    what it was, so the socket is not closed towards the guest. *)
Theorem guest_close_keeps_socket bl pl rd s g events closed h sock local remote now :
  sockets (tcp_core g) !! h = Some sock -> socket_can_recv sock = false ->
  pending_host_write s = [] ->
  process_session bl pl rd (mkPump s g events closed)
    (mkSessionRef h (mkSession State.CloseWait local remote)) now =
  Ret (mkPump (set_guest_closed s State.CloseWait) g
         (events ++ [GuestClosed h (guest_port s) State.CloseWait]) (closed ++ [h])).
Proof.
  intros Hs Hr Hp.
  assert (recv_tcp_session g h = Ret (Ok [], g)) as Hrecv by (by eapply recv_nothing).
  unfold process_session, guest_to_host. cbn [ref_handle ref_session session_state].
  rewrite bool_decide_false by done.
  cbn [exec_bind negb andb guest_closed_state p_session p_gateway p_events p_closed].
  rewrite Hrecv. cbn [exec_bind]. rewrite Hp, bool_decide_true, andb_false_r by done.
  cbn [exec_bind]. unfold note_guest_closed. cbn. by rewrite Hp.
Qed.

(** ** Local ports *)

Fixpoint allocate_ports (k : nat) (b : HostIngressBridge) : list Z :=
  match k with
  | O => []
  | S k => let '(port, b) := allocate_local_port b in port :: allocate_ports k b
  end.

Lemma next_port_spec q :
  1024 <= q <= u16_max -> Z.max (wrap16 (q + 1)) 1024 = 1024 + (q - 1024 + 1) mod 64512.
Proof.
  unfold wrap16, u16_max. intros Hq. destruct (decide (q = 65535)) as [->|Hne]; [done|].
  rewrite !Z.mod_small by lia. lia.
Qed.

Lemma allocate_ports_eq k b :
  1024 <= next_local_port b <= u16_max ->
  allocate_ports k b =
    map (fun i => 1024 + (next_local_port b - 1024 + Z.of_nat i) mod 64512) (seq 0 k).
Proof.
  revert b. induction k as [|k IH]; intros b Hb; [done|]. cbn [allocate_ports seq map].
  pose proof (next_port_spec _ Hb) as Hn. unfold allocate_local_port.
  pose proof (Z.mod_pos_bound (next_local_port b - 1024 + 1) 64512) as Hm.
  rewrite IH by (cbn; rewrite Hn; unfold u16_max; lia). cbn [next_local_port]. f_equal.
  - rewrite Z.mod_small by (unfold u16_max in Hb; lia). lia.
  - rewrite Hn, <-seq_shift, map_map. apply map_ext. intros i.
    replace (1024 + _ - 1024 + Z.of_nat i) with
      ((next_local_port b - 1024 + 1) mod 64512 + Z.of_nat i) by lia.
    rewrite Zplus_mod_idemp_l. do 2 f_equal. lia.
Qed.

(** Local ports are taken from 1024 to 65535, wrapping around past
    the end, and do not repeat within 64512 connections. *)
Theorem allocate_ports_distinct k b :
  1024 <= next_local_port b <= u16_max -> Z.of_nat k <= 64512 ->
  NoDup (allocate_ports k b) /\ Forall (fun q => 1024 <= q <= u16_max) (allocate_ports k b).
Proof.
  intros Hb Hk. rewrite allocate_ports_eq by done. split.
  - apply NoDup_fmap_2_strong; [|apply NoDup_seq].
    intros i j [_ Hi]%elem_of_seq [_ Hj]%elem_of_seq Heq.
    assert ((next_local_port b - 1024 + Z.of_nat i) mod 64512 =
            (next_local_port b - 1024 + Z.of_nat j) mod 64512) as Hmod by lia.
    pose proof (Z.div_mod (next_local_port b - 1024 + Z.of_nat i) 64512).
    pose proof (Z.div_mod (next_local_port b - 1024 + Z.of_nat j) 64512). lia.
  - apply Forall_fmap, Forall_true. intros i. cbn.
    pose proof (Z.mod_pos_bound (next_local_port b - 1024 + Z.of_nat i) 64512). unfold u16_max. lia.
Qed.

(** ** Progress *)

(** A session served at the given instants, with the connection writable. *)
Fixpoint serve bl pl (a : GuestTcpSessionRef) (instants : list Z) p : exec pump :=
  match instants with
  | [] => Ret p
  | now :: rest =>
      let! p := process_session bl pl (readiness_selected [] [ref_handle a]) p a now in
      serve bl pl a rest p
  end.

Lemma flush_pass bl pl p a now sock :
  (forall (c : C) bs, bs <> [] -> exists n c', write c bs = (Ok n, c') /\ 0 < n) ->
  0 <= host_write_bytes_per_session pl ->
  session_state (ref_session a) = State.Established ->
  sockets (tcp_core (p_gateway p)) !! ref_handle a = Some sock -> socket_can_recv sock = false ->
  pending_guest_write (p_session p) = [] -> guest_closed (p_session p) = None ->
  exists c evs,
    let pending := pending_host_write (p_session p) in
    let limit := host_write_bytes_per_session pl in
    process_session bl pl (readiness_selected [] [ref_handle a]) p a now =
      Ret (mkPump (set_pending_host (set_connection (p_session p) c) (zdrop limit pending))
             (p_gateway p) (p_events p ++ evs) (p_closed p)) /\
    sent c = sent (connection (p_session p)) ++ ztake limit pending.
Proof.
  intros Heager Hlim Hst Hs Hr Hpg Hgc. cbv zeta.
  pose proof (recv_nothing _ _ _ Hs Hr) as Hrecv.
  unfold process_session, host_to_guest, guest_to_host. rewrite Hst.
  rewrite !bool_decide_true by done. cbn [exec_bind]. rewrite Hpg, bool_decide_true by done.
  assert (readable (readiness_selected [] [ref_handle a]) (ref_handle a) = false) as ->.
  { cbn. apply bool_decide_false, not_elem_of_nil. }
  assert (writable (readiness_selected [] [ref_handle a]) (ref_handle a) = true) as ->.
  { cbn. apply bool_decide_true. by left. }
  cbn [exec_bind negb andb]. rewrite Hrecv. cbn [exec_bind].
  destruct (bool_decide_reflect (pending_host_write (p_session p) = [])) as [He|Hne]; cbn [negb].
  - exists (connection (p_session p)), []. unfold note_guest_closed, zdrop, ztake.
    cbn. rewrite Hgc, He, drop_nil, take_nil, !app_nil_r. destruct p as [[] ? ? ?].
    cbn in *. by subst.
  - unfold write_host. cbn [p_session p_gateway p_events p_closed].
    destruct (StreamBuffer.write_pending_loop_eager sent (S (List.length (pending_host_write (p_session p))))
      (connection (p_session p)) (pending_host_write (p_session p))
      (host_write_bytes_per_session pl) 0 Heager) as [c E]; [lia..|].
    rewrite Z.sub_0_r, Z.add_0_l in E.
    pose proof (StreamBuffer.write_pending_loop_spec sent (S (List.length (pending_host_write (p_session p))))
      (connection (p_session p)) (pending_host_write (p_session p))
      (host_write_bytes_per_session pl) 0) as Hsp.
    rewrite E in Hsp. destruct Hsp as (out & Hout & Hsent & _ & _); [lia..|].
    assert (out = ztake (host_write_bytes_per_session pl) (pending_host_write (p_session p))) as Eout.
    { rewrite <-(ztake_zdrop (host_write_bytes_per_session pl) (pending_host_write (p_session p))) in Hout at 1.
      by apply app_inv_tail in Hout. }
    unfold StreamBuffer.write_pending_best_effort. rewrite E. cbn [exec_bind].
    exists c. rewrite Hsent, Eout. unfold note_guest_closed, push_host_write_limit_if_reached.
    cbn [guest_closed_state p_session set_pending_host set_connection guest_closed].
    rewrite Hgc. cbn [p_session p_gateway p_events p_closed].
    repeat case_test; rewrite <-?(assoc_L (++));
      [by eexists|by eexists|exists []; by rewrite app_nil_r].
Qed.

(** What the guest sent reaches the host: if the host connection
    takes at least one byte of every write and the guest sends nothing more, then
    after as many passes as the pending bytes need at the limit per pass, the
    buffer is empty, the host has every pending byte in order, and the session is
    still open. *)
Theorem pending_host_write_flushed bl pl a instants p sock :
  (forall (c : C) bs, bs <> [] -> exists n c', write c bs = (Ok n, c') /\ 0 < n) ->
  0 <= host_write_bytes_per_session pl ->
  session_state (ref_session a) = State.Established ->
  sockets (tcp_core (p_gateway p)) !! ref_handle a = Some sock -> socket_can_recv sock = false ->
  pending_guest_write (p_session p) = [] -> guest_closed (p_session p) = None ->
  len (pending_host_write (p_session p)) <= len instants * host_write_bytes_per_session pl ->
  exists p', serve bl pl a instants p = Ret p' /\
    pending_host_write (p_session p') = [] /\
    sent (connection (p_session p')) =
      sent (connection (p_session p)) ++ pending_host_write (p_session p) /\
    p_gateway p' = p_gateway p /\ p_closed p' = p_closed p.
Proof.
  intros Heager Hlim Hst. revert p.
  induction instants as [|now rest IH]; intros p Hs Hr Hpg Hgc Hlen.
  - change (@len Z []) with 0 in Hlen. assert (len (pending_host_write (p_session p)) = 0) as He
      by (pose proof (len_nonneg (pending_host_write (p_session p))); lia).
    apply len_zero in He. exists p. by rewrite He, app_nil_r.
  - destruct (flush_pass bl pl p a now sock) as (c & evs & E & Hsent); [done..|].
    cbn [serve]. rewrite E. cbn [exec_bind].
    edestruct (IH (mkPump (set_pending_host (set_connection (p_session p) c)
      (zdrop (host_write_bytes_per_session pl) (pending_host_write (p_session p))))
      (p_gateway p) (p_events p ++ evs) (p_closed p))) as (p' & -> & Hp' & Hs' & Hg' & Hc'); try done.
    { cbn. rewrite len_cons in Hlen. rewrite len_zdrop by done. pose proof (len_nonneg rest). lia. }
    exists p'. split; [done|]. split; [done|]. split; [|by split].
    rewrite Hs'. cbn. by rewrite Hsent, <-(assoc_L (++)), ztake_zdrop.
Qed.

End Facts.

(** ** Witnesses *)

#[local] Existing Instance toy_hickory.

Definition example_connection : duplex :=
  mkDuplex (mkScripted [Deliver [Byte.x41]] []) (mkSink 10 []).

Definition example_session : HostIngressSession (C := duplex) :=
  mkIngressSession 80 example_connection [] [] None.

Definition example_bridge : HostIngressBridge (C := duplex) :=
  mkBridge {[ 0%nat := example_session ]} 40001 BufferLimits_default PumpLimits_default.

(** The example gateway with one connection, whose socket is in a given state. *)
Definition example_socket (state : State.t) : Toy.socket :=
  Toy.mkSocket state (Some (mkEndpoint Toy.own_ip 40000)) (Some (mkEndpoint Toy.own_ip 80)) [] [] [].

Definition example_connected (state : State.t) : VmnetGateway (W := list Dns.Message) :=
  with_tcp example_gateway
    (mkCore (Toy.mkIface [] true) {[ 0%nat := example_socket state ]} [] [mkConnection 80 40000 0%nat])
    (device_new 1514).

Lemma example_connected_wf state : gateway_wf (example_connected state).
Proof.
  destruct example_gateway_wf as [Hl _ _]. split; [exact Hl| |done].
  split; [apply NoDup_singleton|]. intros h. cbn -[lookup singletonM].
  rewrite list_elem_of_singleton, lookup_singleton_is_Some. naive_solver.
Qed.

Lemma example_bridge_ok state :
  bridge_ok duplex_received duplex_sent example_bridge (example_connected state).
Proof.
  intros h s Hs _. cbn -[lookup singletonM] in Hs. apply lookup_singleton_Some in Hs as [<- <-].
  exists [], []. unfold streams. cbn -[lookup singletonM]. rewrite lookup_singleton_eq. done.
Qed.

Lemma example_limits_ok : limits_ok BufferLimits_default PumpLimits_default.
Proof. by vm_compute. Qed.

Definition example_opened := open_session bridge_new example_gateway 80 example_connection 0.

Lemma ingress_conservation_witness :
  exists r b g, example_opened = Ret (r, b, g) /\
    forall h s, sessions b !! h = Some s -> h ∈ conn_handles g ->
      session_ok duplex_received duplex_sent (buffer_limits b) g h s.
Proof.
  destruct (returns_inv example_opened) as [[[r b] g] E]; [vm_compute; reflexivity|].
  exists r, b, g. split; [exact E|].
  apply (ingress_conservation no_upstream duplex_received duplex_sent
    example_policy Policy.GuestNetwork_default 0 [] example_gateway b g).
  - vm_compute. split; discriminate.
  - vm_compute. split; discriminate.
  - exact example_gateway_new.
  - apply rtc_once. eapply sys_open; [| |exact E]; reflexivity.
Defined.

(** A connection that takes up to two bytes of every write. *)
Record eager := mkEager { eager_sent : list byte }.

#[local] Instance eager_read : Read eager := fun c n => (Err (OsError EAGAIN), c).
#[local] Instance eager_write : Write eager := {|
  write c bs := (Ok (Z.min 2 (len bs)), mkEager (eager_sent c ++ ztake (Z.min 2 (len bs)) bs));
  write_all c bs := (Ok tt, mkEager (eager_sent c ++ bs))
|}.

#[local] Instance eager_laws : DuplexLaws eager (fun _ => []) eager_sent.
Proof.
  split; [split|split|..].
  - done.
  - by intros c n e c' [= _ <-].
  - intros c bs n c' [= <- <-]. pose proof (len_nonneg bs). split; [lia|done].
  - done.
  - by intros c bs c' [= <-].
  - done.
  - by intros c n r c' [= _ <-].
  - done.
  - done.
Qed.

End Ingress.
