(* ===== verification/TlsMitm.v ===== *)
(** TLS interception (src/vm-frontend/src/tls_mitm.rs): the certificates of the
    intercepting authority, and the two ends of an intercepted connection, one
    towards the guest and one towards the upstream host.

    The TLS protocol is rustls and the certificates are rcgen, neither part of
    the sources: their operations are fields of classes, and what the program
    relies on is stated as laws over ghost histories of the bytes on either side
    of a connection. An I/O error stands where the source has its text. *)

From stdpp Require Import base option list numbers strings gmap.
From Stdlib Require Import ZArith Lia Ascii String.
From S2P Require Import Prelude RustIo RustStr.

Local Open Scope string_scope.
Local Open Scope list_scope.
Local Open Scope Z_scope.

Module TlsMitm.

Inductive TlsMitmError :=
| Io (error : io_error)
| InvalidCa (error : string)
| InvalidHost (error : string)
| CertificateGeneration (error : string)
| NativeRoots (error : string)
| UnsupportedSigningKey (error : string)
| Tls (error : string)
| PlaintextWrite (error : string + io_error).

(** ** The interface of rustls *)

Record IoState := mkIoState { tls_bytes_to_write : Z; plaintext_bytes_to_read : Z }.

(** A connection of rustls, of either role. [reader_read] is a read of
    [reader()] into a buffer of the given size, [writer_write] a write to
    [writer()], [write_tls] returns what it appends to a vector.

    [decrypted] is the application data the peer sent, as far as it is decrypted,
    [read_out] the part of it that was read, [plain_in] the application data
    accepted for the peer, [tls_out] the TLS bytes handed out and [tls_queue]
    those waiting to be. *)
Class TlsConnection (C : Type) := {
  read_tls : C -> list byte -> io_result Z * C;
  process_new_packets : C -> result IoState string * C;
  reader_read : C -> Z -> io_result (list byte) * C;
  writer_write : C -> list byte -> io_result Z * C;
  wants_write : C -> bool;
  write_tls : C -> io_result (list byte) * C;
  is_handshaking : C -> bool;
  decrypted : C -> list byte;
  read_out : C -> list byte;
  plain_in : C -> list byte;
  tls_queue : C -> list byte;
  tls_out : C -> list byte
}.

Class TlsConnectionLaws (C : Type) `{TlsConnection C} : Prop := {
  (** Bytes from the peer are buffered until they are processed. *)
  read_tls_keeps c bs r c' : read_tls c bs = (r, c') ->
    decrypted c' = decrypted c /\ read_out c' = read_out c /\ plain_in c' = plain_in c /\
    tls_out c' = tls_out c;
  process_keeps c r c' : process_new_packets c = (r, c') ->
    (exists more, decrypted c' = decrypted c ++ more) /\ read_out c' = read_out c /\
    plain_in c' = plain_in c /\ tls_out c' = tls_out c;
  read_prefix c : exists rest, decrypted c = read_out c ++ rest;
  (** There is no application data before the handshake is over. *)
  handshaking_no_data c : is_handshaking c = true -> decrypted c = [];
  (** Reading stops, with nothing or with [WouldBlock], only when everything
      decrypted was read. *)
  reader_ok c n bs c' : 0 < n -> reader_read c n = (Ok bs, c') ->
    len bs <= n /\ read_out c' = read_out c ++ bs /\ decrypted c' = decrypted c /\
    plain_in c' = plain_in c /\ tls_out c' = tls_out c /\
    (bs = [] -> read_out c = decrypted c);
  reader_err c n e c' : 0 < n -> reader_read c n = (Err e, c') ->
    read_out c' = read_out c /\ decrypted c' = decrypted c /\ plain_in c' = plain_in c /\
    tls_out c' = tls_out c /\ (error_kind e = WouldBlock -> read_out c = decrypted c);
  wants_write_spec c : wants_write c = true <-> tls_queue c <> [];
  (** Writing to a vector takes some of what is queued. *)
  write_tls_ok c bs c' : write_tls c = (Ok bs, c') ->
    tls_queue c = bs ++ tls_queue c' /\ (tls_queue c <> [] -> bs <> []) /\
    tls_out c' = tls_out c ++ bs /\ decrypted c' = decrypted c /\
    read_out c' = read_out c /\ plain_in c' = plain_in c;
  write_tls_err c e c' : write_tls c = (Err e, c') ->
    tls_out c' = tls_out c /\ decrypted c' = decrypted c /\
    read_out c' = read_out c /\ plain_in c' = plain_in c;
  (** A write that finds the buffer full accepts nothing and changes nothing; it
      never reports [WouldBlock]. *)
  writer_ok c bs n c' : writer_write c bs = (Ok n, c') ->
    0 <= n <= len bs /\ plain_in c' = plain_in c ++ ztake n bs /\
    decrypted c' = decrypted c /\ read_out c' = read_out c /\ tls_out c' = tls_out c /\
    (n = 0 -> tls_queue c' = tls_queue c);
  writer_err c bs e c' : writer_write c bs = (Err e, c') ->
    error_kind e <> WouldBlock /\ plain_in c' = plain_in c /\
    decrypted c' = decrypted c /\ read_out c' = read_out c /\ tls_out c' = tls_out c
}.

Class Rustls := {
  ServerConfig : Type;
  ClientConfig : Type;
  ServerName : Type;
  ServerConnection : Type;
  ClientConnection : Type;
  server_tls :: TlsConnection ServerConnection;
  client_tls :: TlsConnection ClientConnection;
  ServerConnection_new : ServerConfig -> result ServerConnection string;
  ClientConnection_new : ClientConfig -> ServerName -> result ClientConnection string;
  ServerName_try_from : string -> result ServerName string;
  (** The name of the [ClientHello], once it was received. *)
  connection_server_name : ServerConnection -> option string
}.

(** A new connection has carried no application data and no TLS bytes. *)
Definition fresh_tls {C} `{TlsConnection C} (c : C) : Prop :=
  decrypted c = [] /\ read_out c = [] /\ plain_in c = [] /\ tls_out c = [].

Class RustlsLaws `{Rustls} : Prop := {
  server_laws :: TlsConnectionLaws ServerConnection;
  client_laws :: TlsConnectionLaws ClientConnection;
  server_new_fresh config c : ServerConnection_new config = Ok c -> fresh_tls c;
  client_new_fresh config name c : ClientConnection_new config name = Ok c -> fresh_tls c
}.

(** ** A connection of either role

    The source has each of these functions twice, for [ServerConnection] and for
    [ClientConnection]; the bodies are the same. *)

Definition TLS_FEED_CHUNK_SIZE : Z := 1024.

(** [slice::chunks]. *)
Fixpoint chunks_loop {A} (fuel : nat) (n : Z) (l : list A) : list (list A) :=
  match fuel, l with
  | S fuel, _ :: _ => ztake n l :: chunks_loop fuel n (zdrop n l)
  | _, _ => []
  end.
Definition chunks {A} (n : Z) (l : list A) : list (list A) := chunks_loop (List.length l) n l.

Section Connection.
Context {C : Type} `{TlsConnection C}.

(** The rounds of [read_plaintext] are bounded by what there is to read. *)
Fixpoint read_plaintext_loop (fuel : nat) (c : C) (plaintext : list byte)
  : exec (result (list byte) TlsMitmError * C) :=
  match fuel with
  | O => Panic
  | S fuel =>
      match reader_read c (16 * 1024) with
      | (Ok [], c) => Ret (Ok plaintext, c)
      | (Ok bs, c) => read_plaintext_loop fuel c (plaintext ++ bs)
      | (Err error, c) =>
          if bool_decide (error_kind error = WouldBlock) then Ret (Ok plaintext, c)
          else Ret (Err (Io error), c)
      end
  end.

Definition read_plaintext (c : C) : exec (result (list byte) TlsMitmError * C) :=
  read_plaintext_loop (S (List.length (decrypted c))) c [].

(** The rounds of [drain_tls_writes] are bounded by what is queued. *)
Fixpoint drain_tls_loop (fuel : nat) (c : C) (output : list byte)
  : exec (result (list byte) TlsMitmError * C) :=
  match fuel with
  | O => Panic
  | S fuel =>
      if wants_write c then
        match write_tls c with
        | (Err error, c) => Ret (Err (Io error), c)
        | (Ok [], c) => Ret (Ok output, c)
        | (Ok bs, c) => drain_tls_loop fuel c (output ++ bs)
        end
      else Ret (Ok output, c)
  end.

Definition drain_tls_writes (c : C) : exec (result (list byte) TlsMitmError * C) :=
  drain_tls_loop (S (List.length (tls_queue c))) c [].

(** [process_server_packets_until_idle] and its client twin; [rounds] is the
    [0..32] of the loop. *)
Fixpoint process_packets_loop (rounds : nat) (c : C) (plaintext tls_to_peer : list byte)
  : exec (result (list byte * list byte) TlsMitmError * C) :=
  match rounds with
  | O => Ret (Ok (plaintext, tls_to_peer), c)
  | S rounds =>
      match process_new_packets c with
      | (Err error, c) => Ret (Err (Tls error), c)
      | (Ok state, c) =>
          let! (r, c) := read_plaintext c in
          match r with
          | Err error => Ret (Err error, c)
          | Ok new_plaintext =>
              let! (r, c) := drain_tls_writes c in
              match r with
              | Err error => Ret (Err error, c)
              | Ok new_tls =>
                  let made_progress :=
                    negb (bool_decide (new_plaintext = [])) || negb (bool_decide (new_tls = [])) in
                  let plaintext := plaintext ++ new_plaintext in
                  let tls_to_peer := tls_to_peer ++ new_tls in
                  if negb made_progress && (tls_bytes_to_write state =? 0)
                     && (plaintext_bytes_to_read state =? 0)
                  then Ret (Ok (plaintext, tls_to_peer), c)
                  else process_packets_loop rounds c plaintext tls_to_peer
              end
          end
      end
  end.

Definition process_packets_until_idle (c : C)
  : exec (result (list byte * list byte) TlsMitmError * C) :=
  process_packets_loop 32 c [] [].

(** The loop over the chunks in [read_guest_tls] and [read_upstream_tls]. *)
Fixpoint feed_chunks (c : C) (pieces : list (list byte)) (plaintext tls_to_peer : list byte)
  : exec (result (list byte * list byte) TlsMitmError * C) :=
  match pieces with
  | [] => Ret (Ok (plaintext, tls_to_peer), c)
  | chunk :: rest =>
      match read_tls c chunk with
      | (Err error, c) => Ret (Err (Io error), c)
      | (Ok _, c) =>
          let! (r, c) := process_packets_until_idle c in
          match r with
          | Err error => Ret (Err error, c)
          | Ok (chunk_plaintext, chunk_tls) =>
              feed_chunks c rest (plaintext ++ chunk_plaintext) (tls_to_peer ++ chunk_tls)
          end
      end
  end.

Definition feed (c : C) (bytes : list byte)
  : exec (result (list byte * list byte) TlsMitmError * C) :=
  feed_chunks c (chunks TLS_FEED_CHUNK_SIZE bytes) [] [].

(** The loop of [write_server_plaintext_streaming] and its client twin, on the
    bytes from [offset] on. A round that accepts nothing empties the queue, so
    that the next such round is the last. *)
Fixpoint write_plaintext_loop (role : string) (fuel : nat) (c : C) (bytes output : list byte)
  : exec (result (list byte) TlsMitmError * C) :=
  match fuel with
  | O => Panic
  | S fuel =>
      if bool_decide (bytes = []) then
        let! (r, c) := drain_tls_writes c in
        Ret (let? drained := r in Ok (output ++ drained), c)
      else
        match writer_write c bytes with
        | (Ok count, c) =>
            let! (r, c) := drain_tls_writes c in
            match r with
            | Err error => Ret (Err error, c)
            | Ok drained =>
                if count =? 0 then
                  if bool_decide (drained = [])
                  then Ret (Err (PlaintextWrite (inl ("rustls " ++ role ++ " writer made no progress")%string)), c)
                  else write_plaintext_loop role fuel c bytes (output ++ drained)
                else write_plaintext_loop role fuel c (zdrop count bytes) (output ++ drained)
            end
        | (Err error, c) =>
            if bool_decide (error_kind error = WouldBlock) then
              let! (r, c) := drain_tls_writes c in
              match r with
              | Err error => Ret (Err error, c)
              | Ok drained => write_plaintext_loop role fuel c bytes (output ++ drained)
              end
            else Ret (Err (PlaintextWrite (inr error)), c)
        end
  end.

Definition write_plaintext_streaming (role : string) (c : C) (bytes : list byte)
  : exec (result (list byte) TlsMitmError * C) :=
  write_plaintext_loop role (2 * List.length bytes + 2) c bytes [].

End Connection.

(** ** The two ends of an intercepted connection *)

Record GuestTlsRead := mkGuestRead { guest_plaintext : list byte; tls_to_guest : list byte }.
Record TlsUpstreamRead := mkUpstreamRead { upstream_plaintext : list byte; tls_to_upstream : list byte }.

Section Sessions.
Context `{Rustls}.

Record GuestTlsSession := mkGuestTls { server : ServerConnection }.
Record TlsUpstreamSession := mkUpstreamTls { client : ClientConnection }.

Definition GuestTlsSession_new (server_config : ServerConfig)
  : result GuestTlsSession TlsMitmError :=
  let? server := map_err Tls (ServerConnection_new server_config) in Ok (mkGuestTls server).

Definition read_guest_tls (s : GuestTlsSession) (bytes : list byte)
  : exec (result GuestTlsRead TlsMitmError * GuestTlsSession) :=
  let! (r, server) := feed (server s) bytes in
  Ret (let? (plaintext, tls) := r in Ok (mkGuestRead plaintext tls), mkGuestTls server).

Definition write_guest_plaintext (s : GuestTlsSession) (bytes : list byte)
  : exec (result (list byte) TlsMitmError * GuestTlsSession) :=
  let! (r, server) := write_plaintext_streaming "server" (server s) bytes in
  Ret (r, mkGuestTls server).

Definition guest_is_handshaking (s : GuestTlsSession) : bool := is_handshaking (server s).
Definition server_name (s : GuestTlsSession) : option string := connection_server_name (server s).

Definition TlsUpstreamSession_new (client_config : ClientConfig) (server_name : string)
  : result TlsUpstreamSession TlsMitmError :=
  let? name := map_err InvalidHost (ServerName_try_from server_name) in
  let? client := map_err Tls (ClientConnection_new client_config name) in
  Ok (mkUpstreamTls client).

Definition read_upstream_tls (s : TlsUpstreamSession) (bytes : list byte)
  : exec (result TlsUpstreamRead TlsMitmError * TlsUpstreamSession) :=
  let! (r, client) := feed (client s) bytes in
  Ret (let? (plaintext, tls) := r in Ok (mkUpstreamRead plaintext tls), mkUpstreamTls client).

Definition write_upstream_plaintext (s : TlsUpstreamSession) (bytes : list byte)
  : exec (result (list byte) TlsMitmError * TlsUpstreamSession) :=
  let! (r, client) := write_plaintext_streaming "client" (client s) bytes in
  Ret (r, mkUpstreamTls client).

Definition drain_tls_to_upstream (s : TlsUpstreamSession)
  : exec (result (list byte) TlsMitmError * TlsUpstreamSession) :=
  let! (r, client) := drain_tls_writes (client s) in Ret (r, mkUpstreamTls client).

Definition upstream_is_handshaking (s : TlsUpstreamSession) : bool := is_handshaking (client s).
Definition upstream_wants_write (s : TlsUpstreamSession) : bool := wants_write (client s).

End Sessions.

(** ** Certificates *)

(** The fields of rcgen's [CertificateParams] the program sets; [params_other]
    stands for the others. *)
Record CertificateParams {Other : Type} := mkParams {
  subject_alt_names : list string;
  distinguished_name : list (string * string);
  server_auth_usages : nat;
  use_authority_key_identifier_extension : bool;
  params_other : Other
}.
Arguments CertificateParams : clear implicits.

(** rcgen, rustls-pemfile and the signing keys of rustls, over a source of
    randomness [G]. *)
Class Rcgen (G : Type) := {
  KeyPair : Type;
  Issuer : Type;
  OtherParams : Type;
  CertificateDer : Type;
  PrivateKeyDer : Type;
  SigningKey : Type;
  KeyPair_from_pem : string -> result KeyPair string;
  KeyPair_generate : G -> result KeyPair string * G;
  serialize_der : KeyPair -> PrivateKeyDer;
  Issuer_from_ca_cert_pem : string -> KeyPair -> result Issuer string;
  pemfile_certs : string -> list (result CertificateDer string);
  CertificateParams_new : list string -> result (CertificateParams OtherParams) string;
  signed_by : CertificateParams OtherParams -> KeyPair -> Issuer -> result CertificateDer string;
  any_supported_type : PrivateKeyDer -> result SigningKey string
}.

Section Authority.
Context {G : Type} `{Rcgen G}.

Record TlsMitmAuthority := mkAuthority { issuer : Issuer; ca_cert : CertificateDer }.

Record GeneratedServerCertificate := mkGenerated {
  cert_chain : list CertificateDer; private_key : PrivateKeyDer }.

Record CertifiedKey := mkCertified { certified_chain : list CertificateDer; signing_key : SigningKey }.

Definition from_pem (ca_cert_pem ca_key_pem : string) : result TlsMitmAuthority TlsMitmError :=
  let? ca_key := map_err InvalidCa (KeyPair_from_pem ca_key_pem) in
  let? issuer := map_err InvalidCa (Issuer_from_ca_cert_pem ca_cert_pem ca_key) in
  let? ca_cert :=
    match pemfile_certs ca_cert_pem with
    | [] => Err (InvalidCa "missing CA certificate")
    | cert :: _ => map_err InvalidCa cert
    end in
  Ok (mkAuthority issuer ca_cert).

(** [fs::read_to_string] is a parameter. *)
Definition from_files (read_to_string : string -> io_result string)
  (ca_cert_path ca_key_path : string) : result TlsMitmAuthority TlsMitmError :=
  let? ca_cert := map_err Io (read_to_string ca_cert_path) in
  let? ca_key := map_err Io (read_to_string ca_key_path) in
  from_pem ca_cert ca_key.

(** The parameters of the certificate for [host]. *)
Definition host_params (params : CertificateParams OtherParams) (host : string)
  : CertificateParams OtherParams :=
  mkParams OtherParams (subject_alt_names params) [("CN", host)]
    (S (server_auth_usages params)) true (params_other params).

Definition generate_server_certificate (a : TlsMitmAuthority) (host : string) (rng : G)
  : result GeneratedServerCertificate TlsMitmError * G :=
  match KeyPair_generate rng with
  | (Err error, rng) => (Err (CertificateGeneration error), rng)
  | (Ok leaf_key, rng) =>
      (let? params := map_err InvalidHost (CertificateParams_new [host]) in
       let? cert := map_err CertificateGeneration
                      (signed_by (host_params params host) leaf_key (issuer a)) in
       Ok (mkGenerated [cert; ca_cert a] (serialize_der leaf_key)), rng)
  end.

Definition rustls_certified_key_for_host (a : TlsMitmAuthority) (host : string) (rng : G)
  : result CertifiedKey TlsMitmError * G :=
  let '(r, rng) := generate_server_certificate a host rng in
  (let? generated := r in
   let? signing_key := map_err UnsupportedSigningKey (any_supported_type (private_key generated)) in
   Ok (mkCertified (cert_chain generated) signing_key), rng).

(** The mutex around the cache is never poisoned: nothing panics while it is
    held. *)
Record TlsMitmCertResolver := mkResolver {
  authority : TlsMitmAuthority; cache : gmap string CertifiedKey }.

Definition resolver_new (authority : TlsMitmAuthority) : TlsMitmCertResolver :=
  mkResolver authority ∅.

Definition cached_host_count (r : TlsMitmCertResolver) : Z := Z.of_nat (size (cache r)).

Definition resolve (r : TlsMitmCertResolver) (client_hello_server_name : option string) (rng : G)
  : option CertifiedKey * TlsMitmCertResolver * G :=
  match client_hello_server_name with
  | None => (None, r, rng)
  | Some host =>
      match cache r !! host with
      | Some certified_key => (Some certified_key, r, rng)
      | None =>
          match rustls_certified_key_for_host (authority r) host rng with
          | (Err _, rng) => (None, r, rng)
          | (Ok certified_key, rng) =>
              (Some certified_key,
               mkResolver (authority r) (<[host := certified_key]> (cache r)), rng)
          end
      end
  end.

(** The hosts of a sequence of handshakes, resolved one after the other. *)
Fixpoint resolve_all (r : TlsMitmCertResolver) (names : list (option string)) (rng : G)
  : list (option CertifiedKey) * TlsMitmCertResolver * G :=
  match names with
  | [] => ([], r, rng)
  | name :: rest =>
      let '(key, r, rng) := resolve r name rng in
      let '(keys, r, rng) := resolve_all r rest rng in (key :: keys, r, rng)
  end.

End Authority.

(** The native roots: the certificates of the platform are a parameter, as is
    adding one to the store. *)
Section Roots.
Context {Cert Store : Type} (roots_empty : Store) (roots_add : Store -> Cert -> result Store string).

Definition native_root_store (certs : list Cert) (errors : list string)
  : result Store TlsMitmError :=
  match certs with
  | [] => Err (NativeRoots (default "no native root certificates loaded" (head errors)))
  | _ :: _ =>
      foldl (fun acc cert => let? roots := acc in map_err NativeRoots (roots_add roots cert))
        (Ok roots_empty) certs
  end.
End Roots.

(** ** Facts *)

Lemma concat_chunks {A} n (l : list A) : 0 < n -> List.concat (chunks n l) = l.
Proof.
  intros Hn. unfold chunks.
  assert (forall fuel (l : list A), (List.length l <= fuel)%nat ->
    List.concat (chunks_loop fuel n l) = l) as Hc; [|by apply Hc].
  clear l. intros fuel. induction fuel as [|fuel IH]; intros [|a l] Hf; cbn -[ztake zdrop];
    [done|cbn in Hf; lia|done|].
  rewrite IH, ztake_zdrop; [done|]. unfold zdrop. rewrite length_drop. cbn in *. lia.
Qed.

Section ConnectionFacts.
Context {C : Type} `{TlsConnection C} `{!TlsConnectionLaws C}.
Implicit Types c : C.

(** What crossed a connection while an operation ran: [plaintext] and [tls] left
    it, [written] was accepted for the peer. *)
Record tls_effect c (plaintext tls written : list byte) c' : Prop := {
  te_read : read_out c' = read_out c ++ plaintext;
  te_tls : tls_out c' = tls_out c ++ tls;
  te_in : plain_in c' = plain_in c ++ written
}.

Lemma tls_effect_id c c' :
  read_out c' = read_out c -> tls_out c' = tls_out c -> plain_in c' = plain_in c ->
  tls_effect c [] [] [] c'.
Proof. intros. by split; rewrite app_nil_r. Qed.

Lemma tls_effect_trans c1 c2 c3 p1 p2 t1 t2 w1 w2 :
  tls_effect c1 p1 t1 w1 c2 -> tls_effect c2 p2 t2 w2 c3 ->
  tls_effect c1 (p1 ++ p2) (t1 ++ t2) (w1 ++ w2) c3.
Proof. intros [? ? ?] [? ? ?]. split; rewrite (assoc_L (++)); congruence. Qed.

(** Nothing decrypted is unread and nothing is queued. *)
Definition idle c : Prop := read_out c = decrypted c /\ wants_write c = false.

Lemma read_plaintext_loop_spec fuel c acc :
  (List.length (decrypted c) - List.length (read_out c) < fuel)%nat ->
  holds (read_plaintext_loop fuel c acc) (fun '(r, c') => forall bs, r = Ok bs ->
    exists new, bs = acc ++ new /\ tls_effect c new [] [] c' /\ read_out c' = decrypted c').
Proof.
  revert c acc. induction fuel as [|fuel IH]; intros c acc Hf; [lia|]. cbn [read_plaintext_loop].
  destruct (reader_read c (16 * 1024)) as [[bs|e] c1] eqn:E.
  - apply reader_ok in E as (_ & Hr & Hd & Hp & Ht & He); [|lia]. destruct bs as [|b bs].
    + rewrite app_nil_r in Hr. intros bs [= <-]. exists []. rewrite app_nil_r.
      split; [done|]. split; [by apply tls_effect_id|]. rewrite Hr, Hd. by apply He.
    + eapply holds_mono; [apply IH|].
      * destruct (read_prefix c1) as [rest Hpre]. rewrite Hd, Hr in *.
        rewrite Hpre in *. rewrite !length_app in *. cbn in *. lia.
      * intros [r c'] Hpost bs' ->. destruct (Hpost bs' eq_refl) as (new & -> & Heff & Hall).
        exists ((b :: bs) ++ new). rewrite (assoc_L (++)). split; [done|]. split; [|done].
        apply (tls_effect_trans c c1 c' (b :: bs) new [] [] [] []); [|done].
        by split; rewrite ?app_nil_r.
  - apply reader_err in E as (Hr & Hd & Hp & Ht & He); [|lia].
    case_test; [|done]. intros bs [= <-]. exists []. rewrite app_nil_r. split; [done|].
    split; [by apply tls_effect_id|]. rewrite Hr, Hd. by apply He.
Qed.

Lemma drain_tls_loop_spec fuel c acc :
  (List.length (tls_queue c) < fuel)%nat ->
  holds (drain_tls_loop fuel c acc) (fun '(r, c') => forall bs, r = Ok bs ->
    exists new, bs = acc ++ new /\ tls_effect c [] new [] c' /\ wants_write c' = false /\
      tls_queue c = new /\ decrypted c' = decrypted c).
Proof.
  revert c acc. induction fuel as [|fuel IH]; intros c acc Hf; [lia|]. cbn [drain_tls_loop].
  destruct (wants_write c) eqn:Ew.
  - apply wants_write_spec in Ew.
    destruct (write_tls c) as [[bs|e] c1] eqn:E; [|done].
    apply write_tls_ok in E as (Hq & Hne & Ht & Hd & Hr & Hp). specialize (Hne Ew).
    destruct bs as [|b bs]; [done|].
    eapply holds_mono; [apply IH; rewrite Hq, length_app in Hf; cbn in Hf; lia|].
    intros [r c'] Hpost bs' ->. destruct (Hpost bs' eq_refl) as (new & -> & Heff & Hw & Hn & Hd').
    exists ((b :: bs) ++ new). rewrite (assoc_L (++)), Hq, Hn, Hd'. split; [done|].
    split; [|done]. apply (tls_effect_trans c c1 c' [] [] (b :: bs) new [] []); [|done].
    by split; rewrite ?app_nil_r.
  - intros bs [= <-]. exists []. rewrite app_nil_r. split; [done|]. split; [by apply tls_effect_id|].
    split; [done|]. split; [|done]. destruct (tls_queue c) eqn:Eq; [done|].
    assert (wants_write c = true) by (apply wants_write_spec; by rewrite Eq). congruence.
Qed.

Lemma read_plaintext_spec c :
  holds (read_plaintext c) (fun '(r, c') => forall bs, r = Ok bs ->
    tls_effect c bs [] [] c' /\ read_out c' = decrypted c').
Proof.
  unfold read_plaintext. eapply holds_mono; [apply read_plaintext_loop_spec; lia|].
  intros [r c'] Hp bs Hr. by destruct (Hp bs Hr) as (new & -> & ? & ?).
Qed.

Lemma drain_tls_writes_spec c :
  holds (drain_tls_writes c) (fun '(r, c') => forall bs, r = Ok bs ->
    tls_effect c [] bs [] c' /\ wants_write c' = false /\ tls_queue c = bs /\
    decrypted c' = decrypted c).
Proof.
  unfold drain_tls_writes. eapply holds_mono; [apply drain_tls_loop_spec; lia|].
  intros [r c'] Hp bs Hr. by destruct (Hp bs Hr) as (new & -> & ?).
Qed.

Lemma process_packets_loop_spec rounds c p0 t0 :
  holds (process_packets_loop rounds c p0 t0) (fun '(r, c') => forall p t, r = Ok (p, t) ->
    exists p' t', p = p0 ++ p' /\ t = t0 ++ t' /\ tls_effect c p' t' [] c' /\
      (idle c \/ rounds <> O -> idle c')).
Proof.
  revert c p0 t0. induction rounds as [|rounds IH]; intros c p0 t0; cbn [process_packets_loop].
  { intros p t [= <- <-]. exists [], []. rewrite !app_nil_r. split; [done|]. split; [done|].
    split; [by apply tls_effect_id|]. by intros [|]. }
  destruct (process_new_packets c) as [[state|e] c1] eqn:E; [|done].
  apply process_keeps in E as (_ & Hr & Hp & Ht).
  apply holds_bind. eapply holds_mono; [apply read_plaintext_spec|].
  intros [[new|e] c2] H2; [|done]. destruct (H2 new eq_refl) as [Heff2 Hall].
  apply holds_bind. eapply holds_mono; [apply drain_tls_writes_spec|].
  intros [[tls|e] c3] H3; [|done]. destruct (H3 tls eq_refl) as (Heff3 & Hw & _ & Hd3).
  assert (tls_effect c new tls [] c3) as Heff.
  { pose proof (tls_effect_trans c c1 c2 [] new [] [] [] []
      ltac:(by apply tls_effect_id) Heff2) as Hx.
    pose proof (tls_effect_trans c c2 c3 _ _ _ _ _ _ Hx Heff3) as Hy.
    cbn in Hy. by rewrite app_nil_r in Hy. }
  assert (idle c3) as Hidle.
  { split; [|done]. destruct Heff3 as [E3 _ _]. rewrite E3, app_nil_r. congruence. }
  case_test.
  - intros p t [= <- <-]. by exists new, tls.
  - eapply holds_mono; [apply IH|]. intros [r c'] Hpost p t ->.
    destruct (Hpost p t eq_refl) as (p' & t' & -> & -> & Heff' & Hi).
    exists (new ++ p'), (tls ++ t'). rewrite !(assoc_L (++)). split; [done|]. split; [done|].
    split; [|intros _; apply Hi; by left]. by apply (tls_effect_trans c c3 c' _ _ _ _ [] []).
Qed.

Lemma feed_chunks_spec pieces c p0 t0 :
  holds (feed_chunks c pieces p0 t0) (fun '(r, c') => forall p t, r = Ok (p, t) ->
    exists p' t', p = p0 ++ p' /\ t = t0 ++ t' /\ tls_effect c p' t' [] c' /\
      (idle c \/ pieces <> [] -> idle c')).
Proof.
  revert c p0 t0. induction pieces as [|chunk rest IH]; intros c p0 t0; cbn [feed_chunks].
  { intros p t [= <- <-]. exists [], []. rewrite !app_nil_r. split; [done|]. split; [done|].
    split; [by apply tls_effect_id|]. by intros [|]. }
  destruct (read_tls c chunk) as [[n|e] c1] eqn:E; [|done].
  apply read_tls_keeps in E as (_ & Hr & Hp & Ht).
  apply holds_bind. eapply holds_mono; [apply process_packets_loop_spec|].
  intros [[[new tls]|e] c2] H2; [|done].
  destruct (H2 new tls eq_refl) as (p1 & t1 & -> & -> & Heff & Hi). cbn [app].
  eapply holds_mono; [apply IH|]. intros [r c'] Hpost p t ->.
  destruct (Hpost p t eq_refl) as (p' & t' & -> & -> & Heff' & Hi').
  exists (p1 ++ p'), (t1 ++ t'). rewrite !(assoc_L (++)). split; [done|]. split; [done|].
  split; [|intros _; apply Hi'; left; apply Hi; by right].
  apply (tls_effect_trans c c2 c' _ _ _ _ [] []); [|done].
  by apply (tls_effect_trans c c1 c2 [] _ [] _ [] []); [apply tls_effect_id|].
Qed.

Lemma feed_spec c bytes :
  holds (feed c bytes) (fun '(r, c') => forall p t, r = Ok (p, t) ->
    tls_effect c p t [] c' /\ (bytes <> [] -> idle c')).
Proof.
  unfold feed. eapply holds_mono; [apply feed_chunks_spec|].
  intros [r c'] Hpost p t Hr. destruct (Hpost p t Hr) as (p' & t' & -> & -> & Heff & Hi).
  split; [done|]. intros Hne. apply Hi. right. destruct bytes; [done|]. by unfold chunks.
Qed.

Lemma write_plaintext_loop_spec role fuel c bytes acc :
  (2 * List.length bytes + (if wants_write c then 1 else 0) < fuel)%nat ->
  holds (write_plaintext_loop role fuel c bytes acc) (fun '(r, c') => forall out, r = Ok out ->
    exists new, out = acc ++ new /\ tls_effect c [] new bytes c' /\ wants_write c' = false).
Proof.
  revert c bytes acc. induction fuel as [|fuel IH]; intros c bytes acc Hf; [lia|].
  cbn [write_plaintext_loop]. case_test.
  { subst bytes. apply holds_bind. eapply holds_mono; [apply drain_tls_writes_spec|].
    intros [[bs|e] c1] H1; [|done]. destruct (H1 bs eq_refl) as (Heff & Hw & _).
    intros out [= <-]. by exists bs. }
  destruct (writer_write c bytes) as [[count|e] c1] eqn:E.
  - apply writer_ok in E as (Hc & Hp & _ & Hr & Ht & Hz).
    assert (tls_effect c [] [] (ztake count bytes) c1) as Heff1 by (by split; rewrite ?app_nil_r).
    apply holds_bind. eapply holds_mono; [apply drain_tls_writes_spec|].
    intros [[drained|e] c2] H2; [|done]. destruct (H2 drained eq_refl) as (Heff2 & Hw2 & Hq & _).
    pose proof (tls_effect_trans c c1 c2 _ _ _ _ _ _ Heff1 Heff2) as Heff. cbn in Heff.
    rewrite app_nil_r in Heff.
    assert (forall rest, (2 * List.length rest < fuel)%nat -> bytes = ztake count bytes ++ rest ->
      holds (write_plaintext_loop role fuel c2 rest (acc ++ drained)) (fun '(r, c') =>
        forall out, r = Ok out -> exists new, out = acc ++ new /\ tls_effect c [] new bytes c' /\
          wants_write c' = false)) as Hgo.
    { intros rest Hlen Hsplit. eapply holds_mono; [apply IH; rewrite Hw2; lia|].
      intros [r c'] Hpost out ->. destruct (Hpost out eq_refl) as (new & -> & Heff' & Hw').
      exists (drained ++ new). rewrite (assoc_L (++)). split; [done|]. split; [|done].
      rewrite Hsplit. apply (tls_effect_trans c c2 c' [] [] drained new _ rest); done. }
    case_test.
    + subst count. case_test; [done|]. apply Hgo; [|done].
      assert (wants_write c = true) as Hwc.
      { apply wants_write_spec. rewrite <-Hz by done. by rewrite Hq. }
      rewrite Hwc in Hf. lia.
    + apply Hgo; [|by rewrite ztake_zdrop]. unfold zdrop. rewrite length_drop.
      unfold len in Hc. destruct (wants_write c); lia.
  - apply writer_err in E as (Hk & _). rewrite bool_decide_false by done. done.
Qed.

Lemma write_plaintext_spec role c bytes :
  holds (write_plaintext_streaming role c bytes) (fun '(r, c') => forall out, r = Ok out ->
    tls_effect c [] out bytes c' /\ wants_write c' = false).
Proof.
  unfold write_plaintext_streaming.
  eapply holds_mono; [apply write_plaintext_loop_spec; destruct (wants_write c); lia|].
  intros [r c'] Hpost out Hr. by destruct (Hpost out Hr) as (new & -> & ?).
Qed.

End ConnectionFacts.

Section ResolverFacts.
Context {G : Type} `{Rcgen G}.

Lemma resolve_spec r name rng key r' rng' :
  resolve r name rng = (key, r', rng') ->
  cache r ⊆ cache r' /\
  forall host, name = Some host -> cache r' !! host = key /\ (is_Some (cache r !! host) -> rng' = rng).
Proof.
  unfold resolve. destruct name as [host|]; [|by intros [= <- <- <-]].
  destruct (cache r !! host) as [k|] eqn:Ek.
  { intros [= <- <- <-]. split; [done|]. intros h [= <-]. done. }
  destruct (rustls_certified_key_for_host (authority r) host rng) as [[k|e] g]; intros [= <- <- <-]; cbn.
  - split; [by apply insert_subseteq|]. intros h [= <-]. rewrite lookup_insert_eq.
    split; [done|]. rewrite Ek. by intros [].
  - split; [done|]. intros h [= <-]. rewrite Ek. split; [done|]. by intros [].
Qed.

Lemma resolve_all_spec names r rng keys r' rng' :
  resolve_all r names rng = (keys, r', rng') ->
  cache r ⊆ cache r' /\
  forall i host key, names !! i = Some (Some host) -> keys !! i = Some (Some key) ->
    cache r' !! host = Some key.
Proof.
  revert r rng keys. induction names as [|name names IH]; intros r rng keys; cbn [resolve_all].
  { by intros [= <- <- <-]. }
  destruct (resolve r name rng) as [[key r1] g1] eqn:E1.
  destruct (resolve_all r1 names g1) as [[keys1 r2] g2] eqn:E2. intros [= <- <- <-].
  apply resolve_spec in E1 as [Hs1 Hk1]. apply IH in E2 as [Hs2 Hk2]. split; [by etrans|].
  intros [|i] host k Hn Hk; cbn in Hn, Hk; [|by eapply Hk2].
  injection Hn as ->. injection Hk as ->. destruct (Hk1 host eq_refl) as [Hc _].
  by eapply lookup_weaken.
Qed.

(** A host has one certificate: in any sequence of handshakes all
    answers for the same server name are the same key, which is also what the
    cache holds afterwards, and a handshake without a server name gets none. *)
Theorem resolver_stable names r rng i j host ki kj :
  let '(keys, r', _) := resolve_all r names rng in
  (names !! i = Some None -> keys !! i = Some None) /\
  (names !! i = Some (Some host) -> names !! j = Some (Some host) ->
   keys !! i = Some (Some ki) -> keys !! j = Some (Some kj) ->
   ki = kj /\ cache r' !! host = Some ki).
Proof.
  destruct (resolve_all r names rng) as [[keys r'] rng'] eqn:E. split.
  - clear ki kj j host. revert r rng keys i E. induction names as [|name names IH]; [done|].
    intros r rng keys i. cbn [resolve_all]. destruct (resolve r name rng) as [[key r1] g1] eqn:E1.
    destruct (resolve_all r1 names g1) as [[keys1 r2] g2] eqn:E2. intros [= <- <- <-].
    destruct i as [|i]; cbn; [|by eapply IH]. intros [= ->]. cbn in E1. by injection E1 as <-.
  - apply resolve_all_spec in E as [_ Hk]. intros Hi Hj Hki Hkj.
    pose proof (Hk _ _ _ Hi Hki). pose proof (Hk _ _ _ Hj Hkj). split; congruence.
Qed.

End ResolverFacts.

Section SessionFacts.
Context `{Rustls} `{!RustlsLaws}.

(** TLS bytes from the guest are taken in without hanging, in
    however many chunks and rounds: when it succeeds, the plaintext and the reply
    returned are exactly what left the connection, everything that was decrypted
    has been returned, and no reply is left queued. *)
Theorem read_guest_tls_complete s bytes :
  exists r s', read_guest_tls s bytes = Ret (r, s') /\
  forall read, r = Ok read ->
    read_out (server s') = read_out (server s) ++ guest_plaintext read /\
    tls_out (server s') = tls_out (server s) ++ tls_to_guest read /\
    plain_in (server s') = plain_in (server s) /\
    (bytes <> [] -> read_out (server s') = decrypted (server s') /\ wants_write (server s') = false).
Proof.
  pose proof (feed_spec (server s) bytes) as Hf.
  apply holds_ret in Hf as ([r c'] & E & Hr). unfold read_guest_tls. rewrite E. cbn [exec_bind].
  eexists _, _. split; [done|]. intros read. destruct r as [[p t]|e]; [|done].
  intros [= <-]. destruct (Hr p t eq_refl) as [[H1 H2 H3] Hi]. rewrite app_nil_r in H3. done.
Qed.

(** Plaintext for the upstream host is encrypted completely and
    in order or refused with an error, never by waiting: on success the TLS
    connection has accepted every byte, and the TLS bytes returned are exactly
    those that left the connection, with none left queued. *)
Theorem write_upstream_plaintext_spec s bytes :
  exists r s', write_upstream_plaintext s bytes = Ret (r, s') /\
  forall out, r = Ok out ->
    plain_in (client s') = plain_in (client s) ++ bytes /\
    tls_out (client s') = tls_out (client s) ++ out /\
    read_out (client s') = read_out (client s) /\ wants_write (client s') = false.
Proof.
  pose proof (write_plaintext_spec "client" (client s) bytes) as Hf.
  apply holds_ret in Hf as ([r c'] & E & Hr). unfold write_upstream_plaintext. rewrite E.
  cbn [exec_bind]. eexists _, _. split; [done|]. intros out ->.
  destruct (Hr out eq_refl) as [[H1 H2 H3] Hi]. rewrite app_nil_r in H1. done.
Qed.

End SessionFacts.

(** ** A connection for the witnesses

    The first byte from the peer ends the handshake; after it the bytes are the
    application data. *)
Module ToyTls.

Record conn := mkConn {
  reply : list byte; handshaking : bool; buffered : list byte; taken : list byte;
  unread : list byte; given : list byte; queued : list byte; emitted : list byte }.

Definition process (c : conn) : conn :=
  match handshaking c, buffered c with
  | true, [] => c
  | true, _ :: bs =>
      mkConn (reply c) false [] [] bs (given c) (queued c ++ reply c) (emitted c)
  | false, bs =>
      mkConn (reply c) false [] (taken c) (unread c ++ bs) (given c) (queued c) (emitted c)
  end.

Definition reader (c : conn) (n : Z) : io_result (list byte) * conn :=
  match handshaking c, unread c with
  | true, _ | _, [] => (Err (OsError EAGAIN), c)
  | false, bs =>
      (Ok (ztake n bs), mkConn (reply c) (handshaking c) (buffered c) (taken c ++ ztake n bs)
        (zdrop n bs) (given c) (queued c) (emitted c))
  end.

Definition writer (c : conn) (bs : list byte) : io_result Z * conn :=
  if handshaking c then (Ok 0, c)
  else (Ok (len bs), mkConn (reply c) false (buffered c) (taken c) (unread c) (given c ++ bs)
                       (queued c ++ bs) (emitted c)).

#[global] Instance conn_tls : TlsConnection conn := {|
  read_tls c bs := (Ok (len bs), mkConn (reply c) (handshaking c) (buffered c ++ bs) (taken c)
                                   (unread c) (given c) (queued c) (emitted c));
  process_new_packets c := (Ok (mkIoState 0 0), process c);
  reader_read := reader;
  writer_write := writer;
  wants_write c := negb (bool_decide (queued c = []));
  write_tls c := (Ok (queued c), mkConn (reply c) (handshaking c) (buffered c) (taken c) (unread c)
                                   (given c) [] (emitted c ++ queued c));
  is_handshaking := handshaking;
  decrypted c := if handshaking c then [] else taken c ++ unread c;
  read_out c := if handshaking c then [] else taken c;
  plain_in := given;
  tls_queue := queued;
  tls_out := emitted
|}.

#[global] Instance conn_laws : TlsConnectionLaws conn.
Proof.
  split; cbn.
  - by intros c bs r c' [= <- <-].
  - intros c r c' [= <- <-]. unfold process.
    destruct (handshaking c) eqn:Eh, (buffered c) as [|b bs]; cbn; rewrite ?Eh; cbn.
    + split; [by exists []|done].
    + split; [by exists bs|done].
    + split; [|done]. exists []. by rewrite !app_nil_r.
    + split; [|done]. exists (b :: bs). by rewrite (assoc_L (++)).
  - intros c. destruct (handshaking c); [by exists []|by eexists].
  - by intros c ->.
  - intros c n bs c' Hn. unfold reader. destruct (handshaking c) eqn:Eh; [done|].
    destruct (unread c) as [|b t] eqn:Eu; [done|].
    intros [= <- <-]. cbn. rewrite ?Eh, <-(assoc_L (++)), ztake_zdrop, ?Eu. split_and!; try done.
    + rewrite len_ztake by lia. lia.
    + intros Hz. apply (f_equal len) in Hz. rewrite len_ztake, len_cons, len_nil in Hz by lia.
      pose proof (len_nonneg t). lia.
  - intros c n e c' Hn. unfold reader. destruct (handshaking c) eqn:Eh; [by intros [= <- <-]; rewrite Eh|].
    destruct (unread c) as [|b t] eqn:Eu; [|done].
    intros [= <- <-]. rewrite ?Eh, ?Eu, app_nil_r. done.
  - intros c. rewrite negb_true_iff, bool_decide_eq_false. done.
  - intros c bs c' [= <- <-]. cbn. by rewrite app_nil_r.
  - done.
  - intros c bs n c'. unfold writer. pose proof (len_nonneg bs) as Hl.
    destruct (handshaking c) eqn:Eh; intros [= <- <-]; cbn; rewrite ?Eh.
    + rewrite app_nil_r. done.
    + rewrite ztake_all by lia. do 5 (split; [done||lia|]).
      intros ->%len_zero. by rewrite app_nil_r.
  - intros c bs e c'. unfold writer. by destruct (handshaking c).
Qed.

(** The server answers the hello with one byte; the client starts with its
    hello. Every name is a server name. *)
#[global] Instance rustls : Rustls := {|
  ServerConfig := unit;
  ClientConfig := unit;
  ServerName := string;
  ServerConnection := conn;
  ClientConnection := conn;
  server_tls := conn_tls;
  client_tls := conn_tls;
  ServerConnection_new _ := Ok (mkConn [Byte.x02] true [] [] [] [] [] []);
  ClientConnection_new _ _ := Ok (mkConn [] true [] [] [] [] [Byte.x01] []);
  ServerName_try_from s := Ok s;
  connection_server_name c := if handshaking c then None else Some "example.com"%string
|}.

#[global] Instance rustls_laws : RustlsLaws.
Proof. split; [exact conn_laws|exact conn_laws|by intros config c [= <-]|by intros config n c [= <-]]. Qed.

End ToyTls.

(** ** Witnesses *)

#[local] Instance toy_rcgen : Rcgen nat := {|
  KeyPair := nat; Issuer := nat; OtherParams := unit; CertificateDer := string * nat;
  PrivateKeyDer := nat; SigningKey := nat;
  KeyPair_from_pem _ := Ok 0%nat;
  KeyPair_generate n := (Ok n, S n);
  serialize_der k := k;
  Issuer_from_ca_cert_pem _ k := Ok k;
  pemfile_certs pem := [Ok (pem, 0%nat)];
  CertificateParams_new names := Ok (mkParams unit names [] 0 false tt);
  signed_by p k i := Ok (String.concat "," (subject_alt_names p), k);
  any_supported_type k := Ok k
|}.

End TlsMitm.
