(* ===== verification/HttpRequest.v ===== *)
(** The summary of an intercepted HTTP request ([parse_http_request] in
    src/vm-frontend/src/tcp_gateway.rs). The parser is the httparse crate, a
    parameter; the decoding and trimming of the [Host] header are those of the
    standard library. *)

From stdpp Require Import base option list numbers strings.
From Stdlib Require Import ZArith Lia Ascii String.
From S2P Require Import Prelude RustStr.

Local Open Scope string_scope.
Local Open Scope list_scope.
Local Open Scope Z_scope.

Module Http.

(** ** [String::from_utf8_lossy] and [str::trim]

    A string is the list of its characters, each with its UTF-8 encoding. *)

Definition between (lo hi : Z) (b : byte) : bool := (lo <=? u8 b) && (u8 b <=? hi).

(** The range of the second byte of a sequence, and the number of continuation
    bytes after it, by its first byte. *)
Definition utf8_lead (b : byte) : option (Z * Z * nat) :=
  let n := u8 b in
  if between 0xC2 0xDF b then Some (0x80, 0xBF, O)
  else if n =? 0xE0 then Some (0xA0, 0xBF, 1%nat)
  else if n =? 0xED then Some (0x80, 0x9F, 1%nat)
  else if between 0xE1 0xEF b then Some (0x80, 0xBF, 1%nat)
  else if n =? 0xF0 then Some (0x90, 0xBF, 2%nat)
  else if between 0xF1 0xF3 b then Some (0x80, 0xBF, 2%nat)
  else if n =? 0xF4 then Some (0x80, 0x8F, 2%nat)
  else None.

(** Takes up to [n] continuation bytes; says whether all were there. *)
Fixpoint utf8_tail (n : nat) (bs : list byte) : bool * list byte * list byte :=
  match n, bs with
  | O, _ => (true, [], bs)
  | S n, b :: rest =>
      if between 0x80 0xBF b then
        let '(ok, taken, rest) := utf8_tail n rest in (ok, b :: taken, rest)
      else (false, [], bs)
  | S _, [] => (false, [], [])
  end.

Definition REPLACEMENT_CHARACTER : list byte := [Byte.xef; Byte.xbf; Byte.xbd].

(** The next character, with the bytes left; the longest prefix of a sequence
    that goes wrong is one replacement character. *)
Definition next_char (b : byte) (bs : list byte) : list byte * list byte :=
  if u8 b <? 0x80 then ([b], bs)
  else
    match utf8_lead b, bs with
    | Some (lo, hi, n), b2 :: rest =>
        if between lo hi b2 then
          let '(ok, taken, rest) := utf8_tail n rest in
          (if ok then b :: b2 :: taken else REPLACEMENT_CHARACTER, rest)
        else (REPLACEMENT_CHARACTER, bs)
    | _, _ => (REPLACEMENT_CHARACTER, bs)
    end.

Fixpoint lossy_chars (fuel : nat) (bs : list byte) : list (list byte) :=
  match fuel, bs with
  | S fuel, b :: rest => let '(c, rest) := next_char b rest in c :: lossy_chars fuel rest
  | _, _ => []
  end.

Definition from_utf8_lossy (bs : list byte) : list (list byte) := lossy_chars (List.length bs) bs.

(** [char::is_whitespace]: the characters with the property [White_Space]. *)
Definition is_whitespace (c : list byte) : bool :=
  match map u8 c with
  | [n] => (n =? 0x20) || ((0x09 <=? n) && (n <=? 0x0D))
  | [0xC2; n] => (n =? 0x85) || (n =? 0xA0)
  | [0xE1; 0x9A; 0x80] => true
  | [0xE2; 0x80; n] =>
      ((0x80 <=? n) && (n <=? 0x8A)) || (n =? 0xA8) || (n =? 0xA9) || (n =? 0xAF)
  | [0xE2; 0x81; 0x9F] => true
  | [0xE3; 0x80; 0x80] => true
  | _ => false
  end.

Fixpoint trim_start (s : list (list byte)) : list (list byte) :=
  match s with
  | c :: rest => if is_whitespace c then trim_start rest else s
  | [] => []
  end.

Definition trim (s : list (list byte)) : list (list byte) :=
  reverse (trim_start (reverse (trim_start s))).

Definition string_of_chars (s : list (list byte)) : string :=
  string_of_list_byte (List.concat s).

(** ** Requests *)

Record HttpRequestSummary := mkSummary {
  method : string; path : string; host : option string }.

Inductive HttpParseError := Malformed.

(** A complete request as httparse reports it. *)
Record ParsedRequest := mkParsed {
  parsed_method : option string; parsed_path : option string;
  parsed_headers : list (string * list byte) }.

(** [httparse::Request::parse] with room for a number of headers: an error, or
    the request once it is complete. *)
Class HttpParser := { request_parse : Z -> list byte -> result (option ParsedRequest) string }.

Definition eq_ignore_ascii_case (a b : string) : bool :=
  String.eqb (to_ascii_lowercase a) (to_ascii_lowercase b).

Section Parse.
Context `{HttpParser}.

Definition parse_http_request (buffer : list byte)
  : result (option HttpRequestSummary) HttpParseError :=
  match request_parse 64 buffer with
  | Ok None => Ok None
  | Ok (Some request) =>
      let? method := ok_or (parsed_method request) Malformed in
      let? path := ok_or (parsed_path request) Malformed in
      let host :=
        match List.find (fun header => eq_ignore_ascii_case header.1 "host") (parsed_headers request) with
        | Some header => Some (string_of_chars (trim (from_utf8_lossy header.2)))
        | None => None
        end in
      Ok (Some (mkSummary method path host))
  | Err _ => Err Malformed
  end.

End Parse.

(** ** Facts *)

(** The encodings of one character. *)
Definition utf8_char (c : list byte) : Prop :=
  match c with
  | [b] => u8 b < 0x80
  | b :: b2 :: tail =>
      exists lo hi n, utf8_lead b = Some (lo, hi, n) /\ between lo hi b2 = true /\
        List.length tail = n /\ Forall (fun b => between 0x80 0xBF b = true) tail
  | [] => False
  end.

Lemma utf8_tail_spec n bs :
  let '(ok, taken, rest) := utf8_tail n bs in
  bs = taken ++ rest /\ Forall (fun b => between 0x80 0xBF b = true) taken /\
  (ok = true -> List.length taken = n).
Proof.
  revert bs. induction n as [|n IH]; intros bs; cbn; [done|].
  destruct bs as [|b bs]; [done|]. destruct (between 0x80 0xBF b) eqn:Eb; [|done].
  specialize (IH bs). destruct (utf8_tail n bs) as [[ok taken] rest]. destruct IH as (-> & Hf & Hl).
  split; [done|]. split; [by constructor|]. intros Hok. cbn. by rewrite Hl.
Qed.

Lemma replacement_char : utf8_char REPLACEMENT_CHARACTER.
Proof.
  exists 0x80, 0xBF, 1%nat. split; [done|]. split; [done|]. split; [done|]. by repeat constructor.
Qed.

Lemma next_char_spec b bs :
  let '(c, rest) := next_char b bs in
  utf8_char c /\ (List.length rest <= List.length bs)%nat.
Proof.
  unfold next_char. case_test; [done|].
  destruct (utf8_lead b) as [[[lo hi] n]|] eqn:El; [|split; [exact replacement_char|done]].
  destruct bs as [|b2 rest]; [split; [exact replacement_char|done]|].
  destruct (between lo hi b2) eqn:Eb; [|split; [exact replacement_char|done]].
  pose proof (utf8_tail_spec n rest) as Ht. destruct (utf8_tail n rest) as [[ok taken] rest'].
  destruct Ht as (-> & Hf & Hl). split; [|cbn; rewrite length_app; lia].
  destruct ok; [|exact replacement_char]. exists lo, hi, n. split_and!; try done. by apply Hl.
Qed.

Lemma from_utf8_lossy_valid bs : Forall utf8_char (from_utf8_lossy bs).
Proof.
  unfold from_utf8_lossy. generalize (List.length bs) as fuel. intros fuel. revert bs.
  induction fuel as [|fuel IH]; intros [|b bs]; cbn; try done.
  pose proof (next_char_spec b bs) as Hn. destruct (next_char b bs) as [c rest].
  destruct Hn as [Hc _]. by constructor.
Qed.

(** Decoding what is well formed changes nothing. *)
Lemma utf8_tail_app tail rest :
  Forall (fun b => between 0x80 0xBF b = true) tail ->
  utf8_tail (List.length tail) (tail ++ rest) = (true, tail, rest).
Proof.
  induction 1 as [|b tail Hb Hf IH]; cbn; [by destruct rest|]. by rewrite Hb, IH.
Qed.

Lemma utf8_lead_ascii b : u8 b <? 0x80 = true -> utf8_lead b = None.
Proof. by destruct b. Qed.

Lemma next_char_app b tail rest :
  utf8_char (b :: tail) -> next_char b (tail ++ rest) = (b :: tail, rest).
Proof.
  unfold next_char. destruct tail as [|b2 tail]; cbn.
  - intros Hb. by rewrite (proj2 (Z.ltb_lt _ _)).
  - intros (lo & hi & n & El & Eb & <- & Hf).
    assert (u8 b <? 0x80 = false) as ->.
    { apply not_true_iff_false. intros Hlt. rewrite utf8_lead_ascii in El; done. }
    by rewrite El, Eb, utf8_tail_app.
Qed.

Lemma lossy_chars_roundtrip cs fuel :
  Forall utf8_char cs -> (List.length (List.concat cs) <= fuel)%nat ->
  lossy_chars fuel (List.concat cs) = cs.
Proof.
  intros Hf. revert fuel. induction Hf as [|c cs Hc Hf IH]; intros fuel Hlen; [by destruct fuel|].
  destruct c as [|b tail]; [done|]. cbn [List.concat app] in *. destruct fuel as [|fuel]; [cbn in Hlen; lia|].
  cbn [lossy_chars]. rewrite next_char_app by done. f_equal. apply IH.
  cbn in Hlen. rewrite length_app in Hlen. lia.
Qed.

Lemma trim_start_spec s :
  exists front, s = front ++ trim_start s /\ Forall (fun c => is_whitespace c = true) front /\
    forall c, head (trim_start s) = Some c -> is_whitespace c = false.
Proof.
  induction s as [|c s IH]; cbn; [by exists []|].
  destruct (is_whitespace c) eqn:Ec.
  - destruct IH as (front & Hs & Hf & Hh). exists (c :: front). split; [by rewrite Hs at 1|].
    split; [by constructor|done].
  - exists []. split; [done|]. split; [done|]. by intros c' [= <-].
Qed.

Lemma trim_spec s :
  exists front back, s = front ++ trim s ++ back /\
    Forall (fun c => is_whitespace c = true) (front ++ back) /\
    forall c, head (trim s) = Some c \/ last (trim s) = Some c -> is_whitespace c = false.
Proof.
  unfold trim. destruct (trim_start_spec s) as (front & Hs & Hf & Hh).
  destruct (trim_start_spec (reverse (trim_start s))) as (back & Hs2 & Hf2 & Hh2).
  set (t := trim_start (reverse (trim_start s))) in *.
  assert (trim_start s = reverse t ++ reverse back) as Ht.
  { rewrite <-reverse_app, <-Hs2. by rewrite reverse_involutive. }
  exists front, (reverse back). split; [by rewrite Hs at 1; rewrite Ht|]. split.
  { apply Forall_app. split; [done|]. by apply Forall_reverse. }
  intros c [Hc|Hc].
  - apply Hh. rewrite Ht. by destruct (reverse t).
  - apply Hh2. rewrite <-(reverse_involutive t), head_reverse. done.
Qed.

Lemma lower_eq a b : eq_ignore_ascii_case a b = true <-> to_ascii_lowercase a = to_ascii_lowercase b.
Proof. unfold eq_ignore_ascii_case. apply String.eqb_eq. Qed.

(** A summary is that of a complete request of httparse with a method
    and a path, which it repeats; the host is that of the first header named
    "host" in any mix of cases, as text that is well-formed UTF-8 whatever the
    bytes were, without white space at either end, and exactly the trimmed value
    when the bytes are well formed; there is none only without such a header. *)
Theorem parse_http_request_spec `{HttpParser} buffer summary :
  parse_http_request buffer = Ok (Some summary) ->
  exists request, request_parse 64 buffer = Ok (Some request) /\
    parsed_method request = Some (method summary) /\ parsed_path request = Some (path summary) /\
    match host summary with
    | None => forall h, h ∈ parsed_headers request -> to_ascii_lowercase h.1 <> "host"
    | Some text =>
        exists before name value after cs,
          parsed_headers request = before ++ (name, value) :: after /\
          to_ascii_lowercase name = "host" /\
          (forall h, h ∈ before -> to_ascii_lowercase h.1 <> "host") /\
          text = string_of_chars cs /\ Forall utf8_char cs /\
          (forall c, head cs = Some c \/ last cs = Some c -> is_whitespace c = false) /\
          (forall ws, Forall utf8_char ws -> value = List.concat ws -> cs = trim ws)
    end.
Proof.
  unfold parse_http_request. destruct (request_parse 64 buffer) as [[request|]|e] eqn:E; [|done..].
  destruct (parsed_method request) as [m|] eqn:Em; [|done].
  destruct (parsed_path request) as [pa|] eqn:Ep; [|done]. cbn -[eq_ignore_ascii_case]. intros [= <-]. cbn -[eq_ignore_ascii_case].
  exists request. split; [done|]. split; [done|]. split; [done|].
  induction (parsed_headers request) as [|[name value] hs IH]; cbn -[eq_ignore_ascii_case].
  { intros h ?%elem_of_nil. done. }
  destruct (eq_ignore_ascii_case name "host") eqn:Eh.
  - apply lower_eq in Eh. exists [], name, value, hs, (trim (from_utf8_lossy value)).
    split; [done|]. split; [done|]. split; [by intros h ?%elem_of_nil|]. split; [done|].
    destruct (trim_spec (from_utf8_lossy value)) as (front & back & Hs & _ & Hw).
    split; [|split; [exact Hw|]].
    + pose proof (from_utf8_lossy_valid value) as Hv. rewrite Hs, !Forall_app in Hv. apply Hv.
    + intros ws Hws ->. f_equal. by apply lossy_chars_roundtrip.
  - assert (to_ascii_lowercase name <> "host") as Hne.
    { intros Hl. assert (eq_ignore_ascii_case name "host" = true) by (by apply lower_eq). congruence. }
    destruct (List.find _ hs) as [h|].
    + destruct IH as (before & n & v & after & cs & -> & Hn & Hb & Hrest).
      exists ((name, value) :: before), n, v, after, cs. split; [done|]. split; [done|].
      split; [|done]. by intros h' [->|Hh]%elem_of_cons; [|apply Hb].
    + by intros h' [->|Hh]%elem_of_cons; [|apply IH].
Qed.

(** ** Witness *)

(** A parser that knows one request. *)
#[local] Instance one_request : HttpParser := {|
  request_parse n bs :=
    Ok (Some (mkParsed (Some "GET") (Some "/")
      [("Accept", [Byte.x2a]); ("hOST", [Byte.x20; Byte.x61; Byte.xff; Byte.x62; Byte.x09])])) |}.

End Http.
