(* ===== verification/TcpProxy.v ===== *)
(** The TCP proxy (src/vm-frontend/src/tcp_proxy.rs): it dials the destinations
    guest connections ask for, when the policy allows them, and relays bytes
    between the TCP sessions of the gateway and the upstream connections through
    bounded buffers; intercepted HTTP requests are summarised, and intercepted
    HTTPS connections are decrypted and encrypted again.

    As in StreamBuffer, an I/O error stands where the source has its text. *)

From stdpp Require Import base option list numbers strings gmap sets relations.
From Stdlib Require Import ZArith Lia Ascii String.
From S2P Require Import Prelude RustIo RustStr NetworkPolicy L2Gateway DnsProxy TcpGateway.
From S2P Require Import StreamBuffer Smoltcp GuestTcp VmnetGateway TlsMitm HttpRequest.

Local Open Scope string_scope.
Local Open Scope list_scope.
Local Open Scope Z_scope.

Module TcpProxy.
Import GuestTcp Vmnet Tcp TlsMitm Http.

Definition DEFAULT_TCP_PROXY_BUFFER_LIMIT : Z := 1024 * 1024.
Definition DEFAULT_TCP_PROXY_PENDING_GUEST_BUFFER_LIMIT : Z := 8 * 1024 * 1024.
Definition DEFAULT_TCP_PROXY_HTTP_REQUEST_BUFFER_LIMIT : Z := 64 * 1024.

Record TcpProxyBufferLimits := mkLimits {
  limit_upstream_bytes : Z;
  limit_upstream_plaintext : Z;
  limit_guest_bytes : Z;
  limit_http_request_bytes : Z
}.

Definition limits_new (pending_upstream_plaintext : Z) : TcpProxyBufferLimits :=
  mkLimits DEFAULT_TCP_PROXY_BUFFER_LIMIT pending_upstream_plaintext
    DEFAULT_TCP_PROXY_PENDING_GUEST_BUFFER_LIMIT DEFAULT_TCP_PROXY_HTTP_REQUEST_BUFFER_LIMIT.

Definition with_upstream_bytes (pending_upstream_bytes pending_upstream_plaintext : Z)
  : TcpProxyBufferLimits :=
  mkLimits pending_upstream_bytes pending_upstream_plaintext
    DEFAULT_TCP_PROXY_PENDING_GUEST_BUFFER_LIMIT DEFAULT_TCP_PROXY_HTTP_REQUEST_BUFFER_LIMIT.

Definition with_http_request_bytes
  (pending_upstream_bytes pending_upstream_plaintext pending_guest_bytes http_request_bytes : Z)
  : TcpProxyBufferLimits :=
  mkLimits pending_upstream_bytes pending_upstream_plaintext pending_guest_bytes http_request_bytes.

Definition with_all (pending_upstream_bytes pending_upstream_plaintext pending_guest_bytes : Z)
  : TcpProxyBufferLimits :=
  with_http_request_bytes pending_upstream_bytes pending_upstream_plaintext pending_guest_bytes
    DEFAULT_TCP_PROXY_HTTP_REQUEST_BUFFER_LIMIT.

Definition limits_default : TcpProxyBufferLimits :=
  with_all DEFAULT_TCP_PROXY_BUFFER_LIMIT DEFAULT_TCP_PROXY_BUFFER_LIMIT
    DEFAULT_TCP_PROXY_PENDING_GUEST_BUFFER_LIMIT.

Inductive TcpProxyBufferKind :=
| PendingUpstreamBytes | PendingUpstreamPlaintext | PendingGuestBytes | HttpRequestBytes.

Record UpstreamSessionInterest := mkUpstreamInterest { wants_readable : bool; wants_writable : bool }.

Record TcpProxyReadiness := mkReadiness {
  poll_all : bool; ready_readable : list SocketHandle; ready_writable : list SocketHandle }.

Definition readiness_all : TcpProxyReadiness := mkReadiness true [] [].
Definition readiness_selected (readable writable : list SocketHandle) : TcpProxyReadiness :=
  mkReadiness false readable writable.

Definition readable (r : TcpProxyReadiness) (handle : SocketHandle) : bool :=
  poll_all r || bool_decide (handle ∈ ready_readable r).
Definition writable (r : TcpProxyReadiness) (handle : SocketHandle) : bool :=
  poll_all r || bool_decide (handle ∈ ready_writable r).

Inductive GuestSendEvent := SendUpstreamPayload | SendTlsHandshakePayload.

(** Dialling an upstream host ([TcpUpstreamConnector::connect]), over a state
    [K] of the host network. *)
Class TcpUpstreamConnector (K C : Type) :=
  connect : K -> TcpDestination -> result C TcpConnectError * K.

Section Proxy.
Context `{SmolStack} `{Ipv4NetOps} `{Rustls} `{HttpParser} {W : Type}.
Context {K C : Type} `{TcpUpstreamConnector K C} `{Read C} `{Write C}.
Local Notation VmnetGateway := (VmnetGateway (W := W)).
Local Notation frames := (list (list byte)).

Inductive TcpProxyEvent :=
| Connected (handle : SocketHandle) (destination : TcpDestination) (decision : TcpDecision)
| Denied (handle : SocketHandle) (destination : TcpDestination) (decision : TcpDecision)
| ConnectFailed (handle : SocketHandle) (destination : TcpDestination) (error : TcpConnectError)
    (guest_frames : frames)
| GuestPayload (handle : SocketHandle) (bytes : Z)
| HttpRequest (handle : SocketHandle) (destination : TcpDestination) (summary : HttpRequestSummary)
| HttpRequestIncomplete (handle : SocketHandle)
| HttpRequestMalformed (handle : SocketHandle)
| UpstreamPayload (handle : SocketHandle) (bytes : Z) (guest_frames : frames)
| TlsHandshakePayload (handle : SocketHandle) (bytes : Z) (guest_frames : frames)
| TlsUpstreamPayload (handle : SocketHandle) (bytes : Z)
| TlsMitmUnavailable (handle : SocketHandle) (destination : TcpDestination)
| TlsMitmFailed (handle : SocketHandle) (error : TlsMitmError) (guest_frames : frames)
| BufferLimitExceeded (handle : SocketHandle) (buffer : TcpProxyBufferKind) (limit attempted : Z)
    (guest_frames : frames)
| GuestReadFailed (handle : SocketHandle) (error : RecvError)
| GuestWriteFailed (handle : SocketHandle) (error : SendError)
| UpstreamWriteFailed (handle : SocketHandle) (error : io_error)
| UpstreamReadFailed (handle : SocketHandle) (error : io_error).

Record UpstreamSession := mkUpstream {
  destination : TcpDestination;
  decision : TcpDecision;
  connection : C;
  http_buffer : list byte;
  guest_tls : option GuestTlsSession;
  upstream_tls : option TlsUpstreamSession;
  upstream_tls_ready : bool;
  pending_upstream_bytes : list byte;
  pending_upstream_plaintext : list byte;
  pending_guest_bytes : list byte;
  session_limits : TcpProxyBufferLimits
}.

Record TcpProxyPendingConnect := mkPending {
  pending_handle : SocketHandle;
  pending_destination : TcpDestination;
  pending_decision : TcpDecision;
  pending_guest_tls : option GuestTlsSession
}.

Inductive TcpProxyConnectPlan :=
| PlanPending (pending : TcpProxyPendingConnect)
| PlanEvent (event : TcpProxyEvent).

Record TcpProxyBridge := mkProxy {
  connector : K;
  sessions : gmap SocketHandle UpstreamSession;
  pending_connects : gset SocketHandle;
  tls_server_config : option ServerConfig;
  tls_client_config : option ClientConfig;
  buffer_limits : TcpProxyBufferLimits
}.

Definition proxy_new (connector : K) : TcpProxyBridge :=
  mkProxy connector ∅ ∅ None None limits_default.

(** [rustls_server_config] of the authority is a parameter. *)
Definition with_tls_mitm_and_client_config (connector : K)
  (rustls_server_config : result ServerConfig TlsMitmError) (client_config : ClientConfig)
  : result TcpProxyBridge TlsMitmError :=
  let? server_config := rustls_server_config in
  Ok (mkProxy connector ∅ ∅ (Some server_config) (Some client_config) limits_default).

Definition with_sessions (b : TcpProxyBridge) (ss : gmap SocketHandle UpstreamSession)
  : TcpProxyBridge :=
  mkProxy (connector b) ss (pending_connects b) (tls_server_config b) (tls_client_config b)
    (buffer_limits b).
Definition with_pending (b : TcpProxyBridge) (pending : gset SocketHandle) : TcpProxyBridge :=
  mkProxy (connector b) (sessions b) pending (tls_server_config b) (tls_client_config b)
    (buffer_limits b).
Definition with_connector (b : TcpProxyBridge) (k : K) : TcpProxyBridge :=
  mkProxy k (sessions b) (pending_connects b) (tls_server_config b) (tls_client_config b)
    (buffer_limits b).

(** ** Connecting *)

Definition destination_from_session (session : GuestTcpSession) : option TcpDestination :=
  let ip := ep_addr (session_local session) in
  Some (mkDest ip (ep_port (session_local session)) None).

Definition plan_connect (b : TcpProxyBridge) (handle : SocketHandle) (destination : TcpDestination)
  (policy : Policy.VmnetPolicy) : TcpProxyConnectPlan :=
  let decision := evaluate_tcp_destination policy destination in
  if bool_decide (action decision = TcpDeny)
  then PlanEvent (Denied handle destination decision)
  else if bool_decide (action decision = InterceptHttps) then
    match tls_server_config b with
    | None => PlanEvent (TlsMitmUnavailable handle destination)
    | Some config =>
        match GuestTlsSession_new config with
        | Ok session => PlanPending (mkPending handle destination decision (Some session))
        | Err error => PlanEvent (TlsMitmFailed handle error [])
        end
    end
  else PlanPending (mkPending handle destination decision None).

Definition complete_connect (b : TcpProxyBridge) (g : VmnetGateway)
  (pending : TcpProxyPendingConnect) (r : result C TcpConnectError) (now : Z)
  (events : list TcpProxyEvent)
  : exec (result unit TcpConnectError * TcpProxyBridge * VmnetGateway * list TcpProxyEvent) :=
  let handle := pending_handle pending in
  let b := with_pending b (pending_connects b ∖ {[handle]}) in
  match r with
  | Ok connection =>
      let session :=
        mkUpstream (pending_destination pending) (pending_decision pending) connection []
          (pending_guest_tls pending) None false [] [] [] (buffer_limits b) in
      Ret (Ok tt, with_sessions b (<[handle := session]> (sessions b)), g,
           events ++ [Connected handle (pending_destination pending) (pending_decision pending)])
  | Err error =>
      let! (guest_frames, g) := close_tcp_session g handle now in
      Ret (Err error, b, g,
           events ++ [ConnectFailed handle (pending_destination pending) error guest_frames])
  end.

(** The loop of [plan_connects_for_service]. *)
Fixpoint plan_connects (b : TcpProxyBridge) (policy : Policy.VmnetPolicy)
  (active : list GuestTcpSessionRef) : list TcpProxyConnectPlan :=
  match active with
  | [] => []
  | a :: rest =>
      let handle := ref_handle a in
      if negb (bool_decide (session_state (ref_session a) = State.Established))
      then plan_connects b policy rest
      else if bool_decide (is_Some (sessions b !! handle)) || bool_decide (handle ∈ pending_connects b)
      then plan_connects b policy rest
      else
        match destination_from_session (ref_session a) with
        | None => plan_connects b policy rest
        | Some destination =>
            plan_connect b handle destination policy :: plan_connects b policy rest
        end
  end.

Definition plan_connects_for_service (b : TcpProxyBridge) (g : VmnetGateway)
  : exec (list TcpProxyConnectPlan) :=
  let! active := active_tcp_sessions g in Ret (plan_connects b (policy g) active).

Definition session_handles (b : TcpProxyBridge) : gset SocketHandle := dom (sessions b).

Definition mark_connect_pending (b : TcpProxyBridge) (handle : SocketHandle) : TcpProxyBridge :=
  with_pending b (pending_connects b ∪ {[handle]}).

Definition session_interest (b : TcpProxyBridge) (handle : SocketHandle)
  : option UpstreamSessionInterest :=
  match sessions b !! handle with
  | None => None
  | Some s =>
      Some (mkUpstreamInterest (bool_decide (pending_guest_bytes s = []))
        (negb (bool_decide (pending_upstream_bytes s = [])) ||
         negb (bool_decide (pending_upstream_plaintext s = [])) ||
         match upstream_tls s with Some u => upstream_wants_write u | None => false end))
  end.

(** ** One session

    The session, the gateway and the events, as the functions of the source pass
    them on by mutable reference. *)

Record pump := mkPump {
  p_session : UpstreamSession; p_gateway : VmnetGateway; p_events : list TcpProxyEvent }.

Definition set_connection (s : UpstreamSession) (c : C) : UpstreamSession :=
  mkUpstream (destination s) (decision s) c (http_buffer s) (guest_tls s) (upstream_tls s)
    (upstream_tls_ready s) (pending_upstream_bytes s) (pending_upstream_plaintext s)
    (pending_guest_bytes s) (session_limits s).
Definition set_http_buffer (s : UpstreamSession) (bs : list byte) : UpstreamSession :=
  mkUpstream (destination s) (decision s) (connection s) bs (guest_tls s) (upstream_tls s)
    (upstream_tls_ready s) (pending_upstream_bytes s) (pending_upstream_plaintext s)
    (pending_guest_bytes s) (session_limits s).
Definition set_guest_tls (s : UpstreamSession) (t : GuestTlsSession) : UpstreamSession :=
  mkUpstream (destination s) (decision s) (connection s) (http_buffer s) (Some t) (upstream_tls s)
    (upstream_tls_ready s) (pending_upstream_bytes s) (pending_upstream_plaintext s)
    (pending_guest_bytes s) (session_limits s).
Definition set_upstream_tls (s : UpstreamSession) (t : TlsUpstreamSession) : UpstreamSession :=
  mkUpstream (destination s) (decision s) (connection s) (http_buffer s) (guest_tls s) (Some t)
    (upstream_tls_ready s) (pending_upstream_bytes s) (pending_upstream_plaintext s)
    (pending_guest_bytes s) (session_limits s).
Definition set_ready (s : UpstreamSession) (ready : bool) : UpstreamSession :=
  mkUpstream (destination s) (decision s) (connection s) (http_buffer s) (guest_tls s)
    (upstream_tls s) ready (pending_upstream_bytes s) (pending_upstream_plaintext s)
    (pending_guest_bytes s) (session_limits s).
Definition set_pending_upstream (s : UpstreamSession) (bs : list byte) : UpstreamSession :=
  mkUpstream (destination s) (decision s) (connection s) (http_buffer s) (guest_tls s)
    (upstream_tls s) (upstream_tls_ready s) bs (pending_upstream_plaintext s)
    (pending_guest_bytes s) (session_limits s).
Definition set_pending_plaintext (s : UpstreamSession) (bs : list byte) : UpstreamSession :=
  mkUpstream (destination s) (decision s) (connection s) (http_buffer s) (guest_tls s)
    (upstream_tls s) (upstream_tls_ready s) (pending_upstream_bytes s) bs
    (pending_guest_bytes s) (session_limits s).
Definition set_pending_guest (s : UpstreamSession) (bs : list byte) : UpstreamSession :=
  mkUpstream (destination s) (decision s) (connection s) (http_buffer s) (guest_tls s)
    (upstream_tls s) (upstream_tls_ready s) (pending_upstream_bytes s)
    (pending_upstream_plaintext s) bs (session_limits s).

Definition with_session (p : pump) (s : UpstreamSession) : pump :=
  mkPump s (p_gateway p) (p_events p).
Definition with_gateway (p : pump) (g : VmnetGateway) : pump :=
  mkPump (p_session p) g (p_events p).
Definition push (p : pump) (event : TcpProxyEvent) : pump :=
  mkPump (p_session p) (p_gateway p) (p_events p ++ [event]).

Definition tls_mitm_failed_event (handle : SocketHandle) (g : VmnetGateway) (now : Z)
  (error : TlsMitmError) : exec (TcpProxyEvent * VmnetGateway) :=
  let! (guest_frames, g) := close_tcp_session g handle now in
  Ret (TlsMitmFailed handle error guest_frames, g).

(** [events.push(tls_mitm_failed_event(..))]. *)
Definition push_tls_failed (p : pump) (handle : SocketHandle) (now : Z) (error : TlsMitmError)
  : exec pump :=
  let! (event, g) := tls_mitm_failed_event handle (p_gateway p) now error in
  Ret (push (with_gateway p g) event).

Definition push_buffer_limit_exceeded (p : pump) (handle : SocketHandle) (now : Z)
  (buffer : TcpProxyBufferKind) (limit attempted : Z) : exec pump :=
  let! (guest_frames, g) := close_tcp_session (p_gateway p) handle now in
  Ret (push (with_gateway p g) (BufferLimitExceeded handle buffer limit attempted guest_frames)).

Definition buffer_pending_upstream_bytes (p : pump) (handle : SocketHandle) (now : Z)
  (bytes : list byte) : exec (bool * pump) :=
  let s := p_session p in
  match StreamBuffer.extend_pending_buffer (pending_upstream_bytes s) bytes
          (limit_upstream_bytes (session_limits s)) with
  | (Err e, _) =>
      let! p := push_buffer_limit_exceeded p handle now PendingUpstreamBytes
                  (StreamBuffer.limit e) (StreamBuffer.attempted e) in
      Ret (false, p)
  | (Ok _, pending) => Ret (true, with_session p (set_pending_upstream s pending))
  end.

Definition write_pending_upstream_bytes_best_effort (p : pump) (handle : SocketHandle) (now : Z)
  (bytes : list byte) : exec (option Z * pump) :=
  let s := p_session p in
  let limit := limit_upstream_bytes (session_limits s) in
  let attempted := len (pending_upstream_bytes s) + len bytes in
  if attempted >? limit then
    let! p := push_buffer_limit_exceeded p handle now PendingUpstreamBytes limit attempted in
    Ret (None, p)
  else
    let! (r, c, pending) :=
      StreamBuffer.append_and_write_pending_best_effort (connection s)
        (pending_upstream_bytes s) bytes in
    let p := with_session p (set_pending_upstream (set_connection s c) pending) in
    match r with
    | Ok bytes => Ret (Some bytes, p)
    | Err error => Ret (None, push p (UpstreamWriteFailed handle error))
    end.

Definition buffer_pending_upstream_plaintext (p : pump) (handle : SocketHandle) (now : Z)
  (bytes : list byte) : exec (bool * pump) :=
  let s := p_session p in
  match StreamBuffer.extend_pending_buffer (pending_upstream_plaintext s) bytes
          (limit_upstream_plaintext (session_limits s)) with
  | (Err e, _) =>
      let! p := push_buffer_limit_exceeded p handle now PendingUpstreamPlaintext
                  (StreamBuffer.limit e) (StreamBuffer.attempted e) in
      Ret (false, p)
  | (Ok _, pending) => Ret (true, with_session p (set_pending_plaintext s pending))
  end.

Definition push_guest_send_event (p : pump) (event : GuestSendEvent) (handle : SocketHandle)
  (bytes : Z) (guest_frames : frames) : pump :=
  match event with
  | SendUpstreamPayload => push p (UpstreamPayload handle bytes guest_frames)
  | SendTlsHandshakePayload => push p (TlsHandshakePayload handle bytes guest_frames)
  end.

Definition flush_pending_guest_bytes (p : pump) (handle : SocketHandle) (now : Z)
  (event : GuestSendEvent) : exec pump :=
  let s := p_session p in
  if bool_decide (pending_guest_bytes s = []) then Ret p
  else
    let! (r, g) := send_tcp_session_partial (p_gateway p) handle (pending_guest_bytes s) now in
    let p := with_gateway p g in
    match r with
    | Ok (bytes, guest_frames) =>
        if bytes >? 0 then
          if bytes <=? len (pending_guest_bytes s) then
            Ret (push_guest_send_event
                   (with_session p (set_pending_guest s (zdrop bytes (pending_guest_bytes s))))
                   event handle bytes guest_frames)
          else Panic
        else Ret p
    | Err error => Ret (push p (GuestWriteFailed handle error))
    end.

Definition queue_pending_guest_bytes (p : pump) (handle : SocketHandle) (now : Z)
  (bytes : list byte) : exec (bool * pump) :=
  let s := p_session p in
  match StreamBuffer.extend_pending_buffer (pending_guest_bytes s) bytes
          (limit_guest_bytes (session_limits s)) with
  | (Err e, _) =>
      let! p := push_buffer_limit_exceeded p handle now PendingGuestBytes
                  (StreamBuffer.limit e) (StreamBuffer.attempted e) in
      Ret (false, p)
  | (Ok _, pending) => Ret (true, with_session p (set_pending_guest s pending))
  end.

Definition send_guest_buffered (p : pump) (handle : SocketHandle) (now : Z) (bytes : list byte)
  (event : GuestSendEvent) : exec pump :=
  let! p := flush_pending_guest_bytes p handle now event in
  if bool_decide (pending_guest_bytes (p_session p) = []) then
    let! (r, g) := send_tcp_session_partial (p_gateway p) handle bytes now in
    let p := with_gateway p g in
    match r with
    | Ok (written, guest_frames) =>
        let p := if written >? 0
                 then push_guest_send_event p event handle written guest_frames else p in
        if written =? len bytes then Ret p
        else
          let! rest := slice bytes written (len bytes) in
          let! (_, p) := queue_pending_guest_bytes p handle now rest in Ret p
    | Err error =>
        let! (_, p) := queue_pending_guest_bytes (push p (GuestWriteFailed handle error))
                         handle now bytes in Ret p
    end
  else
    let! (_, p) := queue_pending_guest_bytes p handle now bytes in Ret p.

(** [events.push(TlsUpstreamPayload { .. })] when bytes were written. *)
Definition push_tls_upstream (p : pump) (handle : SocketHandle) (bytes : Z) : pump :=
  if bytes >? 0 then push p (TlsUpstreamPayload handle bytes) else p.

(** Writes TLS bytes to the upstream connection now, or keeps them for later;
    [false] when the session cannot go on. *)
Definition write_or_buffer_tls (p : pump) (handle : SocketHandle) (now : Z)
  (upstream_writable : bool) (tls_bytes : list byte) : exec (bool * pump) :=
  if bool_decide (tls_bytes = []) then Ret (true, p)
  else if upstream_writable then
    let! (written, p) := write_pending_upstream_bytes_best_effort p handle now tls_bytes in
    match written with
    | None => Ret (false, p)
    | Some bytes => Ret (true, push_tls_upstream p handle bytes)
    end
  else buffer_pending_upstream_bytes p handle now tls_bytes.

Definition ensure_https_upstream_tls (client_config : option ClientConfig) (p : pump)
  (handle : SocketHandle) (now : Z) (upstream_writable : bool) : exec (bool * pump) :=
  let s := p_session p in
  match upstream_tls s with
  | Some _ => Ret (true, p)
  | None =>
      match guest_tls s with
      | None => Ret (false, push p (TlsMitmUnavailable handle (destination s)))
      | Some guest_tls =>
          match server_name guest_tls with
          | None =>
              if negb (guest_is_handshaking guest_tls) then
                let! p := push_tls_failed p handle now
                            (InvalidHost "guest TLS connection did not provide SNI") in
                Ret (false, p)
              else Ret (false, p)
          | Some server_name =>
              match client_config with
              | None => Ret (false, push p (TlsMitmUnavailable handle (destination s)))
              | Some config =>
                  match TlsUpstreamSession_new config server_name with
                  | Err error => let! p := push_tls_failed p handle now error in Ret (false, p)
                  | Ok upstream_tls =>
                      let! (r, upstream_tls) := drain_tls_to_upstream upstream_tls in
                      match r with
                      | Err error => let! p := push_tls_failed p handle now error in Ret (false, p)
                      | Ok client_hello =>
                          let! (go_on, p) :=
                            write_or_buffer_tls p handle now upstream_writable client_hello in
                          if go_on
                          then Ret (true, with_session p (set_upstream_tls (p_session p) upstream_tls))
                          else Ret (false, p)
                      end
                  end
              end
          end
      end
  end.

Definition write_https_plaintext_upstream (p : pump) (handle : SocketHandle) (now : Z)
  (plaintext : list byte) : exec pump :=
  let s := p_session p in
  match upstream_tls s with
  | None =>
      let! (_, p) := buffer_pending_upstream_plaintext p handle now plaintext in Ret p
  | Some upstream_tls =>
      let! (r, upstream_tls) := write_upstream_plaintext upstream_tls plaintext in
      let p := with_session p (set_upstream_tls s upstream_tls) in
      match r with
      | Err error => push_tls_failed p handle now error
      | Ok tls_bytes =>
          let! (written, p) := write_pending_upstream_bytes_best_effort p handle now tls_bytes in
          match written with
          | Some bytes =>
              Ret (push_tls_upstream (push p (GuestPayload handle (len plaintext))) handle bytes)
          | None => Ret p
          end
      end
  end.

Definition flush_pending_https_plaintext (p : pump) (handle : SocketHandle) (now : Z) : exec pump :=
  let s := p_session p in
  if bool_decide (pending_upstream_plaintext s = []) then Ret p
  else if negb (upstream_tls_ready s) then Ret p
  else
    write_https_plaintext_upstream (with_session p (set_pending_plaintext s [])) handle now
      (pending_upstream_plaintext s).

Definition drain_upstream_tls_writes (p : pump) (handle : SocketHandle) (now : Z) : exec pump :=
  let s := p_session p in
  if negb (bool_decide (action (decision s) = InterceptHttps)) then Ret p
  else
    match upstream_tls s with
    | None => Ret p
    | Some upstream_tls =>
        let! (r, upstream_tls) := drain_tls_to_upstream upstream_tls in
        let p := with_session p (set_upstream_tls s upstream_tls) in
        match r with
        | Err error => push_tls_failed p handle now error
        | Ok tls_bytes =>
            if bool_decide (tls_bytes = []) then Ret p
            else
              let! (written, p) := write_pending_upstream_bytes_best_effort p handle now tls_bytes in
              match written with
              | Some bytes => Ret (push_tls_upstream p handle bytes)
              | None => Ret p
              end
        end
    end.

Definition flush_pending_upstream_bytes (p : pump) (handle : SocketHandle) (now : Z) : exec pump :=
  let s := p_session p in
  if bool_decide (pending_upstream_bytes s = []) then Ret p
  else
    let! (r, c, pending) :=
      StreamBuffer.write_pending_best_effort (connection s) (pending_upstream_bytes s) usize_max in
    let p := with_session p (set_pending_upstream (set_connection s c) pending) in
    let https := bool_decide (action (decision s) = InterceptHttps) in
    let p :=
      match r with
      | Ok bytes =>
          if bytes >? 0
          then push p (if https then TlsUpstreamPayload handle bytes else GuestPayload handle bytes)
          else p
      | Err error => push p (UpstreamWriteFailed handle error)
      end in
    if https && bool_decide (pending = []) &&
       match upstream_tls s with Some u => negb (upstream_is_handshaking u) | None => false end
    then
      flush_pending_https_plaintext (with_session p (set_ready (p_session p) true)) handle now
    else Ret p.

Definition record_http_request (p : pump) (handle : SocketHandle) (now : Z) (payload : list byte)
  : exec (bool * pump) :=
  let s := p_session p in
  let limit := limit_http_request_bytes (session_limits s) in
  if bool_decide (payload = []) then Ret (true, p)
  else
    let attempted := len (http_buffer s) + len payload in
    if attempted >? limit then
      let! p := push_buffer_limit_exceeded p handle now HttpRequestBytes limit attempted in
      Ret (false, p)
    else
      let buffer := http_buffer s ++ payload in
      let p := with_session p (set_http_buffer s buffer) in
      Ret (true,
           match parse_http_request buffer with
           | Ok (Some summary) => push p (HttpRequest handle (destination s) summary)
           | Ok None => push p (HttpRequestIncomplete handle)
           | Err Malformed => push p (HttpRequestMalformed handle)
           end).

(** The end of [process_guest_payload], with the payload of the request. *)
Definition forward_payload (p : pump) (handle : SocketHandle) (now : Z) (upstream_writable : bool)
  (payload : list byte) : exec pump :=
  let s := p_session p in
  let act := action (decision s) in
  let! (go_on, p) :=
    if bool_decide (act = InterceptHttp) || bool_decide (act = InterceptHttps)
    then record_http_request p handle now payload else Ret (true, p) in
  if negb go_on then Ret p
  else if bool_decide (payload = []) then Ret p
  else if bool_decide (act = InterceptHttps) then
    if upstream_tls_ready (p_session p) && upstream_writable
    then write_https_plaintext_upstream p handle now payload
    else
      let! (_, p) := buffer_pending_upstream_plaintext p handle now payload in Ret p
  else if upstream_writable then
    let! (written, p) := write_pending_upstream_bytes_best_effort p handle now payload in
    Ret match written with Some bytes => push p (GuestPayload handle bytes) | None => p end
  else
    let! (_, p) := buffer_pending_upstream_bytes p handle now payload in Ret p.

(** On the session of [handle], which the caller has looked up. *)
Definition process_guest_payload (client_config : option ClientConfig) (p : pump)
  (handle : SocketHandle) (guest_bytes : list byte) (now : Z) (upstream_writable : bool)
  : exec pump :=
  let s := p_session p in
  if bool_decide (action (decision s) = InterceptHttps) then
    match guest_tls s with
    | None => Ret (push p (TlsMitmUnavailable handle (destination s)))
    | Some guest_tls =>
        let! (r, guest_tls) := read_guest_tls guest_tls guest_bytes in
        let p := with_session p (set_guest_tls s guest_tls) in
        match r with
        | Err error => push_tls_failed p handle now error
        | Ok read =>
            let! p :=
              if bool_decide (tls_to_guest read = []) then Ret p
              else send_guest_buffered p handle now (tls_to_guest read) SendTlsHandshakePayload in
            let! (go_on, p) := ensure_https_upstream_tls client_config p handle now upstream_writable in
            if go_on then forward_payload p handle now upstream_writable (guest_plaintext read)
            else Ret p
        end
    end
  else forward_payload p handle now upstream_writable guest_bytes.

Inductive UpstreamRead :=
| Data (bytes : list byte)
| UpstreamWouldBlock
| UpstreamClosed
| UpstreamFailed.

(** The rounds of [read_available] each read at least a byte, so [max_bytes]
    bounds them. *)
Fixpoint read_available_loop (fuel : nat) (c : C) (events : list TcpProxyEvent)
  (handle : SocketHandle) (max_bytes : Z) (collected : list byte)
  : exec (UpstreamRead * C * list TcpProxyEvent) :=
  match fuel with
  | O => Panic
  | S fuel =>
      if len collected <? max_bytes then
        let remaining := max_bytes - len collected in
        match read c (Z.min remaining (64 * 1024)) with
        | (Ok [], c) =>
            Ret (if bool_decide (collected = []) then UpstreamClosed else Data collected, c, events)
        | (Ok bs, c) => read_available_loop fuel c events handle max_bytes (collected ++ bs)
        | (Err error, c) =>
            if bool_decide (error_kind error = WouldBlock) then
              Ret (if bool_decide (collected = []) then UpstreamWouldBlock else Data collected,
                   c, events)
            else
              Ret (if bool_decide (collected = []) then UpstreamFailed else Data collected,
                   c, events ++ [UpstreamReadFailed handle error])
        end
      else Ret (Data collected, c, events)
  end.

Definition read_available (c : C) (events : list TcpProxyEvent) (handle : SocketHandle)
  (max_bytes : Z) : exec (UpstreamRead * C * list TcpProxyEvent) :=
  let max_bytes := Z.max max_bytes 1 in
  read_available_loop (S (Z.to_nat max_bytes)) c events handle max_bytes [].

(** What was read from upstream, on to the guest. *)
Definition relay_upstream (p : pump) (handle : SocketHandle) (now : Z) (upstream_writable : bool)
  (upstream_bytes : list byte) : exec pump :=
  let s := p_session p in
  if bool_decide (action (decision s) = InterceptHttps) then
    match upstream_tls s with
    | None => push_tls_failed p handle now (Tls "upstream TLS is not initialized")
    | Some upstream_tls =>
        let! (r, upstream_tls) := read_upstream_tls upstream_tls upstream_bytes in
        let p := with_session p (set_upstream_tls s upstream_tls) in
        match r with
        | Err error => push_tls_failed p handle now error
        | Ok upstream_read =>
            let! (go_on, p) :=
              write_or_buffer_tls p handle now upstream_writable (tls_to_upstream upstream_read) in
            if negb go_on then Ret p
            else
              let p :=
                if upstream_tls_ready (p_session p) then p
                else with_session p (set_ready (p_session p) (negb (upstream_is_handshaking upstream_tls))) in
              let! p :=
                if upstream_writable then
                  let! p := flush_pending_https_plaintext p handle now in
                  drain_upstream_tls_writes p handle now
                else Ret p in
              if bool_decide (upstream_plaintext upstream_read = []) then Ret p
              else
                match guest_tls (p_session p) with
                | None => Ret (push p (TlsMitmUnavailable handle (destination (p_session p))))
                | Some guest_tls =>
                    let! (r, guest_tls) :=
                      write_guest_plaintext guest_tls (upstream_plaintext upstream_read) in
                    let p := with_session p (set_guest_tls (p_session p) guest_tls) in
                    match r with
                    | Err error => push_tls_failed p handle now error
                    | Ok bytes => send_guest_buffered p handle now bytes SendUpstreamPayload
                    end
                end
        end
    end
  else send_guest_buffered p handle now upstream_bytes SendUpstreamPayload.

(** The loop body of [process_gateway_with_readiness] once the session exists;
    [true] when the session is removed. *)
Definition serve_session (client_config : option ClientConfig) (readiness : TcpProxyReadiness)
  (p : pump) (handle : SocketHandle) (now : Z) : exec (bool * pump) :=
  let! p := flush_pending_guest_bytes p handle now SendUpstreamPayload in
  if negb (bool_decide (pending_guest_bytes (p_session p) = [])) then Ret (false, p)
  else
    let! (r, g) := recv_tcp_session (p_gateway p) handle in
    let p := with_gateway p g in
    match r with
    | Err error => Ret (false, push p (GuestReadFailed handle error))
    | Ok guest_bytes =>
        let! p :=
          if bool_decide (guest_bytes = []) then Ret p
          else process_guest_payload client_config p handle guest_bytes now
                 (writable readiness handle) in
        let! p := flush_pending_guest_bytes p handle now SendUpstreamPayload in
        if negb (bool_decide (pending_guest_bytes (p_session p) = [])) then Ret (false, p)
        else
          let! p :=
            if writable readiness handle then
              let! p := flush_pending_https_plaintext p handle now in
              let! p := drain_upstream_tls_writes p handle now in
              flush_pending_upstream_bytes p handle now
            else Ret p in
          if readable readiness handle then
            let s := p_session p in
            let! (r, c, events) :=
              read_available (connection s) (p_events p) handle
                (limit_guest_bytes (session_limits s)) in
            let p := mkPump (set_connection s c) (p_gateway p) events in
            match r with
            | Data bytes =>
                let! p := relay_upstream p handle now (writable readiness handle) bytes in
                Ret (false, p)
            | UpstreamWouldBlock => Ret (false, p)
            | UpstreamClosed | UpstreamFailed =>
                let! (_, g) := close_tcp_session (p_gateway p) handle now in
                Ret (true, with_gateway p g)
            end
          else Ret (false, p)
    end.

(** ** A pass over the sessions of the gateway *)

(** The loop body from the lookup of the session on. *)
Definition visit_session (readiness : TcpProxyReadiness) (b : TcpProxyBridge) (g : VmnetGateway)
  (events : list TcpProxyEvent) (handle : SocketHandle) (now : Z)
  : exec (TcpProxyBridge * VmnetGateway * list TcpProxyEvent) :=
  match sessions b !! handle with
  | None => Ret (b, g, events)
  | Some s =>
      let! (removed, p) :=
        serve_session (tls_client_config b) readiness (mkPump s g events) handle now in
      Ret (with_sessions b (if removed : bool then delete handle (sessions b)
                            else <[handle := p_session p]> (sessions b)),
           p_gateway p, p_events p)
  end.

Definition process_active (readiness : TcpProxyReadiness) (b : TcpProxyBridge) (g : VmnetGateway)
  (events : list TcpProxyEvent) (active : GuestTcpSessionRef) (now : Z)
  : exec (TcpProxyBridge * VmnetGateway * list TcpProxyEvent) :=
  let handle := ref_handle active in
  if negb (bool_decide (session_state (ref_session active) = State.Established))
  then Ret (b, g, events)
  else
    match destination_from_session (ref_session active) with
    | None => Ret (b, g, events)
    | Some destination =>
        match sessions b !! handle with
        | Some _ => visit_session readiness b g events handle now
        | None =>
            if bool_decide (handle ∈ pending_connects b) then Ret (b, g, events)
            else
              match plan_connect b handle destination (policy g) with
              | PlanEvent event => Ret (b, g, events ++ [event])
              | PlanPending pending =>
                  let '(r, k) := connect (connector b) (pending_destination pending) in
                  let! (done, b, g, events) :=
                    complete_connect (with_connector b k) g pending r now events in
                  match done with
                  | Err _ => Ret (b, g, events)
                  | Ok _ => visit_session readiness b g events handle now
                  end
              end
        end
    end.

Fixpoint process_all (readiness : TcpProxyReadiness) (active : list GuestTcpSessionRef) (now : Z)
  (b : TcpProxyBridge) (g : VmnetGateway) (events : list TcpProxyEvent)
  : exec (TcpProxyBridge * VmnetGateway * list TcpProxyEvent) :=
  match active with
  | [] => Ret (b, g, events)
  | a :: rest =>
      let! (b, g, events) := process_active readiness b g events a now in
      process_all readiness rest now b g events
  end.

(** The handles of the established sessions, [active_handles] of the source. *)
Definition established (active : list GuestTcpSessionRef) : gset SocketHandle :=
  list_to_set (map ref_handle
    (filter (fun a => session_state (ref_session a) = State.Established) active)).

Definition process_gateway_with_readiness (b : TcpProxyBridge) (g : VmnetGateway) (now : Z)
  (readiness : TcpProxyReadiness)
  : exec (list TcpProxyEvent * TcpProxyBridge * VmnetGateway) :=
  let! active := active_tcp_sessions g in
  let active_handles := established active in
  let b := with_pending b (pending_connects b ∩ active_handles) in
  let! (b, g, events) := process_all readiness active now b g [] in
  Ret (events,
       with_sessions b (filter (fun hs => hs.1 ∈ active_handles) (sessions b)), g).

Definition process_gateway (b : TcpProxyBridge) (g : VmnetGateway) (now : Z)
  : exec (list TcpProxyEvent * TcpProxyBridge * VmnetGateway) :=
  process_gateway_with_readiness b g now readiness_all.

End Proxy.

(** ** Facts *)

Section Facts.
Context `{SmolStack} `{!SmolStackLaws} `{SmolWire} `{!SmolWireLaws} `{Ipv4NetOps}.
Context `{Rustls} `{!RustlsLaws} `{HttpParser} `{Dns.HickoryOps} {W : Type}.
Context (exchange : W -> Dns.Message -> result Dns.Message Dns.DnsUpstreamError * W).
Context {K C : Type} `{TcpUpstreamConnector K C} `{Read C} `{Write C}.
Context (received sent : C -> list byte) `{!DuplexLaws C received sent}.
Local Notation VmnetGateway := (VmnetGateway (W := W)).
Local Notation UpstreamSession := (UpstreamSession (C := C)).
Local Notation TcpProxyBridge := (TcpProxyBridge (K := K) (C := C)).
Local Notation pump := (pump (W := W) (C := C)).
Implicit Types g : VmnetGateway.
Implicit Types s : UpstreamSession.
Implicit Types p : pump.

(** What has passed the two TLS connections of an intercepted session. *)
Definition guest_view {A} (f : ServerConnection -> list A) s : list A :=
  match guest_tls s with Some t => f (server t) | None => [] end.
Definition upstream_view {A} (f : ClientConnection -> list A) s : list A :=
  match upstream_tls s with Some t => f (client t) | None => [] end.

(** Bytes a function holds in a variable, on their way to a buffer: to the guest,
    to the upstream connection, to the upstream TLS connection and from it. *)
Record hands := mkHands {
  for_guest : list byte; for_upstream : list byte;
  for_plaintext : list byte; from_plaintext : list byte }.
Definition empty_handed : hands := mkHands [] [] [] [].

(** The traffic of a session since a moment of reference, at which the streams
    had carried [base_*]: [to_guest] was given to the TCP socket and [from_guest]
    taken from it, [from_host] was read from the upstream connection and
    [to_host] written to it.

    A session that is not intercepted as HTTPS passes on exactly what it reads.
    An intercepted one sends nothing but the output of its two TLS connections,
    passes on what upstream sent, decrypted, in order, and loses nothing of what
    the guest sent. *)
Record base := mkBase {
  base_enqueued : list byte; base_delivered : list byte;
  base_received : list byte; base_sent : list byte }.

Definition https s : Prop := action (decision s) = InterceptHttps.

Definition ledger (hd : hands) s (to_guest from_guest from_host to_host : list byte) : Prop :=
  if decide (https s) then
    guest_view tls_out s = to_guest ++ pending_guest_bytes s ++ for_guest hd /\
    upstream_view tls_out s = to_host ++ pending_upstream_bytes s ++ for_upstream hd /\
    guest_view read_out s ≡ₚ
      upstream_view plain_in s ++ pending_upstream_plaintext s ++ for_plaintext hd /\
    upstream_view read_out s = guest_view plain_in s ++ from_plaintext hd
  else
    from_host = to_guest ++ pending_guest_bytes s ++ for_guest hd /\
    from_guest = to_host ++ pending_upstream_bytes s ++ for_upstream hd.

Definition flow_since (b0 : base) (hd : hands) g (h : SocketHandle) s : Prop :=
  exists to_guest from_guest from_host to_host,
    streams (tcp_core g) h =
      Some (base_enqueued b0 ++ to_guest, base_delivered b0 ++ from_guest) /\
    received (connection s) = base_received b0 ++ from_host /\
    sent (connection s) = base_sent b0 ++ to_host /\
    ledger hd s to_guest from_guest from_host to_host.

(** Without a moment of reference nothing is said about the bytes. *)
Definition flow (b0 : option base) (hd : hands) g (h : SocketHandle) s : Prop :=
  match b0 with Some b0 => flow_since b0 hd g h s | None => True end.

(** The events that announce that a session has failed. *)
Definition fails (h : SocketHandle) (e : TcpProxyEvent) : Prop :=
  match e with
  | TlsMitmUnavailable h' _ | TlsMitmFailed h' _ _ | BufferLimitExceeded h' _ _ _ _
  | UpstreamWriteFailed h' _ => h' = h
  | _ => False
  end.
Definition failed (h : SocketHandle) (events : list TcpProxyEvent) : Prop :=
  exists e, e ∈ events /\ fails h e.

Definition limits_ok (l : TcpProxyBufferLimits) : Prop :=
  0 <= limit_upstream_bytes l < usize_max /\ 0 <= limit_upstream_plaintext l < usize_max /\
  0 <= limit_guest_bytes l < usize_max /\ 0 <= limit_http_request_bytes l.

(** The buffers are within their limits and the TLS connections are those the
    decision asks for. *)
Record shaped s : Prop := {
  sh_limits : limits_ok (session_limits s);
  sh_upstream : len (pending_upstream_bytes s) <= limit_upstream_bytes (session_limits s);
  sh_plaintext : len (pending_upstream_plaintext s) <= limit_upstream_plaintext (session_limits s);
  sh_guest : len (pending_guest_bytes s) <= limit_guest_bytes (session_limits s);
  sh_http : len (http_buffer s) <= limit_http_request_bytes (session_limits s);
  sh_guest_tls : is_Some (guest_tls s) <-> https s;
  sh_upstream_tls : is_Some (upstream_tls s) -> https s
}.

Record alive (h : SocketHandle) p : Prop := {
  al_wf : gateway_wf (p_gateway p);
  al_handle : h ∈ handles (tcp_core (p_gateway p));
  al_shaped : shaped (p_session p)
}.

Definition good (b0 : option base) (hd : hands) (h : SocketHandle) p : Prop :=
  alive h p /\ (failed h (p_events p) \/ flow b0 hd (p_gateway p) h (p_session p)).

Definition same_terms s s' : Prop :=
  destination s' = destination s /\ decision s' = decision s /\
  session_limits s' = session_limits s.

(** What a step for the session of [h] may change. *)
Record moved (h : SocketHandle) p p' : Prop := {
  mv_setup : same_setup (p_gateway p) (p_gateway p');
  mv_handles : handles (tcp_core (p_gateway p')) = handles (tcp_core (p_gateway p));
  mv_slots : host_connections (tcp_core (p_gateway p')) = host_connections (tcp_core (p_gateway p));
  mv_streams h' : h' <> h ->
    streams (tcp_core (p_gateway p')) h' = streams (tcp_core (p_gateway p)) h';
  mv_terms : same_terms (p_session p) (p_session p');
  mv_events : p_events p `prefix_of` p_events p'
}.

#[local] Instance moved_refl h : Reflexive (moved h).
Proof. by intros p. Qed.

#[local] Instance moved_trans h : Transitive (moved h).
Proof.
  intros p1 p2 p3 [(Hp1 & Hl1 & Hd1) Hh1 Hc1 Hs1 (Ht1 & Ht2 & Ht3) He1]
    [(Hp2 & Hl2 & Hd2) Hh2 Hc2 Hs2 (Hu1 & Hu2 & Hu3) He2].
  split; [split_and!; congruence|congruence|congruence| |split_and!; congruence|by etrans].
  intros h' Hne. by rewrite Hs2, Hs1.
Qed.

Definition post (b0 : option base) (hd : hands) (h : SocketHandle) p p' : Prop :=
  good b0 hd h p' /\ moved h p p'.

Lemma failed_prefix h es es' : es `prefix_of` es' -> failed h es -> failed h es'.
Proof. intros [more ->] (e & He & ?). exists e. set_solver. Qed.

Lemma post_after b0 hd h p p1 p2 : moved h p p1 -> post b0 hd h p1 p2 -> post b0 hd h p p2.
Proof. intros Hm [Hg Hm']. split; [done|by etrans]. Qed.

Lemma post_bind b0 hd1 hd2 h p m (k : pump -> exec pump) :
  holds m (post b0 hd1 h p) -> (forall p1, good b0 hd1 h p1 -> holds (k p1) (post b0 hd2 h p1)) ->
  holds (let! p1 := m in k p1) (post b0 hd2 h p).
Proof.
  intros Hm Hk. apply holds_bind. eapply holds_mono; [exact Hm|]. intros p1 [Hg Hmv].
  eapply holds_mono; [by apply Hk|]. intros p2. by apply post_after.
Qed.

Lemma post_refl b0 hd h p : good b0 hd h p -> post b0 hd h p p.
Proof. intros. by split. Qed.

(** A step that leaves the gateway alone. *)
Lemma session_moved h p s' evs :
  same_terms (p_session p) s' -> p_events p `prefix_of` evs -> moved h p (mkPump s' (p_gateway p) evs).
Proof. intros. by split. Qed.

Lemma session_alive h p s' evs :
  alive h p -> shaped s' -> alive h (mkPump s' (p_gateway p) evs).
Proof. intros [? ? ?] ?. by split. Qed.

Lemma post_session b0 hd hd' h p s' evs :
  good b0 hd h p -> same_terms (p_session p) s' -> shaped s' -> p_events p `prefix_of` evs ->
  (flow b0 hd (p_gateway p) h (p_session p) -> flow b0 hd' (p_gateway p) h s') ->
  post b0 hd' h p (mkPump s' (p_gateway p) evs).
Proof.
  intros [Ha Hf] Ht Hs He Hfl. split; [|by apply session_moved]. split; [by apply session_alive|].
  destruct Hf as [?|?]; [left; by eapply failed_prefix|right; by apply Hfl].
Qed.

(** A step of the gateway on the session. *)
Lemma gateway_effect_moved h p after g' s' evs :
  session_effect (p_gateway p) h after g' -> same_terms (p_session p) s' ->
  p_events p `prefix_of` evs -> moved h p (mkPump s' g' evs).
Proof.
  intros [Hw Hs Hh Hc Hst] Ht He. split; cbn; [done..| |done|done].
  intros h' Hne. rewrite Hst. by rewrite decide_False.
Qed.

Lemma effect_alive h p after g' s' evs :
  alive h p -> session_effect (p_gateway p) h after g' -> shaped s' -> alive h (mkPump s' g' evs).
Proof. intros [_ Hh _] [Hw _ Hhs _ _] Hs. split; cbn; [done|by rewrite Hhs|done]. Qed.

Lemma post_effect b0 hd hd' h p after g' s' evs :
  good b0 hd h p -> session_effect (p_gateway p) h after g' -> same_terms (p_session p) s' ->
  shaped s' -> p_events p `prefix_of` evs ->
  (flow b0 hd (p_gateway p) h (p_session p) -> flow b0 hd' g' h s') ->
  post b0 hd' h p (mkPump s' g' evs).
Proof.
  intros [Ha Hf] Hse Ht Hs He Hfl. split; [|by eapply gateway_effect_moved]. split; [by eapply effect_alive|].
  destruct Hf as [?|?]; [left; by eapply failed_prefix|right; by apply Hfl].
Qed.

Lemma session_streams h p : alive h p ->
  exists e d, streams (tcp_core (p_gateway p)) h = Some (e, d).
Proof.
  intros [Hw Hh _]. destruct (streams_handle _ h (gw_core _ Hw) Hh) as [[e d] E]. by exists e, d.
Qed.

(** Closing and reporting a failure: whatever happened to the bytes before. *)
Lemma close_post b0 hd h p now mk :
  alive h p -> (forall fs, fails h (mk fs)) ->
  holds (let! (guest_frames, g) := close_tcp_session (p_gateway p) h now in
         Ret (push (with_gateway p g) (mk guest_frames)))
        (fun p' => post b0 hd h p p' /\ failed h (p_events p') /\ p_session p' = p_session p).
Proof.
  intros Ha Hf. destruct (session_streams h p Ha) as (e & d & Hst). pose proof Ha as [Hw Hh Hs].
  apply holds_bind. eapply holds_mono; [by eapply close_holds|].
  intros [fs g'] Hse. cbn [snd] in Hse.
  assert (failed h (p_events p ++ [mk fs])) as Hfail by (exists (mk fs); set_solver).
  split; [|done]. unfold push, with_gateway. cbn [p_session p_gateway p_events].
  split; [split; [by eapply effect_alive|by left]|].
  eapply gateway_effect_moved; [done|done|by apply prefix_app_r].
Qed.

Lemma tls_failed_post b0 hd h p now e :
  alive h p -> holds (push_tls_failed p h now e)
    (fun p' => post b0 hd h p p' /\ failed h (p_events p') /\ p_session p' = p_session p).
Proof.
  intros Ha. pose proof (close_post b0 hd h p now (TlsMitmFailed h e) Ha ltac:(done)) as Hc.
  unfold push_tls_failed, tls_mitm_failed_event in *.
  by destruct (close_tcp_session (p_gateway p) h now) as [[fs g]|].
Qed.

Lemma tls_failed_post' b0 hd h p now e :
  alive h p -> holds (push_tls_failed p h now e) (post b0 hd h p).
Proof. intros Ha. eapply holds_mono; [by apply (tls_failed_post b0 hd)|]. by intros p' []. Qed.

Lemma limit_post b0 hd h p now kind limit attempted :
  alive h p -> holds (push_buffer_limit_exceeded p h now kind limit attempted)
    (fun p' => post b0 hd h p p' /\ failed h (p_events p') /\ p_session p' = p_session p).
Proof. intros Ha. by apply (close_post b0 hd h p now (BufferLimitExceeded h kind limit attempted)). Qed.

(** *** How the operations move bytes *)

Lemma effect_refl g h e d :
  gateway_wf g -> streams (tcp_core g) h = Some (e, d) -> session_effect g h (e, d) g.
Proof. intros Hw Hst. split; [done..|]. intros h'. by case_decide; subst. Qed.

Lemma flow_send b0 hd g h s g' e d out pg' hg' :
  flow b0 hd g h s -> streams (tcp_core g) h = Some (e, d) -> session_effect g h (e ++ out, d) g' ->
  pending_guest_bytes s ++ for_guest hd = out ++ pg' ++ hg' ->
  flow b0 (mkHands hg' (for_upstream hd) (for_plaintext hd) (from_plaintext hd)) g' h
    (set_pending_guest s pg').
Proof.
  destruct b0 as [b0|]; [|done]. intros (E & D & R & S & Hst & HR & HS & Hl) Hst' Hse Heq. rewrite Hst in Hst'.
  injection Hst' as <- <-. exists (E ++ out), D, R, S.
  rewrite (se_streams _ _ _ _ Hse), decide_True, (assoc_L (++)) by done.
  split; [done|]. split; [done|]. split; [done|]. unfold ledger, https in *. cbn.
  rewrite <-(assoc_L (++)), <-Heq. by destruct (decide _).
Qed.

Lemma flow_write b0 hd g h s c out pu' hu' :
  flow b0 hd g h s -> received c = received (connection s) ->
  sent c = sent (connection s) ++ out ->
  pending_upstream_bytes s ++ for_upstream hd = out ++ pu' ++ hu' ->
  flow b0 (mkHands (for_guest hd) hu' (for_plaintext hd) (from_plaintext hd)) g h
    (set_pending_upstream (set_connection s c) pu').
Proof.
  destruct b0 as [b0|]; [|done]. intros (E & D & R & S & Hst & HR & HS & Hl) Hrec Hsent Heq. exists E, D, R, (S ++ out).
  cbn. rewrite Hrec, Hsent, HS, (assoc_L (++)).
  split; [done|]. split; [done|]. split; [done|]. unfold ledger, https in *. cbn.
  rewrite <-(assoc_L (++) S), <-Heq. by destruct (decide _).
Qed.

Lemma flow_plaintext b0 hd g h s pp' hp' :
  flow b0 hd g h s ->
  pending_upstream_plaintext s ++ for_plaintext hd ≡ₚ pp' ++ hp' ->
  flow b0 (mkHands (for_guest hd) (for_upstream hd) hp' (from_plaintext hd)) g h
    (set_pending_plaintext s pp').
Proof.
  destruct b0 as [b0|]; [|done]. intros (E & D & R & S & Hst & HR & HS & Hl) Heq. exists E, D, R, S.
  split; [done|]. split; [done|]. split; [done|]. unfold ledger, https in *. cbn.
  destruct (decide _); [|done]. destruct Hl as (? & ? & Hp & ?). rewrite Heq in Hp. done.
Qed.

Lemma flow_recv b0 hd g h s g' e d bs hd' :
  flow b0 hd g h s -> streams (tcp_core g) h = Some (e, d) -> session_effect g h (e, d ++ bs) g' ->
  (if decide (https s) then hd' = hd
   else for_upstream hd' = for_upstream hd ++ bs /\ for_guest hd' = for_guest hd) ->
  flow b0 hd' g' h s.
Proof.
  destruct b0 as [b0|]; [|done]. intros (E & D & R & S & Hst & HR & HS & Hl) Hst' Hse Hhd. rewrite Hst in Hst'.
  injection Hst' as <- <-. exists E, (D ++ bs), R, S.
  rewrite (se_streams _ _ _ _ Hse), decide_True, (assoc_L (++)) by done.
  split; [done|]. split; [done|]. split; [done|]. unfold ledger in *.
  destruct (decide _); [by subst hd'|]. destruct Hhd as [-> ->]. destruct Hl as [-> ->].
  by rewrite !(assoc_L (++)).
Qed.

(** Bytes read from the upstream connection. *)
Lemma flow_read b0 hd g h s c bs hd' :
  flow b0 hd g h s -> received c = received (connection s) ++ bs -> sent c = sent (connection s) ->
  (if decide (https s) then hd' = hd
   else for_guest hd' = for_guest hd ++ bs /\ for_upstream hd' = for_upstream hd) ->
  flow b0 hd' g h (set_connection s c).
Proof.
  destruct b0 as [b0|]; [|done]. intros (E & D & R & S & Hst & HR & HS & Hl) Hrec Hsent Hhd. exists E, D, (R ++ bs), S.
  cbn. rewrite Hrec, Hsent, HR, (assoc_L (++)).
  split; [done|]. split; [done|]. split; [done|]. unfold ledger, https in *. cbn.
  destruct (decide _); [by subst hd'|]. destruct Hhd as [-> ->]. destruct Hl as [-> ->].
  by rewrite !(assoc_L (++)).
Qed.

Lemma flow_guest_tls b0 hd g h s t t' plaintext tls written hp hx :
  https s -> flow b0 hd g h s -> guest_tls s = Some t ->
  tls_effect (server t) plaintext tls written (server t') ->
  hp = for_plaintext hd ++ plaintext -> from_plaintext hd = written ++ hx ->
  flow b0 (mkHands (for_guest hd ++ tls) (for_upstream hd) hp hx) g h (set_guest_tls s t').
Proof.
  destruct b0 as [b0|]; [|done]. intros Hs (E & D & R & S & Hst & HR & HS & Hl) Ht [Er Et Ei] -> Hx. exists E, D, R, S.
  split; [done|]. split; [done|]. split; [done|]. unfold ledger, https in *. cbn.
  rewrite decide_True by done. rewrite decide_True in Hl by done.
  destruct Hl as (L1 & L2 & L3 & L4). unfold guest_view, upstream_view in *. cbn. rewrite Ht in *.
  rewrite Er, Et, Ei, L1, L4, Hx, L3, <-!(assoc_L (++)). done.
Qed.

Lemma flow_upstream_tls b0 hd g h s u u' plaintext tls written hp :
  https s -> flow b0 hd g h s -> upstream_tls s = Some u ->
  tls_effect (client u) plaintext tls written (client u') ->
  for_plaintext hd = written ++ hp ->
  flow b0 (mkHands (for_guest hd) (for_upstream hd ++ tls) hp (from_plaintext hd ++ plaintext)) g h
    (set_upstream_tls s u').
Proof.
  destruct b0 as [b0|]; [|done]. intros Hs (E & D & R & S & Hst & HR & HS & Hl) Ht [Er Et Ei] Hp. exists E, D, R, S.
  split; [done|]. split; [done|]. split; [done|]. unfold ledger, https in *. cbn.
  rewrite decide_True by done. rewrite decide_True in Hl by done.
  destruct Hl as (L1 & L2 & L3 & L4). unfold guest_view, upstream_view in *. cbn. rewrite Ht in *.
  rewrite Er, Et, Ei, L2, L4, L3, Hp, <-!(assoc_L (++)). split; [done|]. split; [done|].
  split; [|done]. rewrite (Permutation_app_comm written). solve_Permutation.
Qed.

(** *** Towards the guest *)

Lemma shaped_guest s bs :
  shaped s -> len bs <= limit_guest_bytes (session_limits s) -> shaped (set_pending_guest s bs).
Proof. intros [] ?. by split. Qed.

Lemma guest_event_pump p ev h n fs :
  exists e, push_guest_send_event p ev h n fs = push p e.
Proof. destruct ev; by eexists. Qed.

Lemma flush_guest_post b0 hd h p now ev :
  good b0 hd h p -> holds (flush_pending_guest_bytes p h now ev) (post b0 hd h p).
Proof.
  intros Hg. unfold flush_pending_guest_bytes. case_test; [by apply post_refl|].
  destruct (session_streams h p) as (e & d & Hst); [apply Hg|].
  pose proof (proj1 Hg) as [Hw Hh Hs]. apply holds_bind.
  eapply holds_mono; [by eapply send_partial_holds|].
  intros [[[n fs]|err] g'] Hr; cbn in Hr; cycle 1.
  { subst g'. apply (post_session b0 hd hd h p); [done..|by apply prefix_app_r|done]. }
  destruct Hr as [Hn Hse]. set (pg := pending_guest_bytes (p_session p)) in *.
  assert (flow b0 hd (p_gateway p) h (p_session p) ->
    flow b0 hd g' h (set_pending_guest (p_session p) (zdrop n pg))) as Hfl.
  { intros Hf. destruct hd as [hg hu hp hx]. eapply (flow_send b0 (mkHands hg hu hp hx)); [done..|].
    cbn. by rewrite (assoc_L (++)), ztake_zdrop. }
  case_test.
  - rewrite (proj2 (Z.leb_le _ _)) by lia.
    edestruct (guest_event_pump) as [e1 ->].
    eapply (post_effect b0 hd hd h p _ g'); [done..| |by apply prefix_app_r|done].
    apply shaped_guest; [done|]. rewrite len_zdrop by lia. pose proof (sh_guest _ Hs).
    pose proof (sh_limits _ Hs) as (_ & _ & ? & _). subst pg. lia.
  - assert (n = 0) as -> by lia. eapply (post_effect b0 hd hd h p _ g'); [done..|].
    intros Hf%Hfl. destruct (p_session p). exact Hf.
Qed.

Lemma queue_guest_post b0 bytes hu hp hx h p now :
  good b0 (mkHands bytes hu hp hx) h p ->
  holds (queue_pending_guest_bytes p h now bytes)
    (fun r => post b0 (mkHands [] hu hp hx) h p r.2).
Proof.
  intros Hg. unfold queue_pending_guest_bytes. pose proof (proj1 Hg) as [Hw Hh Hs].
  destruct (StreamBuffer.extend_pending_within_limit (pending_guest_bytes (p_session p)) bytes
    (limit_guest_bytes (session_limits (p_session p)))) as [[-> Hl]|[-> _]].
  - apply (sh_limits _ Hs).
  - apply (post_session b0 (mkHands bytes hu hp hx)); [done..|by apply shaped_guest|done|].
    intros Hf. destruct (session_streams h p) as (e & d & Hst); [apply Hg|].
    eapply (flow_send b0 (mkHands bytes hu hp hx) _ h _ _ e d []); [done|done| |by rewrite app_nil_r].
    rewrite app_nil_r. by apply effect_refl.
  - apply holds_bind. eapply holds_mono; [apply limit_post, Hg|]. by intros p' [? _].
Qed.

Lemma send_guest_post b0 bytes hu hp hx h p now ev :
  good b0 (mkHands bytes hu hp hx) h p ->
  holds (send_guest_buffered p h now bytes ev) (post b0 (mkHands [] hu hp hx) h p).
Proof.
  intros Hg0. unfold send_guest_buffered.
  eapply (post_bind b0 (mkHands bytes hu hp hx)); [by apply flush_guest_post|]. clear p Hg0.
  intros p Hg. case_test; cycle 1.
  { apply holds_bind. eapply holds_mono; [by eapply queue_guest_post|]. by intros [? ?]. }
  destruct (session_streams h p) as (e & d & Hst); [apply Hg|].
  pose proof (proj1 Hg) as [Hw Hh Hs]. apply holds_bind.
  eapply holds_mono; [by eapply send_partial_holds|].
  intros [[[n fs]|err] g'] Hr; cbn in Hr; cycle 1.
  { subst g'. apply holds_bind.
    assert (post b0 (mkHands bytes hu hp hx) h p
      (push (with_gateway p (p_gateway p)) (GuestWriteFailed h err))) as [Hg1 Hm1].
    { apply (post_session b0 (mkHands bytes hu hp hx) _ h p (p_session p));
        [done|done|apply Hg|by apply prefix_app_r|done]. }
    eapply holds_mono; [by eapply queue_guest_post|]. intros [? p']. by apply post_after. }
  destruct Hr as [Hn Hse]. assert (pending_guest_bytes (p_session p) = []) as Hpg by done.
  set (p1 := if n >? 0 then _ else _).
  assert (exists evs, p_events p `prefix_of` evs /\ p1 = mkPump (p_session p) g' evs) as (evs & He & ->).
  { subst p1. case_test; [|by exists (p_events p)].
    edestruct guest_event_pump as [e1 ->]. eexists. split; [|done]. by apply prefix_app_r. }
  assert (post b0 (mkHands (zdrop n bytes) hu hp hx) h p (mkPump (p_session p) g' evs)) as [Hg1 Hm1].
  { apply (post_effect b0 (mkHands bytes hu hp hx) _ h p _ g' _ evs Hg Hse); [done..|].
    intros Hf. eapply (flow_send b0 (mkHands bytes hu hp hx) _ h _ g' e d _ [] (zdrop n bytes)) in Hf;
      [|done|done|by rewrite Hpg; cbn; rewrite ztake_zdrop].
    destruct (p_session p). cbn in Hpg. subst. exact Hf. }
  case_test.
  - subst n. assert (zdrop (len bytes) bytes = []) as Hz.
    { apply len_zero. rewrite len_zdrop by lia. lia. }
    rewrite Hz in *. by split.
  - rewrite slice_from by lia. cbn [exec_bind]. apply holds_bind.
    eapply holds_mono; [by eapply queue_guest_post|]. intros [? p']. by apply post_after.
Qed.

(** *** Towards the upstream connection *)

Lemma shaped_upstream s c bs :
  shaped s -> len bs <= limit_upstream_bytes (session_limits s) ->
  shaped (set_pending_upstream (set_connection s c) bs).
Proof. intros [] ?. by split. Qed.

(** [bytes] were appended to the buffer and some of the buffer was written. *)
Definition relayed s (bytes : list byte) s' : Prop :=
  exists c pending out, s' = set_pending_upstream (set_connection s c) pending /\
    received c = received (connection s) /\ sent c = sent (connection s) ++ out /\
    pending_upstream_bytes s ++ bytes = out ++ pending.

(** A write either appends [bytes] and leaves the gateway alone, or the failure
    is announced. *)
Definition written (h : SocketHandle) p (bytes : list byte) (ok : bool) p' : Prop :=
  alive h p' /\ moved h p p' /\
  if ok then p_gateway p' = p_gateway p /\ relayed (p_session p) bytes (p_session p')
  else failed h (p_events p').

Lemma buffer_upstream_spec h p now bytes :
  alive h p ->
  holds (buffer_pending_upstream_bytes p h now bytes) (fun '(ok, p') => written h p bytes ok p').
Proof.
  intros Ha. unfold buffer_pending_upstream_bytes. pose proof Ha as [Hw Hh Hs].
  destruct (StreamBuffer.extend_pending_within_limit (pending_upstream_bytes (p_session p)) bytes
    (limit_upstream_bytes (session_limits (p_session p)))) as [[-> Hl]|[-> _]].
  - apply (sh_limits _ Hs).
  - split; [|split; [by apply session_moved|split; [done|]]].
    + apply session_alive; [done|]. by apply (shaped_upstream _ (connection (p_session p))).
    + eexists (connection (p_session p)), _, []. split; [done|]. by rewrite app_nil_r.
  - apply holds_bind. eapply holds_mono; [by apply (limit_post None empty_handed)|].
    intros p' [[[? _] ?] [? _]]. done.
Qed.

Lemma write_loop_relayed s bytes r c pending :
  StreamBuffer.write_pending_best_effort (connection s) (pending_upstream_bytes s ++ bytes) usize_max =
    Ret (r, c, pending) ->
  relayed s bytes (set_pending_upstream (set_connection s c) pending) /\
  len pending <= len (pending_upstream_bytes s) + len bytes.
Proof.
  intros E. unfold StreamBuffer.write_pending_best_effort in E.
  pose proof (StreamBuffer.write_pending_loop_spec sent
    (S (List.length (pending_upstream_bytes s ++ bytes))) (connection s)
    (pending_upstream_bytes s ++ bytes) usize_max 0) as Hw. rewrite E in Hw.
  destruct Hw as (out & Hp & Hs & _ & _); [lia|by vm_compute|].
  apply (StreamBuffer.write_pending_loop_keeps received) in E; [|by apply write_keeps_received].
  split; [by exists c, pending, out|]. apply (f_equal len) in Hp. rewrite !len_app in Hp.
  pose proof (len_nonneg out). lia.
Qed.

Lemma write_returns c (pending : list byte) :
  holds (StreamBuffer.write_pending_best_effort c pending usize_max) (fun _ => True).
Proof.
  eapply holds_mono; [|done]. apply (StreamBuffer.write_pending_loop_spec sent); [lia|by vm_compute].
Qed.

Lemma write_upstream_spec h p now bytes :
  alive h p ->
  holds (write_pending_upstream_bytes_best_effort p h now bytes)
    (fun '(o, p') => written h p bytes (bool_decide (is_Some o)) p').
Proof.
  intros Ha. unfold write_pending_upstream_bytes_best_effort,
    StreamBuffer.append_and_write_pending_best_effort. pose proof Ha as [Hw Hh Hs]. case_test.
  { apply holds_bind. eapply holds_mono; [by apply (limit_post None empty_handed)|].
    intros p' [[[? _] ?] [? _]]. done. }
  pose proof (write_returns (connection (p_session p))
    (pending_upstream_bytes (p_session p) ++ bytes)) as Hr.
  apply holds_ret in Hr as ([[r c] pending] & E & _). rewrite E. cbn [exec_bind].
  apply write_loop_relayed in E as [Hrel Hl].
  assert (shaped (set_pending_upstream (set_connection (p_session p) c) pending)) as Hs'
    by (apply shaped_upstream; [done|lia]).
  destruct r as [n|err].
  - split; [by apply (session_alive h p)|]. split; [by apply (session_moved h p)|]. done.
  - split; [by apply (session_alive h p)|].
    split; [apply (session_moved h p); [done|by apply prefix_app_r]|].
    exists (UpstreamWriteFailed h err). cbn. set_solver.
Qed.

Lemma write_or_buffer_spec h p now w bytes :
  alive h p ->
  holds (write_or_buffer_tls p h now w bytes) (fun '(ok, p') => written h p bytes ok p').
Proof.
  intros Ha. unfold write_or_buffer_tls. case_test.
  { subst bytes. split; [done|]. split; [done|]. split; [done|].
    exists (connection (p_session p)), (pending_upstream_bytes (p_session p)), [].
    rewrite !app_nil_r. by destruct (p_session p). }
  destruct w; [|by apply buffer_upstream_spec].
  apply holds_bind. eapply holds_mono; [by apply write_upstream_spec|].
  intros [[n|] p'] Hwr; cbn in Hwr; [|done]. destruct Hwr as ([Hw' Hh' Hs'] & Hm & Hg & Hrel).
  unfold push_tls_upstream. case_test; [|done]. split; [done|].
  split; [|done]. etrans; [exact Hm|]. apply (session_moved h p'); [done|by apply prefix_app_r].
Qed.

Lemma written_post b0 bytes hg hp hx h p ok p' :
  good b0 (mkHands hg bytes hp hx) h p -> written h p bytes ok p' ->
  post b0 (mkHands hg [] hp hx) h p p'.
Proof.
  intros [Ha Hf] (Ha' & Hm & Hok). split; [|done]. split; [done|].
  destruct Hf as [Hf|Hf]; [left; eapply failed_prefix; [apply Hm|done]|].
  destruct ok; [|by left]. right. destruct Hok as [-> (c & pend & out & -> & Hr & Hs & Hp)].
  eapply (flow_write b0 (mkHands hg bytes hp hx)); [done..|]. cbn. by rewrite app_nil_r.
Qed.

Lemma post_push b0 hd h p e : good b0 hd h p -> post b0 hd h p (push p e).
Proof.
  intros Hg. apply (post_session b0 hd hd h p (p_session p));
    [done|done|apply Hg|by apply prefix_app_r|done].
Qed.

Lemma post_tls_upstream b0 hd h p n : good b0 hd h p -> post b0 hd h p (push_tls_upstream p h n).
Proof. intros Hg. unfold push_tls_upstream. case_test; [by apply post_push|by apply post_refl]. Qed.

Lemma post_trans b0 hd1 hd2 h p p1 p2 :
  post b0 hd1 h p p1 -> (good b0 hd1 h p1 -> post b0 hd2 h p1 p2) -> post b0 hd2 h p p2.
Proof. intros [Hg Hm] Hp. eapply post_after; [exact Hm|by apply Hp]. Qed.

Lemma write_upstream_post b0 bytes hg hp hx h p now :
  good b0 (mkHands hg bytes hp hx) h p ->
  holds (write_pending_upstream_bytes_best_effort p h now bytes)
    (fun '(o, p') => post b0 (mkHands hg [] hp hx) h p p').
Proof.
  intros Hg. eapply holds_mono; [apply write_upstream_spec, Hg|].
  intros [o p'] Hw. by eapply written_post.
Qed.

(** *** Plaintext for the upstream TLS connection *)

Lemma shaped_plaintext s bs :
  shaped s -> len bs <= limit_upstream_plaintext (session_limits s) ->
  shaped (set_pending_plaintext s bs).
Proof. intros [] ?. by split. Qed.

Lemma shaped_upstream_tls s u : shaped s -> https s -> shaped (set_upstream_tls s u).
Proof. intros [] ?. by split. Qed.

Lemma shaped_guest_tls s t : shaped s -> https s -> shaped (set_guest_tls s t).
Proof. intros [] ?. split; try done. Qed.

Lemma buffer_plaintext_post b0 bytes hg hu hx h p now :
  good b0 (mkHands hg hu bytes hx) h p ->
  holds (buffer_pending_upstream_plaintext p h now bytes)
    (fun r => post b0 (mkHands hg hu [] hx) h p r.2).
Proof.
  intros Hg. unfold buffer_pending_upstream_plaintext. pose proof (proj1 Hg) as [Hw Hh Hs].
  destruct (StreamBuffer.extend_pending_within_limit (pending_upstream_plaintext (p_session p)) bytes
    (limit_upstream_plaintext (session_limits (p_session p)))) as [[-> Hl]|[-> _]].
  - apply (sh_limits _ Hs).
  - apply (post_session b0 (mkHands hg hu bytes hx)); [done..|by apply shaped_plaintext|done|].
    intros Hf. eapply (flow_plaintext b0 (mkHands hg hu bytes hx)); [done|]. cbn.
    by rewrite app_nil_r.
  - apply holds_bind. eapply holds_mono; [apply limit_post, Hg|]. by intros p' [? _].
Qed.

(** The upstream TLS connection after an operation: what it put out is in hand. *)
Lemma upstream_tls_post b0 hg wr hp hx h p u u' plaintext tls :
  good b0 (mkHands hg [] (wr ++ hp) hx) h p -> upstream_tls (p_session p) = Some u ->
  tls_effect (client u) plaintext tls wr (client u') ->
  post b0 (mkHands hg tls hp (hx ++ plaintext)) h p
    (with_session p (set_upstream_tls (p_session p) u')).
Proof.
  intros Hg Hu Heff. pose proof (proj1 Hg) as [Hw Hh Hs].
  assert (https (p_session p)) as Hhttps by (apply (sh_upstream_tls _ Hs); by rewrite Hu).
  apply (post_session b0 (mkHands hg [] (wr ++ hp) hx)); [done|done|by apply shaped_upstream_tls|done|].
  intros Hf. by apply (flow_upstream_tls b0 (mkHands hg [] (wr ++ hp) hx) _ h _ u u' plaintext tls wr hp).
Qed.

Lemma upstream_tls_alive h p u u' :
  alive h p -> upstream_tls (p_session p) = Some u ->
  alive h (with_session p (set_upstream_tls (p_session p) u')) /\
  moved h p (with_session p (set_upstream_tls (p_session p) u')).
Proof.
  intros Ha Hu. pose proof Ha as [Hw Hh Hs]. split; [|by apply (session_moved h p)].
  apply (session_alive h p); [done|]. apply shaped_upstream_tls; [done|].
  apply (sh_upstream_tls _ Hs). by rewrite Hu.
Qed.

Lemma write_https_post b0 bytes hg hx h p now :
  good b0 (mkHands hg [] bytes hx) h p ->
  holds (write_https_plaintext_upstream p h now bytes) (post b0 (mkHands hg [] [] hx) h p).
Proof.
  intros Hg. unfold write_https_plaintext_upstream.
  destruct (upstream_tls (p_session p)) as [u|] eqn:Hu; cycle 1.
  { apply holds_bind. eapply holds_mono; [by apply buffer_plaintext_post|]. by intros [? ?]. }
  unfold write_upstream_plaintext. apply holds_bind, holds_bind.
  eapply holds_mono; [apply write_plaintext_spec|]. intros [r c'] Hr. cbn [holds exec_bind].
  destruct r as [out|e].
  - destruct (Hr out eq_refl) as [Heff _]. rewrite <-(app_nil_r bytes) in Hg.
    pose proof (upstream_tls_post b0 hg bytes [] hx h p u (mkUpstreamTls c') [] out Hg Hu Heff)
      as [Hg1 Hm1]. rewrite app_nil_r in Hg1.
    apply holds_bind. eapply holds_mono; [by apply write_upstream_post|].
    intros [[n|] p2] Hp2; [|by eapply post_after]. eapply post_after; [exact Hm1|].
    eapply post_trans; [exact Hp2|]. intros Hg2.
    eapply post_trans; [by apply post_push|]. intros Hg3. by apply post_tls_upstream.
  - destruct (upstream_tls_alive h p u (mkUpstreamTls c') (proj1 Hg) Hu) as [Ha1 Hm1].
    eapply holds_mono; [by apply tls_failed_post'|]. intros p2. by apply post_after.
Qed.

Lemma flush_https_post b0 hg hx h p now :
  good b0 (mkHands hg [] [] hx) h p ->
  holds (flush_pending_https_plaintext p h now) (post b0 (mkHands hg [] [] hx) h p).
Proof.
  intros Hg. unfold flush_pending_https_plaintext. repeat case_test; try by apply post_refl.
  assert (post b0 (mkHands hg [] (pending_upstream_plaintext (p_session p)) hx) h p
    (with_session p (set_pending_plaintext (p_session p) []))) as [Hg1 Hm1].
  { pose proof (proj1 Hg) as [Hw Hh Hs].
    apply (post_session b0 (mkHands hg [] [] hx)); [done|done| |done|].
    - apply shaped_plaintext; [done|]. rewrite len_nil. apply (sh_limits _ Hs).
    - intros Hf. eapply (flow_plaintext b0 (mkHands hg [] [] hx)); [done|]. cbn. by rewrite app_nil_r. }
  eapply holds_mono; [by apply write_https_post|]. intros p2. by apply post_after.
Qed.

Lemma drain_upstream_post b0 hg hp hx h p now :
  good b0 (mkHands hg [] hp hx) h p ->
  holds (drain_upstream_tls_writes p h now) (post b0 (mkHands hg [] hp hx) h p).
Proof.
  intros Hg. unfold drain_upstream_tls_writes. case_test; [by apply post_refl|].
  destruct (upstream_tls (p_session p)) as [u|] eqn:Hu; [|by apply post_refl].
  unfold drain_tls_to_upstream. apply holds_bind, holds_bind.
  eapply holds_mono; [apply drain_tls_writes_spec|]. intros [r c'] Hr. cbn [holds exec_bind].
  destruct r as [out|e].
  - destruct (Hr out eq_refl) as [Heff _].
    pose proof (upstream_tls_post b0 hg [] hp hx h p u (mkUpstreamTls c') [] out Hg Hu Heff)
      as [Hg1 Hm1]. rewrite app_nil_r in Hg1. case_test; [by subst out|].
    apply holds_bind. eapply holds_mono; [by apply write_upstream_post|].
    intros [[n|] p2] Hp2; [|by eapply post_after]. eapply post_after; [exact Hm1|].
    eapply post_trans; [exact Hp2|]. intros Hg2. by apply post_tls_upstream.
  - destruct (upstream_tls_alive h p u (mkUpstreamTls c') (proj1 Hg) Hu) as [Ha1 Hm1].
    eapply holds_mono; [by apply tls_failed_post'|]. intros p2. by apply post_after.
Qed.

Lemma flush_upstream_post b0 hg hx h p now :
  good b0 (mkHands hg [] [] hx) h p ->
  holds (flush_pending_upstream_bytes p h now) (post b0 (mkHands hg [] [] hx) h p).
Proof.
  intros Hg. unfold flush_pending_upstream_bytes. case_test; [by apply post_refl|].
  pose proof (proj1 Hg) as [Hw Hh Hs].
  pose proof (write_returns (connection (p_session p)) (pending_upstream_bytes (p_session p))) as Hr.
  apply holds_ret in Hr as ([[r c] pending] & E & _). rewrite E. cbn [exec_bind].
  rewrite <-(app_nil_r (pending_upstream_bytes (p_session p))) in E.
  apply write_loop_relayed in E as [(c1 & pe & out & Ee & Hrc & Hsn & Hp) Hl].
  injection Ee as -> ->. rewrite len_nil in Hl.
  set (s1 := set_pending_upstream (set_connection (p_session p) c1) pe).
  assert (shaped s1) as Hs1 by (apply shaped_upstream; [done|pose proof (sh_upstream _ Hs); lia]).
  assert (forall evs, p_events p `prefix_of` evs ->
    post b0 (mkHands hg [] [] hx) h p (mkPump s1 (p_gateway p) evs)) as Hstep.
  { intros evs He. apply (post_session b0 (mkHands hg [] [] hx)); [done..|]. intros Hf.
    eapply (flow_write b0 (mkHands hg [] [] hx)); [done..|]. cbn. by rewrite Hp, app_nil_r. }
  set (p1 := match r with Ok _ => _ | Err _ => _ end).
  assert (exists evs, p_events p `prefix_of` evs /\ p1 = mkPump s1 (p_gateway p) evs) as (evs & He & ->).
  { subst p1. destruct r; [case_test|]; eexists; (split; [|reflexivity]); by try apply prefix_app_r. }
  destruct (Hstep evs He) as [Hg1 Hm1]. case_test; [|by split].
  eapply holds_mono; [apply (flush_https_post b0 hg hx)|].
  - destruct Hg1 as [[? ? []] Hf]. by split.
  - intros p2 Hp2. eapply post_after; [|exact Hp2]. etrans; [exact Hm1|]. by apply session_moved.
Qed.

Lemma record_http_post b0 hd h p now payload :
  good b0 hd h p ->
  holds (record_http_request p h now payload) (fun '(ok, p') => post b0 hd h p p' /\
    (ok = false -> failed h (p_events p'))).
Proof.
  intros Hg. unfold record_http_request. case_test; [by split; [apply post_refl|]|].
  pose proof (proj1 Hg) as [Hw Hh Hs]. case_test.
  { apply holds_bind. eapply holds_mono; [apply limit_post, Hg|]. intros p' (? & ? & _). done. }
  split; [|done].
  assert (forall e, post b0 hd h p
    (push (with_session p (set_http_buffer (p_session p) (http_buffer (p_session p) ++ payload))) e)) as Hstep.
  { intros e. apply (post_session b0 hd hd h p); [done|done| |by apply prefix_app_r|done].
    destruct Hs. split; try done. cbn. rewrite len_app. lia. }
  destruct (parse_http_request _) as [[summary|]|[]]; apply Hstep.
Qed.

(** *** From the guest *)

(** Payload in hand, on its way upstream or to the upstream TLS connection. *)
Definition payload_hands s (payload : list byte) : hands :=
  if decide (https s) then mkHands [] [] payload [] else mkHands [] payload [] [].

Lemma payload_hands_nil s : payload_hands s [] = empty_handed.
Proof. unfold payload_hands. by destruct (decide _). Qed.

Lemma moved_https h p p' : moved h p p' -> https (p_session p') <-> https (p_session p).
Proof. intros [_ _ _ _ (_ & Hd & _) _]. unfold https. by rewrite Hd. Qed.

Lemma payload_hands_moved h p p' bs :
  moved h p p' -> payload_hands (p_session p') bs = payload_hands (p_session p) bs.
Proof.
  intros [_ _ _ _ (_ & Hd & _) _]. unfold payload_hands, https. by rewrite Hd.
Qed.

Lemma good_failed b0 hd hd' h p : good b0 hd h p -> failed h (p_events p) -> good b0 hd' h p.
Proof. intros [Ha _] Hf. split; [done|by left]. Qed.

Lemma record_step_post b0 hd h p now payload (act : TcpAction) :
  good b0 hd h p ->
  holds (if bool_decide (act = InterceptHttp) || bool_decide (act = InterceptHttps)
         then record_http_request p h now payload else Ret (true, p))
    (fun '(ok, p') => post b0 hd h p p' /\ (ok = false -> failed h (p_events p'))).
Proof. intros Hg. case_test; [by apply record_http_post|by split; [apply post_refl|]]. Qed.

Lemma forward_payload_post b0 h p now w payload :
  good b0 (payload_hands (p_session p) payload) h p ->
  holds (forward_payload p h now w payload) (post b0 empty_handed h p).
Proof.
  intros Hg. unfold forward_payload. apply holds_bind.
  eapply holds_mono; [by apply record_step_post|]. intros [ok p1] [[Hg1 Hm1] Hok].
  rewrite <-(payload_hands_moved h p p1 payload Hm1) in Hg1.
  assert (action (decision (p_session p)) = action (decision (p_session p1))) as Hact.
  { destruct Hm1 as [_ _ _ _ (_ & -> & _) _]. done. }
  destruct ok; cbn [negb]; [|split; [|done]; eapply good_failed; [done|by apply Hok]].
  case_test.
  { subst payload. rewrite payload_hands_nil in Hg1. by split. }
  cut (forall m, holds m (post b0 empty_handed h p1) -> holds m (post b0 empty_handed h p));
    [intros Hcut; apply Hcut; rewrite Hact|intros m Hm; eapply holds_mono; [exact Hm|];
     intros p2; by apply post_after].
  unfold payload_hands, https in Hg1.
  destruct (bool_decide_reflect (action (decision (p_session p1)) = InterceptHttps)) as [Hh|Hh].
  - rewrite decide_True in Hg1 by done. case_test; [by apply write_https_post|].
    apply holds_bind. eapply holds_mono; [by apply buffer_plaintext_post|]. by intros [? ?].
  - rewrite decide_False in Hg1 by done. destruct w.
    + apply holds_bind. eapply holds_mono; [by apply write_upstream_post|].
      intros [[n|] p2] Hp2; [|done]. eapply post_trans; [exact Hp2|]. intros. by apply post_push.
    + apply holds_bind. eapply holds_mono; [apply buffer_upstream_spec, Hg1|].
      intros [ok p2] Hwr. by eapply written_post.
Qed.

(** Nothing is in hand while the guest is still in its handshake. *)
Lemma handshake_empty b0 hp g h s t :
  https s -> flow_since b0 (mkHands [] [] hp []) g h s -> guest_tls s = Some t ->
  guest_is_handshaking t = true -> hp = [].
Proof.
  intros Hs (E & D & R & S & _ & _ & _ & Hl) Ht Hk. unfold ledger in Hl.
  rewrite decide_True in Hl by done. destruct Hl as (_ & _ & Hp & _).
  assert (guest_view read_out s = []) as Hr.
  { unfold guest_view. rewrite Ht. destruct (read_prefix (server t)) as [rest Hrest].
    rewrite handshaking_no_data in Hrest by done. symmetry in Hrest. by apply app_eq_nil in Hrest as []. }
  rewrite Hr in Hp. apply Permutation_nil in Hp. apply app_eq_nil in Hp as [_ Hp].
  by apply app_eq_nil in Hp as [_ Hp].
Qed.

(** The new TLS connection, whose hello was written or kept for later. *)
Lemma flow_hello b0 hp g h s s' c hello :
  https s -> upstream_tls s = None -> fresh_tls c -> relayed s hello s' ->
  forall c', tls_effect c [] hello [] c' ->
  flow b0 (mkHands [] [] hp []) g h s ->
  flow b0 (mkHands [] [] hp []) g h (set_upstream_tls s' (mkUpstreamTls c')).
Proof.
  destruct b0 as [b0|]; [|done]. intros Hs Hu (Fd & Fr & Fi & Ft) (cn & pend & out & -> & Hrc & Hsn & Hp) c' [Er Et Ei]
    (E & D & R & S & Hst & HR & HS & Hl).
  exists E, D, R, (S ++ out). cbn. rewrite Hrc, Hsn, HS, (assoc_L (++)).
  split; [done|]. split; [done|]. split; [done|]. unfold ledger, https in *. cbn.
  rewrite decide_True in Hl |- * by done. destruct Hl as (L1 & L2 & L3 & L4).
  unfold guest_view, upstream_view in *. cbn. rewrite Hu in *. cbn in *.
  rewrite Er, Et, Ei, Fr, Fi, Ft. cbn. split; [done|]. split; [|done].
  rewrite app_nil_r in L2 |- *. symmetry in L2. apply app_eq_nil in L2 as [-> L2].
  rewrite L2 in Hp. by cbn in *.
Qed.

Lemma ensure_post b0 hp h p now config w :
  good b0 (mkHands [] [] hp []) h p -> https (p_session p) ->
  holds (ensure_https_upstream_tls config p h now w) (fun '(ok, p') =>
    post b0 (mkHands [] [] (if ok : bool then hp else []) []) h p p').
Proof.
  intros Hg Hs. unfold ensure_https_upstream_tls. pose proof (proj1 Hg) as Ha.
  assert (forall e, fails h e -> post b0 (mkHands [] [] [] []) h p (push p e)) as Hfail.
  { intros e He. split; [|apply (session_moved h p); [done|by apply prefix_app_r]].
    split; [apply (session_alive h p); [done|apply Ha]|]. left. exists e. cbn. set_solver. }
  assert (forall e, holds (let! p := push_tls_failed p h now e in Ret (false, p)) (fun '(ok, p') =>
    post b0 (mkHands [] [] (if ok : bool then hp else []) []) h p p')) as Htls.
  { intros e. apply holds_bind. eapply holds_mono; [by apply (tls_failed_post' b0 (mkHands [] [] [] []))|].
    done. }
  destruct (upstream_tls (p_session p)) as [u|] eqn:Hu; [by apply post_refl|].
  destruct (guest_tls (p_session p)) as [t|] eqn:Ht; [|by apply Hfail].
  destruct (server_name t) as [name|]; cycle 1.
  { destruct (guest_is_handshaking t) eqn:Hk; cbn [negb]; [|by apply Htls].
    apply post_refl. split; [done|]. destruct (proj2 Hg) as [?|Hf]; [by left|right].
    destruct b0 as [b0|]; [|done].
    assert (hp = []) as -> by (by eapply handshake_empty). done. }
  destruct config as [config|]; [|by apply Hfail].
  unfold TlsUpstreamSession_new. destruct (ServerName_try_from name) as [sn|]; [|by apply Htls].
  cbn [map_err result_bind].
  destruct (ClientConnection_new config sn) as [c|] eqn:Ec; [|by apply Htls].
  apply client_new_fresh in Ec. cbn [map_err result_bind].
  unfold drain_tls_to_upstream. apply holds_bind, holds_bind.
  eapply holds_mono; [apply drain_tls_writes_spec|]. intros [[hello|e] c'] Hd; [|by apply Htls].
  destruct (Hd hello eq_refl) as [Heff _]. cbn [holds exec_bind].
  apply holds_bind. eapply holds_mono; [by apply write_or_buffer_spec|].
  intros [[|] p1] (Ha1 & Hm1 & Hok).
  - destruct Hok as [Hgw Hrel]. split.
    + split; [apply (session_alive h p1); [done|]|].
      * apply shaped_upstream_tls; [apply Ha1|]. by apply (moved_https h p p1).
      * destruct (proj2 Hg) as [?|Hf]; [left; eapply failed_prefix; [apply Hm1|done]|right].
        cbn. rewrite Hgw. by eapply flow_hello.
    + etrans; [exact Hm1|]. by apply (session_moved h p1).
  - split; [|done]. split; [done|by left].
Qed.

Lemma guest_tls_post b0 hg wr hp hx h p t t' plaintext tls :
  good b0 (mkHands hg [] hp (wr ++ hx)) h p -> guest_tls (p_session p) = Some t ->
  tls_effect (server t) plaintext tls wr (server t') ->
  post b0 (mkHands (hg ++ tls) [] (hp ++ plaintext) hx) h p
    (with_session p (set_guest_tls (p_session p) t')).
Proof.
  intros Hg Ht Heff. pose proof (proj1 Hg) as [Hw Hh Hs].
  assert (https (p_session p)) as Hhttps by (apply (sh_guest_tls _ Hs); by rewrite Ht).
  apply (post_session b0 (mkHands hg [] hp (wr ++ hx))); [done|done|by apply shaped_guest_tls|done|].
  intros Hf. by eapply (flow_guest_tls b0 (mkHands hg [] hp (wr ++ hx))).
Qed.

Lemma guest_tls_alive h p t t' :
  alive h p -> guest_tls (p_session p) = Some t ->
  alive h (with_session p (set_guest_tls (p_session p) t')) /\
  moved h p (with_session p (set_guest_tls (p_session p) t')).
Proof.
  intros Ha Ht. pose proof Ha as [Hw Hh Hs]. split; [|by apply (session_moved h p)].
  apply (session_alive h p); [done|]. apply shaped_guest_tls; [done|].
  apply (sh_guest_tls _ Hs). by rewrite Ht.
Qed.

Lemma process_guest_payload_post b0 h p config bytes now w :
  good b0 (if decide (https (p_session p)) then empty_handed else mkHands [] bytes [] []) h p ->
  holds (process_guest_payload config p h bytes now w) (post b0 empty_handed h p).
Proof.
  intros Hg. unfold process_guest_payload.
  destruct (bool_decide_reflect (action (decision (p_session p)) = InterceptHttps)) as [Hs|Hs]; cycle 1.
  { apply forward_payload_post. unfold payload_hands. by rewrite decide_False in Hg |- *. }
  rewrite decide_True in Hg by done.
  destruct (guest_tls (p_session p)) as [t|] eqn:Ht; [|by apply post_push].
  unfold read_guest_tls. apply holds_bind, holds_bind.
  eapply holds_mono; [apply feed_spec|]. intros [[[plaintext tls]|e] c'] Hr; cbn [holds exec_bind result_bind].
  2: { destruct (guest_tls_alive h p t (mkGuestTls c') (proj1 Hg) Ht) as [Ha1 Hm1].
       eapply holds_mono; [by apply tls_failed_post'|]. intros p2. by apply post_after. }
  destruct (Hr plaintext tls eq_refl) as [Heff _].
  pose proof (guest_tls_post b0 [] [] [] [] h p t (mkGuestTls c') plaintext tls Hg Ht Heff) as [Hg1 Hm1].
  cbn [app] in Hg1. set (p1 := with_session p _) in *. cbn [tls_to_guest guest_plaintext].
  apply holds_bind. eapply (holds_mono _ (post b0 (mkHands [] [] plaintext []) h p1)).
  { case_test; [subst tls; by apply post_refl|by apply send_guest_post]. }
  intros p2 [Hg2 Hm2]. assert (https (p_session p2)) as Hs2.
  { apply (moved_https h p1 p2 Hm2). by apply (moved_https h p p1 Hm1). }
  apply holds_bind. eapply holds_mono; [by apply ensure_post|].
  intros [ok p3] [Hg3 Hm3].
  assert (moved h p p3) as Hm by (etrans; [exact Hm1|]; by etrans).
  destruct ok; [|by split].
  eapply holds_mono; [apply forward_payload_post|].
  - unfold payload_hands. rewrite decide_True; [done|]. by apply (moved_https h p p3).
  - intros p4. by apply post_after.
Qed.

(** *** From the upstream connection *)

Definition read_post (c : C) (events : list TcpProxyEvent) (collected : list byte)
  (r : UpstreamRead * C * list TcpProxyEvent) : Prop :=
  let '(read, c', events') := r in
  sent c' = sent c /\ events `prefix_of` events' /\
  match read with
  | Data bytes => exists more, bytes = collected ++ more /\ bytes <> [] /\
      received c' = received c ++ more
  | _ => collected = [] /\ received c' = received c
  end.

Lemma read_available_loop_spec fuel c events h max_bytes collected :
  (Z.to_nat (max_bytes - len collected) < fuel)%nat -> (collected = [] -> 0 < max_bytes) ->
  holds (read_available_loop fuel c events h max_bytes collected) (read_post c events collected).
Proof.
  revert c collected. induction fuel as [|fuel IH]; intros c collected Hf Hmax; [lia|].
  cbn [read_available_loop].
  assert (forall c' es other, sent c' = sent c -> received c' = received c ->
    events `prefix_of` es -> match other with Data _ => False | _ => True end ->
    read_post c events collected
      (if bool_decide (collected = []) then other else Data collected, c', es)) as Hstop.
  { intros c' es other Hsn Hrc He Ho. split; [done|]. split; [done|]. case_test; [by destruct other|].
    exists []. by rewrite !app_nil_r. }
  case_test; cycle 1.
  { split; [done|]. split; [done|]. exists []. rewrite !app_nil_r. split; [done|]. split; [|done].
    intros ->. specialize (Hmax eq_refl). rewrite len_nil in *. lia. }
  destruct (read c (Z.min (max_bytes - len collected) (64 * 1024))) as [[bs|e] c'] eqn:E.
  - pose proof (read_keeps_sent _ _ _ _ E) as Hsn. apply read_ok in E as [Hl Hrc]; [|lia].
    destruct bs as [|b bs]; [rewrite app_nil_r in Hrc; by apply Hstop|].
    eapply holds_mono; [apply IH|].
    + rewrite len_app, len_cons. pose proof (len_nonneg bs). lia.
    + by intros [_ Hn]%app_eq_nil.
    + intros [[r c2] es] (Hs2 & He & Hr). split; [congruence|]. split; [done|].
      destruct r; [|destruct Hr as [[_ Hn]%app_eq_nil _]; done..].
      destruct Hr as (more & -> & Hne & Hr). exists ((b :: bs) ++ more).
      by rewrite Hr, Hrc, !(assoc_L (++)).
  - pose proof (read_keeps_sent _ _ _ _ E) as Hsn. apply read_err in E.
    case_test; apply Hstop; try done. by apply prefix_app_r.
Qed.

Lemma read_upstream_spec c events h max_bytes :
  holds (read_available c events h max_bytes) (read_post c events []).
Proof. unfold read_available. apply read_available_loop_spec; [rewrite len_nil; lia|lia]. Qed.

Lemma relay_post b0 h p now w bytes :
  good b0 (if decide (https (p_session p)) then empty_handed else mkHands bytes [] [] []) h p ->
  holds (relay_upstream p h now w bytes) (post b0 empty_handed h p).
Proof.
  intros Hg. unfold relay_upstream.
  destruct (bool_decide_reflect (action (decision (p_session p)) = InterceptHttps)) as [Hs|Hs]; cycle 1.
  { rewrite decide_False in Hg by done. by apply send_guest_post. }
  rewrite decide_True in Hg by done.
  destruct (upstream_tls (p_session p)) as [u|] eqn:Hu; [|apply tls_failed_post', Hg].
  unfold read_upstream_tls. apply holds_bind, holds_bind.
  eapply holds_mono; [apply feed_spec|]. intros [[[plaintext tls]|e] c'] Hr; cbn [holds exec_bind result_bind].
  2: { destruct (upstream_tls_alive h p u (mkUpstreamTls c') (proj1 Hg) Hu) as [Ha1 Hm1].
       eapply holds_mono; [by apply tls_failed_post'|]. intros p2. by apply post_after. }
  destruct (Hr plaintext tls eq_refl) as [Heff _].
  pose proof (upstream_tls_post b0 [] [] [] [] h p u (mkUpstreamTls c') plaintext tls Hg Hu Heff)
    as [Hg1 Hm1]. cbn [app tls_to_upstream upstream_plaintext] in *. set (p1 := with_session p _) in *.
  apply holds_bind. eapply holds_mono; [apply write_or_buffer_spec, Hg1|].
  intros [ok p2] Hwr. pose proof (written_post _ _ _ _ _ _ _ _ _ Hg1 Hwr) as [Hg2 Hm2].
  assert (moved h p p2) as Hm by (by etrans). clear Hg1 Hm1 Hm2.
  destruct ok; cbn [negb]; [|split; [|done]; eapply good_failed; [done|apply Hwr]].
  set (p3 := if upstream_tls_ready (p_session p2) then _ else _).
  assert (post b0 (mkHands [] [] [] plaintext) h p2 p3) as [Hg3 Hm3].
  { subst p3. destruct (upstream_tls_ready (p_session p2)); [by apply post_refl|].
    apply (post_session b0 (mkHands [] [] [] plaintext)); [done|done| |done|done].
    destruct (al_shaped _ _ (proj1 Hg2)). by split. }
  apply holds_bind. eapply (holds_mono _ (post b0 (mkHands [] [] [] plaintext) h p3)).
  { destruct w; [|by apply post_refl].
    eapply post_bind; [by apply flush_https_post|]. intros. by apply drain_upstream_post. }
  intros p4 [Hg4 Hm4]. assert (moved h p p4) as Hmv by (etrans; [exact Hm|]; by etrans).
  case_test; [subst plaintext; by split|].
  destruct (guest_tls (p_session p4)) as [t|] eqn:Ht; cycle 1.
  { exfalso. assert (is_Some (guest_tls (p_session p4))) as Hx; [|rewrite Ht in Hx; by destruct Hx].
    apply (sh_guest_tls _ (al_shaped _ _ (proj1 Hg4))). by apply (moved_https h p p4 Hmv). }
  unfold write_guest_plaintext. apply holds_bind, holds_bind.
  eapply holds_mono; [apply write_plaintext_spec|]. intros [[out|e] c5] Hw; cbn [holds exec_bind].
  - destruct (Hw out eq_refl) as [Heff5 _]. rewrite <-(app_nil_r plaintext) in Hg4.
    pose proof (guest_tls_post b0 [] plaintext [] [] h p4 t (mkGuestTls c5) [] out Hg4 Ht Heff5)
      as [Hg5 Hm5]. cbn [app] in Hg5.
    eapply holds_mono; [by apply send_guest_post|].
    intros p6 Hp6. eapply post_after; [|exact Hp6]. by etrans.
  - destruct (guest_tls_alive h p4 t (mkGuestTls c5) (proj1 Hg4) Ht) as [Ha5 Hm5].
    eapply holds_mono; [by apply tls_failed_post'|]. intros p6 Hp6.
    eapply post_after; [|exact Hp6]. by etrans.
Qed.

(** *** A session, from start to end of its turn *)

Lemma flush_all_post b0 h p now (w : bool) :
  good b0 empty_handed h p ->
  holds (if w then
           let! p := flush_pending_https_plaintext p h now in
           let! p := drain_upstream_tls_writes p h now in
           flush_pending_upstream_bytes p h now
         else Ret p) (post b0 empty_handed h p).
Proof.
  intros Hg. destruct w; [|by apply post_refl].
  eapply post_bind; [by apply flush_https_post|]. intros p1 Hg1.
  eapply post_bind; [by apply drain_upstream_post|]. intros p2 Hg2. by apply flush_upstream_post.
Qed.

Lemma read_turn_post b0 h p now (w : bool) :
  good b0 empty_handed h p -> pending_guest_bytes (p_session p) = [] ->
  holds (let s := p_session p in
         let! (r, c, events) :=
           read_available (connection s) (p_events p) h (limit_guest_bytes (session_limits s)) in
         let p := mkPump (set_connection s c) (p_gateway p) events in
         match r with
         | Data bytes => let! p := relay_upstream p h now w bytes in Ret (false, p)
         | UpstreamWouldBlock => Ret (false, p)
         | UpstreamClosed | UpstreamFailed =>
             let! (_, g) := close_tcp_session (p_gateway p) h now in
             Ret (true, with_gateway p g)
         end)
    (fun '(removed, p') => post b0 empty_handed h p p' /\
       (removed = true -> pending_guest_bytes (p_session p') = [])).
Proof.
  intros Hg Hpg. cbv zeta. apply holds_bind. eapply holds_mono; [apply read_upstream_spec|].
  intros [[r c] events] (Hsn & He & Hr). pose proof (proj1 Hg) as [Hw Hh Hs].
  assert (shaped (set_connection (p_session p) c)) as Hs' by (destruct Hs; by split).
  assert (received c = received (connection (p_session p)) ->
    post b0 empty_handed h p (mkPump (set_connection (p_session p) c) (p_gateway p) events)) as Hsame.
  { intros Hrc. apply (post_session b0 empty_handed); [done..|]. intros Hf.
    apply (flow_read b0 empty_handed _ h _ c []); [done|by rewrite app_nil_r|done|].
    by destruct (decide _). }
  assert (received c = received (connection (p_session p)) ->
    holds (let! (_, g) := close_tcp_session (p_gateway p) h now in
           Ret (true, with_gateway (mkPump (set_connection (p_session p) c) (p_gateway p) events) g))
      (fun '(removed, p') => post b0 empty_handed h p p' /\
         (removed = true -> pending_guest_bytes (p_session p') = []))) as Hclose.
  { intros Hrc. destruct (Hsame Hrc) as [Hg1 Hm1]. destruct (session_streams h p) as (e & d & Hst);
      [apply Hg|]. apply holds_bind. eapply holds_mono; [by eapply close_holds|].
    intros [fs g'] Hse. cbn [snd] in Hse. split; [|done]. eapply post_after; [exact Hm1|].
    eapply (post_effect b0 empty_handed _ h _ _ g'); [done|exact Hse|done|done|done|].
    intros Hf. eapply (flow_recv b0 empty_handed _ h _ g' e d []); [done|done| |by destruct (decide _)].
    by rewrite app_nil_r. }
  destruct r as [bytes| | |]; cbn [p_gateway].
  - destruct Hr as (more & -> & _ & Hrc). cbn [app].
    assert (post b0 (if decide (https (p_session p)) then empty_handed else mkHands more [] [] []) h p
      (mkPump (set_connection (p_session p) c) (p_gateway p) events)) as [Hg1 Hm1].
    { apply (post_session b0 empty_handed); [done..|]. intros Hf.
      apply (flow_read b0 empty_handed _ h _ c more); [done..|]. by destruct (decide _). }
    apply holds_bind. eapply holds_mono; [apply relay_post; exact Hg1|].
    intros p2 Hp2. split; [by eapply post_after|done].
  - destruct Hr as [_ Hr]. split; [by apply Hsame|done].
  - apply Hclose, Hr.
  - apply Hclose, Hr.
Qed.

(** The upstream side leaves the bytes for the guest alone. *)
Definition pending_for_guest p : list byte := pending_guest_bytes (p_session p).

Lemma write_upstream_keeps_guest p h now bytes o p' :
  write_pending_upstream_bytes_best_effort p h now bytes = Ret (o, p') ->
  pending_for_guest p' = pending_for_guest p.
Proof.
  unfold write_pending_upstream_bytes_best_effort, push_buffer_limit_exceeded. case_test.
  - destruct (close_tcp_session _ _ _) as [[? ?]|]; [|done]. by intros [= _ <-].
  - destruct (StreamBuffer.append_and_write_pending_best_effort _ _ _) as [[[[n|e] c] pd]|]; [..|done];
      by intros [= _ <-].
Qed.

Lemma tls_failed_keeps_guest p h now e p' :
  push_tls_failed p h now e = Ret p' -> pending_for_guest p' = pending_for_guest p.
Proof.
  unfold push_tls_failed, tls_mitm_failed_event.
  destruct (close_tcp_session _ _ _) as [[? ?]|]; [|done]. by intros [= <-].
Qed.

Lemma write_https_keeps_guest p h now bytes p' :
  write_https_plaintext_upstream p h now bytes = Ret p' -> pending_for_guest p' = pending_for_guest p.
Proof.
  unfold write_https_plaintext_upstream. destruct (upstream_tls (p_session p)) as [u|].
  - destruct (write_upstream_plaintext u bytes) as [[[out|e] u']|]; cbn [exec_bind]; [| |done].
    + destruct (write_pending_upstream_bytes_best_effort _ _ _ _) as [[o p1]|] eqn:E; [|done].
      apply write_upstream_keeps_guest in E. cbn [exec_bind].
      destruct o; intros [= <-]; [|done]. unfold push_tls_upstream. by case_test.
    + by intros E%tls_failed_keeps_guest.
  - unfold buffer_pending_upstream_plaintext, push_buffer_limit_exceeded.
    destruct (StreamBuffer.extend_pending_buffer _ _ _) as [[?|?] ?]; cbn [exec_bind].
    + by intros [= <-].
    + destruct (close_tcp_session _ _ _) as [[? ?]|]; [|done]. by intros [= <-].
Qed.

Lemma flush_https_keeps_guest p h now p' :
  flush_pending_https_plaintext p h now = Ret p' -> pending_for_guest p' = pending_for_guest p.
Proof.
  unfold flush_pending_https_plaintext. repeat case_test; try by intros [= <-].
  by intros E%write_https_keeps_guest.
Qed.

Lemma drain_upstream_keeps_guest p h now p' :
  drain_upstream_tls_writes p h now = Ret p' -> pending_for_guest p' = pending_for_guest p.
Proof.
  unfold drain_upstream_tls_writes. case_test; [by intros [= <-]|].
  destruct (upstream_tls (p_session p)) as [u|]; [|by intros [= <-]].
  destruct (drain_tls_to_upstream u) as [[[out|e] u']|]; cbn [exec_bind]; [| |done].
  - case_test; [by intros [= <-]|].
    destruct (write_pending_upstream_bytes_best_effort _ _ _ _) as [[o p1]|] eqn:E; [|done].
    apply write_upstream_keeps_guest in E. cbn [exec_bind].
    destruct o; intros [= <-]; [|done]. unfold push_tls_upstream. by case_test.
  - by intros E%tls_failed_keeps_guest.
Qed.

Lemma flush_upstream_keeps_guest p h now p' :
  flush_pending_upstream_bytes p h now = Ret p' -> pending_for_guest p' = pending_for_guest p.
Proof.
  unfold flush_pending_upstream_bytes. case_test; [by intros [= <-]|].
  destruct (StreamBuffer.write_pending_best_effort _ _ _) as [[[r c] pending]|]; [|done].
  cbn [exec_bind]. case_test.
  - intros E%flush_https_keeps_guest. rewrite E. destruct r; [by case_test|done].
  - intros [= <-]. destruct r; [by case_test|done].
Qed.

Lemma flush_all_keeps_guest p h now (w : bool) :
  holds (if w then
           let! p := flush_pending_https_plaintext p h now in
           let! p := drain_upstream_tls_writes p h now in
           flush_pending_upstream_bytes p h now
         else Ret p) (fun _ => True) ->
  holds (if w then
           let! p := flush_pending_https_plaintext p h now in
           let! p := drain_upstream_tls_writes p h now in
           flush_pending_upstream_bytes p h now
         else Ret p) (fun p' => pending_for_guest p' = pending_for_guest p).
Proof.
  destruct w; [|done].
  destruct (flush_pending_https_plaintext p h now) as [p1|] eqn:E1; [|done].
  apply flush_https_keeps_guest in E1. cbn [exec_bind].
  destruct (drain_upstream_tls_writes p1 h now) as [p2|] eqn:E2; [|done].
  apply drain_upstream_keeps_guest in E2. cbn [exec_bind].
  destruct (flush_pending_upstream_bytes p2 h now) as [p3|] eqn:E3; [|done].
  apply flush_upstream_keeps_guest in E3. intros _. cbn. congruence.
Qed.

Lemma holds_and {A} (m : exec A) (P Q : A -> Prop) :
  holds m P -> holds m Q -> holds m (fun a => P a /\ Q a).
Proof. by destruct m. Qed.

Lemma serve_session_post b0 h p config rd now :
  good b0 empty_handed h p ->
  holds (serve_session config rd p h now) (fun '(removed, p') => post b0 empty_handed h p p' /\
    (removed = true -> pending_guest_bytes (p_session p') = [])).
Proof.
  intros Hg0. unfold serve_session.
  apply holds_bind. eapply holds_mono; [by apply flush_guest_post|]. intros p1 [Hg1 Hm1].
  case_test; [by split|].
  destruct (session_streams h p1) as (e & d & Hst); [apply Hg1|]. pose proof (proj1 Hg1) as [Hw Hh Hs].
  apply holds_bind. eapply holds_mono; [by eapply recv_tcp_session_holds|].
  intros [r g'] (bs & Er & Hse). cbn [fst snd] in *. subst r.
  assert (post b0 (if decide (https (p_session p1)) then empty_handed else mkHands [] bs [] []) h p1
    (with_gateway p1 g')) as [Hg2 Hm2].
  { eapply (post_effect b0 empty_handed _ h p1 _ g' (p_session p1)); [done|exact Hse|done|done|done|].
    intros Hf. eapply flow_recv; [done..|]. by destruct (decide _). }
  apply holds_bind. eapply (holds_mono _ (post b0 empty_handed h (with_gateway p1 g'))).
  { case_test; [|by apply process_guest_payload_post].
    subst bs. apply post_refl. by destruct (decide _). }
  intros p3 [Hg3 Hm3]. apply holds_bind. eapply holds_mono; [by apply flush_guest_post|].
  intros p4 [Hg4 Hm4].
  assert (moved h p p4) as Hm by (etrans; [exact Hm1|]; etrans; [exact Hm2|]; by etrans).
  case_test; [by split|].
  pose proof (flush_all_post b0 h p4 now (writable rd h) Hg4) as Hfl.
  apply holds_bind. eapply holds_mono; [apply holds_and; [exact Hfl|apply flush_all_keeps_guest]|].
  { eapply holds_mono; [exact Hfl|done]. }
  intros p5 [[Hg5 Hm5] Hk]. assert (pending_guest_bytes (p_session p5) = []) as Hpg.
  { unfold pending_for_guest in Hk. congruence. }
  case_test; [|split; [|done]; split; [done|by etrans]].
  eapply holds_mono; [by apply read_turn_post|]. intros [removed p6] [Hp6 Hrm].
  split; [|done]. eapply post_after; [|exact Hp6]. by etrans.
Qed.

(** ** A pass *)

(** The sessions are well formed and were decided by the policy of the gateway. *)
Definition proxy_ok (b : TcpProxyBridge) g : Prop :=
  limits_ok (buffer_limits b) /\
  forall h s, sessions b !! h = Some s -> shaped s /\
    decision s = evaluate_tcp_destination (policy g) (destination s) /\
    action (decision s) <> TcpDeny.

(** A connection attempt: the policy allows the destination, which is the local
    endpoint of an established session of the gateway. *)
Definition dial (pol : Policy.VmnetPolicy) (active : list GuestTcpSessionRef) (k k' : K) : Prop :=
  exists a d, a ∈ active /\ session_state (ref_session a) = State.Established /\
    destination_from_session (ref_session a) = Some d /\
    action (evaluate_tcp_destination pol d) <> TcpDeny /\ k' = (connect k d).2.

(** What a turn of the session of [h] does to its bytes. A session that was there
    keeps its ledger or has failed; one that is gone had nothing left for the
    guest. A session that is new starts with the connection that was dialled. *)
Definition turn (b : TcpProxyBridge) g (h : SocketHandle) (b' : TcpProxyBridge) g'
  (events : list TcpProxyEvent) : Prop :=
  (forall b0 s, sessions b !! h = Some s -> flow (Some b0) empty_handed g h s ->
     failed h events \/
     exists s', same_terms s s' /\ flow (Some b0) empty_handed g' h s' /\
       match sessions b' !! h with Some s1 => s1 = s' | None => pending_guest_bytes s' = [] end) /\
  (forall s', sessions b !! h = None -> sessions b' !! h = Some s' ->
     failed h events \/
     exists k c e d, (connect k (destination s')).1 = Ok c /\
       streams (tcp_core g) h = Some (e, d) /\
       flow (Some (mkBase e d (received c) (sent c))) empty_handed g' h s').

(** What a pass over some sessions may change. *)
Record passed (active : list GuestTcpSessionRef) (b : TcpProxyBridge) g
  (events : list TcpProxyEvent) (b' : TcpProxyBridge) g' (events' : list TcpProxyEvent) : Prop := {
  ps_wf : gateway_wf g';
  ps_setup : same_setup g g';
  ps_handles : handles (tcp_core g') = handles (tcp_core g);
  ps_slots : host_connections (tcp_core g') = host_connections (tcp_core g);
  ps_streams h : h ∉ map ref_handle active -> streams (tcp_core g') h = streams (tcp_core g) h;
  ps_ok : proxy_ok b' g';
  ps_other h : h ∉ map ref_handle active -> sessions b' !! h = sessions b !! h;
  ps_config : tls_server_config b' = tls_server_config b /\
    tls_client_config b' = tls_client_config b /\ buffer_limits b' = buffer_limits b;
  ps_pending : pending_connects b' ⊆ pending_connects b;
  ps_events : events `prefix_of` events';
  ps_dials : rtc (dial (policy g) active) (connector b) (connector b');
  ps_turns h : turn b g h b' g' events'
}.

Lemma flow_streams b0 hd g g' h s :
  streams (tcp_core g') h = streams (tcp_core g) h -> flow b0 hd g h s -> flow b0 hd g' h s.
Proof. intros Hs. unfold flow, flow_since. by rewrite Hs. Qed.

Lemma turn_same b g h b' g' events :
  sessions b' !! h = sessions b !! h -> streams (tcp_core g') h = streams (tcp_core g) h ->
  turn b g h b' g' events.
Proof.
  intros Hs Hst. split.
  - intros b0 s Es Hf. right. exists s. rewrite Hs, Es. split; [done|].
    split; [by eapply flow_streams|done].
  - intros s' En Es. congruence.
Qed.

Lemma turn_before b g h b1 g1 b2 g2 events :
  sessions b1 !! h = sessions b !! h -> streams (tcp_core g1) h = streams (tcp_core g) h ->
  turn b1 g1 h b2 g2 events -> turn b g h b2 g2 events.
Proof.
  intros Hs Hst [T1 T2]. split.
  - intros b0 s Es Hf. apply (T1 b0 s); [congruence|by eapply flow_streams].
  - intros s' En Es. rewrite <-Hs in En. rewrite <-Hst. by apply T2.
Qed.

Lemma turn_after b g h b1 g1 b2 g2 e1 e2 :
  sessions b2 !! h = sessions b1 !! h -> streams (tcp_core g2) h = streams (tcp_core g1) h ->
  e1 `prefix_of` e2 -> turn b g h b1 g1 e1 -> turn b g h b2 g2 e2.
Proof.
  intros Hs Hst He [T1 T2]. split.
  - intros b0 s Es Hf. destruct (T1 b0 s Es Hf) as [?|(s' & Hsame & Hf' & Hm)];
      [left; by eapply failed_prefix|].
    right. exists s'. rewrite Hs. split; [done|]. split; [by eapply flow_streams|done].
  - intros s' En Es. rewrite Hs in Es. destruct (T2 s' En Es) as [?|(k & c & e & d & Hc & Hst' & Hf)];
      [left; by eapply failed_prefix|].
    right. exists k, c, e, d. split; [done|]. split; [done|]. by eapply flow_streams.
Qed.

Lemma passed_refl active b g events evs :
  gateway_wf g -> proxy_ok b g -> events `prefix_of` evs -> passed active b g events b g evs.
Proof. intros. split; try done. intros h. by apply turn_same. Qed.

Lemma dial_mono pol active active' k k' :
  (forall a, a ∈ active -> a ∈ active') -> rtc (dial pol active) k k' -> rtc (dial pol active') k k'.
Proof.
  intros Ha. induction 1 as [|k1 k2 k3 (a & d & Hin & Hrest) _ IH]; [done|].
  eapply rtc_l; [|exact IH]. exists a, d. split; [by apply Ha|done].
Qed.

(** Two passes over sessions of different handles. *)
Lemma passed_trans a rest b g events b1 g1 e1 b2 g2 e2 :
  ref_handle a ∉ map ref_handle rest ->
  passed [a] b g events b1 g1 e1 -> passed rest b1 g1 e1 b2 g2 e2 ->
  passed (a :: rest) b g events b2 g2 e2.
Proof.
  intros Hni P1 P2. destruct P1 as [Hw1 (Hs1 & Hs1' & Hs1'') Hh1 Hc1 Hst1 Hok1 Ho1 (Hcf1 & Hcf1' & Hcf1'') Hp1 He1 Hd1 Ht1],
    P2 as [Hw2 (Hs2 & Hs2' & Hs2'') Hh2 Hc2 Hst2 Hok2 Ho2 (Hcf2 & Hcf2' & Hcf2'') Hp2 He2 Hd2 Ht2].
  assert (forall h, h ∉ map ref_handle (a :: rest) ->
    h ∉ map ref_handle [a] /\ h ∉ map ref_handle rest) as Hsplit.
  { intros h [Hh Hr]%not_elem_of_cons. split; [|done]. cbn. set_solver. }
  split.
  - done.
  - split_and!; congruence.
  - congruence.
  - congruence.
  - intros h [Ha Hr]%Hsplit. by rewrite Hst2, Hst1.
  - done.
  - intros h [Ha Hr]%Hsplit. by rewrite Ho2, Ho1.
  - split_and!; congruence.
  - by etrans.
  - by etrans.
  - etrans; [eapply dial_mono; [|exact Hd1]; set_solver|].
    rewrite Hs1 in Hd2. eapply dial_mono; [|exact Hd2]. set_solver.
  - intros h. destruct (decide (h = ref_handle a)) as [->|Hne].
    + eapply turn_after; [by apply Ho2|by apply Hst2|exact He2|apply Ht1].
    + assert (h ∉ map ref_handle [a]) by (cbn; set_solver).
      eapply turn_before; [by apply Ho1|by apply Hst1|apply Ht2].
Qed.

(** The turn of a session that is in the map. *)
Lemma visit_passed rd b g events a now s :
  gateway_wf g -> proxy_ok b g -> ref_handle a ∈ handles (tcp_core g) ->
  sessions b !! ref_handle a = Some s ->
  holds (visit_session rd b g events (ref_handle a) now)
    (fun '(b', g', events') => passed [a] b g events b' g' events').
Proof.
  set (h := ref_handle a). intros Hw Hok Hh Es. unfold visit_session. rewrite Es.
  destruct Hok as [Hlim Hss]. destruct (Hss h s Es) as (Hsh & Hdec & Hact).
  assert (alive h (mkPump s g events)) as Ha by done.
  assert (forall b0, (failed h events \/ flow b0 empty_handed g h s) ->
    holds (serve_session (tls_client_config b) rd (mkPump s g events) h now) (fun '(removed, p') =>
      post b0 empty_handed h (mkPump s g events) p' /\
      (removed = true -> pending_guest_bytes (p_session p') = []))) as Hserve.
  { intros b0 Hf. by apply serve_session_post. }
  pose proof (Hserve None ltac:(by right)) as Hret.
  apply holds_ret in Hret as ([removed p'] & Erun & [[[Hw' Hh' Hsh'] _] Hm'] & Hrm).
  destruct Hm' as [Hset Hhs Hslots Hst (Ht1 & Ht2 & Ht3) Hev].
  rewrite Erun. cbn [exec_bind holds]. cbn [p_gateway p_session p_events] in *.
  assert (forall h', h' ∉ map ref_handle [a] -> h' <> h) as Hne by (cbn; set_solver).
  split; [done|done|done|done| | | |done|done|done|done|].
  - intros h' Hh2. by apply Hst, Hne.
  - split; [done|]. intros h' s1. cbn. destruct Hset as (-> & _). destruct removed.
    + rewrite lookup_delete_Some. intros [_ E1]. by apply Hss in E1.
    + rewrite lookup_insert_Some. intros [[<- <-]|[_ E1]]; [|by apply Hss in E1].
      by rewrite Ht1, Ht2.
  - intros h' Hh2%Hne. cbn. destruct removed; [by rewrite lookup_delete_ne|by rewrite lookup_insert_ne].
  - intros h'. destruct (decide (h' = h)) as [->|Hn]; cycle 1.
    { apply turn_same; [|by apply Hst]. cbn.
      destruct removed; [by rewrite lookup_delete_ne|by rewrite lookup_insert_ne]. }
    split; [|congruence]. intros b0 s1 Es1 Hf. rewrite Es in Es1. injection Es1 as <-.
    pose proof (Hserve (Some b0) ltac:(by right)) as Hx. rewrite Erun in Hx.
    destruct Hx as [[[_ [Hx|Hx]] _] _]; [by left|right].
    exists (p_session p'). split; [done|]. split; [done|]. cbn. destruct removed; [rewrite lookup_delete_eq; by apply Hrm|by rewrite lookup_insert_eq].
Qed.

Lemma plan_pending (b : TcpProxyBridge) h d pol pending :
  plan_connect b h d pol = PlanPending pending ->
  pending_handle pending = h /\ pending_destination pending = d /\
  pending_decision pending = evaluate_tcp_destination pol d /\
  action (pending_decision pending) <> TcpDeny /\
  match pending_guest_tls pending with
  | Some t => action (pending_decision pending) = InterceptHttps /\ fresh_tls (server t)
  | None => action (pending_decision pending) <> InterceptHttps
  end.
Proof.
  unfold plan_connect. case_test; [done|]. case_test; [|by intros [= <-]].
  destruct (tls_server_config b) as [config|]; [|done]. unfold GuestTlsSession_new.
  destruct (ServerConnection_new config) as [c|] eqn:Ec; [|done]. intros [= <-].
  apply server_new_fresh in Ec. done.
Qed.

(** The session [complete_connect] starts. *)
Definition new_session (pending : TcpProxyPendingConnect) (c : C) (limits : TcpProxyBufferLimits)
  : UpstreamSession :=
  mkUpstream (pending_destination pending) (pending_decision pending) c []
    (pending_guest_tls pending) None false [] [] [] limits.

Lemma new_session_ok (b : TcpProxyBridge) h d pol pending c limits :
  plan_connect b h d pol = PlanPending pending -> limits_ok limits ->
  shaped (new_session pending c limits).
Proof.
  intros (_ & _ & _ & _ & Ht)%plan_pending Hl. pose proof Hl as (? & ? & ? & ?).
  split; cbn; rewrite ?len_nil; try lia; [done| |].
  - unfold https. cbn. destruct (pending_guest_tls pending); [naive_solver|].
    split; [by intros []|done].
  - by intros [].
Qed.

Lemma new_session_flow (b : TcpProxyBridge) h d pol pending c limits g e dl :
  plan_connect b h d pol = PlanPending pending -> streams (tcp_core g) h = Some (e, dl) ->
  flow (Some (mkBase e dl (received c) (sent c))) empty_handed g h (new_session pending c limits).
Proof.
  intros (_ & _ & _ & _ & Ht)%plan_pending Hst. exists [], [], [], []. cbn.
  rewrite !app_nil_r. split; [done|]. split; [done|]. split; [done|].
  unfold ledger, guest_view, upstream_view, https. cbn.
  destruct (pending_guest_tls pending) as [t|]; [|by destruct (decide _)].
  destruct Ht as [_ (Fd & -> & -> & ->)]. by destruct (decide _).
Qed.

Lemma process_active_passed rd b g events a now :
  gateway_wf g -> proxy_ok b g -> ref_handle a ∈ handles (tcp_core g) ->
  holds (process_active rd b g events a now)
    (fun '(b', g', events') => passed [a] b g events b' g' events').
Proof.
  set (h := ref_handle a). intros Hw Hok Hh. unfold process_active. fold h.
  case_test; [by apply passed_refl|]. rename Etest into Hest.
  destruct (destination_from_session (ref_session a)) as [d|] eqn:Ed; [|by apply passed_refl].
  destruct (sessions b !! h) as [s|] eqn:Es; [by eapply visit_passed|].
  case_test; [by apply passed_refl|].
  destruct (plan_connect b h d (policy g)) as [pending|event] eqn:Epl;
    [|apply passed_refl; [done..|by apply prefix_app_r]].
  destruct (plan_pending _ _ _ _ _ Epl) as (Eh & Edest & Edec & Hact & Htls).
  rewrite Edest. destruct (connect (connector b) d) as [r k] eqn:Ek.
  assert (dial (policy g) [a] (connector b) k) as Hdial.
  { exists a, d. split; [by left|]. split; [done|]. split; [done|]. by rewrite <-Edec, Ek. }
  unfold complete_connect. rewrite Eh. destruct Hok as [Hlim Hss].
  destruct (streams_handle _ h (gw_core _ Hw) Hh) as [[e dl] Hst].
  assert (forall h', h' ∉ map ref_handle [a] -> h' <> h) as Hne by (cbn; set_solver).
  destruct r as [c|err].
  - set (s := mkUpstream _ _ c _ _ _ _ _ _ _ _).
    set (b1 := with_sessions _ _). cbn [exec_bind].
    assert (sessions b1 !! h = Some s) as Es1 by (cbn; by rewrite lookup_insert_eq).
    assert (proxy_ok b1 g) as Hok1.
    { split; [done|]. intros h' s'. cbn. rewrite lookup_insert_Some.
      intros [[<- <-]|[_ Es']]; [|by apply Hss in Es'].
      split; [by eapply (new_session_ok b h d (policy g) pending c)|]. cbn. rewrite Edest. by split. }
    eapply holds_mono; [by eapply (visit_passed rd b1 g _ a now s)|].
    intros [[b' g'] events'] [Hw' Hset Hhs Hc Hst' Hok' Ho Hcf Hp He Hd Ht].
    split; [done..|exact Hst'|done| |exact Hcf| | | |].
    + intros h' Hh'. rewrite Ho by done. cbn. rewrite lookup_insert_ne; [done|]. apply not_eq_sym. by apply Hne.
    + etrans; [exact Hp|]. cbn. set_solver.
    + etrans; [|exact He]. by apply prefix_app_r.
    + eapply rtc_l; [exact Hdial|exact Hd].
    + intros h'. destruct (decide (h' = h)) as [->|Hn]; cycle 1.
      { assert (h' ∉ map ref_handle [a]) as Hh' by (cbn; set_solver).
        apply turn_same; [|by apply Hst']. rewrite Ho by done. cbn. by rewrite lookup_insert_ne. }
      split; [congruence|]. intros s' _ Es'. destruct (Ht h) as [T1 _].
      destruct (T1 _ s Es1 (new_session_flow b h d (policy g) pending c _ g e dl Epl Hst))
        as [?|(s2 & (Hsd & _ & _) & Hf & Hm)]; [by left|right].
      rewrite Es' in Hm. subst s2. exists (connector b), c, e, dl. rewrite Hsd. cbn.
      by rewrite Edest, Ek.
  - apply holds_bind, holds_bind. eapply holds_mono; [by eapply close_holds|].
    intros [fs g'] [Hw' Hset Hhs Hc Hst']. cbn [snd] in *. cbn [holds exec_bind].
    assert (forall h', streams (tcp_core g') h' = streams (tcp_core g) h') as Hsame.
    { intros h'. rewrite Hst'. by case_decide; subst. }
    split; [done..| | | |done| | | |].
    + intros h' _. apply Hsame.
    + split; [done|]. intros h' s'. cbn. destruct Hset as (-> & _). apply Hss.
    + done.
    + cbn. set_solver.
    + by apply prefix_app_r.
    + by apply rtc_once.
    + intros h'. by apply turn_same.
Qed.

Lemma process_all_passed rd active b g events now :
  gateway_wf g -> proxy_ok b g -> NoDup (map ref_handle active) ->
  (forall a, a ∈ active -> ref_handle a ∈ handles (tcp_core g)) ->
  holds (process_all rd active now b g events)
    (fun '(b', g', events') => passed active b g events b' g' events').
Proof.
  revert b g events. induction active as [|a rest IH]; intros b g events Hw Hok Hnd Hin; cbn [process_all].
  { by apply passed_refl. }
  apply NoDup_cons in Hnd as [Hni Hnd]. apply holds_bind.
  eapply holds_mono; [apply process_active_passed; [done|done|apply Hin; by left]|].
  intros [[b1 g1] e1] P1. eapply holds_mono; [apply IH; [apply P1|apply P1|done|]|].
  { intros a' Ha'. rewrite (ps_handles _ _ _ _ _ _ _ P1). apply Hin. by right. }
  intros [[b2 g2] e2] P2. by eapply passed_trans.
Qed.

Lemma active_sessions_ret g : gateway_wf g ->
  exists refs, active_tcp_sessions g = Ret refs /\ NoDup (map ref_handle refs) /\
    forall a, a ∈ refs -> ref_handle a ∈ map ls_handle (listeners (tcp_core g)).
Proof.
  intros Hw. unfold active_tcp_sessions, active_sessions.
  pose proof (wf_nodup _ (gw_core _ Hw)) as Hnd. unfold handles in Hnd.
  apply NoDup_app in Hnd as (Hnd & _ & _).
  destruct (returns_inv (session_refs (tcp_core g) (map ls_handle (listeners (tcp_core g)))))
    as [refs E].
  { apply session_refs_ret; [apply Hw|]. intros h Hh. apply elem_of_app. by left. }
  exists refs. split; [done|]. split; [by eapply session_refs_nodup|].
  intros a Ha. by eapply session_refs_spec.
Qed.

Lemma listener_handles g (active : list GuestTcpSessionRef) :
  (forall a, a ∈ active -> ref_handle a ∈ map ls_handle (listeners (tcp_core g))) ->
  forall a, a ∈ active -> ref_handle a ∈ handles (tcp_core g).
Proof. intros Hin a Ha. apply elem_of_app. left. by apply Hin. Qed.

Lemma elem_of_established active h :
  h ∈ established active <->
  exists a, a ∈ active /\ ref_handle a = h /\ session_state (ref_session a) = State.Established.
Proof.
  unfold established. rewrite elem_of_list_to_set. split.
  - intros (a & -> & Ha)%list_elem_of_fmap_1. apply list_elem_of_filter in Ha as [? ?]. by exists a.
  - intros (a & Ha & <- & He). apply list_elem_of_fmap_2, list_elem_of_filter. done.
Qed.

(** A pass: it returns, keeps the invariant, and gives every session its turn;
    afterwards only established sessions are left. *)
Lemma pass_spec b g now rd :
  gateway_wf g -> proxy_ok b g ->
  exists active events b1 b' g', active_tcp_sessions g = Ret active /\
    process_gateway_with_readiness b g now rd = Ret (events, b', g') /\
    passed active (with_pending b (pending_connects b ∩ established active)) g [] b1 g' events /\
    b' = with_sessions b1 (filter (fun hs => hs.1 ∈ established active) (sessions b1)) /\
    proxy_ok b' g'.
Proof.
  intros Hw Hok. destruct (active_sessions_ret g Hw) as (active & Ea & Hnd & Hin).
  unfold process_gateway_with_readiness. rewrite Ea. cbn [exec_bind].
  set (b0 := with_pending b (pending_connects b ∩ established active)).
  assert (proxy_ok b0 g) as Hok0 by done.
  pose proof (process_all_passed rd active b0 g [] now Hw Hok0 Hnd (listener_handles g active Hin)) as Hp.
  apply holds_ret in Hp as ([[b1 g'] events] & -> & P). cbn [exec_bind].
  eexists active, events, b1, _, g'. split; [done|]. split; [done|]. split; [done|]. split; [done|].
  destruct (ps_ok _ _ _ _ _ _ _ P) as [Hlim Hss]. split; [done|]. intros h s. cbn.
  rewrite map_lookup_filter_Some. intros [Es _]. by apply (Hss h).
Qed.

Lemma filtered_session (b : TcpProxyBridge) (es : gset SocketHandle) h :
  sessions (with_sessions b (filter (fun hs => hs.1 ∈ es) (sessions b))) !! h =
  if decide (h ∈ es) then sessions b !! h else None.
Proof.
  cbn. destruct (sessions b !! h) as [s|] eqn:E; destruct (decide (h ∈ es)) as [Hi|Hi].
  - by apply map_lookup_filter_Some.
  - apply map_lookup_filter_None. right. intros s' _. done.
  - apply map_lookup_filter_None. by left.
  - apply map_lookup_filter_None. by left.
Qed.

(** ** Histories of the proxy *)

(** The proxy and the gateway as the event loop drives them: any operation of the
    gateway, passes, and connections that are planned, marked as pending and
    completed later with whatever a service task reports. *)
Inductive proxy_step : TcpProxyBridge * VmnetGateway -> TcpProxyBridge * VmnetGateway -> Prop :=
| px_gateway b g g' : gateway_step exchange g g' -> proxy_step (b, g) (b, g')
| px_pass b g now rd events b' g' :
    process_gateway_with_readiness b g now rd = Ret (events, b', g') ->
    proxy_step (b, g) (b', g')
| px_mark b g h : proxy_step (b, g) (mark_connect_pending b h, g)
| px_complete b g h d pending r now events done b' g' events' :
    plan_connect b h d (policy g) = PlanPending pending -> h ∈ handles (tcp_core g) ->
    complete_connect b g pending r now events = Ret (done, b', g', events') ->
    proxy_step (b, g) (b', g').

(** A connection attempt to a destination the policy allows. *)
Definition allowed_dial (pol : Policy.VmnetPolicy) (k k' : K) : Prop :=
  exists d, action (evaluate_tcp_destination pol d) <> TcpDeny /\ k' = (connect k d).2.

Lemma dial_allowed pol active k k' : rtc (dial pol active) k k' -> rtc (allowed_dial pol) k k'.
Proof.
  induction 1 as [|k1 k2 k3 (a & d & _ & _ & _ & Hd & Hk) _ IH]; [done|].
  eapply rtc_l; [|exact IH]. by exists d.
Qed.

Definition proxy_system_ok (pol : Policy.VmnetPolicy) (k : K) (bg : TcpProxyBridge * VmnetGateway)
  : Prop :=
  let '(b, g) := bg in
  gateway_wf g /\ policy g = pol /\ proxy_ok b g /\ rtc (allowed_dial pol) k (connector b).

(** A planned connection is completed: with a new session, or by closing the
    socket, which has to be there. *)
Lemma complete_connect_holds (b0 : TcpProxyBridge) b g h d pending r now events :
  gateway_wf g -> proxy_ok b g -> plan_connect b0 h d (policy g) = PlanPending pending ->
  (forall e, r = Err e -> h ∈ handles (tcp_core g)) ->
  holds (complete_connect b g pending r now events) (fun '(done, b', g', events') =>
    proxy_ok b' g' /\ connector b' = connector b /\ tls_server_config b' = tls_server_config b /\
    untouched g g').
Proof.
  intros Hw [Hlim Hss] Epl Hh. unfold complete_connect.
  destruct (plan_pending _ _ _ _ _ Epl) as (Eh & Edest & Edec & Hact & _). rewrite Eh.
  destruct r as [c|err].
  - split; [|by split_and!]. split; [done|].
    intros h' s'. cbn. rewrite lookup_insert_Some. intros [[<- <-]|[_ Es']]; [|by apply Hss in Es'].
    split; [by eapply (new_session_ok b0 h d (policy g) pending c)|]. cbn. rewrite Edest. by split.
  - specialize (Hh err eq_refl). apply holds_bind.
    eapply holds_mono; [by apply close_untouched|].
    intros [fs g'] Hu. destruct Hu as (Hw' & (Hp & Hset) & Hu). split; [|by split_and!].
    split; [done|]. intros h' s'. cbn in *. rewrite Hp. apply Hss.
Qed.

Lemma proxy_step_ok pol k bg bg' :
  proxy_system_ok pol k bg -> proxy_step bg bg' -> proxy_system_ok pol k bg'.
Proof.
  intros Hsys Hstep. destruct Hstep as [b g g' Hg|b g now rd events b' g' E|b g h
    |b g h d pending r now events dn b' g' events' Epl Hh E]; destruct Hsys as (Hw & Hpol & Hok & Hk).
  - apply gateway_step_kept in Hg as (Hw' & Hp & _); [|done]. split; [done|]. split; [congruence|]. split; [|done]. destruct Hok as [Hlim Hss].
    split; [done|]. intros h s. rewrite Hp. apply Hss.
  - destruct (pass_spec b g now rd Hw Hok) as (active & es & b1 & b2 & g2 & _ & E' & P & -> & Hok').
    rewrite E in E'. injection E' as -> -> ->. split; [apply P|].
    split; [by rewrite (proj1 (ps_setup _ _ _ _ _ _ _ P))|]. split; [done|].
    etrans; [exact Hk|]. pose proof (ps_dials _ _ _ _ _ _ _ P) as Hd. rewrite Hpol in Hd.
    by eapply dial_allowed.
  - by split.
  - pose proof (complete_connect_holds b b g h d pending r now events Hw Hok Epl (fun _ _ => Hh)) as Hx.
    rewrite E in Hx. destruct Hx as (? & Hc & _ & ? & (? & _) & _).
    split; [done|]. split; [congruence|]. split; [done|]. by rewrite Hc.
Qed.

(** What happens while the session of [h] stays open and no failure of it is
    announced: passes, frames of the guest, timers, and operations on other
    sessions. *)
Inductive serves (h : SocketHandle)
  : TcpProxyBridge * VmnetGateway -> TcpProxyBridge * VmnetGateway -> Prop :=
| sv_pass b g now rd events b' g' :
    process_gateway_with_readiness b g now rd = Ret (events, b', g') ->
    ~ failed h events -> is_Some (sessions b' !! h) -> serves h (b, g) (b', g')
| sv_frame b g frame now r g' :
    handle_guest_frame exchange g frame now = Ret (r, g') -> serves h (b, g) (b, g')
| sv_deferred b g frame now r g' :
    handle_guest_frame_with_deferred_dns g frame now = Ret (r, g') -> serves h (b, g) (b, g')
| sv_poll b g now r g' : poll_tcp g now = Ret (r, g') -> serves h (b, g) (b, g')
| sv_other b g h' after g' : h' <> h -> session_effect g h' after g' -> serves h (b, g) (b, g').

Definition served b0 (h : SocketHandle) (s : UpstreamSession) (bg : TcpProxyBridge * VmnetGateway)
  : Prop :=
  let '(b, g) := bg in
  gateway_wf g /\ proxy_ok b g /\
  exists s', sessions b !! h = Some s' /\ same_terms s s' /\ flow (Some b0) empty_handed g h s'.

Lemma flow_handle b0 g h s :
  gateway_wf g -> flow (Some b0) empty_handed g h s -> h ∈ handles (tcp_core g).
Proof.
  intros Hw (E & D & R & S & Hst & _). unfold streams in Hst.
  destruct (sockets (tcp_core g) !! h) as [sock|] eqn:Es; [|done].
  apply (get_inv _ h sock); [apply Hw|]. unfold get. by rewrite Es.
Qed.

Lemma served_gateway b0 h s b g g' :
  kept g g' -> (h ∈ handles (tcp_core g) -> streams (tcp_core g') h = streams (tcp_core g) h) ->
  served b0 h s (b, g) -> served b0 h s (b, g').
Proof.
  intros (Hw' & Hp & _) Hst (Hw & [Hlim Hss] & s' & Es & Ht & Hf). split; [done|]. split.
  - split; [done|]. intros h' s1. rewrite Hp. apply Hss.
  - exists s'. split; [done|]. split; [done|]. eapply flow_streams; [|exact Hf].
    apply Hst. by eapply flow_handle.
Qed.

Lemma serves_served b0 h s bg bg' : served b0 h s bg -> serves h bg bg' -> served b0 h s bg'.
Proof.
  intros Hsv Hstep. destruct Hstep as [b g now rd events b' g' E Hnf [s2 Es2]|b g frame now r g' E
    |b g frame now r g' E|b g now r g' E|b g h' after g' Hne Hse].
  - destruct Hsv as (Hw & Hok & s' & Es & Ht & Hf).
    destruct (pass_spec b g now rd Hw Hok) as (active & es & b1 & b2 & g2 & _ & E' & P & -> & Hok').
    rewrite E in E'. injection E' as -> -> ->. split; [apply P|]. split; [done|].
    rewrite filtered_session in Es2 |- *. case_decide as Hin; [|done].
    destruct (proj1 (ps_turns _ _ _ _ _ _ _ P h) b0 s') as [Hx|(s3 & Ht3 & Hf3 & Hm)]; [done|done|done|].
    rewrite Es2 in Hm. subst s3. exists s2. split; [done|]. split; [|done].
    destruct Ht as (? & ? & ?), Ht3 as (? & ? & ?). split_and!; congruence.
  - eapply served_gateway; [| |exact Hsv].
    + eapply gateway_step_kept; [apply Hsv|by eapply (gs_frame exchange)].
    + intros Hh. apply handle_guest_frame_kept in E; [by apply E|apply Hsv].
  - eapply served_gateway; [| |exact Hsv].
    + eapply gateway_step_kept; [apply Hsv|by eapply (gs_deferred exchange)].
    + intros Hh. apply handle_deferred_kept in E; [by apply E|apply Hsv].
  - eapply served_gateway; [| |exact Hsv].
    + eapply gateway_step_kept; [apply Hsv|by eapply (gs_poll exchange)].
    + intros _. destruct Hsv as (Hw & _).
      pose proof (drain_poll_holds g now (gw_l2 g Hw) (gw_core g Hw)) as Hh. unfold poll_tcp in E.
      rewrite E in Hh. destruct Hh as (_ & _ & _ & Ec). cbn in Ec. rewrite Ec. apply poll_streams.
  - destruct Hse as [Hw' (Hp & Hl & Hd) Hh Hc Hst]. eapply served_gateway; [| |exact Hsv]; [done|].
    intros _. rewrite Hst. by rewrite decide_False.
Qed.

(** ** Theorems *)

(** C6 (safety). Whatever the guest does, over any history of the proxy from its
    start, upstream connections are attempted only to destinations the policy of
    the gateway allows; every open session was allowed by that policy, has its
    buffers within their limits, and has a TLS connection to the guest exactly
    when it is intercepted as HTTPS; and the next pass does not panic. *)
Theorem proxy_reachable pol network now w g0 k0 server_config client_config b g :
  0 <= Policy.prefix_len network <= u8_max -> 0 <= Policy.mtu pol <= u16_max ->
  new_with_dns_upstream pol network now w = Ret (Ok g0) ->
  rtc proxy_step
    (mkProxy k0 ∅ ∅ server_config client_config limits_default, g0) (b, g) ->
  rtc (allowed_dial pol) k0 (connector b) /\
  (forall h s, sessions b !! h = Some s -> shaped s /\
     decision s = evaluate_tcp_destination pol (destination s) /\ action (decision s) <> TcpDeny) /\
  forall t rd, returns (process_gateway_with_readiness b g t rd) = true.
Proof.
  intros Hp Hm Hnew Hsteps. apply gateway_new_wf in Hnew as [Hw Hpol]; [|done..].
  assert (proxy_system_ok pol k0 (b, g)) as (Hw' & Hpol' & Hok & Hk).
  { assert (proxy_system_ok pol k0 (mkProxy k0 ∅ ∅ server_config client_config limits_default, g0)) as Hinit.
    { split; [done|]. split; [done|]. split; [|done]. split; [by vm_compute|].
      intros h s. cbn. by rewrite lookup_empty. }
    remember (mkProxy _ _ _ _ _ _, g0) as x eqn:Ex. remember (b, g) as y eqn:Ey. clear Ex Ey.
    induction Hsteps; eauto using proxy_step_ok. }
  split; [done|]. split; [rewrite <-Hpol'; apply Hok|].
  intros t rd. destruct (pass_spec b g t rd Hw' Hok) as (? & ? & ? & ? & ? & _ & -> & _). done.
Qed.

(** C8 (invariant). Bytes between the guest and an upstream host are conserved.
    As long as a session is open and no failure of it is announced, over any
    number of passes: outside intercepted HTTPS, what is read from the upstream
    connection is what is given to the TCP socket followed by what is pending, and
    what is taken from the socket is what is written upstream followed by what is
    pending, in order. For an intercepted HTTPS session, only output of its TLS
    connections is sent in either direction, the guest's TLS connection is given the
    plaintext from upstream in order, and the plaintext of the guest reaches the
    upstream TLS connection without loss or repetition, but not always in its order
    ([https_payload_overtakes]). *)
Theorem proxy_conserves b0 b g b' g' h s :
  gateway_wf g -> proxy_ok b g -> sessions b !! h = Some s ->
  flow_since b0 empty_handed g h s -> rtc (serves h) (b, g) (b', g') ->
  exists s', sessions b' !! h = Some s' /\ same_terms s s' /\ flow_since b0 empty_handed g' h s'.
Proof.
  intros Hw Hok Es Hf Hsteps. assert (served b0 h s (b, g)) as Hsv by (split; [done|]; split; [done|]; by exists s).
  assert (served b0 h s (b', g')) as (_ & _ & Hs'); [|done].
  remember (b, g) as x eqn:Ex. remember (b', g') as y eqn:Ey. clear Ex Ey.
  induction Hsteps; eauto using serves_served.
Qed.

(** How sessions begin and end in a pass: a session that the pass
    opens starts from a connection that was dialled for its destination, with
    nothing lost of what has passed since; a session that the pass ends while the
    guest's side is established, without announcing a failure, has given the guest
    everything that was read from upstream; and nothing else is left afterwards
    than established sessions. *)
Theorem proxy_pass_sessions b g now rd :
  gateway_wf g -> proxy_ok b g ->
  exists active events b' g', active_tcp_sessions g = Ret active /\
    process_gateway_with_readiness b g now rd = Ret (events, b', g') /\
    dom (sessions b') ⊆ established active /\ pending_connects b' ⊆ established active /\
    (forall h s', sessions b !! h = None -> sessions b' !! h = Some s' ->
       failed h events \/
       exists k c e d, (connect k (destination s')).1 = Ok c /\
         streams (tcp_core g) h = Some (e, d) /\
         flow_since (mkBase e d (received c) (sent c)) empty_handed g' h s') /\
    (forall h b0 s, sessions b !! h = Some s -> sessions b' !! h = None ->
       h ∈ established active -> flow_since b0 empty_handed g h s ->
       failed h events \/
       exists s', flow_since b0 empty_handed g' h s' /\ pending_guest_bytes s' = []).
Proof.
  intros Hw Hok.
  destruct (pass_spec b g now rd Hw Hok) as (active & es & b1 & b2 & g2 & Ea & E & P & -> & Hok').
  exists active, es, (with_sessions b1 (filter (fun hs => hs.1 ∈ established active) (sessions b1))), g2.
  split; [done|]. split; [done|]. split_and!.
  - intros h. rewrite elem_of_dom, filtered_session. case_decide; [done|by intros []].
  - cbn. etrans; [exact (ps_pending _ _ _ _ _ _ _ P)|]. cbn. set_solver.
  - intros h s' En. rewrite filtered_session. case_decide as Hin; [|done]. intros Es'.
    by apply (proj2 (ps_turns _ _ _ _ _ _ _ P h) s').
  - intros h b0 s Es. rewrite filtered_session. intros En Hin Hf. rewrite decide_True in En by done.
    destruct (proj1 (ps_turns _ _ _ _ _ _ _ P h) b0 s Es Hf) as [?|(s' & _ & Hf' & Hm)]; [by left|].
    right. exists s'. by rewrite En in Hm.
Qed.

(** ** Behaviours at the edges *)

(** The limit on the size of an HTTP request counts everything the
    guest sends: on a session whose buffered request is already complete, a
    payload that takes the total past the limit is not forwarded, and the
    connection is closed. *)
Theorem http_body_counts_against_limit p h now w payload summary :
  alive h p -> action (decision (p_session p)) = InterceptHttp ->
  parse_http_request (http_buffer (p_session p)) = Ok (Some summary) -> payload <> [] ->
  limit_http_request_bytes (session_limits (p_session p)) <
    len (http_buffer (p_session p)) + len payload ->
  exists frames g', close_tcp_session (p_gateway p) h now = Ret (frames, g') /\
    forward_payload p h now w payload =
      Ret (mkPump (p_session p) g' (p_events p ++
        [BufferLimitExceeded h HttpRequestBytes
           (limit_http_request_bytes (session_limits (p_session p)))
           (len (http_buffer (p_session p)) + len payload) frames])).
Proof.
  intros Ha Hact _ Hne Hlim. destruct (session_streams h p Ha) as (e & d & Hst).
  pose proof (close_holds (p_gateway p) h now e d (al_wf _ _ Ha) (al_handle _ _ Ha) Hst) as Hc.
  apply holds_ret in Hc as ([frames g'] & E & _). exists frames, g'. split; [done|].
  unfold forward_payload, record_http_request, push_buffer_limit_exceeded. rewrite Hact.
  rewrite (bool_decide_true (InterceptHttp = InterceptHttp)) by done. cbn [orb].
  rewrite (bool_decide_false (payload = [])) by done.
  rewrite (proj2 (Z.gtb_lt _ _)) by lia. by rewrite E.
Qed.

Lemma process_all_idle rd active now b g events :
  (forall a, a ∈ active -> session_state (ref_session a) <> State.Established) ->
  process_all rd active now b g events = Ret (b, g, events).
Proof.
  induction active as [|a rest IH]; intros Hne; [done|]. cbn [process_all].
  unfold process_active. rewrite (bool_decide_false (session_state (ref_session a) = _)).
  - cbn [negb exec_bind]. apply IH. intros a' Ha'. apply Hne. by right.
  - apply Hne. by left.
Qed.

(** When the guest has closed its side of its connections, so that
    none is established any more, a pass drops every session and does nothing
    else: what the guest sent before closing is not read, no reply is passed on,
    and the sockets are not closed. *)
Theorem half_closed_sessions_dropped b g now rd active :
  active_tcp_sessions g = Ret active ->
  (forall a, a ∈ active -> session_state (ref_session a) <> State.Established) ->
  process_gateway_with_readiness b g now rd = Ret ([], with_sessions (with_pending b ∅) ∅, g).
Proof.
  intros Ea Hne. unfold process_gateway_with_readiness. rewrite Ea. cbn [exec_bind].
  assert (established active = ∅) as ->.
  { apply set_eq. intros h. rewrite elem_of_established. split; [|by intros ?%not_elem_of_empty].
    intros (a & Ha & _ & Hs). by destruct (Hne a Ha). }
  rewrite process_all_idle by done. cbn [exec_bind]. rewrite intersection_empty_r_L. do 3 f_equal.
  unfold with_sessions. cbn. f_equal. apply map_eq. intros h. rewrite lookup_empty.
  apply map_lookup_filter_None. right. intros s _. cbn. apply not_elem_of_empty.
Qed.

(** The upstream TLS connection of a session that has one takes a plaintext as a
    whole, or the failure is announced. *)
Lemma write_https_exact h p now bytes u :
  alive h p -> upstream_tls (p_session p) = Some u ->
  holds (write_https_plaintext_upstream p h now bytes) (fun p' =>
    alive h p' /\ moved h p p' /\
    (failed h (p_events p') \/
     exists u', upstream_tls (p_session p') = Some u' /\
       plain_in (client u') = plain_in (client u) ++ bytes /\
       upstream_tls_ready (p_session p') = upstream_tls_ready (p_session p) /\
       pending_upstream_plaintext (p_session p') = pending_upstream_plaintext (p_session p))).
Proof.
  intros Ha Hu. unfold write_https_plaintext_upstream. rewrite Hu. unfold write_upstream_plaintext.
  apply holds_bind, holds_bind. eapply holds_mono; [apply write_plaintext_spec|].
  intros [r c'] Hr. cbn [holds exec_bind].
  destruct (upstream_tls_alive h p u (mkUpstreamTls c') Ha Hu) as [Ha1 Hm1].
  destruct r as [out|e].
  - destruct (Hr out eq_refl) as [[_ _ Ei] _].
    apply holds_bind. eapply holds_mono; [by apply write_upstream_spec|].
    intros [[n|] p2] (Ha2 & Hm2 & Hok); cbn in Hok; cycle 1.
    { split; [done|]. split; [by etrans|by left]. }
    destruct Hok as [_ (c & pend & o & Es & _)].
    unfold push_tls_upstream.
    set (p3 := push p2 (GuestPayload h (len bytes))).
    assert (forall p4, p_session p4 = p_session p2 -> p_gateway p4 = p_gateway p2 ->
      p_events p2 `prefix_of` p_events p4 -> alive h p4 /\ moved h p p4) as Hlast.
    { intros p4 E1 E2 E3. destruct Ha2. split; [split; by rewrite ?E1, ?E2|].
      etrans; [exact Hm1|]. etrans; [exact Hm2|]. split; rewrite ?E1, ?E2; done. }
    split_and!; [case_test; apply Hlast; cbn; try done; rewrite <-?(assoc_L (++)); by apply prefix_app_r..|].
    right. exists (mkUpstreamTls c').
    assert (p_session (if n >? 0 then push p3 (TlsUpstreamPayload h n) else p3) = p_session p2) as ->
      by (by case_test).
    by rewrite Es.
  - eapply holds_mono; [by apply (tls_failed_post None empty_handed)|].
    intros p2 ([[Ha2 _] Hm2] & Hf & _). split; [done|]. split; [by etrans|by left].
Qed.

Lemma flush_https_failed h p now :
  alive h p -> failed h (p_events p) ->
  holds (flush_pending_https_plaintext p h now) (fun p' => failed h (p_events p')).
Proof.
  intros Ha Hf. eapply holds_mono; [apply (flush_https_post None [] []); split; [done|by right]|].
  intros p' [_ Hm]. eapply failed_prefix; [apply Hm|done].
Qed.

(** The waiting plaintext goes to the upstream TLS connection as a whole. *)
Lemma flush_https_exact h p now u :
  alive h p -> upstream_tls (p_session p) = Some u -> upstream_tls_ready (p_session p) = true ->
  pending_upstream_plaintext (p_session p) <> [] ->
  holds (flush_pending_https_plaintext p h now) (fun p' =>
    failed h (p_events p') \/
    upstream_view plain_in (p_session p') =
      plain_in (client u) ++ pending_upstream_plaintext (p_session p)).
Proof.
  intros Ha Hu Hr Hne. unfold flush_pending_https_plaintext.
  rewrite bool_decide_false, Hr by done. cbn [negb].
  eapply holds_mono; [apply (write_https_exact h _ now _ u); [|done]|].
  - apply (session_alive h p); [done|]. apply shaped_plaintext; [apply Ha|].
    rewrite len_nil. apply (sh_limits _ (al_shaped _ _ Ha)).
  - intros p' (_ & _ & [?|(u' & Hu' & Hp & _)]); [by left|right]. unfold upstream_view. by rewrite Hu'.
Qed.

(** Plaintext of the guest can overtake plaintext of the guest:
    when some waits for the upstream connection to become writable and more
    arrives in the pass in which it is, the new plaintext is given to the upstream
    TLS connection first and the waiting one after it, unless the session fails. *)
Theorem https_payload_overtakes p h now payload u :
  alive h p -> action (decision (p_session p)) = InterceptHttps ->
  upstream_tls (p_session p) = Some u -> upstream_tls_ready (p_session p) = true ->
  payload <> [] -> pending_upstream_plaintext (p_session p) <> [] ->
  exists p', (let! p1 := forward_payload p h now true payload in
              flush_pending_https_plaintext p1 h now) = Ret p' /\
    (failed h (p_events p') \/
     upstream_view plain_in (p_session p') =
       plain_in (client u) ++ payload ++ pending_upstream_plaintext (p_session p)).
Proof.
  intros Ha Hact Hu Hrdy Hne Hpend.
  enough (holds (let! p1 := forward_payload p h now true payload in
                 flush_pending_https_plaintext p1 h now) (fun p' => failed h (p_events p') \/
    upstream_view plain_in (p_session p') =
      plain_in (client u) ++ payload ++ pending_upstream_plaintext (p_session p))) as Hx
    by (by apply holds_ret in Hx).
  unfold forward_payload, record_http_request. rewrite Hact.
  rewrite (bool_decide_true (InterceptHttps = InterceptHttps)), orb_true_r by done.
  rewrite (bool_decide_false (payload = [])) by done. case_test.
  { apply holds_bind, holds_bind, holds_bind.
    eapply holds_mono; [by apply (limit_post None empty_handed)|].
    intros p1 ([[Ha1 _] _] & Hf & _). cbn [holds negb].
    eapply holds_mono; [by apply flush_https_failed|]. intros p2. by left. }
  cbn [exec_bind negb]. set (s1 := set_http_buffer _ _).
  assert (shaped s1) as Hs1.
  { destruct (al_shaped _ _ Ha). split; try done. cbn. rewrite len_app. lia. }
  set (p1 := match parse_http_request _ with Ok _ => _ | Err _ => _ end).
  assert (alive h p1 /\ p_session p1 = s1) as [Ha1 E1].
  { subst p1. destruct (parse_http_request _) as [[?|]|[]];
      (split; [by apply (session_alive h p)|done]). }
  assert (upstream_tls_ready (p_session p1) = true) as Hr1 by (by rewrite E1).
  rewrite Hr1. cbn [andb].
  apply holds_bind. eapply holds_mono; [apply (write_https_exact h p1 now payload u Ha1); by rewrite E1|].
  intros p2 (Ha2 & _ & [Hf|(u' & Hu2 & Hp2 & Hr2 & Hpp2)]).
  { eapply holds_mono; [by apply flush_https_failed|]. intros p3. by left. }
  rewrite E1 in Hpp2. cbn in Hpp2.
  eapply holds_mono; [apply (flush_https_exact h p2 now u'); [done|done|congruence|congruence]|].
  intros p3 [?|Hv]; [by left|right]. by rewrite Hv, Hp2, Hpp2, <-(assoc_L (++)).
Qed.

(** When the upstream host closes the connection, the frames that
    close the guest's side are taken out of the gateway and not reported: the pass
    has the events it had before, and the queue of the gateway is empty. *)
Theorem upstream_eof_drops_frames config p h now sock c' :
  alive h p -> pending_guest_bytes (p_session p) = [] ->
  sockets (tcp_core (p_gateway p)) !! h = Some sock -> socket_can_recv sock = false ->
  (forall n, read (connection (p_session p)) n = (Ok [], c')) ->
  exists frames g', close_tcp_session (p_gateway p) h now = Ret (frames, g') /\
    tx (tcp_device g') = [] /\
    serve_session config (readiness_selected [h] []) p h now =
      Ret (true, mkPump (set_connection (p_session p) c') g' (p_events p)).
Proof.
  intros Ha Hpg Hs Hr Hread. destruct (session_streams h p Ha) as (e & d & Hst).
  pose proof (close_holds (p_gateway p) h now e d (al_wf _ _ Ha) (al_handle _ _ Ha) Hst) as Hc.
  apply holds_ret in Hc as ([frames g'] & E & Hse). exists frames, g'. split; [done|].
  split; [apply Hse|]. unfold serve_session, flush_pending_guest_bytes.
  rewrite Hpg, (bool_decide_true (_ = [])) by done. cbn [exec_bind negb].
  rewrite Hpg, (bool_decide_true (_ = [])) by done. cbn [negb].
  rewrite (recv_nothing _ _ _ Hs Hr). cbn [exec_bind].
  assert (with_gateway p (p_gateway p) = p) as -> by (by destruct p).
  rewrite (bool_decide_true (_ = [])) by done. cbn [exec_bind].
  rewrite Hpg, (bool_decide_true (_ = [])) by done. cbn [exec_bind].
  rewrite Hpg, (bool_decide_true (_ = [])) by done. cbn [negb].
  assert (writable (readiness_selected [h] []) h = false) as ->
    by (cbn; apply bool_decide_false, not_elem_of_nil).
  assert (readable (readiness_selected [h] []) h = true) as ->
    by (cbn; apply bool_decide_true; by left).
  cbn [exec_bind]. unfold read_available. cbn [read_available_loop].
  rewrite len_nil, (proj2 (Z.ltb_lt _ _)), Hread by lia. cbn [exec_bind p_gateway].
  rewrite E. done.
Qed.

End Facts.

(** ** Witnesses *)

#[local] Existing Instance toy_hickory.

(** A parser to which every buffer is a complete request. *)
#[local] Instance any_request : HttpParser := {|
  request_parse n bs := Ok (Some (mkParsed (Some "GET") (Some "/") [])) |}.

(** The upstream connection of the examples delivers one byte. *)
Definition example_connection : duplex :=
  mkDuplex (mkScripted [Deliver [Byte.x42]; Fault (OsError EAGAIN)] []) (mkSink 10 []).

(** A network in which every connection succeeds; it remembers the attempts. *)
#[local] Instance willing : TcpUpstreamConnector (list TcpDestination) duplex :=
  fun k d => (Ok example_connection, k ++ [d]).

Definition open_policy : Policy.VmnetPolicy :=
  Policy.mkPolicy Policy.GuestNetwork_default 1500
    (Policy.mkEgress Policy.AllowPublicInternet Policy.DenyByDefault [] [] [])
    Policy.ProtocolPolicy_default [] Policy.CapturePolicy_default
    (Policy.mkTlsMitmPolicy (Some "ca.pem") (Some "ca.key") true).

Definition open_gateway : VmnetGateway (W := list Dns.Message) :=
  mkGateway open_policy (l2 example_gateway) example_core (device_new 1514) [].

Lemma open_gateway_new :
  new_with_dns_upstream open_policy Policy.GuestNetwork_default 0 [] = Ret (Ok open_gateway).
Proof. reflexivity. Qed.

(** The gateway with one connection of the guest, to port [port] of some host,
    with a byte from the guest. *)
Definition guest_socket (state : State.t) (port : Z) : Toy.socket :=
  Toy.mkSocket state (Some (mkEndpoint (Ipv4 Byte.x08 Byte.x08 Byte.x08 Byte.x08) port))
    (Some (mkEndpoint Toy.own_ip 40000)) [Byte.x41] [] [].

Definition gateway_with (sock : Toy.socket) (port : Z) : VmnetGateway (W := list Dns.Message) :=
  with_tcp open_gateway
    (mkCore (Toy.mkIface [] true) {[ 0%nat := sock ]} [mkListener port 0%nat] [])
    (device_new 1514).

Definition guest_gateway (state : State.t) (port : Z) : VmnetGateway (W := list Dns.Message) :=
  gateway_with (guest_socket state port) port.

Lemma gateway_with_wf sock port : gateway_wf (gateway_with sock port).
Proof.
  destruct example_gateway_wf as [Hl _ _]. split; [exact Hl| |done].
  split; [apply NoDup_singleton|]. intros h. cbn -[lookup singletonM].
  rewrite list_elem_of_singleton, lookup_singleton_is_Some. naive_solver.
Qed.

Definition small_limits : TcpProxyBufferLimits := mkLimits 16 16 16 16.

Definition plain_destination : TcpDestination :=
  mkDest (Ipv4 Byte.x08 Byte.x08 Byte.x08 Byte.x08) 22 None.

Definition plain_session : UpstreamSession (C := duplex) :=
  mkUpstream plain_destination (evaluate_tcp_destination open_policy plain_destination)
    example_connection [] None None false [] [] [] small_limits.

Definition example_proxy : TcpProxyBridge (K := list TcpDestination) (C := duplex) :=
  mkProxy [] {[ 0%nat := plain_session ]} ∅ None None small_limits.

Lemma plain_session_shaped : shaped plain_session.
Proof.
  split; [vm_compute; by repeat split|vm_compute; discriminate..| |].
  - split; [by intros []|]. intros Hh. vm_compute in Hh. discriminate.
  - by intros [].
Qed.

Lemma example_proxy_ok : proxy_ok example_proxy (guest_gateway State.Established 22).
Proof.
  split; [vm_compute; by repeat split|]. intros h s Hs. cbn -[lookup singletonM] in Hs.
  apply lookup_singleton_Some in Hs as [<- <-]. split; [exact plain_session_shaped|].
  split; [reflexivity|]. vm_compute. discriminate.
Qed.

Lemma plain_session_flow :
  flow_since duplex_received duplex_sent (mkBase [] [] [] []) empty_handed
    (guest_gateway State.Established 22) 0%nat plain_session.
Proof.
  exists [], [], [], []. unfold streams. cbn -[lookup singletonM]. rewrite lookup_singleton_eq.
  split; [done|]. split; [done|]. split; [done|]. unfold ledger. rewrite decide_False; [done|].
  vm_compute. discriminate.
Qed.

Definition example_pass :=
  process_gateway_with_readiness example_proxy (guest_gateway State.Established 22) 0 readiness_all.

(** No failure is announced, for a witness to compute. *)
Definition no_failure (h : SocketHandle) (e : TcpProxyEvent) : bool :=
  match e with
  | TlsMitmUnavailable h' _ | TlsMitmFailed h' _ _ | BufferLimitExceeded h' _ _ _ _
  | UpstreamWriteFailed h' _ => negb (bool_decide (h' = h))
  | _ => true
  end.

Lemma no_failure_spec h events : forallb (no_failure h) events = true -> ~ failed h events.
Proof.
  intros Hf (e & He & Hx). rewrite forallb_forall in Hf. apply list_elem_of_In in He.
  specialize (Hf e He). unfold no_failure in Hf. destruct e; cbn in Hx; try done; subst;
    by rewrite bool_decide_true in Hf.
Qed.

Lemma proxy_conserves_witness :
  exists events b' g' s', example_pass = Ret (events, b', g') /\ sessions b' !! 0%nat = Some s' /\
    flow_since duplex_received duplex_sent (mkBase [] [] [] []) empty_handed g' 0%nat s'.
Proof.
  assert (match example_pass with
          | Ret (events, b', _) =>
              forallb (no_failure 0%nat) events && bool_decide (is_Some (sessions b' !! 0%nat))
          | Panic => false
          end = true) as Hrun by reflexivity.
  destruct example_pass as [[[events b'] g']|] eqn:E; [|discriminate].
  apply andb_true_iff in Hrun as [Hf Hs]. apply bool_decide_eq_true in Hs.
  destruct (proxy_conserves no_upstream duplex_received duplex_sent (mkBase [] [] [] [])
    example_proxy (guest_gateway State.Established 22) b' g' 0%nat plain_session)
    as (s' & Es & _ & Hfl).
  - apply gateway_with_wf.
  - exact example_proxy_ok.
  - reflexivity.
  - exact plain_session_flow.
  - apply rtc_once. eapply sv_pass; [exact E|by apply no_failure_spec|exact Hs].
  - exists events, b', g', s'. split; [reflexivity|]. split; [exact Es|exact Hfl].
Defined.

(** The proxy after the guest asked for 1.1.1.1:80 and the connection was made. *)
Definition example_start : TcpProxyBridge (K := list TcpDestination) (C := duplex) :=
  mkProxy [] ∅ ∅ None None limits_default.

Definition example_opening (g : VmnetGateway (W := list Dns.Message)) :=
  match plan_connect example_start 0%nat
          (mkDest (Ipv4 Byte.x01 Byte.x01 Byte.x01 Byte.x01) 80 None) (policy g) with
  | PlanPending pending => complete_connect example_start g pending (Ok example_connection) 0 []
  | PlanEvent _ => Panic
  end.

Lemma proxy_reachable_witness :
  exists r g dn b g' events, handle_guest_frame no_upstream open_gateway example_syn 0 = Ret (r, g) /\
    example_opening g = Ret (dn, b, g', events) /\ bool_decide (is_Some (sessions b !! 0%nat)) = true /\
    forall h s, sessions b !! h = Some s -> action (decision s) <> TcpDeny.
Proof.
  assert (match handle_guest_frame no_upstream open_gateway example_syn 0 with
          | Ret (_, g) =>
              bool_decide (0%nat ∈ handles (tcp_core g)) &&
              match example_opening g with
              | Ret (_, b, _, _) => bool_decide (is_Some (sessions b !! 0%nat))
              | Panic => false
              end
          | Panic => false
          end = true) as Hrun by reflexivity.
  destruct (handle_guest_frame no_upstream open_gateway example_syn 0) as [[r g]|] eqn:E1; [|discriminate].
  apply andb_true_iff in Hrun as [Hh Hrun]. apply bool_decide_eq_true in Hh.
  destruct (example_opening g) as [[[[dn b] g'] events]|] eqn:E2; [|discriminate].
  exists r, g, dn, b, g', events. split; [reflexivity|]. split; [exact E2|]. split; [exact Hrun|].
  intros h s Hs. unfold example_opening in E2.
  destruct (plan_connect _ _ _ _) as [pending|] eqn:Ep; [|discriminate].
  apply (proxy_reachable no_upstream duplex_received duplex_sent open_policy Policy.GuestNetwork_default 0 [] open_gateway []
    None None b g') in Hs as (_ & _ & Hs); [exact Hs|vm_compute; split; discriminate..| |].
  - exact open_gateway_new.
  - eapply rtc_l; [apply px_gateway; eapply gs_frame; exact E1|].
    apply rtc_once. eapply px_complete; [exact Ep|exact Hh|exact E2].
Defined.

Definition http_session : UpstreamSession (C := duplex) :=
  mkUpstream (mkDest (Ipv4 Byte.x08 Byte.x08 Byte.x08 Byte.x08) 80 None)
    (mkDecision InterceptHttp "HTTP interception enabled") example_connection
    [Byte.x47; Byte.x0a; Byte.x0a] None None false [] [] [] small_limits.

Lemma http_session_alive :
  alive 0%nat (mkPump http_session (guest_gateway State.Established 80) []).
Proof.
  split; [apply gateway_with_wf|by left|].
  split; [vm_compute; by repeat split|vm_compute; discriminate..| |].
  - split; [by intros []|]. intros Hh. vm_compute in Hh. discriminate.
  - by intros [].
Qed.

(** An intercepted session past its handshakes, with a byte of the guest waiting. *)
Definition https_session : UpstreamSession (C := duplex) :=
  mkUpstream (mkDest (Ipv4 Byte.x08 Byte.x08 Byte.x08 Byte.x08) 443 None)
    (mkDecision InterceptHttps "HTTPS interception enabled") example_connection []
    (Some (@mkGuestTls ToyTls.rustls (ToyTls.mkConn [Byte.x02] false [] [] [] [] [] [])))
    (Some (@mkUpstreamTls ToyTls.rustls (ToyTls.mkConn [] false [] [] [] [] [] [])))
    true [] [Byte.x31] [] small_limits.

(** A session whose upstream host has closed, and nothing from the guest. *)
Definition closed_session : UpstreamSession (C := duplex) :=
  set_connection plain_session (mkDuplex (mkScripted [] []) (mkSink 10 [])).
Definition quiet_socket : Toy.socket :=
  Toy.mkSocket State.Established (Some (mkEndpoint (Ipv4 Byte.x08 Byte.x08 Byte.x08 Byte.x08) 22))
    (Some (mkEndpoint Toy.own_ip 40000)) [] [] [].
Definition example_quiet : VmnetGateway (W := list Dns.Message) := gateway_with quiet_socket 22.

End TcpProxy.
