(* ===== verification/VmnetServiceIo.v ===== *)
(** The boundary between the owner of the network and its service tasks
    (src/vm-frontend/src/vmnet_service_io.rs): requests with correlation tokens,
    the owner's table of pending requests, the bounded queues, and the tasks that
    resolve names and dial upstream hosts on behalf of the owner.

    The channels of tokio are an interface with its documented laws. A task is a
    state machine: it waits for a command, executes it, and hands the completion
    to the owner. *)

From stdpp Require Import base option list numbers strings gmap sets relations sorting.
From Stdlib Require Import ZArith Lia.
From S2P Require Import Prelude RustIo RustStr NetworkPolicy DnsProxy TcpGateway VmnetGateway TcpProxy.

Local Open Scope Z_scope.

(** ** Channels

    [tokio::sync::mpsc::channel], as both ends see it. [queued] is what was sent
    and not yet received. *)
Module Mpsc.

Inductive TrySendError (A : Type) := Full (item : A) | Closed (item : A).
Inductive TryRecvError := Empty | Disconnected.
Arguments Full {A} item.
Arguments Closed {A} item.

Class Channels := {
  channel : Type -> Type;
  channel_new : forall {A}, Z -> channel A;
  try_send : forall {A}, channel A -> A -> result unit (TrySendError A) * channel A;
  try_recv : forall {A}, channel A -> result A TryRecvError * channel A;
  drop_sender : forall {A}, channel A -> channel A;
  drop_receiver : forall {A}, channel A -> channel A;
  queued : forall {A}, channel A -> list A;
  ch_capacity : forall {A}, channel A -> Z;
  sender_dropped : forall {A}, channel A -> bool;
  receiver_dropped : forall {A}, channel A -> bool
}.

Definition same_ends `{Channels} {A} (c c' : channel A) : Prop :=
  ch_capacity c' = ch_capacity c /\ sender_dropped c' = sender_dropped c /\
  receiver_dropped c' = receiver_dropped c.

Class ChannelLaws `{Channels} : Prop := {
  channel_new_spec {A} n : 0 < n ->
    let c := channel_new (A := A) n in
    queued c = [] /\ ch_capacity c = n /\ sender_dropped c = false /\ receiver_dropped c = false;
  (** A message is refused when the receiver is gone or the buffer is full. *)
  try_send_closed {A} (c : channel A) a :
    receiver_dropped c = true -> try_send c a = (Err (Closed a), c);
  try_send_full {A} (c : channel A) a :
    receiver_dropped c = false -> ch_capacity c <= len (queued c) ->
    try_send c a = (Err (Full a), c);
  try_send_ok {A} (c : channel A) a :
    receiver_dropped c = false -> len (queued c) < ch_capacity c ->
    exists c', try_send c a = (Ok tt, c') /\ same_ends c c' /\ queued c' = queued c ++ [a];
  (** Messages come out in order; the end is reported after the last one. *)
  try_recv_ok {A} (c : channel A) a rest : queued c = a :: rest ->
    exists c', try_recv c = (Ok a, c') /\ same_ends c c' /\ queued c' = rest;
  try_recv_empty {A} (c : channel A) : queued c = [] ->
    try_recv c = (Err (if sender_dropped c then Disconnected else Empty), c);
  drop_sender_spec {A} (c : channel A) :
    queued (drop_sender c) = queued c /\ ch_capacity (drop_sender c) = ch_capacity c /\
    sender_dropped (drop_sender c) = true /\
    receiver_dropped (drop_sender c) = receiver_dropped c;
  (** What the receiver did not take is dropped with it. *)
  drop_receiver_spec {A} (c : channel A) :
    queued (drop_receiver c) = [] /\ ch_capacity (drop_receiver c) = ch_capacity c /\
    sender_dropped (drop_receiver c) = sender_dropped c /\
    receiver_dropped (drop_receiver c) = true
}.

(** [recv().await]: [None] while there is nothing to report. *)
Definition recv `{Channels} {A} (c : channel A) : option (option A * channel A) :=
  match try_recv c with
  | (Ok a, c') => Some (Some a, c')
  | (Err Disconnected, c') => Some (None, c')
  | (Err Empty, _) => None
  end.

Section ChannelFacts.
Context `{ChannelLaws} {A : Type}.
Implicit Types c : channel A.

Lemma recv_some c a c' :
  recv c = Some (Some a, c') -> queued c = a :: queued c' /\ same_ends c c'.
Proof.
  unfold recv. destruct (queued c) as [|b rest] eqn:Eq.
  - rewrite (try_recv_empty _ Eq). by destruct (sender_dropped c).
  - destruct (try_recv_ok _ _ _ Eq) as (c1 & -> & He & Eq'). intros [= -> ->]. by rewrite Eq'.
Qed.

Lemma recv_none c c' :
  recv c = Some (None, c') -> c' = c /\ queued c = [] /\ sender_dropped c = true.
Proof.
  unfold recv. destruct (queued c) as [|b rest] eqn:Eq.
  - rewrite (try_recv_empty _ Eq). destruct (sender_dropped c); [|done]. by intros [= <-].
  - by destruct (try_recv_ok _ _ _ Eq) as (c1 & -> & _).
Qed.

Lemma try_send_sent c a c' :
  try_send c a = (Ok tt, c') ->
  queued c' = queued c ++ [a] /\ same_ends c c' /\ receiver_dropped c = false /\
  len (queued c) < ch_capacity c.
Proof.
  destruct (receiver_dropped c) eqn:Er; [by rewrite (try_send_closed _ _ Er)|].
  destruct (Z.lt_ge_cases (len (queued c)) (ch_capacity c)) as [Hl|Hl];
    [|by rewrite (try_send_full _ _ Er Hl)].
  destruct (try_send_ok _ a Er Hl) as (c1 & -> & He & Eq). by intros [= <-].
Qed.

Lemma try_send_refused c a a' c' :
  try_send c a = (Err (Closed a'), c') -> receiver_dropped c = true.
Proof.
  destruct (receiver_dropped c) eqn:Er; [done|].
  destruct (Z.lt_ge_cases (len (queued c)) (ch_capacity c)) as [Hl|Hl].
  - by destruct (try_send_ok _ a Er Hl) as (c1 & -> & _).
  - by rewrite (try_send_full _ _ Er Hl).
Qed.

End ChannelFacts.

(** The channels of the witnesses. *)
Record fifo (A : Type) := mkFifo {
  items : list A; bound : Z; no_sender : bool; no_receiver : bool }.
Arguments mkFifo {A}.
Arguments items {A}.
Arguments bound {A}.
Arguments no_sender {A}.
Arguments no_receiver {A}.

#[global] Instance fifo_channels : Channels := {|
  channel := fifo;
  channel_new A n := mkFifo [] n false false;
  try_send A c a :=
    if no_receiver c then (Err (Closed a), c)
    else if len (items c) <? bound c
    then (Ok tt, mkFifo (items c ++ [a]) (bound c) (no_sender c) false)
    else (Err (Full a), c);
  try_recv A c :=
    match items c with
    | a :: rest => (Ok a, mkFifo rest (bound c) (no_sender c) (no_receiver c))
    | [] => (Err (if no_sender c then Disconnected else Empty), c)
    end;
  drop_sender A c := mkFifo (items c) (bound c) true (no_receiver c);
  drop_receiver A c := mkFifo [] (bound c) (no_sender c) true;
  queued A c := items c;
  ch_capacity A c := bound c;
  sender_dropped A c := no_sender c;
  receiver_dropped A c := no_receiver c
|}.

#[global] Instance fifo_laws : ChannelLaws.
Proof.
  split; intros A; cbn.
  - done.
  - by intros c a ->.
  - intros c a -> Hf. case_test; [lia|done].
  - intros c a E Hf. rewrite E. case_test; [|lia]. eexists. split; [done|]. split; [|done].
    by split_and!.
  - intros c a rest ->. eexists. split; [done|]. by split_and!.
  - by intros c ->.
  - done.
  - done.
Qed.

End Mpsc.

Module ServiceIo.
Import Mpsc.
Import TcpProxy(TcpUpstreamConnector, connect).

(** ** Requests and completions *)

Inductive VmnetServiceIoKind := KindDnsLookup | KindTcpConnect | KindCertificateWorker.

#[global] Instance VmnetServiceIoKind_eq_dec : EqDecision VmnetServiceIoKind.
Proof. solve_decision. Defined.

(** [VmnetServiceToken], a newtype of [u64]. *)
Notation VmnetServiceToken := Z (only parsing).

Record VmnetTcpConnectCommand := mkConnectCommand {
  connect_token : VmnetServiceToken; connect_destination : Tcp.TcpDestination }.

Record VmnetServiceCancel := mkCancel {
  cancel_token : VmnetServiceToken; cancel_kind : VmnetServiceIoKind }.

Section Messages.
Context `{Dns.HickoryOps}.

Record VmnetDnsLookupCommand := mkLookupCommand {
  lookup_token : VmnetServiceToken; lookup_request : Dns.DnsForwardRequest }.

Inductive VmnetServiceCommand :=
| DnsLookup (command : VmnetDnsLookupCommand)
| TcpConnect (command : VmnetTcpConnectCommand)
| Cancel (command : VmnetServiceCancel).

Definition command_token (c : VmnetServiceCommand) : VmnetServiceToken :=
  match c with
  | DnsLookup command => lookup_token command
  | TcpConnect command => connect_token command
  | Cancel command => cancel_token command
  end.

Definition command_kind (c : VmnetServiceCommand) : VmnetServiceIoKind :=
  match c with
  | DnsLookup _ => KindDnsLookup
  | TcpConnect _ => KindTcpConnect
  | Cancel command => cancel_kind command
  end.

Record VmnetDnsLookupCompletion := mkLookupCompletion {
  looked_up_token : VmnetServiceToken;
  looked_up : result Dns.Message Dns.DnsUpstreamError }.

Context {C : Type}.

Record VmnetTcpConnectCompletion := mkConnectCompletion {
  connected_token : VmnetServiceToken; connected : result C Tcp.TcpConnectError }.

Inductive VmnetServiceCompletion :=
| DnsLookupDone (completion : VmnetDnsLookupCompletion)
| TcpConnectDone (completion : VmnetTcpConnectCompletion)
| Cancelled (cancel : VmnetServiceCancel).

Definition completion_token (c : VmnetServiceCompletion) : VmnetServiceToken :=
  match c with
  | DnsLookupDone completion => looked_up_token completion
  | TcpConnectDone completion => connected_token completion
  | Cancelled cancel => cancel_token cancel
  end.

Definition completion_kind (c : VmnetServiceCompletion) : VmnetServiceIoKind :=
  match c with
  | DnsLookupDone _ => KindDnsLookup
  | TcpConnectDone _ => KindTcpConnect
  | Cancelled cancel => cancel_kind cancel
  end.

(** ** Executing a command *)

(** [VmnetDnsServiceExecution] and [VmnetTcpConnectServiceExecution]. *)
Inductive ServiceExecution :=
| Completed (completion : VmnetServiceCompletion)
| Unsupported (command : VmnetServiceCommand).

Definition execute_dns_service_command {W : Type}
  (exchange : W -> Dns.Message -> result Dns.Message Dns.DnsUpstreamError * W)
  (upstream : W) (command : VmnetServiceCommand) : ServiceExecution * W :=
  match command with
  | DnsLookup command =>
      let '(result, upstream) := exchange upstream (Dns.fwd_query (lookup_request command)) in
      (Completed (DnsLookupDone (mkLookupCompletion (lookup_token command) result)), upstream)
  | Cancel cancel =>
      if bool_decide (cancel_kind cancel = KindDnsLookup) then (Completed (Cancelled cancel), upstream)
      else (Unsupported command, upstream)
  | TcpConnect _ => (Unsupported command, upstream)
  end.

Definition execute_tcp_connect_service_command {K : Type} `{TcpUpstreamConnector K C}
  (connector : K) (command : VmnetServiceCommand) : ServiceExecution * K :=
  match command with
  | TcpConnect command =>
      let '(result, connector) := connect connector (connect_destination command) in
      (Completed (TcpConnectDone (mkConnectCompletion (connect_token command) result)), connector)
  | Cancel cancel =>
      if bool_decide (cancel_kind cancel = KindTcpConnect) then (Completed (Cancelled cancel), connector)
      else (Unsupported command, connector)
  | DnsLookup _ => (Unsupported command, connector)
  end.

(** ** Limits *)

Record VmnetServiceIoLimits := mkIoLimits { command_limit : Z; completion_limit : Z }.

Inductive VmnetServiceIoLimitError := ZeroCommandCapacity | ZeroCompletionCapacity.

Definition validate (limits : VmnetServiceIoLimits)
  : result VmnetServiceIoLimits VmnetServiceIoLimitError :=
  if command_limit limits =? 0 then Err ZeroCommandCapacity
  else if completion_limit limits =? 0 then Err ZeroCompletionCapacity
  else Ok limits.

Definition IoLimits_default : VmnetServiceIoLimits := mkIoLimits 128 128.

(** ** The queues inside the process *)

Record VmnetServiceQueueFull (T : Type) := mkFull { full_capacity : Z; full_item : T }.
Arguments mkFull {T}.
Arguments full_capacity {T}.
Arguments full_item {T}.

Record VmnetServiceIoQueues := mkQueues {
  command_capacity : Z;
  completion_capacity : Z;
  commands : list VmnetServiceCommand;
  completions : list VmnetServiceCompletion
}.

Definition queues_new (limits : VmnetServiceIoLimits)
  : result VmnetServiceIoQueues VmnetServiceIoLimitError :=
  let? limits := validate limits in
  Ok (mkQueues (command_limit limits) (completion_limit limits) [] []).

Definition owner_send (q : VmnetServiceIoQueues) (command : VmnetServiceCommand)
  : result unit (VmnetServiceQueueFull VmnetServiceCommand) * VmnetServiceIoQueues :=
  if len (commands q) >=? command_capacity q then (Err (mkFull (command_capacity q) command), q)
  else (Ok tt, mkQueues (command_capacity q) (completion_capacity q) (commands q ++ [command])
                 (completions q)).

Definition queues_recv_command (q : VmnetServiceIoQueues)
  : option VmnetServiceCommand * VmnetServiceIoQueues :=
  match commands q with
  | [] => (None, q)
  | command :: rest =>
      (Some command, mkQueues (command_capacity q) (completion_capacity q) rest (completions q))
  end.

Definition queues_complete (q : VmnetServiceIoQueues) (completion : VmnetServiceCompletion)
  : result unit (VmnetServiceQueueFull VmnetServiceCompletion) * VmnetServiceIoQueues :=
  if len (completions q) >=? completion_capacity q
  then (Err (mkFull (completion_capacity q) completion), q)
  else (Ok tt, mkQueues (command_capacity q) (completion_capacity q) (commands q)
                 (completions q ++ [completion])).

Definition queues_recv_completion (q : VmnetServiceIoQueues)
  : option VmnetServiceCompletion * VmnetServiceIoQueues :=
  match completions q with
  | [] => (None, q)
  | completion :: rest =>
      (Some completion, mkQueues (command_capacity q) (completion_capacity q) (commands q) rest)
  end.

End Messages.
Arguments VmnetServiceCompletion {_} C.
Arguments VmnetTcpConnectCompletion C : clear implicits.
Arguments ServiceExecution {_} C.
Arguments VmnetServiceIoQueues {_} C.
Arguments mkFull {T}.
Arguments full_capacity {T}.
Arguments full_item {T}.

(** ** Tokens and pending requests *)

Record VmnetServiceTokenSource := mkTokens { next : VmnetServiceToken }.

Definition tokens_new : VmnetServiceTokenSource := mkTokens 1.

(** [self.next += 1] on a [u64]; an overflow is a panic. *)
Definition next_token (s : VmnetServiceTokenSource)
  : exec (VmnetServiceToken * VmnetServiceTokenSource) :=
  if next s <? u64_max then Ret (next s, mkTokens (next s + 1)) else Panic.

Record VmnetServicePendingDuplicate (T : Type) := mkDuplicate {
  duplicate_token : VmnetServiceToken; duplicate_item : T }.
Arguments mkDuplicate {T}.

(** [VmnetServicePending]: a table from tokens to what the owner waits for. *)
Definition pending_insert {T} (items : gmap Z T) (token : VmnetServiceToken) (item : T)
  : result unit (VmnetServicePendingDuplicate T) * gmap Z T :=
  match items !! token with
  | Some _ => (Err (mkDuplicate token item), items)
  | None => (Ok tt, <[token := item]> items)
  end.

Definition pending_remove {T} (items : gmap Z T) (token : VmnetServiceToken)
  : option T * gmap Z T := (items !! token, delete token items).

(** ** The tasks *)

Section Task.
Context `{Dns.HickoryOps} `{Channels} {C : Type}.

(** Where the loop of the task is: before [recv], before the blocking call has
    returned, or past the loop. *)
Inductive TaskState :=
| Receiving
| Executing (command : VmnetServiceCommand)
| Finished.

#[global] Instance task_finished_dec (s : TaskState) : Decision (s = Finished).
Proof. refine (match s with Finished => left _ | _ => right _ end); done. Defined.

(** The handle and the task share the two channels. *)
Record VmnetAsyncServiceWorkerHandle := mkWorker {
  command_ch : channel VmnetServiceCommand;
  completion_ch : channel (VmnetServiceCompletion C);
  task : TaskState
}.

(** The state after [tokio::spawn] in [spawn_dns_service_task] and
    [spawn_tcp_connect_service_task]. *)
Definition spawn_service_task (limits : VmnetServiceIoLimits)
  : result VmnetAsyncServiceWorkerHandle VmnetServiceIoLimitError :=
  let? limits := validate limits in
  Ok (mkWorker (channel_new (command_limit limits)) (channel_new (completion_limit limits))
        Receiving).

Definition try_send_command (w : VmnetAsyncServiceWorkerHandle) (command : VmnetServiceCommand)
  : result unit (TrySendError VmnetServiceCommand) * VmnetAsyncServiceWorkerHandle :=
  let '(r, ch) := try_send (command_ch w) command in (r, mkWorker ch (completion_ch w) (task w)).

Definition try_recv_completion (w : VmnetAsyncServiceWorkerHandle)
  : result (VmnetServiceCompletion C) TryRecvError * VmnetAsyncServiceWorkerHandle :=
  let '(r, ch) := try_recv (completion_ch w) in (r, mkWorker (command_ch w) ch (task w)).

(** [recv_completion]: [None] while it waits. *)
Definition recv_completion (w : VmnetAsyncServiceWorkerHandle)
  : option (option (VmnetServiceCompletion C) * VmnetAsyncServiceWorkerHandle) :=
  match recv (completion_ch w) with
  | None => None
  | Some (r, ch) => Some (r, mkWorker (command_ch w) ch (task w))
  end.

(** Leaving the loop drops the task's ends of the channels. *)
Definition leave (w : VmnetAsyncServiceWorkerHandle) : VmnetAsyncServiceWorkerHandle :=
  mkWorker (drop_receiver (command_ch w)) (drop_sender (completion_ch w)) Finished.

(** One step of the loop of a task; [execute] is
    [execute_dns_service_command] or [execute_tcp_connect_service_command], and
    [join_error] says that the blocking call panicked or was cancelled. *)
Definition task_step {X : Type}
  (execute : X -> VmnetServiceCommand -> ServiceExecution C * X) (join_error : bool)
  (w : VmnetAsyncServiceWorkerHandle) (x : X) : VmnetAsyncServiceWorkerHandle * X :=
  match task w with
  | Receiving =>
      match recv (command_ch w) with
      | None => (w, x)
      | Some (None, ch) => (leave (mkWorker ch (completion_ch w) Receiving), x)
      | Some (Some command, ch) => (mkWorker ch (completion_ch w) (Executing command), x)
      end
  | Executing command =>
      let '(execution, x) := execute x command in
      if join_error then (leave w, x)
      else
        match execution with
        | Unsupported _ => (mkWorker (command_ch w) (completion_ch w) Receiving, x)
        | Completed completion =>
            match try_send (completion_ch w) completion with
            | (Ok _, ch) => (mkWorker (command_ch w) ch Receiving, x)
            | (Err _, ch) => (leave (mkWorker (command_ch w) ch Receiving), x)
            end
        end
  | Finished => (w, x)
  end.

(** ** The owner *)

Context {Pending : Type}.

Record VmnetServiceSubmitError (E : Type) := mkSubmitError {
  se_pending : Pending; se_command : VmnetServiceCommand; se_error : E }.
Arguments mkSubmitError {E}.

Record VmnetServiceSubmitFull := mkSubmitFull {
  sf_capacity : Z; sf_pending : Pending; sf_command : VmnetServiceCommand }.

Inductive VmnetServiceCancelError :=
| CancelNotFound (token : VmnetServiceToken)
| CancelQueueFull (capacity : Z) (command : VmnetServiceCommand).

Record VmnetServiceOwner := mkOwner {
  tokens : VmnetServiceTokenSource;
  pending : gmap Z Pending;
  queues : VmnetServiceIoQueues C
}.

Definition owner_new (limits : VmnetServiceIoLimits)
  : result VmnetServiceOwner VmnetServiceIoLimitError :=
  let? q := queues_new limits in
  Ok (mkOwner tokens_new ∅ q).

Definition submit (o : VmnetServiceOwner) (item : Pending)
  (build_command : Pending -> VmnetServiceToken -> VmnetServiceCommand)
  : exec (result VmnetServiceToken VmnetServiceSubmitFull * VmnetServiceOwner) :=
  let! (token, ts) := next_token (tokens o) in
  let command := build_command item token in
  match owner_send (queues o) command with
  | (Ok _, q) =>
      match pending_insert (pending o) token item with
      | (Err _, _) => Panic
      | (Ok _, items) => Ret (Ok token, mkOwner ts items q)
      end
  | (Err full, q) =>
      Ret (Err (mkSubmitFull (full_capacity full) item (full_item full)), mkOwner ts (pending o) q)
  end.

(** [enqueue] acts on a state [X] of the sink. *)
Definition submit_to {X E : Type} (o : VmnetServiceOwner) (item : Pending)
  (build_command : Pending -> VmnetServiceToken -> VmnetServiceCommand)
  (enqueue : X -> VmnetServiceCommand -> result unit E * X) (x : X)
  : exec (result VmnetServiceToken (VmnetServiceSubmitError E) * VmnetServiceOwner * X) :=
  let! (token, ts) := next_token (tokens o) in
  let command := build_command item token in
  match enqueue x command with
  | (Ok _, x) =>
      match pending_insert (pending o) token item with
      | (Err _, _) => Panic
      | (Ok _, items) => Ret (Ok token, mkOwner ts items (queues o), x)
      end
  | (Err error, x) =>
      Ret (Err (mkSubmitError item command error), mkOwner ts (pending o) (queues o), x)
  end.

Definition submit_to_async_worker (o : VmnetServiceOwner) (item : Pending)
  (build_command : Pending -> VmnetServiceToken -> VmnetServiceCommand)
  (worker : VmnetAsyncServiceWorkerHandle)
  : exec (result VmnetServiceToken (VmnetServiceSubmitError (TrySendError VmnetServiceCommand)) *
          VmnetServiceOwner * VmnetAsyncServiceWorkerHandle) :=
  submit_to o item build_command try_send_command worker.

Definition with_queues (o : VmnetServiceOwner) (q : VmnetServiceIoQueues C) : VmnetServiceOwner :=
  mkOwner (tokens o) (pending o) q.

Definition cancel_pending (o : VmnetServiceOwner) (token : VmnetServiceToken)
  (kind : VmnetServiceIoKind)
  : exec (result Pending VmnetServiceCancelError * VmnetServiceOwner) :=
  let '(found, items) := pending_remove (pending o) token in
  match found with
  | None => Ret (Err (CancelNotFound token), mkOwner (tokens o) items (queues o))
  | Some item =>
      match owner_send (queues o) (Cancel (mkCancel token kind)) with
      | (Ok _, q) => Ret (Ok item, mkOwner (tokens o) items q)
      | (Err full, q) =>
          match pending_insert items token item with
          | (Err _, _) => Panic
          | (Ok _, items) =>
              Ret (Err (CancelQueueFull (full_capacity full) (full_item full)),
                   mkOwner (tokens o) items q)
          end
      end
  end.

Definition service_recv_command (o : VmnetServiceOwner)
  : option VmnetServiceCommand * VmnetServiceOwner :=
  let '(r, q) := queues_recv_command (queues o) in (r, with_queues o q).

Definition service_complete (o : VmnetServiceOwner) (completion : VmnetServiceCompletion C)
  : result unit (VmnetServiceQueueFull (VmnetServiceCompletion C)) * VmnetServiceOwner :=
  let '(r, q) := queues_complete (queues o) completion in (r, with_queues o q).

Definition owner_recv_completion (o : VmnetServiceOwner)
  : option (VmnetServiceCompletion C) * VmnetServiceOwner :=
  let '(r, q) := queues_recv_completion (queues o) in (r, with_queues o q).

Definition remove_pending_for_completion (o : VmnetServiceOwner)
  (completion : VmnetServiceCompletion C) : option Pending * VmnetServiceOwner :=
  let '(r, items) := pending_remove (pending o) (completion_token completion) in
  (r, mkOwner (tokens o) items (queues o)).

Definition drain_pending (o : VmnetServiceOwner)
  : list (VmnetServiceToken * Pending) * VmnetServiceOwner :=
  (map_to_list (pending o), mkOwner (tokens o) ∅ (queues o)).

Definition pending_len (o : VmnetServiceOwner) : Z := Z.of_nat (size (pending o)).

Record VmnetAsyncServiceDrain := mkDrain { drained : Z; disconnected : bool }.

(** Each round that stays in the loop takes a completion out of the channel. *)
Fixpoint drain_worker_loop (fuel : nat) (o : VmnetServiceOwner)
  (worker : VmnetAsyncServiceWorkerHandle) (count : Z)
  : exec (result VmnetAsyncServiceDrain (VmnetServiceQueueFull (VmnetServiceCompletion C)) *
          VmnetServiceOwner * VmnetAsyncServiceWorkerHandle) :=
  match fuel with
  | O => Panic
  | S fuel =>
      match try_recv_completion worker with
      | (Ok completion, worker) =>
          match service_complete o completion with
          | (Err full, o) => Ret (Err full, o, worker)
          | (Ok _, o) => drain_worker_loop fuel o worker (count + 1)
          end
      | (Err Empty, worker) => Ret (Ok (mkDrain count false), o, worker)
      | (Err Disconnected, worker) => Ret (Ok (mkDrain count true), o, worker)
      end
  end.

Definition drain_from_async_worker (o : VmnetServiceOwner)
  (worker : VmnetAsyncServiceWorkerHandle) :=
  drain_worker_loop (S (List.length (queued (completion_ch worker)))) o worker 0.

(** [VmnetDnsServiceStep] and [run_dns_service_owner_step]. *)
Inductive VmnetDnsServiceStep :=
| StepIdle
| StepCompleted
| StepUnsupported (command : VmnetServiceCommand)
| StepQueueFull (full : VmnetServiceQueueFull (VmnetServiceCompletion C)).

Definition run_dns_service_owner_step {W : Type}
  (exchange : W -> Dns.Message -> result Dns.Message Dns.DnsUpstreamError * W)
  (o : VmnetServiceOwner) (upstream : W) : VmnetDnsServiceStep * VmnetServiceOwner * W :=
  match service_recv_command o with
  | (None, o) => (StepIdle, o, upstream)
  | (Some command, o) =>
      match execute_dns_service_command exchange upstream command with
      | (Completed completion, upstream) =>
          match service_complete o completion with
          | (Ok _, o) => (StepCompleted, o, upstream)
          | (Err full, o) => (StepQueueFull full, o, upstream)
          end
      | (Unsupported command, upstream) => (StepUnsupported command, o, upstream)
      end
  end.

End Task.
Arguments VmnetAsyncServiceWorkerHandle {_ _} C.
Arguments VmnetServiceOwner {_} C Pending.
Arguments VmnetServiceSubmitError {_} Pending E.
Arguments mkSubmitError {_ Pending E}.
Arguments se_pending {_ Pending E}.
Arguments se_command {_ Pending E}.
Arguments se_error {_ Pending E}.

(** * Facts *)

Section Facts.
Context `{Dns.HickoryOps} `{Channels} `{!ChannelLaws} {C Pending X : Type}.
Context (execute : X -> VmnetServiceCommand -> ServiceExecution C * X).
Context (build : Pending -> VmnetServiceToken -> VmnetServiceCommand).
(** The command for a pending request carries its token, and the task can
    execute it. *)
Context (build_token : forall item t, command_token (build item t) = t).
Context (execute_build : forall item t x, exists c x',
  execute x (build item t) = (Completed c, x') /\ completion_token c = t).
Local Notation Owner := (VmnetServiceOwner C Pending).
Local Notation Worker := (VmnetAsyncServiceWorkerHandle C).
Implicit Types o : Owner.
Implicit Types w : Worker.

Definition running (s : TaskState) : list VmnetServiceCommand :=
  match s with Executing c => [c] | _ => [] end.

(** The commands the task has not executed yet, and the tokens of all requests on
    their way, oldest first. *)
Definition waiting w : list VmnetServiceCommand := running (task w) ++ queued (command_ch w).
Definition inflight w : list Z :=
  map completion_token (queued (completion_ch w)) ++ map command_token (waiting w).

Definition within {A} (c : channel A) : Prop := 0 < ch_capacity c /\ len (queued c) <= ch_capacity c.

Record service_ok o w : Prop := {
  so_sorted : StronglySorted Z.lt (inflight w);
  so_next t : is_Some (pending o !! t) -> t < next (tokens o);
  so_inflight t : t ∈ inflight w -> is_Some (pending o !! t);
  (** A request that is not on its way is lost, and younger than those that are. *)
  so_order t : is_Some (pending o !! t) -> t ∉ inflight w ->
    task w = Finished /\ forall t', t' ∈ inflight w -> t' < t;
  so_waiting c : c ∈ waiting w -> exists item,
    pending o !! command_token c = Some item /\ c = build item (command_token c);
  so_completions c : c ∈ queued (completion_ch w) -> exists item x,
    pending o !! completion_token c = Some item /\
    (execute x (build item (completion_token c))).1 = Completed c;
  so_bounds : within (command_ch w) /\ within (completion_ch w);
  so_ends : receiver_dropped (completion_ch w) = false /\ sender_dropped (command_ch w) = false;
  so_task : if decide (task w = Finished)
    then sender_dropped (completion_ch w) = true /\ receiver_dropped (command_ch w) = true /\
      waiting w = []
    else sender_dropped (completion_ch w) = false /\ receiver_dropped (command_ch w) = false
}.

Lemma worker_eta w : mkWorker (command_ch w) (completion_ch w) (task w) = w.
Proof. by destruct w. Qed.

(** Tokens given out without a request do no harm. *)
Lemma service_ok_skip o w ts q :
  next (tokens o) <= next ts -> service_ok o w -> service_ok (mkOwner ts (pending o) q) w.
Proof.
  intros Hn [? Hx ? ? ? ? ? ? ?]. split; cbn; try done. intros t Ht. specialize (Hx t Ht). lia.
Qed.

Lemma spawn_ok limits o w :
  0 <= command_limit limits -> 0 <= completion_limit limits ->
  owner_new limits = Ok o -> spawn_service_task limits = Ok w -> service_ok o w.
Proof.
  intros Hc1 Hc2. unfold owner_new, queues_new, spawn_service_task, validate. cbn.
  case_test; [done|]. case_test; [done|]. intros [= <-] [= <-].
  destruct (channel_new_spec (A := VmnetServiceCommand) (command_limit limits)) as (Eq1 & En1 & Es1 & Er1); [lia|].
  destruct (channel_new_spec (A := VmnetServiceCompletion C) (completion_limit limits)) as (Eq2 & En2 & Es2 & Er2); [lia|].
  split; unfold inflight, waiting, within; cbn; rewrite ?Eq1, ?Eq2, ?En1, ?En2, ?Es1, ?Es2; cbn;
    try (by intros ? []%lookup_empty_is_Some); try (by intros ? ?%elem_of_nil).
  - constructor.
  - unfold len; cbn; lia.
  - done.
  - done.
Qed.

Lemma submit_ok o w item :
  service_ok o w -> next (tokens o) < u64_max ->
  exists r o' w', submit_to_async_worker o item build w = Ret (r, o', w') /\
    service_ok o' w' /\ next (tokens o') = next (tokens o) + 1 /\ task w' = task w /\
    match r with
    | Ok t => t = next (tokens o) /\ pending o' = <[t := item]> (pending o) /\
        inflight w' = inflight w ++ [t]
    | Err e => se_pending e = item /\ pending o' = pending o /\ w' = w
    end.
Proof.
  intros Hok Hn. unfold submit_to_async_worker, submit_to, next_token.
  case_test; [|lia]. cbn [exec_bind]. unfold try_send_command.
  set (t := next (tokens o)). set (ts := mkTokens (t + 1)).
  assert (forall (e : TrySendError VmnetServiceCommand), exists r o' w',
    Ret (Err (mkSubmitError item (build item t) e), mkOwner ts (pending o) (queues o),
         mkWorker (command_ch w) (completion_ch w) (task w)) = Ret (r, o', w') /\
    service_ok o' w' /\ next (tokens o') = t + 1 /\ task w' = task w /\
    match r with
    | Ok t => t = next (tokens o) /\ pending o' = <[t := item]> (pending o) /\
        inflight w' = inflight w ++ [t]
    | Err e => se_pending e = item /\ pending o' = pending o /\ w' = w
    end) as Hrefused.
  { intros e. do 3 eexists. split; [done|]. rewrite worker_eta. split; [|done].
    apply service_ok_skip; [cbn; lia|done]. }
  destruct (receiver_dropped (command_ch w)) eqn:Er.
  { rewrite (try_send_closed _ _ Er). apply Hrefused. }
  destruct (Z.lt_ge_cases (len (queued (command_ch w))) (ch_capacity (command_ch w))) as [Hl|Hl]; cycle 1.
  { rewrite (try_send_full _ _ Er Hl). apply Hrefused. }
  destruct (try_send_ok (command_ch w) (build item t) Er Hl) as (ch & -> & (Ec1 & Ec2 & Ec3) & Eq).
  destruct Hok as [Hs Hx Hi Ho Hw Hc [Hb1 Hb2] [He1 He2] Ht].
  assert (pending o !! t = None) as Hfresh.
  { destruct (pending o !! t) eqn:E; [|done]. specialize (Hx t (mk_is_Some _ _ E)). lia. }
  assert (task w <> Finished) as Hnf.
  { intros E. rewrite decide_True in Ht by done. destruct Ht as (_ & Ht & _). congruence. }
  unfold pending_insert. rewrite Hfresh. do 3 eexists. split; [done|].
  assert (inflight (mkWorker ch (completion_ch w) (task w)) = inflight w ++ [t]) as Hin.
  { unfold inflight, waiting. cbn. rewrite Eq, !map_app, !(assoc_L (++)). cbn. by rewrite build_token. }
  split; [|done]. split; rewrite ?Hin; cbn.
  - apply StronglySorted_app_2; [|done|by repeat constructor].
    intros t1 t2 Ht1 ->%list_elem_of_singleton. by apply Hx, Hi.
  - intros t'. rewrite lookup_insert_is_Some'. intros [<-|Ht']; [lia|]. specialize (Hx _ Ht'). lia.
  - intros t' [Ht'| ->%list_elem_of_singleton]%elem_of_app; rewrite lookup_insert_is_Some'; auto.
  - intros t'. rewrite lookup_insert_is_Some', elem_of_app, list_elem_of_singleton.
    intros [<-|Ht'] Hni; [tauto|]. destruct (Ho t'); [done|tauto|done].
  - intros c. unfold waiting. cbn. rewrite Eq, (assoc_L (++)), elem_of_app, list_elem_of_singleton.
    intros [Hc'| ->].
    + destruct (Hw c Hc') as (it & E & ?). exists it. split; [|done]. rewrite lookup_insert_ne; [done|]. congruence.
    + rewrite build_token. exists item. by rewrite lookup_insert_eq.
  - intros c Hc'. destruct (Hc c Hc') as (it & x & E & ?). exists it, x. split; [|done].
    rewrite lookup_insert_ne; [done|]. congruence.
  - split; [|done]. unfold within in *. rewrite Ec1, Eq, len_app. change (len [_]) with 1. lia.
  - by rewrite Ec2.
  - rewrite decide_False in Ht |- * by done. by rewrite Ec3.
Qed.

(** The task leaves its loop: what it had not finished is lost. *)
Lemma leave_ok o w : service_ok o w -> task w <> Finished -> service_ok o (leave w).
Proof.
  intros [Hs Hx Hi Ho Hw Hc [Hb1 Hb2] [He1 He2] Ht] Hnf. rewrite decide_False in Ht by done.
  destruct (drop_sender_spec (completion_ch w)) as (Eq1 & Ec1 & Es1 & Er1).
  destruct (drop_receiver_spec (command_ch w)) as (Eq2 & Ec2 & Es2 & Er2).
  assert (inflight (leave w) = map completion_token (queued (completion_ch w))) as Hin.
  { unfold inflight, waiting, leave. cbn. rewrite Eq1, Eq2. cbn. by rewrite app_nil_r. }
  unfold inflight in Hs, Hi, Ho. apply StronglySorted_app in Hs as (Hlt & Hs1 & _).
  split; rewrite ?Hin; unfold within, waiting in *; cbn;
    rewrite ?Eq1, ?Eq2, ?Ec1, ?Ec2, ?Es1, ?Es2, ?Er1, ?Er2.
  - done.
  - done.
  - intros t Ht'. apply Hi, elem_of_app. by left.
  - intros t Hp Hni. split; [done|]. intros t' Ht'. apply Hlt; [done|].
    destruct (decide (t ∈ map completion_token (queued (completion_ch w)) ++
      map command_token (running (task w) ++ queued (command_ch w)))) as [Hin'|Hno].
    + by apply elem_of_app in Hin' as [?|?].
    + by destruct (Ho t Hp Hno).
  - by intros c ?%elem_of_nil.
  - done.
  - split; [|done]. change (len []) with 0. lia.
  - done.
  - done.
Qed.

(** What a step of the task does to the world: nothing, or it executes a request
    that is pending. *)
Definition worked o (x x' : X) : Prop :=
  x' = x \/ exists t item, pending o !! t = Some item /\ x' = (execute x (build item t)).2.

Lemma receive_ok o w command ch :
  service_ok o w -> task w = Receiving -> recv (command_ch w) = Some (Some command, ch) ->
  service_ok o (mkWorker ch (completion_ch w) (Executing command)).
Proof.
  intros [Hs Hx Hi Ho Hw Hc [Hb1 Hb2] [He1 He2] Ht] Et. unfold recv.
  destruct (queued (command_ch w)) as [|c rest] eqn:Eq.
  { rewrite (try_recv_empty _ Eq), He2. done. }
  destruct (try_recv_ok _ _ _ Eq) as (ch' & -> & (Ec1 & Ec2 & Ec3) & Eq'). intros [= -> ->].
  assert (waiting (mkWorker ch (completion_ch w) (Executing command)) = waiting w) as Hwt.
  { unfold waiting. cbn. by rewrite Eq', Et, Eq. }
  rewrite Et in Ht. cbn in Ht.
  split; unfold inflight, within in *; rewrite ?Hwt; cbn; rewrite ?Ec1, ?Ec2, ?Ec3, ?Eq'; try done.
  - intros t Hp Hni. destruct (Ho t Hp Hni). congruence.
  - split; [|done]. rewrite Eq, len_cons in Hb1. lia.
Qed.

Lemma complete_ok o w command completion x :
  service_ok o w -> task w = Executing command ->
  (execute x command).1 = Completed completion -> completion_token completion = command_token command ->
  service_ok o
    (match try_send (completion_ch w) completion with
     | (Ok _, ch) => mkWorker (command_ch w) ch Receiving
     | (Err _, ch) => leave (mkWorker (command_ch w) ch Receiving)
     end).
Proof.
  intros Hok Et Eex Etok. pose proof Hok as [Hs Hx Hi Ho Hw Hc [Hb1 Hb2] [He1 He2] Ht].
  destruct (Z.lt_ge_cases (len (queued (completion_ch w))) (ch_capacity (completion_ch w))) as [Hl|Hl]; cycle 1.
  { rewrite (try_send_full _ _ He1 Hl). change (leave (mkWorker (command_ch w) (completion_ch w) Receiving)) with (leave w).
    apply leave_ok; [done|]. by rewrite Et. }
  destruct (try_send_ok _ completion He1 Hl) as (ch & -> & (Ec1 & Ec2 & Ec3) & Eq).
  assert (inflight (mkWorker (command_ch w) ch Receiving) = inflight w) as Hin.
  { unfold inflight, waiting. cbn. rewrite Eq, Et, map_app, <-(assoc_L (++)). cbn. by rewrite Etok. }
  rewrite Et in Ht. cbn in Ht.
  split; rewrite ?Hin; unfold within in *; cbn; rewrite ?Ec1, ?Ec2, ?Ec3, ?Eq; try done.
  - intros t Hp Hni. destruct (Ho t Hp Hni). congruence.
  - intros c Hc'. apply Hw. unfold waiting in *. rewrite Et. cbn in *. by right.
  - intros c [Hc'| ->%list_elem_of_singleton]%elem_of_app; [by apply Hc|].
    destruct (Hw command) as (item & Ep & Eb). { unfold waiting. rewrite Et. by left. }
    exists item, x. rewrite Etok. split; [done|]. by rewrite <-Eb.
  - split; [done|]. rewrite len_app. change (len [_]) with 1. lia.
Qed.

Lemma task_step_ok o w x je :
  service_ok o w ->
  service_ok o (task_step execute je w x).1 /\ worked o x (task_step execute je w x).2.
Proof.
  intros Hok. unfold task_step. destruct (task w) as [|command|] eqn:Et; [| |by split; [|left]].
  - destruct (recv (command_ch w)) as [[[command|] ch]|] eqn:Er; [| |by split; [|left]].
    + split; [by eapply receive_ok|by left].
    + exfalso. unfold recv in Er. pose proof (so_ends _ _ Hok) as [_ He2].
      destruct (queued (command_ch w)) as [|c rest] eqn:Eq.
      * rewrite (try_recv_empty _ Eq), He2 in Er. done.
      * by destruct (try_recv_ok _ _ _ Eq) as (ch' & E & _); rewrite E in Er.
  - destruct (so_waiting _ _ Hok command) as (item & Ep & Eb). { unfold waiting. rewrite Et. by left. }
    destruct (execute_build item (command_token command) x) as (c & x' & Ex & Etok).
    rewrite <-Eb in Ex. rewrite Ex. assert (worked o x x') as Hwk.
    { right. exists (command_token command), item. rewrite <-Eb, Ex. by split. }
    destruct je; [split; [apply leave_ok; [done|by rewrite Et]|done]|].
    pose proof (complete_ok o w command c x Hok Et) as Hcp. rewrite Ex in Hcp.
    destruct (try_send (completion_ch w) c) as [[|] ch]; split; try done; by apply Hcp.
Qed.

(** The owner takes a completion: it answers the oldest pending request. *)
Lemma collect_ok o w c w' :
  service_ok o w -> recv_completion w = Some (Some c, w') ->
  exists item x, pending o !! completion_token c = Some item /\
    (execute x (build item (completion_token c))).1 = Completed c /\
    (remove_pending_for_completion o c).1 = Some item /\
    service_ok (remove_pending_for_completion o c).2 w' /\
    inflight w = completion_token c :: inflight w' /\ task w' = task w /\
    forall t, is_Some (pending o !! t) -> completion_token c <= t.
Proof.
  intros [Hs Hx Hi Ho Hw Hc [Hb1 Hb2] [He1 He2] Ht]. unfold recv_completion, recv.
  destruct (queued (completion_ch w)) as [|c' rest] eqn:Eq.
  { rewrite (try_recv_empty _ Eq). by destruct (sender_dropped (completion_ch w)). }
  destruct (try_recv_ok _ _ _ Eq) as (ch & -> & (Ec1 & Ec2 & Ec3) & Eq'). intros [= -> <-].
  set (t0 := completion_token c). set (w' := mkWorker (command_ch w) ch (task w)).
  destruct (Hc c) as (item & x & Ep & Ex); [by left|].
  assert (inflight w = t0 :: inflight w') as Hin.
  { unfold inflight, waiting. cbn. by rewrite Eq, Eq'. }
  rewrite Hin in Hs. apply StronglySorted_cons in Hs as [Hmin Hs]. rewrite Forall_forall in Hmin.
  assert (forall t, t ∈ inflight w' -> t <> t0) as Hne by (intros t Htn ->; specialize (Hmin _ Htn); lia).
  assert (forall c', c' ∈ waiting w -> command_token c' ∈ inflight w') as Hwt.
  { intros c' Hc'. unfold inflight. apply elem_of_app. right. by apply list_elem_of_fmap_2. }
  exists item, x. split; [done|]. split; [done|]. split; [done|]. split; [|split; [done|split; [done|]]]; cycle 1.
  { intros t Hp. destruct (decide (t ∈ inflight w)) as [Htn|Htn].
    - rewrite Hin in Htn. apply elem_of_cons in Htn as [Ht0|Htn]; [lia|]. specialize (Hmin _ Htn). lia.
    - destruct (Ho t Hp Htn) as [_ Hlt]. rewrite Hin in Hlt. specialize (Hlt t0 ltac:(by left)). lia. }
  split; cbn; unfold within in *; rewrite ?Ec1, ?Ec2, ?Ec3, ?Eq'.
  - done.
  - intros t [_ Hp]%lookup_delete_is_Some. by apply Hx.
  - intros t Htn. apply lookup_delete_is_Some. split; [intros E0; by apply (Hne t)|].
    apply Hi. rewrite Hin. by right.
  - intros t [Hd Hp]%lookup_delete_is_Some Hni. destruct (Ho t Hp) as [Hf Hlt].
    + rewrite Hin. apply not_elem_of_cons. by split.
    + split; [done|]. intros t' Ht'. apply Hlt. rewrite Hin. by right.
  - intros c' Hc'. destruct (Hw c' Hc') as (it & E & ?). exists it. split; [|done].
    rewrite lookup_delete_ne; [done|]. intros E'. by apply (Hne _ (Hwt c' Hc')).
  - intros c' Hc'. destruct (Hc c') as (it & y & E & ?); [by right|]. exists it, y. split; [|done].
    rewrite lookup_delete_ne; [done|]. intros E'. apply (Hne (completion_token c')); [|done].
    unfold inflight. cbn. rewrite Eq'. apply elem_of_app. left. by apply list_elem_of_fmap_2.
  - rewrite Eq, len_cons in Hb2. split; [done|]. lia.
  - done.
  - done.
Qed.

(** The end of the channel: the task has left its loop and every completion was
    taken. *)
Lemma disconnected_ok o w w' :
  service_ok o w -> recv_completion w = Some (None, w') ->
  w' = w /\ task w = Finished /\ inflight w = [].
Proof.
  intros [Hs Hx Hi Ho Hw Hc [Hb1 Hb2] [He1 He2] Ht]. unfold recv_completion, recv, inflight.
  destruct (queued (completion_ch w)) as [|c' rest] eqn:Eq; cycle 1.
  { by destruct (try_recv_ok _ _ _ Eq) as (ch & -> & _). }
  rewrite (try_recv_empty _ Eq). destruct (sender_dropped (completion_ch w)) eqn:Es; [|done].
  intros [= <-]. case_decide; [|by destruct Ht]. destruct Ht as (_ & _ & ->). by rewrite worker_eta.
Qed.

(** ** Histories *)

(** The owner submits requests and takes completions, while the task runs. *)
Inductive service_step : Owner * Worker * X -> Owner * Worker * X -> Prop :=
| sv_submit o w x item r o' w' :
    submit_to_async_worker o item build w = Ret (r, o', w') -> service_step (o, w, x) (o', w', x)
| sv_task o w x je w' x' :
    task_step execute je w x = (w', x') -> service_step (o, w, x) (o, w', x')
| sv_collect o w x c w' :
    recv_completion w = Some (Some c, w') ->
    service_step (o, w, x) ((remove_pending_for_completion o c).2, w', x).

Lemma service_step_ok s s' :
  service_step s s' -> service_ok s.1.1 s.1.2 -> service_ok s'.1.1 s'.1.2.
Proof.
  intros Hstep. destruct Hstep as [o w x item r o' w' E|o w x je w' x' E|o w x c w' E]; cbn; intros Hok.
  - destruct (Z.lt_ge_cases (next (tokens o)) u64_max) as [Hn|Hn].
    + destruct (submit_ok o w item Hok Hn) as (r1 & o1 & w1 & E1 & ? & _).
      rewrite E in E1. by injection E1 as <- <- <-.
    + unfold submit_to_async_worker, submit_to, next_token in E.
      by rewrite (proj2 (Z.ltb_ge _ _) Hn) in E.
  - destruct (task_step_ok o w x je Hok) as [Hok' _]. by rewrite E in Hok'.
  - by destruct (collect_ok o w c w' Hok E) as (? & ? & _ & _ & _ & ? & _).
Qed.

Lemma NoDup_sorted (l : list Z) : StronglySorted Z.lt l -> NoDup l.
Proof.
  induction 1 as [|t l _ IH Hf]; constructor; [|done].
  intros Hin. rewrite Forall_forall in Hf. specialize (Hf t Hin). lia.
Qed.

(** C11 (refinement). Requests and completions are matched up. Over any
    interleaving of submissions, of steps of the task and of completions taken,
    from a fresh owner and a fresh task: both channels stay within their
    capacities; as long as the task runs, the requests on their way are exactly
    the pending ones, each once; a completion that the owner takes is the outcome
    of executing the pending request with its token, and that request is the
    oldest one pending, so answers are neither lost, repeated, swapped nor
    reordered; and the end of the channel is reported only when the task has
    ended. *)
Theorem service_correlation limits o0 w0 x0 o w x :
  0 <= command_limit limits -> 0 <= completion_limit limits ->
  owner_new limits = Ok o0 -> spawn_service_task limits = Ok w0 ->
  rtc service_step (o0, w0, x0) (o, w, x) ->
  within (command_ch w) /\ within (completion_ch w) /\
  (task w <> Finished -> inflight w ≡ₚ (map_to_list (pending o)).*1) /\
  (forall c w', recv_completion w = Some (Some c, w') -> exists item y,
     (remove_pending_for_completion o c).1 = Some item /\
     (execute y (build item (completion_token c))).1 = Completed c /\
     forall t, is_Some (pending o !! t) -> completion_token c <= t) /\
  (forall w', recv_completion w = Some (None, w') -> task w = Finished).
Proof.
  intros Hc1 Hc2 Ho Hw Hsteps.
  assert (service_ok o w) as Hok.
  { pose proof (spawn_ok limits o0 w0 Hc1 Hc2 Ho Hw) as Hinit.
    change (service_ok (o, w, x).1.1 (o, w, x).1.2). change (service_ok (o0, w0, x0).1.1 (o0, w0, x0).1.2) in Hinit.
    remember (o0, w0, x0) as s eqn:Es. remember (o, w, x) as s' eqn:Es'. clear Es Es'.
    induction Hsteps; eauto using service_step_ok. }
  split; [apply Hok|]. split; [apply Hok|]. split_and!.
  - intros Hnf. apply NoDup_Permutation.
    + by eapply NoDup_sorted, so_sorted.
    + apply NoDup_fst_map_to_list.
    + intros t. rewrite list_elem_of_fmap. split.
      * intros [item E]%(so_inflight _ _ Hok). exists (t, item). by rewrite elem_of_map_to_list.
      * intros ([t' item] & -> & E%elem_of_map_to_list). cbn.
        destruct (decide (t' ∈ inflight w)) as [|Hni]; [done|].
        by destruct (so_order _ _ Hok t' (mk_is_Some _ _ E) Hni).
  - intros c w' E. destruct (collect_ok o w c w' Hok E) as (item & y & ? & ? & ? & _ & _ & _ & ?).
    by exists item, y.
  - intros w' E. by destruct (disconnected_ok o w w' Hok E) as (_ & ? & _).
Qed.

(** When a task has executed a request while the owner has not taken
    enough completions, so that the channel of completions is full, the task
    ends: that request stays pending without being on its way any more, as do all
    requests behind it, and from then on every submission is refused. *)
Theorem completion_overflow_ends_task o w x je command :
  service_ok o w -> task w = Executing command ->
  ch_capacity (completion_ch w) <= len (queued (completion_ch w)) ->
  let w' := (task_step execute je w x).1 in
  task w' = Finished /\ service_ok o w' /\
  (forall c, c ∈ waiting w ->
     is_Some (pending o !! command_token c) /\ command_token c ∉ inflight w') /\
  forall item, next (tokens o) < u64_max ->
    exists e o', submit_to_async_worker o item build w' = Ret (Err e, o', w') /\
      pending o' = pending o.
Proof.
  intros Hok Et Hfull w'. destruct (task_step_ok o w x je Hok) as [Hok' _]. fold w' in Hok'.
  assert (w' = leave w) as Hw'.
  { subst w'. unfold task_step. rewrite Et.
    destruct (so_waiting _ _ Hok command) as (item & _ & Eb). { unfold waiting. rewrite Et. by left. }
    destruct (execute_build item (command_token command) x) as (c & x' & Ex & _).
    rewrite <-Eb in Ex. rewrite Ex. destruct je; [done|].
    by rewrite (try_send_full _ _ (proj1 (so_ends _ _ Hok)) Hfull). }
  split; [by rewrite Hw'|]. split; [done|]. split.
  - intros c Hc. destruct (so_waiting _ _ Hok c Hc) as (item & Ep & _). split; [by rewrite Ep|].
    rewrite Hw'. unfold inflight, waiting, leave. cbn.
    rewrite (proj1 (drop_sender_spec _)), (proj1 (drop_receiver_spec _)). cbn. rewrite app_nil_r.
    intros Hin. pose proof (so_sorted _ _ Hok) as Hs. apply StronglySorted_app in Hs as (Hlt & _).
    specialize (Hlt _ (command_token c) Hin ltac:(by apply list_elem_of_fmap_2)). lia.
  - intros item Hn. destruct (submit_ok o w' item Hok' Hn) as (r & o' & w2 & E & _ & _ & _ & Hr).
    rewrite E. destruct r as [t|e]; [|destruct Hr as (_ & Hp & ->); by exists e, o'].
    exfalso. unfold submit_to_async_worker, submit_to, next_token in E.
    rewrite (proj2 (Z.ltb_lt _ _) Hn) in E. cbn in E. unfold try_send_command in E.
    rewrite Hw' in E. cbn in E.
    by rewrite (try_send_closed _ _ (proj2 (proj2 (proj2 (drop_receiver_spec (command_ch w)))))) in E.
Qed.

End Facts.

(** * Witnesses *)

#[local] Existing Instance Vmnet.toy_hickory.

(** Every connection attempt succeeds; the connector counts them. *)
#[local] Instance counting : TcpUpstreamConnector Z Z := fun k _ => (Ok k, k + 1).

Definition dial_command (d : Tcp.TcpDestination) (t : VmnetServiceToken) : VmnetServiceCommand :=
  TcpConnect (mkConnectCommand t d).

Lemma dial_executes (d : Tcp.TcpDestination) t (k : Z) : exists (c : VmnetServiceCompletion Z) k',
  execute_tcp_connect_service_command k (dial_command d t) = (Completed c, k') /\
  completion_token c = t.
Proof. by do 2 eexists. Qed.

Definition some_host : Tcp.TcpDestination := Tcp.mkDest (Ipv4 Byte.x01 Byte.x01 Byte.x01 Byte.x01) 80 None.

Definition small_limits : VmnetServiceIoLimits := mkIoLimits 2 1.

Definition fresh_owner : VmnetServiceOwner Z Tcp.TcpDestination :=
  mkOwner (mkTokens 1) ∅ (mkQueues 2 1 [] []).
Definition fresh_worker : VmnetAsyncServiceWorkerHandle Z :=
  mkWorker (mkFifo [] 2 false false) (mkFifo [] 1 false false) Receiving.

Definition busy_owner : VmnetServiceOwner Z Tcp.TcpDestination :=
  mkOwner (mkTokens 2) {[1 := some_host]} (mkQueues 2 1 [] []).
Definition answered_worker : VmnetAsyncServiceWorkerHandle Z :=
  mkWorker (mkFifo [] 2 false false)
    (mkFifo [TcpConnectDone (mkConnectCompletion 1 (Ok 7))] 1 false false) Receiving.

Lemma answered_history :
  rtc (service_step execute_tcp_connect_service_command dial_command)
    (fresh_owner, fresh_worker, 7) (busy_owner, answered_worker, 8).
Proof.
  eapply rtc_l; [by apply (sv_submit _ _ fresh_owner fresh_worker 7 some_host (Ok 1))|].
  eapply rtc_l; [by eapply (sv_task _ _ _ _ _ false)|].
  eapply rtc_l; [by eapply (sv_task _ _ _ _ _ false)|].
  apply rtc_refl.
Qed.

Lemma service_correlation_witness :
  exists item y,
    (remove_pending_for_completion busy_owner (TcpConnectDone (mkConnectCompletion 1 (Ok 7)))).1
      = Some item /\
    (execute_tcp_connect_service_command y (dial_command item 1)).1
      = Completed (TcpConnectDone (mkConnectCompletion (C := Z) 1 (Ok 7))).
Proof.
  destruct (service_correlation execute_tcp_connect_service_command dial_command
    (fun _ _ => eq_refl) dial_executes small_limits fresh_owner fresh_worker 7 busy_owner
    answered_worker 8) as (_ & _ & _ & Hc & _);
    [done|done|done|done|exact answered_history|].
  destruct (Hc _ _ eq_refl) as (item & y & E & Ex & _). by exists item, y.
Defined.

Definition crowded_owner : VmnetServiceOwner Z Tcp.TcpDestination :=
  mkOwner (mkTokens 3) (<[2 := some_host]> {[1 := some_host]}) (mkQueues 2 1 [] []).
Definition crowded_worker : VmnetAsyncServiceWorkerHandle Z :=
  mkWorker (mkFifo [] 2 false false)
    (mkFifo [TcpConnectDone (mkConnectCompletion 1 (Ok 7))] 1 false false)
    (Executing (dial_command some_host 2)).

Lemma crowded_ok :
  service_ok execute_tcp_connect_service_command dial_command crowded_owner crowded_worker.
Proof.
  assert (service_ok execute_tcp_connect_service_command dial_command busy_owner answered_worker) as Hok.
  { pose proof (spawn_ok execute_tcp_connect_service_command dial_command small_limits fresh_owner
      fresh_worker ltac:(done) ltac:(done) eq_refl eq_refl) as Hinit.
    pose proof answered_history as Hh.
    change (service_ok execute_tcp_connect_service_command dial_command
      (busy_owner, answered_worker, 8).1.1 (busy_owner, answered_worker, 8).1.2).
    change (service_ok execute_tcp_connect_service_command dial_command
      (fresh_owner, fresh_worker, 7).1.1 (fresh_owner, fresh_worker, 7).1.2) in Hinit.
    induction Hh as [|s1 s2 s3 Hs _ IH]; [done|]. apply IH.
    by eapply (service_step_ok _ dial_command (fun _ _ => eq_refl) dial_executes). }
  destruct (submit_ok execute_tcp_connect_service_command dial_command (fun _ _ => eq_refl)
    busy_owner answered_worker some_host Hok ltac:(done)) as (r & o & w & E & Hok2 & _).
  injection E as <- <- <-.
  by destruct (task_step_ok execute_tcp_connect_service_command dial_command dial_executes _ _ 8 false Hok2).
Qed.

End ServiceIo.
