(* ===== verification/VmnetRuntime.v ===== *)
(** The owner loop of the network (src/vm-frontend/src/vmnet_runtime.rs): it
    waits for a frame of QEMU, a completion of a service task, a timer or a ready
    descriptor, lets the gateway, the TCP proxy and the host ingress react, and
    writes the frames for the guest and the event log.

    The service tasks of VmnetServiceIo run on other threads: [let_tasks_run]
    stands before each operation of the owner on their channels, with a schedule
    that the theorems leave open. An error of the loop ends it, so the functions
    that can fail give back a state only when they succeed. The text of log
    lines and traces is not modelled: a log line is the event. *)

From stdpp Require Import base option list numbers strings gmap sets relations.
From Stdlib Require Import ZArith Lia String.
From S2P Require Import Prelude RustIo RustStr NetworkPolicy L2Gateway DnsProxy TcpGateway.
From S2P Require Import StreamBuffer VmnetStream Smoltcp GuestTcp VmnetGateway HostIngress TlsMitm.
From S2P Require Import HttpRequest TcpProxy VmnetServiceIo.

Local Open Scope list_scope.
Local Open Scope Z_scope.

Module Runtime.
Import Mpsc ServiceIo GuestTcp Vmnet VmnetStream.

(** ** Events of the loop *)

Inductive VmnetEventSource :=
| HostListener (index : nat)
| HostSession (handle : SocketHandle)
| UpstreamSession (handle : SocketHandle).

#[global] Instance VmnetEventSource_eq_dec : EqDecision VmnetEventSource.
Proof. solve_decision. Defined.

Inductive VmnetGatewayEvent :=
| EvDnsQuery (log : Dns.DnsLogEntry)
| EvUdpDenied (denial : UdpDenial)
| EvUnsupportedProtocol (unsupported : UnsupportedProtocol)
| EvTcpDenied (destination : Tcp.TcpDestination) (decision : Tcp.TcpDecision)
| EvTcpSetupFailed (destination : Tcp.TcpDestination) (detail : string).

Definition gateway_event_from_outcome (o : GuestFrameOutcome) : option VmnetGatewayEvent :=
  match o with
  | DnsQuery log => Some (EvDnsQuery log)
  | UdpDenied denial => Some (EvUdpDenied denial)
  | Vmnet.Unsupported unsupported => Some (EvUnsupportedProtocol unsupported)
  | TcpDenied destination decision => Some (EvTcpDenied destination decision)
  | TcpSetupFailed destination detail => Some (EvTcpSetupFailed destination detail)
  | L2Response | TcpAccepted _ _ | TcpProgress | Ignored => None
  end.

Inductive VmnetRuntimeError :=
| RuntimeIo (error : io_error)
| RuntimeStream (error : VmnetStreamError)
| RuntimeGateway (error : VmnetGatewayError)
| RuntimeTls (error : TlsMitm.TlsMitmError)
| RuntimeLimits (error : VmnetServiceIoLimitError).

Definition dns_frame_result_to_guest (result : DnsFrameResult) : GuestFrameResult :=
  mkFrameResult (DnsQuery (frame_log result)) (collect (frame_response result)).

(** ** Ready descriptors *)

Record VmnetAsyncFdInterest := mkFdInterest { fd_readable : bool; fd_writable : bool }.

Definition FdInterest_new (readable writable : bool) : option VmnetAsyncFdInterest :=
  if readable || writable then Some (mkFdInterest readable writable) else None.

Record VmnetAsyncFdRegistration := mkRegistration {
  reg_source : VmnetEventSource; reg_fd : Z; reg_interest : VmnetAsyncFdInterest }.

(** What polling the readiness of a descriptor finds. *)
Inductive Readiness := NotReady | Ready | ReadyError (error : io_error).

(** One round of [poll_fn] over the registrations, in the order they are polled;
    [None] while none is ready. *)
Fixpoint poll_fds (read_ready write_ready : Z -> Readiness)
  (async_fds : list (nat * VmnetAsyncFdRegistration))
  : option (io_result (nat * VmnetEventSource * bool * bool)) :=
  match async_fds with
  | [] => None
  | (index, registration) :: rest =>
      let write_side :=
        if fd_writable (reg_interest registration) then
          match write_ready (reg_fd registration) with
          | Ready => Some (Ok (index, reg_source registration, false, true))
          | ReadyError error => Some (Err error)
          | NotReady => poll_fds read_ready write_ready rest
          end
        else poll_fds read_ready write_ready rest in
      if fd_readable (reg_interest registration) then
        match read_ready (reg_fd registration) with
        | Ready => Some (Ok (index, reg_source registration, true, false))
        | ReadyError error => Some (Err error)
        | NotReady => write_side
        end
      else write_side
  end.

(** The registrations with their indices, from [start] on and around. *)
Definition rotate (start : nat) (registrations : list VmnetAsyncFdRegistration)
  : list (nat * VmnetAsyncFdRegistration) :=
  omap (fun offset =>
    let index := Nat.modulo (start + offset) (List.length registrations) in
    r ← registrations !! index; Some (index, r))
    (seq 0 (List.length registrations)).

(** [AsyncFd::new] may refuse a descriptor. *)
Definition wait_async_fd_registrations (async_fd_new : Z -> io_result unit)
  (read_ready write_ready : Z -> Readiness)
  (registrations : list VmnetAsyncFdRegistration) (cursor : nat)
  : option (result (option (VmnetEventSource * bool * bool)) VmnetRuntimeError * nat) :=
  match registrations with
  | [] => Some (Ok None, O)
  | _ =>
      let start := Nat.modulo cursor (List.length registrations) in
      let async_fds := rotate start registrations in
      match foldr (fun ir acc => let? _ := async_fd_new (reg_fd ir.2) in acc) (Ok tt) async_fds with
      | Err error => Some (Err (RuntimeIo error), cursor)
      | Ok _ =>
          match poll_fds read_ready write_ready async_fds with
          | None => None
          | Some (Err error) => Some (Err (RuntimeIo error), cursor)
          | Some (Ok (index, source, readable, writable)) =>
              Some (Ok (Some (source, readable, writable)),
                    Nat.modulo (index + 1) (List.length registrations))
          end
      end
  end.

(** ** Output *)

Record VmnetRuntimeStats {PE IE : Type} := mkStats {
  guest_frames_read : Z;
  guest_frames_written : Z;
  gateway_events : list VmnetGatewayEvent;
  proxy_events : list PE;
  host_ingress_events : list IE
}.
Arguments VmnetRuntimeStats : clear implicits.
Arguments mkStats {PE IE}.

Section Output.
Context {T : Type} `{Write T}.
(** The capture file. *)
Context {P : Type} (write_ethernet_frame : P -> list byte -> io_result unit * P).

(** The stream to QEMU, the capture, and how many frames were written. *)
Record out := mkOut { frame_io : QemuFrameIo T; pcap : option P; written : Z }.

Definition capture_frame (pcap : option P) (frame : list byte)
  : result (option P) VmnetRuntimeError :=
  match pcap with
  | None => Ok None
  | Some p =>
      match write_ethernet_frame p frame with
      | (Ok _, p) => Ok (Some p)
      | (Err error, _) => Err (RuntimeIo error)
      end
  end.

(** [write_guest_frames_async]; the number of captured frames is not used. *)
Fixpoint write_guest_frames_async (o : out) (frames : list (list byte))
  : result out VmnetRuntimeError :=
  match frames with
  | [] => Ok o
  | frame :: rest =>
      let? pcap := capture_frame (pcap o) frame in
      match write_frame_async (frame_io o) frame with
      | (Err error, _) => Err (RuntimeStream error)
      | (Ok _, io) => write_guest_frames_async (mkOut io pcap (written o + 1)) rest
      end
  end.

End Output.
Arguments out : clear implicits.

(** ** The owner *)

Section Owner.
Context `{SmolStack} `{SmolWire} `{Ipv4NetOps} `{Dns.HickoryOps} `{TlsMitm.Rustls}.
Context `{Http.HttpParser} `{Channels}.
(** The resolver, and dialling upstream hosts. *)
Context {W : Type} (exchange : W -> Dns.Message -> result Dns.Message Dns.DnsUpstreamError * W).
Context {K C : Type} `{TcpProxy.TcpUpstreamConnector K C} `{Read C} `{Write C}.
(** The stream to QEMU, the capture file and the log. *)
Context {T : Type} `{Read T} `{Write T}.
Context {P : Type} (write_ethernet_frame : P -> list byte -> io_result unit * P).
Local Notation VmnetGateway := (VmnetGateway (W := W)).
Local Notation TcpProxyBridge := (TcpProxy.TcpProxyBridge (K := K) (C := C)).
Local Notation TcpProxyEvent := TcpProxy.TcpProxyEvent.
Local Notation TcpProxyPendingConnect := TcpProxy.TcpProxyPendingConnect.
Local Notation HostIngressBridge := (Ingress.HostIngressBridge (C := C)).
Local Notation HostIngressEvent := Ingress.HostIngressEvent.
Local Notation out := (out T P).
Local Notation write_guest_frames_async := (write_guest_frames_async write_ethernet_frame).
Local Notation Stats := (VmnetRuntimeStats TcpProxyEvent HostIngressEvent).
Local Notation DnsOwner := (VmnetServiceOwner unit VmnetPendingDnsQuery).
Local Notation TcpOwner := (VmnetServiceOwner C TcpProxyPendingConnect).

(** [VmnetPendingDnsQuery::service_command] and
    [TcpProxyPendingConnect::service_command]. *)
Definition dns_service_command (pending : VmnetPendingDnsQuery) (token : VmnetServiceToken)
  : VmnetServiceCommand := DnsLookup (mkLookupCommand token (request pending)).

Definition tcp_service_command (pending : TcpProxyPendingConnect) (token : VmnetServiceToken)
  : VmnetServiceCommand :=
  TcpConnect (mkConnectCommand token (TcpProxy.pending_destination pending)).

(** The service tasks with their worlds, and what they do each time the owner
    comes to one of their channels. *)
Inductive turn := DnsTurn (join_error : bool) | TcpTurn (join_error : bool).

Record tasks := mkTasks {
  dns_worker : VmnetAsyncServiceWorkerHandle unit;
  dns_world : W;
  tcp_connect_worker : VmnetAsyncServiceWorkerHandle C;
  tcp_world : K;
  schedule : list (list turn)
}.

Definition run_turn (ts : tasks) (t : turn) : tasks :=
  match t with
  | DnsTurn join_error =>
      let '(w, x) :=
        task_step (execute_dns_service_command exchange) join_error (dns_worker ts) (dns_world ts) in
      mkTasks w x (tcp_connect_worker ts) (tcp_world ts) (schedule ts)
  | TcpTurn join_error =>
      let '(w, x) :=
        task_step execute_tcp_connect_service_command join_error (tcp_connect_worker ts)
          (tcp_world ts) in
      mkTasks (dns_worker ts) (dns_world ts) w x (schedule ts)
  end.

Definition with_schedule (ts : tasks) (s : list (list turn)) : tasks :=
  mkTasks (dns_worker ts) (dns_world ts) (tcp_connect_worker ts) (tcp_world ts) s.

Definition let_tasks_run (ts : tasks) : tasks :=
  match schedule ts with
  | [] => ts
  | turns :: rest => foldl run_turn (with_schedule ts rest) turns
  end.

Definition with_dns_worker (ts : tasks) (w : VmnetAsyncServiceWorkerHandle unit) : tasks :=
  mkTasks w (dns_world ts) (tcp_connect_worker ts) (tcp_world ts) (schedule ts).
Definition with_tcp_worker (ts : tasks) (w : VmnetAsyncServiceWorkerHandle C) : tasks :=
  mkTasks (dns_worker ts) (dns_world ts) w (tcp_world ts) (schedule ts).

(** *** DNS queries *)

Inductive VmnetDnsServiceFrame :=
| FrameImmediate (result : GuestFrameResult)
| FrameQueued (token : VmnetServiceToken)
| FrameQueueFull (result : GuestFrameResult).

Definition handle_guest_frame_with_async_dns_worker (g : VmnetGateway) (service : DnsOwner)
  (ts : tasks) (frame : list byte) (now : Z)
  : exec (VmnetDnsServiceFrame * VmnetGateway * DnsOwner * tasks) :=
  let! (deferred, g) := handle_guest_frame_with_deferred_dns g frame now in
  match deferred with
  | DeferImmediate result => Ret (FrameImmediate result, g, service, ts)
  | DeferForward pending =>
      let ts := let_tasks_run ts in
      let! (r, service, w) :=
        submit_to_async_worker service pending dns_service_command (dns_worker ts) in
      let ts := with_dns_worker ts w in
      match r with
      | Ok token => Ret (FrameQueued token, g, service, ts)
      | Err error =>
          let! result := complete_pending_dns_query (se_pending error) (Err Dns.Unavailable) in
          Ret (FrameQueueFull (dns_frame_result_to_guest result), g, service, ts)
      end
  end.

Definition apply_dns_service_completion (service : DnsOwner)
  (completion : VmnetServiceCompletion unit) : exec (option GuestFrameResult * DnsOwner) :=
  let '(found, service) := remove_pending_for_completion service completion in
  match found with
  | None => Ret (None, service)
  | Some pending =>
      match completion with
      | DnsLookupDone completion =>
          let! result := complete_pending_dns_query pending (looked_up completion) in
          Ret (Some (dns_frame_result_to_guest result), service)
      | TcpConnectDone _ | Cancelled _ => Ret (None, service)
      end
  end.

(** *** Connections *)

(** The loop of [submit_tcp_connects_to_async_worker]. *)
Fixpoint submit_plans (g : VmnetGateway) (proxy : TcpProxyBridge) (service : TcpOwner)
  (ts : tasks) (now : Z) (plans : list TcpProxy.TcpProxyConnectPlan)
  (events : list TcpProxyEvent)
  : exec (list TcpProxyEvent * VmnetGateway * TcpProxyBridge * TcpOwner * tasks) :=
  match plans with
  | [] => Ret (events, g, proxy, service, ts)
  | TcpProxy.PlanEvent event :: rest =>
      submit_plans g proxy service ts now rest (events ++ [event])
  | TcpProxy.PlanPending pending :: rest =>
      let handle := TcpProxy.pending_handle pending in
      let ts := let_tasks_run ts in
      let! (r, service, w) :=
        submit_to_async_worker service pending tcp_service_command (tcp_connect_worker ts) in
      let ts := with_tcp_worker ts w in
      match r with
      | Ok _ =>
          submit_plans g (TcpProxy.mark_connect_pending proxy handle) service ts now rest events
      | Err error =>
          let! (_, proxy, g, events) :=
            TcpProxy.complete_connect proxy g (se_pending error) (Err Tcp.UpstreamUnavailable)
              now events in
          submit_plans g proxy service ts now rest events
      end
  end.

Definition submit_tcp_connects_to_async_worker (g : VmnetGateway) (proxy : TcpProxyBridge)
  (service : TcpOwner) (ts : tasks) (now : Z)
  : exec (list TcpProxyEvent * VmnetGateway * TcpProxyBridge * TcpOwner * tasks) :=
  let! plans := TcpProxy.plan_connects_for_service proxy g in
  submit_plans g proxy service ts now plans [].

Definition apply_tcp_connect_service_completion (g : VmnetGateway) (proxy : TcpProxyBridge)
  (service : TcpOwner) (completion : VmnetServiceCompletion C) (now : Z)
  : exec (list TcpProxyEvent * VmnetGateway * TcpProxyBridge * TcpOwner) :=
  let '(found, service) := remove_pending_for_completion service completion in
  match found with
  | None => Ret ([], g, proxy, service)
  | Some pending =>
      match completion with
      | TcpConnectDone completion =>
          let! (_, proxy, g, events) :=
            TcpProxy.complete_connect proxy g pending (connected completion) now [] in
          Ret (events, g, proxy, service)
      | DnsLookupDone _ | Cancelled _ => Ret ([], g, proxy, service)
      end
  end.

(** *** Pumps *)

(** The events that carry frames for the guest. *)
Definition proxy_event_frames (event : TcpProxyEvent) : list (list byte) :=
  match event with
  | TcpProxy.UpstreamPayload _ _ guest_frames
  | TcpProxy.TlsHandshakePayload _ _ guest_frames
  | TcpProxy.ConnectFailed _ _ _ guest_frames
  | TcpProxy.TlsMitmFailed _ _ guest_frames
  | TcpProxy.BufferLimitExceeded _ _ _ _ guest_frames => guest_frames
  | _ => []
  end.

Definition ingress_event_frames (event : HostIngressEvent) : list (list byte) :=
  match event with
  | Ingress.HostPayload _ _ _ guest_frames
  | Ingress.HostClosed _ _ guest_frames
  | Ingress.BufferLimitExceeded _ _ _ _ _ guest_frames => guest_frames
  | _ => []
  end.

(** [write_proxy_event_guest_frames_async] and
    [write_host_ingress_event_guest_frames_async]. *)
Fixpoint write_event_frames {E : Type} (event_frames : E -> list (list byte)) (o : out)
  (events : list E) : result out VmnetRuntimeError :=
  match events with
  | [] => Ok o
  | event :: rest =>
      let? o := write_guest_frames_async o (event_frames event) in
      write_event_frames event_frames o rest
  end.

Definition pump_proxy_ready_async (o : out) (g : VmnetGateway) (proxy : TcpProxyBridge) (now : Z)
  (readiness : TcpProxy.TcpProxyReadiness)
  : exec (result (list TcpProxyEvent * out * VmnetGateway * TcpProxyBridge) VmnetRuntimeError) :=
  let! (events, proxy, g) := TcpProxy.process_gateway_with_readiness proxy g now readiness in
  Ret (let? o := write_event_frames proxy_event_frames o events in Ok (events, o, g, proxy)).

Definition pump_host_ingress_ready_async (o : out) (g : VmnetGateway) (bridge : HostIngressBridge)
  (now : Z) (readiness : Ingress.HostIngressReadiness)
  : exec (result (list HostIngressEvent * out * VmnetGateway * HostIngressBridge)
            VmnetRuntimeError) :=
  let! (events, bridge, g) := Ingress.process_gateway_with_readiness bridge g now readiness in
  Ret (let? o := write_event_frames ingress_event_frames o events in Ok (events, o, g, bridge)).

(** *** Host connections *)

Definition open_host_ingress_session (g : VmnetGateway) (bridge : HostIngressBridge)
  (accepted : Ingress.AcceptedHostConnection C) (now : Z)
  (show_error : GuestTcpConnectError -> string)
  : exec (list (list byte) * HostIngressEvent * HostIngressBridge * VmnetGateway) :=
  let guest_port := Ingress.acc_guest_port accepted in
  let purpose := Ingress.acc_purpose accepted in
  let! (r, bridge, g) :=
    Ingress.open_session bridge g guest_port (Ingress.acc_connection accepted) now in
  match r with
  | Ok opened =>
      Ret (Ingress.open_frames opened,
           Ingress.Opened (Ingress.open_handle opened) (Ingress.open_guest_port opened) purpose,
           bridge, g)
  | Err error => Ret ([], Ingress.OpenFailed guest_port purpose (show_error error), bridge, g)
  end.

(** The accepted connections of a batch go into the queue; a failed accept ends
    the loop of the owner. *)
Fixpoint queue_accepted (q : Ingress.HostIngressAcceptedQueue C)
  (accepted : list (io_result (Ingress.AcceptedHostConnection C)))
  (events : list HostIngressEvent)
  : result (Ingress.HostIngressAcceptedQueue C * list HostIngressEvent) VmnetRuntimeError :=
  match accepted with
  | [] => Ok (q, events)
  | Err error :: _ => Err (RuntimeIo error)
  | Ok connection :: rest =>
      match Ingress.queue_push q connection with
      | (Ok _, q) => queue_accepted q rest events
      | (Err rejected, q) =>
          queue_accepted q rest
            (events ++ [Ingress.AcceptQueueFull (Ingress.acc_guest_port rejected)
                          (Ingress.acc_purpose rejected) (Ingress.capacity q)])
      end
  end.

Fixpoint open_accepted (o : out) (g : VmnetGateway) (bridge : HostIngressBridge) (now : Z)
  (show_error : GuestTcpConnectError -> string)
  (accepted : list (Ingress.AcceptedHostConnection C)) (events : list HostIngressEvent)
  : exec (result (list HostIngressEvent * out * VmnetGateway * HostIngressBridge)
            VmnetRuntimeError) :=
  match accepted with
  | [] => Ret (Ok (events, o, g, bridge))
  | connection :: rest =>
      let! (guest_frames, event, bridge, g) :=
        open_host_ingress_session g bridge connection now show_error in
      match write_guest_frames_async o guest_frames with
      | Err error => Ret (Err error)
      | Ok o => open_accepted o g bridge now show_error rest (events ++ [event])
      end
  end.

(** *** The state of the loop *)

Inductive log_line :=
| GatewayLine (event : VmnetGatewayEvent)
| ProxyLine (event : TcpProxyEvent)
| IngressLine (event : HostIngressEvent).

(** The event log, the listening sockets of the host with the state of its
    network, the descriptors of connections, and the text of an error. *)
Context {L : Type} (write_line : L -> log_line -> io_result unit * L).
Context (flush : L -> io_result unit * L).
Context {N Listener : Type} (accept : N -> Listener -> io_result C * N).
Context (set_nonblocking : N -> C -> io_result unit * N).
Context (listeners : Ingress.HostIngressListenerSet (Listener := Listener)).
Context (listener_fd : Listener -> Z) (connection_fd : C -> Z).
Context (show_error : GuestTcpConnectError -> string).

Record runtime := mkRuntime {
  rt_gateway : VmnetGateway;
  rt_proxy : TcpProxyBridge;
  rt_ingress : HostIngressBridge;
  rt_queue : Ingress.HostIngressAcceptedQueue C;
  rt_dns : DnsOwner;
  rt_tcp : TcpOwner;
  rt_tasks : tasks;
  rt_out : out;
  rt_stats : Stats;
  rt_log : option L;
  rt_cursor : nat;
  rt_net : N
}.

(** The gateway and its clients; their services and tasks; the output. *)
Definition with_bridges (rt : runtime) (g : VmnetGateway) (proxy : TcpProxyBridge)
  (ingress : HostIngressBridge) : runtime :=
  mkRuntime g proxy ingress (rt_queue rt) (rt_dns rt) (rt_tcp rt) (rt_tasks rt) (rt_out rt)
    (rt_stats rt) (rt_log rt) (rt_cursor rt) (rt_net rt).
Definition with_services (rt : runtime) (dns : DnsOwner) (tcp : TcpOwner) (ts : tasks) : runtime :=
  mkRuntime (rt_gateway rt) (rt_proxy rt) (rt_ingress rt) (rt_queue rt) dns tcp ts (rt_out rt)
    (rt_stats rt) (rt_log rt) (rt_cursor rt) (rt_net rt).
Definition with_queue (rt : runtime) (q : Ingress.HostIngressAcceptedQueue C) (n : N) : runtime :=
  mkRuntime (rt_gateway rt) (rt_proxy rt) (rt_ingress rt) q (rt_dns rt) (rt_tcp rt) (rt_tasks rt)
    (rt_out rt) (rt_stats rt) (rt_log rt) (rt_cursor rt) n.
Definition with_out (rt : runtime) (o : out) : runtime :=
  mkRuntime (rt_gateway rt) (rt_proxy rt) (rt_ingress rt) (rt_queue rt) (rt_dns rt) (rt_tcp rt)
    (rt_tasks rt) o (rt_stats rt) (rt_log rt) (rt_cursor rt) (rt_net rt).
Definition with_stats (rt : runtime) (stats : Stats) (log : option L) : runtime :=
  mkRuntime (rt_gateway rt) (rt_proxy rt) (rt_ingress rt) (rt_queue rt) (rt_dns rt) (rt_tcp rt)
    (rt_tasks rt) (rt_out rt) stats log (rt_cursor rt) (rt_net rt).
Definition with_cursor (rt : runtime) (cursor : nat) : runtime :=
  mkRuntime (rt_gateway rt) (rt_proxy rt) (rt_ingress rt) (rt_queue rt) (rt_dns rt) (rt_tcp rt)
    (rt_tasks rt) (rt_out rt) (rt_stats rt) (rt_log rt) cursor (rt_net rt).

(** [stats] as it is returned: the frames that went through [out] are counted
    there. *)
Definition final_stats (rt : runtime) : Stats :=
  mkStats (guest_frames_read (rt_stats rt)) (written (rt_out rt)) (gateway_events (rt_stats rt))
    (proxy_events (rt_stats rt)) (host_ingress_events (rt_stats rt)).

Definition count_read (stats : Stats) : Stats :=
  mkStats (guest_frames_read stats + 1) (guest_frames_written stats) (gateway_events stats)
    (proxy_events stats) (host_ingress_events stats).

(** *** What the loop waits for *)

Inductive VmnetAsyncServiceCompletionEvent :=
| DnsCompletion (completion : VmnetServiceCompletion unit)
| DnsDisconnected
| TcpCompletion (completion : VmnetServiceCompletion C)
| TcpDisconnected.

Inductive VmnetAsyncOwnerEvent :=
| QemuFrame (frame : list byte)
| QemuEof
| Service (event : VmnetAsyncServiceCompletionEvent)
| Timer
| FdReady (source : VmnetEventSource) (readable writable : bool).

Definition listener_registrations : list VmnetAsyncFdRegistration :=
  imap (fun index l =>
    mkRegistration (HostListener index) (listener_fd (Ingress.listener l)) (mkFdInterest true false))
    (Ingress.set_listeners listeners).

Definition ingress_registration (b : HostIngressBridge) (handle : SocketHandle)
  : option VmnetAsyncFdRegistration :=
  s ← Ingress.sessions b !! handle;
  interest ← Ingress.session_interest b handle;
  fd_interest ← FdInterest_new (Ingress.want_readable interest) (Ingress.want_writable interest);
  Some (mkRegistration (HostSession handle) (connection_fd (Ingress.connection s)) fd_interest).

Definition proxy_registration (b : TcpProxyBridge) (handle : SocketHandle)
  : option VmnetAsyncFdRegistration :=
  s ← TcpProxy.sessions b !! handle;
  interest ← TcpProxy.session_interest b handle;
  fd_interest ← FdInterest_new (TcpProxy.wants_readable interest) (TcpProxy.wants_writable interest);
  Some (mkRegistration (UpstreamSession handle) (connection_fd (TcpProxy.connection s)) fd_interest).

(** The order of a [HashMap] is not specified; here it is that of the map. *)
Definition snapshot_async_fd_registrations (rt : runtime) : list VmnetAsyncFdRegistration :=
  listener_registrations ++
  omap (ingress_registration (rt_ingress rt)) (elements (Ingress.session_handles (rt_ingress rt))) ++
  omap (proxy_registration (rt_proxy rt)) (elements (TcpProxy.session_handles (rt_proxy rt))).

(** A read of QEMU's stream that was dropped with bytes buffered but no frame
    complete. *)
Inductive partial_read : QemuFrameIo T -> QemuFrameIo T -> Prop :=
| partial_none io : partial_read io io
| partial_some io bs s io' :
    read (stream io) 8192 = (Ok bs, s) ->
    pop_buffered_frame (mkIo s (max_frame_len io) (read_buf io ++ bs)) =
      Ret (Ok None, mkIo s (max_frame_len io) (read_buf io ++ bs)) ->
    partial_read (mkIo s (max_frame_len io) (read_buf io ++ bs)) io' -> partial_read io io'.

Definition with_io (rt : runtime) (io : QemuFrameIo T) : runtime :=
  with_out rt (mkOut io (pcap (rt_out rt)) (written (rt_out rt))).

Section Next.
Context (async_fd_new : Z -> io_result unit).

(** [next_async_owner_event_with_fd_snapshot]: [select!] takes any branch that
    is ready. [delay] is the timeout that was computed before. *)
Inductive next_async_owner_event (delay : option Z) (rt : runtime)
  : result VmnetAsyncOwnerEvent VmnetRuntimeError -> runtime -> Prop :=
| next_frame frame io :
    read_frame_async (frame_io (rt_out rt)) = Ret (Ok (Some frame), io) ->
    next_async_owner_event delay rt (Ok (QemuFrame frame)) (with_io rt io)
| next_eof io :
    read_frame_async (frame_io (rt_out rt)) = Ret (Ok None, io) ->
    next_async_owner_event delay rt (Ok QemuEof) (with_io rt io)
| next_read_error error io :
    read_frame_async (frame_io (rt_out rt)) = Ret (Err error, io) ->
    (forall e, error = StreamIo e -> would_block e = false) ->
    next_async_owner_event delay rt (Err (RuntimeStream error)) (with_io rt io)
| next_dns completion w io :
    partial_read (frame_io (rt_out rt)) io ->
    recv_completion (dns_worker (rt_tasks rt)) = Some (completion, w) ->
    next_async_owner_event delay rt
      (Ok (Service (match completion with Some c => DnsCompletion c | None => DnsDisconnected end)))
      (with_services (with_io rt io) (rt_dns rt) (rt_tcp rt) (with_dns_worker (rt_tasks rt) w))
| next_tcp completion w io :
    partial_read (frame_io (rt_out rt)) io ->
    recv_completion (tcp_connect_worker (rt_tasks rt)) = Some (completion, w) ->
    next_async_owner_event delay rt
      (Ok (Service (match completion with Some c => TcpCompletion c | None => TcpDisconnected end)))
      (with_services (with_io rt io) (rt_dns rt) (rt_tcp rt) (with_tcp_worker (rt_tasks rt) w))
| next_timer d io :
    partial_read (frame_io (rt_out rt)) io -> delay = Some d ->
    next_async_owner_event delay rt (Ok Timer) (with_io rt io)
| next_fd read_ready write_ready r cursor io :
    partial_read (frame_io (rt_out rt)) io -> snapshot_async_fd_registrations rt <> [] ->
    wait_async_fd_registrations async_fd_new read_ready write_ready
      (snapshot_async_fd_registrations rt) (rt_cursor rt) = Some (r, cursor) ->
    next_async_owner_event delay rt
      (match r with
       | Ok (Some (source, readable, writable)) => Ok (FdReady source readable writable)
       | Ok None => Ok Timer
       | Err error => Err error
       end) (with_cursor (with_io rt io) cursor).

End Next.

(** *** One round of the loop *)

(** What an event leaves for the rest of the round. *)
Record ready := mkReady {
  poll_all_host_ingress : bool;
  host_listener_ready : list nat;
  host_readable : list SocketHandle;
  host_writable : list SocketHandle;
  proxy_readable : list SocketHandle;
  proxy_writable : list SocketHandle
}.

Definition nothing_ready : ready := mkReady false [] [] [] [] [].
Definition all_host_ready : ready := mkReady true [] [] [] [] [].

Definition ready_source (source : VmnetEventSource) (readable writable : bool) : ready :=
  let handles (on : bool) (h : SocketHandle) := if on then [h] else [] in
  match source with
  | HostListener index => mkReady false (if readable then [index] else []) [] [] [] []
  | HostSession handle => mkReady false [] (handles readable handle) (handles writable handle) [] []
  | UpstreamSession handle =>
      mkReady false [] [] [] (handles readable handle) (handles writable handle)
  end.

Definition apply_async_service_completion_event (rt : runtime)
  (event : VmnetAsyncServiceCompletionEvent) (now : Z)
  : exec (result (runtime * list VmnetGatewayEvent * list TcpProxyEvent) VmnetRuntimeError) :=
  match event with
  | DnsCompletion completion =>
      let! (result, service) := apply_dns_service_completion (rt_dns rt) completion in
      let rt := with_services rt service (rt_tcp rt) (rt_tasks rt) in
      match result with
      | None => Ret (Ok (rt, [], []))
      | Some result =>
          Ret (let? o := write_guest_frames_async (rt_out rt) (guest_frames result) in
               Ok (with_out rt o, collect (gateway_event_from_outcome (outcome result)), []))
      end
  | DnsDisconnected | TcpDisconnected => Ret (Ok (rt, [], []))
  | TcpCompletion completion =>
      let! (events, g, proxy, service) :=
        apply_tcp_connect_service_completion (rt_gateway rt) (rt_proxy rt) (rt_tcp rt) completion
          now in
      let rt := with_services (with_bridges rt g proxy (rt_ingress rt)) (rt_dns rt) service
                  (rt_tasks rt) in
      Ret (let? o := write_event_frames proxy_event_frames (rt_out rt) events in
           Ok (with_out rt o, [], events))
  end.

Definition with_pcap (o : out) (p : option P) : out := mkOut (frame_io o) p (written o).

(** The [match event] of the loop, for events other than the end of the stream. *)
Definition apply_event (rt : runtime) (event : VmnetAsyncOwnerEvent) (now : Z)
  : exec (result (runtime * list VmnetGatewayEvent * list TcpProxyEvent * ready)
            VmnetRuntimeError) :=
  match event with
  | QemuEof => Ret (Ok (rt, [], [], nothing_ready))
  | QemuFrame frame =>
      let rt := with_stats rt (count_read (rt_stats rt)) (rt_log rt) in
      match capture_frame write_ethernet_frame (pcap (rt_out rt)) frame with
      | Err error => Ret (Err error)
      | Ok pcap =>
          let rt := with_out rt (with_pcap (rt_out rt) pcap) in
          let! (handled, g, dns, ts) :=
            handle_guest_frame_with_async_dns_worker (rt_gateway rt) (rt_dns rt) (rt_tasks rt)
              frame now in
          let rt := with_services (with_bridges rt g (rt_proxy rt) (rt_ingress rt)) dns (rt_tcp rt)
                      ts in
          match handled with
          | FrameImmediate result | FrameQueueFull result =>
              Ret (let? o := write_guest_frames_async (rt_out rt) (guest_frames result) in
                   Ok (with_out rt o, collect (gateway_event_from_outcome (outcome result)), [],
                       all_host_ready))
          | FrameQueued _ => Ret (Ok (rt, [], [], all_host_ready))
          end
      end
  | Service event =>
      let!? (rt, gateway_events, proxy_events) := apply_async_service_completion_event rt event now in
      Ret (Ok (rt, gateway_events, proxy_events, nothing_ready))
  | Timer =>
      let! (guest_frames, g) := poll_tcp (rt_gateway rt) now in
      let rt := with_bridges rt g (rt_proxy rt) (rt_ingress rt) in
      Ret (let? o := write_guest_frames_async (rt_out rt) guest_frames in
           Ok (with_out rt o, [], [], all_host_ready))
  | FdReady source readable writable =>
      Ret (Ok (rt, [], [], ready_source source readable writable))
  end.

(** [for index in host_listener_ready]. *)
Fixpoint accept_listeners (rt : runtime) (indices : list nat) (events : list HostIngressEvent)
  : exec (result (runtime * list HostIngressEvent) VmnetRuntimeError) :=
  match indices with
  | [] => Ret (Ok (rt, events))
  | index :: rest =>
      let! (batch, n) :=
        Ingress.accept_ready_limited accept set_nonblocking (rt_net rt) listeners index
          Ingress.DEFAULT_HOST_INGRESS_ACCEPTS_PER_LISTENER_PUMP in
      match queue_accepted (rt_queue rt) (Ingress.accepted batch) events with
      | Err error => Ret (Err error)
      | Ok (q, events) =>
          let limit_events :=
            match Ingress.limit_reached batch with
            | Some l =>
                [Ingress.AcceptLimitReached (Ingress.al_listener_index l) (Ingress.al_guest_port l)
                   (Ingress.al_purpose l) (Ingress.al_limit l) (Ingress.al_accepted l)]
            | None => []
            end in
          accept_listeners (with_queue rt q n) rest (events ++ limit_events)
      end
  end.

Definition connect_round (rt : runtime) (now : Z) : exec (list TcpProxyEvent * runtime) :=
  let! (events, g, proxy, service, ts) :=
    submit_tcp_connects_to_async_worker (rt_gateway rt) (rt_proxy rt) (rt_tcp rt) (rt_tasks rt)
      now in
  Ret (events, with_services (with_bridges rt g proxy (rt_ingress rt)) (rt_dns rt) service ts).

Definition open_round (rt : runtime) (now : Z) (events : list HostIngressEvent)
  : exec (result (runtime * list HostIngressEvent) VmnetRuntimeError) :=
  let '(accepted, q) := Ingress.drain_ready (rt_queue rt) in
  let rt := with_queue rt q (rt_net rt) in
  let!? (events, o, g, ingress) :=
    open_accepted (rt_out rt) (rt_gateway rt) (rt_ingress rt) now show_error accepted events in
  Ret (Ok (with_out (with_bridges rt g (rt_proxy rt) ingress) o, events)).

Definition proxy_round (rt : runtime) (r : ready) (now : Z) (connect_events : list TcpProxyEvent)
  : exec (result (runtime * list TcpProxyEvent) VmnetRuntimeError) :=
  let!? (events, o, g, proxy) :=
    pump_proxy_ready_async (rt_out rt) (rt_gateway rt) (rt_proxy rt) now
      (TcpProxy.readiness_selected (proxy_readable r) (proxy_writable r)) in
  let rt := with_bridges rt g proxy (rt_ingress rt) in
  Ret (let? o := write_event_frames proxy_event_frames o connect_events in
       Ok (with_out rt o, events ++ connect_events)).

Definition ingress_round (rt : runtime) (r : ready) (now : Z)
  : exec (result (runtime * list HostIngressEvent) VmnetRuntimeError) :=
  let!? (events, o, g, ingress) :=
    pump_host_ingress_ready_async (rt_out rt) (rt_gateway rt) (rt_ingress rt) now
      (if poll_all_host_ingress r then Ingress.readiness_all
       else Ingress.readiness_selected (host_readable r) (host_writable r)) in
  Ret (Ok (with_out (with_bridges rt g (rt_proxy rt) ingress) o, events)).

(** [write_gateway_events], [write_proxy_events] and
    [write_host_ingress_events]. *)
Fixpoint write_lines (log : L) (lines : list log_line) : io_result L :=
  match lines with
  | [] => match flush log with (Ok _, log) => Ok log | (Err error, _) => Err error end
  | line :: rest =>
      match write_line log line with
      | (Ok _, log) => write_lines log rest
      | (Err error, _) => Err error
      end
  end.

Definition write_events (log : option L) (lines : list log_line)
  : result (option L) VmnetRuntimeError :=
  match log with
  | None => Ok None
  | Some log => let? log := map_err RuntimeIo (write_lines log lines) in Ok (Some log)
  end.

Definition record_round (rt : runtime) (gevents : list VmnetGatewayEvent)
  (pevents : list TcpProxyEvent) (hevents : list HostIngressEvent)
  : result runtime VmnetRuntimeError :=
  let? log := write_events (rt_log rt) (map GatewayLine gevents) in
  let? log := write_events log (map ProxyLine pevents) in
  let? log := write_events log (map IngressLine hevents) in
  let stats := rt_stats rt in
  Ok (with_stats rt
        (mkStats (guest_frames_read stats) (guest_frames_written stats)
           (gateway_events stats ++ gevents) (proxy_events stats ++ pevents)
           (host_ingress_events stats ++ hevents)) log).

Inductive loop_exit := Continue (rt : runtime) | Stopped (stats : Stats).

Definition owner_round (rt : runtime) (event : VmnetAsyncOwnerEvent) (now : Z)
  : exec (result loop_exit VmnetRuntimeError) :=
  if match event with QemuEof => true | _ => false end then Ret (Ok (Stopped (final_stats rt)))
  else
    let!? (rt, gevents, pevents, r) := apply_event rt event now in
    let! (connect_events, rt) := connect_round rt now in
    let!? (rt, hevents) := accept_listeners rt (host_listener_ready r) [] in
    let!? (rt, hevents) := open_round rt now hevents in
    let!? (rt, pump_events) := proxy_round rt r now connect_events in
    let!? (rt, more) := ingress_round rt r now in
    match record_round rt gevents (pump_events ++ pevents) (hevents ++ more) with
    | Err error => Ret (Err error)
    | Ok rt =>
        let! (_, g) := reap_closed_tcp_sessions (rt_gateway rt) in
        Ret (Ok (Continue (with_bridges rt g (rt_proxy rt) (rt_ingress rt))))
    end.

(** *** The start *)

Definition runtime_error {A E : Type} (f : E -> VmnetRuntimeError) (m : exec (result A E))
  : exec (result A VmnetRuntimeError) := let! r := m in Ret (map_err f r).

(** [serve_vmnet_gateway_async_owner] up to the loop, with the sockets bound and
    QEMU connected; [proxy] is what [tcp_proxy_bridge_from_policy] gives. *)
Definition owner_start (policy : Policy.VmnetPolicy) (network : Policy.GuestNetwork)
  (limits : VmnetServiceIoLimits) (now : Z) (gateway_upstream worker_upstream : W)
  (proxy : result TcpProxyBridge VmnetRuntimeError) (worker_connector : K)
  (io : QemuFrameIo T) (log : option L) (capture : option P) (n : N)
  : exec (result runtime VmnetRuntimeError) :=
  let!? g := runtime_error RuntimeGateway
               (new_with_dns_upstream policy network now gateway_upstream) in
  let!? proxy := Ret proxy in
  let! q := Ingress.queue_new Ingress.DEFAULT_HOST_INGRESS_ACCEPT_QUEUE_LIMIT in
  Ret (let? dns_worker := map_err RuntimeLimits (spawn_service_task limits) in
       let? tcp_connect_worker := map_err RuntimeLimits (spawn_service_task limits) in
       let? dns_service := map_err RuntimeLimits (owner_new limits) in
       let? tcp_connect_service := map_err RuntimeLimits (owner_new limits) in
       Ok (mkRuntime g proxy Ingress.bridge_new q dns_service tcp_connect_service
             (mkTasks dns_worker worker_upstream tcp_connect_worker worker_connector [])
             (mkOut io capture 0) (mkStats 0 0 [] [] []) log O n)).

Section FromPolicy.
Context {R : Type} `{TlsMitm.Rcgen R}.

(** [with_tls_mitm]: the configurations rustls builds are parameters. *)
Definition tcp_proxy_bridge_from_policy (read_to_string : string -> io_result string)
  (rustls_server_config :
     TlsMitm.TlsMitmAuthority -> result TlsMitm.ServerConfig TlsMitm.TlsMitmError)
  (native_client_config : result TlsMitm.ClientConfig TlsMitm.TlsMitmError)
  (connector : K) (policy : Policy.VmnetPolicy) : result TcpProxyBridge VmnetRuntimeError :=
  let tls := Policy.tls_mitm policy in
  match Policy.ca_cert_path tls with
  | None => Ok (TcpProxy.proxy_new connector)
  | Some ca_cert_path =>
      match Policy.ca_key_path tls with
      | None => Ok (TcpProxy.proxy_new connector)
      | Some ca_key_path =>
          if negb (Policy.generate_per_host_certs tls) then Ok (TcpProxy.proxy_new connector)
          else
            map_err RuntimeTls
              (let? authority := TlsMitm.from_files read_to_string ca_cert_path ca_key_path in
               let? client_config := native_client_config in
               TcpProxy.with_tls_mitm_and_client_config connector (rustls_server_config authority)
                 client_config)
      end
  end.

End FromPolicy.

End Owner.

(** * Facts *)

Section Facts.
Context `{SmolStack} `{!SmolStackLaws} `{SmolWire} `{!SmolWireLaws} `{Ipv4NetOps}.
Context `{Dns.HickoryOps} `{TlsMitm.Rustls} `{!TlsMitm.RustlsLaws}.
Context `{Http.HttpParser} `{Channels} `{!ChannelLaws}.
Context {W : Type} (exchange : W -> Dns.Message -> result Dns.Message Dns.DnsUpstreamError * W).
Context {K C : Type} `{TcpProxy.TcpUpstreamConnector K C} `{Read C} `{Write C}.
Context (received sent : C -> list byte) `{!DuplexLaws C received sent}.
Context {T : Type} `{Read T} `{Write T}.
Context {P : Type} (write_ethernet_frame : P -> list byte -> io_result unit * P).
Context {L : Type} (write_line : L -> log_line -> io_result unit * L).
Context (flush : L -> io_result unit * L).
Context {N Listener : Type} (accept : N -> Listener -> io_result C * N).
Context (set_nonblocking : N -> C -> io_result unit * N).
(** A connection that was just accepted has transferred nothing yet. *)
Context (accept_fresh : forall n l c n',
  accept n l = (Ok c, n') -> received c = [] /\ sent c = []).
Context (listeners : Ingress.HostIngressListenerSet (Listener := Listener)).
Context (listener_fd : Listener -> Z) (connection_fd : C -> Z).
Context (show_error : GuestTcpConnectError -> string).
Local Notation VmnetGateway := (VmnetGateway (W := W)).
Local Notation TcpProxyBridge := (TcpProxy.TcpProxyBridge (K := K) (C := C)).
Local Notation HostIngressBridge := (Ingress.HostIngressBridge (C := C)).
Local Notation runtime := (runtime (W := W) (K := K) (C := C) (T := T) (P := P) (L := L) (N := N)).
Local Notation tasks := (tasks (W := W) (K := K) (C := C)).
Local Notation dns_ok :=
  (service_ok (execute_dns_service_command exchange) dns_service_command).
Local Notation tcp_ok := (service_ok execute_tcp_connect_service_command tcp_service_command).
Implicit Types rt : runtime.
Implicit Types ts : tasks.
Implicit Types g : VmnetGateway.

Lemma dns_executes (p : VmnetPendingDnsQuery) t (w : W) :
  exists (c : VmnetServiceCompletion unit) w',
    execute_dns_service_command exchange w (dns_service_command p t) = (Completed c, w') /\
    completion_token c = t.
Proof. cbn. destruct (exchange w _) as [r w']. by do 2 eexists. Qed.

Lemma tcp_executes (p : TcpProxy.TcpProxyPendingConnect) t (k : K) :
  exists (c : VmnetServiceCompletion C) k',
    execute_tcp_connect_service_command k (tcp_service_command p t) = (Completed c, k') /\
    completion_token c = t.
Proof. cbn. destruct (TcpProxy.connect k _) as [r k']. by do 2 eexists. Qed.

(** A lookup of a domain that the policy allows. *)
Definition allowed_lookup (pol : Policy.VmnetPolicy) (w w' : W) : Prop :=
  exists q domain, Dns.query_domain q = Some domain /\ Dns.domain_allowed pol domain = true /\
    w' = (exchange w q).2.

(** The pending requests come from frames and from sessions the policy let pass. *)
Definition lookup_ok (pol : Policy.VmnetPolicy) (p : VmnetPendingDnsQuery) : Prop :=
  exists g frame, policy g = pol /\ dns_plan_ok g frame p.

Definition connect_ok (pol : Policy.VmnetPolicy) (p : TcpProxy.TcpProxyPendingConnect) : Prop :=
  exists (b : TcpProxyBridge) h d, TcpProxy.plan_connect b h d pol = TcpProxy.PlanPending p.

(** The tasks with the requests the owner has pending. *)
Record tasks_ok (pol : Policy.VmnetPolicy) (w0 : W) (k0 : K)
  (dns : VmnetServiceOwner unit VmnetPendingDnsQuery)
  (tcp : VmnetServiceOwner C TcpProxy.TcpProxyPendingConnect) ts : Prop := {
  tk_dns : dns_ok dns (dns_worker ts);
  tk_tcp : tcp_ok tcp (tcp_connect_worker ts);
  tk_lookups t p : pending dns !! t = Some p -> lookup_ok pol p;
  tk_connects t p : pending tcp !! t = Some p -> connect_ok pol p;
  tk_resolved : rtc (allowed_lookup pol) w0 (dns_world ts);
  tk_dialled : rtc (TcpProxy.allowed_dial pol) k0 (tcp_world ts)
}.

Lemma run_turn_ok pol w0 k0 dns tcp ts t :
  tasks_ok pol w0 k0 dns tcp ts -> tasks_ok pol w0 k0 dns tcp (run_turn exchange ts t).
Proof.
  intros [Hd Ht Hl Hc Hr Hk]. destruct t as [je|je]; cbn.
  - destruct (task_step_ok (execute_dns_service_command exchange) dns_service_command dns_executes
      dns (dns_worker ts) (dns_world ts) je Hd) as [Hd' Hw].
    destruct (task_step _ _ _ _) as [w x]; cbn in *. split; cbn; try done.
    destruct Hw as [->|(tok & p & E & ->)]; [done|]. eapply rtc_r; [exact Hr|].
    destruct (Hl tok p E) as (g & frame & Hg & q & _ & _ & Hq & Ha & _).
    exists (Dns.fwd_query (request p)), (Dns.fwd_domain (request p)). rewrite <-Hg.
    split; [done|]. split; [done|]. cbn. by destruct (exchange _ _).
  - destruct (task_step_ok execute_tcp_connect_service_command tcp_service_command tcp_executes
      tcp (tcp_connect_worker ts) (tcp_world ts) je Ht) as [Ht' Hw].
    destruct (task_step _ _ _ _) as [w x]; cbn in *. split; cbn; try done.
    destruct Hw as [->|(tok & p & E & ->)]; [done|]. eapply rtc_r; [exact Hk|].
    destruct (Hc tok p E) as (b & h & d & Epl).
    destruct (TcpProxy.plan_pending _ _ _ _ _ Epl) as (_ & Hd' & He & Hact & _).
    exists (TcpProxy.pending_destination p). rewrite Hd'. rewrite He in Hact. split; [done|].
    cbn. rewrite Hd'. by destruct (TcpProxy.connect _ _).
Qed.

Lemma run_turns_ok pol w0 k0 dns tcp turns ts :
  tasks_ok pol w0 k0 dns tcp ts ->
  tasks_ok pol w0 k0 dns tcp (foldl (run_turn exchange) ts turns).
Proof.
  revert ts. induction turns as [|t turns IH]; intros ts Hok; cbn; [done|].
  by apply IH, run_turn_ok.
Qed.

Lemma let_tasks_run_ok pol w0 k0 dns tcp ts :
  tasks_ok pol w0 k0 dns tcp ts -> tasks_ok pol w0 k0 dns tcp (let_tasks_run exchange ts).
Proof.
  intros Hok. unfold let_tasks_run. destruct (schedule ts) as [|turns rest]; [done|].
  apply run_turns_ok. by destruct Hok.
Qed.

(** ** The gateway and its clients *)

Record net_ok (pol : Policy.VmnetPolicy) (k : K) g (proxy : TcpProxyBridge)
  (ingress : HostIngressBridge) : Prop := {
  nt_system : Ingress.system_ok received sent (ingress, g);
  nt_policy : policy g = pol;
  nt_proxy : TcpProxy.proxy_ok proxy g;
  nt_dialled : rtc (TcpProxy.allowed_dial pol) k (TcpProxy.connector proxy);
  nt_tls : Tcp.https_mitm_configured pol = true -> is_Some (TcpProxy.tls_server_config proxy)
}.

Lemma nt_wf pol k g proxy ingress : net_ok pol k g proxy ingress -> gateway_wf g.
Proof. by intros [(? & _) _ _ _ _]. Qed.

Lemma proxy_ok_policy (proxy : TcpProxyBridge) g g' :
  policy g' = policy g -> TcpProxy.proxy_ok proxy g -> TcpProxy.proxy_ok proxy g'.
Proof. intros E [? Hs]. split; [done|]. intros h s. rewrite E. apply Hs. Qed.

(** A change of the gateway that keeps the sessions of the host ingress. *)
Lemma net_gateway pol k g g' proxy ingress :
  gateway_wf g' -> policy g' = policy g -> Ingress.bridge_ok received sent ingress g' ->
  net_ok pol k g proxy ingress -> net_ok pol k g' proxy ingress.
Proof.
  intros Hw Hp Hb [(_ & _ & Hs) Hpol Hpx Hk Ht]. split; try done.
  - congruence.
  - by eapply proxy_ok_policy.
Qed.

Lemma net_untouched pol k g g' proxy ingress :
  untouched g g' -> net_ok pol k g proxy ingress -> net_ok pol k g' proxy ingress.
Proof.
  intros (Hw & (Hp & _) & Hh & Hc & Hs) Hn. apply (net_gateway _ _ g); [done|done| |done].
  eapply Ingress.bridge_ok_kept; [| |apply (nt_system _ _ _ _ _ Hn)].
  - intros h. unfold Ingress.conn_handles. by rewrite Hc.
  - intros h _. apply Hs.
Qed.

Lemma net_kept pol k g g' proxy ingress :
  gateway_wf g' -> same_setup g g' -> sessions_kept g g' ->
  net_ok pol k g proxy ingress -> net_ok pol k g' proxy ingress.
Proof.
  intros Hw (Hp & _) Hk Hn. apply (net_gateway _ _ g); [done|done| |done].
  eapply Ingress.bridge_ok_sessions_kept; [done|apply (nt_system _ _ _ _ _ Hn)].
Qed.

(** A connection is completed, successfully or by closing a socket that is
    there. *)
Lemma net_complete pol k g proxy ingress pending r now events :
  net_ok pol k g proxy ingress -> connect_ok pol pending ->
  (forall e, r = Err e -> TcpProxy.pending_handle pending ∈ handles (tcp_core g)) ->
  holds (TcpProxy.complete_connect proxy g pending r now events) (fun '(_, proxy', g', _) =>
    net_ok pol k g' proxy' ingress /\ handles (tcp_core g') = handles (tcp_core g)).
Proof.
  intros Hn (b0 & h & d & Epl) Hh. pose proof (nt_wf _ _ _ _ _ Hn) as Hw.
  rewrite <-(nt_policy _ _ _ _ _ Hn) in Epl.
  destruct (TcpProxy.plan_pending _ _ _ _ _ Epl) as (Eh & _). rewrite Eh in Hh.
  eapply holds_mono;
    [apply (TcpProxy.complete_connect_holds b0 proxy g h d); [done|apply Hn|done|done]|].
  intros [[[dn proxy'] g'] events'] (Hp & Hk & Ht & Hu). split; [|apply Hu].
  apply (net_untouched _ _ g g') in Hn; [|done]. destruct Hn as [? ? _ Hk0 Ht0].
  split; try done; by rewrite ?Hk, ?Ht.
Qed.

(** A pass of the proxy. *)
Lemma net_proxy_pass pol k g proxy ingress now rd :
  net_ok pol k g proxy ingress ->
  holds (TcpProxy.process_gateway_with_readiness proxy g now rd) (fun '(_, proxy', g') =>
    net_ok pol k g' proxy' ingress).
Proof.
  intros Hn. pose proof (nt_wf _ _ _ _ _ Hn) as Hw.
  destruct (TcpProxy.pass_spec received sent proxy g now rd Hw (nt_proxy _ _ _ _ _ Hn))
    as (active & events & b1 & b' & g' & Ea & -> & Pp & -> & Hok).
  destruct (TcpProxy.active_sessions_ret g Hw) as (active' & Ea' & _ & Hin).
  rewrite Ea in Ea'. injection Ea' as <-. destruct Pp as [Hw' (Hp & _) _ Hsl Hst _ _ (Hts & _) _ _ Hd _].
  apply (net_gateway _ _ g g') in Hn; [|done|done|].
  - destruct Hn as [? Hpol _ Hk Ht]. split; try done.
    + etrans; [exact Hk|]. cbn. rewrite <-Hpol, Hp. by eapply TcpProxy.dial_allowed.
    + cbn. by rewrite Hts.
  - eapply Ingress.bridge_ok_kept; [| |apply (nt_system _ _ _ _ _ Hn)].
    + intros h. unfold Ingress.conn_handles. by rewrite Hsl.
    + intros h Hh. apply Hst. intros (a & -> & Ha)%list_elem_of_fmap_1. apply Hin in Ha.
      unfold Ingress.conn_handles in Hh. rewrite Hsl in Hh.
      pose proof (wf_nodup _ (gw_core _ Hw)) as Hnd. unfold handles in Hnd.
      apply NoDup_app in Hnd as (_ & Hnd & _). by apply (Hnd _ Ha).
Qed.

(** A pass of the host ingress, and opening a session. *)
Lemma net_ingress_pass pol k g proxy ingress now rd :
  net_ok pol k g proxy ingress ->
  holds (Ingress.process_gateway_with_readiness ingress g now rd) (fun '(_, ingress', g') =>
    net_ok pol k g' proxy ingress').
Proof.
  intros [Hs Hpol Hp Hk Ht]. pose proof Hs as (Hw & Hb & Hl & Hrest).
  eapply holds_mono; [by apply (Ingress.process_gateway_ok received sent)|].
  intros [[events ingress'] g'] (Hw' & Hb' & (Hp' & _) & Hbl & Hpl & Hnp & _). split; try done.
  - split; [done|]. split; [done|]. by rewrite Hbl, Hpl, Hnp.
  - congruence.
  - by eapply proxy_ok_policy.
Qed.

Lemma net_open pol k g proxy ingress port c now :
  net_ok pol k g proxy ingress -> received c = [] -> sent c = [] ->
  holds (Ingress.open_session ingress g port c now) (fun '(_, ingress', g') =>
    net_ok pol k g' proxy ingress').
Proof.
  intros [Hs Hpol Hp Hk Ht] Hr Hse.
  pose proof (Ingress.open_session_ok received sent ingress g port c now Hs Hr Hse) as Ho.
  assert (forall r ingress' g', Ingress.open_session ingress g port c now = Ret (r, ingress', g') ->
    policy g' = policy g) as Hpg.
  { intros r ingress' g'. unfold Ingress.open_session. cbn.
    pose proof (connect_host_holds g port (Ingress.next_local_port ingress) now (proj1 Hs)) as Hc.
    destruct (connect_host_to_guest _ _ _ _) as [[[cn|e] g1]|]; cbn [exec_bind]; [..|done];
      destruct Hc as (_ & (Hc & _) & _); intros [= _ _ <-]; exact Hc. }
  destruct (Ingress.open_session _ _ _ _ _) as [[[r ingress'] g']|]; [|done].
  specialize (Hpg _ _ _ eq_refl). destruct Ho as [Ho _]. split; try done.
  - congruence.
  - by eapply proxy_ok_policy.
Qed.

Lemma net_reap pol k g proxy ingress :
  net_ok pol k g proxy ingress ->
  holds (reap_closed_tcp_sessions g) (fun '(_, g') => net_ok pol k g' proxy ingress).
Proof.
  intros Hn. pose proof (nt_wf _ _ _ _ _ Hn) as Hw.
  assert (exists r g', reap_closed_tcp_sessions g = Ret (r, g')) as (r & g' & E).
  { unfold reap_closed_tcp_sessions. rewrite reap_closed_sessions_eq by apply Hw. by do 2 eexists. }
  rewrite E. cbn. pose proof (gateway_step_kept exchange g g' Hw (gs_reap exchange g r g' E)) as (Hw' & Hp & _).
  apply (net_gateway _ _ g); [done|done| |done].
  destruct (Ingress.reap_kept g r g' Hw E) as [Hc Hs].
  eapply Ingress.bridge_ok_kept; [exact Hc|exact Hs|apply (nt_system _ _ _ _ _ Hn)].
Qed.

(** ** Submitting requests *)

Lemma submit_lookup_ok pol w0 k0 dns tcp ts p :
  tasks_ok pol w0 k0 dns tcp ts -> lookup_ok pol p -> next (tokens dns) < u64_max ->
  holds (submit_to_async_worker dns p dns_service_command (dns_worker ts))
    (fun '(r, dns', w) => tasks_ok pol w0 k0 dns' tcp (with_dns_worker ts w) /\
       match r with Ok _ => True | Err e => se_pending e = p end).
Proof.
  intros [Hd Ht Hl Hc Hr Hk] Hp Hn.
  destruct (submit_ok (execute_dns_service_command exchange) dns_service_command (fun _ _ => eq_refl)
    dns (dns_worker ts) p Hd Hn) as (r & dns' & w & -> & Hd' & _ & _ & Hx).
  cbn. destruct r as [t|e]; [destruct Hx as (_ & Ep & _)|destruct Hx as (Ee & Ep & _)]; (split; [|done]); split; try done;
    cbn; rewrite Ep; [|done].
  intros t' p'. rewrite lookup_insert_Some. intros [[_ <-]|[_ E]]; [done|by eapply Hl].
Qed.

Lemma submit_connect_ok pol w0 k0 dns tcp ts p :
  tasks_ok pol w0 k0 dns tcp ts -> connect_ok pol p -> next (tokens tcp) < u64_max ->
  holds (submit_to_async_worker tcp p tcp_service_command (tcp_connect_worker ts))
    (fun '(r, tcp', w) => tasks_ok pol w0 k0 dns tcp' (with_tcp_worker ts w) /\
       next (tokens tcp') = next (tokens tcp) + 1 /\
       match r with Ok _ => True | Err e => se_pending e = p end).
Proof.
  intros [Hd Ht Hl Hc Hr Hk] Hp Hn.
  destruct (submit_ok execute_tcp_connect_service_command tcp_service_command (fun _ _ => eq_refl)
    tcp (tcp_connect_worker ts) p Ht Hn) as (r & tcp' & w & -> & Ht' & Hnx & _ & Hx).
  cbn. destruct r as [t|e]; [destruct Hx as (_ & Ep & _)|destruct Hx as (Ee & Ep & _)]; (split; [|done]); split; try done;
    cbn; rewrite Ep; [|done].
  intros t' p'. rewrite lookup_insert_Some. intros [[_ <-]|[_ E]]; [done|by eapply Hc].
Qed.

(** A reply can be made for every query that was let pass. *)
Lemma complete_lookup_ret pol p r :
  lookup_ok pol p -> exists f, complete_pending_dns_query p r = Ret f.
Proof.
  intros (g & frame & _ & q & Hq & _ & _ & _ & Hctx).
  apply parse_dns_query_spec in Hq as (_ & Hs4 & Hd4 & _). rewrite <-Hctx in Hs4, Hd4.
  unfold complete_pending_dns_query.
  destruct (from_proxy_result_ret _ (Dns.complete_forward (request p) r) Hs4 Hd4) as (f & -> & _).
  by exists f.
Qed.

(** How many listening slots a frame can add. *)
Lemma ensure_listener_count core port r core' :
  ensure_listener core port = Ret (r, core') ->
  (List.length (handles core') <= S (List.length (handles core)))%nat.
Proof.
  unfold ensure_listener. destruct (find_listener _ _ _) as [[slot|]|]; cbn; [..|done].
  - intros [= _ <-]. lia.
  - unfold listen_tcp. destruct (socket_listen _ _); intros [= _ <-]; unfold handles; cbn; [|lia].
    rewrite !length_app, !length_map, length_app. cbn. lia.
Qed.

Lemma drain_poll_count g core frame now r g' :
  gateway_wf g -> GuestTcp.wf core ->
  drain_tcp_frames (poll_core (with_tcp g core (push_rx frame (tcp_device g))) now) = Ret (r, g') ->
  handles (tcp_core g') = handles core.
Proof.
  intros Hw Hc E.
  pose proof (drain_poll_holds (with_tcp g core (push_rx frame (tcp_device g))) now (gw_l2 _ Hw) Hc) as Hx.
  rewrite E in Hx. destruct Hx as (_ & _ & _ & Ec). cbn in Ec. rewrite Ec. apply poll_handles.
Qed.

Lemma deferred_count g frame now r g' :
  gateway_wf g -> handle_guest_frame_with_deferred_dns g frame now = Ret (r, g') ->
  (List.length (handles (tcp_core g')) <= S (List.length (handles (tcp_core g))))%nat.
Proof.
  intros Hw. unfold handle_guest_frame_with_deferred_dns.
  destruct (L2.handle_frame _ _) as [[reply|]|]; cbn [exec_bind]; [intros [= _ <-]; lia| |done].
  destruct (plan_dns_frame g frame) as [[[res|pending]|]|]; cbn [exec_bind];
    [intros [= _ <-]; lia|intros [= _ <-]; lia| |done].
  unfold handle_non_dns_guest_frame.
  destruct (udp_denial_from_frame _ _); [intros [= _ <-]; lia|].
  destruct (unsupported_protocol_from_frame _ _); [intros [= _ <-]; lia|].
  destruct (evaluate_tcp_syn_frame _ _) as [[[d dec]|]|]; cbn [exec_bind]; [..|done].
  - case_test; [destruct (tcp_reset_for_denied_syn frame); [intros [= _ <-]; lia|done]|].
    pose proof (ensure_listener_wf (tcp_core g) (Tcp.dest_port d) (gw_core g Hw)) as He.
    destruct (ensure_listener _ _) as [[l core]|] eqn:El; cbn [exec_bind]; [|done].
    apply ensure_listener_count in El. destruct l as [h|e]; [|by intros [= _ <-]].
    destruct (drain_tcp_frames _) as [[fs g2]|] eqn:Ed; [|done]. intros [= _ <-].
    apply (drain_poll_count g core) in Ed; [|done|done]. by rewrite Ed.
  - destruct (drain_tcp_frames _) as [[fs g2]|] eqn:Ed; [|done]. intros [= _ <-].
    apply (drain_poll_count g (tcp_core g)) in Ed; [rewrite Ed; lia|done|apply Hw].
Qed.

(** A frame of the guest. *)
Lemma frame_ok pol w0 k0 k g proxy ingress dns tcp ts frame now :
  net_ok pol k g proxy ingress -> tasks_ok pol w0 k0 dns tcp ts -> next (tokens dns) < u64_max ->
  holds (handle_guest_frame_with_async_dns_worker exchange g dns ts frame now)
    (fun '(_, g', dns', ts') => net_ok pol k g' proxy ingress /\ tasks_ok pol w0 k0 dns' tcp ts' /\
       (List.length (handles (tcp_core g')) <= S (List.length (handles (tcp_core g))))%nat).
Proof.
  intros Hn Htk Hnx. pose proof (nt_wf _ _ _ _ _ Hn) as Hw.
  unfold handle_guest_frame_with_async_dns_worker.
  pose proof (handle_deferred_holds g frame now Hw) as Hd.
  destruct (handle_guest_frame_with_deferred_dns g frame now) as [[d g']|] eqn:E; [|done].
  cbn [exec_bind]. destruct Hd as (Hw' & Hset & Hd). cbn [fst snd] in *.
  pose proof (handle_deferred_kept g frame now d g' Hw E) as Hk.
  apply deferred_count in E; [|done].
  pose proof (net_kept _ _ g g' _ _ Hw' Hset Hk Hn) as Hn'.
  destruct d as [result|p]; [by cbn|]. destruct Hd as [-> Hplan].
  assert (lookup_ok pol p) as Hl by (exists g, frame; split; [apply Hn|done]).
  apply holds_bind. eapply holds_mono;
    [apply submit_lookup_ok; [by apply let_tasks_run_ok|exact Hl|done]|].
  intros [[[t|e] dns'] w] [Htk' He]; [by cbn|]. rewrite He.
  destruct (complete_lookup_ret pol p (Err Dns.Unavailable) Hl) as [f ->]. by cbn.
Qed.

(** The connections of a round are submitted or refused. *)
Definition plan_ok (pol : Policy.VmnetPolicy) g (p : TcpProxy.TcpProxyConnectPlan) : Prop :=
  match p with
  | TcpProxy.PlanPending p =>
      connect_ok pol p /\ TcpProxy.pending_handle p ∈ handles (tcp_core g)
  | TcpProxy.PlanEvent _ => True
  end.

Lemma submit_plans_ok pol w0 k0 k ingress dns now plans g proxy tcp ts events :
  net_ok pol k g proxy ingress -> tasks_ok pol w0 k0 dns tcp ts -> Forall (plan_ok pol g) plans ->
  next (tokens tcp) + len plans <= u64_max ->
  holds (submit_plans exchange g proxy tcp ts now plans events)
    (fun '(_, g', proxy', tcp', ts') =>
       net_ok pol k g' proxy' ingress /\ tasks_ok pol w0 k0 dns tcp' ts').
Proof.
  revert g proxy tcp ts events. induction plans as [|[p|ev] plans IH];
    intros g proxy tcp ts events Hn Htk Hf Hl; cbn [submit_plans]; [done| |].
  - apply Forall_cons in Hf as [[Hc Hh] Hf]. rewrite len_cons in Hl.
    pose proof (len_nonneg plans) as Hnn.
    apply holds_bind. eapply holds_mono;
      [apply submit_connect_ok; [by apply let_tasks_run_ok|exact Hc|lia]|].
    intros [[[t|e] tcp'] w] (Htk' & Hnx & He).
    + apply IH; [|done|done|lia]. by destruct Hn.
    + rewrite He. apply holds_bind. eapply holds_mono; [by apply net_complete|].
      intros [[[dn proxy'] g'] events'] [Hn' Hhs]. apply IH; [done|done| |lia].
      eapply Forall_impl; [exact Hf|]. intros [p'|]; cbn; [|done]. by rewrite Hhs.
  - rewrite len_cons in Hl. apply Forall_cons in Hf as [_ Hf]. apply IH; [done|done|done|lia].
Qed.

Lemma plan_connects_spec (b : TcpProxyBridge) pol active :
  (List.length (TcpProxy.plan_connects b pol active) <= List.length active)%nat /\
  forall p, p ∈ TcpProxy.plan_connects b pol active ->
    exists a d, a ∈ active /\ p = TcpProxy.plan_connect b (ref_handle a) d pol.
Proof.
  induction active as [|a active [IHl IHp]]; cbn; [by split; [lia|intros p ?%elem_of_nil]|].
  assert (forall p, p ∈ TcpProxy.plan_connects b pol active ->
    exists a' d, a' ∈ a :: active /\ p = TcpProxy.plan_connect b (ref_handle a') d pol) as IHp'.
  { intros p (a' & d & Ha & ->)%IHp. exists a', d. split; [by right|done]. }
  do 2 (case_test; [split; [lia|done]|]). split; [cbn; lia|].
  intros p [->|Hp]%elem_of_cons; [|by apply IHp']. exists a. eexists. split; [by left|done].
Qed.

Lemma plans_ok pol k g proxy ingress :
  net_ok pol k g proxy ingress ->
  exists plans, TcpProxy.plan_connects_for_service proxy g = Ret plans /\
    Forall (plan_ok pol g) plans /\ (List.length plans <= List.length (handles (tcp_core g)))%nat.
Proof.
  intros Hn. pose proof (nt_wf _ _ _ _ _ Hn) as Hw. unfold TcpProxy.plan_connects_for_service.
  destruct (TcpProxy.active_sessions_ret g Hw) as (active & -> & Hnd & Hin). cbn [exec_bind].
  eexists. split; [done|].
  destruct (plan_connects_spec proxy (policy g) active) as [Hl Hp]. split.
  - apply Forall_forall. intros p Hpl. destruct (Hp p Hpl) as (a & d & Ha & ->).
    destruct (TcpProxy.plan_connect proxy (ref_handle a) d (policy g)) as [pd|ev] eqn:E; [|done].
    cbn. rewrite (nt_policy _ _ _ _ _ Hn) in E. split; [by exists proxy, (ref_handle a), d|].
    apply TcpProxy.plan_pending in E as (-> & _). by eapply TcpProxy.listener_handles.
  - etrans; [exact Hl|]. rewrite <-(length_map ref_handle). apply submseteq_length, NoDup_submseteq; [done|].
    intros h (a & -> & Ha)%list_elem_of_fmap_1. by eapply TcpProxy.listener_handles.
Qed.

(** ** The loop *)

Definition fresh_connection (a : Ingress.AcceptedHostConnection C) : Prop :=
  received (Ingress.acc_connection a) = [] /\ sent (Ingress.acc_connection a) = [].

Record rt_ok (pol : Policy.VmnetPolicy) (w0 : W) (k k0 : K) rt : Prop := {
  ro_net : net_ok pol k (rt_gateway rt) (rt_proxy rt) (rt_ingress rt);
  ro_tasks : tasks_ok pol w0 k0 (rt_dns rt) (rt_tcp rt) (rt_tasks rt);
  ro_queue : Forall fresh_connection (Ingress.queue (rt_queue rt))
}.

(** Enough tokens are left for another [n] connections. *)
Definition room (n : nat) rt : Prop := next (tokens (rt_tcp rt)) + Z.of_nat n <= u64_max.

Definition ok_result {A E : Type} (Q : A -> Prop) (r : result A E) : Prop :=
  match r with Ok a => Q a | Err _ => True end.

Lemma ok_result_bind {A B E} (Q : A -> Prop) (R : B -> Prop) (m : result A E) (f : A -> result B E) :
  ok_result Q m -> (forall a, Q a -> ok_result R (f a)) -> ok_result R (let? a := m in f a).
Proof. destruct m; cbn; eauto. Qed.

Lemma ok_result_true {A B E} (R : B -> Prop) (m : result A E) (f : A -> result B E) :
  (forall a, ok_result R (f a)) -> ok_result R (let? a := m in f a).
Proof. destruct m; cbn; eauto. Qed.

Lemma holds_try {A B E} (Q : A -> Prop) (R : B -> Prop) (m : exec (result A E))
  (f : A -> exec (result B E)) :
  holds m (ok_result Q) -> (forall a, Q a -> holds (f a) (ok_result R)) ->
  holds (let!? a := m in f a) (ok_result R).
Proof. destruct m as [[a|e]|]; cbn; eauto. Qed.

(** What the owner does with its output does not matter to the invariant. *)
Lemma rt_ok_out pol w0 k k0 rt o : rt_ok pol w0 k k0 rt -> rt_ok pol w0 k k0 (with_out rt o).
Proof. by intros [? ? ?]. Qed.

Lemma connect_round_ok pol w0 k k0 rt now :
  rt_ok pol w0 k k0 rt -> room (List.length (handles (tcp_core (rt_gateway rt)))) rt ->
  holds (connect_round exchange rt now) (fun '(_, rt') => rt_ok pol w0 k k0 rt').
Proof.
  intros [Hn Ht Hq] Hr. unfold connect_round, submit_tcp_connects_to_async_worker.
  destruct (plans_ok _ _ _ _ _ Hn) as (plans & -> & Hp & Hl). cbn [exec_bind].
  apply holds_bind. eapply holds_mono; [apply submit_plans_ok; [exact Hn|exact Ht|exact Hp|]|].
  { unfold room in Hr. unfold len. lia. }
  intros [[[[events g'] proxy'] tcp'] ts'] [Hn' Ht']. by split.
Qed.

Lemma queue_accepted_ok (acc : list (io_result (Ingress.AcceptedHostConnection C))) q events :
  Forall fresh_connection (Ingress.queue q) ->
  (forall a, Ok a ∈ acc -> fresh_connection a) ->
  ok_result (fun '(q', _) => Forall fresh_connection (Ingress.queue q')) (queue_accepted q acc events).
Proof.
  revert q events. induction acc as [|[a|e] acc IH]; intros q events Hq Ha; cbn [queue_accepted]; [done| |done].
  unfold Ingress.queue_push. case_test.
  - apply IH; [done|]. intros a' Ha'. apply Ha. by right.
  - apply IH.
    + cbn. apply Forall_app. split; [done|]. apply Forall_singleton, Ha. by left.
    + intros a' Ha'. apply Ha. by right.
Qed.

Lemma accept_loop_fresh fuel n l max acc :
  (forall a, Ok a ∈ acc -> fresh_connection a) ->
  match Ingress.accept_loop accept set_nonblocking fuel n l max acc with
  | Ret (all, _) => forall a, Ok a ∈ all -> fresh_connection a
  | Panic => True
  end.
Proof.
  revert n acc. induction fuel as [|fuel IH]; intros n acc Ha; cbn [Ingress.accept_loop]; [done|].
  case_test; [|done].
  destruct (accept n (Ingress.listener l)) as [[c|e] n1] eqn:Ea; [|case_test; [done|]; intros a [?|E]%elem_of_app;
    [by apply Ha|apply list_elem_of_singleton in E; done]].
  destruct (set_nonblocking n1 c) as [[[]|e] n2]; apply IH; intros a [?|E]%elem_of_app;
    try (by apply Ha); apply list_elem_of_singleton in E; [|done].
  injection E as ->. by eapply accept_fresh.
Qed.

Lemma accept_listeners_ok pol w0 k k0 indices rt events :
  rt_ok pol w0 k k0 rt ->
  holds (accept_listeners accept set_nonblocking listeners rt indices events)
    (ok_result (fun '(rt', _) => rt_ok pol w0 k k0 rt')).
Proof.
  revert rt events. induction indices as [|i indices IH]; intros rt events Hok; cbn [accept_listeners]; [done|].
  unfold Ingress.accept_ready_limited.
  destruct (Ingress.set_listeners listeners !! i) as [l|]; cbn [exec_bind].
  - pose proof (Ingress.accept_loop_spec accept set_nonblocking
      (S (Z.to_nat Ingress.DEFAULT_HOST_INGRESS_ACCEPTS_PER_LISTENER_PUMP)) (rt_net rt) l
      Ingress.DEFAULT_HOST_INGRESS_ACCEPTS_PER_LISTENER_PUMP []) as Hs.
    pose proof (accept_loop_fresh (S (Z.to_nat Ingress.DEFAULT_HOST_INGRESS_ACCEPTS_PER_LISTENER_PUMP))
      (rt_net rt) l Ingress.DEFAULT_HOST_INGRESS_ACCEPTS_PER_LISTENER_PUMP []) as Hf.
    destruct (Ingress.accept_loop _ _ _ _ _ _ _) as [[all n]|];
      [|by apply Hs; [|unfold len; cbn; lia]]. cbn [exec_bind Ingress.accepted].
    pose proof (queue_accepted_ok all (rt_queue rt) events (ro_queue _ _ _ _ _ Hok)) as Hqa.
    destruct (queue_accepted _ all events) as [[q ev]|e]; [|done].
    apply IH. destruct Hok as [? ? ?]. split; [done|done|]. apply Hqa, Hf. by intros a ?%elem_of_nil.
  - cbn. apply IH. by destruct Hok.
Qed.

Lemma open_accepted_ok pol k proxy now accepted o g ingress events :
  net_ok pol k g proxy ingress -> Forall fresh_connection accepted ->
  holds (open_accepted write_ethernet_frame o g ingress now show_error accepted events)
    (ok_result (fun '(_, _, g', ingress') => net_ok pol k g' proxy ingress')).
Proof.
  revert o g ingress events. induction accepted as [|a accepted IH];
    intros o g ingress events Hn Hf; cbn [open_accepted]; [done|].
  apply Forall_cons in Hf as [[Hr Hs] Hf]. unfold open_host_ingress_session.
  pose proof (net_open pol k g proxy ingress (Ingress.acc_guest_port a) (Ingress.acc_connection a) now Hn Hr Hs) as Ho.
  destruct (Ingress.open_session _ _ _ _ _) as [[[[op|e] ingress'] g']|]; cbn [exec_bind]; [..|done];
    destruct (Runtime.write_guest_frames_async _ _ _); [|done| |done]; by apply IH.
Qed.

Lemma open_round_ok pol w0 k k0 rt now events :
  rt_ok pol w0 k k0 rt ->
  holds (open_round write_ethernet_frame show_error rt now events)
    (ok_result (fun '(rt', _) => rt_ok pol w0 k k0 rt')).
Proof.
  intros [Hn Ht Hq]. unfold open_round. cbn.
  eapply holds_try; [by apply (open_accepted_ok pol k (rt_proxy rt))|].
  intros [[[ev o] g'] ingress'] Hn'. by split.
Qed.

Lemma proxy_round_ok pol w0 k k0 rt r now events :
  rt_ok pol w0 k k0 rt ->
  holds (proxy_round write_ethernet_frame rt r now events)
    (ok_result (fun '(rt', _) => rt_ok pol w0 k k0 rt')).
Proof.
  intros [Hn Ht Hq]. unfold proxy_round, pump_proxy_ready_async.
  eapply holds_try with (Q := fun '(_, _, g', proxy') => net_ok pol k g' proxy' (rt_ingress rt)).
  - apply holds_bind. eapply holds_mono; [by apply net_proxy_pass|].
    intros [[ev proxy'] g'] Hn'. cbn. by apply ok_result_true.
  - intros [[[ev o] g'] proxy'] Hn'. cbn. apply ok_result_true. intros o'. by split.
Qed.

Lemma ingress_round_ok pol w0 k k0 rt r now :
  rt_ok pol w0 k k0 rt ->
  holds (ingress_round write_ethernet_frame rt r now)
    (ok_result (fun '(rt', _) => rt_ok pol w0 k k0 rt')).
Proof.
  intros [Hn Ht Hq]. unfold ingress_round, pump_host_ingress_ready_async.
  eapply holds_try with (Q := fun '(_, _, g', ingress') => net_ok pol k g' (rt_proxy rt) ingress').
  - apply holds_bind. eapply holds_mono; [by apply net_ingress_pass|].
    intros [[ev ingress'] g'] Hn'. cbn. by apply ok_result_true.
  - intros [[[ev o] g'] ingress'] Hn'. by split.
Qed.

Lemma record_round_ok pol w0 k k0 rt gevents pevents hevents :
  rt_ok pol w0 k k0 rt ->
  ok_result (rt_ok pol w0 k k0) (record_round write_line flush rt gevents pevents hevents).
Proof.
  intros [? ? ?]. unfold record_round. do 3 (apply ok_result_true; intros ?). by split.
Qed.

(** The owner once it has looked up the request a completion answers. *)
Definition settle rt (event : VmnetAsyncOwnerEvent) : runtime :=
  match event with
  | Service (DnsCompletion c) =>
      with_services rt (remove_pending_for_completion (rt_dns rt) c).2 (rt_tcp rt) (rt_tasks rt)
  | Service (TcpCompletion c) =>
      with_services rt (rt_dns rt) (remove_pending_for_completion (rt_tcp rt) c).2 (rt_tasks rt)
  | _ => rt
  end.

(** The event was taken in a good state. *)
Definition event_ok (pol : Policy.VmnetPolicy) (w0 : W) (k k0 : K) rt
  (event : VmnetAsyncOwnerEvent) : Prop :=
  rt_ok pol w0 k k0 (settle rt event) /\
  match event with
  | Service (DnsCompletion c) =>
      exists p, (remove_pending_for_completion (rt_dns rt) c).1 = Some p /\ lookup_ok pol p
  | Service (TcpCompletion c) =>
      exists p, (remove_pending_for_completion (rt_tcp rt) c).1 = Some p /\ connect_ok pol p
  | _ => True
  end.

(** A failed connection is reported for a socket that is not there any more. *)
Definition stale rt (event : VmnetAsyncOwnerEvent) : Prop :=
  exists completion p e, event = Service (TcpCompletion (TcpConnectDone completion)) /\
    (remove_pending_for_completion (rt_tcp rt) (TcpConnectDone completion)).1 = Some p /\
    connected completion = Err e /\
    TcpProxy.pending_handle p ∉ handles (tcp_core (rt_gateway rt)).

(** What a round needs to know after the event. *)
Definition applied (pol : Policy.VmnetPolicy) (w0 : W) (k k0 : K) rt rt' : Prop :=
  rt_ok pol w0 k k0 rt' /\ next (tokens (rt_tcp rt')) = next (tokens (rt_tcp rt)) /\
  (List.length (handles (tcp_core (rt_gateway rt'))) <=
   S (List.length (handles (tcp_core (rt_gateway rt)))))%nat.

Lemma dns_completion_ok pol w0 k k0 rt c now :
  event_ok pol w0 k k0 rt (Service (DnsCompletion c)) ->
  holds (apply_async_service_completion_event write_ethernet_frame rt (DnsCompletion c) now)
    (ok_result (fun '(rt', _, _) => applied pol w0 k k0 rt rt')).
Proof.
  intros [Hok (p & Ep & Hl)]. unfold apply_async_service_completion_event, apply_dns_service_completion.
  cbn [settle] in Hok. destruct (remove_pending_for_completion (rt_dns rt) c) as [found dns']. cbn in Ep, Hok. subst found.
  assert (forall o, applied pol w0 k k0 rt (with_out (with_services rt dns' (rt_tcp rt) (rt_tasks rt)) o)) as Ha.
  { intros o. split; [by apply rt_ok_out|]. cbn. split; [done|lia]. }
  destruct c as [c|c|c]; cbn [exec_bind];
    [|cbn; split; [done|]; cbn; split; [done|lia]|cbn; split; [done|]; cbn; split; [done|lia]].
  destruct (complete_lookup_ret pol p (looked_up c) Hl) as [f ->]. cbn [exec_bind].
  apply ok_result_true. apply Ha.
Qed.

Lemma tcp_completion_ok pol w0 k k0 rt c now :
  event_ok pol w0 k k0 rt (Service (TcpCompletion c)) -> ~ stale rt (Service (TcpCompletion c)) ->
  holds (apply_async_service_completion_event write_ethernet_frame rt (TcpCompletion c) now)
    (ok_result (fun '(rt', _, _) => applied pol w0 k k0 rt rt')).
Proof.
  intros [[Hn Ht Hq] (p & Ep & Hc)] Hst.
  unfold apply_async_service_completion_event, apply_tcp_connect_service_completion.
  cbn [settle] in Ht. unfold stale in Hst.
  destruct (remove_pending_for_completion (rt_tcp rt) c) as [found tcp'] eqn:Er. cbn in Ep. subst found.
  assert (next (tokens tcp') = next (tokens (rt_tcp rt))) as Htok.
  { unfold remove_pending_for_completion in Er. cbn in Er. by injection Er as _ <-. }
  destruct c as [c|c|c]; cbn [exec_bind];
    [cbn; split; [by split|]; cbn; split; [done|lia]| |cbn; split; [by split|]; cbn; split; [done|lia]].
  apply holds_bind, holds_bind.
  eapply holds_mono; [apply (net_complete pol k (rt_gateway rt) (rt_proxy rt) (rt_ingress rt) p); [exact Hn|exact Hc|]|].
  { intros e Ee. destruct (decide (TcpProxy.pending_handle p ∈ handles (tcp_core (rt_gateway rt)))) as [|Hno]; [done|].
    exfalso. apply Hst. exists c, p, e. by rewrite Er. }
  intros [[[dn proxy'] g'] events'] [Hn' Hh]. cbn [exec_bind]. apply ok_result_true. intros o.
  split; [by split|]. cbn. rewrite Hh. split; [done|lia].
Qed.

Lemma apply_event_ok pol w0 k k0 rt event now :
  event_ok pol w0 k k0 rt event -> next (tokens (rt_dns rt)) < u64_max -> ~ stale rt event ->
  holds (apply_event exchange write_ethernet_frame rt event now)
    (ok_result (fun '(rt', _, _, _) => applied pol w0 k k0 rt rt')).
Proof.
  intros Hev Hnx Hst.
  destruct event as [frame| |sv| |src rd wr]; cbn [apply_event].
  - destruct Hev as [[Hn Ht Hq] _]. destruct (capture_frame _ _ _) as [p'|]; [|done].
    apply holds_bind. eapply holds_mono; [by apply frame_ok|].
    intros [[[hd g'] dns'] ts'] (Hn' & Ht' & Hl).
    assert (forall o, applied pol w0 k k0 rt (with_out (with_services (with_bridges
      (with_out (with_stats rt (count_read (rt_stats rt)) (rt_log rt))
         (with_pcap (rt_out (with_stats rt (count_read (rt_stats rt)) (rt_log rt))) p')) g' (rt_proxy rt)
      (rt_ingress rt)) dns' (rt_tcp rt) ts') o)) as Ha by (intros o; by split).
    destruct hd as [r|t|r]; cbn; [apply ok_result_true; intros o; exact (Ha o)| |apply ok_result_true; intros o; exact (Ha o)].
    by split.
  - destruct Hev as [Hok _]. split; [done|]. split; [done|lia].
  - destruct sv as [c| |c|].
    + eapply holds_try; [by apply dns_completion_ok|]. by intros [[rt' ?] ?].
    + destruct Hev as [Hok _]. cbn. split; [done|]. split; [done|lia].
    + eapply holds_try; [by apply tcp_completion_ok|]. by intros [[rt' ?] ?].
    + destruct Hev as [Hok _]. cbn. split; [done|]. split; [done|lia].
  - destruct Hev as [[Hn Ht Hq] _]. apply holds_bind.
    eapply holds_mono; [by apply poll_untouched, (nt_wf _ _ _ _ _ Hn)|].
    intros [fs g'] Hu. apply ok_result_true. intros o. cbn in Hu.
    split; [split; [by eapply net_untouched|done|done]|]. cbn. destruct Hu as (_ & _ & -> & _). split; [done|lia].
  - destruct Hev as [Hok _]. cbn. split; [done|]. split; [done|lia].
Qed.

Definition exit_ok (Q : runtime -> Prop) (x : loop_exit) : Prop :=
  match x with Continue rt => Q rt | Stopped _ => True end.

Local Notation round :=
  (owner_round exchange write_ethernet_frame write_line flush accept set_nonblocking listeners show_error).

Lemma owner_round_ok pol w0 k k0 rt event now :
  event_ok pol w0 k k0 rt event -> next (tokens (rt_dns rt)) < u64_max ->
  room (S (List.length (handles (tcp_core (rt_gateway rt))))) rt -> ~ stale rt event ->
  holds (round rt event now) (ok_result (exit_ok (rt_ok pol w0 k k0))).
Proof.
  intros Hev Hnx Hroom Hst. unfold owner_round. case_test; [done|]. clear Etest.
  eapply holds_try; [by apply apply_event_ok|].
  intros [[[rt1 gev] pev] r] (Hok1 & Htok & Hl). apply holds_bind.
  eapply holds_mono; [apply connect_round_ok; [exact Hok1|unfold room in *; rewrite Htok; lia]|].
  intros [cev rt2] Hok2.
  eapply holds_try; [by apply accept_listeners_ok|]. intros [rt3 hev] Hok3.
  eapply holds_try; [by apply open_round_ok|]. intros [rt4 hev'] Hok4.
  eapply holds_try; [by apply proxy_round_ok|]. intros [rt5 pump] Hok5.
  eapply holds_try; [by apply ingress_round_ok|]. intros [rt6 more] Hok6.
  pose proof (record_round_ok pol w0 k k0 rt6 gev (pump ++ pev) (hev' ++ more) Hok6) as Hrec.
  destruct (record_round _ _ _ _ _ _) as [rt7|]; [|done]. cbn in Hrec. destruct Hrec as [Hn7 Ht7 Hq7].
  apply holds_bind. eapply holds_mono; [by apply net_reap|]. intros [rp g'] Hn'. by split.
Qed.

Lemma stale_or_not rt event : stale rt event \/ ~ stale rt event.
Proof.
  unfold stale. destruct event as [| |[| |[|c|]|]| |]; try (right; by intros (? & ? & ? & [=] & _)).
  destruct (remove_pending_for_completion (rt_tcp rt) (TcpConnectDone c)).1 as [p|] eqn:Ep;
    [|right; intros (? & ? & ? & [= <-] & E & _); congruence].
  destruct (connected c) as [|e] eqn:Ec; [right; intros (? & ? & ? & [= <-] & _ & E & _); congruence|].
  destruct (decide (TcpProxy.pending_handle p ∈ handles (tcp_core (rt_gateway rt)))) as [Hin|Hin].
  - right. intros (? & p' & ? & [= <-] & E & _ & Hno). rewrite Ep in E. by injection E as <-.
  - left. by exists c, p, e.
Qed.

(** The other half: a stale failure ends the owner. *)
Lemma stale_panics rt event now :
  gateway_wf (rt_gateway rt) -> stale rt event -> round rt event now = Panic.
Proof.
  intros Hw (c & p & e & -> & Ep & Ee & Hno). unfold owner_round. cbn [apply_event].
  unfold apply_async_service_completion_event, apply_tcp_connect_service_completion.
  destruct (remove_pending_for_completion (rt_tcp rt) (TcpConnectDone c)) as [found tcp'].
  cbn in Ep. subst found. rewrite Ee. unfold TcpProxy.complete_connect, close_tcp_session, close_session, get.
  destruct (sockets (tcp_core (rt_gateway rt)) !! TcpProxy.pending_handle p) as [s|] eqn:Es; [|done].
  exfalso. apply Hno. apply (get_inv _ _ s); [apply Hw|]. unfold get. by rewrite Es.
Qed.

(** ** Waiting *)

(** The timeout is computed from the interface. *)
Definition wait rt (now : Z) : runtime :=
  with_bridges rt (tcp_poll_delay (rt_gateway rt) now).2 (rt_proxy rt) (rt_ingress rt).

Lemma wait_untouched g now : gateway_wf g -> untouched g (tcp_poll_delay g now).2.
Proof.
  intros Hw. unfold tcp_poll_delay, poll_delay.
  destruct (iface_poll_delay _ _ _) as [d i]. cbn. split; [|done].
  destruct Hw as [? [? ?] ?]. split; [done|split|done]; done.
Qed.

Lemma wait_ok pol w0 k k0 rt now : rt_ok pol w0 k k0 rt -> rt_ok pol w0 k k0 (wait rt now).
Proof.
  intros [Hn Ht Hq]. split; [|done|done]. cbn.
  eapply net_untouched; [by apply wait_untouched, (nt_wf _ _ _ _ _ Hn)|done].
Qed.

Lemma next_event_ok pol w0 k k0 (afd : Z -> io_result unit) delay rt event rt1 :
  rt_ok pol w0 k k0 rt ->
  next_async_owner_event listeners listener_fd connection_fd afd delay rt (Ok event) rt1 ->
  event_ok pol w0 k k0 rt1 event.
Proof.
  intros Hok Hnext. remember (Ok event) as r eqn:Er.
  destruct Hnext as [f io E|io E| |c w io E Ec|c w io E Ec|d io E Ed|rr wr r cur io E Hne Hw];
    try (injection Er as <-); try (split; [by destruct Hok|done]).
  - destruct Hok as [Hn [Hd Ht Hl Hcn Hr Hk] Hq]. destruct c as [c|].
    + destruct (collect_ok _ _ _ _ c w Hd Ec) as (p & x & Ep & _ & Erm & Hd' & _). split.
      * split; [done| |done]. split; cbn; try done.
        intros t p'. rewrite lookup_delete_Some. intros [_ ?]. by eapply Hl.
      * exists p. split; [done|]. by eapply Hl.
    + destruct (disconnected_ok _ _ _ _ w Hd Ec) as (-> & _). by split.
  - destruct Hok as [Hn [Hd Ht Hl Hcn Hr Hk] Hq]. destruct c as [c|].
    + destruct (collect_ok _ _ _ _ c w Ht Ec) as (p & x & Ep & _ & Erm & Ht' & _). split.
      * split; [done| |done]. split; cbn; try done.
        intros t p'. rewrite lookup_delete_Some. intros [_ ?]. by eapply Hcn.
      * exists p. split; [done|]. by eapply Hcn.
    + destruct (disconnected_ok _ _ _ _ w Ht Ec) as (-> & _). by split.
  - destruct r as [[[[src rd] wt]|]|]; [injection Er as <-|injection Er as <-|done];
      (split; [by destruct Hok|done]).
Qed.

Lemma next_event_same (afd : Z -> io_result unit) delay rt r rt1 :
  next_async_owner_event listeners listener_fd connection_fd afd delay rt r rt1 ->
  rt_gateway rt1 = rt_gateway rt /\ rt_dns rt1 = rt_dns rt /\ rt_tcp rt1 = rt_tcp rt.
Proof. by destruct 1. Qed.

(** ** Histories *)

(** Enough tokens are left for a round: one lookup, and one connection for each
    socket. *)
Definition tokens_left rt : Prop :=
  next (tokens (rt_dns rt)) < u64_max /\
  room (S (List.length (handles (tcp_core (rt_gateway rt))))) rt.

(** The tasks run at any time; the owner waits for an event and goes through a
    round, as long as the [2^64] tokens last. *)
Inductive runtime_step : runtime -> runtime -> Prop :=
| rs_tasks rt turns s :
    runtime_step rt
      (with_services rt (rt_dns rt) (rt_tcp rt)
         (with_schedule (foldl (run_turn exchange) (rt_tasks rt) turns) s))
| rs_round rt t1 t2 afd event rt1 rt' :
    tokens_left rt ->
    next_async_owner_event listeners listener_fd connection_fd afd
      (tcp_poll_delay (rt_gateway rt) t1).1 (wait rt t1) (Ok event) rt1 ->
    round rt1 event t2 = Ret (Ok (Continue rt')) -> runtime_step rt rt'.

Lemma runtime_step_ok pol w0 k k0 rt rt' :
  runtime_step rt rt' -> rt_ok pol w0 k k0 rt -> rt_ok pol w0 k k0 rt'.
Proof.
  intros Hstep Hok. destruct Hstep as [rt turns s|rt t1 t2 afd event rt1 rt' [Hd Hr] Hnext E].
  - destruct Hok as [Hn Ht Hq]. split; [done| |done]. cbn.
    apply (run_turns_ok _ _ _ _ _ turns) in Ht. by destruct Ht.
  - pose proof (wait_ok _ _ _ _ _ t1 Hok) as Hok'.
    pose proof (next_event_ok _ _ _ _ _ _ _ _ _ Hok' Hnext) as Hev.
    destruct (next_event_same _ _ _ _ _ Hnext) as (Eg & Ed & Et).
    destruct (wait_untouched (rt_gateway rt) t1 (nt_wf _ _ _ _ _ (ro_net _ _ _ _ _ Hok))) as (Hw & _ & Hh & _).
    assert (rt_gateway rt1 = (tcp_poll_delay (rt_gateway rt) t1).2) as Eg' by exact Eg.
    pose proof (owner_round_ok pol w0 k k0 rt1 event t2 Hev) as Hro.
    rewrite E in Hro. apply Hro.
    + by rewrite Ed.
    + unfold room. rewrite Eg', Hh, Et. exact Hr.
    + intros Hst. apply (stale_panics _ _ t2) in Hst; [congruence|]. by rewrite Eg'.
Qed.

Lemma runtime_steps_ok pol w0 k k0 rt rt' :
  rtc runtime_step rt rt' -> rt_ok pol w0 k k0 rt -> rt_ok pol w0 k k0 rt'.
Proof. induction 1; eauto using runtime_step_ok. Qed.

(** ** The start *)

Definition new_proxy (pol : Policy.VmnetPolicy) (k : K) (proxy : TcpProxyBridge) : Prop :=
  TcpProxy.connector proxy = k /\ TcpProxy.sessions proxy = ∅ /\
  TcpProxy.buffer_limits proxy = TcpProxy.limits_default /\
  (Tcp.https_mitm_configured pol = true -> is_Some (TcpProxy.tls_server_config proxy)).

Lemma from_policy_new {R : Type} `{TlsMitm.Rcgen R} read_file server_config client_config k pol proxy :
  tcp_proxy_bridge_from_policy read_file server_config client_config k pol = Ok proxy ->
  new_proxy pol k proxy.
Proof.
  unfold tcp_proxy_bridge_from_policy, new_proxy, Tcp.https_mitm_configured.
  destruct (Policy.ca_cert_path _) as [cert|]; [|by intros [= <-]].
  destruct (Policy.ca_key_path _) as [key|]; [|by intros [= <-]].
  destruct (Policy.generate_per_host_certs _); [|by intros [= <-]]. cbn.
  destruct (TlsMitm.from_files _ _ _) as [au|]; [|done]. destruct client_config as [cc|]; [|done]. cbn.
  unfold TcpProxy.with_tls_mitm_and_client_config. destruct (server_config au) as [sc|]; [|done].
  intros [= <-]. by split_and!.
Qed.

Lemma start_ok pol network limits now wg ww proxy k k0 io log cap n rt :
  0 <= Policy.prefix_len network <= u8_max -> 0 <= Policy.mtu pol <= u16_max ->
  0 <= command_limit limits -> 0 <= completion_limit limits -> new_proxy pol k proxy ->
  owner_start pol network limits now wg ww (Ok proxy) k0 io log cap n = Ret (Ok rt) ->
  rt_ok pol ww k k0 rt.
Proof.
  intros Hp Hm Hc1 Hc2 (Hk & Hs & Hl & Htls). unfold owner_start, runtime_error.
  destruct (new_with_dns_upstream pol network now wg) as [[g|e]|] eqn:Eg; [|done|done]. cbn -[owner_new].
  apply gateway_new_wf in Eg as [Hw Hpol]; [|done..].
  destruct (spawn_service_task (C := unit) limits) as [dw|] eqn:E1; [|done]. cbn -[owner_new].
  destruct (spawn_service_task (C := C) limits) as [tw|] eqn:E2; [|done]. cbn -[owner_new].
  destruct (owner_new (C := unit) (Pending := VmnetPendingDnsQuery) limits) as [od|] eqn:E3; [|done]. cbn -[owner_new].
  destruct (owner_new (C := C) (Pending := TcpProxy.TcpProxyPendingConnect) limits) as [ot|] eqn:E4; [|done].
  intros [= <-]. assert (pending od = ∅ /\ pending ot = ∅) as [Ed Et].
  { unfold owner_new in E3, E4. destruct (queues_new (C := unit) limits); [|done]. destruct (queues_new (C := C) limits); [|done].
    by injection E3 as <-; injection E4 as <-. }
  split; cbn; [| |done].
  - split; cbn; [|done| |by rewrite Hk|done].
    + split; [done|]. split; [intros h s; cbn; by rewrite lookup_empty|done].
    + split; [rewrite Hl; by vm_compute|]. intros h s. by rewrite Hs, lookup_empty.
  - split; cbn; try done.
    + by eapply (spawn_ok (execute_dns_service_command exchange) dns_service_command limits).
    + by eapply (spawn_ok execute_tcp_connect_service_command tcp_service_command limits).
    + intros t p. by rewrite Ed, lookup_empty.
    + intros t p. by rewrite Et, lookup_empty.
Qed.

(** ** Theorems *)

(** C3 (safety). The network of the sandbox as a whole. Whatever the guest sends,
    however the service tasks, QEMU, the resolver and the connections behave and
    are scheduled: after any number of rounds of the owner loop, every name that
    was looked up is one the policy allows, every upstream connection that was
    dialled, by the service task or by the proxy, is to a destination the policy
    allows, every open and every pending connection of the proxy was allowed, and
    the bytes of every host connection agree with its TCP session up to its
    buffers, which are within their limits. *)
Theorem runtime_reachable pol network limits now wg w0 proxy k k0 io log cap n rt0 rt :
  0 <= Policy.prefix_len network <= u8_max -> 0 <= Policy.mtu pol <= u16_max ->
  0 <= command_limit limits -> 0 <= completion_limit limits -> new_proxy pol k proxy ->
  owner_start pol network limits now wg w0 (Ok proxy) k0 io log cap n = Ret (Ok rt0) ->
  rtc runtime_step rt0 rt ->
  rtc (allowed_lookup pol) w0 (dns_world (rt_tasks rt)) /\
  rtc (TcpProxy.allowed_dial pol) k0 (tcp_world (rt_tasks rt)) /\
  rtc (TcpProxy.allowed_dial pol) k (TcpProxy.connector (rt_proxy rt)) /\
  (forall h s, TcpProxy.sessions (rt_proxy rt) !! h = Some s -> TcpProxy.shaped s /\
     TcpProxy.decision s = Tcp.evaluate_tcp_destination pol (TcpProxy.destination s) /\
     Tcp.action (TcpProxy.decision s) <> Tcp.TcpDeny) /\
  (forall t p, pending (rt_tcp rt) !! t = Some p ->
     TcpProxy.pending_decision p =
       Tcp.evaluate_tcp_destination pol (TcpProxy.pending_destination p) /\
     Tcp.action (TcpProxy.pending_decision p) <> Tcp.TcpDeny) /\
  (forall h s, Ingress.sessions (rt_ingress rt) !! h = Some s ->
     h ∈ Ingress.conn_handles (rt_gateway rt) ->
     Ingress.session_ok received sent (Ingress.buffer_limits (rt_ingress rt)) (rt_gateway rt) h s).
Proof.
  intros Hp Hm Hc1 Hc2 Hnew Hstart Hsteps.
  assert (rt_ok pol w0 k k0 rt) as [[(_ & Hb & _) Hpol [_ Hpx] Hdx _] [_ _ _ Hcn Hr Hd] _].
  { eapply runtime_steps_ok; [exact Hsteps|]. by eapply start_ok. }
  split; [done|]. split; [done|]. split; [done|]. split; [rewrite <-Hpol; apply Hpx|]. split; [|exact Hb].
  intros t p Hpe. destruct (Hcn t p Hpe) as (b & h & d & Epl).
  apply TcpProxy.plan_pending in Epl as (_ & Hdest & Hdec & Hact & _). by rewrite Hdest.
Qed.

(** C30 (error). When the owner loop panics. At any point of its history, with
    tokens left, a round panics exactly when its event is the failure of a
    pending connection whose socket has been removed since, as happens when the
    guest resets the connection while it is being dialled. *)
Theorem owner_round_panics_iff pol network limits now wg w0 proxy k k0 io log cap n rt0 rt
  t1 t2 afd event rt1 :
  0 <= Policy.prefix_len network <= u8_max -> 0 <= Policy.mtu pol <= u16_max ->
  0 <= command_limit limits -> 0 <= completion_limit limits -> new_proxy pol k proxy ->
  owner_start pol network limits now wg w0 (Ok proxy) k0 io log cap n = Ret (Ok rt0) ->
  rtc runtime_step rt0 rt -> tokens_left rt ->
  next_async_owner_event listeners listener_fd connection_fd afd
    (tcp_poll_delay (rt_gateway rt) t1).1 (wait rt t1) (Ok event) rt1 ->
  round rt1 event t2 = Panic <->
  exists completion p e, event = Service (TcpCompletion (TcpConnectDone completion)) /\
    pending (rt_tcp rt) !! connected_token completion = Some p /\ connected completion = Err e /\
    sockets (tcp_core (rt_gateway rt)) !! TcpProxy.pending_handle p = None.
Proof.
  intros Hp Hm Hc1 Hc2 Hnew Hstart Hsteps [Hld Hlr] Hnext.
  assert (rt_ok pol w0 k k0 rt) as Hok.
  { eapply runtime_steps_ok; [exact Hsteps|]. by eapply start_ok. }
  pose proof (nt_wf _ _ _ _ _ (ro_net _ _ _ _ _ Hok)) as Hw.
  pose proof (next_event_ok _ _ _ _ _ _ _ _ _ (wait_ok _ _ _ _ _ t1 Hok) Hnext) as Hev.
  destruct (next_event_same _ _ _ _ _ Hnext) as (Eg & Ed & Et). cbn in Eg, Ed, Et.
  destruct (wait_untouched (rt_gateway rt) t1 Hw) as (Hw1 & _ & Hh & _).
  assert (stale rt1 event <-> exists completion p e,
    event = Service (TcpCompletion (TcpConnectDone completion)) /\
    pending (rt_tcp rt) !! connected_token completion = Some p /\ connected completion = Err e /\
    sockets (tcp_core (rt_gateway rt)) !! TcpProxy.pending_handle p = None) as <-.
  { unfold stale, remove_pending_for_completion. rewrite Eg, Et, Hh. cbn.
    split; intros (c & p & e & ? & ? & ? & Hno); exists c, p, e; (split_and!; [done..|]).
    - apply eq_None_not_Some. intros [s Es]. apply Hno. apply (get_inv _ _ s); [apply Hw|].
      unfold get. by rewrite Es.
    - intros Hin. destruct (get_ret _ _ (gw_core _ Hw) Hin) as (s & Es & _). unfold get in Es.
      by rewrite Hno in Es. }
  split; [|intros Hst; apply stale_panics; [by rewrite Eg|done]].
  intros E. pose proof (owner_round_ok pol w0 k k0 rt1 event t2 Hev) as Hro. rewrite E in Hro. cbn in Hro.
  destruct (stale_or_not rt1 event) as [|Hno]; [done|]. exfalso. apply Hro; [by rewrite Ed| |done].
  unfold room. by rewrite Eg, Hh, Et.
Qed.

(** HTTPS interception is never missing: the proxy that is built
    from a policy has a TLS configuration whenever that policy asks for an
    interception, so at no point of the history is a connection turned away for
    want of one. *)
Theorem https_interception_available pol network limits now wg w0 proxy k k0 io log cap n rt0 rt h d :
  0 <= Policy.prefix_len network <= u8_max -> 0 <= Policy.mtu pol <= u16_max ->
  0 <= command_limit limits -> 0 <= completion_limit limits -> new_proxy pol k proxy ->
  owner_start pol network limits now wg w0 (Ok proxy) k0 io log cap n = Ret (Ok rt0) ->
  rtc runtime_step rt0 rt ->
  TcpProxy.plan_connect (rt_proxy rt) h d (policy (rt_gateway rt)) <>
    TcpProxy.PlanEvent (TcpProxy.TlsMitmUnavailable h d).
Proof.
  intros Hp Hm Hc1 Hc2 Hnew Hstart Hsteps.
  assert (rt_ok pol w0 k k0 rt) as [[_ Hpol _ _ Htls] _ _].
  { eapply runtime_steps_ok; [exact Hsteps|]. by eapply start_ok. }
  rewrite Hpol. unfold TcpProxy.plan_connect. case_test; [done|]. case_test; [|done].
  destruct Htls as [sc ->]; [|by destruct (TlsMitm.GuestTlsSession_new sc)].
  revert Etest0. unfold Tcp.evaluate_tcp_destination.
  repeat (case_test; cbn; [try done|]); done.
Qed.

(** ** A service that has ended *)

Section Ended.
Context (dead : VmnetAsyncServiceWorkerHandle unit) (lost : gmap Z VmnetPendingDnsQuery).
Context (dead_task : task dead = Finished).
Context (dead_empty : queued (completion_ch dead) = []).
Context (dead_sender : sender_dropped (completion_ch dead) = true).
Context (dead_receiver : receiver_dropped (command_ch dead) = true).

Definition ended rt : Prop := dns_worker (rt_tasks rt) = dead /\ pending (rt_dns rt) = lost.

Lemma run_turns_ended turns ts :
  dns_worker ts = dead -> dns_worker (foldl (run_turn exchange) ts turns) = dead.
Proof.
  revert ts. induction turns as [|t turns IH]; intros ts Hd; [done|]. cbn. apply IH.
  destruct t as [je|je]; cbn.
  - unfold task_step. by rewrite Hd, dead_task.
  - by destruct (task_step _ _ _ _).
Qed.

Lemma let_tasks_run_ended ts : dns_worker ts = dead -> dns_worker (let_tasks_run exchange ts) = dead.
Proof.
  unfold let_tasks_run. destruct (schedule ts) as [|turns rest]; [done|]. intros. by apply run_turns_ended.
Qed.

Lemma frame_ended g (dns : VmnetServiceOwner unit VmnetPendingDnsQuery) ts frame now h g' dns' ts' :
  dns_worker ts = dead -> pending dns = lost ->
  handle_guest_frame_with_async_dns_worker exchange g dns ts frame now = Ret (h, g', dns', ts') ->
  dns_worker ts' = dead /\ pending dns' = lost.
Proof.
  intros Hd Hp. unfold handle_guest_frame_with_async_dns_worker.
  destruct (handle_guest_frame_with_deferred_dns g frame now) as [[[result|p] g1]|]; cbn [exec_bind]; [|..|done].
  { by intros [= <- <- <- <-]. }
  rewrite (let_tasks_run_ended ts Hd). unfold submit_to_async_worker, submit_to.
  destruct (next_token (tokens dns)) as [[t tok]|]; cbn [exec_bind]; [|done].
  unfold try_send_command. rewrite (try_send_closed _ _ dead_receiver). rewrite worker_eta. cbn [exec_bind].
  destruct (complete_pending_dns_query _ _) as [r|]; cbn [exec_bind]; [|done]. by intros [= <- <- <- <-].
Qed.

Lemma submit_plans_ended now plans g (proxy : TcpProxyBridge) tcp ts events ev g' px' tcp' ts' :
  dns_worker ts = dead ->
  submit_plans exchange g proxy tcp ts now plans events = Ret (ev, g', px', tcp', ts') ->
  dns_worker ts' = dead.
Proof.
  revert g proxy tcp ts events. induction plans as [|[p|event] plans IH]; intros g proxy tcp ts events Hd;
    cbn [submit_plans]; [by intros [= _ _ _ _ <-]| |by apply IH].
  destruct (submit_to_async_worker _ _ _ _) as [[[[t|e] tcp1] w]|]; cbn [exec_bind]; [|..|done].
  - by apply IH, let_tasks_run_ended.
  - destruct (TcpProxy.complete_connect _ _ _ _ _ _) as [[[[c px] g1] ev1]|]; cbn [exec_bind]; [|done].
    by apply IH, let_tasks_run_ended.
Qed.

Lemma accept_listeners_same indices rt events rt' ev :
  accept_listeners accept set_nonblocking listeners rt indices events = Ret (Ok (rt', ev)) ->
  rt_dns rt' = rt_dns rt /\ rt_tasks rt' = rt_tasks rt.
Proof.
  revert rt events. induction indices as [|i indices IH]; intros rt events; cbn [accept_listeners].
  { by intros [= <- _]. }
  destruct (Ingress.accept_ready_limited _ _ _ _ _ _) as [[batch n]|]; [|done]. cbn [exec_bind].
  destruct (queue_accepted _ _ _) as [[q ev0]|]; [|done]. by intros ?%IH.
Qed.

Lemma apply_event_ended rt event now rt' gev pev r :
  ended rt -> (forall c, event <> Service (DnsCompletion c)) ->
  apply_event exchange write_ethernet_frame rt event now = Ret (Ok (rt', gev, pev, r)) -> ended rt'.
Proof.
  intros [Hd Hp] Hne. destruct event as [frame| |[c| |c|]| |src rd wt]; cbn [apply_event].
  - destruct (capture_frame _ _ _) as [cap|]; [|done].
    destruct (handle_guest_frame_with_async_dns_worker _ _ _ _ _ _) as [[[[h g1] dns1] ts1]|] eqn:E; [|done].
    apply frame_ended in E as [Hd1 Hp1]; [|done..]. cbn [exec_bind].
    destruct h as [result|t|result]; [| by intros [= <- _ _ _]|];
      (destruct (write_guest_frames_async _ _ _) as [o|]; [|done]; by intros [= <- _ _ _]).
  - by intros [= <- _ _ _].
  - by destruct (Hne c).
  - by intros [= <- _ _ _].
  - unfold apply_async_service_completion_event.
    destruct (apply_tcp_connect_service_completion (rt_gateway rt) _ _ _ _) as [[[[ev g1] px1] tcp1]|]; [|done].
    cbn [exec_bind]. destruct (write_event_frames _ _ _ _) as [o|]; [|done]. by intros [= <- _ _ _].
  - by intros [= <- _ _ _].
  - destruct (poll_tcp _ _) as [[fs g1]|]; [|done]. cbn [exec_bind].
    destruct (write_guest_frames_async _ _ _) as [o|]; [|done]. by intros [= <- _ _ _].
  - by intros [= <- _ _ _].
Qed.

Lemma round_ended rt event now rt' :
  ended rt -> (forall c, event <> Service (DnsCompletion c)) ->
  round rt event now = Ret (Ok (Continue rt')) -> ended rt'.
Proof.
  intros Hd Hne. unfold owner_round. case_test; [done|].
  destruct (apply_event _ _ _ _ _) as [[[[[rt1 gev] pev] r]|]|] eqn:E; cbn [try_bind]; [|done|done].
  apply apply_event_ended in E as [Hd1 Hp1]; [|done..]. unfold connect_round, submit_tcp_connects_to_async_worker.
  destruct (TcpProxy.plan_connects_for_service _ _) as [plans|]; cbn [exec_bind]; [|done].
  destruct (submit_plans _ _ _ _ _ _ _ _) as [[[[[ce g1] px1] tcp1] ts1]|] eqn:Es; cbn [exec_bind]; [|done].
  apply submit_plans_ended in Es; [|done].
  destruct (accept_listeners _ _ _ _ _ _) as [[[rt2 hev]|]|] eqn:Ea; cbn [try_bind]; [|done|done].
  apply accept_listeners_same in Ea as [Ea1 Ea2]. cbn in Ea1, Ea2.
  unfold open_round. cbn [Ingress.drain_ready].
  destruct (open_accepted _ _ _ _ _ _ _ _) as [[[[[ev2 o2] g2] in2]|]|]; cbn [try_bind]; [|done|done].
  unfold proxy_round. destruct (pump_proxy_ready_async _ _ _ _ _ _) as [[[[[ev3 o3] g3] px3]|]|]; cbn [try_bind]; [|done|done].
  destruct (write_event_frames _ _ _ _) as [o4|]; cbn [result_bind try_bind]; [|done].
  unfold ingress_round. destruct (pump_host_ingress_ready_async _ _ _ _ _ _) as [[[[[ev5 o5] g5] in5]|]|]; cbn [try_bind]; [|done|done].
  destruct (record_round _ _ _ _ _ _) as [rt7|] eqn:Er; [|done].
  destruct (reap_closed_tcp_sessions _) as [[rp g6]|]; cbn [exec_bind]; [|done]. intros [= <-].
  revert Er. unfold record_round. destruct (write_events _ _ _ _) as [l1|]; cbn [result_bind]; [|done].
  destruct (write_events _ _ _ _) as [l2|]; cbn [result_bind]; [|done].
  destruct (write_events _ _ _ _) as [l3|]; cbn [result_bind]; [|done]. intros [= <-].
  split; cbn; [by rewrite Ea2|by rewrite Ea1].
Qed.

Lemma recv_dead : recv_completion dead = Some (None, dead).
Proof.
  unfold recv_completion, recv. by rewrite (try_recv_empty _ dead_empty), dead_sender, worker_eta.
Qed.

Lemma next_ended (afd : Z -> io_result unit) delay rt event rt1 :
  ended rt -> next_async_owner_event listeners listener_fd connection_fd afd delay rt (Ok event) rt1 ->
  ended rt1 /\ forall c, event <> Service (DnsCompletion c).
Proof.
  intros [Hd Hp] Hnext.
  remember (@Ok VmnetAsyncOwnerEvent VmnetRuntimeError event) as r eqn:Er.
  destruct Hnext as [f io E|io E| |c w io E Ec|c w io E Ec|d io E Ed|rr wr r cur io E Hne Hw];
    try (injection Er as <-); try done.
  - rewrite Hd, recv_dead in Ec. by injection Ec as <- <-.
  - split; [done|]. by destruct c.
  - destruct r as [[[[src rd] wt]|]|]; [injection Er as <-|injection Er as <-|done]; done.
Qed.

Lemma step_ended rt rt' : runtime_step rt rt' -> ended rt -> ended rt'.
Proof.
  intros Hstep [Hd Hp]. destruct Hstep as [rt turns s|rt t1 t2 afd event rt1 rt' _ Hnext E].
  - split; [|done]. by apply run_turns_ended.
  - apply next_ended in Hnext as [Hd1 Hne]; [|done]. by eapply round_ended.
Qed.

Lemma steps_ended rt rt' : rtc runtime_step rt rt' -> ended rt -> ended rt'.
Proof. induction 1; eauto using step_ended. Qed.
End Ended.

(** A lookup service that has ended is never noticed. Once its task
    has left its loop and its last completion is taken, the lookups it left
    behind stay pending for ever, the guest's later queries are all answered
    without it, and in every later state the owner is woken at once, by an event
    that leaves the state of the wait as it was. *)
Theorem ended_service_spins pol network limits now wg w0 proxy k k0 io log cap n rt0 rt rt' :
  0 <= Policy.prefix_len network <= u8_max -> 0 <= Policy.mtu pol <= u16_max ->
  0 <= command_limit limits -> 0 <= completion_limit limits -> new_proxy pol k proxy ->
  owner_start pol network limits now wg w0 (Ok proxy) k0 io log cap n = Ret (Ok rt0) ->
  rtc runtime_step rt0 rt ->
  task (dns_worker (rt_tasks rt)) = Finished ->
  queued (completion_ch (dns_worker (rt_tasks rt))) = [] ->
  rtc runtime_step rt rt' ->
  pending (rt_dns rt') = pending (rt_dns rt) /\
  (forall g frame now h g' dns' ts',
     handle_guest_frame_with_async_dns_worker exchange g (rt_dns rt') (rt_tasks rt') frame now =
       Ret (h, g', dns', ts') -> forall t, h <> FrameQueued t) /\
  forall afd delay,
    next_async_owner_event listeners listener_fd connection_fd afd delay rt'
      (Ok (Service DnsDisconnected)) rt'.
Proof.
  intros Hp Hm Hc1 Hc2 Hnew Hstart Hsteps Hf He Hafter.
  assert (rt_ok pol w0 k k0 rt) as [_ [Hd _ _ _ _ _] _].
  { eapply runtime_steps_ok; [exact Hsteps|]. by eapply start_ok. }
  pose proof (so_task _ _ _ _ Hd) as Ht. rewrite decide_True in Ht by done. destruct Ht as (Hs & Hr & _).
  set (dead := dns_worker (rt_tasks rt)) in *. set (lost := pending (rt_dns rt)).
  destruct (steps_ended dead lost Hf He Hs Hr rt rt' Hafter) as [Hd' Hp']; [done|].
  split; [done|]. split.
  - intros g frame nw h g' dns' ts' E t ->. revert E. unfold handle_guest_frame_with_async_dns_worker.
    destruct (handle_guest_frame_with_deferred_dns g frame nw) as [[[result|p] g1]|]; cbn [exec_bind]; [done|..|done].
    rewrite (let_tasks_run_ended dead Hf _ Hd'). unfold submit_to_async_worker, submit_to.
    destruct (next_token _) as [[tk tok]|]; cbn [exec_bind]; [|done].
    unfold try_send_command. rewrite (try_send_closed _ _ Hr). cbn [exec_bind].
    by destruct (complete_pending_dns_query _ _).
  - intros afd delay.
    pose proof (next_dns listeners listener_fd connection_fd afd delay rt' None dead (frame_io (rt_out rt'))
      (partial_none _)) as Hn. rewrite Hd', (recv_dead dead He Hs) in Hn. specialize (Hn eq_refl).
    destruct rt' as [g5 px5 in5 q5 dns5 tcp5 [dw dx tw tx sc] [fio pc wr] st lg cu nn]. cbn in Hd'. by subst dw.
Qed.

End Facts.

(** ** Fairness among the descriptors *)

Section Fairness.
Implicit Types registration : VmnetAsyncFdRegistration.

(** What a call finds: whether the descriptors can be registered, and whether they
    are ready for reading and for writing. *)
Record fd_state := mkFdState {
  fd_new : Z -> io_result unit; fd_reads : Z -> Readiness; fd_writes : Z -> Readiness }.
Implicit Types o : fd_state.

Definition fd_ready o registration : Prop :=
  fd_readable (reg_interest registration) = true /\ fd_reads o (reg_fd registration) = Ready \/
  fd_writable (reg_interest registration) = true /\ fd_writes o (reg_fd registration) = Ready.

(** What successive calls with the same registrations return; an error ends the
    runtime. *)
Fixpoint fd_outcomes (states : list fd_state) (registrations : list VmnetAsyncFdRegistration) (cursor : nat)
  : list (result (option (VmnetEventSource * bool * bool)) VmnetRuntimeError) :=
  match states with
  | [] => []
  | o :: rest =>
      match wait_async_fd_registrations (fd_new o) (fd_reads o) (fd_writes o) registrations cursor with
      | Some (Ok event, cursor) => Ok event :: fd_outcomes rest registrations cursor
      | Some (Err error, _) => [Err error]
      | None => []
      end
  end.

(** The first descriptor that is ready is reported, unless one has an error. *)
Lemma poll_fds_first o fds k i registration :
  fds !! k = Some (i, registration) -> fd_ready o registration ->
  (exists e, poll_fds (fd_reads o) (fd_writes o) fds = Some (Err e)) \/
  exists j index r' readable writable, (j <= k)%nat /\ fds !! j = Some (index, r') /\
    poll_fds (fd_reads o) (fd_writes o) fds = Some (Ok (index, reg_source r', readable, writable)).
Proof.
  revert k. induction fds as [|[index r'] fds IH]; intros k Hk Hr; [done|]. cbn [poll_fds].
  assert (k <> O -> (exists e, poll_fds (fd_reads o) (fd_writes o) fds = Some (Err e)) \/
    exists j index0 r0 readable writable, (j <= k)%nat /\ ((index, r') :: fds) !! j = Some (index0, r0) /\
      poll_fds (fd_reads o) (fd_writes o) fds = Some (Ok (index0, reg_source r0, readable, writable))) as Hrest.
  { destruct k as [|k]; [done|]. intros _. destruct (IH k Hk Hr) as [He|(j & x & y & rd & wt & ? & ? & ?)]; [by left|].
    right. exists (S j), x, y, rd, wt. split_and!; [lia|done|done]. }
  assert (forall b b' : bool, exists j index0 r0 readable writable, (j <= k)%nat /\
    ((index, r') :: fds) !! j = Some (index0, r0) /\
    Some (Ok (E := io_error) (index, reg_source r', b, b')) = Some (Ok (index0, reg_source r0, readable, writable))) as Hhere
    by (intros b b'; exists O, index, r', b, b'; split_and!; [lia|done|done]).
  destruct (fd_readable _) eqn:Er; [destruct (fd_reads o (reg_fd r')) eqn:E1; [|by right|by left; eexists]|];
  (destruct (fd_writable _) eqn:Ew; [destruct (fd_writes o (reg_fd r')) eqn:E2; [|by right|by left; eexists]|]).
  all: apply Hrest; intros ->; injection Hk as -> ->; destruct Hr as [[? ?]|[? ?]]; congruence.
Qed.

Lemma omap_lookup_all {A B} (f : A -> option B) (l : list A) k :
  (forall x, x ∈ l -> is_Some (f x)) -> omap f l !! k = l !! k ≫= f.
Proof.
  revert k. induction l as [|x l IH]; intros k Hall; [by destruct k|].
  destruct (Hall x) as [y Ey]; [by left|]. cbn [omap list_omap]. rewrite Ey.
  destruct k as [|k]; [done|]. apply IH. intros z Hz. apply Hall. by right.
Qed.

Lemma rotate_lookup start registrations k :
  (k < List.length registrations)%nat ->
  rotate start registrations !! k =
    (r ← registrations !! ((start + k) mod List.length registrations)%nat;
     Some (((start + k) mod List.length registrations)%nat, r)).
Proof.
  intros Hk. unfold rotate. rewrite omap_lookup_all.
  - by rewrite lookup_seq_lt.
  - intros o _. destruct (lookup_lt_is_Some_2 registrations ((start + o) mod List.length registrations)) as [r ->];
      [apply Nat.mod_upper_bound; lia|by eexists].
Qed.

(** A call picks the descriptor [k] places after the cursor, or one before it, or
    it fails. *)
Lemma wait_picks o registrations registration cursor k :
  (k < List.length registrations)%nat ->
  registrations !! ((cursor + k) mod List.length registrations)%nat = Some registration ->
  fd_ready o registration ->
  let call := wait_async_fd_registrations (fd_new o) (fd_reads o) (fd_writes o) registrations cursor in
  (exists e cursor', call = Some (Err e, cursor')) \/
  exists j r' readable writable, (j <= k)%nat /\
    registrations !! ((cursor + j) mod List.length registrations)%nat = Some r' /\
    call = Some (Ok (Some (reg_source r', readable, writable)),
                 ((cursor + j + 1) mod List.length registrations)%nat).
Proof.
  intros Hk Hl Hr call. set (n := List.length registrations) in *.
  assert (forall j, ((cursor mod n + j) mod n = (cursor + j) mod n)%nat) as Hmod
    by (intros; by rewrite Nat.Div0.add_mod_idemp_l).
  unfold call, wait_async_fd_registrations. destruct registrations as [|r1 rs]; [done|]. fold n.
  destruct (foldr _ _ _) as [[]|e]; [|left; by eexists _, _].
  destruct (poll_fds_first o (rotate (cursor mod n) (r1 :: rs)) k ((cursor + k) mod n) registration)
    as [[e ->]|(j & index & r' & rd & wt & Hj & Hlj & ->)]; [|done|left; by eexists _, _|].
  { rewrite rotate_lookup by done. fold n. by rewrite Hmod, Hl. }
  right. rewrite rotate_lookup in Hlj by (fold n; lia). fold n in Hlj. rewrite Hmod in Hlj.
  destruct ((r1 :: rs) !! ((cursor + j) mod n)%nat) as [r0|] eqn:Er0; [|done].
  apply (inj Some), pair_eq in Hlj as [<- <-]. exists j, r0, rd, wt. split_and!; [done..|]. by rewrite Nat.Div0.add_mod_idemp_l.
Qed.

Lemma fd_outcomes_reach registrations i registration k : forall states cursor,
  registrations !! i = Some registration ->
  (k < List.length registrations)%nat -> ((cursor + k) mod List.length registrations = i)%nat ->
  Forall (fun o => fd_ready o registration) states -> (k < List.length states)%nat ->
  (exists e, Err e ∈ fd_outcomes states registrations cursor) \/
  exists readable writable,
    Ok (Some (reg_source registration, readable, writable)) ∈ fd_outcomes states registrations cursor.
Proof.
  induction (lt_wf k) as [k _ IH]. intros states cursor Hl Hk Hi Hall Hlen.
  destruct states as [|o states]; [cbn in Hlen; lia|].
  apply Forall_cons in Hall as [Hr Hall]. cbn in Hlen. cbn [fd_outcomes].
  destruct (wait_picks o registrations registration cursor k) as [(e & c' & Hw)|(j & r' & rd & wt & Hj & Hlj & Hw)];
    [done|by rewrite Hi|done|rewrite Hw; left; exists e; by left|].
  rewrite Hw. destruct (decide (j = k)) as [->|Hne].
  - right. exists rd, wt. rewrite Hi, Hl in Hlj. injection Hlj as <-. by left.
  - destruct (IH (k - j - 1)%nat ltac:(lia) states ((cursor + j + 1) mod List.length registrations)%nat)
      as [(e & Hin)|(rd' & wt' & Hin)]; [done|lia| |done|lia|left; exists e; by right|right; exists rd', wt'; by right].
    rewrite Nat.Div0.add_mod_idemp_l, <-Hi. f_equal. lia.
Qed.

(** C32 (liveness). Of successive calls with the same registrations, during which a
    registered descriptor keeps being ready, one of the first as many as there are
    registrations reports it, wherever the cursor stands and whatever the other
    descriptors do, unless one of these calls returns an error, which ends the
    runtime. *)
Theorem fd_fairness registrations i registration states cursor :
  registrations !! i = Some registration ->
  Forall (fun o => fd_ready o registration) states ->
  List.length states = List.length registrations ->
  (exists e, Err e ∈ fd_outcomes states registrations cursor) \/
  exists readable writable,
    Ok (Some (reg_source registration, readable, writable)) ∈ fd_outcomes states registrations cursor.
Proof.
  intros Hl Hall Hlen. set (n := List.length registrations) in *.
  pose proof (lookup_lt_Some _ _ _ Hl) as Hin. fold n in Hin.
  assert (cursor mod n < n)%nat as Hc by (apply Nat.mod_upper_bound; lia).
  set (k := ((i + n - cursor mod n) mod n)%nat).
  assert (k < n)%nat as Hk by (apply Nat.mod_upper_bound; lia).
  apply (fd_outcomes_reach registrations i registration k); [done|done| |done|lia].
  unfold k. fold n. rewrite Nat.Div0.add_mod_idemp_r, <-Nat.Div0.add_mod_idemp_l.
  replace (cursor mod n + (i + n - cursor mod n))%nat with (i + 1 * n)%nat by lia.
  by rewrite Nat.Div0.mod_add, Nat.mod_small.
Qed.
End Fairness.

(** A listener that is always ready, and a connection that is being written, with the
    cursor on the listener. *)
Definition busy_state : fd_state := mkFdState (fun _ => Ok tt) (fun _ => Ready) (fun _ => Ready).

Definition busy_registrations : list VmnetAsyncFdRegistration :=
  [mkRegistration (HostListener 0) 3 (mkFdInterest true false);
   mkRegistration (UpstreamSession 7) 4 (mkFdInterest true true)].

Lemma fd_fairness_witness : exists readable writable,
  Ok (Some (UpstreamSession 7, readable, writable)) ∈ fd_outcomes [busy_state; busy_state] busy_registrations 2.
Proof.
  destruct (fd_fairness busy_registrations 1 (mkRegistration (UpstreamSession 7) 4 (mkFdInterest true true))
    [busy_state; busy_state] 2) as [(e & He)|Hr]; [reflexivity|by repeat constructor|reflexivity| |exact Hr].
  exfalso. vm_compute in He. by repeat (apply elem_of_cons in He as [He|He]; [done|]); apply elem_of_nil in He.
Defined.

(** ** Witnesses *)

(** The stack of the examples with connections: a segment with a SYN connects
    the sockets that listen, and one with a RST closes the connections. *)
Module Lively.

Definition segment (frame : list byte) (s : Toy.socket) : Toy.socket :=
  let flags := u8 (Toy.byte_at frame 47) in
  let '(st, local, remote) :=
    if Z.testbit flags 2 && bool_decide (Toy.st s = State.Established)
    then (State.Closed, None, None)
    else if Z.testbit flags 1 && bool_decide (Toy.st s = State.Listen)
    then (State.Established,
          Some (mkEndpoint (Toy.ip_at frame 30) (Toy.be16_at frame 36)),
          Some (mkEndpoint (Toy.ip_at frame 26) (Toy.be16_at frame 34)))
    else (Toy.st s, Toy.local s, Toy.remote s) in
  Toy.mkSocket st local remote (Toy.queue s) (Toy.enq s) (Toy.deliv s).

Definition poll_sockets {D} `{Device D} (d : D) (ss : gmap nat Toy.socket) : gmap nat Toy.socket :=
  match device_receive d with Some (frame, _) => segment frame <$> ss | None => ss end.

#[local] Instance stack : SmolStack := {|
  Interface := Toy.iface;
  Socket := Toy.socket;
  PollResult := unit;
  ListenError := unit;
  ConnectError := unit;
  RecvError := unit;
  SendError := unit;
  show_listen_error := @show_listen_error Toy.stack;
  Ipv4Cidr_new := @Ipv4Cidr_new Toy.stack;
  iface_new := @iface_new Toy.stack;
  iface_push_ip_addr := @iface_push_ip_addr Toy.stack;
  iface_set_any_ip := @iface_set_any_ip Toy.stack;
  iface_any_ip := @iface_any_ip Toy.stack;
  iface_ip_addrs := @iface_ip_addrs Toy.stack;
  iface_poll D _ now d i ss := (tt, Toy.poll_dev d, i, poll_sockets d ss);
  iface_poll_delay now i ss := (None, i);
  fresh_handle := @fresh_handle Toy.stack;
  socket_new := @socket_new Toy.stack;
  socket_listen := @socket_listen Toy.stack;
  socket_connect := @socket_connect Toy.stack;
  socket_state := Toy.st;
  socket_local_endpoint := @socket_local_endpoint Toy.stack;
  socket_remote_endpoint := @socket_remote_endpoint Toy.stack;
  socket_can_recv := Toy.can_recv;
  socket_recv R := Toy.recv;
  socket_send_slice := @socket_send_slice Toy.stack;
  socket_close := @socket_close Toy.stack;
  recv_queue := Toy.queue;
  enqueued := Toy.enq;
  delivered := Toy.deliv
|}.

#[local] Instance stack_laws : SmolStackLaws.
Proof.
  destruct Toy.stack_laws. split; try assumption.
  - intros D HD now d i ss h s Hs. cbn. unfold poll_sockets.
    destruct (device_receive d) as [[f d']|]; [|by exists s].
    exists (segment f s). split; [apply lookup_fmap_Some; by exists s|]. unfold segment. by repeat case_match.
  - intros D HD now d i ss h Hs. cbn. unfold poll_sockets.
    destruct (device_receive d) as [[f d']|]; [|done]. by rewrite lookup_fmap, fmap_None.
Qed.

End Lively.

Section Witnesses.
#[local] Existing Instance Vmnet.toy_hickory.
#[local] Existing Instance Lively.stack.
#[local] Existing Instance Lively.stack_laws.

#[local] Instance any_request : Http.HttpParser := {|
  Http.request_parse n bs := Ok (Some (Http.mkParsed (Some "GET"%string) (Some "/"%string) [])) |}.

(** A network in which no connection succeeds; it remembers the attempts. *)
#[local] Instance unwilling : TcpProxy.TcpUpstreamConnector (list Tcp.TcpDestination) duplex :=
  fun k d => (Err Tcp.UpstreamUnavailable, k ++ [d]).

(** No host connections, no event log and no capture. *)
Definition no_accept (n : unit) (l : unit) : io_result duplex * unit := (Err (OsError EAGAIN), n).
Definition accepts_nothing (n l : unit) (c : duplex) (n' : unit)
  (E : no_accept n l = (Ok c, n')) : duplex_received c = [] /\ duplex_sent c = [] :=
  match E with eq_refl => I end.
Definition no_io {A B} (a : A) (_ : B) : io_result unit * A := (Ok tt, a).
Definition no_flush (a : unit) : io_result unit * unit := (Ok tt, a).
Definition no_listeners : Ingress.HostIngressListenerSet (Listener := unit) :=
  Ingress.mkListenerSet [].

Definition demo_policy : Policy.VmnetPolicy :=
  Policy.mkPolicy Policy.GuestNetwork_default 1500
    (Policy.mkEgress Policy.AllowPublicInternet Policy.DenyByDefault ["example.com"%string] [] [])
    Policy.ProtocolPolicy_default [] Policy.CapturePolicy_default
    (Policy.mkTlsMitmPolicy (Some "ca.pem"%string) (Some "ca.key"%string) true).

(** The guest looks up a name, connects to 1.1.1.1:80, and resets that
    connection. *)
Definition demo_query : list byte :=
  example_headers 17 [10; 0; 2; 3] ++
  L2.bytes [0x9c; 0x40; 0; 53; 0; 31; 0; 0; 0; 9; 1; 0; 0; 1; 0; 0; 0; 0; 0; 0] ++
  L2.bytes [101; 120; 97; 109; 112; 108; 101; 46; 99; 111; 109].
Definition demo_reset : list byte :=
  example_headers 6 [1; 1; 1; 1] ++
  L2.bytes [0x9c; 0x40; 0; 80; 0; 0; 0; 8; 0; 0; 0; 0; 0x50; 4; 0; 0; 0; 0; 0; 0].

Definition demo_io : QemuFrameIo duplex :=
  QemuFrameIo_new
    (mkDuplex (mkScripted [Deliver (encode demo_query); Deliver (encode example_syn);
                           Deliver (encode demo_reset)] []) (mkSink 10000 [])) 2000.

Definition demo_proxy : TcpProxy.TcpProxyBridge (K := list Tcp.TcpDestination) (C := duplex) :=
  TcpProxy.mkProxy [] ∅ ∅ (Some tt) (Some tt) TcpProxy.limits_default.

Lemma demo_prefix : 0 <= Policy.prefix_len Policy.GuestNetwork_default <= u8_max.
Proof. by vm_compute. Qed.
Lemma demo_mtu : 0 <= Policy.mtu demo_policy <= u16_max.
Proof. by vm_compute. Qed.
Lemma demo_commands : 0 <= command_limit IoLimits_default.
Proof. done. Qed.
Lemma demo_completions : 0 <= completion_limit IoLimits_default.
Proof. done. Qed.

Lemma demo_proxy_new : new_proxy demo_policy [] demo_proxy.
Proof. by split_and!. Qed.

Notation demo_runtime :=
  (runtime (W := list Dns.Message) (K := list Tcp.TcpDestination) (C := duplex) (T := duplex)
     (P := unit) (L := unit) (N := unit)).

Definition demo_start : exec (result demo_runtime VmnetRuntimeError) :=
  owner_start demo_policy Policy.GuestNetwork_default IoLimits_default 0 [] [] (Ok demo_proxy) []
    demo_io None None tt.

Definition demo_round : demo_runtime -> VmnetAsyncOwnerEvent -> Z -> exec (result loop_exit VmnetRuntimeError) :=
  owner_round no_upstream no_io no_io no_flush no_accept no_io no_listeners (fun _ => "error"%string).

Notation demo_step :=
  (runtime_step no_upstream no_io no_io no_flush no_accept no_io no_listeners
     (fun _ => 3) (fun _ => 4) (fun _ => "error"%string)).

(** The owner reads a frame and goes through a round. *)
Definition demo_frame_round (rt : demo_runtime) : option demo_runtime :=
  if (next (tokens (rt_dns rt)) <? u64_max) &&
     (next (tokens (rt_tcp rt)) +
      Z.of_nat (S (List.length (handles (tcp_core (rt_gateway rt))))) <=? u64_max)
  then
    match read_frame_async (frame_io (rt_out (wait rt 0))) with
    | Ret (Ok (Some frame), io) =>
        match demo_round (with_io (wait rt 0) io) (QemuFrame frame) 0 with
        | Ret (Ok (Continue rt')) => Some rt'
        | _ => None
        end
    | _ => None
    end
  else None.

Definition demo_turns (turns : list turn) (rt : demo_runtime) : demo_runtime :=
  with_services rt (rt_dns rt) (rt_tcp rt)
    (with_schedule (foldl (run_turn no_upstream) (rt_tasks rt) turns) []).

(** Without a turn of the tasks, a frame of the guest. *)
Fixpoint demo_history (steps : list (list turn)) (rt : demo_runtime) : option demo_runtime :=
  match steps with
  | [] => Some rt
  | [] :: rest => rt' ← demo_frame_round rt; demo_history rest rt'
  | turns :: rest => demo_history rest (demo_turns turns rt)
  end.

Lemma demo_frame_round_step rt rt' : demo_frame_round rt = Some rt' -> demo_step rt rt'.
Proof.
  unfold demo_frame_round. destruct (_ && _) eqn:Etest; [|done].
  destruct (read_frame_async _) as [[[[frame|]|] io]|] eqn:Er; try done.
  destruct (demo_round _ _ _) as [[[rt1|]|]|] eqn:E; try done. intros [= <-].
  apply andb_true_iff in Etest as [?%Z.ltb_lt ?%Z.leb_le].
  eapply (rs_round _ _ _ _ _ _ _ _ _ _ rt 0 0 (fun _ => Ok tt)); [done|by apply next_frame|exact E].
Qed.

Lemma demo_history_steps steps rt rt' : demo_history steps rt = Some rt' -> rtc demo_step rt rt'.
Proof.
  revert rt. induction steps as [|[|t turns] steps IH]; intros rt; cbn [demo_history].
  - intros [= <-]. done.
  - destruct (demo_frame_round rt) as [rt1|] eqn:E; [|done]. intros ?%IH.
    by eapply rtc_l; [apply demo_frame_round_step|].
  - intros ?%IH. eapply rtc_l; [apply rs_tasks|done].
Qed.

(** The lookup is lost with its task; the connection fails when it has been
    reset. *)
Definition lost_lookup : list (list turn) := [[]; [DnsTurn false; DnsTurn true]].
Definition reset_while_dialling : list (list turn) := [[]; [TcpTurn false; TcpTurn false]; []].

Definition demo_after (steps : list (list turn)) : option demo_runtime :=
  match demo_start with Ret (Ok rt) => demo_history steps rt | _ => None end.

Lemma demo_after_steps steps rt :
  demo_after steps = Some rt -> exists rt0, demo_start = Ret (Ok rt0) /\ rtc demo_step rt0 rt.
Proof.
  unfold demo_after. destruct demo_start as [[rt0|]|]; [|done..]. intros E.
  exists rt0. split; [done|by apply demo_history_steps in E].
Qed.

Lemma runtime_reachable_witness : exists rt d,
  demo_after (lost_lookup ++ reset_while_dialling) = Some rt /\ tcp_world (rt_tasks rt) = [d] /\
  rtc (TcpProxy.allowed_dial demo_policy) [] [d] /\
  exists q, dns_world (rt_tasks rt) = [q] /\ rtc (allowed_lookup no_upstream demo_policy) [] [q].
Proof.
  assert (match demo_after (lost_lookup ++ reset_while_dialling) with
          | Some rt => (List.length (tcp_world (rt_tasks rt)), List.length (dns_world (rt_tasks rt)))
          | None => (O, O)
          end = (1%nat, 1%nat)) as Hrun by (vm_compute; reflexivity).
  destruct (demo_after _) as [rt|] eqn:E; [|discriminate Hrun].
  destruct (demo_after_steps _ _ E) as (rt0 & Hs & Hh). exists rt.
  destruct (runtime_reachable no_upstream duplex_received duplex_sent no_io no_io no_flush no_accept no_io
    accepts_nothing no_listeners (fun _ => 3) (fun _ => 4) (fun _ => "error"%string)
    demo_policy Policy.GuestNetwork_default IoLimits_default 0 [] [] demo_proxy [] [] demo_io None None tt rt0 rt)
    as (Hl & Hd & _);
    [exact demo_prefix|exact demo_mtu|exact demo_commands|exact demo_completions|exact demo_proxy_new|exact Hs|exact Hh|].
  destruct (tcp_world (rt_tasks rt)) as [|d [|? ?]]; try discriminate Hrun.
  destruct (dns_world (rt_tasks rt)) as [|q [|? ?]]; try discriminate Hrun.
  exists d. split; [reflexivity|]. split; [reflexivity|]. split; [exact Hd|].
  exists q. split; [reflexivity|exact Hl].
Defined.

(** The failed connection is the next completion, its socket is gone, and tokens
    are left. *)
Definition demo_stale (rt : demo_runtime) : bool :=
  match recv_completion (tcp_connect_worker (rt_tasks rt)) with
  | Some (Some (TcpConnectDone c), _) =>
      match connected c, pending (rt_tcp rt) !! connected_token c with
      | Err _, Some p =>
          bool_decide (sockets (tcp_core (rt_gateway rt)) !! TcpProxy.pending_handle p = None)
      | _, _ => false
      end &&
      ((next (tokens (rt_dns rt)) <? u64_max) &&
       (next (tokens (rt_tcp rt)) +
        Z.of_nat (S (List.length (handles (tcp_core (rt_gateway rt))))) <=? u64_max))
  | _ => false
  end.

Lemma owner_round_panics_iff_witness : exists rt event rt1,
  demo_after (lost_lookup ++ reset_while_dialling) = Some rt /\
  next_async_owner_event no_listeners (fun _ => 3) (fun _ => 4) (fun _ => Ok tt)
    (tcp_poll_delay (rt_gateway rt) 0).1 (wait rt 0) (Ok event) rt1 /\
  demo_round rt1 event 0 = Panic.
Proof.
  assert (match demo_after (lost_lookup ++ reset_while_dialling) with
          | Some rt => demo_stale rt
          | None => false
          end = true) as Hrun by (vm_compute; reflexivity).
  destruct (demo_after _) as [rt|] eqn:E; [|discriminate Hrun].
  destruct (demo_after_steps _ _ E) as (rt0 & Hs & Hh). unfold demo_stale in Hrun.
  destruct (recv_completion (tcp_connect_worker (rt_tasks rt))) as [[[[|c|]|] w]|] eqn:Ec; try discriminate Hrun.
  apply andb_true_iff in Hrun as [Hrun Htok]. apply andb_true_iff in Htok as [Hd%Z.ltb_lt Ht%Z.leb_le].
  destruct (connected c) as [|e] eqn:Ee; [discriminate Hrun|].
  destruct (pending (rt_tcp rt) !! connected_token c) as [p|] eqn:Ep; [|discriminate Hrun].
  apply bool_decide_eq_true in Hrun.
  pose proof (next_tcp no_listeners (fun _ => 3) (fun _ => 4) (fun _ => Ok tt)
    (tcp_poll_delay (rt_gateway rt) 0).1 (wait rt 0) (Some (TcpConnectDone c)) w _ (partial_none _) Ec) as Hn.
  exists rt, (Service (TcpCompletion (TcpConnectDone c))). eexists. split; [reflexivity|]. split; [exact Hn|].
  apply (owner_round_panics_iff no_upstream duplex_received duplex_sent no_io no_io no_flush no_accept no_io
    accepts_nothing no_listeners (fun _ => 3) (fun _ => 4) (fun _ => "error"%string)
    demo_policy Policy.GuestNetwork_default IoLimits_default 0 [] [] demo_proxy [] [] demo_io None None tt rt0 rt
    0 0 (fun _ => Ok tt)); [exact demo_prefix|exact demo_mtu|exact demo_commands|exact demo_completions|exact demo_proxy_new|exact Hs|exact Hh|by split|exact Hn|].
  exists c, p, e. by split_and!.
Defined.

End Witnesses.

End Runtime.
