(* ===== verification/PayloadMessages.v ===== *)
(** The messages of the payload protocol (src/payload-protocol/src/lib.rs): the
    requests of the frontend, the control frames, and the events the frontend
    reads from the frames of the guest. Their JSON is written and read by
    serde_json, an interface. *)

From stdpp Require Import base option list numbers strings gmap.
From Stdlib Require Import ZArith Lia.
From S2P Require Import Prelude RustIo PayloadProtocol HttpRequest.

Local Open Scope list_scope.
Local Open Scope Z_scope.

Module Messages.
Import Payload.

Definition str_bytes (s : string) : list byte := String.list_byte_of_string s.

Record PayloadRequest := mkPayloadRequest {
  script : string; cwd : string; env : gmap string string; rows : Z; cols : Z }.

Definition PayloadRequest_new (s : string) : PayloadRequest := mkPayloadRequest s "/" ∅ 24 80.

Record DiagnosticRequest := mkDiagnosticRequest {
  d_script : string; d_cwd : string; d_env : gmap string string;
  timeout_seconds : Z; max_output_bytes : Z }.

Definition DiagnosticRequest_new (s : string) : DiagnosticRequest :=
  mkDiagnosticRequest s "/" ∅ 10 (1024 * 1024).

Record ExitFrame := mkExit { exit_code : Z }.
Record SignalFrame := mkSignal { signal : Z }.
Record ResizeFrame := mkResize { r_rows : Z; r_cols : Z }.

(** What the guest service writes at the end of a diagnostic, a JSON object with
    the fields [exit_code], [diagnostic], [timed_out] and [truncated]. *)
Record DiagnosticExit := mkDiagnosticExit { dx_exit_code : Z; timed_out : bool; truncated : bool }.

Inductive PayloadEvent :=
| Output (payload : list byte)
| Exit (code : Z)
| Failure (message : list (list byte)).

(** ** JSON *)

(** [serde_json::to_vec] and [serde_json::from_slice] at the types of the
    messages. *)
Class PayloadJson := {
  JsonError : Type;
  json_io_error : io_error -> JsonError;
  request_to_vec : PayloadRequest -> result (list byte) JsonError;
  request_from_slice : list byte -> result PayloadRequest JsonError;
  diagnostic_to_vec : DiagnosticRequest -> result (list byte) JsonError;
  diagnostic_from_slice : list byte -> result DiagnosticRequest JsonError;
  exit_to_vec : ExitFrame -> result (list byte) JsonError;
  exit_from_slice : list byte -> result ExitFrame JsonError;
  signal_to_vec : SignalFrame -> result (list byte) JsonError;
  signal_from_slice : list byte -> result SignalFrame JsonError;
  resize_to_vec : ResizeFrame -> result (list byte) JsonError;
  resize_from_slice : list byte -> result ResizeFrame JsonError;
  diagnostic_exit_to_vec : DiagnosticExit -> result (list byte) JsonError
}.

Definition i32 (z : Z) : Prop := - 2 ^ 31 <= z < 2 ^ 31.
Definition u16 (z : Z) : Prop := 0 <= z <= u16_max.
Definition u64 (z : Z) : Prop := 0 <= z <= u64_max.

(** Writing a structure of numbers and strings does not fail, a structure of
    numbers is short, and what was written reads back; fields a structure does
    not have are ignored when it is read. *)
Class PayloadJsonLaws `{PayloadJson} : Prop := {
  request_json r : u16 (rows r) -> u16 (cols r) ->
    exists bs, request_to_vec r = Ok bs /\ request_from_slice bs = Ok r;
  diagnostic_json r : u64 (timeout_seconds r) -> u64 (max_output_bytes r) ->
    exists bs, diagnostic_to_vec r = Ok bs /\ diagnostic_from_slice bs = Ok r;
  exit_json x : i32 (exit_code x) ->
    exists bs, exit_to_vec x = Ok bs /\ len bs <= 128 /\ exit_from_slice bs = Ok x;
  signal_json x : i32 (signal x) ->
    exists bs, signal_to_vec x = Ok bs /\ len bs <= 128 /\ signal_from_slice bs = Ok x;
  resize_json x : u16 (r_rows x) -> u16 (r_cols x) ->
    exists bs, resize_to_vec x = Ok bs /\ len bs <= 128 /\ resize_from_slice bs = Ok x;
  diagnostic_exit_json x : i32 (dx_exit_code x) ->
    exists bs, diagnostic_exit_to_vec x = Ok bs /\ len bs <= 128 /\
      exit_from_slice bs = Ok (mkExit (dx_exit_code x))
}.

Section Events.
Context `{PayloadJson}.

Inductive PayloadEventError :=
| Json (error : JsonError)
| UnexpectedFrameKind (kind : FrameKind).

Definition payload_event_from_frame (frame : Frame) : result PayloadEvent PayloadEventError :=
  if decide (kind frame = OUTPUT) then Ok (Output (payload frame))
  else if decide (kind frame = EXIT) then
    let? x := map_err Json (exit_from_slice (payload frame)) in Ok (Exit (exit_code x))
  else if decide (kind frame = FAILURE) then
    Ok (Failure (Http.from_utf8_lossy (payload frame)))
  else Err (UnexpectedFrameKind (kind frame)).

Definition signal_payload (s : Z) : result (list byte) JsonError := signal_to_vec (mkSignal s).

Definition resize_payload (r c : Z) : result (list byte) JsonError := resize_to_vec (mkResize r c).

End Events.

(** ** A JSON for the witnesses

    A message is written as the bits of its code. *)

Fixpoint pos_bits (p : positive) : list byte :=
  match p with xH => [] | xO p => Byte.x00 :: pos_bits p | xI p => Byte.x01 :: pos_bits p end.

Fixpoint bits_pos (bs : list byte) : positive :=
  match bs with
  | [] => xH
  | Byte.x00 :: bs => xO (bits_pos bs)
  | _ :: bs => xI (bits_pos bs)
  end.

Lemma bits_pos_bits p : bits_pos (pos_bits p) = p.
Proof. by induction p; cbn; f_equal. Qed.

#[local] Instance request_eq_dec : EqDecision PayloadRequest.
Proof. solve_decision. Defined.
#[local] Instance request_countable : Countable PayloadRequest.
Proof.
  refine (inj_countable' (fun r => (script r, cwd r, env r, rows r, cols r))
    (fun '(s, d, e, r, c) => mkPayloadRequest s d e r c) _). by intros [].
Defined.
#[local] Instance diagnostic_eq_dec : EqDecision DiagnosticRequest.
Proof. solve_decision. Defined.
#[local] Instance diagnostic_countable : Countable DiagnosticRequest.
Proof.
  refine (inj_countable' (fun r => (d_script r, d_cwd r, d_env r, timeout_seconds r, max_output_bytes r))
    (fun '(s, d, e, t, m) => mkDiagnosticRequest s d e t m) _). by intros [].
Defined.

Definition bits_to_vec {A} `{Countable A} (a : A) : result (list byte) unit :=
  Ok (pos_bits (stdpp.countable.encode a)).
Definition bits_from_slice {A} `{Countable A} (bs : list byte) : result A unit :=
  ok_or (stdpp.countable.decode (bits_pos bs)) tt.

Lemma bits_roundtrip {A} `{Countable A} (a : A) :
  exists bs, bits_to_vec a = Ok bs /\ bits_from_slice bs = Ok a.
Proof. eexists. split; [done|]. unfold bits_from_slice. by rewrite bits_pos_bits, decode_encode. Qed.

(** Four bytes for a signed number. *)
Definition number_bytes (z : Z) : list byte := to_be32 (wrap32 z).
Definition bytes_number (bs : list byte) : option (Z * list byte) :=
  match bs with
  | a :: b :: c :: d :: rest =>
      let n := from_be32 a b c d in Some (if n <? 2 ^ 31 then n else n - 2 ^ 32, rest)
  | _ => None
  end.

Lemma bytes_number_bytes z rest : i32 z -> bytes_number (number_bytes z ++ rest) = Some (z, rest).
Proof.
  intros Hz. unfold number_bytes, wrap32, i32 in *. cbn [to_be32 app bytes_number].
  assert (0 <= z mod 2 ^ 32 < 2 ^ 32) as Hr by (apply Z.mod_pos_bound; lia).
  rewrite from_to_be32 by lia. destruct (Z.lt_ge_cases z 0) as [Hn|Hn].
  - replace (z mod 2 ^ 32) with (z + 2 ^ 32) in *
      by (rewrite <-(Z_mod_plus_full z 1), Z.mod_small by lia; lia).
    case_test; [lia|]. by rewrite Z.add_simpl_r.
  - rewrite Z.mod_small by lia. case_test; [done|lia].
Qed.

#[local] Arguments number_bytes : simpl never.
#[local] Arguments bytes_number : simpl never.

#[local] Instance bits_json : PayloadJson := {|
  JsonError := unit;
  json_io_error _ := tt;
  request_to_vec := bits_to_vec;
  request_from_slice := bits_from_slice;
  diagnostic_to_vec := bits_to_vec;
  diagnostic_from_slice := bits_from_slice;
  exit_to_vec x := Ok (number_bytes (exit_code x));
  exit_from_slice bs :=
    match bytes_number bs with Some (z, _) => Ok (mkExit z) | None => Err tt end;
  signal_to_vec x := Ok (number_bytes (signal x));
  signal_from_slice bs :=
    match bytes_number bs with Some (z, _) => Ok (mkSignal z) | None => Err tt end;
  resize_to_vec x := Ok (number_bytes (r_rows x) ++ number_bytes (r_cols x));
  resize_from_slice bs :=
    match bytes_number bs with
    | Some (r, rest) =>
        match bytes_number rest with Some (c, _) => Ok (mkResize r c) | None => Err tt end
    | None => Err tt
    end;
  diagnostic_exit_to_vec x := Ok (number_bytes (dx_exit_code x))
|}.

#[local] Instance bits_json_laws : PayloadJsonLaws.
Proof.
  assert (forall z, bytes_number (number_bytes z) = bytes_number (number_bytes z ++ [])) as Hnil
    by (intros; by rewrite app_nil_r).
  split; cbn.
  - intros r _ _. apply bits_roundtrip.
  - intros r _ _. apply bits_roundtrip.
  - intros [z] Hz. eexists. split; [done|]. split; [by vm_compute|].
    by rewrite Hnil, bytes_number_bytes.
  - intros [z] Hz. eexists. split; [done|]. split; [by vm_compute|].
    by rewrite Hnil, bytes_number_bytes.
  - intros [r c] Hr Hc. assert (i32 r /\ i32 c) as [Hr' Hc'].
    { unfold u16, u16_max, i32 in *. change (2 ^ 16 - 1) with 65535 in *. cbn in Hr, Hc. lia. }
    eexists. split; [done|]. split; [by vm_compute|].
    by rewrite bytes_number_bytes, Hnil, bytes_number_bytes.
  - intros [z t u] Hz. eexists. split; [done|]. split; [by vm_compute|].
    by rewrite Hnil, bytes_number_bytes.
Qed.

End Messages.
