(* ===== verification/GuestService.v ===== *)
(** The guest payload service (src/guest-service/src/lib.rs): it admits clients,
    runs the primary payload on a pseudo-terminal and diagnostics with a deadline
    and an output limit, and bridges connections to the Docker socket.

    The operating system of the guest is an interface. The [select!] loops are
    step relations, since any branch that is ready may be taken; a branch that
    is dropped while it reads a frame has read a part of it, as tokio documents
    for [read_exact]. Durations are in milliseconds. *)

From stdpp Require Import base option list numbers strings gmap relations.
From Stdlib Require Import ZArith Lia.
From S2P Require Import Prelude RustIo RustStr PayloadProtocol PayloadMessages VmnetServiceIo.

Local Open Scope list_scope.
Local Open Scope Z_scope.

Module GuestService.
Import Payload Messages Mpsc.

Definition DEFAULT_INITIAL_FRAME_TIMEOUT : Z := 10 * 1000.
Definition DEFAULT_SESSION_IO_TIMEOUT : Z := 30 * 1000.
Definition DEFAULT_MAX_CLIENTS : Z := 16.
Definition DEFAULT_MAX_DIAGNOSTIC_SESSIONS : Z := 4.
Definition DEFAULT_DIAGNOSTIC_TIMEOUT : Z := 10 * 1000.
Definition MAX_DIAGNOSTIC_TIMEOUT : Z := 60 * 1000.
Definition DEFAULT_DIAGNOSTIC_OUTPUT_BYTES : Z := 1024 * 1024.
Definition MAX_DIAGNOSTIC_OUTPUT_BYTES : Z := 4 * 1024 * 1024.
Definition DEFAULT_DOCKER_BRIDGE_MAX_SESSIONS : Z := 64.
Definition DEFAULT_DOCKER_BRIDGE_CONNECT_TIMEOUT : Z := 5 * 1000.
Definition DEFAULT_DOCKER_BRIDGE_IO_TIMEOUT : Z := 30 * 1000.
Definition DOCKER_BRIDGE_CONNECT_RETRY_INTERVAL : Z := 50.

Record GuestServiceLimits := mkLimits {
  max_clients : Z; max_diagnostics : Z; initial_timeout : Z; io_timeout : Z }.

Definition GuestServiceLimits_default : GuestServiceLimits :=
  mkLimits DEFAULT_MAX_CLIENTS DEFAULT_MAX_DIAGNOSTIC_SESSIONS DEFAULT_INITIAL_FRAME_TIMEOUT
    DEFAULT_SESSION_IO_TIMEOUT.

Record DockerBridgeLimits := mkBridgeLimits {
  max_sessions : Z; connect_timeout : Z; bridge_io_timeout : Z }.

Definition DockerBridgeLimits_default : DockerBridgeLimits :=
  mkBridgeLimits DEFAULT_DOCKER_BRIDGE_MAX_SESSIONS DEFAULT_DOCKER_BRIDGE_CONNECT_TIMEOUT
    DEFAULT_DOCKER_BRIDGE_IO_TIMEOUT.

Record DockerBridgeStats := mkBridgeStats {
  client_to_docker : Z; docker_to_client : Z; bridge_timed_out : bool }.

Section Service.
Context `{PayloadJson}.

Inductive GuestServiceError :=
| FrameFailed (source : AsyncFrameError io_error)
| InitialFrameTimeout (timeout : Z)
| PayloadRequestJson (source : JsonError)
| DiagnosticRequestJson (source : JsonError)
| SpawnDiagnostic (source : io_error)
| DiagnosticIo (source : io_error)
| SpawnPrimary (source : io_error)
| PrimaryIo (source : io_error)
| BindTcp (addr : string) (source : io_error)
| AcceptTcp (source : io_error)
| ClientLimitReached
| DockerBridgeSessionLimitReached
| DockerBridgeConnect (path : string) (source : io_error)
| DockerBridgeIo (source : io_error).

(** ** Bounds of a diagnostic *)

Definition bounded_diagnostic_timeout (requested_seconds : Z) : Z :=
  let requested :=
    if requested_seconds =? 0 then DEFAULT_DIAGNOSTIC_TIMEOUT else requested_seconds * 1000 in
  Z.min requested MAX_DIAGNOSTIC_TIMEOUT.

Definition bounded_diagnostic_output (requested_bytes : Z) : Z :=
  let requested :=
    if requested_bytes =? 0 then DEFAULT_DIAGNOSTIC_OUTPUT_BYTES else requested_bytes in
  Z.min requested MAX_DIAGNOSTIC_OUTPUT_BYTES.

(** ** Identity of the payload *)

Record PayloadIdentity := mkIdentity { uid : Z; gid : Z }.

Definition invalid_identity (message : string) : GuestServiceError :=
  PayloadRequestJson (json_io_error (CustomError InvalidInput message)).

Definition parse_u32 (s : string) : option Z := from_str_radix 10 u32_max s.

Definition payload_identity (env : gmap string string)
  : result (option PayloadIdentity) GuestServiceError :=
  match env !! "AGENTVM_UID"%string, env !! "AGENTVM_GID"%string with
  | None, None => Ok None
  | Some uid, Some gid =>
      let? uid := ok_or (parse_u32 uid) (invalid_identity (parse_int_error u32_max uid)) in
      let? gid := ok_or (parse_u32 gid) (invalid_identity (parse_int_error u32_max gid)) in
      Ok (Some (mkIdentity uid gid))
  | _, _ =>
      Err (invalid_identity "payload identity requires both AGENTVM_UID and AGENTVM_GID")
  end.

(** *** Taking on the identity, in the child before it executes the program *)

(** The system calls of [pre_exec], over the credentials of the child. *)
Class ChildOs (X : Type) := {
  setsid : X -> io_result unit * X;
  set_controlling_tty : X -> Z -> io_result unit * X;
  getuid : X -> Z;
  getgid : X -> Z;
  getgroups : X -> list Z;
  setgroups : X -> list Z -> io_result unit * X;
  setgid : X -> Z -> io_result unit * X;
  setuid : X -> Z -> io_result unit * X
}.

(** POSIX: a call that succeeds sets what its name says and nothing else of the
    credentials. *)
Definition same_groups `{ChildOs X} (x x' : X) : Prop :=
  getgid x' = getgid x /\ getgroups x' = getgroups x.

Class ChildOsLaws (X : Type) `{ChildOs X} : Prop := {
  setsid_keeps x r x' : setsid x = (r, x') -> getuid x' = getuid x /\ same_groups x x';
  set_tty_keeps x fd r x' :
    set_controlling_tty x fd = (r, x') -> getuid x' = getuid x /\ same_groups x x';
  setgroups_spec x gs x' : setgroups x gs = (Ok tt, x') ->
    getgroups x' = gs /\ getgid x' = getgid x /\ getuid x' = getuid x;
  setgid_spec x g x' : setgid x g = (Ok tt, x') ->
    getgid x' = g /\ getgroups x' = getgroups x /\ getuid x' = getuid x;
  setuid_spec x u x' : setuid x u = (Ok tt, x') -> getuid x' = u /\ same_groups x x'
}.

(** The closure of [configure_process]. *)
Definition pre_exec {X : Type} `{ChildOs X} (identity : option PayloadIdentity)
  (controlling_tty : option Z) (x : X) : io_result unit * X :=
  match setsid x with
  | (Err e, x) => (Err e, x)
  | (Ok _, x) =>
      let '(r, x) := match controlling_tty with
                     | Some fd => set_controlling_tty x fd
                     | None => (Ok tt, x)
                     end in
      match r with
      | Err e => (Err e, x)
      | Ok _ =>
          match identity with
          | None => (Ok tt, x)
          | Some identity =>
              if (getuid x =? uid identity) && (getgid x =? gid identity) then (Ok tt, x)
              else
                match setgroups x [gid identity] with
                | (Err e, x) => (Err e, x)
                | (Ok _, x) =>
                    match setgid x (gid identity) with
                    | (Err e, x) => (Err e, x)
                    | (Ok _, x) =>
                        match setuid x (uid identity) with
                        | (Err e, x) => (Err e, x)
                        | (Ok _, x) => (Ok tt, x)
                        end
                    end
                end
          end
      end
  end.

(** *** The home directory *)

Class HomeFs (G : Type) := {
  create_dir_all : G -> string -> io_result unit * G;
  metadata_owner : G -> string -> io_result (Z * Z);
  chown : G -> string -> Z -> Z -> io_result unit * G
}.

(** The message of [CString::new] for a string with a zero byte. *)
Definition nul_error (s : string) : string :=
  ("nul byte found in provided data at position: " ++
   show_usize (Z.of_nat (default 0%nat (String.index 0 (String Ascii.zero EmptyString) s))))%string.

Definition ensure_home {G : Type} `{HomeFs G} (g : G) (env : gmap string string)
  (identity : option PayloadIdentity) : result unit GuestServiceError * G :=
  match env !! "HOME"%string with
  | None => (Ok tt, g)
  | Some home =>
      if negb (starts_with "/" home) then (Ok tt, g)
      else
        match create_dir_all g home with
        | (Err e, g) => (Err (PrimaryIo e), g)
        | (Ok _, g) =>
            match identity with
            | None => (Ok tt, g)
            | Some identity =>
                match metadata_owner g home with
                | Err e => (Err (PrimaryIo e), g)
                | Ok (u, v) =>
                    if (u =? uid identity) && (v =? gid identity) then (Ok tt, g)
                    else if contains_char Ascii.zero home
                    then (Err (PrimaryIo (CustomError InvalidInput (nul_error home))), g)
                    else
                      match chown g home (uid identity) (gid identity) with
                      | (Err e, g) => (Err (PrimaryIo e), g)
                      | (Ok _, g) => (Ok tt, g)
                      end
                end
            end
        end
  end.

(** ** Sending frames *)

Section Send.
Context {W : Type} `{AsyncWriter W io_error}.

Definition send_frame (w : W) (k : FrameKind) (p : list byte)
  : result unit (AsyncFrameError io_error) * W :=
  match Frame_new k p with
  | Err e => (Err (AsyncFrame e), w)
  | Ok frame => write_frame_async w frame
  end.

Definition send_output (w : W) (p : list byte) : result unit (AsyncFrameError io_error) * W :=
  send_frame w OUTPUT p.

Definition send_failure (w : W) (message : list byte)
  : result unit (AsyncFrameError io_error) * W := send_frame w FAILURE message.

(** [serde_json::to_vec(..).expect(..)]. *)
Definition send_exit (w : W) (code : Z) : exec (result unit (AsyncFrameError io_error) * W) :=
  match exit_to_vec (mkExit code) with
  | Err _ => Panic
  | Ok bs => Ret (send_frame w EXIT bs)
  end.

Definition send_diagnostic_exit (w : W) (code : Z) (timed_out truncated : bool)
  : exec (result unit (AsyncFrameError io_error) * W) :=
  match diagnostic_exit_to_vec (mkDiagnosticExit code timed_out truncated) with
  | Err _ => Panic
  | Ok bs => Ret (send_frame w EXIT bs)
  end.

Definition write_diagnostic_output (w : W) (chunk : list byte) (sent max_output_bytes : Z)
  : result bool (AsyncFrameError io_error) * W * Z :=
  let remaining := saturating_sub max_output_bytes sent in
  let allowed := Z.min remaining (len chunk) in
  if allowed >? 0 then
    match send_output w (ztake allowed chunk) with
    | (Err e, w) => (Err e, w, sent)
    | (Ok _, w) => (Ok (allowed <? len chunk), w, sent + allowed)
    end
  else (Ok (allowed <? len chunk), w, sent).

End Send.

(** [ExitStatus::code], absent when a signal ended the process. *)
Definition exit_code_from_status (status : option Z) : Z := default 1 status.

Definition SIGKILL : Z := 9.
Definition SIGTERM : Z := 15.

(** [kill(-pid, signal)]; the signals sent are kept in a list. *)
Definition signal_child_process_group (child_pid : option Z) (signal : Z) (sent : list Z)
  : list Z :=
  match child_pid with None => sent | Some _ => sent ++ [signal] end.

(** ** A frame read that is dropped before it is complete *)

Inductive cancelled_read {R : Type} `{AsyncReader R io_error} (r : R) : R -> Prop :=
| cancelled_header n bs r' :
    0 <= n < FRAME_HEADER_LEN -> read_exact r n = (Ok bs, r') -> cancelled_read r r'
| cancelled_payload h0 h1 h2 h3 h4 r1 k length n bs r' :
    read_exact r FRAME_HEADER_LEN = (Ok [h0; h1; h2; h3; h4], r1) ->
    decode_header h0 h1 h2 h3 h4 = Ok (k, length) ->
    0 <= n < length -> read_exact r1 n = (Ok bs, r') -> cancelled_read r r'.

(** ** The primary payload *)

Inductive stdio := OnPty (stdin stdout stderr : Z) | OnPipes.

Record command := mkCommand {
  c_script : string; c_cwd : string; c_env : gmap string string;
  c_identity : option PayloadIdentity; c_tty : option Z; c_stdio : stdio }.

(** [/bin/sh -c script] with the closure of [configure_process]. *)
Definition shell_command (script cwd : string) (env : gmap string string)
  (identity : option PayloadIdentity) (tty : option Z) (io : stdio) : command :=
  mkCommand script (if decide (cwd = EmptyString) then "/"%string else cwd) env identity tty io.

Class ProcessOs (G : Type) := {
  openpty : G -> Z -> Z -> io_result (Z * Z) * G;
  try_clone : G -> Z -> io_result Z * G;
  spawn : G -> command -> io_result (option Z) * G;
  spawn_thread : G -> io_result unit * G
}.

(** Calls of the operating system one after the other, until one fails. *)
Definition os_bind {G A B E : Type} (m : G -> result A E * G) (k : A -> G -> result B E * G) (g : G)
  : result B E * G :=
  match m g with (Ok a, g) => k a g | (Err e, g) => (Err e, g) end.

#[local] Notation "'do' x := m 'in' k" := (os_bind m (fun x => k))
  (at level 200, x pattern, k at level 200).

Definition failing {G A E F : Type} (f : E -> F) (m : G -> result A E * G) (g : G) : result A F * G :=
  let '(r, g) := m g in (map_err f r, g).

Section Start.
Context {G : Type} `{HomeFs G} `{ProcessOs G}.

Definition open_primary_pty (rows cols : Z) : G -> result (Z * Z) GuestServiceError * G :=
  failing SpawnPrimary (fun g => openpty g (Z.max rows 1) (Z.max cols 1)).

Record started := mkStarted { child_pid : option Z; master : Z; resize_fd : Z; reader_fd : Z }.

(** [run_primary_request] up to its loop. *)
Definition start_primary (request : PayloadRequest) : G -> result started GuestServiceError * G :=
  do identity := fun g => (payload_identity (env request), g) in
  do _ := fun g => ensure_home g (env request) identity in
  do (master, slave) := open_primary_pty (rows request) (cols request) in
  do resize_fd := failing SpawnPrimary (fun g => try_clone g master) in
  do master_reader := failing SpawnPrimary (fun g => try_clone g master) in
  do slave_stdin := failing SpawnPrimary (fun g => try_clone g slave) in
  do slave_stdout := failing SpawnPrimary (fun g => try_clone g slave) in
  do slave_stderr := failing SpawnPrimary (fun g => try_clone g slave) in
  do pid := failing SpawnPrimary (fun g =>
    spawn g (shell_command (script request) (cwd request) (env request) identity (Some slave)
               (OnPty slave_stdin slave_stdout slave_stderr))) in
  do _ := failing PrimaryIo spawn_thread in
  fun g => (Ok (mkStarted pid master resize_fd master_reader), g).

(** [run_diagnostic_request] up to its loop. *)
Definition start_diagnostic (request : DiagnosticRequest)
  : G -> result (option Z) GuestServiceError * G :=
  do identity := fun g => (payload_identity (d_env request), g) in
  do _ := fun g => ensure_home g (d_env request) identity in
  failing SpawnDiagnostic (fun g =>
    spawn g (shell_command (d_script request) (d_cwd request) (d_env request) identity None OnPipes)).

End Start.

Section Primary.
Context {R W I P : Type} `{AsyncReader R io_error} `{AsyncWriter W io_error} `{Write I}.
(** The [TIOCSWINSZ] request on the pseudo-terminal. *)
Context (set_winsize : P -> Z -> Z -> io_result unit * P).
Context `{Channels} (pid : option Z).

Record PrimaryProcessIo := mkProcessIo { input : I; resize : P }.

Definition resize_primary_pty (p : P) (rows cols : Z) : result unit GuestServiceError * P :=
  let '(r, p) := set_winsize p (Z.max rows 1) (Z.max cols 1) in (map_err PrimaryIo r, p).

Definition handle_primary_control_frame (frame : Frame) (io : PrimaryProcessIo) (signals : list Z)
  : result unit GuestServiceError * PrimaryProcessIo * list Z :=
  if decide (kind frame = INPUT) then
    let '(r, i) := RustIo.write_all (input io) (payload frame) in
    (map_err PrimaryIo r, mkProcessIo i (resize io), signals)
  else if decide (kind frame = SIGNAL) then
    match signal_from_slice (payload frame) with
    | Err e => (Err (PayloadRequestJson e), io, signals)
    | Ok x => (Ok tt, io, signal_child_process_group pid (signal x) signals)
    end
  else if decide (kind frame = RESIZE) then
    match resize_from_slice (payload frame) with
    | Err e => (Err (PayloadRequestJson e), io, signals)
    | Ok x =>
        let '(r, p) := resize_primary_pty (resize io) (r_rows x) (r_cols x) in
        (r, mkProcessIo (input io) p, signals)
    end
  else (Ok tt, io, signals).

(** The loop of [run_primary_request], its draining of recent output and its
    end. A phase for each place where it awaits: the [select!], the sending of a
    chunk, before or after the payload has exited, the handling of a control
    frame, the wait for more output, the sending of the exit code. [p_produced]
    are the chunks the thread that reads the pseudo-terminal has sent so far and
    [p_handled] the control frames, [p_exit] the code the payload exited with; they
    are not in the source. *)
Inductive phase :=
| Running
| Sending (exited : option Z) (chunk : list byte)
| Handling (frame : Frame)
| Draining (code : Z)
| Reporting (code : Z)
| Finished (result : result unit GuestServiceError).

Record primary := mkPrimary {
  p_phase : phase;
  p_reader : R;
  p_writer : W;
  p_output : channel (list byte);
  p_io : PrimaryProcessIo;
  p_control_closed : bool;
  p_signals : list Z;
  p_produced : list (list byte);
  p_handled : list Frame;
  p_exit : option Z
}.

Definition with_phase (s : primary) (ph : phase) : primary :=
  mkPrimary ph (p_reader s) (p_writer s) (p_output s) (p_io s) (p_control_closed s) (p_signals s)
    (p_produced s) (p_handled s) (p_exit s).
Definition with_reader (s : primary) (r : R) : primary :=
  mkPrimary (p_phase s) r (p_writer s) (p_output s) (p_io s) (p_control_closed s) (p_signals s)
    (p_produced s) (p_handled s) (p_exit s).
Definition with_output (s : primary) (w : W) (c : channel (list byte)) : primary :=
  mkPrimary (p_phase s) (p_reader s) w c (p_io s) (p_control_closed s) (p_signals s)
    (p_produced s) (p_handled s) (p_exit s).
Definition with_control (s : primary) (io : PrimaryProcessIo) (closed : bool) (signals : list Z)
  (frames : list Frame) : primary :=
  mkPrimary (p_phase s) (p_reader s) (p_writer s) (p_output s) io closed signals
    (p_produced s) (p_handled s ++ frames) (p_exit s).
Definition with_produced (s : primary) (c : channel (list byte)) (chunks : list (list byte))
  : primary :=
  mkPrimary (p_phase s) (p_reader s) (p_writer s) c (p_io s) (p_control_closed s) (p_signals s)
    (p_produced s ++ chunks) (p_handled s) (p_exit s).
Definition with_exit (s : primary) (code : Z) : primary :=
  mkPrimary (p_phase s) (p_reader s) (p_writer s) (p_output s) (p_io s) (p_control_closed s)
    (p_signals s) (p_produced s) (p_handled s) (Some code).

Definition terminate (s : primary) : primary :=
  with_control s (p_io s) (p_control_closed s)
    (signal_child_process_group pid SIGTERM (p_signals s)) [].

(** What is left of the control stream when another branch is taken. *)
Definition interrupted (s : primary) (r : R) : Prop :=
  if p_control_closed s then r = p_reader s else cancelled_read (p_reader s) r.

(** The thread of [spawn_pty_output_reader]: it reads into 8192 bytes and sends
    while there is room. *)
Inductive pty_step : primary -> primary -> Prop :=
| pty_chunk s chunk c :
    0 < len chunk <= 8192 -> try_send (p_output s) chunk = (Ok tt, c) ->
    pty_step s (with_produced s c [chunk])
| pty_end s : pty_step s (with_produced s (drop_sender (p_output s)) []).

Definition awaiting (exited : option Z) : phase :=
  match exited with None => Running | Some code => Draining code end.

Inductive primary_step : primary -> primary -> Prop :=
| pr_pty s s' : pty_step s s' -> primary_step s s'
| pr_output s r chunk c :
    p_phase s = Running -> interrupted s r -> recv (p_output s) = Some (Some chunk, c) ->
    primary_step s
      (with_phase (with_output (with_reader s r) (p_writer s) c) (Sending None chunk))
| pr_output_ended s r c :
    p_phase s = Running -> interrupted s r -> recv (p_output s) = Some (None, c) ->
    primary_step s (with_output (with_reader s r) (p_writer s) c)
| pr_drain s code chunk c :
    p_phase s = Draining code -> recv (p_output s) = Some (Some chunk, c) ->
    primary_step s (with_phase (with_output s (p_writer s) c) (Sending (Some code) chunk))
| pr_sent s exited chunk w :
    p_phase s = Sending exited chunk -> send_output (p_writer s) chunk = (Ok tt, w) ->
    primary_step s (with_phase (with_output s w (p_output s)) (awaiting exited))
| pr_send_failed s exited chunk e w :
    p_phase s = Sending exited chunk -> send_output (p_writer s) chunk = (Err e, w) ->
    primary_step s
      (with_phase
         (match exited with None => terminate | Some _ => id end (with_output s w (p_output s)))
         (Finished (Err (FrameFailed e))))
| pr_frame s r frame :
    p_phase s = Running -> p_control_closed s = false ->
    read_frame_async (p_reader s) = Ret (Ok frame, r) ->
    primary_step s (with_phase (with_reader s r) (Handling frame))
| pr_handled s frame io signals :
    p_phase s = Handling frame ->
    handle_primary_control_frame frame (p_io s) (p_signals s) = (Ok tt, io, signals) ->
    primary_step s (with_phase (with_control s io (p_control_closed s) signals [frame]) Running)
| pr_handle_failed s frame e io signals :
    p_phase s = Handling frame ->
    handle_primary_control_frame frame (p_io s) (p_signals s) = (Err e, io, signals) ->
    primary_step s
      (with_phase (with_control s io (p_control_closed s) signals []) (Finished (Err e)))
| pr_control_closed s r e :
    p_phase s = Running -> p_control_closed s = false ->
    read_frame_async (p_reader s) = Ret (Err e, r) ->
    primary_step s
      (with_control (with_reader s r) (p_io s) true
         (signal_child_process_group pid SIGTERM (p_signals s)) [])
| pr_exited s r status :
    p_phase s = Running -> interrupted s r -> i32 (exit_code_from_status status) ->
    primary_step s
      (with_phase (with_exit (with_reader s r) (exit_code_from_status status))
         (Draining (exit_code_from_status status)))
| pr_wait_failed s r e :
    p_phase s = Running -> interrupted s r ->
    primary_step s (with_phase (with_reader s r) (Finished (Err (PrimaryIo e))))
| pr_drained s code :
    (** The 50 ms are over and no chunk has arrived, or the thread has ended. *)
    p_phase s = Draining code ->
    (recv (p_output s) = None \/ exists c, recv (p_output s) = Some (None, c)) ->
    primary_step s (with_phase s (Reporting code))
| pr_reported s code r w :
    p_phase s = Reporting code -> send_exit (p_writer s) code = Ret (r, w) ->
    primary_step s
      (with_phase (with_output s w (p_output s)) (Finished (map_err FrameFailed r))).

Definition primary_start (r : R) (w : W) (i : I) (p : P) : primary :=
  mkPrimary Running r w (channel_new 16) (mkProcessIo i p) false [] [] [] None.

End Primary.

(** ** A diagnostic *)

Section Diagnostic.
Context {W O : Type} `{AsyncWriter W io_error} `{Read O}.
Context (pid : option Z) (max_output : Z).

Inductive diag_phase :=
| Reading
| Waiting
| Ended (result : result unit GuestServiceError).

(** [d_read] are the chunks read from both pipes, in order; they are not in the
    source. *)
Record diagnostic := mkDiagnostic {
  dg_phase : diag_phase;
  dg_writer : W;
  stdout : O;
  stderr : O;
  stdout_done : bool;
  stderr_done : bool;
  dg_sent : Z;
  dg_timed_out : bool;
  dg_truncated : bool;
  dg_signals : list Z;
  dg_read : list (list byte)
}.

Definition diagnostic_start (w : W) (out err : O) : diagnostic :=
  mkDiagnostic Reading w out err false false 0 false false [] [].

Definition set_phase (d : diagnostic) (ph : diag_phase) : diagnostic :=
  mkDiagnostic ph (dg_writer d) (stdout d) (stderr d) (stdout_done d) (stderr_done d) (dg_sent d)
    (dg_timed_out d) (dg_truncated d) (dg_signals d) (dg_read d).

(** [SIGKILL] to the group and [start_kill], which sends it to the child. *)
Definition stop (d : diagnostic) (timed_out truncated : bool) : diagnostic :=
  mkDiagnostic Waiting (dg_writer d) (stdout d) (stderr d) (stdout_done d) (stderr_done d)
    (dg_sent d) timed_out truncated
    (signal_child_process_group pid SIGKILL (dg_signals d)) (dg_read d).

(** The body of the two branches that read; [set] puts the pipe back. *)
Definition read_chunk (d : diagnostic) (chunk : list byte) : diagnostic :=
  let '(r, w, sent) := write_diagnostic_output (dg_writer d) chunk (dg_sent d) max_output in
  let d := mkDiagnostic (dg_phase d) w (stdout d) (stderr d) (stdout_done d) (stderr_done d) sent
             (dg_timed_out d) (dg_truncated d) (dg_signals d) (dg_read d ++ [chunk]) in
  match r with
  | Err e => set_phase d (Ended (Err (FrameFailed e)))
  | Ok true => stop d (dg_timed_out d) true
  | Ok false => d
  end.

Definition set_stdout (d : diagnostic) (o : O) (closed : bool) : diagnostic :=
  mkDiagnostic (dg_phase d) (dg_writer d) o (stderr d) closed (stderr_done d) (dg_sent d)
    (dg_timed_out d) (dg_truncated d) (dg_signals d) (dg_read d).
Definition set_stderr (d : diagnostic) (o : O) (closed : bool) : diagnostic :=
  mkDiagnostic (dg_phase d) (dg_writer d) (stdout d) o (stdout_done d) closed (dg_sent d)
    (dg_timed_out d) (dg_truncated d) (dg_signals d) (dg_read d).

(** After the loop, with the status of the child. *)
Definition finish_diagnostic (d : diagnostic) (status : option Z)
  : exec (result unit (AsyncFrameError io_error) * W) :=
  let finish (message : option (list byte)) (code : Z) :=
    let '(r, w) := match message with
                   | Some m => send_output (dg_writer d) m
                   | None => (Ok tt, dg_writer d)
                   end in
    match r with
    | Err e => Ret (Err e, w)
    | Ok _ => send_diagnostic_exit w code (dg_timed_out d) (dg_truncated d)
    end in
  let newline := [Byte.x0a] in
  if dg_timed_out d
  then finish (Some (newline ++ str_bytes "agentvm diagnostic timed out" ++ newline)) 124
  else if dg_truncated d
  then finish (Some (newline ++ str_bytes "agentvm diagnostic output limit exceeded" ++ newline)) 125
  else finish None (exit_code_from_status status).

Definition loop_over (d : diagnostic) : bool := stdout_done d && stderr_done d.

Definition set_writer (d : diagnostic) (w : W) : diagnostic :=
  mkDiagnostic (dg_phase d) w (stdout d) (stderr d) (stdout_done d) (stderr_done d) (dg_sent d)
    (dg_timed_out d) (dg_truncated d) (dg_signals d) (dg_read d).

Inductive diag_step : diagnostic -> diagnostic -> Prop :=
| dg_over d : dg_phase d = Reading -> loop_over d = true -> diag_step d (set_phase d Waiting)
| dg_deadline d :
    dg_phase d = Reading -> loop_over d = false -> dg_timed_out d = false ->
    dg_truncated d = false -> diag_step d (stop d true (dg_truncated d))
| dg_stdout d bs o :
    dg_phase d = Reading -> loop_over d = false -> stdout_done d = false ->
    read (stdout d) 8192 = (Ok bs, o) ->
    diag_step d (if decide (bs = []) then set_stdout d o true
                 else read_chunk (set_stdout d o false) bs)
| dg_stdout_failed d e o :
    dg_phase d = Reading -> loop_over d = false -> stdout_done d = false ->
    read (stdout d) 8192 = (Err e, o) ->
    diag_step d (set_phase (set_stdout d o false) (Ended (Err (DiagnosticIo e))))
| dg_stderr d bs o :
    dg_phase d = Reading -> loop_over d = false -> stderr_done d = false ->
    read (stderr d) 8192 = (Ok bs, o) ->
    diag_step d (if decide (bs = []) then set_stderr d o true
                 else read_chunk (set_stderr d o false) bs)
| dg_stderr_failed d e o :
    dg_phase d = Reading -> loop_over d = false -> stderr_done d = false ->
    read (stderr d) 8192 = (Err e, o) ->
    diag_step d (set_phase (set_stderr d o false) (Ended (Err (DiagnosticIo e))))
| dg_exited d status r w :
    dg_phase d = Waiting -> finish_diagnostic d status = Ret (r, w) ->
    diag_step d (set_phase (set_writer d w) (Ended (map_err FrameFailed r)))
| dg_wait_failed d e :
    dg_phase d = Waiting -> diag_step d (set_phase d (Ended (Err (DiagnosticIo e)))).

End Diagnostic.

(** ** Admission *)

(** A tokio [Semaphore] is the number of its free permits. *)
Definition try_acquire (permits : Z) : option Z := if permits >? 0 then Some (permits - 1) else None.
Definition release (permits : Z) : Z := permits + 1.

Record GuestServiceState := mkState {
  primary_active : bool; diagnostics : Z; clients : Z; limits : GuestServiceLimits }.

Definition GuestServiceState_new (l : GuestServiceLimits) : GuestServiceState :=
  mkState false (max_diagnostics l) (max_clients l) l.

Definition try_acquire_client (st : GuestServiceState) : result GuestServiceState GuestServiceError :=
  match try_acquire (clients st) with
  | None => Err ClientLimitReached
  | Some n => Ok (mkState (primary_active st) (diagnostics st) n (limits st))
  end.

Definition try_start_primary (st : GuestServiceState) : option GuestServiceState :=
  if primary_active st then None
  else Some (mkState true (diagnostics st) (clients st) (limits st)).

Definition try_start_diagnostic (st : GuestServiceState) : option GuestServiceState :=
  match try_acquire (diagnostics st) with
  | None => None
  | Some n => Some (mkState (primary_active st) n (clients st) (limits st))
  end.

(** The drops of [ClientSession], [PrimarySession] and [DiagnosticSession]. *)
Definition drop_client (st : GuestServiceState) : GuestServiceState :=
  mkState (primary_active st) (diagnostics st) (release (clients st)) (limits st).
Definition drop_primary (st : GuestServiceState) : GuestServiceState :=
  mkState false (diagnostics st) (clients st) (limits st).
Definition drop_diagnostic (st : GuestServiceState) : GuestServiceState :=
  mkState (primary_active st) (release (diagnostics st)) (clients st) (limits st).

(** What a client does after its first frame. *)
Inductive next :=
| Done (result : result unit GuestServiceError)
| RunPrimary (request : PayloadRequest)
| RunDiagnostic (request : DiagnosticRequest).

Section Client.
Context {W : Type} `{AsyncWriter W io_error}.
(** [to_string] of an error of the frame. *)
Context (show_frame_error : AsyncFrameError io_error -> list byte).

(** [send_failure(..).await?; return Ok(())]. *)
Definition refuse (w : W) (message : string) : next * W :=
  let '(r, w) := send_failure w (str_bytes message) in (Done (map_err FrameFailed r), w).

Definition handle_primary_request (st : GuestServiceState) (w : W) (p : list byte)
  : next * GuestServiceState * W :=
  match request_from_slice p with
  | Err e => (Done (Err (PayloadRequestJson e)), st, w)
  | Ok request =>
      if decide (script request = EmptyString)
      then let '(n, w) := refuse w "payload request is missing script" in (n, st, w)
      else
        match try_start_primary st with
        | None => let '(n, w) := refuse w "payload session already active" in (n, st, w)
        | Some st => (RunPrimary request, st, w)
        end
  end.

Definition handle_diagnostic_request (st : GuestServiceState) (w : W) (p : list byte)
  : next * GuestServiceState * W :=
  match diagnostic_from_slice p with
  | Err e => (Done (Err (DiagnosticRequestJson e)), st, w)
  | Ok request =>
      if decide (d_script request = EmptyString)
      then let '(n, w) := refuse w "diagnostic request is missing script" in (n, st, w)
      else
        match try_start_diagnostic st with
        | None => let '(n, w) := refuse w "too many diagnostic sessions active" in (n, st, w)
        | Some st => (RunDiagnostic request, st, w)
        end
  end.

(** [handle_client] from the first frame to the session; [None] when it did not
    come in time. *)
Definition first_frame (st : GuestServiceState) (w : W)
  (frame : option (result Frame (AsyncFrameError io_error))) : next * GuestServiceState * W :=
  match frame with
  | None => (Done (Err (InitialFrameTimeout (initial_timeout (limits st)))), st, w)
  | Some (Err e) => (Done (Ok tt), st, (send_failure w (show_frame_error e)).2)
  | Some (Ok frame) =>
      if decide (kind frame = PING) then
        let '(r, w) := write_frame_async w (mkFrame OK (str_bytes "ok")) in
        (Done (map_err FrameFailed r), st, w)
      else if decide (kind frame = RUN_PRIMARY) then handle_primary_request st w (payload frame)
      else if decide (kind frame = RUN_DIAGNOSTIC) then
        handle_diagnostic_request st w (payload frame)
      else let '(n, w) := refuse w "unexpected initial frame" in (n, st, w)
  end.

(** The clients the service has, each in a task of its own. *)
Inductive stage := AwaitingFrame | InPrimary (request : PayloadRequest)
| InDiagnostic (request : DiagnosticRequest).

Record service := mkService { state : GuestServiceState; sessions : gmap nat stage }.

Definition service_new (l : GuestServiceLimits) : service := mkService (GuestServiceState_new l) ∅.

(** What the end of a client's task drops. *)
Definition drop_stage (st : GuestServiceState) (g : stage) : GuestServiceState :=
  match g with
  | AwaitingFrame => drop_client st
  | InPrimary _ => drop_client (drop_primary st)
  | InDiagnostic _ => drop_client (drop_diagnostic st)
  end.

Inductive service_step : service -> service -> Prop :=
| sv_accepted s st i :
    sessions s !! i = None -> try_acquire_client (state s) = Ok st ->
    service_step s (mkService st (<[i := AwaitingFrame]> (sessions s)))
| sv_refused s e : try_acquire_client (state s) = Err e -> service_step s s
| sv_done s i w frame r st w' :
    sessions s !! i = Some AwaitingFrame -> first_frame (state s) w frame = (Done r, st, w') ->
    service_step s (mkService (drop_client st) (delete i (sessions s)))
| sv_primary s i w frame request st w' :
    sessions s !! i = Some AwaitingFrame ->
    first_frame (state s) w frame = (RunPrimary request, st, w') ->
    service_step s (mkService st (<[i := InPrimary request]> (sessions s)))
| sv_diagnostic s i w frame request st w' :
    sessions s !! i = Some AwaitingFrame ->
    first_frame (state s) w frame = (RunDiagnostic request, st, w') ->
    service_step s (mkService st (<[i := InDiagnostic request]> (sessions s)))
| sv_ended s i g :
    (** A session ends with a result or an error, or its task is dropped. *)
    sessions s !! i = Some g ->
    service_step s (mkService (drop_stage (state s) g) (delete i (sessions s))).

End Client.

(** ** The Docker bridge *)

Section Bridge.
Context {C D : Type} `{Read C} `{Write C} `{Read D} `{Write D}.
Context (shutdown_client : C -> C) (shutdown_docker : D -> D).

Record bridge := mkBridge {
  client : C; docker : D; client_read_closed : bool; docker_read_closed : bool;
  stats : DockerBridgeStats; bridge_end : option (result DockerBridgeStats GuestServiceError) }.

Definition bridge_start (c : C) (d : D) : bridge :=
  mkBridge c d false false (mkBridgeStats 0 0 false) None.

Definition bridge_open (b : bridge) : Prop :=
  bridge_end b = None /\ negb (client_read_closed b) || negb (docker_read_closed b) = true.

(** The loop of [proxy_docker_bridge]. *)
Inductive bridge_step : bridge -> bridge -> Prop :=
| br_client_closed b c :
    bridge_open b -> client_read_closed b = false -> read (client b) (64 * 1024) = (Ok [], c) ->
    bridge_step b (mkBridge c (shutdown_docker (docker b)) true (docker_read_closed b) (stats b) None)
| br_client b bs c d :
    bridge_open b -> client_read_closed b = false ->
    read (client b) (64 * 1024) = (Ok bs, c) -> bs <> [] ->
    RustIo.write_all (docker b) bs = (Ok tt, d) ->
    bridge_step b (mkBridge c d false (docker_read_closed b)
      (mkBridgeStats (client_to_docker (stats b) + len bs) (docker_to_client (stats b))
         (bridge_timed_out (stats b))) None)
| br_client_failed b r c d e :
    bridge_open b -> client_read_closed b = false -> read (client b) (64 * 1024) = (r, c) ->
    (r = Err e /\ d = docker b \/
     exists bs, r = Ok bs /\ bs <> [] /\ RustIo.write_all (docker b) bs = (Err e, d)) ->
    bridge_step b (mkBridge c d false (docker_read_closed b) (stats b) (Some (Err (DockerBridgeIo e))))
| br_docker_closed b d :
    bridge_open b -> docker_read_closed b = false -> read (docker b) (64 * 1024) = (Ok [], d) ->
    bridge_step b (mkBridge (shutdown_client (client b)) d (client_read_closed b) true (stats b) None)
| br_docker b bs c d :
    bridge_open b -> docker_read_closed b = false ->
    read (docker b) (64 * 1024) = (Ok bs, d) -> bs <> [] ->
    RustIo.write_all (client b) bs = (Ok tt, c) ->
    bridge_step b (mkBridge c d (client_read_closed b) false
      (mkBridgeStats (client_to_docker (stats b)) (docker_to_client (stats b) + len bs)
         (bridge_timed_out (stats b))) None)
| br_docker_failed b r c d e :
    bridge_open b -> docker_read_closed b = false -> read (docker b) (64 * 1024) = (r, d) ->
    (r = Err e /\ c = client b \/
     exists bs, r = Ok bs /\ bs <> [] /\ RustIo.write_all (client b) bs = (Err e, c)) ->
    bridge_step b (mkBridge c d (client_read_closed b) false (stats b) (Some (Err (DockerBridgeIo e))))
| br_idle b :
    bridge_open b ->
    bridge_step b
      (let st := mkBridgeStats (client_to_docker (stats b)) (docker_to_client (stats b)) true in
       mkBridge (client b) (docker b) (client_read_closed b) (docker_read_closed b) st (Some (Ok st)))
| br_over b :
    bridge_end b = None -> client_read_closed b && docker_read_closed b = true ->
    bridge_step b (mkBridge (client b) (docker b) true true (stats b) (Some (Ok (stats b)))).

End Bridge.

Section Connect.
(** The Docker socket and the clock. *)
Context {K U : Type} (connect : K -> string -> io_result U * K) (now : K -> Z) (sleep : K -> Z -> K).

Fixpoint connect_loop (fuel : nat) (k : K) (path : string) (deadline : Z)
  : exec (result U GuestServiceError * K) :=
  match fuel with
  | O => Panic
  | S fuel =>
      match connect k path with
      | (Ok stream, k) => Ret (Ok stream, k)
      | (Err source, k) =>
          if deadline <=? now k then Ret (Err (DockerBridgeConnect path source), k)
          else connect_loop fuel (sleep k DOCKER_BRIDGE_CONNECT_RETRY_INTERVAL) path deadline
      end
  end.

Definition connect_fuel (timeout : Z) : nat :=
  S (S (Z.to_nat (timeout / DOCKER_BRIDGE_CONNECT_RETRY_INTERVAL))).

Definition connect_docker_bridge_socket (k : K) (path : string) (timeout : Z)
  : exec (result U GuestServiceError * K) :=
  connect_loop (connect_fuel timeout) k path (now k + timeout).

End Connect.

(** The sessions of [serve_docker_bridge_listener]: a client that got a permit is
    connected to the Docker socket and then bridged. [accepted] are the
    connections that [accept] can return, [connected] those of [connect]. *)
Section BridgeListener.
Context {C D : Type} `{Read C} `{Write C} `{Read D} `{Write D}.
Context (shutdown_client : C -> C) (shutdown_docker : D -> D).
Context (accepted : C -> Prop) (connected : D -> Prop).

Inductive bridge_session := Connecting (c : C) | Bridging (b : bridge (C := C) (D := D)).

Record bridge_service := mkBridgeService { permits : Z; bridges : gmap nat bridge_session }.

Definition bridge_service_new (l : DockerBridgeLimits) : bridge_service :=
  mkBridgeService (max_sessions l) ∅.

Inductive bridge_service_step : bridge_service -> bridge_service -> Prop :=
| bl_accepted s i c n :
    bridges s !! i = None -> accepted c -> try_acquire (permits s) = Some n ->
    bridge_service_step s (mkBridgeService n (<[i := Connecting c]> (bridges s)))
| bl_rejected s : try_acquire (permits s) = None -> bridge_service_step s s
| bl_connected s i c d :
    bridges s !! i = Some (Connecting c) -> connected d ->
    bridge_service_step s (mkBridgeService (permits s) (<[i := Bridging (bridge_start c d)]> (bridges s)))
| bl_not_connected s i c :
    bridges s !! i = Some (Connecting c) ->
    bridge_service_step s (mkBridgeService (release (permits s)) (delete i (bridges s)))
| bl_carries s i b b' :
    bridges s !! i = Some (Bridging b) -> bridge_step shutdown_client shutdown_docker b b' ->
    bridge_service_step s (mkBridgeService (permits s) (<[i := Bridging b']> (bridges s)))
| bl_ended s i b r :
    bridges s !! i = Some (Bridging b) -> bridge_end b = Some r ->
    bridge_service_step s (mkBridgeService (release (permits s)) (delete i (bridges s))).

End BridgeListener.

End Service.

(** * Facts *)

Section Facts.
Context `{PayloadJson}.

(** ** The identity *)

(** C20 (safety). A payload with an identity runs under it: when the preparation
    of the child succeeds its user and group are the requested ones, and its
    groups are that group alone, unless the service runs under this identity
    already, whose groups the child then keeps. *)
Theorem privileges_dropped {X : Type} `{ChildOs X} `{!ChildOsLaws X} identity tty (x x' : X) :
  pre_exec (Some identity) tty x = (Ok tt, x') ->
  getuid x' = uid identity /\ getgid x' = gid identity /\
  (getgroups x' = [gid identity] \/
   getuid x = uid identity /\ getgid x = gid identity /\ getgroups x' = getgroups x).
Proof.
  unfold pre_exec. destruct (setsid x) as [[[]|] x1] eqn:E1; [|done].
  apply setsid_keeps in E1 as (Hu1 & Hg1 & Hs1).
  destruct (match tty with Some fd => set_controlling_tty x1 fd | None => (Ok tt, x1) end)
    as [[[]|] x2] eqn:E2; [|done].
  assert (getuid x2 = getuid x /\ getgid x2 = getgid x /\ getgroups x2 = getgroups x) as (Hu2 & Hg2 & Hs2).
  { destruct tty as [fd|]; [|injection E2 as <-; done].
    apply set_tty_keeps in E2 as (? & ? & ?). split_and!; congruence. }
  destruct ((getuid x2 =? uid identity) && (getgid x2 =? gid identity)) eqn:Et.
  { intros [= <-]. apply andb_true_iff in Et as [?%Z.eqb_eq ?%Z.eqb_eq].
    split; [done|]. split; [done|]. right. split_and!; congruence. }
  destruct (setgroups x2 [gid identity]) as [[[]|] x3] eqn:E3; [|done].
  apply setgroups_spec in E3 as (Hs3 & Hg3 & Hu3).
  destruct (setgid x3 (gid identity)) as [[[]|] x4] eqn:E4; [|done].
  apply setgid_spec in E4 as (Hg4 & Hs4 & Hu4).
  destruct (setuid x4 (uid identity)) as [[[]|] x5] eqn:E5; [|done].
  apply setuid_spec in E5 as (Hu5 & Hg5 & Hs5). intros [= <-].
  split; [done|]. split; [congruence|]. left. congruence.
Qed.

(** ** Sending *)

Section Sending.
Context {W : Type} `{AsyncWriter W io_error} (sent : W -> list byte) `{!AsyncWriterLaws W io_error sent}.

Lemma send_frame_ok w k p w' :
  send_frame w k p = (Ok tt, w') ->
  len p <= MAX_FRAME_PAYLOAD /\ sent w' = sent w ++ encode (mkFrame k p).
Proof.
  unfold send_frame, Frame_new. case_test; [done|]. unfold write_frame_async. cbn [payload].
  case_test; [done|].
  destruct (Payload.write_all w (encode (mkFrame k p))) as [[[]|] w1] eqn:E; [|done].
  intros [= <-]. apply write_all_sent in E. split; [lia|done].
Qed.

Lemma write_diagnostic_output_ok w chunk n max r w' n' :
  0 <= n <= max -> write_diagnostic_output w chunk n max = (Ok r, w', n') ->
  n' = n + Z.min (max - n) (len chunk) /\ r = (n' - n <? len chunk) /\
  exists out, Forall frame_ok out /\ Forall (fun f => kind f = OUTPUT) out /\
    concat (map payload out) = ztake (n' - n) chunk /\
    sent w' = sent w ++ concat (map encode out).
Proof.
  intros Hn. unfold write_diagnostic_output, saturating_sub. pose proof (len_nonneg chunk) as Hc.
  rewrite Z.max_r by lia. set (a := Z.min (max - n) (len chunk)). case_test; cycle 1.
  { intros [= <- <- <-]. assert (a = 0) as -> by (unfold a in *; lia).
    split; [lia|]. rewrite Z.sub_diag. split; [done|]. exists []. cbn. rewrite app_nil_r.
    repeat split; constructor. }
  destruct (send_output w (ztake a chunk)) as [[[]|] w1] eqn:E; [|done]. intros [= <- <- <-].
  apply send_frame_ok in E as [Hl Es]. split; [done|]. rewrite Z.add_simpl_l. split; [done|].
  exists [mkFrame OUTPUT (ztake a chunk)]. cbn. rewrite !app_nil_r.
  repeat split; [repeat constructor; exact Hl|repeat constructor|done].
Qed.

End Sending.

(** ** The primary session *)

Section PrimaryFacts.
Context {R W I P : Type} `{AsyncReader R io_error} `{AsyncWriter W io_error} `{Write I}.
Context (incoming : R -> list byte) `{!AsyncReaderLaws R io_error incoming}.
Context (sent : W -> list byte) `{!AsyncWriterLaws W io_error sent}.
Context (typed : I -> list byte) `{!WriteLaws I typed}.
Context (set_winsize : P -> Z -> Z -> io_result unit * P).
Context `{Channels} `{!ChannelLaws} (pid : option Z).
Local Notation primary := (primary (R := R) (W := W) (I := I) (P := P)).
Local Notation step := (primary_step set_winsize pid).
Implicit Types s : primary.

Definition output_frame (chunk : list byte) : Frame := mkFrame OUTPUT chunk.

(** The keystrokes and the signals that control frames carry. *)
Definition typed_by (frames : list Frame) : list byte :=
  concat (map (fun f => if decide (kind f = INPUT) then payload f else []) frames).

Definition signals_by (frames : list Frame) : list Z :=
  concat (map (fun f =>
    if decide (kind f = SIGNAL) then
      match signal_from_slice (payload f) with
      | Ok x => signal_child_process_group pid (signal x) []
      | Err _ => []
      end
    else []) frames).

(** Not ended by an error, or not by one of sending. *)
Definition live s : Prop := match p_phase s with Finished (Err _) => False | _ => True end.
Definition intact s : Prop :=
  match p_phase s with Finished (Err (FrameFailed _)) => False | _ => True end.

(** The chunk being sent. *)
Definition held s : list (list byte) :=
  match p_phase s with Sending _ chunk => [chunk] | _ => [] end.

(** What was written to the client: the chunks in order, then the exit code. *)
Definition transcript (w0 : list byte) (delivered : list (list byte)) s : Prop :=
  match p_phase s with
  | Finished (Ok _) => exists code bs,
      p_exit s = Some code /\ i32 code /\ exit_to_vec (mkExit code) = Ok bs /\
      len bs <= MAX_FRAME_PAYLOAD /\
      sent (p_writer s) =
        w0 ++ concat (map encode (map output_frame delivered ++ [mkFrame EXIT bs]))
  | _ => sent (p_writer s) = w0 ++ concat (map encode (map output_frame delivered))
  end.

Definition code_known s : Prop :=
  match p_phase s with
  | Sending (Some code) _ | Draining code | Reporting code => p_exit s = Some code /\ i32 code
  | _ => True
  end.

Definition output_ok (w0 : list byte) s : Prop :=
  exists delivered, p_produced s = delivered ++ held s ++ queued (p_output s) /\ transcript w0 delivered s.

Record primary_ok (w0 i0 : list byte) s : Prop := {
  pk_produced : Forall (fun c => 0 < len c <= 8192) (p_produced s);
  pk_output : intact s -> output_ok w0 s;
  pk_typed : live s -> typed (input (p_io s)) = i0 ++ typed_by (p_handled s);
  pk_signals : live s -> p_signals s = signals_by (p_handled s) ++
    (if p_control_closed s then signal_child_process_group pid SIGTERM [] else []);
  pk_handling : (exists frame, p_phase s = Handling frame) -> p_control_closed s = false;
  pk_code : code_known s
}.

Lemma typed_by_snoc frames f :
  typed_by (frames ++ [f]) = typed_by frames ++ (if decide (kind f = INPUT) then payload f else []).
Proof. unfold typed_by. by rewrite map_app, concat_app; cbn; rewrite app_nil_r. Qed.

Lemma signals_by_snoc frames f : signals_by (frames ++ [f]) = signals_by frames ++ signals_by [f].
Proof. unfold signals_by. by rewrite map_app, concat_app. Qed.

Lemma signal_group_app x l : signal_child_process_group pid x l = l ++ signal_child_process_group pid x [].
Proof. unfold signal_child_process_group. destruct pid; [done|]. by rewrite app_nil_r. Qed.

Lemma control_frame_ok frame io signals io' signals' :
  handle_primary_control_frame set_winsize pid frame io signals = (Ok tt, io', signals') ->
  typed (input io') = typed (input io) ++ typed_by [frame] /\ signals' = signals ++ signals_by [frame].
Proof.
  unfold handle_primary_control_frame, typed_by, signals_by. cbn. rewrite !app_nil_r.
  destruct (decide (kind frame = INPUT)) as [->|Hi].
  { destruct (RustIo.write_all (input io) (payload frame)) as [[[]|] i] eqn:E; [|done].
    intros [= <- <-]. apply write_all_ok in E. by rewrite decide_False, app_nil_r. }
  destruct (decide (kind frame = SIGNAL)) as [Hs|Hs].
  { destruct (signal_from_slice (payload frame)) as [x|]; [|done]. intros [= <- <-].
    rewrite app_nil_r. by rewrite signal_group_app. }
  rewrite !app_nil_r. destruct (decide (kind frame = RESIZE)); [|by intros [= <- <-]].
  destruct (resize_from_slice (payload frame)) as [x|]; [|done]. unfold resize_primary_pty.
  destruct (set_winsize _ _ _) as [[[]|] p]; [|done]. by intros [= <- <-].
Qed.

(** A session that has not ended. *)
Definition going s : Prop := match p_phase s with Finished _ => False | _ => True end.

Lemma going_live s : going s -> live s /\ intact s.
Proof. unfold going, live, intact. by destruct (p_phase s). Qed.

(** Another phase that holds the same chunks, with another reader and queue. *)
Lemma primary_ok_phase w0 i0 s r c ph :
  let s' := with_phase (with_output (with_reader s r) (p_writer s) c) ph in
  going s -> going s' -> code_known s' ->
  ((exists f, ph = Handling f) -> p_control_closed s = false) ->
  held s ++ queued (p_output s) = held s' ++ queued c ->
  primary_ok w0 i0 s -> primary_ok w0 i0 s'.
Proof.
  intros s' Hs Hs' Hc Hf Hh [Hp Ho Ht Hg _ _]. destruct (going_live _ Hs) as [Hl Hi].
  split; [done|intros _|by intros _; apply Ht|by intros _; apply Hg|done|done].
  destruct (Ho Hi) as (d & Eq & Htr). exists d. split; [by etrans; [exact Eq|rewrite Hh]|].
  unfold going, transcript in *. subst s'. cbn in *. by destruct (p_phase s), ph.
Qed.

Lemma exited_ok w0 i0 s r code :
  p_phase s = Running -> i32 code -> primary_ok w0 i0 s ->
  primary_ok w0 i0 (with_phase (with_exit (with_reader s r) code) (Draining code)).
Proof.
  intros Er Hc [Hp Ho Ht Hs _ _]. destruct (going_live s) as [Hl Hi]; [unfold going; by rewrite Er|].
  split; [done|intros _|by intros _; apply Ht|by intros _; apply Hs|by intros []|done].
  destruct (Ho Hi) as (d & Eq & Htr). exists d. unfold held, transcript in *. by rewrite Er in *.
Qed.

(** A chunk goes from the session to the client. *)
Lemma chunk_sent w0 i0 s exited chunk w :
  p_phase s = Sending exited chunk -> primary_ok w0 i0 s ->
  send_output (p_writer s) chunk = (Ok tt, w) ->
  primary_ok w0 i0 (with_phase (with_output s w (p_output s)) (awaiting exited)).
Proof.
  intros Ep [Hp Ho Ht Hs _ Hc] Ew. destruct (going_live s) as [Hl Hi]; [unfold going; by rewrite Ep|].
  split; [done|intros _|by intros _; apply Ht|by intros _; apply Hs|by intros [f Ef]; destruct exited|].
  - destruct (Ho Hi) as (delivered & Eq & Htr). unfold transcript in Htr. rewrite Ep in Htr.
    apply (send_frame_ok sent) in Ew as [_ Ew]. exists (delivered ++ [chunk]). split.
    + etrans; [exact Eq|]. rewrite <-(assoc_L (++)). unfold held. rewrite Ep. by destruct exited.
    + assert (sent w = w0 ++ concat (map encode (map output_frame (delivered ++ [chunk])))) as Hw.
      { rewrite Ew, Htr, !map_app, concat_app, <-!(assoc_L (++)). cbn [map concat]. by rewrite app_nil_r. }
      by destruct exited.
  - unfold code_known in *. rewrite Ep in Hc. by destruct exited.
Qed.

(** Any other end by an error leaves the output as it was. *)
Lemma primary_ok_failed w0 i0 s s' e :
  primary_ok w0 i0 s -> p_produced s' = p_produced s -> p_phase s' = Finished (Err e) ->
  (intact s' -> going s /\ held s = [] /\ p_writer s' = p_writer s /\ p_output s' = p_output s) ->
  primary_ok w0 i0 s'.
Proof.
  intros [Hp Ho _ _ _ _] E Ef Hs.
  split; [by rewrite E| |unfold live; by rewrite Ef..|by intros [f Ef']; rewrite Ef in Ef'|].
  - intros (Hg & Hh & Hw & Hq)%Hs. destruct (going_live _ Hg) as [_ Hi].
    destruct (Ho Hi) as (d & Eq & Htr). exists d. unfold going, transcript, held in *.
    rewrite E, Hw, Hq, Ef. destruct (p_phase s); try done.
  - unfold code_known. by rewrite Ef.
Qed.

Lemma control_ok w0 i0 s frame io signals :
  primary_ok w0 i0 s -> p_phase s = Handling frame ->
  handle_primary_control_frame set_winsize pid frame (p_io s) (p_signals s) = (Ok tt, io, signals) ->
  primary_ok w0 i0 (with_phase (with_control s io (p_control_closed s) signals [frame]) Running).
Proof.
  intros [Hp Ho Ht Hs Hh _] Er E. apply control_frame_ok in E as [Et ->].
  destruct (going_live s) as [Hl Hi]; [unfold going; by rewrite Er|].
  assert (p_control_closed s = false) as Ec by (apply Hh; eauto).
  split; [done|intros _..|by intros []|done];
    cbn [with_phase with_control p_io p_handled p_signals p_control_closed].
  - destruct (Ho Hi) as (d & Eq & Htr). exists d. unfold held, transcript in *. by rewrite Er in *.
  - rewrite Et, (Ht Hl), typed_by_snoc. unfold typed_by at 2. cbn. by rewrite app_nil_r, (assoc_L (++)).
  - rewrite (Hs Hl), Ec, !app_nil_r, signals_by_snoc. done.
Qed.

Lemma reported_ok w0 i0 s code r w :
  primary_ok w0 i0 s -> p_phase s = Reporting code -> send_exit (p_writer s) code = Ret (r, w) ->
  primary_ok w0 i0
    (with_phase (with_output s w (p_output s)) (Finished (map_err FrameFailed r))).
Proof.
  intros Hok Er. unfold send_exit. destruct (exit_to_vec (mkExit code)) as [bs|] eqn:Ex; [|done].
  destruct (send_frame (p_writer s) EXIT bs) as [[[]|] w1] eqn:Es; intros [= <- <-]; cycle 1.
  { by eapply primary_ok_failed; [exact Hok|..]. }
  destruct Hok as [Hp Ho Ht Hs _ Hc]. destruct (going_live s) as [Hl Hi]; [unfold going; by rewrite Er|].
  apply (send_frame_ok sent) in Es as [Hlen Es].
  split; [done|intros _|by intros _; apply Ht|by intros _; apply Hs|by intros []|done].
  destruct (Ho Hi) as (delivered & Eq & Htr). exists delivered. unfold held, transcript, code_known in *.
  rewrite Er in *. destruct Hc as [Hc1 Hc2].
  split; [done|]. exists code, bs. split_and!; try done. cbn [p_writer with_output with_phase].
  rewrite Es, Htr, map_app, concat_app, (assoc_L (++)). cbn [map concat]. by rewrite app_nil_r.
Qed.

Lemma pty_step_ok w0 i0 s s' : pty_step s s' -> primary_ok w0 i0 s -> primary_ok w0 i0 s'.
Proof.
  intros Hpty [Hp Ho Ht Hs Hh Hc]. destruct Hpty as [s chunk c Hl Ec|s].
  - apply try_send_sent in Ec as (Ec & _). split; [| |done..].
    + cbn. apply Forall_app. split; [done|]. by apply Forall_singleton.
    + intros Hlv. destruct (Ho Hlv) as (d & Eq & Htr). exists d. split; [|done]. cbn.
      by rewrite Eq, Ec, !(assoc_L (++)).
  - split; [by cbn; rewrite app_nil_r| |done..]. intros Hlv.
    destruct (Ho Hlv) as (d & Eq & Htr). exists d. split; [|done]. cbn.
    by rewrite app_nil_r, (proj1 (drop_sender_spec _)).
Qed.

(** The reader does not matter. *)
Lemma primary_ok_reader w0 i0 s r : primary_ok w0 i0 s -> primary_ok w0 i0 (with_reader s r).
Proof. by intros [? ? ? ? ? ?]. Qed.

Lemma closed_ok w0 i0 s r :
  p_phase s = Running -> p_control_closed s = false -> primary_ok w0 i0 s ->
  primary_ok w0 i0 (with_control (with_reader s r) (p_io s) true
    (signal_child_process_group pid SIGTERM (p_signals s)) []).
Proof.
  intros Er Ecl [Hp Ho Ht Hs _ Hc]. destruct (going_live s) as [Hl Hi]; [unfold going; by rewrite Er|].
  split; [done|done|intros _|intros _| |done]; cbn; rewrite ?app_nil_r; [by apply Ht| |].
  - by rewrite (Hs Hl), Ecl, app_nil_r, signal_group_app.
  - intros [f Ef]. cbn in Ef. by rewrite Er in Ef.
Qed.

Lemma primary_step_ok w0 i0 s s' : step s s' -> primary_ok w0 i0 s -> primary_ok w0 i0 s'.
Proof.
  intros Hstep Hok. pose proof (pk_code _ _ _ Hok) as Hcode. unfold code_known in Hcode.
  destruct Hstep as [s s' Hpty|s r chunk c Er _ Ec|s r c Er _ Ec|s code chunk c Er Ec
    |s ex chunk w Er Ew|s ex chunk e w Er Ew|s r f Er Ecl Ef|s f io sg Er Eh|s f e io sg Er Eh
    |s r e Er Ecl Ef|s r st Er _ Hst|s r e Er _|s code Er _|s code r w Er Ew];
    try (assert (going s) as Hg by (unfold going; by rewrite Er); rewrite Er in Hcode).
  - by eapply pty_step_ok.
  - apply recv_some in Ec as [Ec _]. apply primary_ok_phase; try done; [by intros []|].
    unfold held. by rewrite Er, Ec.
  - apply recv_none in Ec as [-> _]. by apply (primary_ok_reader _ _ s r) in Hok as [].
  - apply recv_some in Ec as [Ec _]. apply (primary_ok_phase _ _ s (p_reader s)); try done; [by intros []|].
    unfold held. by rewrite Er, Ec.
  - by apply (chunk_sent _ _ _ _ chunk).
  - eapply primary_ok_failed; [exact Hok|by destruct ex|by destruct ex|by destruct ex].
  - apply (primary_ok_phase _ _ s r (p_output s)); try done. unfold held. by rewrite Er.
  - by apply control_ok.
  - eapply primary_ok_failed; [exact Hok|done|done|]. intros _. unfold held. by rewrite Er.
  - by apply closed_ok.
  - by apply exited_ok.
  - eapply primary_ok_failed; [exact Hok|done|done|]. intros _. unfold held. by rewrite Er.
  - apply (primary_ok_phase _ _ s (p_reader s) (p_output s)); try done; [by intros []|].
    unfold held. by rewrite Er.
  - by eapply reported_ok.
Qed.

Lemma primary_steps_ok w0 i0 s s' : rtc step s s' -> primary_ok w0 i0 s -> primary_ok w0 i0 s'.
Proof. induction 1; eauto using primary_step_ok. Qed.

Lemma primary_start_ok r w i p : primary_ok (sent w) (typed i) (primary_start r w i p).
Proof.
  destruct (channel_new_spec (A := list byte) 16 ltac:(lia)) as (Eq & _).
  split; [constructor|intros _..|by intros []|done]; cbn; rewrite ?app_nil_r; [|done|done].
  exists []. cbn. by rewrite Eq, app_nil_r.
Qed.

(** *** The control stream *)

(** [reads bs frames rest]: [frames] lie in the stream [bs], whole, in order and
    without overlap, and [rest] follows them; bytes between them may be skipped. *)
Inductive reads : list byte -> list Frame -> list byte -> Prop :=
| reads_nil bs : reads bs [] bs
| reads_lost lost bs frames rest : reads bs frames rest -> reads (lost ++ bs) frames rest
| reads_frame f bs frames rest : reads bs frames rest -> reads (encode f ++ bs) (f :: frames) rest.

Lemma reads_app a frames b frames' c : reads a frames b -> reads b frames' c -> reads a (frames ++ frames') c.
Proof. induction 1; intros; [done|constructor; auto|cbn; constructor; auto]. Qed.

Lemma cancelled_reads r r' : cancelled_read r r' -> reads (incoming r) [] (incoming r').
Proof.
  destruct 1 as [n bs r' Hn Er|h0 h1 h2 h3 h4 r1 k length n bs r' Eh _ Hn Er].
  - apply (read_exact_ok incoming) in Er as [-> _]; [|lia]. apply reads_lost, reads_nil.
  - apply (read_exact_ok incoming) in Er as [E _]; [|lia]. apply (read_exact_ok incoming) in Eh as [-> _]; [|done].
    rewrite E. do 2 apply reads_lost. apply reads_nil.
Qed.

(** The frames taken from the stream. *)
Definition taken s : list Frame :=
  p_handled s ++ match p_phase s with Handling f => [f] | _ => [] end.

Definition stream_ok (bs : list byte) s : Prop :=
  live s -> exists rest, reads bs (taken s) rest /\ (p_control_closed s = false -> rest = incoming (p_reader s)).

Lemma stream_interrupted bs s s' r :
  stream_ok bs s -> live s -> interrupted s r -> taken s' = taken s -> p_reader s' = r ->
  p_control_closed s' = p_control_closed s -> stream_ok bs s'.
Proof.
  intros Hs Hl Hi Et Er Ec _. destruct (Hs Hl) as (rest & Hr & Hrest). rewrite Et, Er, Ec.
  unfold interrupted in Hi. destruct (p_control_closed s).
  - by exists rest.
  - exists (incoming r). split; [|done]. rewrite (Hrest eq_refl) in Hr.
    rewrite <-(app_nil_r (taken s)). by eapply reads_app, cancelled_reads.
Qed.

(** The steps that leave the stream alone. *)
Lemma stream_same bs s s' :
  stream_ok bs s -> (live s' -> live s) -> (live s' -> taken s' = taken s) -> p_reader s' = p_reader s ->
  p_control_closed s' = p_control_closed s -> stream_ok bs s'.
Proof. intros Hs Hl Et Er Ec Hl'. rewrite Et, Er, Ec by done. by apply Hs, Hl. Qed.

Lemma stream_step bs s s' : step s s' -> stream_ok bs s -> stream_ok bs s'.
Proof.
  intros Hstep Hok.
  destruct Hstep as [s s' Hpty|s r chunk c Er Hi Ec|s r c Er Hi Ec|s code chunk c Er Ec
    |s ex chunk w Er Ew|s ex chunk e w Er Ew|s r f Er Ecl Ef|s f io sg Er Eh|s f e io sg Er Eh
    |s r e Er Ecl Ef|s r st Er Hi Hst|s r e Er Hi|s code Er Hd|s code r w Er Ew];
    try (assert (live s) as Hlive by (unfold live; by rewrite Er)).
  - destruct Hpty; eapply stream_same; eauto.
  - eapply stream_interrupted; [done|done|exact Hi|unfold taken; cbn; by rewrite Er|done|done].
  - eapply stream_interrupted; [done|done|exact Hi|done..].
  - eapply stream_same; try done. unfold taken. cbn. by rewrite Er.
  - eapply stream_same; try done. unfold taken. cbn. rewrite Er. by destruct ex.
  - by intros [].
  - intros _. destruct (Hok Hlive) as (rest & Hr & Hrest). specialize (Hrest Ecl). subst rest.
    apply (read_frame_async_ok incoming) in Ef. rewrite Ef in Hr. exists (incoming r). split; [|done].
    unfold taken in *. rewrite Er, app_nil_r in Hr. cbn. eapply reads_app; [exact Hr|]. apply reads_frame, reads_nil.
  - eapply stream_same; try done. unfold taken. cbn. by rewrite Er, app_nil_r.
  - by intros [].
  - intros _. destruct (Hok Hlive) as (rest & Hr & _). exists rest. unfold taken in *. cbn. by rewrite app_nil_r.
  - eapply stream_interrupted; [done|done|exact Hi|unfold taken; cbn; by rewrite Er|done|done].
  - by intros [].
  - eapply stream_same; try done. unfold taken. cbn. by rewrite Er.
  - eapply stream_same; try done. unfold taken. cbn. rewrite Er. by destruct r.
Qed.

Lemma stream_steps bs s s' : rtc step s s' -> stream_ok bs s -> stream_ok bs s'.
Proof. induction 1; eauto using stream_step. Qed.

Lemma stream_start r w i p : stream_ok (incoming r) (primary_start r w i p).
Proof. intros _. exists (incoming r). split; [apply reads_nil|done]. Qed.

(** *** The end of the output *)

(** [s1] is where the session stopped waiting for output: no chunk was left; and
    [s] comes later. *)
Definition stopped s0 (code : Z) s1 s : Prop :=
  rtc step s0 s1 /\ p_phase s1 = Draining code /\ queued (p_output s1) = [] /\ rtc step s1 s /\
  p_produced s = p_produced s1 ++ queued (p_output s).

Definition drained s0 s : Prop :=
  match p_phase s with
  | Reporting code => exists s1, stopped s0 code s1 s /\ p_writer s = p_writer s1
  | Finished (Ok _) => exists s1 code, stopped s0 code s1 s /\
      send_exit (p_writer s1) code = Ret (Ok tt, p_writer s)
  | _ => True
  end.

Lemma stopped_pty s0 code s1 s s' : stopped s0 code s1 s -> pty_step s s' -> stopped s0 code s1 s'.
Proof.
  intros (Hbegin & Ep & Eq & Hrun & Epr) Hpty. split_and!; try done.
  { eapply rtc_r; [exact Hrun|]. by apply pr_pty. }
  destruct Hpty as [s chunk c Hl Ec|s]; cbn; rewrite Epr.
  - apply try_send_sent in Ec as (-> & _). by rewrite app_assoc.
  - by rewrite (proj1 (drop_sender_spec _)), app_nil_r.
Qed.

Lemma nothing_ready (c : channel (list byte)) :
  recv c = None \/ (exists c', recv c = Some (None, c')) -> queued c = [].
Proof.
  intros [E|[c' [_ [? _]]%recv_none]]; [|done]. unfold recv in E. destruct (queued c) as [|a rest] eqn:Eq; [done|].
  by destruct (try_recv_ok _ _ _ Eq) as (c1 & E1 & _); rewrite E1 in E.
Qed.

Lemma drained_step s0 s s' : rtc step s0 s -> step s s' -> drained s0 s -> drained s0 s'.
Proof.
  intros Hfrom Hstep Hd. pose proof Hstep as Hstep'. unfold drained in *.
  destruct Hstep as [s s' Hpty|s r chunk c Er Hi Ec|s r c Er Hi Ec|s code chunk c Er Ec
    |s ex chunk w Er Ew|s ex chunk e w Er Ew|s r f Er Ecl Ef|s f io sg Er Eh|s f e io sg Er Eh
    |s r e Er Ecl Ef|s r st Er Hi Hst|s r e Er Hi|s code Er Hn|s code r w Er Ew];
    try (rewrite Er in Hd); cbn; try done.
  - assert (p_phase s' = p_phase s /\ p_writer s' = p_writer s) as [-> ->] by by destruct Hpty.
    destruct (p_phase s) as [| | | |code|[[]|]]; try done.
    + destruct Hd as (s1 & Hst & Ew). exists s1. split; [by eapply stopped_pty|done].
    + destruct Hd as (s1 & code & Hst & Ew). exists s1, code. split; [by eapply stopped_pty|done].
  - by rewrite Er.
  - by destruct ex.
  - by rewrite Er.
  - apply nothing_ready in Hn. exists s. split; [|done]. split_and!; try done; [by apply rtc_once|].
    cbn. by rewrite Hn, app_nil_r.
  - destruct r as [[]|]; [|done]. cbn. destruct Hd as (s1 & (Hbegin & Ep & Eq & Hrun & Epr) & Hw).
    exists s1, code. split; [|by rewrite <-Hw]. split_and!; try done. by eapply rtc_r.
Qed.

Lemma drained_steps s0 s : rtc step s0 s -> drained s0 s0 -> drained s0 s.
Proof. intros Hs Hfrom. revert s Hs. apply rtc_ind_r; [done|]. eauto using drained_step. Qed.

(** Once the payload has exited, its code stays. *)
Definition exited s : Prop :=
  match p_phase s with Running | Handling _ | Sending None _ => False | _ => True end.

Lemma exit_kept s s' : rtc step s s' -> exited s -> p_exit s' = p_exit s.
Proof.
  induction 1 as [|s1 s2 s3 Hstep _ IH]; [done|]. intros He.
  assert (exited s2 /\ p_exit s2 = p_exit s1) as [He2 <-]; [|by apply IH]. unfold exited in *.
  destruct Hstep as [s s' Hpty|s r chunk c Er|s r c Er|s code chunk c Er|s ex chunk w Er|s ex chunk e w Er
    |s r f Er|s f io sg Er|s f e io sg Er|s r e Er|s r st Er|s r e Er|s code Er|s code r w Er];
    try (rewrite Er in He); try done; [by destruct Hpty|by destruct ex..].
Qed.

(** C17 (functional). A primary session that ends without an error has stopped
    waiting for output, after the payload exited, when no chunk was left in the queue;
    it has sent the client exactly the chunks that the terminal had given until then,
    in order, each in a frame of its own, and then the code the payload exited with
    and nothing else. The frames it handled lie in the control stream, whole and in
    order, though bytes between them can be lost; the payload has been given exactly
    their input, in order, and exactly their signals, followed by a SIGTERM if the
    control stream was closed. *)
Theorem primary_session_delivers r w i p s :
  rtc step (primary_start r w i p) s -> p_phase s = Finished (Ok tt) ->
  exists s1 code bs,
    stopped (primary_start r w i p) code s1 s /\
    Forall (fun c => 0 < len c <= 8192) (p_produced s1) /\
    p_exit s1 = Some code /\ p_exit s = Some code /\ exit_to_vec (mkExit code) = Ok bs /\
    sent (p_writer s) =
      sent w ++ concat (map encode (map output_frame (p_produced s1) ++ [mkFrame EXIT bs])) /\
    (exists rest, reads (incoming r) (p_handled s) rest) /\
    typed (input (p_io s)) = typed i ++ typed_by (p_handled s) /\
    p_signals s = signals_by (p_handled s) ++
      (if p_control_closed s then signal_child_process_group pid SIGTERM [] else []).
Proof.
  intros Hs Ep. pose proof (drained_steps _ _ Hs Logic.I) as Hd. unfold drained in Hd. rewrite Ep in Hd.
  destruct Hd as (s1 & code & Hst & Ew). pose proof Hst as (Hbegin & Ep1 & Eq1 & Hrun & _).
  destruct (primary_steps_ok _ _ _ _ Hbegin (primary_start_ok r w i p)) as [Hp1 Ho1 _ _ _ Hc1].
  destruct (primary_steps_ok _ _ _ _ Hs (primary_start_ok r w i p)) as [_ Ho Ht Hg _ _].
  assert (live s /\ intact s) as [Hl Hi] by (unfold live, intact; by rewrite Ep).
  destruct (stream_steps _ _ _ Hs (stream_start r w i p) Hl) as (rest & Hr & _).
  destruct Ho1 as (d & Ed & Htr); [unfold intact; by rewrite Ep1|].
  unfold held, transcript, code_known, taken in *. rewrite Ep1 in *. rewrite Ep, app_nil_r in *.
  rewrite Eq1 in Ed. cbn in Ed. rewrite app_nil_r in Ed. subst d. destruct Hc1 as [Hc1 _].
  unfold send_exit in Ew. destruct (exit_to_vec (mkExit code)) as [bs|] eqn:Ex; [|done].
  destruct (send_frame (p_writer s1) EXIT bs) as [r1 w1] eqn:Es. injection Ew as -> ->.
  apply (send_frame_ok sent) in Es as [_ Es].
  assert (p_exit s = Some code) as Hcode by (rewrite (exit_kept s1 s Hrun); [done|unfold exited; by rewrite Ep1]).
  exists s1, code, bs. split_and!; eauto.
  rewrite Es, Htr, map_app, concat_app, (assoc_L (++)). cbn [map concat]. by rewrite app_nil_r.
Qed.

Lemma cancelled_after_header r f rest :
  frame_ok f -> 0 < len (payload f) -> incoming r = encode f ++ rest ->
  exists r', cancelled_read r r' /\ incoming r' = payload f ++ rest.
Proof.
  intros Hf Hp Hin.
  destruct (read_header_encoded incoming r f rest Hf Hin) as (h0 & h1 & h2 & h3 & h4 & r1 & E1 & Ed & I1).
  pose proof (len_nonneg (incoming r1)).
  destruct (read_exact_full r1 0) as (r2 & E2 & I2); [lia|].
  exists r2. split; [|by rewrite I2, I1]. eapply cancelled_payload; [exact E1|exact Ed| |exact E2]. lia.
Qed.

(** C40 (error). When a chunk of output is ready while an input frame has arrived
    only in part, the bytes read so far are lost: if that was the header, the
    session goes on with the payload, and a frame that the user's input contains
    is handled as a control frame. *)
Theorem interrupted_frame_misread s f rest chunk c w io signals :
  p_phase s = Running -> p_control_closed s = false ->
  frame_ok f -> frame_ok (mkFrame INPUT (encode f)) ->
  incoming (p_reader s) = encode (mkFrame INPUT (encode f)) ++ rest ->
  recv (p_output s) = Some (Some chunk, c) -> send_output (p_writer s) chunk = (Ok tt, w) ->
  handle_primary_control_frame set_winsize pid f (p_io s) (p_signals s) = (Ok tt, io, signals) ->
  exists s', rtc step s s' /\ p_handled s' = p_handled s ++ [f] /\ p_signals s' = signals /\
    p_io s' = io /\ incoming (p_reader s') = rest.
Proof.
  intros Er Ec Hf Hi Hin Hr Hw Hh.
  destruct (cancelled_after_header (p_reader s) _ rest Hi) as (r1 & Hc & I1); [|done|].
  { unfold encode. cbn [payload app]. rewrite len_cons.
    pose proof (len_nonneg (to_be32 (wrap32 (len (payload f))) ++ payload f)). lia. }
  destruct (read_frame_async_encoded incoming r1 f rest Hf I1) as (r2 & E2 & I2).
  pose (s1 := with_phase (with_output (with_reader s r1) (p_writer s) c) (Sending None chunk)).
  pose (s2 := with_phase (with_output s1 w c) Running).
  pose (s3 := with_phase (with_reader s2 r2) (Handling f)).
  exists (with_phase (with_control s3 io (p_control_closed s3) signals [f]) Running).
  split; [|done]. apply rtc_l with s1; [|apply rtc_l with s2; [|apply rtc_l with s3; [|apply rtc_once]]].
  - apply pr_output; [done| |done]. unfold interrupted. by rewrite Ec.
  - by apply (pr_sent _ _ s1 None chunk).
  - by apply pr_frame.
  - by apply (pr_handled _ _ s3 f).
Qed.

Lemma finished_step s s' r :
  step s s' -> p_phase s = Finished r -> p_phase s' = Finished r /\ p_signals s' = p_signals s.
Proof.
  intros Hstep Ef. destruct Hstep as [s s' Hpty| | | | | | | | | | | | | ]; try congruence.
  by destruct Hpty.
Qed.

Lemma finished_steps s s' r :
  rtc step s s' -> p_phase s = Finished r -> p_signals s' = p_signals s.
Proof.
  induction 1 as [|s1 s2 s3 H12 _ IH]; [done|]. intros Ef.
  destruct (finished_step _ _ _ H12 Ef) as [Ef2 <-]. by apply IH.
Qed.

(** A control frame the service cannot read ends the session with an
    error and leaves the payload alone: neither then nor later is it sent a
    signal, while it runs on without a client. *)
Theorem invalid_control_abandons s f rest e :
  p_phase s = Running -> p_control_closed s = false ->
  frame_ok f -> incoming (p_reader s) = encode f ++ rest ->
  kind f = SIGNAL -> signal_from_slice (payload f) = Err e ->
  exists s', rtc step s s' /\ p_phase s' = Finished (Err (PayloadRequestJson e)) /\
    forall s'', rtc step s' s'' -> p_signals s'' = p_signals s.
Proof.
  intros Er Ec Hf Hin Hk He.
  destruct (read_frame_async_encoded incoming (p_reader s) f rest Hf Hin) as (r & Erd & _).
  pose (s1 := with_phase (with_reader s r) (Handling f)).
  exists (with_phase (with_control s1 (p_io s) (p_control_closed s1) (p_signals s) [])
    (Finished (Err (PayloadRequestJson e)))).
  split; [|split; [done|]].
  - apply rtc_l with s1; [by apply pr_frame|]. apply rtc_once, (pr_handle_failed _ _ s1 f); [done|].
    unfold handle_primary_control_frame. rewrite Hk, He. done.
  - intros s'' Hs. by rewrite (finished_steps _ _ _ Hs eq_refl).
Qed.

End PrimaryFacts.

(** ** Diagnostics *)

Section DiagnosticFacts.
Context {W O : Type} `{AsyncWriter W io_error} `{Read O}.
Context (sent : W -> list byte) `{!AsyncWriterLaws W io_error sent}.
Context (pid : option Z) (max : Z).
Local Notation diagnostic := (diagnostic (W := W) (O := O)).
Local Notation step := (diag_step pid max).
Implicit Types d : diagnostic.

(** What the reader of the report is told besides the output. *)
Definition report_code d (status : option Z) : Z :=
  if dg_timed_out d then 124 else if dg_truncated d then 125 else exit_code_from_status status.

Definition notice (d : diagnostic) : list Frame :=
  if dg_timed_out d then [mkFrame OUTPUT ([Byte.x0a] ++ str_bytes "agentvm diagnostic timed out" ++ [Byte.x0a])]
  else if dg_truncated d
  then [mkFrame OUTPUT ([Byte.x0a] ++ str_bytes "agentvm diagnostic output limit exceeded" ++ [Byte.x0a])]
  else [].

(** The output sent is what was read, cut off at the limit; [tail] follows it. *)
Definition told (w0 : list byte) d (tail : list Frame) : Prop :=
  exists out, Forall (fun f => kind f = OUTPUT) out /\
    concat (map payload out) = ztake max (concat (dg_read d)) /\
    sent (dg_writer d) = w0 ++ concat (map encode (out ++ tail)).

Definition verdict d : Prop :=
  dg_truncated d = (max <? len (concat (dg_read d))) /\
  dg_timed_out d && dg_truncated d = false /\
  dg_signals d =
    if dg_timed_out d || dg_truncated d then signal_child_process_group pid SIGKILL [] else [].

Definition reading d : Prop :=
  dg_sent d = len (concat (dg_read d)) /\ len (concat (dg_read d)) <= max /\
  dg_timed_out d = false /\ dg_truncated d = false /\ dg_signals d = [].

Definition diag_ok (w0 : list byte) d : Prop :=
  match dg_phase d with
  | Reading => told w0 d [] /\ reading d
  | Waiting => told w0 d [] /\ verdict d
  | Ended (Ok _) => verdict d /\ exists status bs,
      diagnostic_exit_to_vec (mkDiagnosticExit (report_code d status) (dg_timed_out d) (dg_truncated d)) = Ok bs /\
      told w0 d (notice d ++ [mkFrame EXIT bs])
  | Ended (Err _) => True
  end.

Lemma read_chunk_ok w0 d chunk :
  dg_phase d = Reading -> diag_ok w0 d -> diag_ok w0 (read_chunk pid max d chunk).
Proof.
  unfold diag_ok at 1. intros Ep. rewrite Ep. intros [(out & Hk & Ho & Hs) (Es & Hm & Ht & Hc & Hg)].
  unfold read_chunk. pose proof (len_nonneg (concat (dg_read d))) as Hn. rewrite Es.
  destruct (write_diagnostic_output _ _ _ _) as [[[b|e] w'] n'] eqn:E; [|done].
  apply (write_diagnostic_output_ok sent) in E as (-> & -> & out' & _ & Hk' & Ho' & Hs'); [|lia].
  set (n := len (concat (dg_read d))) in *. rewrite Z.add_simpl_l in *.
  assert (len (concat (dg_read d ++ [chunk])) = n + len chunk) as El
    by (rewrite concat_app, len_app; cbn; by rewrite app_nil_r).
  assert (forall d', dg_read d' = dg_read d ++ [chunk] -> dg_writer d' = w' -> told w0 d' []) as Htold.
  { intros d' Er Ew. exists (out ++ out'). split; [by apply Forall_app|]. rewrite Er, Ew, Hs', Hs. split.
    - rewrite map_app, concat_app, Ho, Ho', concat_app. cbn. rewrite app_nil_r.
      rewrite (ztake_all max (concat (dg_read d))) by lia. rewrite ztake_app_ge by lia. f_equal.
      destruct (Z.le_gt_cases (max - n) (len chunk)); [by rewrite Z.min_l by lia|].
      rewrite Z.min_r, !ztake_all by lia. done.
    - rewrite !app_nil_r, map_app, concat_app. by rewrite (assoc_L (++)). }
  destruct (Z.min (max - n) (len chunk) <? len chunk) eqn:Et; b2p.
  - split; [by apply Htold|]. split_and!; cbn; rewrite ?El, ?Ht, ?Hg; [|done|done].
    symmetry. apply Z.ltb_lt. lia.
  - unfold diag_ok. cbn. rewrite Ep. split; [by apply Htold|]. split_and!; cbn; [|lia|done..]. rewrite El. lia.
Qed.

Lemma send_all_ok w w1 w2 p k bs :
  send_output w p = (Ok tt, w1) -> send_frame w1 k bs = (Ok tt, w2) ->
  sent w2 = sent w ++ concat (map encode [mkFrame OUTPUT p; mkFrame k bs]).
Proof.
  intros [_ E1]%(send_frame_ok sent) [_ E2]%(send_frame_ok sent).
  rewrite E2, E1. cbn [map concat]. by rewrite app_nil_r, (assoc_L (++)).
Qed.

Lemma finish_sent d status r w :
  finish_diagnostic d status = Ret (r, w) ->
  match r with
  | Ok _ => exists bs,
      diagnostic_exit_to_vec (mkDiagnosticExit (report_code d status) (dg_timed_out d) (dg_truncated d)) = Ok bs /\
      sent w = sent (dg_writer d) ++ concat (map encode (notice d ++ [mkFrame EXIT bs]))
  | Err _ => True
  end.
Proof.
  unfold finish_diagnostic, report_code, notice, send_diagnostic_exit.
  destruct r as [[]|]; [|done]. destruct (dg_timed_out d); [|destruct (dg_truncated d)].
  1, 2: destruct (send_output _ _) as [[[]|] w1] eqn:E1; [|done];
    destruct (diagnostic_exit_to_vec _) as [bs|] eqn:Ex; [|done];
    intros [= E2]; exists bs; split; [done|]; by eapply send_all_ok.
  destruct (diagnostic_exit_to_vec _) as [bs|] eqn:Ex; [|done].
  intros [= E2]; exists bs; split; [done|]. apply (send_frame_ok sent) in E2 as [_ ->].
  cbn. by rewrite app_nil_r.
Qed.

Lemma told_tail w0 d d' tail :
  told w0 d [] -> dg_read d' = dg_read d ->
  sent (dg_writer d') = sent (dg_writer d) ++ concat (map encode tail) -> told w0 d' tail.
Proof.
  intros (out & Hk & Ho & Hs) Er Ew. exists out. rewrite Er, Ew, Hs, app_nil_r.
  split; [done|]. split; [done|]. by rewrite map_app, concat_app, (assoc_L (++)).
Qed.

Lemma diag_step_ok w0 d d' : step d d' -> diag_ok w0 d -> diag_ok w0 d'.
Proof.
  intros Hstep. destruct Hstep as [d Ep Hl|d Ep Hl Ht Htr|d bs o Ep Hl Hd Hr|d e o Ep Hl Hd Hr
    |d bs o Ep Hl Hd Hr|d e o Ep Hl Hd Hr|d status r w Ep Hf|d e Ep]; intros Hok.
  1, 2: unfold diag_ok in *; rewrite Ep in Hok; destruct Hok as [Htold (Es & Hm & Hto & Hc & Hg)];
    split; [exact Htold|]; split_and!; cbn; rewrite ?Hto, ?Hc, ?Hg; try done;
    symmetry; apply Z.ltb_ge; done.
  - case_decide; [exact Hok|]. by apply read_chunk_ok.
  - done.
  - case_decide; [exact Hok|]. by apply read_chunk_ok.
  - done.
  - unfold diag_ok in *. rewrite Ep in Hok. destruct Hok as [Htold Hv].
    apply finish_sent in Hf. destruct r as [[]|]; [|done]. cbn. split; [done|].
    destruct Hf as (bs & Ex & Es). exists status, bs. split; [done|]. by eapply told_tail.
  - done.
Qed.

Lemma diag_steps_ok w0 d d' : rtc step d d' -> diag_ok w0 d -> diag_ok w0 d'.
Proof. induction 1; eauto using diag_step_ok. Qed.

Lemma diagnostic_start_ok w o e : 0 <= max -> diag_ok (sent w) (diagnostic_start w o e).
Proof.
  intros Hm. split; [|by split_and!]. exists []. cbn. rewrite app_nil_r, ztake_all by done.
  repeat split; constructor.
Qed.

Lemma escaped_step d d' :
  step d d' -> loop_over d = true \/ dg_phase d <> Reading ->
  (loop_over d' = true \/ dg_phase d' <> Reading) /\ dg_timed_out d' = dg_timed_out d /\
  dg_signals d' = dg_signals d.
Proof.
  intros Hstep He. destruct Hstep as [d Ep Hl|d Ep Hl|d bs o Ep Hl|d e o Ep Hl|d bs o Ep Hl|d e o Ep Hl
    |d status r w Ep Hf|d e Ep]; try (by destruct He; congruence);
  (split; [by right|done]).
Qed.

Lemma escaped_steps d d' :
  rtc step d d' -> loop_over d = true \/ dg_phase d <> Reading ->
  dg_timed_out d' = dg_timed_out d /\ dg_signals d' = dg_signals d.
Proof.
  induction 1 as [|d1 d2 d3 H12 _ IH]; [done|]. intros He.
  destruct (escaped_step _ _ H12 He) as (He' & <- & <-). by apply IH.
Qed.

(** The deadline of a diagnostic holds only while it reads output: a
    script that has closed both its pipes is never stopped, whatever time it
    takes. *)
Theorem closed_pipes_escape_deadline d d' :
  stdout_done d = true -> stderr_done d = true -> rtc step d d' ->
  dg_timed_out d' = dg_timed_out d /\ dg_signals d' = dg_signals d.
Proof.
  intros Ho He Hs. apply (escaped_steps _ _ Hs). left. unfold loop_over. by rewrite Ho, He.
Qed.

End DiagnosticFacts.

Section DiagnosticTheorems.
Context {W O : Type} `{AsyncWriter W io_error} `{Read O}.
Context (sent : W -> list byte) `{!AsyncWriterLaws W io_error sent}.
Context (pid : option Z).

(** C19 (bounds). A diagnostic that completes sends its client the output of the
    script in the order it was read, up to the limit asked for and to 4 MiB in
    any case, then a notice if it was stopped, then its exit report. It is
    reported as truncated exactly when it gave more than the limit, its exit code
    is then 125, or 124 when the time was over, and it is killed exactly in these
    two cases. *)
Theorem diagnostic_output_bounded requested w (o e : O) d :
  0 <= requested ->
  let max := bounded_diagnostic_output requested in
  rtc (diag_step pid max) (diagnostic_start w o e) d -> dg_phase d = Ended (Ok tt) ->
  max <= MAX_DIAGNOSTIC_OUTPUT_BYTES /\
  (exists out status bs,
    Forall (fun f => kind f = OUTPUT) out /\
    concat (map payload out) = ztake max (concat (dg_read d)) /\
    diagnostic_exit_to_vec (mkDiagnosticExit (report_code d status) (dg_timed_out d) (dg_truncated d)) = Ok bs /\
    sent (dg_writer d) = sent w ++ concat (map encode (out ++ notice d ++ [mkFrame EXIT bs]))) /\
  dg_truncated d = (max <? len (concat (dg_read d))) /\
  dg_signals d =
    if dg_timed_out d || dg_truncated d then signal_child_process_group pid SIGKILL [] else [].
Proof.
  intros Hq max Hs Ep.
  assert (0 <= max <= MAX_DIAGNOSTIC_OUTPUT_BYTES) as Hm.
  { unfold max, bounded_diagnostic_output, DEFAULT_DIAGNOSTIC_OUTPUT_BYTES, MAX_DIAGNOSTIC_OUTPUT_BYTES.
    case_test; lia. }
  pose proof (diag_steps_ok sent _ _ _ _ _ Hs (diagnostic_start_ok sent pid max w o e (proj1 Hm))) as Hok.
  unfold diag_ok in Hok. rewrite Ep in Hok.
  destruct Hok as ((Hv1 & _ & Hv3) & status & bs & Ex & out & Hk & Ho & Hw).
  split; [lia|]. split; [|done]. by exists out, status, bs.
Qed.

End DiagnosticTheorems.

(** ** Admission *)

Section AdmissionFacts.
Context {W : Type} `{AsyncWriter W io_error}.
Context (show_frame_error : AsyncFrameError io_error -> list byte) (l : GuestServiceLimits).
Local Notation step := (service_step (W := W) show_frame_error).

(** The number of sessions in a stage. *)
Definition count (P : stage -> bool) (m : gmap nat stage) : Z :=
  len (filter (fun kv => P kv.2 = true) (map_to_list m)).

Definition any_stage (g : stage) : bool := true.
Definition in_primary (g : stage) : bool := match g with InPrimary _ => true | _ => false end.
Definition in_diagnostic (g : stage) : bool := match g with InDiagnostic _ => true | _ => false end.

Lemma count_empty P : count P ∅ = 0.
Proof. unfold count. by rewrite map_to_list_empty. Qed.

Lemma count_insert P m i g :
  m !! i = None -> count P (<[i := g]> m) = count P m + (if P g then 1 else 0).
Proof.
  intros Hi. unfold count, len. rewrite (map_to_list_insert m i g Hi), filter_cons. cbn [snd].
  destruct (P g) eqn:E; [rewrite decide_True by done|rewrite decide_False by done]; cbn [length]; lia.
Qed.

Lemma count_delete P m i g :
  m !! i = Some g -> count P (delete i m) = count P m - (if P g then 1 else 0).
Proof.
  intros Hi. rewrite <-(insert_delete_id m i g Hi) at 2.
  rewrite count_insert by apply lookup_delete_eq. lia.
Qed.

Lemma count_replace P m i g g' :
  m !! i = Some g ->
  count P (<[i := g']> m) = count P m - (if P g then 1 else 0) + (if P g' then 1 else 0).
Proof.
  intros Hi. rewrite <-insert_delete_eq, count_insert by apply lookup_delete_eq.
  by rewrite (count_delete P m i g Hi).
Qed.

(** Every permit is free or belongs to a session. *)
Definition admission_ok (s : service) : Prop :=
  limits (state s) = l /\
  0 <= clients (state s) /\ clients (state s) + count any_stage (sessions s) = max_clients l /\
  0 <= diagnostics (state s) /\
  diagnostics (state s) + count in_diagnostic (sessions s) = max_diagnostics l /\
  count in_primary (sessions s) = (if primary_active (state s) then 1 else 0).

Lemma first_frame_state st w frame n st' w' :
  first_frame (W := W) show_frame_error st w frame = (n, st', w') ->
  match n with
  | Done _ => st' = st
  | RunPrimary _ => primary_active st = false /\
      st' = mkState true (diagnostics st) (clients st) (limits st)
  | RunDiagnostic _ => 0 < diagnostics st /\
      st' = mkState (primary_active st) (diagnostics st - 1) (clients st) (limits st)
  end.
Proof.
  unfold first_frame, handle_primary_request, handle_diagnostic_request, try_start_primary,
    try_start_diagnostic, try_acquire, refuse, send_failure. intros Hf.
  repeat (case_match; simplify_eq/=; b2p); done.
Qed.

Lemma admission_step_ok s s' : step s s' -> admission_ok s -> admission_ok s'.
Proof.
  intros Hstep (Hl & Hc0 & Hc & Hd0 & Hd & Hp).
  destruct Hstep as [s st i Hi E|s e E|s i w frame r st w' Hi E|s i w frame req st w' Hi E
    |s i w frame req st w' Hi E|s i g Hi].
  - unfold try_acquire_client, try_acquire in E.
    destruct (clients (state s) >? 0) eqn:Et; [|done]. injection E as <-. b2p.
    split_and!; cbn; rewrite ?count_insert by done; cbn; try done; lia.
  - done.
  - apply first_frame_state in E as ->. unfold drop_client, release.
    split_and!; cbn; rewrite ?(count_delete _ _ _ _ Hi); cbn; try done; lia.
  - apply first_frame_state in E as [E ->]. rewrite E in Hp.
    split_and!; cbn; rewrite ?(count_replace _ _ _ _ _ Hi); cbn; try done; lia.
  - apply first_frame_state in E as [E ->].
    split_and!; cbn; rewrite ?(count_replace _ _ _ _ _ Hi); cbn; try done; lia.
  - assert (0 <= count in_primary (delete i (sessions s))) as Hn by apply len_nonneg.
    rewrite (count_delete _ _ _ _ Hi) in Hn.
    unfold drop_stage, drop_client, drop_primary, drop_diagnostic, release.
    destruct g; split_and!; cbn in *; rewrite ?(count_delete _ _ _ _ Hi); cbn; try done; try lia.
    destruct (primary_active (state s)); lia.
Qed.

Lemma admission_steps_ok s s' : rtc step s s' -> admission_ok s -> admission_ok s'.
Proof. induction 1; eauto using admission_step_ok. Qed.

(** C18 (invariant). However clients come and go, the service has at most as many
    sessions and diagnostics as its limits allow and at most one primary payload.
    No permit is lost: those that are free and those in use add up to the limits,
    and a primary payload is accepted exactly when there is no primary session. *)
Theorem admission_bounded s :
  0 <= max_clients l -> 0 <= max_diagnostics l -> rtc step (service_new l) s ->
  count any_stage (sessions s) <= max_clients l /\
  count in_diagnostic (sessions s) <= max_diagnostics l /\
  count in_primary (sessions s) <= 1 /\
  clients (state s) = max_clients l - count any_stage (sessions s) /\
  diagnostics (state s) = max_diagnostics l - count in_diagnostic (sessions s) /\
  (is_Some (try_start_primary (state s)) <-> count in_primary (sessions s) = 0).
Proof.
  intros Hc Hd Hs. destruct (admission_steps_ok _ _ Hs) as (_ & ? & ? & ? & ? & Hp).
  { split_and!; cbn; rewrite ?count_empty; done || lia. }
  unfold try_start_primary. rewrite Hp.
  destruct (primary_active (state s)); split_and!; try lia; (split; [by intros []|done]) || by split.
Qed.

End AdmissionFacts.

(** ** The bridge *)

Section BridgeFacts.
Context {C D : Type} `{Read C} `{Write C} `{Read D} `{Write D}.
Context (shutdown_client : C -> C) (shutdown_docker : D -> D).
Context (received_c sent_c : C -> list byte) `{!DuplexLaws C received_c sent_c}.
Context (received_d sent_d : D -> list byte) `{!DuplexLaws D received_d sent_d}.
(** Shutting down sends no bytes. *)
Definition quiet {A : Type} (received sent : A -> list byte) (shutdown : A -> A) : Prop :=
  forall a, received (shutdown a) = received a /\ sent (shutdown a) = sent a.
Context (quiet_c : quiet received_c sent_c shutdown_client).
Context (quiet_d : quiet received_d sent_d shutdown_docker).
Local Notation step := (bridge_step shutdown_client shutdown_docker).

(** All that was read on one connection was written to the other, and counted. *)
Definition carried (b : bridge) : Prop :=
  sent_d (docker b) = received_c (client b) /\ sent_c (client b) = received_d (docker b) /\
  client_to_docker (stats b) = len (received_c (client b)) /\
  docker_to_client (stats b) = len (received_d (docker b)).

Definition bridge_ok (b : bridge) : Prop :=
  match bridge_end b with
  | Some (Err _) => True
  | Some (Ok st) => st = stats b /\ carried b
  | None => carried b
  end.

Lemma bridge_step_ok b b' : step b b' -> bridge_ok b -> bridge_ok b'.
Proof.
  unfold bridge_ok. intros Hstep.
  destruct Hstep as [b c' [En _] _ Er|b bs c' d' [En _] _ Er _ Ew|b r c' d' e [En _]
    |b d' [En _] _ Er|b bs c' d' [En _] _ Er _ Ew|b r c' d' e [En _]|b [En _]|b En _];
    rewrite En; intros Hc; cbn; try done; destruct Hc as (Q1 & Q2 & Q3 & Q4); unfold carried; cbn;
    try (pose proof (read_keeps_sent _ _ _ _ Er) as Ks; apply read_ok in Er as [_ Er]; [|lia]);
    try (pose proof (write_all_keeps_received _ _ _ _ Ew) as Kr; apply write_all_ok in Ew).
  - destruct (quiet_d (docker b)) as [Qr Qs]. rewrite app_nil_r in Er. by rewrite Qr, Qs, Ks, Er.
  - rewrite Ks, Kr, Er, Ew, Q1, len_app. auto with lia.
  - destruct (quiet_c (client b)) as [Qr Qs]. rewrite app_nil_r in Er. by rewrite Qr, Qs, Ks, Er.
  - rewrite Ks, Kr, Er, Ew, Q2, len_app. auto with lia.
Qed.

(** A connection that was just made has neither received nor sent anything. *)
Context (accepted : C -> Prop) (connected : D -> Prop).
Context (accepted_fresh : forall c, accepted c -> received_c c = [] /\ sent_c c = []).
Context (connected_fresh : forall d, connected d -> received_d d = [] /\ sent_d d = []).
Local Notation service_step := (bridge_service_step shutdown_client shutdown_docker accepted connected).

Definition session_ok (x : bridge_session) : Prop :=
  match x with Connecting c => accepted c | Bridging b => bridge_ok b end.

Definition bridges_ok (l : DockerBridgeLimits) (s : bridge_service) : Prop :=
  0 <= permits s /\ permits s + Z.of_nat (size (bridges s)) = max_sessions l /\
  map_Forall (fun _ x => session_ok x) (bridges s).

Lemma bridge_start_ok c d : accepted c -> connected d -> bridge_ok (bridge_start c d).
Proof.
  intros [Rc Sc]%accepted_fresh [Rd Sd]%connected_fresh. unfold bridge_ok, carried. cbn. by rewrite Rc, Sc, Rd, Sd.
Qed.

Lemma bridge_service_step_ok l s s' : service_step s s' -> bridges_ok l s -> bridges_ok l s'.
Proof.
  unfold try_acquire, release. intros Hstep (Hp & Hn & Hb).
  destruct Hstep as [s i c n Hi Ha E|s E|s i c d Hi Hd|s i c Hi|s i b b' Hi Hs|s i b r Hi E];
    [|done|..]; unfold bridges_ok; cbn;
    rewrite ?map_size_insert, ?map_size_delete, ?Hi; cbn.
  - unfold try_acquire in E. destruct (permits s >? 0) eqn:Et; [|done]. injection E as <-. b2p.
    split_and!; [lia|lia|]. by apply map_Forall_insert_2.
  - split_and!; [done|done|]. apply map_Forall_insert_2; [|done].
    apply bridge_start_ok; [|done]. exact (Hb _ _ Hi).
  - assert (size (bridges s) <> 0%nat) by (intros E0%map_size_empty_inv; by rewrite E0 in Hi).
    unfold release. split_and!; [lia|lia|]. by apply map_Forall_delete.
  - split_and!; [done|done|]. apply map_Forall_insert_2; [|done].
    eapply bridge_step_ok; [exact Hs|]. exact (Hb _ _ Hi).
  - assert (size (bridges s) <> 0%nat) by (intros E0%map_size_empty_inv; by rewrite E0 in Hi).
    unfold release. split_and!; [lia|lia|]. by apply map_Forall_delete.
Qed.

Lemma bridge_service_steps_ok l s s' : rtc service_step s s' -> bridges_ok l s -> bridges_ok l s'.
Proof. induction 1; eauto using bridge_service_step_ok. Qed.

(** C21 (invariant). The service for the Docker socket never has more sessions
    than its limit, and no permit is lost. As long as no call of a bridge fails,
    exactly the bytes that it has received from its client since it accepted the
    connection have been sent to Docker, in order, and exactly those received from
    Docker to the client; and what it reports at its end, after an idle time too, is
    how many went each way. *)
Theorem docker_bridge_safe l s :
  0 <= max_sessions l -> rtc service_step (bridge_service_new l) s ->
  Z.of_nat (size (bridges s)) = max_sessions l - permits s /\
  Z.of_nat (size (bridges s)) <= max_sessions l /\
  forall i b, bridges s !! i = Some (Bridging b) -> (forall e, bridge_end b <> Some (Err e)) ->
    sent_d (docker b) = received_c (client b) /\ sent_c (client b) = received_d (docker b) /\
    forall st, bridge_end b = Some (Ok st) ->
      client_to_docker st = len (received_c (client b)) /\ docker_to_client st = len (received_d (docker b)).
Proof.
  intros Hl Hs. assert (bridges_ok l s) as (Hp & Hn & Hb).
  { apply (bridge_service_steps_ok _ _ _ Hs).
    split_and!; cbn; [done|rewrite map_size_empty; lia|]. apply map_Forall_empty. }
  split_and!; [lia|lia|]. intros i b Hi Ee. pose proof (Hb _ _ Hi) as Hok. cbn in Hok. unfold bridge_ok in Hok.
  destruct (bridge_end b) as [[st|e]|] eqn:E; [|by destruct (Ee e)|].
  - destruct Hok as [-> (? & ? & ? & ?)]. split_and!; try done. by intros st [= <-].
  - destruct Hok as (? & ? & _). by split_and!.
Qed.

End BridgeFacts.

Section ConnectFacts.
Context {K U : Type} (connect : K -> string -> io_result U * K) (now : K -> Z) (sleep : K -> Z -> K).
(** Time does not go back, and a sleep takes at least as long as asked for. *)
Context (connect_clock : forall k p, now k <= now (connect k p).2).
Context (sleep_clock : forall k d, now k + d <= now (sleep k d)).

Lemma connect_loop_ends fuel k path deadline :
  (0 < fuel)%nat -> deadline - now k <= 50 * (Z.of_nat fuel - 1) ->
  exists r k', connect_loop connect now sleep fuel k path deadline = Ret (r, k') /\
    match r with Ok _ => True | Err _ => deadline <= now k' end.
Proof.
  revert k. induction fuel as [|fuel IH]; intros k Hf Hd; [lia|]. cbn [connect_loop].
  pose proof (connect_clock k path) as Hc. destruct (connect k path) as [[u|e] k1]; [by exists (Ok u), k1|]. cbn in Hc.
  destruct (deadline <=? now k1) eqn:Et; b2p;
    [by eexists (Err _), k1|]. pose proof (sleep_clock k1 DOCKER_BRIDGE_CONNECT_RETRY_INTERVAL) as Hs.
  unfold DOCKER_BRIDGE_CONNECT_RETRY_INTERVAL in *. apply IH; lia.
Qed.

(** Connecting to the Docker socket ends, and it gives up only
    after the whole timeout. *)
Theorem docker_connect_ends k path timeout :
  0 <= timeout ->
  exists r k', connect_docker_bridge_socket connect now sleep k path timeout = Ret (r, k') /\
    match r with Ok _ => True | Err _ => now k + timeout <= now k' end.
Proof.
  intros Ht. unfold connect_docker_bridge_socket, connect_fuel. apply connect_loop_ends; [lia|].
  unfold DOCKER_BRIDGE_CONNECT_RETRY_INTERVAL. pose proof (Z.mod_pos_bound timeout 50 eq_refl).
  pose proof (Z.div_mod timeout 50). lia.
Qed.

End ConnectFacts.

End Facts.

(** ** Witnesses *)

#[local] Existing Instance Messages.bits_json.

(** Streams that are lists of bytes, and a terminal without a size. *)
#[local] Instance bytes_reader : AsyncReader (list byte) io_error :=
  fun r n => if n <=? len r then (Ok (ztake n r), zdrop n r) else (Err (OsError EINVAL), []).
#[local] Instance bytes_writer : AsyncWriter (list byte) io_error := fun w bs => (Ok tt, w ++ bs).
#[local] Instance bytes_reader_laws : AsyncReaderLaws (list byte) io_error id.
Proof.
  split; intros r n Hn; unfold read_exact, bytes_reader, id in *; case_test; try lia; eauto.
Qed.
#[local] Instance bytes_writer_laws : AsyncWriterLaws (list byte) io_error id.
Proof. intros w bs w' Hw. by injection Hw as <-. Qed.

Definition any_size (p : unit) (rows cols : Z) : io_result unit * unit := (Ok tt, p).

(** The client types one character; the payload prints one and exits with 0. *)
Definition typed_x : Frame := mkFrame INPUT [Byte.x78].

Local Notation demo_primary :=
  (primary (R := list byte) (W := list byte) (I := sink) (P := unit)).

Definition demo_io : PrimaryProcessIo (I := sink) (P := unit) := mkProcessIo (mkSink 9 [Byte.x78]) tt.
Definition demo_output : channel (list byte) := (try_send (channel_new 16) [Byte.x79]).2.
Definition demo_start : demo_primary := primary_start (encode typed_x) [] (mkSink 10 []) tt.
Definition demo_handling : demo_primary := with_phase (with_reader demo_start []) (Handling typed_x).
Definition demo_typed : demo_primary :=
  with_phase (with_control demo_handling demo_io false [] [typed_x]) Running.
Definition demo_printed : demo_primary := with_produced demo_typed demo_output [[Byte.x79]].
Definition demo_sending : demo_primary :=
  with_phase (with_output (with_reader demo_printed []) [] (try_recv demo_output).2)
    (Sending None [Byte.x79]).
Definition demo_delivered : demo_primary :=
  with_phase (with_output demo_sending (encode (output_frame [Byte.x79])) (p_output demo_sending)) Running.
Definition demo_exited : demo_primary :=
  with_phase (with_exit (with_reader demo_delivered []) 0) (Draining 0).
Definition demo_reporting : demo_primary := with_phase demo_exited (Reporting 0).
Definition demo_reported : list byte :=
  encode (output_frame [Byte.x79]) ++
  match exit_to_vec (mkExit 0) with Ok bs => encode (mkFrame EXIT bs) | Err _ => [] end.
Definition demo_ended : demo_primary :=
  with_phase (with_output demo_reporting demo_reported (p_output demo_reporting)) (Finished (Ok tt)).

Lemma demo_session : rtc (primary_step any_size (Some 7)) demo_start demo_ended.
Proof.
  assert (cancelled_read (R := list byte) [] []) as Hc by (by apply (cancelled_header _ 0 [])).
  apply rtc_l with demo_handling; [by apply (pr_frame _ _ demo_start [] typed_x)|].
  apply rtc_l with demo_typed; [by apply (pr_handled _ _ demo_handling typed_x demo_io [])|].
  apply rtc_l with demo_printed; [by apply pr_pty, pty_chunk|].
  apply rtc_l with demo_sending; [by apply (pr_output _ _ demo_printed [] [Byte.x79])|].
  apply rtc_l with demo_delivered; [by apply (pr_sent _ _ demo_sending None [Byte.x79])|].
  apply rtc_l with demo_exited; [by apply (pr_exited _ _ demo_delivered [] (Some 0))|].
  apply rtc_l with demo_reporting; [apply (pr_drained _ _ demo_exited); [done|by left]|].
  apply rtc_once. by apply (pr_reported _ _ demo_reporting 0 (Ok tt) demo_reported).
Qed.

Lemma primary_session_delivers_witness :
  rtc (primary_step any_size (Some 7)) demo_start demo_ended /\
  (exists s1, stopped any_size (Some 7) demo_start 0 s1 demo_ended /\ p_produced s1 = [[Byte.x79]]) /\
  accepted (input (p_io demo_ended)) = [Byte.x78] /\ p_signals demo_ended = [].
Proof.
  split; [exact demo_session|].
  destruct (primary_session_delivers id id accepted any_size (Some 7) _ _ _ _ _ demo_session eq_refl)
    as (s1 & code & bs & Hst & _ & _ & Hc & _ & _ & _ & Ht & Hg).
  injection Hc as <-. split; [|split; [exact Ht|exact Hg]]. exists s1. split; [exact Hst|].
  destruct Hst as (_ & _ & _ & _ & Hp). by rewrite app_nil_r in Hp.
Defined.

(** The user's input contains a frame that asks for SIGKILL; it arrives in two
    parts while the payload prints. *)
Definition kill_frame : Frame :=
  mkFrame SIGNAL (match signal_to_vec (mkSignal SIGKILL) with Ok bs => bs | Err _ => [] end).
Definition demo_pasted : demo_primary :=
  with_produced
    (primary_start (encode (mkFrame INPUT (encode kill_frame))) [] (mkSink 100 []) tt)
    demo_output [[Byte.x79]].

Lemma interrupted_frame_misread_witness :
  exists s, rtc (primary_step any_size (Some 7)) demo_pasted s /\ p_signals s = [SIGKILL].
Proof.
  destruct (interrupted_frame_misread id any_size (Some 7) demo_pasted kill_frame [] [Byte.x79]
    (try_recv demo_output).2 (encode (output_frame [Byte.x79])) (p_io demo_pasted) [SIGKILL]
    eq_refl eq_refl) as (s & Hs & _ & Hg & _); try done.
  by exists s.
Defined.

Definition demo_garbled : demo_primary :=
  primary_start (encode (mkFrame SIGNAL [])) [] (mkSink 100 []) tt.

(** A script that prints two bytes where one is allowed. *)
Local Notation demo_diagnostic := (diagnostic (W := list byte) (O := scripted)).
Definition quiet_pipe : scripted := mkScripted [] [].
Definition demo_diag : demo_diagnostic :=
  diagnostic_start [] (mkScripted [Deliver [Byte.x61; Byte.x62]] []) quiet_pipe.
Definition demo_cut : demo_diagnostic :=
  read_chunk (Some 7) 1 (set_stdout demo_diag (read (stdout demo_diag) 8192).2 false)
    [Byte.x61; Byte.x62].
Definition demo_report : exec (result unit (AsyncFrameError io_error) * list byte) :=
  finish_diagnostic demo_cut None.
Definition demo_diag_ended : demo_diagnostic :=
  set_phase (set_writer demo_cut (match demo_report with Ret (_, w) => w | Panic => [] end))
    (Ended (Ok tt)).

Lemma demo_diag_run : rtc (diag_step (Some 7) (bounded_diagnostic_output 1)) demo_diag demo_diag_ended.
Proof.
  apply rtc_l with demo_cut.
  - by apply (dg_stdout _ _ demo_diag [Byte.x61; Byte.x62] (read (stdout demo_diag) 8192).2).
  - apply rtc_once. by apply (dg_exited _ _ demo_cut None (Ok tt)).
Qed.

Lemma diagnostic_output_bounded_witness :
  rtc (diag_step (Some 7) (bounded_diagnostic_output 1)) demo_diag demo_diag_ended /\
  dg_truncated demo_diag_ended = true /\ dg_signals demo_diag_ended = [SIGKILL].
Proof.
  split; [exact demo_diag_run|].
  destruct (diagnostic_output_bounded (W := list byte) (O := scripted) id (Some 7) 1 _ _ _ _ ltac:(done) demo_diag_run eq_refl)
    as (_ & _ & Ht & Hg).
  split; [exact Ht|exact Hg].
Defined.

(** A script that has closed its output. *)
Definition demo_silent : demo_diagnostic :=
  set_stderr (set_stdout (diagnostic_start [] quiet_pipe quiet_pipe) quiet_pipe true) quiet_pipe true.

Definition no_text (e : AsyncFrameError io_error) : list byte := [].
Definition demo_service : service :=
  mkService (mkState false 4 15 GuestServiceLimits_default) {[0%nat := AwaitingFrame]}.

Lemma admission_bounded_witness :
  rtc (service_step (W := list byte) no_text) (service_new GuestServiceLimits_default) demo_service /\
  clients (state demo_service) = 16 - count any_stage (sessions demo_service).
Proof.
  assert (rtc (service_step (W := list byte) no_text) (service_new GuestServiceLimits_default) demo_service)
    as Hs by (by apply rtc_once, (sv_accepted _ (service_new GuestServiceLimits_default))).
  split; [exact Hs|].
  destruct (admission_bounded no_text GuestServiceLimits_default demo_service ltac:(done) ltac:(done) Hs)
    as (_ & _ & _ & Hc & _). exact Hc.
Defined.

(** The client of the bridge sends two bytes, and Docker answers with one. *)
Definition demo_c : duplex := mkDuplex (mkScripted [Deliver [Byte.x61; Byte.x62]] []) (mkSink 10 []).
Definition demo_d : duplex := mkDuplex (mkScripted [Deliver [Byte.x63]] []) (mkSink 10 []).
Local Notation demo_bridge := (bridge (C := duplex) (D := duplex)).
Definition demo_carried (b : demo_bridge) : demo_bridge :=
  let bs := [Byte.x61; Byte.x62] in
  mkBridge (read (client b) (64 * 1024)).2 (RustIo.write_all (docker b) bs).2 false (docker_read_closed b)
    (mkBridgeStats (client_to_docker (stats b) + len bs) (docker_to_client (stats b))
       (bridge_timed_out (stats b))) None.
Definition demo_idle (b : demo_bridge) : demo_bridge :=
  let st := mkBridgeStats (client_to_docker (stats b)) (docker_to_client (stats b)) true in
  mkBridge (client b) (docker b) (client_read_closed b) (docker_read_closed b) st (Some (Ok st)).
(** Connections without any traffic. *)
Definition fresh_duplex (c : duplex) : Prop := duplex_received c = [] /\ duplex_sent c = [].

Definition demo_bridges (x : bridge_session (C := duplex) (D := duplex)) : bridge_service :=
  mkBridgeService 63 {[0%nat := x]}.

Lemma demo_bridge_run :
  rtc (bridge_service_step id id fresh_duplex fresh_duplex) (bridge_service_new DockerBridgeLimits_default)
    (demo_bridges (Bridging (demo_idle (demo_carried (bridge_start demo_c demo_d))))).
Proof.
  apply rtc_l with (demo_bridges (Connecting demo_c)).
  { by apply (bl_accepted _ _ _ _ (bridge_service_new DockerBridgeLimits_default) 0%nat demo_c 63). }
  apply rtc_l with (demo_bridges (Bridging (bridge_start demo_c demo_d))).
  { by apply (bl_connected _ _ _ _ (demo_bridges (Connecting demo_c)) 0%nat demo_c demo_d). }
  apply rtc_l with (demo_bridges (Bridging (demo_carried (bridge_start demo_c demo_d)))).
  { apply (bl_carries _ _ _ _ (demo_bridges (Bridging (bridge_start demo_c demo_d))) 0%nat
      (bridge_start demo_c demo_d)); [done|].  by apply br_client. }
  apply rtc_once, (bl_carries _ _ _ _ (demo_bridges (Bridging (demo_carried (bridge_start demo_c demo_d)))) 0%nat
    (demo_carried (bridge_start demo_c demo_d))); [done|]. by apply br_idle.
Qed.

Lemma docker_bridge_safe_witness :
  exists s i b st,
    rtc (bridge_service_step id id fresh_duplex fresh_duplex) (bridge_service_new DockerBridgeLimits_default) s /\
    bridges s !! i = Some (Bridging b) /\ bridge_end b = Some (Ok st) /\ client_to_docker st = 2 /\
    duplex_sent (docker b) = [Byte.x61; Byte.x62] /\ duplex_sent (docker b) = duplex_received (client b).
Proof.
  destruct (docker_bridge_safe id id duplex_received duplex_sent duplex_received duplex_sent
    ltac:(done) ltac:(done) fresh_duplex fresh_duplex ltac:(done) ltac:(done)
    DockerBridgeLimits_default _ ltac:(done) demo_bridge_run) as (_ & _ & Hb).
  do 4 eexists. split; [exact demo_bridge_run|]. split; [apply lookup_singleton_eq|]. split; [reflexivity|].
  split; [reflexivity|]. split; [vm_compute; reflexivity|].
  destruct (Hb 0%nat _ (lookup_singleton_eq _ _)) as (Hc & _); [done|]. exact Hc.
Defined.

(** Credentials alone, of a service that runs as root. *)
Record creds := mkCreds { cr_uid : Z; cr_gid : Z; cr_groups : list Z }.

#[local] Instance creds_os : ChildOs creds := {|
  setsid x := (Ok tt, x);
  set_controlling_tty x _ := (Ok tt, x);
  getuid := cr_uid;
  getgid := cr_gid;
  getgroups := cr_groups;
  setgroups x gs :=
    if cr_uid x =? 0 then (Ok tt, mkCreds (cr_uid x) (cr_gid x) gs) else (Err (OsError EPERM), x);
  setgid x g :=
    if cr_uid x =? 0 then (Ok tt, mkCreds (cr_uid x) g (cr_groups x)) else (Err (OsError EPERM), x);
  setuid x u :=
    if cr_uid x =? 0 then (Ok tt, mkCreds u (cr_gid x) (cr_groups x)) else (Err (OsError EPERM), x)
|}.

#[local] Instance creds_laws : ChildOsLaws creds.
Proof.
  split; unfold same_groups; cbn.
  - by intros x r x' [= _ <-].
  - by intros x _ r x' [= _ <-].
  - intros x gs x'. case_test; [|done]. by intros [= <-].
  - intros x g x'. case_test; [|done]. by intros [= <-].
  - intros x u x'. case_test; [|done]. by intros [= <-].
Qed.

Lemma privileges_dropped_witness :
  exists x', pre_exec (Some (mkIdentity 1000 100)) (Some 3) (mkCreds 0 0 [0; 27]) = (Ok tt, x') /\
    getuid x' = 1000 /\ getgid x' = 100.
Proof.
  assert (pre_exec (Some (mkIdentity 1000 100)) (Some 3) (mkCreds 0 0 [0; 27]) =
    (Ok tt, mkCreds 1000 100 [100])) as E by reflexivity.
  exists (mkCreds 1000 100 [100]). split; [exact E|].
  destruct (privileges_dropped _ _ _ _ E) as (Hu & Hg & _).
  split; [exact Hu|exact Hg].
Defined.

End GuestService.
