(* ===== verification/PayloadClient.v ===== *)
(** The payload client of the frontend (src/vm-frontend/src/payload_client.rs): a
    session with its reader and writer tasks, the forwarding of the host's
    signals, the loop that joins them, the ping and the diagnostics.

    Each task is a state machine with a state for every place where it awaits; a
    step of the session is a step of one of its tasks. *)

From stdpp Require Import base option list numbers strings gmap relations.
From Stdlib Require Import ZArith Lia.
From S2P Require Import Prelude RustIo RustStr PayloadProtocol PayloadMessages HttpRequest VmnetServiceIo.

Local Open Scope list_scope.
Local Open Scope Z_scope.

Module PayloadClient.
Import Payload Messages Mpsc.

(** ** Signals of the host *)

Definition SIGHUP : Z := 1.
Definition SIGINT : Z := 2.
Definition SIGTERM : Z := 15.
Definition SIGWINCH : Z := 28.

Record PayloadControlOptions := mkOptions { opt_forward_signals : bool; opt_forward_resize : bool }.

Definition options_interactive : PayloadControlOptions := mkOptions true true.
Definition options_disabled : PayloadControlOptions := mkOptions false false.

Record PayloadControlPolicy := mkPolicy {
  forward_signals : bool; forward_resize : bool;
  repeated_interrupt_aborts : bool; terminate_aborts : bool }.

Definition policy (o : PayloadControlOptions) : PayloadControlPolicy :=
  mkPolicy (opt_forward_signals o) (opt_forward_resize o) (opt_forward_signals o)
    (opt_forward_signals o).

Definition policy_disabled : PayloadControlPolicy := policy options_disabled.
Definition policy_interactive : PayloadControlPolicy := policy options_interactive.

Inductive PayloadControlAction :=
| ForwardSignal (signal : Z)
| ForwardResize
| LocalAbort
| Ignore.

Definition host_signal_action (p : PayloadControlPolicy) (signal forwarded_interrupts : Z)
  : PayloadControlAction :=
  if (signal =? SIGWINCH) && forward_resize p then ForwardResize
  else if (signal =? SIGINT) && forward_signals p then
    if repeated_interrupt_aborts p && (forwarded_interrupts >? 0) then LocalAbort
    else ForwardSignal signal
  else if (signal =? SIGTERM) && terminate_aborts p then LocalAbort
  else if ((signal =? SIGTERM) || (signal =? SIGHUP)) && forward_signals p
  then ForwardSignal signal
  else Ignore.

Definition tui_ctrl_c_action (p : PayloadControlPolicy) (forwarded_interrupts : Z)
  : PayloadControlAction := host_signal_action p SIGINT forwarded_interrupts.

(** The size of the terminal, from the answer of [TIOCGWINSZ]. *)
Definition terminal_size (winsize : option (Z * Z)) : Z * Z :=
  match winsize with
  | Some (row, col) => if (row >? 0) && (col >? 0) then (row, col) else (24, 80)
  | None => (24, 80)
  end.

(** The signals [async_signal_forward_loop] asks for. *)
Definition wanted_signals (p : PayloadControlPolicy) : list Z :=
  (if forward_signals p then [SIGINT] else []) ++
  (if forward_signals p || terminate_aborts p then [SIGTERM] else []) ++
  (if forward_signals p then [SIGHUP] else []) ++
  (if forward_resize p then [SIGWINCH] else []).

Section Client.
Context `{PayloadJson}.

Inductive PayloadClientError :=
| Io (e : io_error)
| JsonFailed (e : JsonError)
| Protocol (message : list byte)
| Address (message : list byte)
| Unsupported (message : list byte)
| DeadlineExceeded
| Cancelled.

Definition frame_protocol_error (e : FrameError) : PayloadClientError :=
  Protocol (str_bytes (frame_error_to_string e)).

Definition from_async_frame_error (e : AsyncFrameError io_error) : PayloadClientError :=
  match e with AsyncIo e => Io e | AsyncFrame e => frame_protocol_error e end.

Definition from_event_error (e : PayloadEventError) : PayloadClientError :=
  match e with
  | Json e => JsonFailed e
  | UnexpectedFrameKind kind =>
      Protocol (str_bytes
        ("unexpected payload frame type " ++ show_usize (Z.of_N (Byte.to_N (as_byte kind)))))
  end.

Inductive PayloadSessionOutcome :=
| ExitOutcome (code : Z)
| FailureOutcome (message : list (list byte))
| CancelledOutcome.

Definition into_exit_code (o : PayloadSessionOutcome) : result Z PayloadClientError :=
  match o with
  | ExitOutcome code => Ok code
  | FailureOutcome message => Err (Protocol (concat message))
  | CancelledOutcome => Err Cancelled
  end.

Inductive AsyncPayloadCommand :=
| InputCommand (bs : list byte)
| SignalCommand (signal : Z)
| ResizeCommand (rows cols : Z).

Definition command_send_error {A} (e : TrySendError A) : PayloadClientError :=
  match e with
  | Full _ => Io (CustomError WouldBlock "payload command channel is full")
  | Closed _ => Cancelled
  end.

(** [AsyncPayloadCommandSender::try_send]. *)
Definition try_send_command `{Channels} (c : channel AsyncPayloadCommand) (command : AsyncPayloadCommand)
  : result unit PayloadClientError * channel AsyncPayloadCommand :=
  let '(r, c) := try_send c command in (map_err command_send_error r, c).

(** ** The frames of the tasks *)

(** [expect] panics when a control message cannot be written. *)
Definition frame_of_command (command : AsyncPayloadCommand) : exec (result Frame FrameError) :=
  match command with
  | InputCommand bs => Ret (Frame_new INPUT bs)
  | SignalCommand s =>
      match signal_payload s with Ok bs => Ret (Frame_new SIGNAL bs) | Err _ => Panic end
  | ResizeCommand rows cols =>
      match resize_payload rows cols with Ok bs => Ret (Frame_new RESIZE bs) | Err _ => Panic end
  end.

Definition event := result PayloadEvent PayloadClientError.

Definition frame_event (r : result Frame (AsyncFrameError io_error)) : event :=
  match r with
  | Ok frame => map_err from_event_error (payload_event_from_frame frame)
  | Err e => Err (from_async_frame_error e)
  end.

Definition terminal (e : event) : bool := match e with Ok (Output _) => false | _ => true end.

(** ** Ping and diagnostics *)

Section Calls.
Context {S O : Type} `{AsyncReader S io_error} `{AsyncWriter S io_error} `{Write O}.
(** [AsyncWriteExt::flush] of the output. *)
Context (flush : O -> io_result unit * O).

Definition send_new (s : S) (k : FrameKind) (bs : list byte) : result unit PayloadClientError * S :=
  match Frame_new k bs with
  | Err e => (Err (frame_protocol_error e), s)
  | Ok frame => let '(r, s) := write_frame_async s frame in (map_err from_async_frame_error r, s)
  end.

Definition unexpected_ping (frame : Frame) : PayloadClientError :=
  Protocol (str_bytes ("unexpected ping response: frame=" ++
    show_usize (Z.of_N (Byte.to_N (as_byte (kind frame)))) ++ " payload=") ++
    concat (Http.from_utf8_lossy (payload frame))).

Definition ping_payload_async_io (s : S) : exec (result unit PayloadClientError * S) :=
  match send_new s PING [] with
  | (Err e, s) => Ret (Err e, s)
  | (Ok _, s) =>
      let! (r, s) := read_frame_async s in
      match r with
      | Err e => Ret (Err (from_async_frame_error e), s)
      | Ok frame =>
          if bool_decide (kind frame = OK) && bool_decide (payload frame = str_bytes "ok")
          then Ret (Ok tt, s)
          else Ret (Err (unexpected_ping frame), s)
      end
  end.

Definition write_flush (o : O) (bs : list byte) : io_result unit * O :=
  match RustIo.write_all o bs with
  | (Err e, o) => (Err e, o)
  | (Ok _, o) => flush o
  end.

(** The deadline of [run_diagnostic_tcp_async], in seconds. *)
Definition diagnostic_deadline (request : DiagnosticRequest) : Z := Z.max (timeout_seconds request) 1.

Fixpoint diagnostic_loop (fuel : nat) (s : S) (o : O)
  : exec (result Z PayloadClientError * S * O) :=
  match fuel with
  | 0%nat => Panic
  | Datatypes.S fuel =>
      let! (r, s) := read_frame_async s in
      match frame_event r with
      | Err e => Ret (Err e, s, o)
      | Ok (Output bs) =>
          match write_flush o bs with
          | (Err e, o) => Ret (Err (Io e), s, o)
          | (Ok _, o) => diagnostic_loop fuel s o
          end
      | Ok (Exit code) => Ret (Ok code, s, o)
      | Ok (Failure message) => Ret (Err (Protocol (concat message)), s, o)
      end
  end.

(** [run_diagnostic_async_io] within its deadline; [fuel] bounds the frames that
    arrive until then. *)
Definition run_diagnostic_async_io (fuel : nat) (s : S) (request : DiagnosticRequest) (o : O)
  : exec (result Z PayloadClientError * S * O) :=
  match diagnostic_to_vec request with
  | Err e => Ret (Err (JsonFailed e), s, o)
  | Ok bs =>
      match send_new s RUN_DIAGNOSTIC bs with
      | (Err e, s) => Ret (Err e, s, o)
      | (Ok _, s) => diagnostic_loop fuel s o
      end
  end.

End Calls.

(** ** A session *)

Section Session.
Context {R W I O : Type} `{AsyncReader R io_error} `{AsyncWriter W io_error} `{Read I} `{Write O}.
Context (flush : O -> io_result unit * O).
Context `{Channels}.

Inductive task (A : Type) :=
| Idle
| Busy (a : A)
| Stopped.
#[global] Arguments Idle {A}.
#[global] Arguments Busy {A} a.
#[global] Arguments Stopped {A}.

(** What the signal task awaits: room for a command, or for the abort. *)
Inductive forward := Forwarding (command : AsyncPayloadCommand) | Aborting.

Record forwarder := mkForwarder {
  fw_policy : PayloadControlPolicy;
  installed : list Z;
  forwarded_interrupts : Z;
  fw_task : task forward
}.

(** The loop of [run_payload_session_async]. *)
Inductive main_phase :=
| Selecting
| SendingInput (bs : list byte)
| WritingOutput (bs : list byte)
| Over (result : result PayloadSessionOutcome PayloadClientError).

(** [c_events] are the events the reader task has made so far and [c_frames] the
    frames it has read; they are not in the source. *)
Record client := mkClient {
  c_main : main_phase;
  c_reader : R;
  c_writer : W;
  c_commands : channel AsyncPayloadCommand;
  c_queue : channel event;
  c_abort : channel unit;
  c_reading : task event;
  c_writing : task Frame;
  c_signals : option forwarder;
  c_input : option I;
  c_output : O;
  c_events : list event;
  c_frames : list Frame
}.

Definition set_main (c : client) (m : main_phase) : client :=
  mkClient m (c_reader c) (c_writer c) (c_commands c) (c_queue c) (c_abort c) (c_reading c)
    (c_writing c) (c_signals c) (c_input c) (c_output c) (c_events c) (c_frames c).
Definition set_reader (c : client) (r : R) : client :=
  mkClient (c_main c) r (c_writer c) (c_commands c) (c_queue c) (c_abort c) (c_reading c)
    (c_writing c) (c_signals c) (c_input c) (c_output c) (c_events c) (c_frames c).
Definition set_commands (c : client) (q : channel AsyncPayloadCommand) : client :=
  mkClient (c_main c) (c_reader c) (c_writer c) q (c_queue c) (c_abort c) (c_reading c)
    (c_writing c) (c_signals c) (c_input c) (c_output c) (c_events c) (c_frames c).
Definition set_queue (c : client) (q : channel event) : client :=
  mkClient (c_main c) (c_reader c) (c_writer c) (c_commands c) q (c_abort c) (c_reading c)
    (c_writing c) (c_signals c) (c_input c) (c_output c) (c_events c) (c_frames c).
Definition set_reading (c : client) (t : task event) : client :=
  mkClient (c_main c) (c_reader c) (c_writer c) (c_commands c) (c_queue c) (c_abort c) t
    (c_writing c) (c_signals c) (c_input c) (c_output c) (c_events c) (c_frames c).
Definition set_writing (c : client) (w : W) (t : task Frame) : client :=
  mkClient (c_main c) (c_reader c) w (c_commands c) (c_queue c) (c_abort c) (c_reading c)
    t (c_signals c) (c_input c) (c_output c) (c_events c) (c_frames c).
Definition set_signals (c : client) (f : forwarder) (q : channel unit) : client :=
  mkClient (c_main c) (c_reader c) (c_writer c) (c_commands c) (c_queue c) q (c_reading c)
    (c_writing c) (Some f) (c_input c) (c_output c) (c_events c) (c_frames c).
Definition set_input (c : client) (i : option I) : client :=
  mkClient (c_main c) (c_reader c) (c_writer c) (c_commands c) (c_queue c) (c_abort c)
    (c_reading c) (c_writing c) (c_signals c) i (c_output c) (c_events c) (c_frames c).
Definition set_output (c : client) (o : O) : client :=
  mkClient (c_main c) (c_reader c) (c_writer c) (c_commands c) (c_queue c) (c_abort c)
    (c_reading c) (c_writing c) (c_signals c) (c_input c) o (c_events c) (c_frames c).
Definition add_event (c : client) (e : event) (frames : list Frame) : client :=
  mkClient (c_main c) (c_reader c) (c_writer c) (c_commands c) (c_queue c) (c_abort c)
    (c_reading c) (c_writing c) (c_signals c) (c_input c) (c_output c) (c_events c ++ [e])
    (c_frames c ++ frames).

(** The reader task. *)
Inductive reader_step : client -> client -> Prop :=
| rd_read c r r' :
    c_reading c = Idle -> read_frame_async (c_reader c) = Ret (r, r') ->
    reader_step c
      (set_reading
         (add_event (set_reader c r') (frame_event r) (match r with Ok f => [f] | Err _ => [] end))
         (Busy (frame_event r)))
| rd_queued c e q :
    c_reading c = Busy e -> try_send (c_queue c) e = (Ok tt, q) ->
    reader_step c
      (if terminal e then set_reading (set_queue c (drop_sender q)) Stopped
       else set_reading (set_queue c q) Idle)
| rd_refused c e e' q :
    c_reading c = Busy e -> try_send (c_queue c) e = (Err (Closed e'), q) ->
    reader_step c (set_reading (set_queue c (drop_sender q)) Stopped).

(** The writer task; when it stops it drops its end of the commands. *)
Definition stop_writing (c : client) (w : W) : client :=
  set_commands (set_writing c w Stopped) (drop_receiver (c_commands c)).

Inductive writer_step : client -> client -> Prop :=
| wr_command c command q frame :
    c_writing c = Idle -> recv (c_commands c) = Some (Some command, q) ->
    frame_of_command command = Ret (Ok frame) ->
    writer_step c (set_writing (set_commands c q) (c_writer c) (Busy frame))
| wr_refused c command q :
    (** The frame is too large, or its payload could not be written. *)
    c_writing c = Idle -> recv (c_commands c) = Some (Some command, q) ->
    (forall frame, frame_of_command command <> Ret (Ok frame)) ->
    writer_step c (stop_writing (set_commands c q) (c_writer c))
| wr_written c frame w :
    c_writing c = Busy frame -> write_frame_async (c_writer c) frame = (Ok tt, w) ->
    writer_step c (set_writing c w Idle)
| wr_failed c frame e w :
    c_writing c = Busy frame -> write_frame_async (c_writer c) frame = (Err e, w) ->
    writer_step c (stop_writing c w).

(** The signal task; when it ends it drops its end of the abort channel. *)
Definition set_fw (f : forwarder) (interrupts : Z) (t : task forward) : forwarder :=
  mkForwarder (fw_policy f) (installed f) interrupts t.

Inductive signal_step : client -> client -> Prop :=
| sg_signal c f signal winsize :
    c_signals c = Some f -> fw_task f = Idle -> signal ∈ installed f ->
    signal_step c
      (set_signals c
         (set_fw f (forwarded_interrupts f)
            (match host_signal_action (fw_policy f) signal (forwarded_interrupts f) with
             | ForwardSignal s => Busy (Forwarding (SignalCommand s))
             | ForwardResize =>
                 let '(rows, cols) := terminal_size winsize in
                 Busy (Forwarding (ResizeCommand rows cols))
             | LocalAbort => Busy Aborting
             | Ignore => Idle
             end)) (c_abort c))
| sg_forwarded c f command q :
    c_signals c = Some f -> fw_task f = Busy (Forwarding command) ->
    try_send (c_commands c) command = (Ok tt, q) ->
    signal_step c
      (set_signals (set_commands c q)
         (set_fw f
            (match command with
             | SignalCommand s =>
                 if s =? SIGINT then forwarded_interrupts f + 1 else forwarded_interrupts f
             | _ => forwarded_interrupts f
             end) Idle) (c_abort c))
| sg_refused c f command command' q :
    c_signals c = Some f -> fw_task f = Busy (Forwarding command) ->
    try_send (c_commands c) command = (Err (Closed command'), q) ->
    signal_step c
      (set_signals c (set_fw f (forwarded_interrupts f) Stopped) (drop_sender (c_abort c)))
| sg_abort c f r q :
    c_signals c = Some f -> fw_task f = Busy Aborting -> try_send (c_abort c) tt = (r, q) ->
    signal_step c (set_signals c (set_fw f (forwarded_interrupts f) Stopped) (drop_sender q)).

(** The loop. *)
Inductive main_step : client -> client -> Prop :=
| mn_abort c f r q :
    c_main c = Selecting -> c_signals c = Some f -> recv (c_abort c) = Some (r, q) ->
    main_step c (set_main (set_signals c f q) (Over (Ok CancelledOutcome)))
| mn_input_closed c i i' :
    c_main c = Selecting -> c_input c = Some i -> read i (64 * 1024) = (Ok [], i') ->
    main_step c (set_input c None)
| mn_input c i bs i' :
    c_main c = Selecting -> c_input c = Some i -> read i (64 * 1024) = (Ok bs, i') -> bs <> [] ->
    main_step c (set_main (set_input c (Some i')) (SendingInput bs))
| mn_input_failed c i e i' :
    c_main c = Selecting -> c_input c = Some i -> read i (64 * 1024) = (Err e, i') ->
    main_step c (set_main (set_input c (Some i')) (Over (Err (Io e))))
| mn_input_sent c bs q :
    c_main c = SendingInput bs -> try_send (c_commands c) (InputCommand bs) = (Ok tt, q) ->
    main_step c (set_main (set_commands c q) Selecting)
| mn_input_refused c bs command q :
    c_main c = SendingInput bs ->
    try_send (c_commands c) (InputCommand bs) = (Err (Closed command), q) ->
    main_step c (set_main c (Over (Err Cancelled)))
| mn_event c e q :
    c_main c = Selecting -> recv (c_queue c) = Some (Some e, q) ->
    main_step c
      (set_main (set_queue c q)
         (match e with
          | Ok (Output bs) => WritingOutput bs
          | Ok (Exit code) => Over (Ok (ExitOutcome code))
          | Ok (Failure message) => Over (Ok (FailureOutcome message))
          | Err e => Over (Err e)
          end))
| mn_events_closed c q :
    c_main c = Selecting -> recv (c_queue c) = Some (None, q) ->
    main_step c (set_main (set_queue c q) (Over (Err Cancelled)))
| mn_written c bs o :
    c_main c = WritingOutput bs -> write_flush flush (c_output c) bs = (Ok tt, o) ->
    main_step c (set_main (set_output c o) Selecting)
| mn_write_failed c bs e o :
    c_main c = WritingOutput bs -> write_flush flush (c_output c) bs = (Err e, o) ->
    main_step c (set_main (set_output c o) (Over (Err (Io e)))).

Definition running (c : client) : Prop := match c_main c with Over _ => False | _ => True end.

(** When the loop is over the tasks are aborted. *)
Inductive client_step (c c' : client) : Prop :=
| cl_reader : running c -> reader_step c c' -> client_step c c'
| cl_writer : running c -> writer_step c c' -> client_step c c'
| cl_signal : running c -> signal_step c c' -> client_step c c'
| cl_main : main_step c c' -> client_step c c'.

(** [spawn_async_signal_forwarder], with the signals the host let it have. *)
Definition start_forwarder (o : PayloadControlOptions) (available : list Z)
  : option forwarder * channel unit :=
  if negb (opt_forward_signals o) && negb (opt_forward_resize o)
  then (None, drop_sender (channel_new 1))
  else
    let signals := filter (fun s => s ∈ available) (wanted_signals (policy o)) in
    match signals with
    | [] => (Some (mkForwarder (policy o) [] 0 Stopped), drop_sender (channel_new 1))
    | _ => (Some (mkForwarder (policy o) signals 0 Idle), channel_new 1)
    end.

(** [from_stream_with_capacity]: the request, before the tasks start. *)
Definition send_request (w : W) (request : PayloadRequest) : result unit PayloadClientError * W :=
  match request_to_vec request with
  | Err e => (Err (JsonFailed e), w)
  | Ok bs => send_new w RUN_PRIMARY bs
  end.

Definition client_start (r : R) (w : W) (command_capacity event_capacity : Z)
  (o : PayloadControlOptions) (available : list Z) (i : option I) (out : O) : client :=
  let '(f, abort) := start_forwarder o available in
  mkClient Selecting r w (channel_new (Z.max command_capacity 1))
    (channel_new (Z.max event_capacity 1)) abort Idle Idle f i out [] [].

End Session.

End Client.

(** * Facts *)

Section Facts.
Context `{PayloadJson}.

(** ** Signals *)

(** Under the interactive policy one interrupt is forwarded and the next aborts
    the session, as does a termination; a hangup is forwarded, a change of the
    window size is passed on, and without the options nothing happens. *)
Theorem host_signal_action_table o signal n :
  0 <= n ->
  host_signal_action (policy o) signal n =
    if decide (signal = SIGWINCH /\ opt_forward_resize o = true) then ForwardResize
    else if decide (opt_forward_signals o = true) then
      if decide (signal = SIGINT) then if decide (n = 0) then ForwardSignal SIGINT else LocalAbort
      else if decide (signal = SIGTERM) then LocalAbort
      else if decide (signal = SIGHUP) then ForwardSignal SIGHUP
      else Ignore
    else Ignore.
Proof.
  intros Hn. unfold host_signal_action, policy, SIGHUP, SIGINT, SIGTERM, SIGWINCH.
  cbn [forward_resize forward_signals repeated_interrupt_aborts terminate_aborts].
  destruct (opt_forward_resize o), (opt_forward_signals o); rewrite ?andb_true_r, ?andb_false_r;
    repeat (case_test || case_decide || destruct_and?); try lia; try congruence; try done; naive_solver lia.
Qed.

(** ** Events *)

Section SessionFacts.
Context {R W I O : Type} `{AsyncReader R io_error} `{AsyncWriter W io_error} `{Read I} `{Write O}.
Context (flush : O -> io_result unit * O) (shown_by : O -> list byte) `{!WriteLaws O shown_by}.
(** Flushing writes nothing new. *)
Context (flush_quiet : forall o r o', flush o = (r, o') -> shown_by o' = shown_by o).
Context `{Channels} `{!ChannelLaws}.
Local Notation client := (client (R := R) (W := W) (I := I) (O := O)).
Local Notation step := (client_step flush).
Implicit Types c : client.

Definition outputs (chunks : list (list byte)) : list event := map (fun bs => Ok (Output bs)) chunks.

(** What the loop has taken from the queue and not yet written, or what ended it. *)
Definition taken c (tail : list event) : Prop :=
  match c_main c with
  | Selecting | SendingInput _ => tail = []
  | WritingOutput bs => tail = [Ok (Output bs)]
  | Over (Ok (ExitOutcome code)) => tail = [Ok (Exit code)]
  | Over _ => True
  end.

Definition in_hand c : list event := match c_reading c with Busy e => [e] | _ => [] end.

(** Only the last event of a session ends it, and then the reader has stopped. *)
Definition events_end (c : client) : Prop :=
  (c_reading c = Idle -> Forall (fun e => terminal e = false) (c_events c)) /\
  (forall pre e post, c_events c = pre ++ e :: post -> terminal e = true -> post = []).

Record client_ok (o0 : list byte) c : Prop := {
  ck_events : exists shown tail, taken c tail /\
    c_events c = outputs shown ++ tail ++ queued (c_queue c) ++ in_hand c /\
    (running c -> shown_by (c_output c) = o0 ++ concat shown) /\
    (forall code, c_main c = Over (Ok (ExitOutcome code)) ->
       shown_by (c_output c) = o0 ++ concat shown);
  ck_end : events_end c;
  ck_open : receiver_dropped (c_queue c) = false;
  ck_frames : exists errors, c_events c = map (fun f => frame_event (Ok f)) (c_frames c) ++ errors /\
    Forall (fun e => exists x, e = Err x) errors /\ (c_reading c = Idle -> errors = [])
}.

Lemma writer_ok o0 c c' : writer_step c c' -> client_ok o0 c -> client_ok o0 c'.
Proof. intros [] [? ? ? ?]; by split. Qed.

Lemma signal_ok o0 c c' : signal_step c c' -> client_ok o0 c -> client_ok o0 c'.
Proof. intros [] [? ? ? ?]; by split. Qed.

(** A non-terminal event in hand is preceded by such events only. *)
Lemma plain_events c e :
  c_reading c = Busy e -> terminal e = false -> events_end c ->
  (exists pre, c_events c = pre ++ [e]) -> Forall (fun e => terminal e = false) (c_events c).
Proof.
  intros Hr Ht [_ Hend] [pre He]. rewrite He, Forall_app. split; [|by apply Forall_singleton].
  apply Forall_forall. intros x Hx. destruct (terminal x) eqn:Etx; [exfalso|done].
  apply list_elem_of_split in Hx as (l1 & l2 & ->).
  assert (l2 ++ [e] = []) as Hnil; [|by destruct l2].
  eapply Hend; [|exact Etx]. by rewrite He, <-(assoc_L (++)).
Qed.

Lemma reader_ok o0 c c' : running c -> reader_step c c' -> client_ok o0 c -> client_ok o0 c'.
Proof.
  intros Hrun Hstep [(shown & tail & Ht & He & Ho & Hx) Hend Hopen (errs & Hf & Herr & Hidle)].
  destruct Hstep as [c r r' Hi Er|c e q Hb Es|c e e' q Hb Es].
  - specialize (Hidle Hi) as ->. rewrite app_nil_r in Hf. destruct Hend as [Hall Hend].
    specialize (Hall Hi). split; [| |done|].
    + exists shown, tail. split; [done|]. split; [|done]. unfold in_hand in *. cbn. rewrite Hi in He.
      rewrite He, app_nil_r. by rewrite <-!(assoc_L (++)).
    + split; [done|]. cbn. intros pre e post Heq Hte.
      destruct post as [|y post _] using rev_ind; [done|exfalso].
      rewrite app_comm_cons, (assoc_L (++)) in Heq. apply app_inj_tail in Heq as [Heq _].
      rewrite Heq, Forall_app, Forall_cons in Hall. destruct Hall as (_ & Hn & _). congruence.
    + cbn. rewrite Hf. destruct r as [f|x].
      * exists []. rewrite map_app, app_nil_r. done.
      * exists [frame_event (Err x)]. rewrite app_nil_r. split; [done|]. split; [|done].
        apply Forall_singleton. by eexists.
  - apply try_send_sent in Es as (Eq & (_ & _ & Hro) & _ & _). unfold in_hand in He. rewrite Hb in He.
    assert (exists pre, c_events c = pre ++ [e]) as Hlast by (rewrite He, !(assoc_L (++)); eauto).
    destruct (terminal e) eqn:Et.
    + destruct (drop_sender_spec q) as (Dq & _ & _ & Dr). split; [| | |exists errs; done].
      * exists shown, tail. split; [done|]. split; [|done]. unfold in_hand. cbn.
        by rewrite He, Dq, Eq, app_nil_r.
      * by destruct Hend.
      * cbn. by rewrite Dr, Hro.
    + pose proof (plain_events c e Hb Et Hend Hlast) as Hall. split; [| | |].
      * exists shown, tail. split; [done|]. split; [|done]. unfold in_hand. cbn.
        by rewrite He, Eq, app_nil_r.
      * split; [done|]. by destruct Hend.
      * cbn. by rewrite Hro.
      * exists errs. split; [done|]. split; [done|]. intros _. destruct errs as [|x errs]; [done|exfalso].
        rewrite Hf, Forall_app, Forall_cons in Hall. destruct Hall as (_ & Hn & _).
        apply Forall_cons in Herr as [[y ->] _]. done.
  - apply try_send_refused in Es. congruence.
Qed.

Lemma main_ok o0 c c' : main_step flush c c' -> client_ok o0 c -> client_ok o0 c'.
Proof.
  intros Hstep [(shown & tail & Ht & He & Ho & Hx) Hend Hopen Hf].
  destruct Hstep as [c f r q Hm _ _|c i i' Hm|c i bs i' Hm|c i e i' Hm|c bs q Hm|c bs cmd q Hm
    |c e q Hm Eq|c q Hm Eq|c bs o Hm Ew|c bs e o Hm Ew];
    unfold taken, running in *; rewrite Hm in *.
  1, 4, 6: split; [exists shown, tail; by split_and!|done..].
  1, 2, 3: split; [exists shown, tail; unfold taken, running; cbn; rewrite ?Hm; split_and!; try done; auto|done..].
  - apply recv_some in Eq as [Eq (_ & _ & Hro)]. subst tail. split; [|done| |done]; cycle 1.
    { cbn. by rewrite Hro. }
    exists shown, [e]. unfold in_hand in *. cbn. rewrite He, Eq.
    destruct e as [[bs|code|m]|x]; split_and!; try done; auto.
  - apply recv_none in Eq as (-> & _). split; [exists shown, tail; by split_and!|done..].
  - unfold write_flush in Ew. destruct (RustIo.write_all (c_output c) bs) as [[[]|] o1] eqn:E1; [|done].
    apply write_all_ok in E1. apply flush_quiet in Ew. subst tail. split; [|done..].
    exists (shown ++ [bs]), []. split; [done|]. cbn. unfold outputs, in_hand in *. split_and!; try done.
    + rewrite He, map_app. cbn. by rewrite <-(assoc_L (++)).
    + intros _. rewrite Ew, E1, Ho, concat_app, <-(assoc_L (++)) by done. cbn. by rewrite app_nil_r.
  - split; [exists shown, tail; by split_and!|done..].
Qed.

Lemma client_step_ok o0 c c' : step c c' -> client_ok o0 c -> client_ok o0 c'.
Proof.
  intros [Hr Hs|Hr Hs|Hr Hs|Hs]; eauto using reader_ok, writer_ok, signal_ok, main_ok.
Qed.

Lemma rtc_two c c1 c2 : step c c1 -> step c1 c2 -> rtc step c c2.
Proof. intros H1' H2'. eapply rtc_l; [exact H1'|]. by apply rtc_once. Qed.

(** When the guest has closed the connection after the payload
    exited, and the writer task has stopped because of that, the exit code that
    waits in the queue can be lost: input that is read at this moment ends the
    session with an error, and a signal of the host, which cannot be forwarded any
    more, ends it as if the user had cancelled it. *)
Theorem exit_code_lost c code :
  c_main c = Selecting -> queued (c_queue c) = [Ok (Exit code)] ->
  receiver_dropped (c_commands c) = true ->
  (forall i bs i', c_input c = Some i -> read i (64 * 1024) = (Ok bs, i') -> bs <> [] ->
     exists c', rtc step c c' /\ c_main c' = Over (Err Cancelled) /\
       queued (c_queue c') = [Ok (Exit code)]) /\
  (forall f, c_signals c = Some f -> fw_task f = Idle -> SIGHUP ∈ installed f ->
     forward_signals (fw_policy f) = true -> queued (c_abort c) = [] ->
     exists c', rtc step c c' /\ c_main c' = Over (Ok CancelledOutcome) /\
       queued (c_queue c') = [Ok (Exit code)]).
Proof.
  intros Hm Hexit Hd. split.
  - intros i bs i' Hi Hr Hbs. eexists. split; [|split].
    + eapply rtc_two; [by eapply cl_main, mn_input|]. eapply cl_main, mn_input_refused; [done|].
      by apply try_send_closed.
    + done.
    + done.
  - intros f Hf Hidle Hin Hp Hq. eexists. split; [|split].
    + eapply rtc_l; [eapply cl_signal; [unfold running; by rewrite Hm|by eapply (sg_signal _ f SIGHUP None)]|].
      eapply rtc_two.
      * eapply cl_signal; [unfold running; cbn; by rewrite Hm|]. eapply sg_refused; [done| |].
        -- cbn. by rewrite Hp.
        -- by apply try_send_closed.
      * eapply cl_main, mn_abort; [done|done|]. unfold recv. cbn.
        destruct (drop_sender_spec (c_abort c)) as (Dq & _ & Ds & _).
        rewrite try_recv_empty by (by rewrite Dq). by rewrite Ds.
    + done.
    + done.
Qed.

End SessionFacts.

(** ** Diagnostics *)

Section DiagnosticFacts.
Context {S O : Type} `{AsyncReader S io_error} `{AsyncWriter S io_error} `{Write O}.
Context (incoming : S -> list byte) `{!AsyncReaderLaws S io_error incoming}.
Context (flush : O -> io_result unit * O) (shown_by : O -> list byte) `{!WriteLaws O shown_by}.
Context (flush_quiet : forall o r o', flush o = (r, o') -> shown_by o' = shown_by o).

Lemma write_flush_ok o bs o' :
  write_flush flush o bs = (Ok tt, o') -> shown_by o' = shown_by o ++ bs.
Proof.
  unfold write_flush. destruct (RustIo.write_all o bs) as [[[]|] o1] eqn:E1; [|done].
  intros Ew. apply write_all_ok in E1. apply flush_quiet in Ew. by rewrite Ew.
Qed.

(** The client of a diagnostic shows every chunk and returns the exit code. *)
Lemma diagnostic_loop_complete fuel s o outs last code rest :
  (forall o bs, exists o', write_flush flush o bs = (Ok tt, o')) ->
  (length outs < fuel)%nat ->
  Forall frame_ok outs -> Forall (fun f => kind f = OUTPUT) outs ->
  frame_ok last -> kind last = EXIT -> exit_from_slice (payload last) = Ok (mkExit code) ->
  incoming s = concat (map encode (outs ++ [last])) ++ rest ->
  exists s' o', diagnostic_loop flush fuel s o = Ret (Ok code, s', o') /\
    shown_by o' = shown_by o ++ concat (map payload outs).
Proof.
  intros Hw. revert s o fuel.
  induction outs as [|f outs IH]; intros s o [|fuel] Hfuel Hok Hk Hlo Hlk Hcode Hin; try (cbn in Hfuel; lia).
  - cbn in Hin. rewrite app_nil_r in Hin.
    destruct (read_frame_async_encoded incoming s last rest Hlo Hin) as (s1 & Er & _).
    cbn [diagnostic_loop]. rewrite Er. cbn [exec_bind frame_event]. unfold payload_event_from_frame.
    rewrite Hlk. cbn. rewrite Hcode. exists s1, o. cbn. by rewrite app_nil_r.
  - apply Forall_cons in Hok as [Hf Hok], Hk as [Hkf Hk].
    cbn [app map concat] in Hin. rewrite <-(assoc_L (++)) in Hin.
    destruct (read_frame_async_encoded incoming s f _ Hf Hin) as (s1 & Er & Hin1).
    cbn [diagnostic_loop]. rewrite Er. cbn [exec_bind frame_event]. unfold payload_event_from_frame.
    rewrite decide_True by done. cbn [map_err].
    destruct (Hw o (payload f)) as [o1 Ew]. rewrite Ew.
    destruct (IH s1 o1 fuel) as (s' & o' & El & Eo); try done; [cbn in Hfuel; lia|].
    exists s', o'. split; [exact El|]. apply write_flush_ok in Ew. by rewrite Eo, Ew, <-(assoc_L (++)).
Qed.

End DiagnosticFacts.

End Facts.

(** ** Witnesses *)

#[local] Existing Instance Messages.bits_json.

#[local] Instance ended_reader : AsyncReader unit io_error :=
  fun r _ => (Err (CustomError UnexpectedEof "early eof"), r).
#[local] Instance closed_writer : AsyncWriter unit io_error := fun w _ => (Err (OsError EPERM), w).

(** The payload has exited, the writer task has met the closed connection, and
    the user types one more key. *)
Definition demo_client : client (R := unit) (W := unit) (I := scripted) (O := sink) :=
  let c := client_start tt tt 32 32 options_interactive [SIGHUP]
             (Some (mkScripted [Deliver [Byte.x78]] [])) (mkSink 10 []) in
  stop_writing (set_queue c (try_send (c_queue c) (Ok (Exit 0))).2) tt.

End PayloadClient.
