(* ===== verification/PayloadSession.v ===== *)
(** A payload session from end to end: the client of the frontend
    (PayloadClient.v) and the guest service (GuestService.v) at the two ends of a
    connection, which holds a limited number of bytes in each direction.

    What the client prints is what the payload printed, and the exit code is the
    payload's; but the two sides can come to wait for each other for ever. *)

From stdpp Require Import base option list numbers strings gmap relations.
From Stdlib Require Import ZArith Lia.
From S2P Require Import Prelude RustIo PayloadProtocol PayloadMessages VmnetServiceIo.
From S2P Require Import GuestService PayloadClient.

Local Open Scope list_scope.
Local Open Scope Z_scope.

Module PayloadSession.
Import Payload Messages Mpsc GuestService PayloadClient.

(** ** The connection

    Each direction is the bytes that were written and not yet read. A write
    waits for room and a read for bytes; when the other side is closed a read
    gets the end of the stream. *)

#[global] Instance wire_reader : AsyncReader (list byte) io_error :=
  fun r n => if n <=? len r then (Ok (ztake n r), zdrop n r)
             else (Err (CustomError UnexpectedEof "early eof"), []).
#[global] Instance wire_writer : AsyncWriter (list byte) io_error := fun w bs => (Ok tt, w ++ bs).

#[global] Instance wire_reader_laws : AsyncReaderLaws (list byte) io_error id.
Proof.
  split; intros r n Hn; unfold read_exact, wire_reader, id in *; case_test; try lia; eauto.
Qed.
#[global] Instance wire_writer_laws : AsyncWriterLaws (list byte) io_error id.
Proof. intros w bs w' Hw. by injection Hw as <-. Qed.

(** A frame is read exactly when it is complete. *)
Lemma wire_read r :
  read_frame_async r =
    match head r with
    | HasFrame f rest => Ret (Ok f, rest)
    | BadLength n => Ret (Err (AsyncFrame (PayloadTooLarge n MAX_FRAME_PAYLOAD)), zdrop FRAME_HEADER_LEN r)
    | _ => Ret (Err (AsyncIo (CustomError UnexpectedEof "early eof")), [])
    end.
Proof.
  unfold read_frame_async, read_exact, wire_reader, FRAME_HEADER_LEN.
  destruct r as [|h0 [|h1 [|h2 [|h3 [|h4 tl]]]]]; try done.
  rewrite !len_cons. pose proof (len_nonneg tl). rewrite (proj2 (Z.leb_le _ _)) by lia.
  change (ztake 5 (h0 :: h1 :: h2 :: h3 :: h4 :: tl)) with [h0; h1; h2; h3; h4].
  change (zdrop 5 (h0 :: h1 :: h2 :: h3 :: h4 :: tl)) with tl. unfold head, decode_header.
  case_test; [done|]. cbn [fst snd]. destruct (len tl <? from_be32 h1 h2 h3 h4) eqn:E; b2p.
  - by rewrite (proj2 (Z.leb_gt _ _)) by lia.
  - by rewrite (proj2 (Z.leb_le _ _)) by lia.
Qed.

Lemma frames_prefix fs gs rest :
  Forall frame_ok fs -> Forall frame_ok gs ->
  concat (map encode gs) = concat (map encode fs) ++ rest ->
  exists hs, gs = fs ++ hs /\ rest = concat (map encode hs).
Proof.
  revert gs. induction fs as [|f fs IH]; intros gs Hf Hg E; [by exists gs|].
  apply Forall_cons in Hf as [Hf Hfs]. cbn [map concat] in E. rewrite <-(assoc_L (++)) in E.
  pose proof (head_encode f (concat (map encode fs) ++ rest) Hf) as Hh. rewrite <-E in Hh.
  destruct gs as [|g gs]; [done|]. apply Forall_cons in Hg as [Hg Hgs]. cbn [map concat] in Hh.
  rewrite (head_encode g _ Hg) in Hh. injection Hh as -> Hrest.
  destruct (IH gs Hfs Hgs Hrest) as (hs & -> & ->). by exists hs.
Qed.

Section System.
Context `{PayloadJson} `{Channels}.
Context {I O J P : Type} `{Read I} `{Write O} `{Write J}.
Context (flush : O -> io_result unit * O) (set_winsize : P -> Z -> Z -> io_result unit * P).
Context (pid : option Z) (capacity : Z).

Local Notation client := (client (R := list byte) (W := list byte) (I := I) (O := O)).
Local Notation primary := (primary (R := list byte) (W := list byte) (I := J) (P := P)).

(** The writers keep all they wrote; what is under way is what the other side
    can still read. *)
Record system := mkSystem { s_client : client; s_guest : primary }.

Definition client_closed (c : client) : Prop := ~ running c.
Definition guest_closed (g : primary) : Prop := exists r, p_phase g = Finished r.

(** There is room for [d] behind the bytes under way. *)
Definition room (wire d : list byte) : Prop := d = [] \/ len (wire ++ d) <= capacity.

Inductive system_step : system -> system -> Prop :=
| ss_client y c d :
    client_step flush (s_client y) c -> c_writer c = c_writer (s_client y) ++ d ->
    room (p_reader (s_guest y)) d ->
    (incomplete (c_reader (s_client y)) ->
     guest_closed (s_guest y) \/ c_events c = c_events (s_client y)) ->
    system_step y (mkSystem c (with_reader (s_guest y) (p_reader (s_guest y) ++ d)))
| ss_guest y g d :
    primary_step set_winsize pid (s_guest y) g -> p_writer g = p_writer (s_guest y) ++ d ->
    room (c_reader (s_client y)) d ->
    (incomplete (p_reader (s_guest y)) ->
     client_closed (s_client y) \/ p_control_closed g = p_control_closed (s_guest y)) ->
    system_step y (mkSystem (set_reader (s_client y) (c_reader (s_client y) ++ d)) g).

(** After the client's request has been accepted. *)
Definition system_start (command_capacity event_capacity : Z) (o : PayloadControlOptions)
  (available : list Z) (i : option I) (out : O) (j : J) (p : P) : system :=
  mkSystem (client_start [] [] command_capacity event_capacity o available i out)
    (primary_start [] [] j p).

End System.

(** * Facts *)

Section SystemFacts.
Context `{PayloadJson} `{!PayloadJsonLaws} `{Channels} `{!ChannelLaws}.
Context {I O J P : Type} `{Read I} `{Write O} `{Write J}.
Context (flush : O -> io_result unit * O) (shown_by : O -> list byte) `{!WriteLaws O shown_by}.
Context (flush_quiet : forall o r o', flush o = (r, o') -> shown_by o' = shown_by o).
Context (typed : J -> list byte) `{!WriteLaws J typed}.
Context (set_winsize : P -> Z -> Z -> io_result unit * P) (pid : option Z) (capacity : Z).

Local Notation client := (client (R := list byte) (W := list byte) (I := I) (O := O)).
Local Notation primary := (primary (R := list byte) (W := list byte) (I := J) (P := P)).
Local Notation system := (system (I := I) (O := O) (J := J) (P := P)).
Local Notation step := (system_step flush set_winsize pid capacity).
Local Notation guest_ok := (primary_ok (R := list byte) (W := list byte) (I := J) (P := P) id typed pid).
Implicit Types (y : system) (c : client) (g : primary).

(** *** The guest never fails to send on an open connection *)

Lemma wire_send w k bs : len bs <= MAX_FRAME_PAYLOAD -> (send_frame w k bs).1 = Ok tt.
Proof.
  intros Hl. unfold send_frame, Frame_new. case_test; [lia|]. unfold write_frame_async. cbn [payload].
  case_test; [lia|]. done.
Qed.

Lemma control_not_frame g frame e io signals :
  handle_primary_control_frame set_winsize pid frame (p_io g) (p_signals g) = (Err e, io, signals) ->
  forall x, e <> FrameFailed x.
Proof.
  unfold handle_primary_control_frame, resize_primary_pty. intros Hh x ->.
  repeat (case_match; simplify_eq/=); destruct i; simplify_eq/=.
Qed.

Lemma chunk_fits i0 g exited chunk :
  guest_ok [] i0 g -> p_phase g = Sending exited chunk -> len chunk <= MAX_FRAME_PAYLOAD.
Proof.
  intros [Hp Ho _ _ _ _] Ep. destruct Ho as (d & Eq & _); [unfold intact; by rewrite Ep|].
  unfold held in Eq. rewrite Ep in Eq. rewrite Eq, !Forall_app, Forall_singleton in Hp.
  unfold MAX_FRAME_PAYLOAD. lia.
Qed.

Lemma exit_fits code r w w' :
  i32 code -> send_exit w code = Ret (r, w') -> r = Ok tt.
Proof.
  intros Hc. unfold send_exit. destruct (exit_json (mkExit code) Hc) as (bs & -> & Hl & _).
  intros [= E]. pose proof (wire_send w EXIT bs) as Hs. rewrite E in Hs. apply Hs.
  unfold MAX_FRAME_PAYLOAD. lia.
Qed.

Lemma guest_intact i0 g g' :
  primary_step set_winsize pid g g' -> guest_ok [] i0 g -> intact g -> intact g'.
Proof.
  intros Hstep Hok Hi. pose proof (pk_code _ _ _ _ _ _ Hok) as Hcode. unfold intact, code_known in *.
  destruct Hstep as [g g' []|g r chunk c Er|g r c Er|g code chunk c Er
    |g ex chunk w Er Ew|g ex chunk e w Er Ew|g r f Er|g f io sg Er Eh|g f e io sg Er Eh
    |g r e Er|g r st Er|g r e Er|g code Er|g code r w Er Ew]; try done; cbn; rewrite ?Er; try done.
  - by destruct ex.
  - pose proof (chunk_fits _ _ _ _ Hok Er) as Hl. apply (wire_send (p_writer g) OUTPUT) in Hl.
    unfold send_output in Ew. by rewrite Ew in Hl.
  - pose proof (control_not_frame _ _ _ _ _ Eh) as Hn. destruct e; try done. by destruct (Hn source).
  - rewrite Er in Hcode. by rewrite (exit_fits _ _ _ _ (proj2 Hcode) Ew).
Qed.

(** *** The frames under way *)

(** The reader task has not met the end. *)
Definition hears c : Prop :=
  match c_reading c with Idle => True | Busy e => terminal e = false | Stopped => False end.

(** The frames the client has read are the first ones of those the guest has
    sent, and the rest is under way. *)
Definition wired y : Prop :=
  Forall frame_ok (c_frames (s_client y)) /\
  exists rest, p_writer (s_guest y) = concat (map encode (c_frames (s_client y))) ++ rest /\
    (hears (s_client y) -> rest = c_reader (s_client y)).

Record system_ok (o0 i0 : list byte) y : Prop := {
  yk_guest : guest_ok [] i0 (s_guest y);
  yk_intact : intact (s_guest y);
  yk_client : client_ok shown_by o0 (s_client y);
  yk_wired : wired y
}.

Lemma reader_wired y c g :
  reader_step (s_client y) c -> wired y -> p_writer g = p_writer (s_guest y) ->
  wired (mkSystem c g).
Proof.
  intros Hs [Hf (rest & Hw & Hr)] Eg. unfold wired, hears in *. cbn. rewrite Eg, Hw.
  destruct Hs as [c r r' Hi Er|c e q Hb Es|c e e' q Hb Es]; cbn.
  - rewrite Hi in Hr. specialize (Hr Logic.I) as ->. rewrite wire_read in Er.
    destruct (head (c_reader c)) as [|n|n|f rest] eqn:Eh; injection Er as <- <-; cbn; rewrite ?app_nil_r;
      [by split; [|eexists]..|].
    apply head_frame_inv in Eh as [Hok ->]. split; [by apply Forall_app; split; [|apply Forall_singleton]|].
    exists rest. split; [|done]. rewrite map_app, concat_app, <-!(assoc_L (++)). cbn [map concat].
    by rewrite app_nil_r.
  - rewrite Hb in Hr. split; [by destruct (terminal e)|]. exists rest. destruct (terminal e); [done|].
    split; [done|]. intros _. by apply Hr.
  - split; [done|]. by exists rest.
Qed.

Lemma client_wired y c g :
  client_step flush (s_client y) c -> wired y -> p_writer g = p_writer (s_guest y) ->
  wired (mkSystem c g).
Proof.
  intros [_ Hs|_ Hs|_ Hs|Hs]; [by apply reader_wired|..]; intros [Hf (rest & Hw & Hr)] Eg;
    unfold wired, hears in *; cbn; rewrite Eg; destruct Hs; (split; [done|]); by exists rest.
Qed.

Lemma session_step_ok o0 i0 y y' : step y y' -> system_ok o0 i0 y -> system_ok o0 i0 y'.
Proof.
  intros Hstep [Hg Hi Hc Hw]. destruct Hstep as [y c d Hs Ed _ _|y g d Hs Ed _ _].
  - split; [cbn; eapply primary_ok_reader; exact Hg|done|by eapply client_step_ok|by eapply client_wired].
  - split; [eapply primary_step_ok; [apply _..|exact Hs|exact Hg]|by eapply guest_intact|by destruct Hc; split|].
    destruct Hw as [Hf (rest & Hw & Hr)]. split; [done|]. exists (rest ++ d). cbn in *.
    rewrite Ed, Hw, (assoc_L (++)). split; [done|]. intros Hh. by rewrite (Hr Hh).
Qed.

Lemma session_steps_ok o0 i0 y y' : rtc step y y' -> system_ok o0 i0 y -> system_ok o0 i0 y'.
Proof. induction 1; eauto using session_step_ok. Qed.

Lemma client_start_ok cc ec o available i out :
  client_ok shown_by (shown_by out) (client_start (R := list byte) (W := list byte) (I := I) [] [] cc ec o available i out).
Proof.
  unfold client_start. destruct (start_forwarder o available) as [f abort].
  destruct (channel_new_spec (A := event) (Z.max ec 1)) as (Eq & _ & _ & Er); [lia|].
  split; [|split; [constructor|by intros [] ? ? [=]]|done|by exists []].
  exists [], []. unfold in_hand. cbn. rewrite Eq, !app_nil_r. by split_and!.
Qed.

Lemma system_start_ok cc ec o available i out j p :
  system_ok (shown_by out) (typed j) (system_start (P := P) cc ec o available i out j p).
Proof.
  split; [exact (primary_start_ok id typed pid [] [] j p)|done|apply client_start_ok|].
  unfold wired, system_start, client_start. destruct (start_forwarder o available) as [f abort].
  split; [constructor|]. by exists [].
Qed.

(** *** What the client shows *)

Definition not_output (e : event) : Prop := forall bs, e <> Ok (Output bs).

Lemma split_outputs shown T L Y :
  outputs shown ++ T = L ++ Y -> Forall not_output Y ->
  exists T', L = outputs shown ++ T' /\ T = T' ++ Y.
Proof.
  revert L. induction shown as [|bs shown IH]; intros L E HY; [by exists L|].
  destruct L as [|e L].
  - cbn in E. subst Y. apply Forall_cons in HY as [Hn _]. by destruct (Hn bs).
  - cbn in E. injection E as <- E. destruct (IH L E HY) as (T' & -> & ->). by exists T'.
Qed.

Lemma outputs_app_inv delivered shown T :
  outputs delivered = outputs shown ++ T -> exists rest, delivered = shown ++ rest /\ T = outputs rest.
Proof.
  revert delivered. induction shown as [|bs shown IH]; intros delivered E; [by exists delivered|].
  destruct delivered as [|d delivered]; [done|]. cbn in E. injection E as -> E.
  destruct (IH _ E) as (rest & -> & ->). by exists rest.
Qed.

Definition told_event (f : Frame) : event := frame_event (Ok f).

Lemma output_events delivered :
  map told_event (map output_frame delivered) = outputs delivered.
Proof. induction delivered as [|d delivered IH]; [done|]. cbn [map outputs]. by rewrite IH. Qed.

(** The frames the guest has sent. *)
Lemma guest_frames i0 g :
  guest_ok [] i0 g -> intact g ->
  exists delivered more exits, p_produced g = delivered ++ more /\
    p_writer g = concat (map encode (map output_frame delivered ++ exits)) /\
    Forall frame_ok (map output_frame delivered ++ exits) /\
    (exits = [] \/ exists f code, exits = [f] /\ told_event f = Ok (Exit code) /\
       p_phase g = Finished (Ok tt) /\ p_exit g = Some code /\ more = queued (p_output g)).
Proof.
  intros [Hp Ho _ _ _ _] Hi. destruct (Ho Hi) as (delivered & Eq & Htr).
  assert (Forall frame_ok (map output_frame delivered)) as Hok.
  { rewrite Eq, Forall_app in Hp. apply Forall_map. eapply Forall_impl; [apply Hp|].
    intros x Hx. unfold frame_ok, output_frame, MAX_FRAME_PAYLOAD. cbn. cbn in Hx. lia. }
  unfold transcript, held in *.
  destruct (p_phase g) as [| | | | |[[]|e]] eqn:Ep;
    [by exists delivered, (queued (p_output g)), []; rewrite app_nil_r; auto
    |by exists delivered, (chunk :: queued (p_output g)), []; rewrite app_nil_r; auto
    |by exists delivered, (queued (p_output g)), []; rewrite app_nil_r; auto..
    | |by exists delivered, (queued (p_output g)), []; rewrite app_nil_r; auto].
  destruct Htr as (code & bs & Ex & Hc & Ev & Hl & Hw).
  exists delivered, (queued (p_output g)), [mkFrame EXIT bs]. split; [done|]. split; [done|].
  split; [by apply Forall_app; split; [|apply Forall_singleton]|].
  right. exists (mkFrame EXIT bs), code. split; [done|]. split; [|by auto].
  destruct (exit_json (mkExit code) Hc) as (bs' & Ev' & _ & Hs). rewrite Ev in Ev'. injection Ev' as <-.
  unfold told_event, frame_event, payload_event_from_frame. cbn. by rewrite Hs.
Qed.

Lemma no_exit_in_outputs delivered code T : outputs delivered <> Ok (Exit code) :: T.
Proof. by destruct delivered. Qed.

(** The client has taken a prefix of what the guest has sent. *)
Lemma client_prefix o0 i0 y :
  system_ok o0 i0 y ->
  exists delivered more exits hs errors, p_produced (s_guest y) = delivered ++ more /\
    outputs delivered ++ map told_event exits = map told_event (c_frames (s_client y)) ++ hs /\
    c_events (s_client y) = map told_event (c_frames (s_client y)) ++ errors /\
    Forall (fun e => exists x, e = Err x) errors /\
    (exits = [] \/ exists f code, exits = [f] /\ told_event f = Ok (Exit code) /\
       p_phase (s_guest y) = Finished (Ok tt) /\ p_exit (s_guest y) = Some code /\
       more = queued (p_output (s_guest y))).
Proof.
  intros [Hg Hi [_ _ _ (errors & He & Herr & _)] [Hf (rest & Hw & _)]].
  destruct (guest_frames _ _ Hg Hi) as (delivered & more & exits & Hp & Hwr & Hok & Hx).
  rewrite Hwr in Hw. destruct (frames_prefix _ _ _ Hf Hok Hw) as (hs & Hhs & _).
  exists delivered, more, exits, (map told_event hs), errors. split_and!; try done.
  by rewrite <-output_events, <-map_app, Hhs, map_app.
Qed.

Lemma errors_not_output errors :
  Forall (fun e : event => exists x, e = Err x) errors -> Forall not_output errors.
Proof. intros Hf. eapply Forall_impl; [exact Hf|]. by intros e [x ->] bs. Qed.

Lemma exits_not_output exits (Q : Frame -> Z -> Prop) :
  exits = [] \/ (exists f code, exits = [f] /\ told_event f = Ok (Exit code) /\ Q f code) ->
  Forall not_output (map told_event exits).
Proof.
  intros [->|(f & code & -> & Hf & _)]; [constructor|]. cbn [map]. rewrite Hf. by apply Forall_singleton.
Qed.

(** C1 (functional). However the two sides, their tasks and the connection are
    scheduled, what the client shows while a session runs is a prefix of what the
    payload printed; and when the client reports that the payload exited, then it
    did, with this code, and the client has shown all that the guest took from the
    terminal before it stopped waiting for more. *)
Theorem session_end_to_end cc ec o available i out j p y :
  rtc step (system_start cc ec o available i out j p) y ->
  (running (s_client y) ->
   exists shown rest, p_produced (s_guest y) = shown ++ rest /\
     shown_by (c_output (s_client y)) = shown_by out ++ concat shown) /\
  (forall code, c_main (s_client y) = Over (Ok (ExitOutcome code)) ->
   p_phase (s_guest y) = Finished (Ok tt) /\ p_exit (s_guest y) = Some code /\
   exists delivered, p_produced (s_guest y) = delivered ++ queued (p_output (s_guest y)) /\
     shown_by (c_output (s_client y)) = shown_by out ++ concat delivered).
Proof.
  intros Hs. pose proof (session_steps_ok _ _ _ _ Hs (system_start_ok cc ec o available i out j p)) as Hok.
  destruct (client_prefix _ _ _ Hok) as (delivered & more & exits & hs & errors & Hp & Hd & He & Herr & Hx).
  destruct Hok as [_ _ [(shown & tail & Ht & Hev & Hrun & Hexit) [_ Hend] _ _] _].
  pose proof Hev as Hsplit. rewrite He in Hsplit. symmetry in Hsplit.
  destruct (split_outputs _ _ _ _ Hsplit (errors_not_output _ Herr)) as (T1 & Hfr & HT1).
  rewrite Hfr, <-(assoc_L (++)) in Hd. symmetry in Hd.
  destruct (split_outputs _ _ _ _ Hd (exits_not_output _ _ Hx)) as (T2 & Hdel & HT2).
  destruct (outputs_app_inv _ _ _ Hdel) as (rest & -> & ->). split.
  { intros Hr. exists shown, (rest ++ more). rewrite (assoc_L (++)). auto. }
  intros code Hm. unfold taken in Ht. rewrite Hm in Ht. subst tail.
  assert (queued (c_queue (s_client y)) ++ in_hand (s_client y) = []) as Hnil by (by eapply Hend).
  rewrite Hnil, app_nil_r in HT1.
  destruct T1 as [|e1 T1]; [by cbn in HT1; subst errors; apply Forall_singleton in Herr as [x [=]]|].
  injection HT1 as <- _. destruct rest as [|r rest]; [|by cbn in HT2; injection HT2 as [=]].
  destruct Hx as [->|(f & code' & -> & Hf & Hph & Hpe & ->)]; [done|].
  cbn [map] in HT2. rewrite Hf in HT2. injection HT2 as -> _.
  split; [done|]. split; [done|]. exists shown. rewrite app_nil_r in Hp. by rewrite (Hexit code').
Qed.

(** *** Waiting for each other *)

Definition full {A} (q : channel A) : Prop :=
  receiver_dropped q = false /\ ch_capacity q <= len (queued q).

Lemma full_waits {A} (q : channel A) a : full q -> try_send q a = (Err (Full a), q).
Proof. intros [Hr Hl]. by apply try_send_full. Qed.

(** The loop of the client waits for room among the commands, its writer task for
    room on the way to the guest, the guest for room on the way to the client, and
    the reader task of the client for room among the events. *)
Record blocked (bs chunk : list byte) (frame : Frame) (e : event) y : Prop := {
  bl_main : c_main (s_client y) = SendingInput bs;
  bl_commands : full (c_commands (s_client y));
  bl_writing : c_writing (s_client y) = Busy frame;
  bl_frame : frame_ok frame;
  bl_up : capacity < len (p_reader (s_guest y) ++ encode frame);
  bl_guest : exists exited, p_phase (s_guest y) = Sending exited chunk;
  bl_chunk : frame_ok (output_frame chunk);
  bl_down : capacity < len (c_reader (s_client y) ++ encode (output_frame chunk));
  bl_reading : c_reading (s_client y) = Busy e;
  bl_queue : full (c_queue (s_client y))
}.

Lemma encode_cons_nil f : encode f <> [].
Proof. done. Qed.

Lemma wire_write_frame w f : frame_ok f -> write_frame_async w f = (Ok tt, w ++ encode f).
Proof. intros Hf. unfold frame_ok in Hf. unfold write_frame_async. case_test; [lia|done]. Qed.

Lemma no_room wire w d f :
  capacity < len (wire ++ encode f) -> w ++ encode f = w ++ d -> ~ room capacity wire d.
Proof. intros Hc <-%app_inv_head [Hd|Hd]; [by destruct (encode_cons_nil f)|lia]. Qed.

Lemma app_same {A} (w d : list A) : w = w ++ d -> d = [].
Proof. intros E. apply (app_inv_head w). by rewrite <-E, app_nil_r. Qed.

Lemma blocked_client bs chunk frame e y c d :
  blocked bs chunk frame e y -> client_step flush (s_client y) c ->
  c_writer c = c_writer (s_client y) ++ d -> room capacity (p_reader (s_guest y)) d ->
  d = [] /\ c_main c = SendingInput bs /\ c_commands c = c_commands (s_client y) /\
  c_writing c = Busy frame /\ c_reader c = c_reader (s_client y) /\ c_reading c = Busy e /\
  c_queue c = c_queue (s_client y).
Proof.
  intros [Hm Hcm Hw Hf Hup _ _ _ Hr Hq] Hstep Hd Hroom.
  destruct Hstep as [_ Hs|_ Hs|_ Hs|Hs].
  - destruct Hs as [|c e1 q Hb Es|c e1 e2 q Hb Es]; [congruence|rewrite full_waits in Es by done; done..].
  - destruct Hs as [| |c f w Hb Es|c f x w Hb Es]; [congruence..| |].
    + assert (f = frame) as -> by congruence. rewrite wire_write_frame in Es by done. injection Es as <-.
      by destruct (no_room _ _ _ _ Hup Hd).
    + assert (f = frame) as -> by congruence. by rewrite wire_write_frame in Es.
  - destruct Hs as [c f sg ws|c f cmd q _ _ Es|c f cmd cmd' q _ _ Es|c f r q _ _ _];
      try (rewrite full_waits in Es by done; done); by apply app_same in Hd.
  - destruct Hs as [| | | |c bs1 q _ Es|c bs1 cmd q _ Es| | | |]; try congruence;
      rewrite full_waits in Es by done; done.
Qed.

Lemma blocked_guest bs chunk frame e y g d :
  blocked bs chunk frame e y -> primary_step set_winsize pid (s_guest y) g ->
  p_writer g = p_writer (s_guest y) ++ d -> room capacity (c_reader (s_client y)) d ->
  d = [] /\ p_phase g = p_phase (s_guest y) /\ p_reader g = p_reader (s_guest y).
Proof.
  intros [_ _ _ _ _ [ex Hp] Hc Hdown _ _] Hstep Hd Hroom.
  assert (forall w, send_output w chunk = (Ok tt, w ++ encode (output_frame chunk))) as Hsend.
  { intros w. unfold send_output, send_frame, Frame_new. unfold frame_ok in Hc. cbn in Hc.
    case_test; [lia|]. by apply wire_write_frame. }
  destruct Hstep as [g g' Hpty| | | |g ex1 c1 w Er Es|g ex1 c1 x w Er Es| | | | | | | |]; try congruence.
  - destruct Hpty; by apply app_same in Hd.
  - assert (c1 = chunk) as -> by congruence. rewrite Hsend in Es. injection Es as <-.
    by destruct (no_room _ _ _ _ Hdown Hd).
Qed.

Lemma blocked_step bs chunk frame e y y' :
  step y y' -> blocked bs chunk frame e y -> blocked bs chunk frame e y'.
Proof.
  intros Hstep Hb. destruct Hstep as [y c d Hs Hd Hroom _|y g d Hs Hd Hroom _].
  - destruct (blocked_client _ _ _ _ _ _ _ Hb Hs Hd Hroom) as (-> & Hm & Hcm & Hw & Hrd & Hr & Hq).
    destruct Hb. split; cbn; rewrite ?app_nil_r, ?Hcm, ?Hrd, ?Hq; done.
  - destruct (blocked_guest _ _ _ _ _ _ _ Hb Hs Hd Hroom) as (-> & Hp & Hrd).
    destruct Hb. split; cbn; rewrite ?app_nil_r, ?Hp, ?Hrd; done.
Qed.

(** C39 (error). Input and output that fill the connection bring a session to a
    stop: the client, waiting to queue input, takes no events, so the guest cannot
    send output, and while it waits it reads no input. No step of either side
    changes that, and neither does a signal of the host, since the client does not
    look at the request to abort. *)
Theorem sessions_wait_for_each_other bs chunk frame e y y' :
  blocked bs chunk frame e y -> rtc step y y' ->
  c_main (s_client y') = SendingInput bs /\ exists exited, p_phase (s_guest y') = Sending exited chunk.
Proof.
  intros Hb Hs. assert (blocked bs chunk frame e y') as [].
  { induction Hs; eauto using blocked_step. }
  done.
Qed.

End SystemFacts.

(** ** Witnesses *)

#[local] Existing Instance Messages.bits_json.
#[local] Existing Instance Messages.bits_json_laws.

Definition no_flush (o : sink) : io_result unit * sink := (Ok tt, o).

Lemma no_flush_quiet o r o' : no_flush o = (r, o') -> accepted o' = accepted o.
Proof. by intros [= _ <-]. Qed.

Local Notation demo_system := (system (I := scripted) (O := sink) (J := sink) (P := unit)).
Local Notation demo_step capacity := (system_step no_flush any_size (Some 7) capacity).

(** One frame fits on the wire, and one message into each queue. *)
Definition demo_begin (input : option scripted) : demo_system :=
  system_start 1 1 options_disabled [] input (mkSink 100 []) (mkSink 100 []) tt.

(** A run is built step by step; the state reached is evaluated after each. *)
Lemma run_on capacity (y y' : demo_system) Q :
  demo_step capacity y y' -> (exists z, rtc (demo_step capacity) y' z /\ Q z) ->
  exists z, rtc (demo_step capacity) y z /\ Q z.
Proof. intros Hs (z & Hz & Hq). exists z. split; [by eapply rtc_l|done]. Qed.

Ltac evaluate_state :=
  match goal with
  | |- exists z, rtc _ ?y z /\ _ => let v := eval vm_compute in y in change y with v
  end.
Ltac client_does bytes tac :=
  eapply run_on;
  [eapply (ss_client _ _ _ _ _ _ bytes); [tac|reflexivity|first [by left|by right]|first [by intros [|[]]|by right]]|];
  evaluate_state.
Ltac guest_does bytes tac :=
  eapply run_on;
  [eapply (ss_guest _ _ _ _ _ _ bytes); [tac|reflexivity|first [by left|by right]|by right]|];
  evaluate_state.
Ltac untouched := apply (cancelled_header _ 0 []); [done|reflexivity].

Definition key : list byte := [Byte.x78].
Definition printed : list byte := [Byte.x79].

Ltac prints := guest_does (@nil byte) ltac:(eapply pr_pty, (pty_chunk _ printed); [done|reflexivity]).
Ltac guest_takes :=
  guest_does (@nil byte) ltac:(eapply pr_output; [reflexivity|untouched|reflexivity]).
Ltac guest_sends := guest_does (encode (output_frame printed)) ltac:(eapply pr_sent; reflexivity).
Tactic Notation "main_does" uconstr(rule) :=
  client_does (@nil byte) ltac:(apply cl_main; eapply rule; first [reflexivity|done]).
Tactic Notation "reader_does" uconstr(rule) :=
  client_does (@nil byte) ltac:(apply cl_reader; [exact Logic.I|eapply rule; reflexivity]).
Tactic Notation "writer_does" constr(bytes) uconstr(rule) :=
  client_does bytes ltac:(apply cl_writer; [exact Logic.I|eapply rule; reflexivity]).

Lemma demo_run :
  exists z : demo_system, rtc (demo_step 100) (demo_begin None) z /\
    c_main (s_client z) = Over (Ok (ExitOutcome 0)).
Proof.
  evaluate_state. prints. guest_takes. guest_sends. reader_does rd_read. reader_does rd_queued.
  main_does mn_event. main_does mn_written.
  guest_does (@nil byte) ltac:(eapply (pr_exited _ _ _ _ (Some 0)); [reflexivity|untouched|done]).
  guest_does (@nil byte) ltac:(eapply pr_drained; [reflexivity|left; reflexivity]).
  guest_does (encode (mkFrame EXIT (number_bytes 0))) ltac:(eapply pr_reported; reflexivity).
  reader_does rd_read. reader_does rd_queued. main_does mn_event.
  eexists. split; [apply rtc_refl|reflexivity].
Qed.

Lemma session_end_to_end_witness :
  exists z : demo_system, rtc (demo_step 100) (demo_begin None) z /\
    c_main (s_client z) = Over (Ok (ExitOutcome 0)) /\ p_exit (s_guest z) = Some 0.
Proof.
  destruct demo_run as (z & Hz & Hm). exists z. split; [exact Hz|]. split; [exact Hm|].
  destruct (session_end_to_end no_flush accepted no_flush_quiet accepted any_size (Some 7) 100
    _ _ _ _ _ _ _ _ z Hz) as [_ He].
  destruct (He 0 Hm) as (_ & Hx & _). exact Hx.
Defined.

(** The user types while the payload prints, and nobody reads. *)
Definition keys : scripted := mkScripted [Deliver key; Deliver key; Deliver key; Deliver key] [].

Ltac types := main_does mn_input; main_does mn_input_sent.
Ltac output_arrives := prints; guest_takes; guest_sends; reader_does rd_read.

Lemma demo_stuck :
  exists z : demo_system, rtc (demo_step 8) (demo_begin (Some keys)) z /\
    blocked 8 key printed (mkFrame INPUT key) (Ok (Output printed)) z.
Proof.
  evaluate_state. types. writer_does (@nil byte) wr_command.
  writer_does (encode (mkFrame INPUT key)) wr_written.
  types. writer_does (@nil byte) wr_command. types. main_does mn_input.
  output_arrives. reader_does rd_queued. output_arrives. prints. guest_takes. guest_sends.
  prints. guest_takes.
  eexists. split; [apply rtc_refl|]. split; try done. by eexists.
Qed.

Lemma sessions_wait_for_each_other_witness :
  exists z : demo_system, rtc (demo_step 8) (demo_begin (Some keys)) z /\
    forall z', rtc (demo_step 8) z z' -> c_main (s_client z') = SendingInput key.
Proof.
  destruct demo_stuck as (z & Hz & Hb). exists z. split; [exact Hz|]. intros z' Hz'.
  destruct (sessions_wait_for_each_other no_flush any_size (Some 7) 8 _ _ _ _ z z' Hb Hz') as [Hm _].
  exact Hm.
Defined.

End PayloadSession.
