(* ===== verification/Frontend.v ===== *)
(** The configuration of the frontend (src/vm-frontend/src/lib.rs): the layout of
    the run directory, the tasks of the supervisor and the command line of QEMU;
    and the parts of src/vm-frontend/src/launch.rs that compute it from the
    artifact manifest.

    Paths are strings, as in FsPath.v. QEMU is an interface, [Qemu], with what its
    documentation says about the options the program uses as laws; the theorem
    shows what QEMU reads from the command line the program builds. *)

From stdpp Require Import base option list numbers strings.
From Stdlib Require Import ZArith Lia Ascii String.
From S2P Require Import Prelude RustIo RustStr NetworkPolicy L2Gateway TcpGateway FsPath VmnetServiceIo.

Local Open Scope string_scope.
Local Open Scope Z_scope.

Module Frontend.
Import Policy FsPath.

Definition MACHINE_MICROVM : string := "microvm".
Definition COMPOSED_FS_TAG : string := "agentvm".
Definition CONFIG_FS_TAG : string := "agentvm-config".
Definition COMPOSED_FS_MOUNTPOINT : string := "/run/agentvm-host".
Definition VIRTIOFS_QUEUE_SIZE : Z := 128.
Definition VIRTIOFS_NUM_QUEUES : Z := 1.

Record RuntimePaths := mkPaths {
  run_dir : string;
  console_log : string;
  state_json : string;
  lock : string;
  state_disk : string;
  composed_fs_manifest : string;
  composed_fs_sock : string;
  config_fs_manifest : string;
  guest_config_dir : string;
  composed_bind_manifest : string;
  guest_launch_config : string;
  config_fs_sock : string;
  vmnet_sock : string;
  vmnet_event_log : string;
  docker_sock : string
}.

Definition RuntimePaths_under (run_dir : string) : RuntimePaths :=
  let root_dir := default ".sandbox/docker-vm" (parent run_dir) in
  {| run_dir := run_dir;
     console_log := path_join run_dir "console.log";
     state_json := path_join run_dir "state.json";
     lock := path_join root_dir "lock";
     state_disk := path_join root_dir "state.raw";
     composed_fs_manifest := path_join run_dir "composed-fs-manifest.json";
     composed_fs_sock := path_join run_dir "virtiofs.sock";
     config_fs_manifest := path_join run_dir "config-fs-manifest.json";
     guest_config_dir := path_join run_dir "guest-config";
     composed_bind_manifest := path_join (path_join run_dir "guest-config") "composed-binds.json";
     guest_launch_config := path_join (path_join run_dir "guest-config") "launch.json";
     config_fs_sock := path_join run_dir "guest-config.sock";
     vmnet_sock := path_join run_dir "vmnet.sock";
     vmnet_event_log := path_join run_dir "vmnet-events.log";
     docker_sock := path_join run_dir "docker.sock" |}.

Record VmArtifacts := mkArtifacts { kernel : string; initrd : string; rootfs : string }.

Record VmShape := mkShape {
  memory_bytes : Z; cpus : Z; kernel_cmdline : string; virtiofs_tag : string }.

(** [ToolPaths] has the one field [qemu_system_x86_64]. *)
Record FrontendConfig := mkFrontend {
  project : string;
  qemu_system_x86_64 : string;
  artifacts : VmArtifacts;
  runtime : RuntimePaths;
  vm : VmShape;
  network : GuestNetwork;
  guest_http_smoke_url : option string;
  guest_log_dir : option string;
  upstream_mappings : list Tcp.UpstreamMapping
}.

(** [ServeConfig] of src/composed-fs/src/server.rs. *)
Record ServeConfig := mkServe {
  sc_manifest : string; sc_socket_path : string; sc_tag : string; sc_thread_pool_size : Z }.

Definition DEFAULT_THREAD_POOL_SIZE : Z := 1.

Definition ServeConfig_validate (c : ServeConfig) : io_result unit :=
  if sc_thread_pool_size c =? 0
  then Err (invalid_input
    "thread_pool_size must be at least 1 for bounded blocking filesystem workers")
  else Ok tt.

Definition composed_fs_server (c : FrontendConfig) : ServeConfig :=
  mkServe (composed_fs_manifest (runtime c)) (composed_fs_sock (runtime c)) (virtiofs_tag (vm c))
    DEFAULT_THREAD_POOL_SIZE.

Definition config_fs_server (c : FrontendConfig) : ServeConfig :=
  mkServe (config_fs_manifest (runtime c)) (config_fs_sock (runtime c)) CONFIG_FS_TAG
    DEFAULT_THREAD_POOL_SIZE.

Record StateSnapshot := mkSnapshot {
  machine_type : string; network_backend : string; composed_fs_kind : string; qemu_device_count : Z }.

Definition state_snapshot (c : FrontendConfig) : StateSnapshot :=
  mkSnapshot MACHINE_MICROVM "stream" "embedded" 6.

(** ** The command line of QEMU *)

Definition virtiofs_device (chardev_id socket_path tag : string) : list string :=
  ["-chardev"; "socket,id=" ++ chardev_id ++ ",path=" ++ socket_path;
   "-device";
   "vhost-user-fs-device,chardev=" ++ chardev_id ++ ",tag=" ++ tag ++ ",queue-size="
     ++ show_usize VIRTIOFS_QUEUE_SIZE ++ ",num-request-queues=" ++ show_usize VIRTIOFS_NUM_QUEUES].

Definition stream_netdev_arg (c : FrontendConfig) : string :=
  "stream,id=net0,server=off,addr.type=unix,addr.path=" ++ vmnet_sock (runtime c)
    ++ ",reconnect-ms=" ++ show_usize (vmnet_reconnect_ms (network c)).

Definition build_microvm_qemu_command (c : FrontendConfig) : list string :=
  let memory_mib := Z.max 1 (memory_bytes (vm c) / (1024 * 1024)) in
  let machine :=
   [qemu_system_x86_64 c;
    "-enable-kvm";
    "-cpu"; "host";
    "-nodefaults";
    "-no-user-config";
    "-no-reboot";
    "-display"; "none";
    "-serial"; "file:" ++ console_log (runtime c);
    "-monitor"; "none";
    "-machine"; "microvm,acpi=off,memory-backend=mem,isa-serial=on";
    "-object"; "memory-backend-memfd,id=mem,size=" ++ show_usize (memory_bytes (vm c)) ++ ",share=on";
    "-m"; show_usize memory_mib;
    "-smp"; show_usize (cpus (vm c));
    "-kernel"; kernel (artifacts c);
    "-initrd"; initrd (artifacts c);
    "-append"; kernel_cmdline (vm c);
    "-drive"; "if=none,file=" ++ rootfs (artifacts c) ++ ",format=raw,readonly=on,id=rootfs";
    "-device"; "virtio-blk-device,drive=rootfs";
    "-drive"; "if=none,file=" ++ state_disk (runtime c) ++ ",format=raw,id=statedisk";
    "-device"; "virtio-blk-device,drive=statedisk";
    "-object"; "rng-random,id=rng0,filename=/dev/urandom";
    "-device"; "virtio-rng-device,rng=rng0"] in
  let net :=
    ["-netdev"; stream_netdev_arg c;
     "-device"; "virtio-net-device,netdev=net0,mac=" ++ guest_mac (network c)] in
  (machine
   ++ virtiofs_device "charfs" (composed_fs_sock (runtime c)) (virtiofs_tag (vm c))
   ++ virtiofs_device "charcfg" (config_fs_sock (runtime c)) CONFIG_FS_TAG
   ++ net)%list.

(** ** The tasks of the supervisor *)

Record ProcessSpec := mkProcess { program : string; args : list string; stdout_log : string }.

Section Plan.
Context `{Ipv4NetOps}.

(** [VmnetRuntimeConfig] of src/vm-frontend/src/vmnet_runtime.rs, with durations in
    milliseconds. *)
Record VmnetRuntimeConfig := mkVmnetConfig {
  socket_path : string;
  event_log_path : option string;
  vc_upstream_mappings : list Tcp.UpstreamMapping;
  vc_network : GuestNetwork;
  vc_policy : VmnetPolicy;
  upstream_connect_timeout : Z;
  idle_sleep : Z;
  service_io_limits : ServiceIo.VmnetServiceIoLimits
}.

Definition DEFAULT_UPSTREAM_CONNECT_TIMEOUT : Z := 10 * 1000.
Definition DEFAULT_VMNET_IDLE_SLEEP : Z := 2.

Definition vmnet_gateway_config (c : FrontendConfig) : exec VmnetRuntimeConfig :=
  let! policy := default_sandbox (network c) in
  Ret {| socket_path := vmnet_sock (runtime c);
         event_log_path := Some (vmnet_event_log (runtime c));
         vc_upstream_mappings := upstream_mappings c;
         vc_network := network c;
         vc_policy := policy;
         upstream_connect_timeout := DEFAULT_UPSTREAM_CONNECT_TIMEOUT;
         idle_sleep := DEFAULT_VMNET_IDLE_SLEEP;
         service_io_limits := ServiceIo.IoLimits_default |}.

Inductive ManagedTask :=
| EmbeddedComposedFs (config : ServeConfig)
| VmnetGateway (config : VmnetRuntimeConfig)
| DockerProxy
| ChildProcess (process : ProcessSpec).

Record SupervisorPlan := mkPlan {
  plan_composed_fs : ManagedTask;
  plan_config_fs : ManagedTask;
  plan_vmnet : ManagedTask;
  plan_docker_proxy : option ManagedTask;
  plan_qemu : ManagedTask;
  state_path : string
}.

Definition supervisor_plan (c : FrontendConfig) : exec SupervisorPlan :=
  let! vmnet := vmnet_gateway_config c in
  Ret {| plan_composed_fs := EmbeddedComposedFs (composed_fs_server c);
         plan_config_fs := EmbeddedComposedFs (config_fs_server c);
         plan_vmnet := VmnetGateway vmnet;
         plan_docker_proxy := None;
         plan_qemu := ChildProcess (mkProcess (qemu_system_x86_64 c)
           (tail (build_microvm_qemu_command c)) (path_join (run_dir (runtime c)) "qemu.log"));
         state_path := state_json (runtime c) |}.

End Plan.

(** ** From the artifact manifest (src/vm-frontend/src/launch.rs) *)

Definition fnv1a64 (bytes : list byte) : Z :=
  fold_left (fun hash b => Z.lxor hash (u8 b) * 0x100000001b3 mod 2 ^ 64) bytes 0xcbf29ce484222325.

Definition computed_guest_network (repo_root : string) : GuestNetwork :=
  let digest := fnv1a64 (String.list_byte_of_string repo_root) in
  let octet shift := show_hex2 (Z.land (Z.shiftr digest shift) 0xff) in
  {| guest_ip := guest_ip GuestNetwork_default;
     gateway_ip := gateway_ip GuestNetwork_default;
     prefix_len := prefix_len GuestNetwork_default;
     dns_ip := dns_ip GuestNetwork_default;
     guest_mac := "02:fc:" ++ octet 24 ++ ":" ++ octet 16 ++ ":" ++ octet 8 ++ ":" ++ octet 0;
     vmnet_reconnect_ms := vmnet_reconnect_ms GuestNetwork_default |}.

(** [str::split_whitespace], of ASCII text. *)
Definition is_white (a : ascii) : bool :=
  let n := N_of_ascii a in ((9 <=? n) && (n <=? 13) || (n =? 32))%N.

Fixpoint split_whitespace (s : string) (word : string) : list string :=
  match s with
  | EmptyString => if bool_decide (word = "") then [] else [word]
  | String a s' =>
      if is_white a
      then app (if bool_decide (word = "") then [] else [word]) (split_whitespace s' "")
      else split_whitespace s' (word ++ String a "")
  end.

Definition ensure_ttys0_console (cmdline : string) : string :=
  join " " ("console=ttyS0,115200n8" ::
    filter (fun arg => starts_with "console=" arg = false) (split_whitespace cmdline "")).

(** * What QEMU reads

    QEMU takes the argument of some options as settings between commas, each of
    them [key=value] or a bare word, and that of the others as it is. *)

Class Qemu := {
  takes_argument : string -> bool;
  takes_settings : string -> bool;
  settings_of : string -> list (string * option string)
}.

Fixpoint key_value (s : string) : string * option string :=
  match s with
  | EmptyString => ("", None)
  | String a s' =>
      if decide (a = "="%char) then ("", Some s')
      else let '(k, v) := key_value s' in (String a k, v)
  end.

(** A setting that needs no quoting. *)
Definition setting_text (s : string) : Prop := s <> "" /\ contains_char "," s = false.

(** The options of the manual that the program uses, and the syntax of settings
    whose values contain no comma. *)
Class QemuLaws `{Qemu} : Prop := {
  bare_options :
    Forall (fun o => takes_argument o = false) ["-enable-kvm"; "-nodefaults"; "-no-user-config"; "-no-reboot"];
  argument_options :
    Forall (fun o => takes_argument o = true /\ takes_settings o = false)
      ["-cpu"; "-display"; "-serial"; "-monitor"; "-m"; "-smp"; "-kernel"; "-initrd"; "-append"];
  settings_options :
    Forall (fun o => takes_argument o = true /\ takes_settings o = true)
      ["-machine"; "-object"; "-drive"; "-device"; "-chardev"; "-netdev"];
  settings_join parts : parts <> [] -> Forall setting_text parts ->
    settings_of (join "," parts) = map key_value parts
}.

Inductive reading := Bare | Argument (text : string) | Settings (settings : list (string * option string)).

Fixpoint qemu_reads `{Qemu} (args : list string) : list (string * reading) :=
  match args with
  | [] => []
  | flag :: rest =>
      if takes_argument flag then
        match rest with
        | arg :: rest =>
            (flag, if takes_settings flag then Settings (settings_of arg) else Argument arg) :: qemu_reads rest
        | [] => []
        end
      else (flag, Bare) :: qemu_reads rest
  end.

Lemma show_usize_contains c n : to_digit 10 c = None -> contains_char c (show_usize n) = false.
Proof.
  intros Hc. unfold show_usize. apply (parse_digits_contains c (Z.of_N (Z.to_N n)) 0 _ (Z.of_N (Z.to_N n)) Hc).
  rewrite <- (N2Z.id (Z.to_N n)) at 2. apply parse_digits_show. lia.
Qed.

Lemma prefixed_setting (k v : string) :
  k <> "" -> contains_char "," k = false -> contains_char "," v = false -> setting_text (k ++ v).
Proof. intros Hk Hc Hv. split; [by destruct k|]. by rewrite contains_char_app, Hc, Hv. Qed.

(** What the program means QEMU to read. *)
Definition virtiofs_reading (chardev_id socket tag : string) : list (string * reading) :=
  [("-chardev", Settings [("socket", None); ("id", Some chardev_id); ("path", Some socket)]);
   ("-device", Settings [("vhost-user-fs-device", None); ("chardev", Some chardev_id); ("tag", Some tag);
      ("queue-size", Some "128"); ("num-request-queues", Some "1")])].

Definition intended_reading (c : FrontendConfig) : list (string * reading) :=
  let machine :=
    [("-enable-kvm", Bare); ("-cpu", Argument "host"); ("-nodefaults", Bare); ("-no-user-config", Bare);
     ("-no-reboot", Bare); ("-display", Argument "none");
     ("-serial", Argument ("file:" ++ console_log (runtime c))); ("-monitor", Argument "none");
     ("-machine", Settings [("microvm", None); ("acpi", Some "off"); ("memory-backend", Some "mem");
       ("isa-serial", Some "on")]);
     ("-object", Settings [("memory-backend-memfd", None); ("id", Some "mem");
       ("size", Some (show_usize (memory_bytes (vm c)))); ("share", Some "on")]);
     ("-m", Argument (show_usize (Z.max 1 (memory_bytes (vm c) / 2 ^ 20))));
     ("-smp", Argument (show_usize (cpus (vm c))));
     ("-kernel", Argument (kernel (artifacts c))); ("-initrd", Argument (initrd (artifacts c)));
     ("-append", Argument (kernel_cmdline (vm c)));
     ("-drive", Settings [("if", Some "none"); ("file", Some (rootfs (artifacts c))); ("format", Some "raw");
       ("readonly", Some "on"); ("id", Some "rootfs")]);
     ("-device", Settings [("virtio-blk-device", None); ("drive", Some "rootfs")]);
     ("-drive", Settings [("if", Some "none"); ("file", Some (state_disk (runtime c))); ("format", Some "raw");
       ("id", Some "statedisk")]);
     ("-device", Settings [("virtio-blk-device", None); ("drive", Some "statedisk")]);
     ("-object", Settings [("rng-random", None); ("id", Some "rng0"); ("filename", Some "/dev/urandom")]);
     ("-device", Settings [("virtio-rng-device", None); ("rng", Some "rng0")])] in
  let net :=
    [("-netdev", Settings [("stream", None); ("id", Some "net0"); ("server", Some "off");
       ("addr.type", Some "unix"); ("addr.path", Some (vmnet_sock (runtime c)));
       ("reconnect-ms", Some (show_usize (vmnet_reconnect_ms (network c))))]);
     ("-device", Settings [("virtio-net-device", None); ("netdev", Some "net0");
       ("mac", Some (guest_mac (network c)))])] in
  (machine ++ virtiofs_reading "charfs" (composed_fs_sock (runtime c)) (virtiofs_tag (vm c))
   ++ virtiofs_reading "charcfg" (config_fs_sock (runtime c)) CONFIG_FS_TAG ++ net)%list.

(** The values that stand between commas have none. *)
Definition comma_free (c : FrontendConfig) : Prop :=
  Forall (fun s => contains_char "," s = false)
    [rootfs (artifacts c); state_disk (runtime c); composed_fs_sock (runtime c);
     config_fs_sock (runtime c); vmnet_sock (runtime c); virtiofs_tag (vm c); guest_mac (network c)].

Section QemuFacts.
Context `{QemuLaws}.

(** The three kinds of options, at the head of a command line. *)
Lemma read_bare flag rest : takes_argument flag = false -> qemu_reads (flag :: rest) = (flag, Bare) :: qemu_reads rest.
Proof. intros Hf. cbn. by rewrite Hf. Qed.

Lemma read_argument flag arg rest :
  takes_argument flag = true /\ takes_settings flag = false ->
  qemu_reads (flag :: arg :: rest) = (flag, Argument arg) :: qemu_reads rest.
Proof. intros [Hf Hs]. cbn. by rewrite Hf, Hs. Qed.

Lemma read_settings flag arg parts rest :
  takes_argument flag = true /\ takes_settings flag = true -> arg = join "," parts -> parts <> [] ->
  Forall setting_text parts ->
  qemu_reads (flag :: arg :: rest) = (flag, Settings (map key_value parts)) :: qemu_reads rest.
Proof. intros [Hf Hs] -> Hne Hp. cbn. by rewrite Hf, Hs, settings_join. Qed.

Lemma option_in {P : string -> Prop} {l} o : Forall P l -> bool_decide (o ∈ l) = true -> P o.
Proof. intros Hl Ho%bool_decide_eq_true. rewrite Forall_forall in Hl. by apply Hl. Qed.

Ltac setting :=
  first [by split | apply prefixed_setting; [done|done|first [assumption | by apply show_usize_contains]]].

Ltac plain :=
  repeat first
    [ rewrite read_bare by (refine (option_in _ bare_options _); reflexivity)
    | rewrite read_argument by (refine (option_in _ argument_options _); reflexivity) ].

Ltac reads parts :=
  rewrite (read_settings _ _ parts);
    [|by refine (option_in _ settings_options _)|by cbn; rewrite ?str_app_assoc|done
     |repeat apply Forall_cons_2; try apply Forall_nil_2; setting].

Lemma virtiofs_read id socket tag rest :
  contains_char "," id = false -> contains_char "," socket = false -> contains_char "," tag = false ->
  qemu_reads (virtiofs_device id socket tag ++ rest)%list =
  (virtiofs_reading id socket tag ++ qemu_reads rest)%list.
Proof.
  intros Hi Hs Ht. unfold virtiofs_device, virtiofs_reading. cbn [app].
  reads ["socket"; "id=" ++ id; "path=" ++ socket].
  reads ["vhost-user-fs-device"; "chardev=" ++ id; "tag=" ++ tag; "queue-size=128"; "num-request-queues=1"].
  done.
Qed.

(** C23 (functional). The command line tells QEMU what the configuration says:
    when the paths, the tag and the hardware address contain no comma, QEMU reads
    exactly the intended options, in order, each with its value: the kernel, the
    initial ramdisk and the kernel's command line, the memory and the processors, the
    console, the disks, the network and the two file systems are those of the
    configuration. *)
Theorem qemu_reads_configuration c :
  comma_free c -> qemu_reads (tail (build_microvm_qemu_command c)) = intended_reading c.
Proof.
  intros Hc. repeat apply Forall_cons in Hc as [? Hc].
  unfold build_microvm_qemu_command, intended_reading. cbv beta zeta. cbn [tail app].
  plain. reads ["microvm"; "acpi=off"; "memory-backend=mem"; "isa-serial=on"].
  reads ["memory-backend-memfd"; "id=mem"; "size=" ++ show_usize (memory_bytes (vm c)); "share=on"].
  plain. reads ["if=none"; "file=" ++ rootfs (artifacts c); "format=raw"; "readonly=on"; "id=rootfs"].
  reads ["virtio-blk-device"; "drive=rootfs"].
  reads ["if=none"; "file=" ++ state_disk (runtime c); "format=raw"; "id=statedisk"].
  reads ["virtio-blk-device"; "drive=statedisk"].
  reads ["rng-random"; "id=rng0"; "filename=/dev/urandom"].
  reads ["virtio-rng-device"; "rng=rng0"].
  rewrite !virtiofs_read by done.
  reads ["stream"; "id=net0"; "server=off"; "addr.type=unix"; "addr.path=" ++ vmnet_sock (runtime c);
    "reconnect-ms=" ++ show_usize (vmnet_reconnect_ms (network c))].
  reads ["virtio-net-device"; "netdev=net0"; "mac=" ++ guest_mac (network c)].
  reflexivity.
Qed.

End QemuFacts.

(** ** The guest's network *)

Lemma hash_octet d shift : 0 <= shift -> Z.land (Z.shiftr d shift) 0xff = u8 (byte_of_Z (d / 2 ^ shift)).
Proof.
  intros Hs. rewrite u8_byte_of_Z, Z.shiftr_div_pow2 by done. apply (Z.land_ones (d / 2 ^ shift) 8). done.
Qed.

Lemma low_bytes d :
  from_be32 (byte_of_Z (d / 2 ^ 24)) (byte_of_Z (d / 2 ^ 16)) (byte_of_Z (d / 2 ^ 8)) (byte_of_Z (d / 2 ^ 0))
  = d mod 2 ^ 32.
Proof.
  unfold from_be32. rewrite !u8_byte_of_Z. unfold wrap8. change (2 ^ 0) with 1. rewrite Z.div_1_r.
  pose proof (Z.rem_mul_r d (2 ^ 24) 256 ltac:(done) ltac:(done)) as H24.
  pose proof (Z.rem_mul_r d (2 ^ 16) 256 ltac:(done) ltac:(done)) as H16.
  pose proof (Z.rem_mul_r d (2 ^ 8) 256 ltac:(done) ltac:(done)) as H8.
  change (2 ^ 24 * 256) with (2 ^ 32) in H24. change (2 ^ 16 * 256) with (2 ^ 24) in H16.
  change (2 ^ 8 * 256) with (2 ^ 16) in H8. change (2 ^ 8) with 256 in *. rewrite H24, H16, H8. ring.
Qed.

(** Every repository gets a network the gateway accepts: its
    addresses parse, the gateway is well formed, and the guest's hardware address
    is [02:fc] followed by the last four bytes of the hash. *)
Theorem computed_network_accepted repo_root gw_mac m :
  len gw_mac = 6 -> 0 <= m <= u16_max ->
  exists g, L2.from_guest_network (computed_guest_network repo_root) gw_mac m = Ok g /\ L2.wf g /\
    exists a b c d, L2.guest_mac g = [Byte.x02; Byte.xfc; a; b; c; d] /\
      from_be32 a b c d = fnv1a64 (String.list_byte_of_string repo_root) mod 2 ^ 32.
Proof.
  intros Hg Hm. set (d := fnv1a64 _).
  set (mac := [Byte.x02; Byte.xfc; byte_of_Z (d / 2 ^ 24); byte_of_Z (d / 2 ^ 16);
    byte_of_Z (d / 2 ^ 8); byte_of_Z (d / 2 ^ 0)]).
  assert (guest_mac (computed_guest_network repo_root) = L2.show_mac mac) as E.
  { unfold computed_guest_network. cbn [guest_mac]. fold d. rewrite !hash_octet by done. reflexivity. }
  exists (L2.mkL2 gw_mac mac [Byte.x0a; Byte.x00; Byte.x02; Byte.x02]
    [Byte.x0a; Byte.x00; Byte.x02; Byte.x0f] [Byte.x0a; Byte.x00; Byte.x02; Byte.x03] 24 m).
  split_and!.
  - unfold L2.from_guest_network. rewrite E, L2.parse_show_mac by done. reflexivity.
  - by split.
  - exists (byte_of_Z (d / 2 ^ 24)), (byte_of_Z (d / 2 ^ 16)), (byte_of_Z (d / 2 ^ 8)), (byte_of_Z (d / 2 ^ 0)).
    split; [done|apply low_bytes].
Qed.

(** ** The kernel's command line *)

Fixpoint black (s : string) : bool :=
  match s with EmptyString => true | String a s' => negb (is_white a) && black s' end.

Definition word (s : string) : Prop := s <> "" /\ black s = true.

Lemma black_app s t : black (s ++ t) = black s && black t.
Proof. induction s as [|a s IH]; [done|]. rewrite str_cons_app. cbn [black]. by rewrite IH, andb_assoc. Qed.

Lemma split_whitespace_black w t acc :
  black w = true -> split_whitespace (w ++ t) acc = split_whitespace t (acc ++ w).
Proof.
  revert acc. induction w as [|a w IH]; intros acc; cbn [black].
  - intros _. by rewrite str_app_nil.
  - intros [Ha Hw]%andb_true_iff. rewrite str_cons_app. cbn [split_whitespace].
    apply negb_true_iff in Ha. rewrite Ha, IH, str_app_assoc by done. done.
Qed.

Lemma split_whitespace_join words : Forall word words -> split_whitespace (join " " words) "" = words.
Proof.
  induction 1 as [|w words [Hne Hb] Hw IH]; [done|].
  assert (bool_decide (w = "") = false) as E by (by apply bool_decide_eq_false).
  destruct words as [|w' words].
  - change (join " " [w]) with w. rewrite <- (str_app_nil w) at 1. rewrite split_whitespace_black by done.
    cbn [split_whitespace]. change ("" ++ w) with w. by rewrite E.
  - change (join " " (w :: w' :: words)) with (w ++ String " " (join " " (w' :: words))).
    rewrite split_whitespace_black by done. cbn [split_whitespace]. change (is_white " ") with true.
    cbv iota. change ("" ++ w) with w. rewrite E, IH. done.
Qed.

Lemma split_whitespace_words s acc : black acc = true -> Forall word (split_whitespace s acc).
Proof.
  revert acc. induction s as [|a s IH]; intros acc Hb; cbn [split_whitespace].
  - case_bool_decide; by repeat constructor.
  - destruct (is_white a) eqn:Ea; [|apply IH; rewrite black_app, Hb; cbn; by rewrite Ea].
    apply Forall_app. split; [|by apply IH]. case_bool_decide; by repeat constructor.
Qed.

(** The kernel gets exactly one console, the serial port whose
    output is logged, before its other arguments, which are kept in order; doing
    it again changes nothing. *)
Theorem one_serial_console cmdline :
  split_whitespace (ensure_ttys0_console cmdline) "" =
    "console=ttyS0,115200n8" ::
    filter (fun arg => starts_with "console=" arg = false) (split_whitespace cmdline "") /\
  ensure_ttys0_console (ensure_ttys0_console cmdline) = ensure_ttys0_console cmdline.
Proof.
  set (others := filter _ _).
  assert (split_whitespace (ensure_ttys0_console cmdline) "" = "console=ttyS0,115200n8" :: others) as E.
  { apply split_whitespace_join. constructor; [done|]. apply Forall_forall.
    intros w [_ Hw]%list_elem_of_filter. revert w Hw. apply Forall_forall. by apply split_whitespace_words. }
  split; [exact E|]. unfold ensure_ttys0_console at 1. rewrite E. rewrite filter_cons_False by done.
  unfold others. by rewrite list_filter_filter_l by auto.
Qed.

(** ** Witnesses *)

Definition demo_project (run : string) : FrontendConfig :=
  mkFrontend "/srv/p" "qemu-system-x86_64" (mkArtifacts "/srv/vmlinuz" "/srv/initrd.img" "/srv/rootfs.raw")
    (RuntimePaths_under run) (mkShape (2 ^ 31) 2 "quiet" COMPOSED_FS_TAG) GuestNetwork_default None None [].

Definition demo_run : string := "/srv/p/.sandbox/docker-vm/run".

(** The options of the manual; commas separate settings. *)
#[local] Instance manual_qemu : Qemu := {|
  takes_argument o := negb (bool_decide (o ∈ ["-enable-kvm"; "-nodefaults"; "-no-user-config"; "-no-reboot"]));
  takes_settings o := bool_decide (o ∈ ["-machine"; "-object"; "-drive"; "-device"; "-chardev"; "-netdev"]);
  settings_of s := map key_value (split_char "," s)
|}.

#[local] Instance manual_laws : QemuLaws.
Proof.
  split; [by repeat constructor..|]. intros parts Hne Hp. cbn [settings_of manual_qemu].
  rewrite split_join; [done|done|]. eapply Forall_impl; [exact Hp|]. by intros s [_ ?].
Qed.

Lemma qemu_reads_configuration_witness :
  comma_free (demo_project demo_run) /\
  qemu_reads (tail (build_microvm_qemu_command (demo_project demo_run))) = intended_reading (demo_project demo_run).
Proof.
  assert (comma_free (demo_project demo_run)) as Hc by (repeat constructor).
  split; [exact Hc|]. exact (qemu_reads_configuration (demo_project demo_run) Hc).
Defined.

(** A comma in the path of the project ends the path for QEMU. *)
Lemma comma_ends_path `{QemuLaws} :
  build_microvm_qemu_command (demo_project "/srv/a,b/.sandbox/docker-vm/run") !! 32%nat =
    Some "if=none,file=/srv/a,b/.sandbox/docker-vm/state.raw,format=raw,id=statedisk" /\
  settings_of "if=none,file=/srv/a,b/.sandbox/docker-vm/state.raw,format=raw,id=statedisk" =
    [("if", Some "none"); ("file", Some "/srv/a"); ("b/.sandbox/docker-vm/state.raw", None);
     ("format", Some "raw"); ("id", Some "statedisk")].
Proof.
  split; [vm_compute; reflexivity|].
  apply (settings_join ["if=none"; "file=/srv/a"; "b/.sandbox/docker-vm/state.raw"; "format=raw"; "id=statedisk"]);
    [done|by repeat constructor].
Qed.

End Frontend.
