(* ===== verification/RuntimeManifest.v ===== *)
(** The manifests the launcher writes (src/vm-frontend/src/runtime_manifest.rs):
    which host paths the guest sees, for the server of the composed filesystem, the
    guest's bind mounts and the configuration filesystem.

    The theorems compose the writer with its reader, the checks of the composed
    filesystem (Manifest.v, Namespace.v). Encoding as JSON is an interface, with
    the law that the reader decodes the fields that were written; files of the
    host are an interface that records what is written. *)

From stdpp Require Import base option list numbers strings gmap sets.
From Stdlib Require Import ZArith Lia Ascii String.
From S2P Require Import Prelude RustIo RustStr NetworkPolicy FsPath HostOps Manifest Namespace Frontend.

Local Open Scope string_scope.
Local Open Scope Z_scope.

Module RuntimeManifest.
Import FsPath HostOps Frontend.

Inductive ManifestSourceClass := Workspace | ToolState | AuthConfig | SystemRo | UserRo | UserRw.

Record RuntimeMount := mkMount {
  rm_id : string;
  rm_host_path : string;
  rm_guest_path : string;
  rm_readonly : bool;
  rm_source_class : ManifestSourceClass;
  rm_required : bool;
  rm_bind : bool
}.

Definition RuntimeMount_workspace (project : string) : RuntimeMount :=
  mkMount "m0001_workspace" project project false Workspace true true.

Record GuestShareSpec := mkShareSpec {
  host_home : string; gh : bool; extra_ro : list string; extra_rw : list string }.

Record RuntimeManifestSummary := mkSummary {
  sum_composed_fs_manifest : string;
  sum_composed_bind_manifest : string;
  sum_config_fs_manifest : string;
  mount_count : Z
}.

(** ** The written data *)

Record MetadataSpec := mkMetadata { uid_gid : string; permissions : string }.

Record HostMount := mkHostMount {
  hm_id : string;
  hm_guest_path : string;
  hm_host_path : string;
  hm_kind : string;
  hm_access : string;
  hm_source_class : ManifestSourceClass;
  hm_required : bool;
  hm_bind : bool;
  hm_metadata : MetadataSpec
}.

Record SyntheticSpec := mkSyntheticSpec { syn_uid : Z; syn_gid : Z; syn_dir_mode : string }.

Record FilterSpec := mkFilterSpec { f_mount_id : string; f_suffixes : list string; f_action : string }.

Record HostManifest := mkHostManifest {
  schema_version : Z;
  export_tag : string;
  created_by : string;
  mounts : list HostMount;
  synthetic : SyntheticSpec;
  protected : list string;
  shadow_root : option string;
  filters : list FilterSpec
}.

Record BindEntry := mkBindEntry {
  be_mount_id : string;
  be_kind : string;
  be_source : string;
  be_target : string;
  be_required : bool;
  be_create_parent : bool
}.

Record BindManifest := mkBindManifest {
  bm_schema_version : Z; composed_mountpoint : string; entries : list BindEntry }.

(** [GuestLaunchConfig] with its [GuestLaunchNetwork]. *)
Record GuestLaunchConfig := mkLaunchConfig {
  lc_schema_version : Z;
  lc_project_path : string;
  lc_guest_ip : string;
  lc_gateway_ip : string;
  lc_prefix_len : Z;
  lc_dns_ip : string;
  lc_guest_mac : string;
  lc_http_smoke_url : option string;
  lc_guest_log_dir : option string
}.

(** ** The mounts of a guest *)

Definition workspace_mounts (project : string) : list RuntimeMount := [RuntimeMount_workspace project].

Definition is_ascii_alphanumeric (a : ascii) : bool :=
  let n := N_of_ascii a in
  ((48 <=? n) && (n <=? 57) || (65 <=? n) && (n <=? 90) || (97 <=? n) && (n <=? 122))%N.

(** A character of several bytes is one [_]: its first byte stands for it, the
    bytes 0x80 to 0xbf continue it. *)
Definition is_continuation (a : ascii) : bool :=
  let n := N_of_ascii a in ((128 <=? n) && (n <=? 191))%N.

Fixpoint alphanumeric_or_underscore (s : string) : string :=
  match s with
  | EmptyString => ""
  | String a s' =>
      if is_continuation a then alphanumeric_or_underscore s'
      else String (if is_ascii_alphanumeric a then a else "_") (alphanumeric_or_underscore s')
  end.

Fixpoint trim_start_matches (c : ascii) (s : string) : string :=
  match s with
  | EmptyString => ""
  | String a s' => if decide (a = c) then trim_start_matches c s' else s
  end.

Definition trim_matches (c : ascii) (s : string) : string :=
  trim_end_matches c (trim_start_matches c s).

Definition mount_id_suffix (value : string) : string :=
  let suffix := trim_matches "_" (alphanumeric_or_underscore value) in
  if bool_decide (suffix = "") then "root" else suffix.

Definition mount_id (index : Z) (suffix : string) : string :=
  "m" ++ show_usize_04 index ++ "_" ++ suffix.

Definition home_mount (index : Z) (host_home guest_home rel_path : string) (readonly : bool)
  (source_class : ManifestSourceClass) : RuntimeMount :=
  mkMount (mount_id index (mount_id_suffix rel_path)) (path_join host_home rel_path)
    (path_join guest_home rel_path) readonly source_class false true.

Definition user_mount (index : Z) (path : string) (readonly : bool)
  (source_class : ManifestSourceClass) : RuntimeMount :=
  mkMount (mount_id index (mount_id_suffix path)) path path readonly source_class true true.

(** The loop over the extra paths, from the number of the first. *)
Fixpoint user_mounts (index : Z) (paths : list string) (readonly : bool)
  (source_class : ManifestSourceClass) : list RuntimeMount :=
  match paths with
  | [] => []
  | path :: rest =>
      user_mount index path readonly source_class :: user_mounts (index + 1) rest readonly source_class
  end.

Definition guest_runtime_mounts (project : string) (spec : GuestShareSpec) : list RuntimeMount :=
  let guest_home := host_home spec in
  let fixed :=
    ([RuntimeMount_workspace project;
      home_mount 2 (host_home spec) guest_home ".docker" false ToolState] ++
     (if gh spec then [home_mount 3 (host_home spec) guest_home ".config/gh" true AuthConfig] else []))%list in
  let next_id := if gh spec then 4 else 3 in
  (fixed ++ user_mounts next_id (extra_ro spec) true UserRo ++
   user_mounts (next_id + len (extra_ro spec)) (extra_rw spec) false UserRw)%list.

(** ** Validation *)

Definition protected_guest_paths : list string :=
  ["/proc"; "/sys"; "/dev"; "/run"; "/tmp"; "/var/lib/docker"; "/var/run/docker.sock"; "/var/run"].

Fixpoint push_components (path field normalized : string) (cs : list Component) : io_result string :=
  match cs with
  | [] => Ok normalized
  | RootDir :: rest => push_components path field (path_join normalized "/") rest
  | Normal part :: rest => push_components path field (path_join normalized part) rest
  | _ :: _ => Err (invalid_input (field ++ " must not contain . or ..: " ++ path))
  end.

Definition normalize_absolute_path (path field : string) : io_result string :=
  if negb (is_absolute path) then Err (invalid_input (field ++ " must be absolute: " ++ path))
  else push_components path field "" (components path).

(** ** The host and the encoder *)

Class LaunchFs (G : Type) := {
  (** [fs::create_dir_all], [Path::exists], [Path::metadata] with [is_dir], [fs::write]. *)
  create_dir_all : G -> string -> io_result unit * G;
  path_exists : G -> string -> bool;
  path_is_dir : G -> string -> io_result bool;
  write_file : G -> string -> list byte -> io_result unit * G;
  (** What was written so far, in order. *)
  written : G -> list (string * list byte)
}.

(** A directory that is made and a file that is written remove nothing. *)
Class LaunchFsLaws (G : Type) `{LaunchFs G} := {
  create_dir_all_written g p r g' : create_dir_all g p = (r, g') -> written g' = written g;
  write_file_written g p bs g' :
    write_file g p bs = (Ok tt, g') -> written g' = (written g ++ [(p, bs)])%list;
  write_file_is_file g p bs g' :
    write_file g p bs = (Ok tt, g') -> path_exists g' p = true /\ path_is_dir g' p = Ok false;
  write_file_keeps g p bs r g' q :
    write_file g p bs = (r, g') -> path_exists g q = true ->
    path_exists g' q = true /\ path_is_dir g' q = path_is_dir g q
}.

(** [serde_json::to_vec_pretty]; an error is its message. *)
Class LaunchJson := {
  host_manifest_json : HostManifest -> result (list byte) string;
  bind_manifest_json : BindManifest -> result (list byte) string;
  launch_config_json : GuestLaunchConfig -> result (list byte) string
}.

Section Write.
Context {G : Type} `{LaunchFs G} `{LaunchJson}.

(** One mount of the loop, after the checks of its id and paths. *)
Definition host_mount_of (g : G) (mount : RuntimeMount) (guest_path host_path : string)
  : io_result (option HostMount) :=
  if negb (path_exists g (rm_host_path mount)) then
    if rm_required mount
    then Err (invalid_input ("required composed filesystem source is missing: " ++ host_path))
    else Ok None
  else
    let? dir := path_is_dir g (rm_host_path mount) in
    Ok (Some (mkHostMount (rm_id mount) guest_path host_path (if dir then "dir" else "file")
      (if rm_readonly mount then "ro" else "rw") (rm_source_class mount) (rm_required mount)
      (rm_bind mount) (mkMetadata "host" "host"))).

Fixpoint validate_mounts (g : G) (ids guest_paths : gset string) (ms : list RuntimeMount)
  : io_result (list HostMount) :=
  match ms with
  | [] => Ok []
  | mount :: rest =>
      if bool_decide (rm_id mount = "") then Err (invalid_input "mount id cannot be empty")
      else if bool_decide (rm_id mount ∈ ids)
      then Err (invalid_input ("duplicate mount id: " ++ rm_id mount))
      else
        let? guest_path := normalize_absolute_path (rm_guest_path mount) "guest_path" in
        if existsb (fun p => bool_decide (p = guest_path)) protected_guest_paths
        then Err (invalid_input ("mount targets protected guest path: " ++ guest_path))
        else if bool_decide (guest_path ∈ guest_paths)
        then Err (invalid_input ("duplicate composed filesystem guest path: " ++ guest_path))
        else
          let? host_path := normalize_absolute_path (rm_host_path mount) "host_path" in
          let? host_mount := host_mount_of g mount guest_path host_path in
          let? host_mounts := validate_mounts g ({[rm_id mount]} ∪ ids) ({[guest_path]} ∪ guest_paths) rest in
          Ok (match host_mount with Some m => m :: host_mounts | None => host_mounts end)
  end.

Definition validated_host_mounts (g : G) (ms : list RuntimeMount) : io_result (list HostMount) :=
  validate_mounts g ∅ ∅ ms.

(** ** Writing *)

Definition newline : byte := Byte.x0a.

Definition write_json (g : G) (path : string) (encoded : result (list byte) string)
  : io_result unit * G :=
  match encoded with
  | Err error => (Err (invalid_input ("failed to encode JSON: " ++ error)), g)
  | Ok bytes => write_file g path (bytes ++ [newline])%list
  end.

Definition guest_launch_config_of (c : FrontendConfig) : GuestLaunchConfig :=
  mkLaunchConfig 1 (project c) (Policy.guest_ip (network c)) (Policy.gateway_ip (network c))
    (Policy.prefix_len (network c)) (Policy.dns_ip (network c)) (Policy.guest_mac (network c))
    (guest_http_smoke_url c) (guest_log_dir c).

Definition write_guest_launch_config (c : FrontendConfig) (g : G) : io_result unit * G :=
  write_json g (guest_launch_config (runtime c)) (launch_config_json (guest_launch_config_of c)).

Definition config_mounts_of (c : FrontendConfig) (extra : list RuntimeMount) : list RuntimeMount :=
  mkMount "m0000_launch_config" (guest_launch_config (runtime c)) "/launch.json" true SystemRo true false ::
  mkMount "m0001_composed_binds" (composed_bind_manifest (runtime c)) "/composed-binds.json" true
    SystemRo true false :: extra.

Definition config_manifest_of (ms : list HostMount) : HostManifest :=
  mkHostManifest 1 CONFIG_FS_TAG "agentvm-frontend" ms (mkSyntheticSpec 0 0 "0555") [] None [].

Definition write_config_fs_manifest (c : FrontendConfig) (extra : list RuntimeMount) (g : G)
  : io_result unit * G :=
  match validated_host_mounts g (config_mounts_of c extra) with
  | Err e => (Err e, g)
  | Ok ms => write_json g (config_fs_manifest (runtime c)) (host_manifest_json (config_manifest_of ms))
  end.

Definition bind_entry_of (m : HostMount) : BindEntry :=
  mkBindEntry (hm_id m) (hm_kind m) (COMPOSED_FS_MOUNTPOINT ++ hm_guest_path m) (hm_guest_path m)
    (hm_required m) true.

Definition bind_manifest_of (ms : list HostMount) : BindManifest :=
  mkBindManifest 1 COMPOSED_FS_MOUNTPOINT (map bind_entry_of (filter (fun m => hm_bind m = true) ms)).

Definition host_manifest_of (c : FrontendConfig) (ms : list HostMount) : HostManifest :=
  mkHostManifest 1 (virtiofs_tag (vm c)) "agentvm-frontend" ms (mkSyntheticSpec 0 0 "0555")
    protected_guest_paths (Some (path_join (run_dir (runtime c)) "composed-fs-shadows"))
    [mkFilterSpec "m0001_workspace" [".sandbox"] "hide-and-shadow"].

(** [m(g)?] for a call that returns the host too. *)
Definition and_then {A B : Type} (r : io_result A * G) (k : A -> G -> io_result B * G) : io_result B * G :=
  match r with (Err e, g) => (Err e, g) | (Ok a, g) => k a g end.

Definition write_runtime_manifests_with_config_mounts (c : FrontendConfig)
  (ms config_mounts : list RuntimeMount) (g : G) : io_result RuntimeManifestSummary * G :=
  and_then (create_dir_all g (run_dir (runtime c))) (fun _ g =>
  and_then (create_dir_all g (guest_config_dir (runtime c))) (fun _ g =>
  match validated_host_mounts g ms with
  | Err e => (Err e, g)
  | Ok [] => (Err (invalid_input "runtime manifest must expose at least one mount"), g)
  | Ok host_mounts =>
      and_then (write_json g (composed_fs_manifest (runtime c))
                  (host_manifest_json (host_manifest_of c host_mounts))) (fun _ g =>
      and_then (write_json g (composed_bind_manifest (runtime c))
                  (bind_manifest_json (bind_manifest_of host_mounts))) (fun _ g =>
      and_then (write_guest_launch_config c g) (fun _ g =>
      and_then (write_config_fs_manifest c config_mounts g) (fun _ g =>
      (Ok (mkSummary (composed_fs_manifest (runtime c)) (composed_bind_manifest (runtime c))
             (config_fs_manifest (runtime c)) (len ms)), g)))))
  end)).

Definition write_runtime_manifests (c : FrontendConfig) (ms : list RuntimeMount) (g : G)
  : io_result RuntimeManifestSummary * G :=
  write_runtime_manifests_with_config_mounts c ms [] g.

End Write.
(** ** What the reader decodes

    serde's rules for [Manifest] of src/composed-fs/src/manifest.rs: the names of
    the kinds, the accesses, the classes, the policies and the action. *)

Definition kind_of (s : string) : option MountKind :=
  if bool_decide (s = "dir") then Some Dir else if bool_decide (s = "file") then Some File else None.

Definition access_of (s : string) : option AccessMode :=
  if bool_decide (s = "ro") then Some Ro else if bool_decide (s = "rw") then Some Rw else None.

Definition policy_of (s : string) : option Manifest.MetadataPolicy :=
  if bool_decide (s = "host") then Some Manifest.HostPolicy else None.

Definition action_of (s : string) : option Manifest.FilterAction :=
  if bool_decide (s = "hide-and-shadow") then Some Manifest.HideAndShadow else None.

Definition class_of (c : ManifestSourceClass) : Manifest.SourceClass :=
  match c with
  | Workspace => Manifest.Workspace
  | ToolState => Manifest.ToolState
  | AuthConfig => Manifest.AuthConfig
  | SystemRo => Manifest.SystemRo
  | UserRo => Manifest.UserRo
  | UserRw => Manifest.UserRw
  end.

Definition mount_spec_of (m : HostMount) : option Manifest.MountSpec :=
  kind ← kind_of (hm_kind m);
  access ← access_of (hm_access m);
  owner ← policy_of (uid_gid (hm_metadata m));
  mode ← policy_of (permissions (hm_metadata m));
  Some (Manifest.mkMountSpec (hm_id m) (hm_guest_path m) (hm_host_path m) kind access
    (class_of (hm_source_class m)) (hm_required m) (hm_bind m) (Manifest.mkMetadataSpec owner mode)).

Definition filter_spec_of (f : FilterSpec) : option Manifest.FilterSpec :=
  action ← action_of (f_action f);
  Some (Manifest.mkFilter (Some (f_mount_id f)) (f_suffixes f) action).

Definition manifest_of (m : HostManifest) : option Manifest.Manifest :=
  ms ← mapM mount_spec_of (mounts m);
  fs ← mapM filter_spec_of (filters m);
  Some (Manifest.mkManifest (schema_version m) (Some (export_tag m)) (Some (created_by m)) ms
    (Some (Manifest.mkSynthetic (syn_uid (synthetic m)) (syn_gid (synthetic m)) (syn_dir_mode (synthetic m))))
    (protected m) (shadow_root m) fs).

Definition text_of (bs : list byte) : string := String.string_of_list_byte bs.

(** Structures of strings, numbers and lists always have an encoding, and the
    reader gets the fields that were written. *)
Class LaunchJsonLaws `{LaunchJson} (from_str : string -> option Manifest.Manifest) := {
  host_manifest_encodes m : exists bs, host_manifest_json m = Ok bs;
  bind_manifest_encodes m : exists bs, bind_manifest_json m = Ok bs;
  launch_config_encodes m : exists bs, launch_config_json m = Ok bs;
  host_manifest_read m bs :
    host_manifest_json m = Ok bs -> from_str (text_of (bs ++ [newline])%list) = manifest_of m
}.

(** * Facts *)

(** ** Normalised paths *)

(** The name of an entry, possibly with a NUL byte. *)
Definition name_ok (s : string) : Prop :=
  s <> "" /\ s <> "." /\ s <> ".." /\ contains_char "/" s = false.

Lemma safe_name_iff s : safe_name s <-> name_ok s /\ contains_char NUL s = false.
Proof. unfold safe_name, name_ok. naive_solver. Qed.

Lemma guest_path_of_join names : names <> [] -> guest_path_of names = join "/" ("" :: names).
Proof. by destruct names. Qed.

Lemma name_not_absolute s : name_ok s -> is_absolute s = false.
Proof.
  intros (Hne & _ & _ & Hc). destruct (is_absolute s) eqn:E; [|done].
  apply starts_with_slash_split in E as [rest E]. rewrite split_char_none in E by done. by injection E as ->.
Qed.

Lemma names_no_slash names :
  Forall name_ok names -> Forall (fun s => contains_char "/" s = false) names.
Proof. intros H. eapply Forall_impl; [exact H|]. by intros s (_ & _ & _ & ?). Qed.

Lemma guest_path_snoc names s :
  Forall name_ok names -> name_ok s -> path_join (guest_path_of names) s = guest_path_of (names ++ [s])%list.
Proof.
  intros Hn Hs. unfold path_join. rewrite name_not_absolute by done.
  destruct (decide (names = [])) as [->|Hne]; [done|].
  rewrite !guest_path_of_join by (by destruct names). rewrite bool_decide_false by (by destruct names).
  destruct (ends_with "/" (join "/" ("" :: names))) eqn:E.
  - apply ends_with_iff in E as [t Ht]. apply (f_equal (split_char "/")) in Ht.
    rewrite split_join in Ht; [|done|by constructor; [|apply names_no_slash]].
    change (t ++ "/") with (t ++ String "/" "") in Ht. rewrite split_char_sep in Ht.
    change (split_char "/" "") with [""] in Ht.
    destruct (exists_last Hne) as (front & x & ->). rewrite app_comm_cons in Ht.
    apply app_inj_tail in Ht as [_ ->]. apply Forall_app in Hn as [_ Hx].
    inversion Hx as [|? ? (Hbad & _) _]. done.
  - change ("" :: (names ++ [s])%list) with (("" :: names) ++ [s])%list. by rewrite join_app.
Qed.

Lemma push_components_names path field names more cs :
  Forall name_ok names -> Forall name_ok more -> cs = map Normal more ->
  push_components path field (guest_path_of names) cs = Ok (guest_path_of (names ++ more)%list).
Proof.
  intros Hn Hm ->. revert names Hn. induction Hm as [|s more Hs _ IH]; intros names Hn; cbn.
  - by rewrite app_nil_r.
  - rewrite guest_path_snoc, IH by (try apply Forall_app_2; repeat constructor; apply Hs || done).
    by rewrite <- app_assoc.
Qed.

Lemma omap_names parts :
  Forall (fun s => contains_char "/" s = false) parts -> ParentDir ∉ omap part_component parts ->
  exists names, omap part_component parts = map Normal names /\ Forall name_ok names.
Proof.
  induction 1 as [|s parts Hs _ IH]; [by exists []|]. cbn.
  destruct (part_component s) as [c|] eqn:E; [|exact IH]. intros Hp.
  unfold part_component in E.
  destruct (bool_decide (s = "") || bool_decide (s = ".")) eqn:E1; [done|].
  destruct (bool_decide (s = "..")) eqn:E2; injection E as <-; [set_solver|].
  destruct IH as (names & -> & Hn); [set_solver|]. apply orb_false_iff in E1 as [? ?]. b2p.
  exists (s :: names). split; [done|]. by constructor.
Qed.

Lemma push_components_parent path field acc cs :
  ParentDir ∈ cs -> exists e, push_components path field acc cs = Err e.
Proof.
  revert acc. induction cs as [|c cs IH]; intros acc Hin; [by apply elem_of_nil in Hin|].
  destruct c; cbn; eauto; apply IH; by apply elem_of_cons in Hin as [|].
Qed.

(** A path is accepted when it is absolute and has no [..]; the result consists of
    its names. *)
Lemma normalize_absolute_ok p field q :
  normalize_absolute_path p field = Ok q ->
  is_absolute p = true /\
  exists names, Forall name_ok names /\ q = guest_path_of names /\ components p = RootDir :: map Normal names.
Proof.
  unfold normalize_absolute_path. destruct (is_absolute p) eqn:Ea; [|done]. cbn [negb].
  unfold components. rewrite Ea. intros E. split; [done|].
  destruct (decide (ParentDir ∈ omap part_component (split_char "/" p))) as [Hp|Hp].
  { destruct (push_components_parent p field (path_join "" "/") _ Hp) as [e He].
    cbn [push_components] in E. congruence. }
  destruct (omap_names (split_char "/" p)) as (names & En & Hn); [apply split_char_parts|done|].
  exists names. rewrite En. split_and!; [done| |done].
  cbn [push_components] in E. rewrite En in E.
  change (path_join "" "/") with (guest_path_of []) in E.
  rewrite (push_components_names p field [] names) in E by done. by injection E as <-.
Qed.

Lemma contains_join_inv c sep parts :
  contains_char c (join sep parts) = false -> Forall (fun p => contains_char c p = false) parts.
Proof.
  induction parts as [|p [|q parts] IH]; [done|by repeat constructor|].
  change (join sep (p :: q :: parts)) with (p ++ sep ++ join sep (q :: parts)).
  rewrite !contains_char_app. intros [? [? ?]%orb_false_iff]%orb_false_iff. constructor; auto.
Qed.

Lemma names_nul names : Forall name_ok names ->
  (contains_char NUL (guest_path_of names) = false <-> Forall safe_name names).
Proof.
  intros Hn. destruct (decide (names = [])) as [->|Hne]; [done|]. rewrite guest_path_of_join by done.
  rewrite (Forall_iff _ _ _ safe_name_iff), Forall_and. split.
  - intros Hc%contains_join_inv. split; [done|]. by inversion Hc.
  - intros [_ Hc]. apply contains_char_join; [done|]. by constructor.
Qed.

Lemma split_guest_path names :
  Forall name_ok names -> filter (fun s => s <> "") (split_char "/" (guest_path_of names)) = names.
Proof.
  intros Hn. destruct (decide (names = [])) as [->|Hne]; [done|]. rewrite guest_path_of_join by done.
  rewrite split_join; [|done|by constructor; [|apply names_no_slash]].
  rewrite filter_cons_False by auto. clear Hne. induction Hn as [|s names (Hs & _) _ IH]; [done|].
  by rewrite filter_cons_True, IH.
Qed.

(** The composed filesystem keeps a path the frontend has normalised, and refuses
    it only for a NUL byte. *)
Lemma normalized_accepted names p : Forall name_ok names ->
  normalize_guest_path (guest_path_of names) = Ok p <->
  contains_char NUL (guest_path_of names) = false /\ p = guest_path_of names.
Proof.
  intros Hn. rewrite names_nul by done.
  assert (starts_with "/" (guest_path_of names) = true) as Ha by (by destruct names).
  split.
  - intros Hp. unfold normalize_guest_path in Hp. rewrite Ha in Hp. cbn [negb] in Hp.
    destruct (path_components (guest_path_of names)) as [cs|] eqn:Ec; [|done].
    pose proof (check_components_ok _ _ (split_char_parts _ _) Ec) as [-> Hs].
    rewrite split_guest_path in Hs, Hp by done. split; [done|]. cbn [result_bind] in Hp.
    destruct names; by injection Hp as <-.
  - intros [Hs ->]. by apply normalize_components; [|apply path_components_of].
Qed.


(** ** The mounts that are written *)

Section Mounts.
Context {G : Type} `{LaunchFs G}.

(** The entry of the manifest for a mount whose source exists. *)
Record describes (g : G) (m : RuntimeMount) (h : HostMount) : Prop := {
  desc_id : hm_id h = rm_id m;
  desc_guest : normalize_absolute_path (rm_guest_path m) "guest_path" = Ok (hm_guest_path h);
  desc_host : normalize_absolute_path (rm_host_path m) "host_path" = Ok (hm_host_path h);
  desc_exists : path_exists g (rm_host_path m) = true;
  desc_kind : exists dir, path_is_dir g (rm_host_path m) = Ok dir /\
    hm_kind h = if dir : bool then "dir" else "file";
  desc_access : hm_access h = if rm_readonly m then "ro" else "rw";
  desc_class : hm_source_class h = rm_source_class m;
  desc_required : hm_required h = rm_required m;
  desc_bind : hm_bind h = rm_bind m;
  desc_metadata : hm_metadata h = mkMetadata "host" "host"
}.

(** Only optional mounts without a source are left out. *)
Inductive kept (g : G) : list RuntimeMount -> list HostMount -> Prop :=
| kept_nil : kept g [] []
| kept_entry m ms h hs : describes g m h -> kept g ms hs -> kept g (m :: ms) (h :: hs)
| kept_absent m ms hs :
    rm_required m = false -> path_exists g (rm_host_path m) = false -> kept g ms hs -> kept g (m :: ms) hs.

Lemma host_mount_of_ok g m gp hp r :
  normalize_absolute_path (rm_guest_path m) "guest_path" = Ok gp ->
  normalize_absolute_path (rm_host_path m) "host_path" = Ok hp ->
  host_mount_of g m gp hp = Ok r ->
  match r with
  | Some h => describes g m h /\ hm_guest_path h = gp
  | None => rm_required m = false /\ path_exists g (rm_host_path m) = false
  end.
Proof.
  intros Hg Hh. unfold host_mount_of. destruct (path_exists g (rm_host_path m)) eqn:Ee; cbn [negb].
  - destruct (path_is_dir g (rm_host_path m)) as [dir|] eqn:Ed; [|done]. cbn [result_bind].
    intros [= <-]. split; [|done]. split; cbn; eauto.
  - destruct (rm_required m); [done|]. by intros [= <-].
Qed.

Lemma validate_mounts_ok g ids gps ms hs :
  validate_mounts g ids gps ms = Ok hs ->
  kept g ms hs /\ NoDup (map rm_id ms) /\ Forall (fun m => rm_id m <> "" /\ rm_id m ∉ ids) ms /\
  NoDup (map hm_guest_path hs) /\
  Forall (fun h => hm_guest_path h ∉ gps /\ hm_guest_path h ∉ protected_guest_paths) hs.
Proof.
  revert ids gps hs. induction ms as [|m ms IH]; intros ids gps hs; cbn [validate_mounts].
  { intros [= <-]. split_and!; constructor. }
  case_test; [done|]. case_test; [done|].
  destruct (normalize_absolute_path (rm_guest_path m) _) as [gp|] eqn:Eg; [|done]. cbn [result_bind].
  case_test; [done|]. case_test; [done|].
  destruct (normalize_absolute_path (rm_host_path m) _) as [hp|] eqn:Eh; [|done]. cbn [result_bind].
  destruct (host_mount_of g m gp hp) as [r|] eqn:Em; [|done]. cbn [result_bind].
  destruct (validate_mounts g _ _ ms) as [hs'|] eqn:Ev; [|done]. cbn [result_bind]. intros [= <-].
  apply IH in Ev as (Hk & Hn & Hi & Hd & Hp). apply (host_mount_of_ok g m gp hp r Eg Eh) in Em.
  rename Etest1 into Epr. apply not_true_iff_false in Epr. rewrite Manifest.existsb_elem in Epr.
  assert (NoDup (map rm_id (m :: ms)) /\
    Forall (fun m => rm_id m <> "" /\ rm_id m ∉ ids) (m :: ms)) as [Hnd Hall].
  { cbn. rewrite Forall_forall in Hi. split.
    - constructor; [|done]. intros (m' & E & Hin)%list_elem_of_fmap. destruct (Hi m' Hin) as [_ Hx]. set_solver.
    - constructor; [done|]. apply Forall_forall. intros m' Hin. destruct (Hi m' Hin). set_solver. }
  rewrite Forall_forall in Hp. destruct r as [h|].
  - destruct Em as [Hdesc Hgp]. split_and!; [by constructor|done|done| |].
    + cbn. constructor; [|done]. intros (h' & E & Hin)%list_elem_of_fmap. destruct (Hp h' Hin). set_solver.
    + constructor; [by rewrite Hgp|]. apply Forall_forall. intros h' Hin. destruct (Hp h' Hin). set_solver.
  - destruct Em. split_and!; [by apply kept_absent|done|done|done|].
    apply Forall_forall. intros h' Hin. destruct (Hp h' Hin). set_solver.
Qed.

Lemma kept_described g ms hs : kept g ms hs -> Forall (fun h => exists m, m ∈ ms /\ describes g m h) hs.
Proof.
  induction 1 as [|m ms h hs Hd _ IH|m ms hs _ _ _ IH]; [constructor|constructor|].
  - exists m. split; [by left|done].
  - eapply Forall_impl; [exact IH|]. intros h' (m' & ? & ?). exists m'. split; [by right|done].
  - eapply Forall_impl; [exact IH|]. intros h' (m' & ? & ?). exists m'. split; [by right|done].
Qed.

Lemma kept_required g ms hs m :
  kept g ms hs -> m ∈ ms -> rm_required m = true -> exists h, h ∈ hs /\ describes g m h.
Proof.
  induction 1 as [|m' ms h hs Hd _ IH|m' ms hs Hr _ _ IH]; intros Hin Hm;
    [by apply elem_of_nil in Hin|..]; apply elem_of_cons in Hin as [->|Hin].
  - exists h. split; [by left|done].
  - destruct (IH Hin Hm) as (h' & ? & ?). exists h'. split; [by right|done].
  - congruence.
  - auto.
Qed.

(** ** What the reader makes of them *)

Lemma described_paths g m h :
  describes g m h ->
  exists guest host, Forall name_ok guest /\ hm_guest_path h = guest_path_of guest /\
    Forall name_ok host /\ hm_host_path h = guest_path_of host.
Proof.
  intros Hd. destruct (normalize_absolute_ok _ _ _ (desc_guest _ _ _ Hd)) as (_ & guest & Hg & Eg & _).
  destruct (normalize_absolute_ok _ _ _ (desc_host _ _ _ Hd)) as (_ & host & Hh & Eh & _). by exists guest, host.
Qed.

Lemma described_spec g m h :
  describes g m h ->
  exists k a, (exists dir, path_is_dir g (rm_host_path m) = Ok dir /\ k = if dir : bool then Dir else File) /\
    a = (if rm_readonly m then Ro else Rw) /\
    mount_spec_of h = Some (Manifest.mkMountSpec (hm_id h) (hm_guest_path h) (hm_host_path h) k a
      (class_of (hm_source_class h)) (hm_required h) (hm_bind h)
      (Manifest.mkMetadataSpec Manifest.HostPolicy Manifest.HostPolicy)).
Proof.
  intros [_ _ _ _ (dir & Ed & Ek) Ea _ _ _ Em]. unfold mount_spec_of. rewrite Ek, Ea, Em.
  exists (if dir then Dir else File), (if rm_readonly m then Ro else Rw).
  split; [by exists dir|]. by destruct dir, (rm_readonly m).
Qed.

(** What the composed filesystem asks of an entry beyond what the frontend has
    checked. *)
Definition acceptable (h : HostMount) : Prop :=
  safe_name (hm_id h) /\ contains_char NUL (hm_guest_path h) = false /\ hm_guest_path h <> "/".

Lemma described_at_path g m h sp p :
  describes g m h -> mount_spec_of h = Some sp ->
  Manifest.mount_at_path sp p <-> acceptable h /\ p = hm_guest_path h.
Proof.
  intros Hd Hsp. destruct (described_paths g m h Hd) as (guest & host & Hg & Eg & Hh & Eh).
  destruct (described_spec g m h Hd) as (k & a & _ & _ & E). rewrite E in Hsp. injection Hsp as <-.
  unfold Manifest.mount_at_path, acceptable. cbn. rewrite Eg, normalized_accepted by done.
  assert (starts_with "/" (hm_host_path h) = true) by (rewrite Eh; by destruct host). naive_solver.
Qed.

Definition described (g : G) (hs : list HostMount) : Prop := Forall (fun h => exists m, describes g m h) hs.

Lemma described_specs g hs :
  described g hs -> exists sps, mapM mount_spec_of hs = Some sps /\
    forall paths, Forall2 Manifest.mount_at_path sps paths <-> Forall acceptable hs /\ paths = map hm_guest_path hs.
Proof.
  induction 1 as [|h hs (m & Hd) _ (sps & Es & Hs)].
  { exists []. split; [done|]. intros paths. split; [|intros [_ ->]; constructor].
    intros ->%Forall2_nil_inv_l. split; [constructor|done]. }
  destruct (described_spec g m h Hd) as (k & a & _ & _ & E).
  eexists. split; [cbn; by rewrite E; cbn; rewrite Es|]. intros paths. cbn [map]. split.
  - intros Hf. inversion Hf as [|? p ? paths' Hm Hf']; subst. apply (described_at_path g m h _ _ Hd E) in Hm as [? ->].
    apply Hs in Hf' as [? ->]. split; [by constructor|done].
  - intros [Ha ->]. apply Forall_cons in Ha as [? ?]. constructor; [by apply (described_at_path g m h _ _ Hd E)|].
    by apply Hs.
Qed.

Lemma written_shape g hm mf :
  manifest_of hm = Some mf -> schema_version hm = 1 -> syn_dir_mode (synthetic hm) = "0555" ->
  described g (mounts hm) -> NoDup (map hm_guest_path (mounts hm)) ->
  Forall (fun h => hm_guest_path h ∉ protected hm) (mounts hm) ->
  Manifest.well_shaped mf <-> mounts hm <> [] /\ Forall acceptable (mounts hm).
Proof.
  intros Hm Hv Hs Hd Hn Hp. destruct (described_specs g _ Hd) as (sps & Es & Hat).
  unfold manifest_of in Hm. rewrite Es in Hm. cbn in Hm.
  destruct (mapM filter_spec_of (filters hm)) as [fs|]; [|done]. injection Hm as <-.
  apply mapM_Some in Es. pose proof (Forall2_length _ _ _ Es) as Hl.
  unfold Manifest.well_shaped. cbn. rewrite Hv, Hs. split.
  - intros (_ & Hne & _ & paths & [Ha _]%Hat & _). split; [|done]. intros E. rewrite E in Hl. by destruct sps.
  - intros [Hne Ha]. split_and!; [done| | |].
    + intros ->. by destruct (mounts hm).
    + intros sy [= <-]. by eexists.
    + exists (map hm_guest_path (mounts hm)). split_and!; [by apply Hat|done|]. by apply Forall_map.
Qed.

End Mounts.

(** ** Writing *)

Section Written.
Context {G : Type} `{LaunchFsLaws G} {J : LaunchJson}.
Context (from_str : string -> option Manifest.Manifest) `{!LaunchJsonLaws from_str}.

Lemma write_json_ok (g : G) p encoded g' :
  write_json g p encoded = (Ok tt, g') ->
  exists bs, encoded = Ok bs /\ write_file g p (bs ++ [newline])%list = (Ok tt, g').
Proof. unfold write_json. destruct encoded as [bs|]; [|done]. eauto. Qed.

(** The entries of the configuration filesystem that are always there. *)
Definition fixed_entry (path guest : string) (h : HostMount) : Prop :=
  hm_guest_path h = guest /\ hm_kind h = "file" /\ hm_access h = "ro" /\
  normalize_absolute_path path "host_path" = Ok (hm_host_path h) /\ acceptable h.

Lemma describes_fixed (g : G) id path guest h :
  describes g (mkMount id path guest true SystemRo true false) h -> path_is_dir g path = Ok false ->
  normalize_absolute_path guest "guest_path" = Ok guest -> contains_char NUL guest = false ->
  guest <> "/" -> safe_name id -> fixed_entry path guest h.
Proof.
  intros [Ei Eg Eh _ (dir & Ed & Ek) Ea _ _ _ _] Hd Hn Hc Hr Hi. cbn in *. rewrite Hd in Ed. injection Ed as <-.
  rewrite Hn in Eg. injection Eg as Eg. unfold fixed_entry, acceptable. rewrite <- Eg, Ei. by split_and!.
Qed.

Lemma config_entries (g : G) c extra cs :
  path_is_dir g (guest_launch_config (runtime c)) = Ok false ->
  path_is_dir g (composed_bind_manifest (runtime c)) = Ok false ->
  kept g (config_mounts_of c extra) cs ->
  exists h1 h2 rest, cs = h1 :: h2 :: rest /\ kept g extra rest /\
    fixed_entry (guest_launch_config (runtime c)) "/launch.json" h1 /\
    fixed_entry (composed_bind_manifest (runtime c)) "/composed-binds.json" h2.
Proof.
  intros Hd1 Hd2 Hk. unfold config_mounts_of in Hk.
  inversion Hk as [|? ? h1 hs1 D1 Hk1|? ? ? Hr]; subst; [|done].
  inversion Hk1 as [|? ? h2 rest D2 Hk2|? ? ? Hr]; subst; [|done].
  exists h1, h2, rest. split_and!; [done|done|..].
  - by apply (describes_fixed _ _ _ _ _ D1 Hd1).
  - by apply (describes_fixed _ _ _ _ _ D2 Hd2).
Qed.

(** The run of a writer that succeeds: the mounts that are kept, and the four
    files in the order they are written. *)
Lemma writes_in_order (g : G) c ms extra s g' :
  write_runtime_manifests_with_config_mounts c ms extra g = (Ok s, g') ->
  exists g0 hs hb bb lb g3 cs cb,
    validated_host_mounts g0 ms = Ok hs /\ hs <> [] /\
    validated_host_mounts g3 (config_mounts_of c extra) = Ok cs /\
    host_manifest_json (host_manifest_of c hs) = Ok hb /\
    host_manifest_json (config_manifest_of cs) = Ok cb /\
    path_is_dir g3 (guest_launch_config (runtime c)) = Ok false /\
    path_is_dir g3 (composed_bind_manifest (runtime c)) = Ok false /\
    written g' = (written g ++ [(composed_fs_manifest (runtime c), hb ++ [newline]);
      (composed_bind_manifest (runtime c), bb); (guest_launch_config (runtime c), lb);
      (config_fs_manifest (runtime c), cb ++ [newline])])%list.
Proof.
  unfold write_runtime_manifests_with_config_mounts, and_then, write_guest_launch_config, write_config_fs_manifest.
  destruct (create_dir_all g _) as [[[]|] ga] eqn:Ea; [|done].
  destruct (create_dir_all ga _) as [[[]|] g0] eqn:E0; [|done].
  destruct (validated_host_mounts g0 ms) as [[|h hs]|] eqn:Ev; [done| |done].
  destruct (write_json g0 _ _) as [[[]|] g1] eqn:E1; [|done].
  destruct (write_json g1 _ _) as [[[]|] g2] eqn:E2; [|done].
  destruct (write_json g2 _ _) as [[[]|] g3] eqn:E3; [|done].
  destruct (validated_host_mounts g3 _) as [cs|] eqn:Ec; [|done].
  destruct (write_json g3 _ _) as [[[]|] g4] eqn:E4; [|done]. intros [= _ <-].
  apply write_json_ok in E1 as (hb & Hb & W1), E2 as (bb & _ & W2), E3 as (lb & _ & W3), E4 as (cb & Hc & W4).
  destruct (write_file_is_file _ _ _ _ W2) as [Xb Db]. destruct (write_file_is_file _ _ _ _ W3) as [Xl Dl].
  destruct (write_file_keeps _ _ _ _ _ _ W3 Xb) as [_ Kb].
  exists g0, (h :: hs), hb, (bb ++ [newline])%list, (lb ++ [newline])%list, g3, cs, cb.
  split_and!; [done|done|done|done|done|done|by rewrite Kb|].
  rewrite (write_file_written _ _ _ _ W4), (write_file_written _ _ _ _ W3), (write_file_written _ _ _ _ W2),
    (write_file_written _ _ _ _ W1), (create_dir_all_written _ _ _ _ E0), (create_dir_all_written _ _ _ _ Ea).
  by rewrite <- !app_assoc.
Qed.

Lemma validated_described (g : G) ms hs :
  validated_host_mounts g ms = Ok hs ->
  described g hs /\ NoDup (map hm_guest_path hs) /\ Forall (fun h => hm_guest_path h ∉ protected_guest_paths) hs.
Proof.
  intros (Hk & _ & _ & Hn & Hp)%validate_mounts_ok. split_and!; [|done|].
  - eapply Forall_impl; [by apply kept_described|]. intros h (m & _ & ?). by exists m.
  - eapply Forall_impl; [exact Hp|]. by intros h [].
Qed.

Lemma manifest_of_described (g : G) hm fs :
  described g (mounts hm) -> mapM filter_spec_of (filters hm) = Some fs -> is_Some (manifest_of hm).
Proof.
  intros Hd Hf. destruct (described_specs g _ Hd) as (sps & Es & _).
  unfold manifest_of. rewrite Es. cbn. rewrite Hf. by eexists.
Qed.

Lemma written_checked (g : G) hm bs fs :
  host_manifest_json hm = Ok bs -> schema_version hm = 1 -> syn_dir_mode (synthetic hm) = "0555" ->
  mapM filter_spec_of (filters hm) = Some fs -> described g (mounts hm) -> mounts hm <> [] ->
  NoDup (map hm_guest_path (mounts hm)) -> Forall (fun h => hm_guest_path h ∉ protected hm) (mounts hm) ->
  Manifest.validate_manifest_json_shape from_str (text_of (bs ++ [newline])%list) = Ok tt <->
  Forall acceptable (mounts hm).
Proof.
  intros Hb Hv Hs Hf Hd Hne Hn Hp. rewrite Manifest.validate_manifest_spec, (host_manifest_read _ _ Hb).
  destruct (manifest_of_described g hm fs Hd Hf) as [mf Hm]. rewrite Hm. split.
  - intros (? & [= <-] & Hw). by apply (written_shape g hm mf Hm Hv Hs Hd Hn Hp) in Hw as [_ ?].
  - intros Ha. exists mf. split; [done|]. by apply (written_shape g hm mf Hm Hv Hs Hd Hn Hp).
Qed.

(** C22 (refinement). What the launcher writes is what the composed filesystem
    reads. When writing succeeds, four files were written, in this order: the
    manifest of the composed filesystem, the bind mounts, the guest's
    configuration, the manifest of the configuration filesystem. The first has an
    entry for every mount but optional ones without a source, and the composed
    filesystem accepts its shape unless an entry has a name that is no directory
    entry, a NUL byte in its path, or the guest's root for a path, the three things
    the launcher does not check. The second has the guest's configuration and bind
    mounts as read-only files, so that it is accepted unless an additional entry is
    at fault. Of the bind mounts only the place of the file is stated. *)
Theorem launch_manifests_accepted (g : G) c ms extra s g' :
  write_runtime_manifests_with_config_mounts c ms extra g = (Ok s, g') ->
  exists hs hb bb lb h1 h2 cs cb,
    written g' = (written g ++ [(composed_fs_manifest (runtime c), hb);
      (composed_bind_manifest (runtime c), bb); (guest_launch_config (runtime c), lb);
      (config_fs_manifest (runtime c), cb)])%list /\
    (exists g0, kept g0 ms hs) /\ NoDup (map rm_id ms) /\ (exists g3, kept g3 extra cs) /\
    from_str (text_of hb) = manifest_of (host_manifest_of c hs) /\
    from_str (text_of cb) = manifest_of (config_manifest_of (h1 :: h2 :: cs)) /\
    fixed_entry (guest_launch_config (runtime c)) "/launch.json" h1 /\
    fixed_entry (composed_bind_manifest (runtime c)) "/composed-binds.json" h2 /\
    (Manifest.validate_manifest_json_shape from_str (text_of hb) = Ok tt <-> Forall acceptable hs) /\
    (Manifest.validate_manifest_json_shape from_str (text_of cb) = Ok tt <-> Forall acceptable cs).
Proof.
  intros (g0 & hs & hb & bb & lb & g3 & cs & cb & Hv & Hne & Hc & Eb & Ec & D1 & D2 & Hw)%writes_in_order.
  destruct (validated_described _ _ _ Hv) as (Hd & Hn & Hp).
  destruct (validated_described _ _ _ Hc) as (Hcd & Hcn & Hcp).
  apply validate_mounts_ok in Hv as (Hk & Hi & _), Hc as (Hck & _).
  destruct (config_entries g3 c extra cs D1 D2 Hck) as (h1 & h2 & rest & -> & Hrest & F1 & F2).
  exists hs, (hb ++ [newline])%list, bb, lb, h1, h2, rest, (cb ++ [newline])%list.
  split_and!; [done|by exists g0|done|by exists g3|by apply host_manifest_read|by apply host_manifest_read
    |done|done|..].
  - by apply (written_checked g0 (host_manifest_of c hs) hb _ Eb eq_refl eq_refl eq_refl).
  - rewrite (written_checked g3 (config_manifest_of (h1 :: h2 :: rest)) cb _ Ec eq_refl eq_refl eq_refl); try done.
    + cbn [mounts config_manifest_of]. rewrite !Forall_cons. destruct F1 as (_ & _ & _ & _ & ?), F2 as (_ & _ & _ & _ & ?). tauto.
    + apply Forall_true. intros h. apply not_elem_of_nil.
Qed.

End Written.

(** ** The ids *)

(** A character that never is in an id: [/] and NUL. *)
Definition unnamed (c : ascii) : Prop :=
  is_ascii_alphanumeric c = false /\ c <> "_"%char /\ to_digit 10 c = None /\ c <> "m"%char.

Definition clean (s : string) : Prop := forall c, unnamed c -> contains_char c s = false.

Lemma alphanumeric_clean s : clean (alphanumeric_or_underscore s).
Proof.
  intros c (Ha & Hu & _). induction s as [|a s IH]; [done|]. cbn [alphanumeric_or_underscore].
  destruct (is_continuation a); [done|]. cbn [contains_char].
  destruct (is_ascii_alphanumeric a) eqn:E; rewrite decide_False; try done; congruence.
Qed.

Lemma trim_start_contains c d s :
  contains_char c s = false -> contains_char c (trim_start_matches d s) = false.
Proof.
  induction s as [|a s IH]; [done|]. cbn [contains_char trim_start_matches].
  destruct (decide (a = c)) as [|Hac]; [done|]. intros Hc. case_decide; [by apply IH|].
  cbn [contains_char]. by rewrite decide_False.
Qed.

Lemma trim_end_contains c d s :
  contains_char c s = false -> contains_char c (trim_end_matches d s) = false.
Proof.
  induction s as [|a s IH]; [done|]. cbn [contains_char trim_end_matches]. case_decide; [done|]. intros Hc.
  specialize (IH Hc). destruct (trim_end_matches d s) as [|b t].
  - case_decide; [done|]. cbn. by rewrite decide_False.
  - cbn [contains_char] in *. by rewrite decide_False.
Qed.

Lemma mount_id_suffix_clean value : clean (mount_id_suffix value).
Proof.
  intros c Hc. unfold mount_id_suffix, trim_matches. case_bool_decide.
  - destruct Hc as (Ha & _). cbn. repeat (case_decide; [subst; done|]). done.
  - by apply trim_end_contains, trim_start_contains, alphanumeric_clean.
Qed.

Lemma mount_id_clean k suffix : 0 <= k -> clean suffix -> clean (mount_id k suffix).
Proof.
  intros Hk Hs c Hc. destruct Hc as (Ha & Hu & Hd & Hm) eqn:E. clear E. unfold mount_id.
  rewrite !contains_char_app, show_usize_04_contains by done. cbn. rewrite !decide_False by done.
  apply Hs. by repeat split.
Qed.

Lemma mount_id_safe k suffix : 0 <= k -> clean suffix -> safe_name (mount_id k suffix).
Proof. intros Hk Hs. pose proof (mount_id_clean k suffix Hk Hs) as Hc. repeat split; try done; by apply Hc. Qed.

Lemma mount_id_inj j k s t : 0 <= j -> 0 <= k -> mount_id j s = mount_id k t -> j = k.
Proof.
  intros Hj Hk E. unfold mount_id in E.
  assert (forall n u, 0 <= n -> exists rest,
    split_char "_" ("m" ++ show_usize_04 n ++ "_" ++ u) = ("m" ++ show_usize_04 n) :: rest) as Hs.
  { intros n u Hn. eexists. rewrite <- str_app_assoc. apply split_char_app.
    rewrite contains_char_app. by rewrite show_usize_04_contains. }
  apply (f_equal (split_char "_")) in E. destruct (Hs j s Hj) as [r Er], (Hs k t Hk) as [r' Er'].
  rewrite Er, Er' in E. injection E as E _. by apply show_usize_04_inj.
Qed.

(** The ids with the numbers from [k] on. *)
Inductive numbered : Z -> list string -> Prop :=
| numbered_nil k : numbered k []
| numbered_cons k s ids : clean s -> numbered (k + 1) ids -> numbered k (mount_id k s :: ids).

Lemma numbered_app k a b : numbered k a -> numbered (k + len a) b -> numbered k (a ++ b)%list.
Proof.
  induction 1 as [k|k s ids Hs _ IH]; intros Hb.
  - change (len (@nil string)) with 0 in Hb. by rewrite Z.add_0_r in Hb.
  - cbn. constructor; [done|]. apply IH. by replace (k + 1 + len ids) with (k + len (mount_id k s :: ids))
      by (unfold len; cbn [List.length]; lia).
Qed.

Lemma numbered_above k ids id : numbered k ids -> id ∈ ids -> exists j s, k <= j /\ id = mount_id j s.
Proof.
  induction 1 as [k|k s ids _ _ IH]; [by intros ?%elem_of_nil|]. intros [->|Hin]%elem_of_cons.
  - exists k, s. split; [lia|done].
  - destruct (IH Hin) as (j & t & ? & ->). exists j, t. split; [lia|done].
Qed.

Lemma numbered_ids k ids : 0 <= k -> numbered k ids -> NoDup ids /\ Forall safe_name ids.
Proof.
  intros Hk Hn. induction Hn as [k|k s ids Hs Hn IH]; [by split; constructor|].
  destruct IH as [Hd Hf]; [lia|]. split; constructor; try done; [|by apply mount_id_safe].
  intros (j & t & Hj & E)%(numbered_above _ _ _ Hn). apply mount_id_inj in E; lia.
Qed.

Lemma user_mounts_numbered k paths ro sc : numbered k (map rm_id (user_mounts k paths ro sc)).
Proof.
  revert k. induction paths as [|p paths IH]; intros k; cbn; constructor; [apply mount_id_suffix_clean|apply IH].
Qed.

Lemma len_user_mounts k paths ro sc : len (user_mounts k paths ro sc) = len paths.
Proof.
  unfold len. f_equal. revert k. induction paths as [|p paths IH]; intros k; [done|]. cbn. by rewrite IH.
Qed.

Lemma user_mounts_pair k ro rw :
  numbered k (map rm_id (user_mounts k ro true UserRo ++ user_mounts (k + len ro) rw false UserRw)).
Proof.
  rewrite map_app. apply numbered_app; [apply user_mounts_numbered|].
  replace (len (map rm_id (user_mounts k ro true UserRo))) with (len ro); [apply user_mounts_numbered|].
  unfold len at 2. rewrite length_map. symmetry. apply len_user_mounts.
Qed.

Lemma guest_mounts_numbered project spec : numbered 1 (map rm_id (guest_runtime_mounts project spec)).
Proof.
  assert (clean "workspace") as Hw by (intros c (Ha & _); cbn; repeat (case_decide; [subst; done|]); done).
  unfold guest_runtime_mounts.
  destruct (gh spec); cbn [app map]; apply (numbered_cons 1 "workspace" _ Hw);
    repeat (apply numbered_cons; [apply mount_id_suffix_clean|]); apply user_mounts_pair.
Qed.


(** ** The order of nested mounts

    [from_manifest] knows every directory on the way to a mount by its path. *)

Section Order.
Context {W : Type} `{HostOs W}.
Import Namespace.

(** The paths of the tree, with the empty path for the root. *)
Definition known (ns : Namespace) : gmap string Z := <["" := ROOT_ID]> (delete "/" (path_to_inode ns)).

Record paths_ok (ns : Namespace) : Prop := {
  po_fresh p i : known ns !! p = Some i -> i < next_inode ns;
  po_inj p q i : known ns !! p = Some i -> known ns !! q = Some i -> p = q;
  po_dirs i cs : children ns !! i = Some cs -> i < next_inode ns;
  po_names i cs name c : children ns !! i = Some cs -> cs !! name = Some c -> contains_char "/" name = false;
  po_children p i cs name c :
    known ns !! p = Some i -> children ns !! i = Some cs -> cs !! name = Some c ->
    known ns !! (p ++ "/" ++ name) = Some c
}.

(** A later namespace knows all the paths of an earlier one. *)
Definition knows (ns ns' : Namespace) : Prop := dom (known ns) ⊆ dom (known ns').

Lemma path_below_inj p q name name' :
  contains_char "/" name = false -> contains_char "/" name' = false ->
  p ++ "/" ++ name = q ++ "/" ++ name' -> p = q /\ name = name'.
Proof.
  intros Hn Hn' E. change (p ++ String "/" name = q ++ String "/" name') in E.
  pose proof (f_equal (split_char "/") E) as Es. rewrite !split_char_sep, (split_char_none "/" name), (split_char_none "/" name') in Es by done.
  apply app_inj_tail in Es as [Es ->]. split; [|done].
  rewrite <- (join_split "/" p), <- (join_split "/" q). by rewrite Es.
Qed.

(** A new directory or mount below a known one. *)
Lemma paths_ok_add ns ns' parent pp name cs :
  paths_ok ns -> known ns !! pp = Some parent -> contains_char "/" name = false -> name <> "" ->
  children ns !! parent = Some cs -> cs !! name = None ->
  path_to_inode ns' = <[pp ++ "/" ++ name := next_inode ns]> (path_to_inode ns) ->
  children ns' = <[parent := <[name := next_inode ns]> cs]> (<[next_inode ns := ∅]> (children ns)) ->
  next_inode ns' = next_inode ns + 1 ->
  paths_ok ns' /\ known ns' !! (pp ++ "/" ++ name) = Some (next_inode ns) /\ knows ns ns'.
Proof.
  intros Hok Hpp Hn Hne Hcs Hnew Ep Ec Ex. set (path := pp ++ "/" ++ name) in *.
  assert (path <> "") as He by (unfold path; by destruct pp).
  assert (path <> "/") as Hr.
  { intros E. apply (f_equal (split_char "/")) in E. unfold path in E.
    change (pp ++ "/" ++ name) with (pp ++ String "/" name) in E.
    rewrite split_char_sep, (split_char_none "/" name) in E by done.
    change (split_char "/" "/") with ([""] ++ [""])%list in E. apply app_inj_tail in E as [_ E]. done. }
  assert (known ns' = <[path := next_inode ns]> (known ns)) as Ek.
  { unfold known. rewrite Ep, delete_insert_ne by done. by rewrite insert_insert_ne. }
  assert (parent < next_inode ns) as Hlt by (by eapply po_fresh).
  assert (forall p i, known ns' !! p = Some i -> p = path /\ i = next_inode ns \/ known ns !! p = Some i) as Hcase.
  { intros p i. rewrite Ek, lookup_insert_Some. naive_solver. }
  split; [|split; [by rewrite Ek, lookup_insert_eq|]].
  2:{ unfold knows. rewrite Ek, dom_insert_L. set_solver. }
  split.
  - intros p i [[_ ->]|Hk%(po_fresh _ Hok)]%Hcase; lia.
  - intros p q i [[-> ->]|Hk]%Hcase [[-> E]|Hk']%Hcase; [done|..].
    + apply (po_fresh _ Hok) in Hk'. lia.
    + subst i. apply (po_fresh _ Hok) in Hk. lia.
    + by eapply po_inj.
  - intros i cs'. rewrite Ec, Ex, !lookup_insert_Some.
    intros [[<- _]|[_ [[<- _]|[_ Hi%(po_dirs _ Hok)]]]]; lia.
  - intros i cs' name' c. rewrite Ec, !lookup_insert_Some.
    intros [[<- <-]|[_ [[_ <-]|[_ Hi]]]]; [|by rewrite lookup_empty|by eapply po_names].
    rewrite lookup_insert_Some. intros [[<- _]|[_ Hc]]; [done|by eapply po_names].
  - intros p i cs' name' c Hp. rewrite Ec, !lookup_insert_Some.
    assert (known ns !! p = Some i -> forall cs0, children ns !! i = Some cs0 -> cs0 !! name' = Some c ->
      known ns' !! (p ++ "/" ++ name') = Some c) as Hold.
    { intros Hk cs0 Hi Hc. pose proof (po_children _ Hok _ _ _ _ _ Hk Hi Hc) as Hkc.
      rewrite Ek, lookup_insert_Some. right. split; [|done]. intros E.
      apply path_below_inj in E as [<- <-]; [|done|by eapply po_names]. rewrite Hpp in Hk.
      injection Hk as <-. congruence. }
    intros [[<- <-]|[Hi1 [[<- <-]|[_ Hi]]]]; [|by rewrite lookup_empty|].
    + apply Hcase in Hp as [[_ E]|Hp]; [lia|]. rewrite lookup_insert_Some. intros [[<- <-]|[_ Hc]].
      * assert (p = pp) as -> by (by eapply po_inj). by rewrite Ek, lookup_insert_eq.
      * by eapply Hold.
    + intros Hc. apply Hcase in Hp as [[_ ->]|Hp]; [apply (po_dirs _ Hok) in Hi; lia|by eapply Hold].
Qed.

(** The path of a sequence of names below a path. *)
Definition path_after (p : string) (names : list string) : string :=
  fold_left (fun p name => p ++ "/" ++ name) names p.

Lemma path_after_names names : names <> [] -> path_after "" names = guest_path_of names.
Proof.
  intros Hne. rewrite guest_path_of_join by done.
  assert (forall p, path_after p names = join "/" (p :: names)) as Hp; [|apply Hp].
  induction names as [|n names IH]; [done|]. intros p. cbn [path_after fold_left].
  destruct names as [|n' names]; [done|]. unfold path_after in IH. rewrite IH by done.
  cbn [join]. by rewrite !str_app_assoc.
Qed.

Lemma known_of_path ns p : p <> "" -> p ∈ dom (known ns) -> is_Some (path_to_inode ns !! p).
Proof.
  intros Hp. unfold known. rewrite elem_of_dom, lookup_insert_ne by done. intros [i Hi%lookup_delete_Some].
  destruct Hi as [_ ->]. by eexists.
Qed.

(** What one step of the way to a mount gives. *)
Definition reached (ns : Namespace) (path : string) (r : Z * Namespace) : Prop :=
  paths_ok r.2 /\ known r.2 !! path = Some r.1 /\ knows ns r.2.

Lemma insert_static_children ns node :
  paths_ok ns -> is_static (n_kind node) = true -> n_inode node = next_inode ns ->
  children (insert_node node (set_next_inode (next_inode ns + 1) ns)) = <[next_inode ns := ∅]> (children ns).
Proof.
  intros Hok Hs Hi. unfold insert_node. rewrite Hs, Hi. cbn.
  destruct (children ns !! next_inode ns) as [cs|] eqn:E; [|done]. apply (po_dirs _ Hok) in E. lia.
Qed.

Lemma add_below ns parent pp name node ns2 :
  paths_ok ns -> known ns !! pp = Some parent -> contains_char "/" name = false -> name <> "" ->
  is_static (n_kind node) = true -> n_inode node = next_inode ns ->
  link_child parent name (next_inode ns) (insert_node node (set_next_inode (next_inode ns + 1) ns)) = Ok ns2 ->
  reached ns (pp ++ "/" ++ name)
    (next_inode ns, set_paths (fun p => <[pp ++ "/" ++ name := next_inode ns]> p) ns2).
Proof.
  intros Hok Hpp Hn Hne Hs Hi. unfold link_child. rewrite (insert_static_children ns node Hok Hs Hi).
  assert (parent <> next_inode ns) as Hp by (pose proof (po_fresh _ Hok _ _ Hpp); lia).
  rewrite lookup_insert_ne by done. destruct (children ns !! parent) as [cs|] eqn:Ec; [|done].
  destruct (cs !! name) eqn:En; [done|]. intros [= <-]. unfold reached. cbn [fst snd].
  apply (paths_ok_add ns _ parent pp name cs); try done.
  - cbn [set_paths set_children children path_to_inode]. unfold insert_node. by rewrite Hs.
  - cbn [set_paths set_children children]. by rewrite insert_static_children.
  - cbn [set_paths set_children next_inode]. unfold insert_node. by rewrite Hs.
Qed.

Lemma allocate_yields ns :
  yields (S := Os W) (of_exec (allocate_inode ns))
    (fun r => r = (next_inode ns, set_next_inode (next_inode ns + 1) ns)).
Proof. intros os r os'. unfold of_exec, allocate_inode. destruct (_ <? _); [|done]. by intros [= <- _]. Qed.

Lemma ensure_synthetic_dir_yields ns parent pp name :
  paths_ok ns -> known ns !! pp = Some parent -> safe_name name ->
  yields (S := Os W) (ensure_synthetic_dir parent name (pp ++ "/" ++ name) ns) (reached ns (pp ++ "/" ++ name)).
Proof.
  intros Hok Hpp (Hne & _ & _ & Hn & _). unfold ensure_synthetic_dir.
  destruct (children ns !! parent ≫= (fun c => c !! name)) as [i|] eqn:Ec.
  - destruct (children ns !! parent) as [cs|] eqn:Ep; [|done]. cbn in Ec.
    destruct (nodes ns !! i); [|by intros ? ?]. eapply yields_seq; [apply yields_true|]. intros [] _; cbn [negb].
    + apply yields_ret. split_and!; cbn; [done|by eapply po_children|]. by unfold knows.
    + apply yields_throw.
  - eapply yields_seq; [apply allocate_yields|].
    intros [i ns1] [= -> ->]. cbv beta iota zeta. eapply yields_seq.
    { apply yields_of. intros ns2 El. apply (add_below ns parent pp name _ ns2 Hok Hpp Hn Hne) in El; [exact El| |done].
      cbn [n_kind]. destruct (n_kind <$> _) as [[]|]; done. }
    intros ns2 Hr. by apply yields_ret.
Qed.

Lemma knows_refl ns : knows ns ns.
Proof. by unfold knows. Qed.

Lemma knows_trans ns1 ns2 ns3 : knows ns1 ns2 -> knows ns2 ns3 -> knows ns1 ns3.
Proof. unfold knows. set_solver. Qed.

(** All the directories on the way become known. *)
Lemma ensure_dirs_yields names ns parent pp :
  paths_ok ns -> known ns !! pp = Some parent -> Forall safe_name names ->
  yields (S := Os W) (ensure_dirs parent pp names ns) (fun r =>
    reached ns (path_after pp names) r /\
    forall front rest, names = (front ++ rest)%list -> path_after pp front ∈ dom (known r.2)).
Proof.
  intros Hok Hpp Hn. revert ns parent pp Hok Hpp.
  induction Hn as [|name names Hname _ IH]; intros ns parent pp Hok Hpp; cbn [ensure_dirs].
  - apply yields_ret. split; [by split_and!; [..|apply knows_refl]|]. intros front rest E. symmetry in E.
    apply app_eq_nil in E as [-> _]. by apply elem_of_dom_2 with parent.
  - eapply yields_seq; [by apply ensure_synthetic_dir_yields|]. intros [i ns1] (Hok1 & Hk1 & Hs1). cbn in Hok1, Hk1, Hs1.
    intros os r os' E. destruct (IH ns1 i _ Hok1 Hk1 os r os' E) as [(Hok2 & Hk2 & Hs2) Hall].
    split; [split_and!; [done|done|by eapply knows_trans]|].
    intros [|n front] rest; [intros _|intros [= <- Enames]; by eapply Hall].
    cbn. apply Hs2, Hs1. by apply elem_of_dom_2 with parent.
Qed.

(** After a mount is added, its path and the directories above it are known. *)
Lemma add_mount_yields manifest m ns cs :
  paths_ok ns -> normalize_guest_path (Manifest.ms_guest_path m) = Ok (guest_path_of cs) -> Forall safe_name cs ->
  yields (S := Os W) (add_mount manifest m ns) (fun ns' =>
    path_to_inode ns !! guest_path_of cs = None /\ paths_ok ns' /\ knows ns ns' /\
    forall front rest, cs = (front ++ rest)%list -> path_after "" front ∈ dom (known ns')).
Proof.
  intros Hok Hp Hcs. unfold add_mount.
  eapply yields_seq; [apply yields_true|]. intros _ _.
  eapply (yields_seq _ _ (fun p => p = guest_path_of cs)); [apply yields_of; congruence|]. intros ? ->.
  case_match; [apply yields_throw|]. case_bool_decide as Hr; [apply yields_throw|].
  case_bool_decide as Hnew; [apply yields_throw|]. apply eq_None_not_Some in Hnew.
  eapply yields_seq; [apply yields_true|]. intros sp _. eapply yields_seq; [apply yields_true|]. intros sfd _.
  eapply yields_seq; [apply yields_true|]. intros rfd _. cbv zeta. set (ns1 := set_mounts _ ns).
  eapply (yields_seq _ _ (fun l => l = cs)).
  { apply yields_of. intros l. rewrite path_components_of by done. congruence. }
  intros ? ->. destruct cs as [|leaf names _] using rev_ind; [done|]. rewrite removelast_last, last_snoc.
  apply Forall_app in Hcs as [Hnames [Hleaf _]%Forall_cons].
  assert (paths_ok ns1) as Hok1 by (destruct Hok; by split).
  eapply yields_seq; [apply (ensure_dirs_yields names ns1 ROOT_ID "" Hok1); [apply lookup_insert_eq|done]|].
  intros [par ns2] [(Hok2 & Hk2 & Hs2) Hall]. cbn [fst snd] in Hok2, Hk2, Hs2, Hall. cbv beta iota.
  eapply yields_seq; [apply allocate_yields|]. intros [i ns3] [= -> ->]. cbv beta iota zeta.
  assert (guest_path_of (names ++ [leaf]) = path_after "" names ++ "/" ++ leaf) as Epath.
  { rewrite <- path_after_names by (by destruct names). unfold path_after. by rewrite fold_left_app. }
  eapply yields_seq.
  { apply yields_of. intros ns4 El. destruct Hleaf as (Hne & _ & _ & Hl & _).
    apply (add_below ns2 par (path_after "" names) leaf _ ns4 Hok2 Hk2 Hl Hne) in El; [exact El|done|done]. }
  intros ns4 (Hok4 & Hk4 & Hs4). apply yields_ret. rewrite Epath. cbn [fst snd] in *.
  split_and!; [by rewrite <- Epath|done|by eapply knows_trans|].
  intros front rest E. destruct rest as [|x rest _] using rev_ind.
  - rewrite app_nil_r in E. subst front. unfold path_after. rewrite fold_left_app. cbn [fold_left].
    by apply elem_of_dom_2 with (next_inode ns2).
  - rewrite app_assoc in E. apply app_inj_tail in E as [E _]. apply Hs4. by eapply Hall.
Qed.

Lemma normalized_names path p :
  normalize_guest_path path = Ok p -> exists cs, p = guest_path_of cs /\ Forall safe_name cs.
Proof.
  intros Hp. pose proof (normalize_guest_path_spec path) as Hs. rewrite Hp in Hs.
  destruct Hs as (_ & cs & _ & Hc & _ & -> & _). by exists cs.
Qed.

(** A mount on a path that is known is refused. *)
Lemma add_mounts_blocked manifest m ms ns cs :
  m ∈ ms -> normalize_guest_path (Manifest.ms_guest_path m) = Ok (guest_path_of cs) -> Forall safe_name cs ->
  cs <> [] -> paths_ok ns -> guest_path_of cs ∈ dom (known ns) ->
  yields (S := Os W) (add_mounts manifest ms ns) (fun _ => False).
Proof.
  intros Hin Hm Hcs Hne. revert ns. induction ms as [|m' ms IH]; intros ns Hok Hk; [by apply elem_of_nil in Hin|].
  cbn [add_mounts]. destruct (normalize_guest_path (Manifest.ms_guest_path m')) as [p|] eqn:Ep.
  2:{ unfold add_mount. rewrite Ep. intros os a os'. unfold bind, lift.
      by destruct (Manifest.MountSpec_validate m'). }
  destruct (normalized_names _ _ Ep) as (cs' & -> & Hcs').
  eapply yields_seq; [by apply (add_mount_yields manifest m' ns cs')|].
  intros ns' (Hnew & Hok' & Hkn & _). apply elem_of_cons in Hin as [<-|Hin].
  - rewrite Hm in Ep. injection Ep as Ep. rewrite <- Ep in Hnew.
    destruct (known_of_path ns (guest_path_of cs)) as [i Hi]; [by destruct cs|done|]. congruence.
  - apply IH; [done|done|by apply Hkn].
Qed.

Lemma add_mounts_inner_first manifest m1 m2 l1 l2 ns cs rest :
  m2 ∈ l2 -> normalize_guest_path (Manifest.ms_guest_path m1) = Ok (guest_path_of (cs ++ rest)%list) ->
  normalize_guest_path (Manifest.ms_guest_path m2) = Ok (guest_path_of cs) ->
  Forall safe_name (cs ++ rest)%list -> cs <> [] -> paths_ok ns ->
  yields (S := Os W) (add_mounts manifest (l1 ++ m1 :: l2)%list ns) (fun _ => False).
Proof.
  intros Hin H1 H2 Hs Hne. revert ns. induction l1 as [|m l1 IH]; intros ns Hok; cbn [add_mounts app].
  - eapply yields_seq; [by apply (add_mount_yields manifest m1 ns (cs ++ rest)%list)|].
    intros ns' (_ & Hok' & _ & Hall). eapply add_mounts_blocked; [done|done|by apply Forall_app in Hs as []|done|done|].
    rewrite <- path_after_names by done. by eapply Hall.
  - destruct (normalize_guest_path (Manifest.ms_guest_path m)) as [p|] eqn:Ep.
    2:{ unfold add_mount. rewrite Ep. intros os a os'. unfold bind, lift.
        by destruct (Manifest.MountSpec_validate m). }
    destruct (normalized_names _ _ Ep) as (cs' & -> & Hcs').
    eapply yields_seq; [by apply (add_mount_yields manifest m ns cs')|].
    intros ns' (_ & Hok' & _). by apply IH.
Qed.

Lemma root_paths_ok uid gid mode : paths_ok (insert_root (mkNamespace ∅ ∅ ∅ [] ∅ ∅ (ROOT_ID + 1) uid gid mode)).
Proof.
  set (ns := insert_root _).
  assert (known ns = {[ "" := ROOT_ID ]}) as Ek.
  { unfold known, ns. cbn. by rewrite delete_insert_eq, delete_empty. }
  assert (children ns = {[ ROOT_ID := ∅ ]}) as Ec by (unfold ns; cbn; by rewrite lookup_empty).
  split; rewrite ?Ek, ?Ec.
  - intros p i [_ <-]%lookup_singleton_Some. done.
  - intros p q i [<- _]%lookup_singleton_Some [<- _]%lookup_singleton_Some. done.
  - intros i cs [<- _]%lookup_singleton_Some. done.
  - intros i cs name c [_ <-]%lookup_singleton_Some. by rewrite lookup_empty.
  - intros p i cs name c _ [_ <-]%lookup_singleton_Some. by rewrite lookup_empty.
Qed.

Lemma from_manifest_inner_first manifest m1 m2 l1 l2 cs rest :
  Manifest.mounts manifest = (l1 ++ m1 :: l2)%list -> m2 ∈ l2 ->
  normalize_guest_path (Manifest.ms_guest_path m1) = Ok (guest_path_of (cs ++ rest)%list) ->
  normalize_guest_path (Manifest.ms_guest_path m2) = Ok (guest_path_of cs) ->
  Forall safe_name (cs ++ rest)%list -> cs <> [] ->
  yields (S := Os W) (from_manifest manifest) (fun _ => False).
Proof.
  intros Em Hin H1 H2 Hs Hne. unfold from_manifest. do 3 (case_match; [apply yields_throw|]).
  eapply yields_seq; [apply yields_true|]. intros _ _. case_match; [apply yields_throw|].
  eapply yields_seq; [apply yields_true|]. intros _ _. cbv zeta.
  eapply yields_seq; [apply yields_true|]. intros mode _. rewrite Em.
  eapply add_mounts_inner_first; try done. apply root_paths_ok.
Qed.

End Order.

(** ** From the launcher to the filesystem *)

Section EndToEnd.
Context {G : Type} `{LaunchFsLaws G} {J : LaunchJson} {W : Type} `{HostOs W}.
Context (from_str : string -> option Manifest.Manifest) `{!LaunchJsonLaws from_str}.

Lemma described_at (g : G) ms hs m names :
  kept g ms hs -> m ∈ ms -> rm_required m = true ->
  normalize_absolute_path (rm_guest_path m) "guest_path" = Ok (guest_path_of names) ->
  exists h, h ∈ hs /\ hm_guest_path h = guest_path_of names.
Proof.
  intros Hk Hin Hr Hn. destruct (kept_required g ms hs m Hk Hin Hr) as (h & Hh & Hd). exists h.
  split; [done|]. pose proof (desc_guest _ _ _ Hd) as E. rewrite Hn in E. by injection E as <-.
Qed.

Lemma mapM_at (g : G) hs sps h :
  described g hs -> mapM mount_spec_of hs = Some sps -> h ∈ hs ->
  exists sp, sp ∈ sps /\ Manifest.ms_guest_path sp = hm_guest_path h.
Proof.
  intros Hd Hm Hin. apply list_elem_of_lookup in Hin as [i Hi]. apply mapM_Some in Hm.
  destruct (Forall2_lookup_l _ _ _ _ _ Hm Hi) as (sp & Hsp & E). exists sp.
  split; [by eapply list_elem_of_lookup_2|].
  destruct (proj1 (Forall_lookup _ _) Hd _ _ Hi) as (m & Hdm).
  destruct (described_spec g m h Hdm) as (k & a & _ & _ & E'). rewrite E' in E. by injection E as <-.
Qed.

Definition shared (spec : GuestShareSpec) (path : string) : Prop := path ∈ extra_ro spec \/ path ∈ extra_rw spec.

Lemma user_mounts_share k paths ro sc path :
  path ∈ paths -> exists m, m ∈ user_mounts k paths ro sc /\ rm_required m = true /\ rm_guest_path m = path.
Proof.
  revert k. induction paths as [|p paths IH]; intros k Hin; [by apply elem_of_nil in Hin|]. cbn [user_mounts].
  apply elem_of_cons in Hin as [->|Hin]; [eexists; split; [by left|done]|].
  destruct (IH (k + 1) Hin) as (m & ? & ?). exists m. split; [by right|done].
Qed.

Lemma guest_mounts_share project spec path :
  shared spec path ->
  exists ms m, guest_runtime_mounts project spec = RuntimeMount_workspace project :: ms /\ m ∈ ms /\
    rm_required m = true /\ rm_guest_path m = path.
Proof.
  intros Hs. unfold guest_runtime_mounts. cbn [app]. set (k := if gh spec then 4 else 3).
  destruct Hs as [Hin|Hin].
  - destruct (user_mounts_share k _ true UserRo _ Hin) as (m & Hm & ?).
    eexists _, m. split; [done|]. split; [|done]. set_solver.
  - destruct (user_mounts_share (k + len (extra_ro spec)) _ false UserRw _ Hin) as (m & Hm & ?).
    eexists _, m. split; [done|]. split; [|done]. set_solver.
Qed.

(** A share of a directory above the project cannot be used. The
    launcher checks that the guest's paths differ and writes the manifest, with the
    project first; the composed filesystem has then made the directory above it
    itself, and refuses the share as a duplicate, so that the launch fails when
    the filesystem is started. *)
Theorem share_above_project_refused (g : G) c project spec share s g' above below :
  write_runtime_manifests c (guest_runtime_mounts project spec) g = (Ok s, g') -> shared spec share ->
  normalize_absolute_path project "guest_path" = Ok (guest_path_of (above ++ below)%list) ->
  normalize_absolute_path share "guest_path" = Ok (guest_path_of above) ->
  Forall safe_name (above ++ below)%list -> above <> [] ->
  exists hb mf, (composed_fs_manifest (runtime c), hb) ∈ written g' /\ from_str (text_of hb) = Some mf /\
    forall os : Os W, Namespace.ROOT_ID + 1 + Namespace.path_costs (Manifest.mounts mf) <= u64_max ->
      exists e os', Namespace.from_manifest mf os = Ret (Err e, os').
Proof.
  intros Hw Hsh Hp Hq Hs Hne.
  apply writes_in_order in Hw as (g0 & hs & hb & bb & lb & g3 & cs & cb & Hv & _ & _ & Eb & _ & _ & _ & Hw).
  destruct (validated_described _ _ _ Hv) as (Hd & _). apply validate_mounts_ok in Hv as (Hk & _).
  destruct (guest_mounts_share project spec share Hsh) as (ms & m & Ems & Hm & Hr & Hg). rewrite Ems in Hk.
  inversion Hk as [|? ? h1 hs' D1 Hk'|]; subst; [|done].
  pose proof (desc_guest _ _ _ D1) as E1. cbn in E1. rewrite Hp in E1. injection E1 as E1.
  destruct (described_at g0 ms hs' m above Hk' Hm Hr Hq) as (h2 & Hh2 & E2).
  destruct (manifest_of_described g0 (host_manifest_of c (h1 :: hs')) _ Hd eq_refl) as [mf Hmf].
  exists (hb ++ [newline])%list, mf. split_and!.
  - rewrite Hw. apply elem_of_app. right. by left.
  - by rewrite (host_manifest_read _ _ Eb).
  - intros os Hb. pose proof (Namespace.from_manifest_runs mf os Hb) as Hrun. unfold runs in Hrun.
    destruct (Namespace.from_manifest mf os) as [[[ns|e] os']|] eqn:Ef; [|by exists e, os'|done].
    exfalso. unfold manifest_of in Hmf. cbn [mounts host_manifest_of] in Hmf.
    destruct (mapM mount_spec_of (h1 :: hs')) as [sps|] eqn:Es; [|done]. injection Hmf as Hmf.
    apply Forall_cons in Hd as [_ Hd'].
    destruct (described_spec g0 _ h1 D1) as (k & a & _ & _ & Esp). cbn in Es. rewrite Esp in Es. cbn in Es.
    destruct (mapM mount_spec_of hs') as [sps'|] eqn:Es'; [|done]. injection Es as <-.
    destruct (mapM_at g0 hs' sps' h2 Hd' Es' Hh2) as (sp2 & Hsp2 & Eg2).
    assert (Forall safe_name above) as Ha by (by apply Forall_app in Hs as []).
    eapply (from_manifest_inner_first mf _ sp2 [] sps' above below); [by rewrite <- Hmf|exact Hsp2|..|exact Ef]; try done.
    + cbn. rewrite <- E1. by apply normalize_components; [destruct above|apply path_components_of].
    + rewrite Eg2, E2. by apply normalize_components; [destruct above|apply path_components_of].
Qed.

End EndToEnd.

(** ** Witnesses *)

Section Demo.

(** A host with some directories, whose only other files are the written ones. *)
Record disk := mkDisk { directories : list string; disk_written : list (string * list byte) }.

#[local] Instance disk_fs : LaunchFs disk := {|
  create_dir_all g p := (Ok tt, g);
  path_exists g p := bool_decide (p ∈ directories g) || bool_decide (p ∈ map fst (disk_written g));
  path_is_dir g p := Ok (bool_decide (p ∈ directories g));
  write_file g p bs :=
    if bool_decide (p ∈ directories g) then (Err (OsError 21), g)
    else (Ok tt, mkDisk (directories g) (disk_written g ++ [(p, bs)])%list);
  written := disk_written
|}.

#[local] Instance disk_laws : LaunchFsLaws disk.
Proof.
  split; cbn.
  - by intros g p r g' [= _ <-].
  - intros g p bs g'. case_bool_decide; by intros [= <-].
  - intros g p bs g'. case_bool_decide as Hd; intros [= <-]. cbn. rewrite (bool_decide_false (p ∈ directories g)) by done.
    split; [|done]. apply orb_true_iff. right. apply bool_decide_eq_true. rewrite map_app. set_solver.
  - intros g p bs r g' q Hw Hq. destruct (bool_decide (p ∈ directories g)); injection Hw as _ <-; [done|].
    cbn. split; [|done].
    apply orb_true_iff in Hq as [Hq|Hq]; apply orb_true_iff; b2p; [left|right]; apply bool_decide_eq_true; [done|].
    rewrite map_app. set_solver.
Qed.

#[local] Instance ManifestSourceClass_eq_dec : EqDecision ManifestSourceClass.
Proof. solve_decision. Defined.

#[local] Instance ManifestSourceClass_countable : Countable ManifestSourceClass.
Proof.
  refine (inj_countable'
    (fun c => match c with Workspace => 0 | ToolState => 1 | AuthConfig => 2 | SystemRo => 3 | UserRo => 4 | UserRw => 5 end)
    (fun n => match n with 0 => Workspace | 1 => ToolState | 2 => AuthConfig | 3 => SystemRo | 4 => UserRo | _ => UserRw end) _).
  by intros [].
Defined.

#[local] Instance MetadataSpec_eq_dec : EqDecision MetadataSpec.
Proof. solve_decision. Defined.

#[local] Instance SyntheticSpec_eq_dec : EqDecision SyntheticSpec.
Proof. solve_decision. Defined.

#[local] Instance HostMount_eq_dec : EqDecision HostMount.
Proof. solve_decision. Defined.

#[local] Instance HostMount_countable : Countable HostMount.
Proof.
  refine (inj_countable'
    (fun m => (hm_id m, hm_guest_path m, hm_host_path m, hm_kind m, hm_access m, hm_source_class m, hm_required m,
       hm_bind m, (uid_gid (hm_metadata m), permissions (hm_metadata m))))
    (fun '(a, b, c, d, e, f, g, h, (i, j)) => mkHostMount a b c d e f g h (mkMetadata i j)) _).
  by intros [? ? ? ? ? ? ? ? []].
Defined.

#[local] Instance FilterSpec_eq_dec : EqDecision FilterSpec.
Proof. solve_decision. Defined.

#[local] Instance FilterSpec_countable : Countable FilterSpec.
Proof.
  refine (inj_countable' (fun f => (f_mount_id f, f_suffixes f, f_action f))
    (fun '(a, b, c) => mkFilterSpec a b c) _).
  by intros [].
Defined.

#[local] Instance HostManifest_eq_dec : EqDecision HostManifest.
Proof. solve_decision. Defined.

#[local] Instance HostManifest_countable : Countable HostManifest.
Proof.
  refine (inj_countable'
    (fun m => (schema_version m, export_tag m, created_by m, mounts m,
       (syn_uid (synthetic m), syn_gid (synthetic m), syn_dir_mode (synthetic m)), protected m, shadow_root m, filters m))
    (fun '(a, b, c, d, (e, f, g), h, i, j) => mkHostManifest a b c d (mkSyntheticSpec e f g) h i j) _).
  by intros [? ? ? ? [] ? ? ?].
Defined.

#[local] Instance demo_json : LaunchJson := {|
  host_manifest_json m := Ok (binary (encode m));
  bind_manifest_json m := Ok [];
  launch_config_json m := Ok []
|}.

Definition demo_from_str (text : string) : option Manifest.Manifest :=
  decode (unbinary (removelast (String.list_byte_of_string text))) ≫= manifest_of.

#[local] Instance demo_json_laws : LaunchJsonLaws demo_from_str.
Proof.
  split; try by eexists. intros m bs [= <-]. unfold demo_from_str, text_of.
  rewrite String.list_byte_of_string_of_list_byte, removelast_last, unbinary_binary, decode_encode. done.
Qed.

Definition demo_config : FrontendConfig :=
  mkFrontend "/home/u/p" "qemu-system-x86_64" (mkArtifacts "/k" "/i" "/r") (RuntimePaths_under "/home/u/p/.sandbox/docker-vm/run")
    (mkShape 1024 1 "quiet" COMPOSED_FS_TAG) Policy.GuestNetwork_default None None [].

Definition demo_disk : disk := mkDisk ["/home/u/p"; "/home/u"] [].

Definition demo_shares : GuestShareSpec := mkShareSpec "/home/u" false ["/home/u"] [].

Definition demo_launch : io_result RuntimeManifestSummary * disk :=
  write_runtime_manifests demo_config (guest_runtime_mounts "/home/u/p" demo_shares) demo_disk.

Lemma demo_launch_ok : exists s g', demo_launch = (Ok s, g').
Proof.
  destruct demo_launch as [r g'] eqn:E. apply (f_equal fst) in E. vm_compute in E. destruct r; [|done]. by eexists _, _.
Qed.

Lemma launch_manifests_accepted_witness :
  exists s g', demo_launch = (Ok s, g') /\
    exists hs hb, (composed_fs_manifest (runtime demo_config), hb) ∈ written g' /\
      (Manifest.validate_manifest_json_shape demo_from_str (text_of hb) = Ok tt <-> Forall acceptable hs).
Proof.
  destruct demo_launch_ok as (s & g' & E). exists s, g'. split; [exact E|].
  destruct (launch_manifests_accepted demo_from_str demo_disk demo_config _ [] s g' E)
    as (hs & hb & bb & lb & h1 & h2 & cs & cb & Hw & _ & _ & _ & _ & _ & _ & _ & Hshape & _).
  exists hs, hb. split; [|exact Hshape]. rewrite Hw. apply elem_of_app. right. apply elem_of_cons. left. reflexivity.
Defined.

End Demo.

End RuntimeManifest.
