(* ===== verification/Supervisor.v ===== *)
(** The supervisor of a launch (src/vm-frontend/src/supervisor.rs) and its control
    socket (src/vm-frontend/src/supervisor_control.rs).

    The supervisor keeps a status for each task of the plan and the state of the
    shutdown, each in a watch channel of tokio, an interface here. The control
    socket serves snapshots, shutdown requests and subscriptions. The theorems: a
    request and its answer go through the socket unchanged; a subscriber that has
    nothing left to do has shown the current state, and one that waits after a
    shutdown was requested is told. *)

From stdpp Require Import base option list numbers strings gmap relations.
From Stdlib Require Import ZArith Lia.
From S2P Require Import Prelude RustIo RustStr NetworkPolicy FsPath Frontend VmnetServiceIo.

Local Open Scope list_scope.
Local Open Scope Z_scope.

(** ** Watch channels

    [tokio::sync::watch]: a value with a version that grows with every [send]. A
    receiver is the version it has seen; [changed] reports a newer one. *)
Module Watch.

Class Watches := {
  watch : Type -> Type;
  watch_new : forall {V}, V -> watch V;
  borrow : forall {V}, watch V -> V;
  version : forall {V}, watch V -> Z;
  (** Whether a receiver is alive. *)
  watched : forall {V}, watch V -> bool;
  (** [Sender::send]; the value comes back when there is no receiver. *)
  send : forall {V}, watch V -> V -> result unit V * watch V
}.

Class WatchLaws `{Watches} : Prop := {
  watch_new_spec {V} (v : V) : borrow (watch_new v) = v /\ watched (watch_new v) = true;
  send_ok {V} (w : watch V) v : watched w = true ->
    exists w', send w v = (Ok tt, w') /\ borrow w' = v /\ version w < version w' /\ watched w' = true;
  send_unwatched {V} (w : watch V) v : watched w = false -> send w v = (Err v, w)
}.

(** [Receiver::changed().await] once it returns: the version that is then seen. *)
Definition changed `{Watches} {V} (w : watch V) (seen : Z) : option Z :=
  if seen <? version w then Some (version w) else None.

End Watch.

Module Supervisor.
Import Policy Frontend Watch Mpsc.

(** ** Tasks *)

Inductive SupervisorTaskName := ComposedFs | ConfigFs | VmnetGatewayTask | DockerProxyTask | Qemu.

#[global] Instance SupervisorTaskName_eq_dec : EqDecision SupervisorTaskName.
Proof. solve_decision. Defined.

#[global] Instance HostListenerPurpose_eq_dec : EqDecision HostListenerPurpose.
Proof. solve_decision. Defined.

Definition task_name_to_string (n : SupervisorTaskName) : string :=
  match n with
  | ComposedFs => "composed-fs"
  | ConfigFs => "config-fs"
  | VmnetGatewayTask => "vmnet-gateway"
  | DockerProxyTask => "docker-proxy"
  | Qemu => "qemu"
  end.

Inductive SupervisorTaskKind :=
| BlockingComposedFs | BlockingConfigFs | VmnetGatewayKind | AsyncDockerProxy | ChildProcessKind.

Record SupervisorTaskSpec := mkSpec { sp_name : SupervisorTaskName; sp_kind : SupervisorTaskKind }.

Inductive SupervisorTaskStatus :=
| Planned
| Starting
| Ready
| Finished
| Failed (cause : string)
| Cancelled (reason : string).

Definition is_terminal (s : SupervisorTaskStatus) : bool :=
  match s with Finished | Failed _ | Cancelled _ => true | _ => false end.

Record SupervisorTaskResult := mkTaskResult { tr_name : SupervisorTaskName; tr_status : SupervisorTaskStatus }.

Inductive SupervisorShutdown := Running | Requested (reason : string).

Definition is_requested (s : SupervisorShutdown) : bool :=
  match s with Requested _ => true | Running => false end.

Definition shutdown_reason (s : SupervisorShutdown) : option string :=
  match s with Running => None | Requested reason => Some reason end.

Record SupervisorRunSummary := mkRunSummary {
  rs_shutdown : SupervisorShutdown; rs_results : list SupervisorTaskResult }.

Inductive SupervisorError := ShutdownChannelClosed | TaskStatusChannelClosed (task : SupervisorTaskName).

Section Supervisor.
Context `{Ipv4NetOps} `{Watches}.

Definition task_spec (name : SupervisorTaskName) (task : ManagedTask) : SupervisorTaskSpec :=
  mkSpec name
    match name, task with
    | ComposedFs, EmbeddedComposedFs _ => BlockingComposedFs
    | ConfigFs, EmbeddedComposedFs _ => BlockingConfigFs
    | _, VmnetGateway _ => VmnetGatewayKind
    | _, DockerProxy => AsyncDockerProxy
    | _, ChildProcess _ => ChildProcessKind
    | _, EmbeddedComposedFs _ => BlockingComposedFs
    end.

Definition task_specs_from_plan (plan : SupervisorPlan) : list SupervisorTaskSpec :=
  [task_spec ComposedFs (plan_composed_fs plan);
   task_spec ConfigFs (plan_config_fs plan);
   task_spec VmnetGatewayTask (plan_vmnet plan)] ++
  match plan_docker_proxy plan with
  | Some docker_proxy => [task_spec DockerProxyTask docker_proxy]
  | None => []
  end ++ [task_spec Qemu (plan_qemu plan)].

Record SupervisorTaskState := mkTask { spec : SupervisorTaskSpec; status : watch SupervisorTaskStatus }.

Record LaunchSupervisor := mkSupervisor {
  sv_plan : SupervisorPlan; tasks : list SupervisorTaskState; shutdown : watch SupervisorShutdown }.

Definition supervisor_new (plan : SupervisorPlan) : LaunchSupervisor :=
  mkSupervisor plan (map (fun spec => mkTask spec (watch_new Planned)) (task_specs_from_plan plan))
    (watch_new Running).

Definition task_specs (s : LaunchSupervisor) : list SupervisorTaskSpec := map spec (tasks s).

Definition task_result (t : SupervisorTaskState) : SupervisorTaskResult :=
  mkTaskResult (sp_name (spec t)) (borrow (status t)).

Definition task_statuses (s : LaunchSupervisor) : list SupervisorTaskResult := map task_result (tasks s).

Definition named (name : SupervisorTaskName) (t : SupervisorTaskState) : Prop := sp_name (spec t) = name.

#[global] Instance named_dec name t : Decision (named name t) := decide (sp_name (spec t) = name).

Definition task_status (s : LaunchSupervisor) (name : SupervisorTaskName) : option SupervisorTaskStatus :=
  (fun p => borrow (status p.2)) <$> list_find (named name) (tasks s).

(** A controller holds the sender of its task: it is the name of the task. *)
Definition task_controller (s : LaunchSupervisor) (name : SupervisorTaskName) : option SupervisorTaskName :=
  (fun p => sp_name (spec p.2)) <$> list_find (named name) (tasks s).

Definition task_controllers (s : LaunchSupervisor) : list SupervisorTaskName :=
  map (fun t => sp_name (spec t)) (tasks s).

Fixpoint send_status (name : SupervisorTaskName) (st : SupervisorTaskStatus) (ts : list SupervisorTaskState)
  : result unit SupervisorError * list SupervisorTaskState :=
  match ts with
  | [] => (Err (TaskStatusChannelClosed name), [])
  | t :: rest =>
      if bool_decide (named name t) then
        match send (status t) st with
        | (Ok _, w) => (Ok tt, mkTask (spec t) w :: rest)
        | (Err _, w) => (Err (TaskStatusChannelClosed name), mkTask (spec t) w :: rest)
        end
      else let '(r, rest) := send_status name st rest in (r, t :: rest)
  end.

(** Only tasks of the plan have controllers, so that the end of the list is not
    reached. *)
Definition set_status (name : SupervisorTaskName) (st : SupervisorTaskStatus) (s : LaunchSupervisor)
  : result unit SupervisorError * LaunchSupervisor :=
  let '(r, ts) := send_status name st (tasks s) in (r, mkSupervisor (sv_plan s) ts (shutdown s)).

Definition mark_starting (name : SupervisorTaskName) := set_status name Starting.
Definition mark_ready (name : SupervisorTaskName) := set_status name Ready.
Definition mark_finished (name : SupervisorTaskName) := set_status name Finished.
Definition mark_failed (name : SupervisorTaskName) (cause : string) := set_status name (Failed cause).
Definition mark_cancelled (name : SupervisorTaskName) (reason : string) := set_status name (Cancelled reason).

Definition current_shutdown (s : LaunchSupervisor) : SupervisorShutdown := borrow (shutdown s).

Definition request_shutdown (reason : string) (s : LaunchSupervisor) : LaunchSupervisor :=
  mkSupervisor (sv_plan s) (tasks s) (send (shutdown s) (Requested reason)).2.

Definition shutdown_requested (s : LaunchSupervisor) : bool := is_requested (current_shutdown s).

(** [wait_for_shutdown]: [None] while it waits. The supervisor holds the sender, so
    the channel does not close. *)
Definition wait_for_shutdown (s : LaunchSupervisor) : option SupervisorShutdown :=
  if shutdown_requested s then Some (current_shutdown s) else None.

(** The loop of [run_until_shutdown] over the controllers. *)
Fixpoint cancel_running (reason : string) (names : list SupervisorTaskName) (s : LaunchSupervisor)
  : result unit SupervisorError * LaunchSupervisor :=
  match names with
  | [] => (Ok tt, s)
  | name :: rest =>
      if is_terminal (default Planned (task_status s name)) then cancel_running reason rest s
      else
        match mark_cancelled name reason s with
        | (Err e, s) => (Err e, s)
        | (Ok _, s) => cancel_running reason rest s
        end
  end.

(** [run_until_shutdown], from when the shutdown is requested. *)
Definition run_until_shutdown (s : LaunchSupervisor)
  : option (result SupervisorRunSummary SupervisorError * LaunchSupervisor) :=
  match wait_for_shutdown s with
  | None => None
  | Some sd =>
      let reason := default "supervisor shutdown"%string (shutdown_reason sd) in
      Some match cancel_running reason (task_controllers s) s with
           | (Err e, s) => (Err e, s)
           | (Ok _, s) => (Ok (mkRunSummary sd (task_statuses s)), s)
           end
  end.

(** ** The control protocol *)

Definition CONTROL_PROTOCOL_VERSION : Z := 1.
Definition CONTROL_SOCKET_FILE_NAME : string := "agentvm-control.sock".
Definition MAX_CONTROL_MESSAGE_BYTES : Z := 64 * 1024.

Definition control_socket_path (r : RuntimePaths) : string :=
  FsPath.path_join (run_dir r) CONTROL_SOCKET_FILE_NAME.

Inductive SupervisorControlRequest :=
| StatusSnapshot
| SubscribeStatus
| RequestShutdown (reason : string).

Record PayloadControlEndpoint := mkEndpoint { ep_host_addr : string; ep_host_port : Z }.

Record SupervisorControlSnapshot := mkSnapshot {
  sn_shutdown : SupervisorShutdown;
  sn_tasks : list SupervisorTaskResult;
  sn_endpoint : option PayloadControlEndpoint
}.

Inductive SupervisorControlResponse :=
| SnapshotResponse (snapshot : SupervisorControlSnapshot)
| Ack
| ErrorResponse (message : string).

Definition payload_control_endpoint_from_plan (plan : SupervisorPlan) : option PayloadControlEndpoint :=
  match plan_vmnet plan with
  | VmnetGateway vmnet =>
      (fun p => mkEndpoint (host_addr p.2) (host_port p.2)) <$>
      list_find (fun l => purpose l = PayloadControl) (host_listeners (vc_policy vmnet))
  | _ => None
  end.

(** The code reads the channels one after the other, so a change between two of the reads
    can be in one part of a snapshot and not in the other; here a snapshot is taken in
    one step. *)
Definition from_supervisor (s : LaunchSupervisor) : SupervisorControlSnapshot :=
  mkSnapshot (current_shutdown s) (task_statuses s) (payload_control_endpoint_from_plan (sv_plan s)).

Definition apply_control_request (s : LaunchSupervisor) (r : SupervisorControlRequest)
  : SupervisorControlResponse * LaunchSupervisor :=
  match r with
  | StatusSnapshot => (SnapshotResponse (from_supervisor s), s)
  | RequestShutdown reason => (Ack, request_shutdown reason s)
  | SubscribeStatus =>
      (ErrorResponse "status subscriptions must be served as a streaming connection", s)
  end.

End Supervisor.

(** ** Messages on the socket *)

Inductive SupervisorControlProtocolError :=
| InvalidJson (source : string)
| UnsupportedVersion (actual expected : Z).

(** [UnexpectedResponse] has the response in place of its debug text. *)
Inductive SupervisorControlIoError :=
| ControlIo (source : io_error)
| EncodeJson (source : string)
| Protocol (error : SupervisorControlProtocolError)
| MessageTooLarge (limit : Z)
| RemoteError (message : string)
| UnexpectedResponse (response : SupervisorControlResponse).

(** [serde_json::to_vec] and [from_slice] of a message in its envelope, the pair of
    a version and the message; an error is its text. *)
Class ControlJson := {
  request_to_vec : Z * SupervisorControlRequest -> result (list byte) string;
  request_from_slice : list byte -> result (Z * SupervisorControlRequest) string;
  response_to_vec : Z * SupervisorControlResponse -> result (list byte) string;
  response_from_slice : list byte -> result (Z * SupervisorControlResponse) string
}.

Definition newline : byte := Byte.x0a.

(** Such messages always have an encoding, on one line, which can be followed by
    white space. *)
Class ControlJsonLaws `{ControlJson} : Prop := {
  request_encodes e : exists bs, request_to_vec e = Ok bs /\ newline ∉ bs;
  request_decodes e bs : request_to_vec e = Ok bs -> request_from_slice (bs ++ [newline]) = Ok e;
  response_encodes e : exists bs, response_to_vec e = Ok bs /\ newline ∉ bs;
  response_decodes e bs : response_to_vec e = Ok bs -> response_from_slice (bs ++ [newline]) = Ok e
}.

Definition protocol_error_to_string (e : SupervisorControlProtocolError) : string :=
  match e with
  | InvalidJson source => "invalid supervisor control JSON: " ++ source
  | UnsupportedVersion actual expected =>
      "unsupported supervisor control protocol version " ++ show_usize actual ++ ", expected "
      ++ show_usize expected
  end%string.

Section Control.
Context `{Ipv4NetOps} `{Watches} `{ControlJson}.
(** [io::Error::to_string] and the debug text of a response. *)
Context (io_text : io_error -> string) (debug : SupervisorControlResponse -> string).

Definition control_error_to_string (e : SupervisorControlIoError) : string :=
  match e with
  | ControlIo source => "supervisor control I/O failed: " ++ io_text source
  | EncodeJson source => "failed to encode supervisor control message: " ++ source
  | Protocol e => protocol_error_to_string e
  | MessageTooLarge limit => "supervisor control message exceeded " ++ show_usize limit ++ " bytes"
  | RemoteError message => "supervisor control returned error: " ++ message
  | UnexpectedResponse response => "unexpected supervisor control response: " ++ debug response
  end%string.

(** [decode_control_envelope]. *)
Definition decode_control_envelope {T : Type} (decoded : result (Z * T) string)
  : result T SupervisorControlProtocolError :=
  match decoded with
  | Err source => Err (InvalidJson source)
  | Ok (version, message) =>
      if negb (version =? CONTROL_PROTOCOL_VERSION)
      then Err (UnsupportedVersion version CONTROL_PROTOCOL_VERSION)
      else Ok message
  end.

Definition decode_control_request (bytes : list byte) := decode_control_envelope (request_from_slice bytes).
Definition decode_control_response (bytes : list byte) := decode_control_envelope (response_from_slice bytes).

Definition encode_request (r : SupervisorControlRequest) := request_to_vec (CONTROL_PROTOCOL_VERSION, r).
Definition encode_response (r : SupervisorControlResponse) := response_to_vec (CONTROL_PROTOCOL_VERSION, r).

Section Streams.
Context {C : Type} `{Read C} `{Write C}.
(** [AsyncWriteExt::shutdown]. *)
Context (shutdown_stream : C -> io_result unit * C).

Definition write_control_message (c : C) (encoded : result (list byte) string)
  : result unit SupervisorControlIoError * C :=
  match encoded with
  | Err e => (Err (EncodeJson e), c)
  | Ok bytes =>
      match RustIo.write_all c bytes with
      | (Err e, c) => (Err (ControlIo e), c)
      | (Ok _, c) =>
          match RustIo.write_all c [newline] with
          | (Err e, c) => (Err (ControlIo e), c)
          | (Ok _, c) => (Ok tt, c)
          end
      end
  end.

(** [reader.take(limit).read_to_end()]. *)
Fixpoint read_to_end (fuel : nat) (c : C) (limit : Z) (bytes : list byte) : exec (io_result (list byte) * C) :=
  match fuel with
  | O => Panic
  | S fuel =>
      if limit <=? 0 then Ret (Ok bytes, c)
      else
        match read c limit with
        | (Err e, c) => Ret (Err e, c)
        | (Ok [], c) => Ret (Ok bytes, c)
        | (Ok chunk, c) => read_to_end fuel c (limit - len chunk) (bytes ++ chunk)
        end
  end.

Definition read_bounded_control_message (c : C) : exec (result (list byte) SupervisorControlIoError * C) :=
  let! (r, c) := read_to_end (Z.to_nat (MAX_CONTROL_MESSAGE_BYTES + 2)) c (MAX_CONTROL_MESSAGE_BYTES + 1) [] in
  Ret (match r with
       | Err e => Err (ControlIo e)
       | Ok bytes =>
           if len bytes >? MAX_CONTROL_MESSAGE_BYTES
           then Err (MessageTooLarge MAX_CONTROL_MESSAGE_BYTES) else Ok bytes
       end, c).

(** [reader.take(limit).read_until(b'\n')], byte by byte; the buffer of the reader
    is left out. *)
Fixpoint read_until (fuel : nat) (c : C) (limit : Z) (bytes : list byte) : exec (io_result (list byte) * C) :=
  match fuel with
  | O => Panic
  | S fuel =>
      if limit <=? 0 then Ret (Ok bytes, c)
      else
        match read c 1 with
        | (Err e, c) => Ret (Err e, c)
        | (Ok [], c) => Ret (Ok bytes, c)
        | (Ok chunk, c) =>
            if bool_decide (chunk = [newline]) then Ret (Ok (bytes ++ chunk), c)
            else read_until fuel c (limit - len chunk) (bytes ++ chunk)
        end
  end.

Definition read_bounded_control_line (c : C) : exec (result (option (list byte)) SupervisorControlIoError * C) :=
  let! (r, c) := read_until (Z.to_nat (MAX_CONTROL_MESSAGE_BYTES + 2)) c (MAX_CONTROL_MESSAGE_BYTES + 1) [] in
  Ret (match r with
       | Err e => Err (ControlIo e)
       | Ok [] => Ok None
       | Ok bytes =>
           if len bytes >? MAX_CONTROL_MESSAGE_BYTES
           then Err (MessageTooLarge MAX_CONTROL_MESSAGE_BYTES) else Ok (Some bytes)
       end, c).

(** ** The server's side of a connection *)

(** A connection ends, or becomes a subscription. *)
Inductive connection := Ended (r : result unit SupervisorControlIoError) (c : C) | Streaming (c : C).

Definition finish (r : result unit SupervisorControlIoError * C) : connection :=
  match r with
  | (Err e, c) => Ended (Err e) c
  | (Ok _, c) => let '(r, c) := shutdown_stream c in Ended (map_err ControlIo r) c
  end.

(** [handle_control_connection]; [s] is the supervisor when the request has been
    read. *)
Definition handle_control_connection (c : C) (s : LaunchSupervisor) : exec (connection * LaunchSupervisor) :=
  let! (r, c) := read_bounded_control_message c in
  let request := match r with
                 | Err e => Err e
                 | Ok bytes => map_err Protocol (decode_control_request bytes)
                 end in
  Ret match request with
      | Ok SubscribeStatus => (Streaming c, s)
      | Ok request =>
          let '(response, s) := apply_control_request s request in
          (finish (write_control_message c (encode_response response)), s)
      | Err error =>
          (finish (write_control_message c (encode_response (ErrorResponse (control_error_to_string error)))), s)
      end.

(** ** The client's side *)

(** [control_client_request] on a connected stream. *)
Definition control_client_request (c : C) (request : SupervisorControlRequest)
  : exec (result SupervisorControlResponse SupervisorControlIoError * C) :=
  match write_control_message c (encode_request request) with
  | (Err e, c) => Ret (Err e, c)
  | (Ok _, c) =>
      match shutdown_stream c with
      | (Err e, c) => Ret (Err (ControlIo e), c)
      | (Ok _, c) =>
          let! (r, c) := read_bounded_control_message c in
          Ret (match r with
               | Err e => Err e
               | Ok bytes => map_err Protocol (decode_control_response bytes)
               end, c)
      end
  end.

(** What [status_snapshot] and [request_shutdown] make of the answer. *)
Definition snapshot_of (r : SupervisorControlResponse) : result SupervisorControlSnapshot SupervisorControlIoError :=
  match r with
  | SnapshotResponse snapshot => Ok snapshot
  | ErrorResponse message => Err (RemoteError message)
  | response => Err (UnexpectedResponse response)
  end.

Definition ack_of (r : SupervisorControlResponse) : result unit SupervisorControlIoError :=
  match r with
  | Ack => Ok tt
  | ErrorResponse message => Err (RemoteError message)
  | response => Err (UnexpectedResponse response)
  end.

(** [SupervisorStatusSubscription::next_snapshot]. *)
Definition next_snapshot (c : C)
  : exec (result (option SupervisorControlSnapshot) SupervisorControlIoError * C) :=
  let! (r, c) := read_bounded_control_line c in
  Ret (match r with
       | Err e => Err e
       | Ok None => Ok None
       | Ok (Some bytes) =>
           match decode_control_response bytes with
           | Err e => Err (Protocol e)
           | Ok response => let? snapshot := snapshot_of response in Ok (Some snapshot)
           end
       end, c).

End Streams.
End Control.
(** ** Subscriptions *)

Section Subscription.
Context `{Ipv4NetOps} `{Watches} `{Channels}.

(** What the rest of the program does to the supervisor. *)
Inductive supervisor_step : LaunchSupervisor -> LaunchSupervisor -> Prop :=
| su_status s name st s' :
    name ∈ task_controllers s -> set_status name st s = (Ok tt, s') -> supervisor_step s s'
| su_shutdown s reason : supervisor_step s (request_shutdown reason s).

(** A task of [subscribe_status_changes]: the version its receiver has seen, and
    whether it has a change to report. There is one for each task of the
    supervisor, and the last one is for the shutdown. *)
Record watcher := mkWatcher { w_seen : Z; w_sending : bool }.

Definition versions (s : LaunchSupervisor) : list Z :=
  map (fun t => version (status t)) (tasks s) ++ [version (shutdown s)].

(** [stream_status_subscription]: it writes the first snapshot, then subscribes and
    waits for changes; [First] and [Writing] hold the snapshot being written. *)
Inductive stream_phase :=
| First (snapshot : SupervisorControlSnapshot)
| Waiting
| Writing (snapshot : SupervisorControlSnapshot)
| StreamEnded (r : result unit SupervisorControlIoError).

(** [sb_shown] are the snapshots that were written. *)
Record subscription := mkSubscription {
  sb_supervisor : LaunchSupervisor;
  sb_watchers : list watcher;
  sb_changes : channel unit;
  sb_phase : stream_phase;
  sb_shown : list SupervisorControlSnapshot
}.

Definition subscription_start (s : LaunchSupervisor) : subscription :=
  mkSubscription s [] (channel_new 16) (First (from_supervisor s)) [].

(** The receivers are clones of the supervisor's, which have seen only the versions
    the channels were made with. *)
Definition subscribe_status_changes (s : LaunchSupervisor) : list watcher :=
  map (fun v => mkWatcher v false) (versions (supervisor_new (sv_plan s))).

Inductive stream_step : subscription -> subscription -> Prop :=
| ss_subscribed b snapshot :
    sb_phase b = First snapshot ->
    stream_step b (mkSubscription (sb_supervisor b) (subscribe_status_changes (sb_supervisor b)) (channel_new 16)
      Waiting (sb_shown b ++ [snapshot]))
| ss_changed b i w v :
    sb_watchers b !! i = Some w -> w_sending w = false -> versions (sb_supervisor b) !! i = Some v -> w_seen w < v ->
    stream_step b (mkSubscription (sb_supervisor b) (<[i := mkWatcher v true]> (sb_watchers b)) (sb_changes b)
      (sb_phase b) (sb_shown b))
| ss_notified b i w c :
    sb_watchers b !! i = Some w -> w_sending w = true -> try_send (sb_changes b) tt = (Ok tt, c) ->
    stream_step b (mkSubscription (sb_supervisor b) (<[i := mkWatcher (w_seen w) false]> (sb_watchers b)) c
      (sb_phase b) (sb_shown b))
| ss_woken b c :
    sb_phase b = Waiting -> recv (sb_changes b) = Some (Some tt, c) ->
    stream_step b (mkSubscription (sb_supervisor b) (sb_watchers b) c (Writing (from_supervisor (sb_supervisor b)))
      (sb_shown b))
| ss_written b snapshot :
    sb_phase b = Writing snapshot ->
    stream_step b
      (if shutdown_requested (sb_supervisor b)
       then mkSubscription (sb_supervisor b) (sb_watchers b) (drop_receiver (sb_changes b)) (StreamEnded (Ok tt))
              (sb_shown b ++ [snapshot])
       else mkSubscription (sb_supervisor b) (sb_watchers b) (sb_changes b) Waiting (sb_shown b ++ [snapshot]))
| ss_write_failed b snapshot e :
    sb_phase b = First snapshot \/ sb_phase b = Writing snapshot ->
    stream_step b (mkSubscription (sb_supervisor b) (sb_watchers b) (drop_receiver (sb_changes b)) (StreamEnded (Err e))
      (sb_shown b)).

(** The subscription while the supervisor changes. *)
Inductive subscription_step : subscription -> subscription -> Prop :=
| sub_supervisor b s' :
    supervisor_step (sb_supervisor b) s' ->
    subscription_step b (mkSubscription s' (sb_watchers b) (sb_changes b) (sb_phase b) (sb_shown b))
| sub_stream b b' : stream_step b b' -> subscription_step b b'.

End Subscription.

(** * Facts *)

(** A stream whose peer has sent the bytes [incoming] and closed; reading and
    writing are independent. *)
Class ConversationLaws (C : Type) `{Read C} `{Write C} (shutdown_stream : C -> io_result unit * C)
  (incoming sent : C -> list byte) := {
  conv_write :: WriteLaws C sent;
  conv_read c n : 0 < n -> incoming c <> [] ->
    exists bs c', read c n = (Ok bs, c') /\ bs <> [] /\ len bs <= n /\ incoming c = bs ++ incoming c' /\
      sent c' = sent c;
  conv_end c n : 0 < n -> incoming c = [] ->
    exists c', read c n = (Ok [], c') /\ incoming c' = [] /\ sent c' = sent c;
  conv_write_all c bs r c' : RustIo.write_all c bs = (r, c') -> incoming c' = incoming c;
  conv_shutdown c r c' : shutdown_stream c = (r, c') -> incoming c' = incoming c /\ sent c' = sent c
}.

Section Conversation.
Context `{Ipv4NetOps} `{Watches} `{ControlJson} `{!ControlJsonLaws}.
Context (io_text : io_error -> string) (debug : SupervisorControlResponse -> string).
Context {C : Type} `{Read C} `{Write C} (shutdown_stream : C -> io_result unit * C).
Context (incoming sent : C -> list byte) `{!ConversationLaws C shutdown_stream incoming sent}.

Lemma read_to_end_ok fuel c limit bytes :
  0 <= limit -> Z.of_nat fuel > limit ->
  exists c', read_to_end fuel c limit bytes = Ret (Ok (bytes ++ ztake limit (incoming c)), c') /\ sent c' = sent c.
Proof.
  revert c limit bytes. induction fuel as [|fuel IH]; intros c limit bytes Hl Hf; [lia|]. cbn [read_to_end].
  case_test.
  { exists c. assert (limit = 0) as -> by lia. by rewrite app_nil_r. }
  destruct (decide (incoming c = [])) as [E|Hne].
  - destruct (conv_end c limit) as (c' & -> & _ & Hs); [lia|done|]. exists c'. rewrite E. unfold ztake. by rewrite take_nil, app_nil_r.
  - destruct (conv_read c limit) as (bs & c' & -> & Hb & Hn & Ei & Hs); [lia|done|].
    destruct bs as [|b bs]; [done|]. pose proof (len_cons b bs). pose proof (len_nonneg bs).
    destruct (IH c' (limit - len (b :: bs)) (bytes ++ b :: bs)) as (c2 & -> & Hs2); [lia|lia|].
    exists c2. split; [|congruence]. rewrite Ei, ztake_app_ge by lia. by rewrite <- app_assoc.
Qed.

Lemma read_bounded_ok c :
  exists c', sent c' = sent c /\
    read_bounded_control_message c =
    Ret (if len (incoming c) >? MAX_CONTROL_MESSAGE_BYTES then Err (MessageTooLarge MAX_CONTROL_MESSAGE_BYTES)
         else Ok (incoming c), c').
Proof.
  unfold read_bounded_control_message.
  destruct (read_to_end_ok (Z.to_nat (MAX_CONTROL_MESSAGE_BYTES + 2)) c (MAX_CONTROL_MESSAGE_BYTES + 1) [])
    as (c' & -> & Hs); [done|unfold MAX_CONTROL_MESSAGE_BYTES; lia|].
  exists c'. split; [done|]. cbn [exec_bind app]. do 2 f_equal.
  destruct (len (incoming c) >? MAX_CONTROL_MESSAGE_BYTES) eqn:E.
  - rewrite len_ztake by done. b2p. by rewrite (proj2 (Z.gtb_lt _ _)) by lia.
  - rewrite ztake_all by (b2p; lia). by rewrite E.
Qed.

Lemma write_all_incoming c bs r c' : RustIo.write_all c bs = (r, c') -> incoming c' = incoming c.
Proof. apply (conv_write_all (sent := sent) (shutdown_stream := shutdown_stream)). Qed.

Lemma shutdown_both c r c' : shutdown_stream c = (r, c') -> incoming c' = incoming c /\ sent c' = sent c.
Proof. apply conv_shutdown. Qed.

Lemma write_message_ok c bs c' :
  write_control_message c (Ok bs) = (Ok tt, c') ->
  sent c' = sent c ++ bs ++ [newline] /\ incoming c' = incoming c.
Proof.
  unfold write_control_message. destruct (RustIo.write_all c bs) as [[[]|] c1] eqn:E1; [|done].
  destruct (RustIo.write_all c1 [newline]) as [[[]|] c2] eqn:E2; [|done]. intros [= <-].
  rewrite (write_all_ok _ _ _ E2), (write_all_ok _ _ _ E1), (write_all_incoming _ _ _ _ E2), (write_all_incoming _ _ _ _ E1).
  by rewrite <- app_assoc.
Qed.

Lemma finish_ok r c' :
  finish shutdown_stream r = Ended (Ok tt) c' -> exists c1, r = (Ok tt, c1) /\ sent c' = sent c1.
Proof.
  destruct r as [[[]|e] c1]; cbn; [|done]. destruct (shutdown_stream c1) as [[[]|e] c2] eqn:E; [|done].
  intros [= <-]. exists c1. split; [done|]. by apply shutdown_both in E as [_ ?].
Qed.

Lemma decode_request_encoded r bs :
  encode_request r = Ok bs -> decode_control_request (bs ++ [newline]) = Ok r.
Proof. intros E. unfold decode_control_request. by rewrite (request_decodes _ _ E). Qed.

Lemma decode_response_encoded r bs :
  encode_response r = Ok bs -> decode_control_response (bs ++ [newline]) = Ok r.
Proof. intros E. unfold decode_control_response. by rewrite (response_decodes _ _ E). Qed.

Definition answered (s : LaunchSupervisor) (r : SupervisorControlRequest) : SupervisorControlResponse :=
  (apply_control_request s r).1.

(** The control socket serves every input. Whatever a client sends,
    the connection is answered or becomes a subscription, without a panic and
    with at most one byte read beyond the limit; and the supervisor is changed
    only by a request for shutdown of the supported version, within the limit. *)
Theorem control_connection_total c s :
  exists k s', handle_control_connection io_text debug shutdown_stream c s = Ret (k, s') /\
    (s' = s \/ exists reason, len (incoming c) <= MAX_CONTROL_MESSAGE_BYTES /\
       request_from_slice (incoming c) = Ok (CONTROL_PROTOCOL_VERSION, RequestShutdown reason) /\
       s' = request_shutdown reason s).
Proof.
  unfold handle_control_connection. destruct (read_bounded_ok c) as (c' & _ & ->). cbn [exec_bind].
  destruct (len (incoming c) >? MAX_CONTROL_MESSAGE_BYTES) eqn:El; [eexists _, s; eauto|].
  unfold decode_control_request, decode_control_envelope.
  destruct (request_from_slice (incoming c)) as [[v [| |reason]]|e] eqn:Er; [..|eexists _, s; eauto];
    (destruct (v =? CONTROL_PROTOCOL_VERSION) eqn:Ev; cbn [negb map_err]; [|eexists _, s; eauto]).
  1,2: eexists _, s; eauto.
  eexists _, _. split; [done|]. right. exists reason. b2p. subst v. split_and!; [lia|done|done].
Qed.

(** C25 (roundtrip). A request and its answer go through the socket unchanged: when
    the server has read what the client wrote, and the client reads what the server
    wrote, both within the limit, then the request the client made is the one
    that was applied to the supervisor, and the answer the client returns is the
    answer to it. *)
Theorem control_request_roundtrip request s bs server server' s' client c1 c2 :
  request <> SubscribeStatus -> encode_request request = Ok bs ->
  write_control_message client (encode_request request) = (Ok tt, c1) -> shutdown_stream c1 = (Ok tt, c2) ->
  sent client ++ incoming server = sent c2 -> len (incoming server) <= MAX_CONTROL_MESSAGE_BYTES ->
  handle_control_connection io_text debug shutdown_stream server s = Ret (Ended (Ok tt) server', s') ->
  sent server ++ incoming client = sent server' -> len (incoming client) <= MAX_CONTROL_MESSAGE_BYTES ->
  s' = (apply_control_request s request).2 /\
  exists client', control_client_request shutdown_stream client request = Ret (Ok (answered s request), client').
Proof.
  intros Hr Hb Hw Hsd Hin Hlen Hserve Hback Hlen'.
  pose proof Hw as Hw1. rewrite Hb in Hw1. apply write_message_ok in Hw1 as [Hs1 Hi1].
  destruct (shutdown_both _ _ _ Hsd) as [Hi2 Hs2].
  assert (incoming server = bs ++ [newline]) as Ein by (rewrite Hs2, Hs1 in Hin; by apply app_inv_head in Hin).
  unfold handle_control_connection in Hserve. destruct (read_bounded_ok server) as (sv1 & Hsv & Er). rewrite Er in Hserve.
  cbn [exec_bind] in Hserve. replace (len (incoming server) >? MAX_CONTROL_MESSAGE_BYTES) with false in Hserve by (symmetry; b2p; lia).
  rewrite Ein, (decode_request_encoded request bs Hb) in Hserve. cbn [map_err] in Hserve.
  unfold answered. destruct (apply_control_request s request) as [response sv] eqn:Ea.
  assert (finish shutdown_stream (write_control_message sv1 (encode_response response)) = Ended (Ok tt) server' /\ s' = sv)
    as [Hf ->] by (destruct request; [|done|]; by injection Hserve as -> ->).
  split; [done|]. apply finish_ok in Hf as (sv2 & Hw2 & Hs').
  destruct (encode_response response) as [rbs|e] eqn:Eresp; [|done]. apply write_message_ok in Hw2 as [Hs3 _].
  assert (incoming client = rbs ++ [newline]) as Ecl.
  { rewrite Hs', Hs3, Hsv in Hback. by apply app_inv_head in Hback. }
  unfold control_client_request. rewrite Hw, Hsd. destruct (read_bounded_ok c2) as (c3 & _ & ->).
  rewrite Hi2, Hi1. replace (len (incoming client) >? MAX_CONTROL_MESSAGE_BYTES) with false by (symmetry; b2p; lia).
  cbn [exec_bind]. rewrite Ecl, (decode_response_encoded response rbs Eresp). by eexists.
Qed.

End Conversation.
(** ** Statuses *)

Section Statuses.
Context `{Ipv4NetOps} `{Watches} `{!WatchLaws}.

(** Each task has one channel, and the supervisor keeps a receiver of each. *)
Record sup_ok (s : LaunchSupervisor) : Prop := {
  so_names : NoDup (task_controllers s);
  so_tasks : Forall (fun t => watched (status t) = true) (tasks s);
  so_shutdown : watched (shutdown s) = true
}.

Lemma specs_distinct plan : NoDup (map sp_name (task_specs_from_plan plan)).
Proof. unfold task_specs_from_plan. destruct (plan_docker_proxy plan); cbn; repeat constructor; set_solver. Qed.

Lemma new_tasks_names specs :
  map (fun t => sp_name (spec t)) (map (fun spec => mkTask spec (watch_new Planned)) specs) = map sp_name specs.
Proof. rewrite map_map. done. Qed.

Lemma supervisor_new_ok plan : sup_ok (supervisor_new plan).
Proof.
  split.
  - unfold task_controllers, supervisor_new. cbn [tasks]. rewrite new_tasks_names. apply specs_distinct.
  - apply Forall_map, Forall_true. intros sp. apply watch_new_spec.
  - apply watch_new_spec.
Qed.

(** A channel is the same, or has a newer version. *)
Definition newer {V} (w w' : watch V) : Prop := w' = w \/ version w < version w'.

Definition task_newer (t t' : SupervisorTaskState) : Prop := spec t' = spec t /\ newer (status t) (status t').

(** The changes of a supervisor. *)
Record advances (s s' : LaunchSupervisor) : Prop := {
  adv_plan : sv_plan s' = sv_plan s;
  adv_tasks : Forall2 task_newer (tasks s) (tasks s');
  adv_shutdown : newer (shutdown s) (shutdown s')
}.

Lemma newer_refl {V} (w : watch V) : newer w w.
Proof. by left. Qed.

Lemma newer_trans {V} (a b c : watch V) : newer a b -> newer b c -> newer a c.
Proof. intros [->|?] [->|?]; [by left|by right|by right|right; lia]. Qed.

#[global] Instance task_newer_preorder : PreOrder task_newer.
Proof.
  split.
  - intros t. split; [done|apply newer_refl].
  - intros x y z [E1 N1] [E2 N2]. split; [congruence|by eapply newer_trans].
Qed.

Lemma advances_refl s : advances s s.
Proof.
  split; [done|done|apply newer_refl].
Qed.

Lemma advances_trans a b c : advances a b -> advances b c -> advances a c.
Proof.
  intros [P1 T1 S1] [P2 T2 S2]. split; [congruence| |by eapply newer_trans].
  by etrans.
Qed.

(** The result of setting a status, in the list of all. *)
Definition with_status (name : SupervisorTaskName) (st : SupervisorTaskStatus) (r : SupervisorTaskResult)
  : SupervisorTaskResult :=
  if bool_decide (tr_name r = name) then mkTaskResult name st else r.

Lemma with_status_other name st ts :
  name ∉ map (fun t => sp_name (spec t)) ts -> map (with_status name st) (map task_result ts) = map task_result ts.
Proof.
  induction ts as [|t ts IH]; [done|]. cbn. intros [Hn Hr]%not_elem_of_cons. rewrite IH by done. f_equal.
  unfold with_status. cbn. by rewrite bool_decide_false.
Qed.

Lemma send_status_ok name st ts :
  NoDup (map (fun t => sp_name (spec t)) ts) -> Forall (fun t => watched (status t) = true) ts ->
  name ∈ map (fun t => sp_name (spec t)) ts ->
  exists ts', send_status name st ts = (Ok tt, ts') /\ map task_result ts' = map (with_status name st) (map task_result ts) /\
    Forall2 task_newer ts ts' /\ Forall (fun t => watched (status t) = true) ts'.
Proof.
  intros Hn Hw Hin. induction ts as [|t ts IH]; [by apply elem_of_nil in Hin|]. cbn [send_status map] in *.
  apply NoDup_cons in Hn as [Hni Hn]. apply Forall_cons in Hw as [Hwt Hw]. unfold named at 1.
  destruct (decide (sp_name (spec t) = name)) as [E|Hne].
  - rewrite bool_decide_true by done. destruct (send_ok (status t) st Hwt) as (w' & -> & Hb & Hv & Hw').
    eexists. split; [done|]. cbn [map]. rewrite with_status_other by congruence. split_and!.
    + f_equal. unfold with_status, task_result. cbn. rewrite bool_decide_true by done. by rewrite Hb, E.
    + constructor; [by split; [|right]|done].
    + by constructor.
  - rewrite bool_decide_false by done. apply elem_of_cons in Hin as [Hin|Hin]; [congruence|].
    destruct (IH Hn Hw Hin) as (ts' & -> & Hr & Hnew & Hw'). eexists. split; [done|]. cbn [map]. rewrite Hr. split_and!.
    + f_equal. unfold with_status. cbn. by rewrite bool_decide_false.
    + by constructor.
    + by constructor.
Qed.

Lemma set_status_ok name st s :
  sup_ok s -> name ∈ task_controllers s ->
  exists s', set_status name st s = (Ok tt, s') /\ sup_ok s' /\ advances s s' /\
    task_statuses s' = map (with_status name st) (task_statuses s) /\ shutdown s' = shutdown s /\
    task_controllers s' = task_controllers s.
Proof.
  intros [Hn Ht Hs] Hin. unfold set_status. destruct (send_status_ok name st (tasks s) Hn Ht Hin) as (ts' & -> & Hr & Hnew & Hw).
  eexists. split; [done|].
  assert (map (fun t => sp_name (spec t)) ts' = map (fun t => sp_name (spec t)) (tasks s)) as Hnames.
  { clear -Hnew. induction Hnew as [|t t' ts ts' [E _] _ IH]; [done|]. cbn. by rewrite E, IH. }
  unfold task_controllers in *. split_and!; [|split; [done|done|apply newer_refl]|done|done|done].
  split; cbn; [by rewrite Hnames|done|done].
Qed.

Lemma request_shutdown_ok reason s :
  sup_ok s -> sup_ok (request_shutdown reason s) /\ advances s (request_shutdown reason s) /\
    current_shutdown (request_shutdown reason s) = Requested reason /\
    task_statuses (request_shutdown reason s) = task_statuses s.
Proof.
  intros [Hn Ht Hs]. unfold request_shutdown, current_shutdown.
  destruct (send_ok (shutdown s) (Requested reason) Hs) as (w & -> & Hb & Hv & Hw). cbn.
  split_and!; [by split| |done|done]. destruct (advances_refl s) as [? HT _]. split; [done|done|by right].
Qed.

Lemma results_names s : map tr_name (task_statuses s) = task_controllers s.
Proof. unfold task_statuses, task_controllers. by rewrite map_map. Qed.

Lemma task_status_elem s name :
  sup_ok s -> name ∈ task_controllers s ->
  exists st, task_status s name = Some st /\ forall r, r ∈ task_statuses s -> tr_name r = name -> r = mkTaskResult name st.
Proof.
  intros [Hn _ _] Hin. unfold task_status, task_statuses, task_controllers in *.
  induction (tasks s) as [|t ts IH]; [by apply elem_of_nil in Hin|]. cbn in Hn, Hin. apply NoDup_cons in Hn as [Hni Hn].
  destruct (decide (sp_name (spec t) = name)) as [E|Hne].
  - exists (borrow (status t)). cbn. rewrite decide_True by done. split; [done|].
    intros r [->|Hr]%elem_of_cons Hrn; [by unfold task_result; rewrite E|].
    exfalso. apply Hni. rewrite E, <- Hrn. apply list_elem_of_fmap in Hr as (t' & -> & Ht'). by apply (list_elem_of_fmap_2 (fun t => sp_name (spec t))).
  - apply elem_of_cons in Hin as [Hin|Hin]; [congruence|]. destruct (IH Hn Hin) as (st & Hst & Hall). exists st.
    cbn. rewrite decide_False by done. destruct (list_find (named name) ts) as [[i t']|]; [|done]. split; [exact Hst|].
    intros r [->|Hr]%elem_of_cons Hrn; [done|by apply Hall].
Qed.

(** A task that has not ended is cancelled. *)
Definition cancel (reason : string) (r : SupervisorTaskResult) : SupervisorTaskResult :=
  if is_terminal (tr_status r) then r else mkTaskResult (tr_name r) (Cancelled reason).

Definition cancel_in (reason : string) (names : list SupervisorTaskName) (r : SupervisorTaskResult)
  : SupervisorTaskResult :=
  if bool_decide (tr_name r ∈ names) then cancel reason r else r.

Lemma cancel_in_cons reason name names st r :
  name ∉ names -> (tr_name r = name -> r = mkTaskResult name st) ->
  cancel_in reason (name :: names) r =
  cancel_in reason names (if is_terminal st then r else with_status name (Cancelled reason) r).
Proof.
  intros Hn Hr. unfold cancel_in, with_status, cancel. destruct (decide (tr_name r = name)) as [E|Hne].
  - rewrite (Hr E). cbn. rewrite (bool_decide_true (name ∈ name :: names)) by set_solver.
    destruct (is_terminal st); cbn; rewrite ?(bool_decide_true (name = name)) by done; cbn;
      by rewrite bool_decide_false.
  - rewrite (bool_decide_false (tr_name r = name)) by done.
    replace (if is_terminal st then r else r) with r by (by destruct (is_terminal st)).
    by rewrite (bool_decide_ext (tr_name r ∈ name :: names) (tr_name r ∈ names)) by set_solver.
Qed.

Lemma cancel_running_ok reason names s :
  sup_ok s -> NoDup names -> names ⊆ task_controllers s ->
  exists s', cancel_running reason names s = (Ok tt, s') /\ sup_ok s' /\
    task_statuses s' = map (cancel_in reason names) (task_statuses s).
Proof.
  revert s. induction names as [|name names IH]; intros s Hok Hn Hsub; cbn [cancel_running].
  { exists s. split_and!; [done|done|]. symmetry. apply map_id. }
  apply NoDup_cons in Hn as [Hni Hn].
  destruct (task_status_elem s name Hok) as (st & Est & Hall); [set_solver|]. rewrite Est. change (default Planned (Some st)) with st.
  assert (map (cancel_in reason (name :: names)) (task_statuses s) =
    map (cancel_in reason names) (map (fun r => if is_terminal st then r else with_status name (Cancelled reason) r)
      (task_statuses s))) as ->.
  { rewrite map_map. apply map_ext_in. intros r Hr%list_elem_of_In. apply cancel_in_cons; [done|]. by apply Hall. }
  destruct (is_terminal st).
  - destruct (IH s) as (s' & -> & Hok' & Hs'); [done|done|set_solver|]. exists s'.
    split_and!; [done|done|]. rewrite Hs'. f_equal. symmetry. apply map_id.
  - unfold mark_cancelled. destruct (set_status_ok name (Cancelled reason) s Hok) as (s1 & -> & Hok1 & _ & Hs1 & _ & Hc1);
      [set_solver|].
    destruct (IH s1) as (s' & -> & Hok' & Hs'); [done|done|rewrite Hc1; set_solver|]. exists s'.
    split_and!; [done|done|]. by rewrite Hs', Hs1.
Qed.

(** When the shutdown is requested the tasks that have not ended are cancelled, for
    the reason of the request, and the others keep how they ended. *)
Theorem run_until_shutdown_spec s :
  sup_ok s ->
  match current_shutdown s with
  | Running => run_until_shutdown s = None
  | Requested reason =>
      exists s', run_until_shutdown s = Some (Ok (mkRunSummary (Requested reason) (task_statuses s')), s') /\
        task_statuses s' = map (cancel reason) (task_statuses s)
  end.
Proof.
  intros Hok. unfold run_until_shutdown, wait_for_shutdown, shutdown_requested.
  destruct (current_shutdown s) as [|reason] eqn:E; [done|]. cbn.
  destruct (cancel_running_ok reason (task_controllers s) s Hok) as (s' & -> & _ & Hs'); [apply Hok|done|].
  exists s'. split; [done|]. rewrite Hs'. apply map_ext_in. intros r Hr%list_elem_of_In. unfold cancel_in.
  rewrite bool_decide_true; [done|]. rewrite <- results_names. by apply list_elem_of_fmap_2.
Qed.

End Statuses.
(** ** Subscriptions *)

Section SubscriptionFacts.
Context `{Ipv4NetOps} `{Watches} `{!WatchLaws} `{Channels} `{!ChannelLaws}.

Lemma supervisor_step_ok s s' : supervisor_step s s' -> sup_ok s -> sup_ok s' /\ advances s s'.
Proof.
  intros [s1 name st s2 Hin E|s1 reason] Hok.
  - destruct (set_status_ok name st s1 Hok Hin) as (s3 & E3 & ? & ? & _). rewrite E3 in E. by injection E as <-.
  - destruct (request_shutdown_ok reason s1 Hok) as (? & ? & _). done.
Qed.

Lemma supervisor_steps_ok s s' : rtc supervisor_step s s' -> sup_ok s -> sup_ok s' /\ advances s s'.
Proof.
  induction 1 as [s|s1 s2 s3 Hs _ IH]; intros Hok; [split; [done|apply advances_refl]|].
  destruct (supervisor_step_ok _ _ Hs Hok) as [Hok2 Ha]. destruct (IH Hok2). split; [done|by eapply advances_trans].
Qed.

(** A requested shutdown stays requested. *)
Lemma supervisor_step_requested s s' :
  supervisor_step s s' -> sup_ok s -> shutdown_requested s = true -> shutdown_requested s' = true.
Proof.
  unfold shutdown_requested, current_shutdown. intros [s1 name st s2 Hin E|s1 reason] Hok.
  - destruct (set_status_ok name st s1 Hok Hin) as (s3 & E3 & _ & _ & _ & Hs & _). rewrite E3 in E. injection E as <-. by rewrite Hs.
  - destruct (request_shutdown_ok reason s1 Hok) as (_ & _ & Hc & _). unfold current_shutdown in Hc. by rewrite Hc.
Qed.

Lemma supervisor_steps_requested s s' :
  rtc supervisor_step s s' -> sup_ok s -> shutdown_requested s = true -> shutdown_requested s' = true.
Proof.
  induction 1 as [s|s1 s2 s3 Hs _ IH]; intros Hok Hr; [done|].
  apply IH; [by apply (supervisor_step_ok _ _ Hs Hok)|by eapply supervisor_step_requested].
Qed.

Lemma newer_version {V} (w w' : watch V) : newer w w' -> version w <= version w' /\ (version w' <= version w -> w' = w).
Proof. intros [->|?]; split; [lia|done|lia|lia]. Qed.

Lemma advances_versions s s' : advances s s' -> Forall2 Z.le (versions s) (versions s').
Proof.
  intros [_ Ht Hs]. unfold versions. apply Forall2_app; [|constructor; [by apply newer_version|constructor]].
  induction Ht as [|t t' ts ts' [_ Hn] _ IH]; constructor; [by apply newer_version|done].
Qed.

Lemma advances_same s s' : advances s s' -> Forall2 Z.le (versions s') (versions s) -> s' = s.
Proof.
  intros [Hp Ht Hs] Hv. unfold versions in Hv. destruct s as [p ts sd], s' as [p' ts' sd']. cbn in *. subst p'.
  apply Forall2_app_inv in Hv as [Hvt Hvs]; [|by rewrite !length_map; symmetry; eapply Forall2_length].
  f_equal.
  - clear -Ht Hvt. induction Ht as [|t t' ts ts' [Esp Hn] _ IH]; [done|]. cbn in Hvt. apply Forall2_cons in Hvt as [Hv Hvt].
    f_equal; [|by apply IH]. destruct t as [sp w], t' as [sp' w']. cbn in *. subst. f_equal. by apply (newer_version w w' Hn).
  - inversion Hvs; subst. by apply (newer_version _ _ Hs).
Qed.

(** Nobody has a change to report. *)
Definition silent (b : subscription) : Prop :=
  queued (sb_changes b) = [] /\ Forall (fun w => w_sending w = false) (sb_watchers b).

Definition seen_at (ws : list watcher) (s : LaunchSupervisor) : Prop :=
  Forall2 (fun w v => w_seen w <= v) ws (versions s).

(** The shutdown is newer than what its watcher has seen. *)
Definition shutdown_unseen (ws : list watcher) (s : LaunchSupervisor) : Prop :=
  exists w, last ws = Some w /\ w_seen w < version (shutdown s).

(** [at_]: the supervisor as the last snapshot shows it. *)
Record stream_ok (b : subscription) (at_ : LaunchSupervisor) : Prop := {
  st_at : rtc supervisor_step at_ (sb_supervisor b);
  st_at_ok : sup_ok at_;
  st_channel : receiver_dropped (sb_changes b) = false /\ ch_capacity (sb_changes b) = 16;
  st_seen : seen_at (sb_watchers b) (sb_supervisor b);
  st_shown : silent b -> seen_at (sb_watchers b) at_;
  st_phase : match sb_phase b with
             | Waiting => last (sb_shown b) = Some (from_supervisor at_) /\
                 (silent b -> shutdown_requested at_ = true -> shutdown_unseen (sb_watchers b) at_)
             | Writing snapshot => snapshot = from_supervisor at_
             | _ => False
             end
}.

Definition subscription_ok (plan : SupervisorPlan) (b : subscription) : Prop :=
  rtc supervisor_step (supervisor_new plan) (sb_supervisor b) /\
  match sb_phase b with
  | First snapshot => exists at_, rtc supervisor_step (supervisor_new plan) at_ /\
      rtc supervisor_step at_ (sb_supervisor b) /\ snapshot = from_supervisor at_
  | StreamEnded _ => True
  | _ => exists at_, stream_ok b at_
  end.

Lemma seen_at_advances ws s s' : advances s s' -> seen_at ws s -> seen_at ws s'.
Proof.
  intros Ha%advances_versions Hs. unfold seen_at in *. revert ws Hs.
  induction Ha as [|v v' vs vs' Hv _ IH]; intros ws Hs; inversion Hs; subst; constructor; [lia|auto].
Qed.

Lemma seen_at_insert ws s i w v :
  seen_at ws s -> versions s !! i = Some v -> w_seen w <= v -> seen_at (<[i := w]> ws) s.
Proof.
  intros Hs Hv Hw. unfold seen_at. apply Forall2_same_length_lookup.
  pose proof Hs as Hl%Forall2_length. split; [by rewrite length_insert|].
  intros j w' v' Hj Hj'. apply list_lookup_insert_Some in Hj as [(-> & <- & _)|(_ & Hj)].
  - rewrite Hv in Hj'. by injection Hj' as <-.
  - exact (Forall2_lookup_lr _ _ _ _ _ _ Hs Hj Hj').
Qed.

Lemma supervisor_change_ok b at_ s' :
  stream_ok b at_ -> supervisor_step (sb_supervisor b) s' -> sup_ok (sb_supervisor b) ->
  stream_ok (mkSubscription s' (sb_watchers b) (sb_changes b) (sb_phase b) (sb_shown b)) at_.
Proof.
  intros [Hat Hok Hc Hseen Hsh Hph] Hs Hb. split; cbn; [by eapply rtc_r|done|done| |done|done].
  eapply seen_at_advances; [by apply (supervisor_step_ok _ _ Hs Hb)|done].
Qed.

Lemma changed_ok b at_ i w v :
  stream_ok b at_ -> sb_watchers b !! i = Some w -> versions (sb_supervisor b) !! i = Some v ->
  stream_ok (mkSubscription (sb_supervisor b) (<[i := mkWatcher v true]> (sb_watchers b)) (sb_changes b)
    (sb_phase b) (sb_shown b)) at_.
Proof.
  intros [Hat Hok Hc Hseen Hsh Hph] Hi Hv.
  assert (~ silent (mkSubscription (sb_supervisor b) (<[i := mkWatcher v true]> (sb_watchers b)) (sb_changes b)
    (sb_phase b) (sb_shown b))) as Hno.
  { intros [_ Hf]. cbn in Hf. rewrite Forall_lookup in Hf.
    specialize (Hf i (mkWatcher v true)). rewrite list_lookup_insert_eq in Hf by (by eapply lookup_lt_Some). by specialize (Hf eq_refl). }
  split; cbn; [done|done|done|by eapply seen_at_insert|done|]. destruct (sb_phase b); try done.
  split; [by apply Hph|done].
Qed.

Lemma notified_ok b at_ i w c :
  stream_ok b at_ -> sb_watchers b !! i = Some w -> try_send (sb_changes b) tt = (Ok tt, c) ->
  stream_ok (mkSubscription (sb_supervisor b) (<[i := mkWatcher (w_seen w) false]> (sb_watchers b)) c
    (sb_phase b) (sb_shown b)) at_.
Proof.
  intros [Hat Hok [Hd Hcap] Hseen Hsh Hph] Hi Hsend.
  apply try_send_sent in Hsend as (Hq & (Hc & _ & Hr) & _).
  assert (~ silent (mkSubscription (sb_supervisor b) (<[i := mkWatcher (w_seen w) false]> (sb_watchers b)) c
    (sb_phase b) (sb_shown b))) as Hno.
  { intros [Hq' _]. cbn in Hq'. rewrite Hq in Hq'. by destruct (queued (sb_changes b)). }
  destruct (Forall2_lookup_l _ _ _ _ _ Hseen Hi) as (v & Hv & Hle).
  split; cbn; [done|done|by rewrite Hc, Hr|by eapply seen_at_insert|done|]. destruct (sb_phase b); try done.
  split; [by apply Hph|done].
Qed.

Lemma woken_ok b at_ c :
  stream_ok b at_ -> recv (sb_changes b) = Some (Some tt, c) -> sup_ok (sb_supervisor b) ->
  stream_ok (mkSubscription (sb_supervisor b) (sb_watchers b) c (Writing (from_supervisor (sb_supervisor b)))
    (sb_shown b)) (sb_supervisor b).
Proof.
  intros [Hat Hok [Hd Hcap] Hseen Hsh Hph] (Hq & Hc & _ & Hr)%recv_some Hb.
  by split; cbn; [..|rewrite Hc, Hr| | |].
Qed.

Lemma written_ok b at_ snapshot :
  stream_ok b at_ -> sb_phase b = Writing snapshot -> shutdown_requested (sb_supervisor b) = false ->
  stream_ok (mkSubscription (sb_supervisor b) (sb_watchers b) (sb_changes b) Waiting (sb_shown b ++ [snapshot])) at_.
Proof.
  intros [Hat Hok Hc Hseen Hsh Hph] Hp Hr. rewrite Hp in Hph. subst snapshot.
  split; cbn; [done..|]. split; [by rewrite last_snoc|]. intros _ Hreq.
  rewrite (supervisor_steps_requested _ _ Hat Hok Hreq) in Hr. done.
Qed.

Lemma shutdown_version plan s :
  rtc supervisor_step (supervisor_new plan) s -> shutdown_requested s = true ->
  version (shutdown (supervisor_new plan)) < version (shutdown s).
Proof.
  intros Hs Hr. destruct (supervisor_steps_ok _ _ Hs (supervisor_new_ok plan)) as [_ [_ _ [E|Hlt]]]; [|done].
  unfold shutdown_requested, current_shutdown in Hr. rewrite E in Hr. cbn in Hr.
  by rewrite (proj1 (watch_new_spec _)) in Hr.
Qed.

Lemma subscribe_last s :
  last (subscribe_status_changes s) = Some (mkWatcher (version (shutdown (supervisor_new (sv_plan s)))) false).
Proof.
  unfold subscribe_status_changes, versions. generalize (supervisor_new (sv_plan s)). intros s0.
  rewrite map_app. apply last_snoc.
Qed.

Lemma subscribed_ok plan s at_ c shown :
  rtc supervisor_step (supervisor_new plan) at_ -> rtc supervisor_step at_ s ->
  receiver_dropped c = false -> ch_capacity c = 16 ->
  stream_ok (mkSubscription s (subscribe_status_changes s) c Waiting (shown ++ [from_supervisor at_])) at_.
Proof.
  intros Hat Hs Hd Hc.
  destruct (supervisor_steps_ok _ _ Hat (supervisor_new_ok plan)) as [Hok Ha].
  destruct (supervisor_steps_ok _ _ Hs Hok) as [_ Ha'].
  assert (sv_plan s = plan) as Hp by (rewrite (adv_plan _ _ Ha'), (adv_plan _ _ Ha); done).
  assert (seen_at (subscribe_status_changes s) (supervisor_new plan)) as Hnew.
  { unfold subscribe_status_changes, seen_at. rewrite Hp. apply Forall2_fmap_l, Forall_Forall2_diag, Forall_true. cbn. lia. }
  split; cbn [sb_supervisor sb_watchers sb_changes sb_phase sb_shown]; [done|done|done| | |split; [by rewrite last_snoc|]].
  - by eapply seen_at_advances, seen_at_advances.
  - intros _. by eapply seen_at_advances.
  - intros _ Hr. eexists. split; [apply subscribe_last|]. rewrite Hp. by apply shutdown_version.
Qed.

Lemma subscription_step_ok plan b b' : subscription_step b b' -> subscription_ok plan b -> subscription_ok plan b'.
Proof.
  intros Hstep [Hsup Hph]. pose proof (proj1 (supervisor_steps_ok _ _ Hsup (supervisor_new_ok plan))) as Hok.
  destruct Hstep as [b s' Hs|b b' Hs].
  - split; [by eapply rtc_r|]. cbn. destruct (sb_phase b) eqn:Ep.
    + destruct Hph as (at_ & ? & ? & ?). exists at_. split_and!; [done|by eapply rtc_r|done].
    + destruct Hph as (at_ & Hst). exists at_. rewrite <- Ep. by apply supervisor_change_ok.
    + destruct Hph as (at_ & Hst). exists at_. rewrite <- Ep. by apply supervisor_change_ok.
    + done.
  - unfold subscription_ok. destruct Hs as [b snap Ep|b i w v Hi _ Hv _|b i w c Hi _ Hsend|b c Ep Hr|b snap Ep|b snap e Ep].
    + rewrite Ep in Hph. destruct Hph as (at_ & Hat & Hs & ->). split; [done|]. exists at_.
      destruct (channel_new_spec (A := unit) 16) as (_ & Hc & _ & Hd); [done|]. by eapply subscribed_ok.
    + split; [done|]. cbn. destruct (sb_phase b) eqn:Ep; [done|..|done];
        destruct Hph as (at_ & Hst); exists at_; rewrite <- Ep; by eapply changed_ok.
    + split; [done|]. cbn. destruct (sb_phase b) eqn:Ep; [done|..|done];
        destruct Hph as (at_ & Hst); exists at_; rewrite <- Ep; by eapply notified_ok.
    + rewrite Ep in Hph. destruct Hph as (at_ & Hst). split; [done|]. exists (sb_supervisor b). by eapply woken_ok.
    + rewrite Ep in Hph. destruct Hph as (at_ & Hst). destruct (shutdown_requested (sb_supervisor b)) eqn:Er; [done|].
      split; [done|]. exists at_. by eapply written_ok.
    + done.
Qed.

Lemma subscription_steps_ok plan b b' : rtc subscription_step b b' -> subscription_ok plan b -> subscription_ok plan b'.
Proof. induction 1; eauto using subscription_step_ok. Qed.

Lemma subscription_start_ok plan s :
  rtc supervisor_step (supervisor_new plan) s -> subscription_ok plan (subscription_start s).
Proof. intros Hs. split; [done|]. exists s. by split_and!. Qed.

Lemma unseen_version ws vs :
  Forall2 (fun w v => w_seen w <= v) ws vs -> ~ Forall2 (fun w v => v <= w_seen w) ws vs ->
  exists i w v, ws !! i = Some w /\ vs !! i = Some v /\ w_seen w < v.
Proof.
  induction 1 as [|w v ws vs Hle _ IH]; intros Hn; [destruct Hn; constructor|].
  destruct (decide (w_seen w < v)) as [Hlt|Hge]; [by exists O, w, v|].
  destruct IH as (i & w' & v' & ?); [|by exists (S i), w', v'].
  intros Hall. apply Hn. constructor; [lia|done].
Qed.

(** C24 (liveness). A subscriber misses nothing. However the changes of the
    supervisor, the tasks that watch for them and the writing of snapshots are
    interleaved, a subscription that waits can take a step, or the last snapshot it
    wrote is the current state; and in the latter case no shutdown has been
    requested, so that a request for shutdown always gets it going. *)
Theorem subscription_shows_current plan s b :
  rtc supervisor_step (supervisor_new plan) s -> rtc subscription_step (subscription_start s) b ->
  sb_phase b = Waiting ->
  (exists b', stream_step b b') \/
  (last (sb_shown b) = Some (from_supervisor (sb_supervisor b)) /\ shutdown_requested (sb_supervisor b) = false).
Proof.
  intros Hs Hb Hp. pose proof (subscription_steps_ok plan _ _ Hb (subscription_start_ok plan s Hs)) as [Hsup Hph].
  rewrite Hp in Hph. destruct Hph as (at_ & [Hat Hok [Hd Hcap] Hseen Hsh Hph]). rewrite Hp in Hph. destruct Hph as [Hlast Hunseen].
  destruct (queued (sb_changes b)) as [|[] rest] eqn:Eq.
  2:{ left. destruct (try_recv_ok _ _ _ Eq) as (c & Er & _). eexists. eapply (ss_woken b c Hp). unfold recv. by rewrite Er. }
  destruct (decide (Forall (fun w => w_sending w = false) (sb_watchers b))) as [Hf|Hf].
  2:{ left. apply not_Forall_Exists in Hf; [|apply _]. apply Exists_exists in Hf as (w & Hin & Hw).
      apply list_elem_of_lookup in Hin as [i Hi]. apply not_false_is_true in Hw.
      destruct (try_send_ok (sb_changes b) tt Hd) as (c & Hc & _); [rewrite Eq, Hcap; done|].
      eexists. by eapply ss_notified. }
  assert (silent b) as Hsilent by done.
  destruct (decide (Forall2 (fun w v => v <= w_seen w) (sb_watchers b) (versions (sb_supervisor b)))) as [Hall|Hnot].
  - right. specialize (Hsh Hsilent).
    assert (sb_supervisor b = at_) as Eat.
    { apply advances_same; [by apply supervisor_steps_ok|]. clear -Hall Hsh.
      unfold seen_at in Hsh. revert Hsh. generalize (versions at_). induction Hall as [|w v ws vs Hv _ IH];
        intros vs' Hs; inversion Hs; subst; constructor; [lia|auto]. }
    rewrite Eat in *. split; [done|]. destruct (shutdown_requested at_) eqn:Er; [|done].
    destruct (Hunseen Hsilent eq_refl) as (w & Hw & Hlt). exfalso. clear -Hall Hw Hlt.
    unfold versions in Hall. apply Forall2_app_inv_r in Hall as (l1 & l2 & _ & Hl & E). rewrite E in Hw.
    inversion Hl as [|w' ? ? ? Hle Hnil]; subst. inversion Hnil; subst. rewrite last_snoc in Hw. injection Hw as <-. lia.
  - left. destruct (unseen_version _ _ Hseen Hnot) as (i & w & v & Hi & Hv & Hlt).
    eexists. eapply ss_changed; [exact Hi| |exact Hv|exact Hlt]. by eapply Forall_lookup_1 in Hf.
Qed.

(** A subscriber may not be told of the shutdown: when it is requested
    while a snapshot is being written, the subscription ends after that snapshot,
    which was taken before. *)
Theorem shutdown_untold b snapshot reason :
  sb_phase b = Writing snapshot -> sup_ok (sb_supervisor b) ->
  exists b', rtc subscription_step b b' /\ sb_phase b' = StreamEnded (Ok tt) /\
    sb_shown b' = sb_shown b ++ [snapshot] /\ current_shutdown (sb_supervisor b') = Requested reason.
Proof.
  intros Hp Hok. destruct (request_shutdown_ok reason _ Hok) as (_ & _ & Hc & _).
  set (b1 := mkSubscription (request_shutdown reason (sb_supervisor b)) (sb_watchers b) (sb_changes b) (sb_phase b) (sb_shown b)).
  assert (shutdown_requested (sb_supervisor b1) = true) as Hr by (unfold shutdown_requested; cbn; by rewrite Hc).
  pose proof (ss_written b1 snapshot Hp) as Hw. rewrite Hr in Hw. eexists. split.
  - eapply rtc_l; [apply sub_supervisor, (su_shutdown _ reason)|]. eapply rtc_l; [apply sub_stream, Hw|]. apply rtc_refl.
  - by split_and!.
Qed.

End SubscriptionFacts.
(** ** Witnesses *)

Section Demo.

Record cell (V : Type) := mkCell { contents : V; writes : Z }.
Arguments mkCell {V} contents writes.
Arguments contents {V}.
Arguments writes {V}.

#[local] Instance cells : Watches := {|
  watch := cell;
  watch_new V v := mkCell v 0;
  borrow V w := contents w;
  version V w := writes w;
  watched V w := true;
  send V w v := (Ok tt, mkCell v (writes w + 1))
|}.

#[local] Instance cells_laws : WatchLaws.
Proof.
  split; cbn; [done| |done]. intros V w v _. eexists. split_and!; [done|done|cbn; lia|done].
Qed.

#[local] Instance SupervisorTaskName_countable : Countable SupervisorTaskName.
Proof.
  refine (inj_countable'
    (fun n => match n with ComposedFs => 0 | ConfigFs => 1 | VmnetGatewayTask => 2 | DockerProxyTask => 3 | Qemu => 4 end)
    (fun n => match n with 0 => ComposedFs | 1 => ConfigFs | 2 => VmnetGatewayTask | 3 => DockerProxyTask | _ => Qemu end) _).
  by intros [].
Defined.

#[local] Instance SupervisorTaskStatus_eq_dec : EqDecision SupervisorTaskStatus.
Proof. solve_decision. Defined.

#[local] Instance SupervisorTaskStatus_countable : Countable SupervisorTaskStatus.
Proof.
  refine (inj_countable'
    (fun s => match s with Planned => (0, ""%string) | Starting => (1, ""%string) | Ready => (2, ""%string) | Finished => (3, ""%string)
              | Failed c => (4, c) | Cancelled c => (5, c) end)
    (fun p => match p.1 with 0 => Planned | 1 => Starting | 2 => Ready | 3 => Finished | 4 => Failed p.2 | _ => Cancelled p.2 end) _).
  by intros [].
Defined.

#[local] Instance SupervisorTaskResult_eq_dec : EqDecision SupervisorTaskResult.
Proof. solve_decision. Defined.

#[local] Instance SupervisorTaskResult_countable : Countable SupervisorTaskResult.
Proof. refine (inj_countable' (fun r => (tr_name r, tr_status r)) (fun p => mkTaskResult p.1 p.2) _). by intros []. Defined.

#[local] Instance SupervisorShutdown_eq_dec : EqDecision SupervisorShutdown.
Proof. solve_decision. Defined.

#[local] Instance SupervisorShutdown_countable : Countable SupervisorShutdown.
Proof.
  refine (inj_countable' shutdown_reason (fun o => match o with None => Running | Some r => Requested r end) _). by intros [].
Defined.

#[local] Instance PayloadControlEndpoint_eq_dec : EqDecision PayloadControlEndpoint.
Proof. solve_decision. Defined.

#[local] Instance PayloadControlEndpoint_countable : Countable PayloadControlEndpoint.
Proof. refine (inj_countable' (fun e => (ep_host_addr e, ep_host_port e)) (fun p => mkEndpoint p.1 p.2) _). by intros []. Defined.

#[local] Instance SupervisorControlSnapshot_eq_dec : EqDecision SupervisorControlSnapshot.
Proof. solve_decision. Defined.

#[local] Instance SupervisorControlSnapshot_countable : Countable SupervisorControlSnapshot.
Proof.
  refine (inj_countable' (fun s => (sn_shutdown s, sn_tasks s, sn_endpoint s)) (fun '(a, b, c) => mkSnapshot a b c) _).
  by intros [].
Defined.

#[local] Instance SupervisorControlRequest_eq_dec : EqDecision SupervisorControlRequest.
Proof. solve_decision. Defined.

#[local] Instance SupervisorControlRequest_countable : Countable SupervisorControlRequest.
Proof.
  refine (inj_countable'
    (fun r => match r with StatusSnapshot => inl true | SubscribeStatus => inl false | RequestShutdown reason => inr reason end)
    (fun x => match x with inl true => StatusSnapshot | inl false => SubscribeStatus | inr reason => RequestShutdown reason end) _).
  by intros [].
Defined.

#[local] Instance SupervisorControlResponse_eq_dec : EqDecision SupervisorControlResponse.
Proof. solve_decision. Defined.

#[local] Instance SupervisorControlResponse_countable : Countable SupervisorControlResponse.
Proof.
  refine (inj_countable'
    (fun r => match r with SnapshotResponse s => inl s | Ack => inr None | ErrorResponse m => inr (Some m) end)
    (fun x => match x with inl s => SnapshotResponse s | inr None => Ack | inr (Some m) => ErrorResponse m end) _).
  by intros [].
Defined.

Definition text {A} `{Countable A} (a : A) : result (list byte) string := Ok (binary (encode a)).
Definition parsed {A} `{Countable A} (bs : list byte) : result A string :=
  ok_or (decode (unbinary (removelast bs))) "expected value"%string.

#[local] Instance demo_control_json : ControlJson := {|
  request_to_vec := text; request_from_slice := parsed; response_to_vec := text; response_from_slice := parsed
|}.

Lemma text_laws {A} `{Countable A} (a : A) : exists bs, text a = Ok bs /\ newline ∉ bs.
Proof. eexists. split; [done|]. by intros [|]%binary_digits. Qed.

Lemma parsed_text {A} `{Countable A} (a : A) bs : text a = Ok bs -> parsed (bs ++ [newline]) = Ok a.
Proof. intros [= <-]. unfold parsed. by rewrite removelast_last, unbinary_binary, decode_encode. Qed.

#[local] Instance demo_control_laws : ControlJsonLaws.
Proof. split; intros; try apply text_laws; by apply parsed_text. Qed.

(** A stream with what the peer sent and what was written. *)
Record duplex := mkDuplex { d_in : list byte; d_out : list byte }.

#[local] Instance duplex_reads : Read duplex := fun d n => (Ok (ztake n (d_in d)), mkDuplex (zdrop n (d_in d)) (d_out d)).

#[local] Instance duplex_writes : Write duplex := {|
  write d bs := (Ok (len bs), mkDuplex (d_in d) (d_out d ++ bs));
  write_all d bs := (Ok tt, mkDuplex (d_in d) (d_out d ++ bs))
|}.

Definition half_close (d : duplex) : io_result unit * duplex := (Ok tt, d).

#[local] Instance duplex_laws : ConversationLaws duplex half_close d_in d_out.
Proof.
  split.
  - split; cbn.
    + intros w bs n w' [= <- <-]. cbn. pose proof (len_nonneg bs). rewrite ztake_all by lia. split; [lia|done].
    + done.
    + by intros w bs w' [= <-].
    + done.
  - intros d n Hn Hne. eexists _, _. split; [done|]. cbn. split_and!.
    + intros E. apply (f_equal len) in E. rewrite len_ztake in E by lia. change (len (@nil byte)) with 0 in E.
      pose proof (len_nonneg (d_in d)). apply Hne, len_zero. lia.
    + rewrite len_ztake by lia. lia.
    + by rewrite ztake_zdrop.
    + done.
  - intros d n Hn E. eexists. split; [unfold read, duplex_reads; rewrite E; unfold ztake; by rewrite take_nil|].
    unfold zdrop. by rewrite drop_nil.
  - by intros d bs r d' [= _ <-].
  - by intros d r d' [= _ <-].
Qed.

Definition demo_plan : SupervisorPlan := mkPlan DockerProxy DockerProxy DockerProxy None DockerProxy "state.json".
Definition demo_supervisor : LaunchSupervisor := supervisor_new demo_plan.
Definition no_text (e : io_error) : string := "".
Definition no_debug (r : SupervisorControlResponse) : string := "".

Definition stop_bytes : list byte := binary (encode (CONTROL_PROTOCOL_VERSION, RequestShutdown "done")) ++ [newline].
Definition ack_bytes : list byte := binary (encode (CONTROL_PROTOCOL_VERSION, Ack)) ++ [newline].

Lemma demo_served :
  exists i, handle_control_connection no_text no_debug half_close (mkDuplex stop_bytes []) demo_supervisor =
    Ret (Ended (Ok tt) (mkDuplex i ack_bytes), request_shutdown "done" demo_supervisor).
Proof.
  unfold handle_control_connection. destruct (read_bounded_ok half_close d_in d_out (mkDuplex stop_bytes [])) as ([i o] & Hs & E).
  cbn in Hs. subst o. exists i. rewrite E. cbn [d_in].
  replace (len stop_bytes >? MAX_CONTROL_MESSAGE_BYTES) with false by (vm_compute; reflexivity).
  cbn [exec_bind]. assert (decode_control_request stop_bytes = Ok (RequestShutdown "done")) as ->
    by (apply decode_request_encoded; reflexivity). reflexivity.
Qed.

Lemma control_request_roundtrip_witness :
  exists client', control_client_request half_close (mkDuplex ack_bytes []) (RequestShutdown "done") = Ret (Ok Ack, client').
Proof.
  destruct demo_served as (i & Hserved).
  destruct (control_request_roundtrip no_text no_debug half_close d_in d_out (RequestShutdown "done") demo_supervisor
    (binary (encode (CONTROL_PROTOCOL_VERSION, RequestShutdown "done"))) (mkDuplex stop_bytes []) (mkDuplex i ack_bytes)
    (request_shutdown "done" demo_supervisor) (mkDuplex ack_bytes []) (mkDuplex ack_bytes stop_bytes) (mkDuplex ack_bytes stop_bytes))
    as [_ (client' & Hc)].
  - discriminate.
  - reflexivity.
  - reflexivity.
  - reflexivity.
  - reflexivity.
  - vm_compute. discriminate.
  - exact Hserved.
  - reflexivity.
  - vm_compute. discriminate.
  - exists client'. exact Hc.
Defined.

Definition demo_started : LaunchSupervisor := (mark_starting Qemu demo_supervisor).2.

Lemma demo_started_steps : rtc supervisor_step (supervisor_new demo_plan) demo_started.
Proof. apply rtc_once. apply (su_status _ Qemu Starting); [apply list_elem_of_In; vm_compute; tauto|reflexivity]. Qed.

(** The subscription after its first snapshot. *)
Definition demo_waiting : subscription :=
  mkSubscription demo_started (subscribe_status_changes demo_started) (channel_new 16) Waiting [from_supervisor demo_started].

Lemma demo_waiting_steps : rtc subscription_step (subscription_start demo_started) demo_waiting.
Proof. apply rtc_once, sub_stream. exact (ss_subscribed (subscription_start demo_started) _ eq_refl). Qed.

Lemma subscription_shows_current_witness :
  (exists b', stream_step demo_waiting b') \/
  (last (sb_shown demo_waiting) = Some (from_supervisor (sb_supervisor demo_waiting)) /\
   shutdown_requested (sb_supervisor demo_waiting) = false).
Proof. exact (subscription_shows_current demo_plan demo_started demo_waiting demo_started_steps demo_waiting_steps eq_refl). Defined.

Definition demo_writing : subscription :=
  mkSubscription demo_started (subscribe_status_changes demo_started) (channel_new 16) (Writing (from_supervisor demo_started))
    [from_supervisor demo_started].

End Demo.
End Supervisor.
