(* ===== verification/Launch.v ===== *)
(** Launching a virtual machine (src/vm-frontend/src/launch.rs): the inputs of a
    launch, its state file, the start of the services, and the life of the QEMU
    process among them.

    QEMU and the services are separate processes and tasks: the lifecycle is a step
    relation in which they end at any time. The theorems: QEMU does not outlive the
    lifecycle when it can be killed; every task is then in a final state; two
    defects, an abandoned process and a state disk that is never formatted. *)

From stdpp Require Import base option list numbers strings gmap relations.
From Stdlib Require Import ZArith Lia.
From S2P Require Import Prelude RustIo RustStr NetworkPolicy FsPath Frontend RuntimeManifest.
From S2P Require Import VmnetServiceIo Supervisor.

Local Open Scope list_scope.
Local Open Scope Z_scope.

Module Launch.
Import Policy FsPath Frontend RuntimeManifest Watch Supervisor.

Definition SOCKET_WAIT_TIMEOUT : Z := 10 * 1000.
Definition SOCKET_WAIT_STEP : Z := 20.
Definition STATE_DISK_SIZE_BYTES : Z := 20 * 1024 * 1024 * 1024.

(** An I/O error, the text of a JSON error, or a message. *)
Inductive LaunchError := LaunchIo (e : io_error) | LaunchJsonError (e : string) | Artifact (message : string).

Record ArtifactManifest := mkArtifactManifest {
  am_kernel : string;
  am_initrd : string;
  am_rootfs : string;
  am_cpus : Z;
  am_memory_bytes : Z;
  am_virtiofs_tag : string;
  am_kernel_cmdline : string
}.

Section Inputs.
(** The working directory, and whether a path exists. *)
Context (current_dir : io_result string) (exists_ : string -> bool) (io_text : io_error -> string).

Definition absolute_path (path : string) : result string LaunchError :=
  if is_absolute path then Ok path
  else let? cwd := map_err LaunchIo current_dir in Ok (path_join cwd path).

Definition resolve_artifact (repo_root path : string) : result string LaunchError :=
  let path := if is_absolute path then path else path_join repo_root path in
  if negb (exists_ path) then Err (Artifact ("Docker VM artifact is missing: " ++ path)) else Ok path.

Definition into_frontend_config (m : ArtifactManifest) (project run_dir qemu repo_root : string)
  : result FrontendConfig LaunchError :=
  let? project := absolute_path project in
  let? kernel := resolve_artifact repo_root (am_kernel m) in
  let? initrd := resolve_artifact repo_root (am_initrd m) in
  let? rootfs := resolve_artifact repo_root (am_rootfs m) in
  Ok (mkFrontend project qemu (mkArtifacts kernel initrd rootfs) (RuntimePaths_under run_dir)
    (mkShape (am_memory_bytes m) (am_cpus m) (ensure_ttys0_console (am_kernel_cmdline m)) (am_virtiofs_tag m))
    (computed_guest_network repo_root) None None []).

(** [read_to_string] of the manifest, and its decoding by serde; the repository is
    three directories above the file. *)
Definition from_artifact_manifest_file (text : io_result string)
  (from_str : string -> result ArtifactManifest string)
  (project run_dir qemu manifest_path : string) : result FrontendConfig LaunchError :=
  match text with
  | Err e => Err (Artifact ("failed to read artifact manifest " ++ manifest_path ++ ": " ++ io_text e))
  | Ok text =>
      let? m := map_err LaunchJsonError (from_str text) in
      let repo_root := default "."%string
        (option_bind _ _ parent (option_bind _ _ parent (parent manifest_path))) in
      into_frontend_config m project run_dir qemu repo_root
  end.

Definition validate_launch_inputs (c : FrontendConfig) : result unit LaunchError :=
  if is_absolute (qemu_system_x86_64 c) && negb (exists_ (qemu_system_x86_64 c))
  then Err (Artifact ("QEMU binary is missing: " ++ qemu_system_x86_64 c))
  else if negb (exists_ (state_disk (runtime c)))
  then Err (Artifact ("VM state disk is missing: " ++ state_disk (runtime c)))
  else Ok tt.

End Inputs.

(** [std::process::ExitStatus]: an exit code, or the signal that ended the process. *)
Inductive ExitStatus := Exited (code : Z) | Signaled (signal : Z).

Definition success (st : ExitStatus) : bool := match st with Exited code => code =? 0 | Signaled _ => false end.

(** ** The host *)

(** The calls of a launch beyond those that write the manifests. *)
Class LaunchOs (G : Type) := {
  file_create : G -> string -> io_result unit * G;
  set_len : G -> string -> Z -> io_result unit * G;
  (** [mkfs.ext4 -F path], once it has ended. *)
  mkfs_ext4 : G -> string -> io_result ExitStatus * G;
  remove_file : G -> string -> io_result unit * G;
  try_clone_file : G -> string -> io_result unit * G;
  bind_socket : G -> string -> io_result unit * G;
  (** A child process and its id. *)
  spawn_child : G -> ProcessSpec -> io_result Z * G;
  (** Whether the file holds a file system, and whether the process runs. *)
  formatted : G -> string -> bool;
  alive : G -> Z -> bool
}.

(** A created file exists and is empty; it holds a file system only after [mkfs.ext4]
    succeeds. A child runs when it is spawned, and writing files does not end it. *)
Class LaunchOsLaws (G : Type) `{LaunchFs G} `{LaunchOs G} : Prop := {
  file_create_made g p g' : file_create g p = (Ok tt, g') -> path_exists g' p = true /\ formatted g' p = false;
  set_len_kept g p n r g' : set_len g p n = (r, g') ->
    path_exists g' p = path_exists g p /\ formatted g' p = formatted g p;
  mkfs_kept g p r g' : mkfs_ext4 g p = (r, g') -> path_exists g' p = path_exists g p;
  mkfs_failed g p r g' : mkfs_ext4 g p = (r, g') -> r <> Ok (Exited 0) -> formatted g' p = formatted g p;
  mkfs_done g p g' : mkfs_ext4 g p = (Ok (Exited 0), g') -> formatted g' p = true;
  spawn_child_alive g p pid g' : spawn_child g p = (Ok pid, g') -> alive g' pid = true;
  create_dir_all_alive g p r g' pid : create_dir_all g p = (r, g') -> alive g' pid = alive g pid;
  write_file_alive g p bs r g' pid : write_file g p bs = (r, g') -> alive g' pid = alive g pid
}.

Section Disk.
Context {G : Type} `{LaunchFs G} `{LaunchOs G} (status_text : ExitStatus -> string).

(** Calls one after the other, until one fails. *)
Definition then_ {A B E : Type} (r : result A E * G) (k : A -> G -> result B E * G) : result B E * G :=
  match r with (Ok a, g) => k a g | (Err e, g) => (Err e, g) end.

Definition launch_io {A : Type} (r : io_result A * G) : result A LaunchError * G := (map_err LaunchIo r.1, r.2).

Definition ensure_state_disk (path : string) (g : G) : result unit LaunchError * G :=
  if path_exists g path then (Ok tt, g)
  else
    then_ (match parent path with
           | Some dir => launch_io (create_dir_all g dir)
           | None => (Ok tt, g)
           end) (fun _ g =>
    then_ (launch_io (file_create g path)) (fun _ g =>
    then_ (launch_io (set_len g path STATE_DISK_SIZE_BYTES)) (fun _ g =>
    then_ (launch_io (mkfs_ext4 g path)) (fun st g =>
      if negb (success st)
      then (Err (Artifact ("mkfs.ext4 failed for " ++ path ++ " with status " ++ status_text st)), g)
      else (Ok tt, g))))).

Definition remove_stale_socket (path : string) (g : G) : io_result unit * G :=
  match remove_file g path with
  | (Err e, g) => if bool_decide (error_kind e = NotFound) then (Ok tt, g) else (Err e, g)
  | r => r
  end.

(** [spawn_qemu_process_async]; the log receives both streams of the child. *)
Definition spawn_qemu_process (process : ProcessSpec) (g : G) : result Z LaunchError * G :=
  then_ (match parent (stdout_log process) with
         | Some dir => launch_io (create_dir_all g dir)
         | None => (Ok tt, g)
         end) (fun _ g =>
  then_ (launch_io (file_create g (stdout_log process))) (fun _ g =>
  then_ (launch_io (try_clone_file g (stdout_log process))) (fun _ g =>
    launch_io (spawn_child g process)))).

End Disk.

(** ** Waiting for a path *)

Section WaitForPath.
Context {K : Type} (path_there : K -> string -> bool) (now : K -> Z) (sleep : K -> Z -> K).

Definition path_wait_timeout (path : string) : LaunchError := Artifact ("timed out waiting for " ++ path).

Fixpoint wait_for_path_loop (fuel : nat) (k : K) (path : string) (deadline step : Z)
  : exec (result unit LaunchError * K) :=
  match fuel with
  | O => Panic
  | S fuel =>
      if path_there k path then Ret (Ok tt, k)
      else if deadline <=? now k then Ret (Err (path_wait_timeout path), k)
      else wait_for_path_loop fuel (sleep k (Z.min step (deadline - now k))) path deadline step
  end.

Definition wait_fuel (timeout step : Z) : nat := S (S (Z.to_nat (timeout / step))).

Definition wait_for_path (k : K) (path : string) (timeout : Z) : exec (result unit LaunchError * K) :=
  wait_for_path_loop (wait_fuel timeout SOCKET_WAIT_STEP) k path (now k + timeout) SOCKET_WAIT_STEP.

End WaitForPath.

(** ** Policies and plans *)

Section Policies.
Context `{Ipv4NetOps}.

Definition docker_listener_tcp_port (policy : VmnetPolicy) : option Z :=
  (fun p => host_port p.2) <$> list_find (fun l => purpose l = DockerApi) (host_listeners policy).

Definition policy_config_mounts (policy : VmnetPolicy) : list RuntimeMount :=
  match ca_cert_path (tls_mitm policy) with
  | None => []
  | Some path => [RuntimeManifest.mkMount "m0002_mitm_ca_cert" path "/mitm-ca.crt" true SystemRo true false]
  end.

Definition supervisor_plan_with_policy (c : FrontendConfig) (policy : VmnetPolicy) : exec SupervisorPlan :=
  let! plan := supervisor_plan c in
  let vmnet :=
    match plan_vmnet plan with
    | VmnetGateway v =>
        VmnetGateway (mkVmnetConfig (socket_path v) (event_log_path v) (vc_upstream_mappings v) (vc_network v) policy
          (upstream_connect_timeout v) (idle_sleep v) (service_io_limits v))
    | other => other
    end in
  let docker := match docker_listener_tcp_port policy with
                | Some _ => Some DockerProxy
                | None => plan_docker_proxy plan
                end in
  Ret (mkPlan (plan_composed_fs plan) (plan_config_fs plan) vmnet docker (plan_qemu plan) (state_path plan)).

Record LaunchPreparation := mkPreparation { manifests : RuntimeManifestSummary; qemu_command : list string }.

Definition prepare_frontend_launch_with_policy {G : Type} `{LaunchFs G} `{LaunchJson}
  (c : FrontendConfig) (ms : list RuntimeMount) (policy : VmnetPolicy) (g : G)
  : result LaunchPreparation LaunchError * G :=
  match write_runtime_manifests_with_config_mounts c ms (policy_config_mounts policy) g with
  | (Err e, g) => (Err (LaunchIo e), g)
  | (Ok s, g) => (Ok (mkPreparation s (build_microvm_qemu_command c)), g)
  end.

(** ** The state file *)

Record LaunchState := mkLaunchState {
  ls_status : string;
  ls_machine_type : string;
  ls_network_backend : string;
  ls_composed_fs : string;
  ls_qemu_pid : option Z;
  ls_qemu_status : option string;
  ls_egress_default_action : option string;
  ls_egress_reason : option string;
  ls_allow_ip_count : Z;
  ls_allow_domain_count : Z;
  ls_vmnet_socket : string;
  ls_composed_fs_socket : string;
  ls_config_fs_socket : string;
  ls_docker_socket : option string;
  ls_state_disk : string;
  ls_qemu_log : string;
  ls_console_log : string;
  ls_vmnet_event_log : string;
  ls_composed_fs_manifest : string;
  ls_config_fs_manifest : string;
  ls_composed_bind_manifest : string
}.

(** The derived [Debug] texts. *)
Definition action_text (a : EgressAction) : string :=
  match a with Deny => "Deny" | AllowPublicInternet => "AllowPublicInternet" end.
Definition reason_text (r : EgressReason) : string :=
  match r with
  | DenyByDefault => "DenyByDefault" | NoNetFlag => "NoNetFlag" | ExplicitAllowProfile => "ExplicitAllowProfile"
  end.

Definition launch_state (c : FrontendConfig) (status : string) (qemu_pid : option Z) (qemu_status : option string)
  (policy : option VmnetPolicy) : LaunchState :=
  let snapshot := state_snapshot c in
  let r := runtime c in
  {| ls_status := status;
     ls_machine_type := machine_type snapshot;
     ls_network_backend := network_backend snapshot;
     ls_composed_fs := composed_fs_kind snapshot;
     ls_qemu_pid := qemu_pid;
     ls_qemu_status := qemu_status;
     ls_egress_default_action := (fun p => action_text (default_action (egress p))) <$> policy;
     ls_egress_reason := (fun p => reason_text (reason (egress p))) <$> policy;
     ls_allow_ip_count := default 0 ((fun p => len (allow_ip_ranges (egress p))) <$> policy);
     ls_allow_domain_count := default 0 ((fun p => len (allow_domains (egress p))) <$> policy);
     ls_vmnet_socket := vmnet_sock r;
     ls_composed_fs_socket := composed_fs_sock r;
     ls_config_fs_socket := config_fs_sock r;
     ls_docker_socket := (fun _ => docker_sock r) <$> (policy ≫= docker_listener_tcp_port);
     ls_state_disk := state_disk r;
     ls_qemu_log := path_join (run_dir r) "qemu.log";
     ls_console_log := console_log r;
     ls_vmnet_event_log := vmnet_event_log r;
     ls_composed_fs_manifest := composed_fs_manifest r;
     ls_config_fs_manifest := config_fs_manifest r;
     ls_composed_bind_manifest := composed_bind_manifest r |}.

Definition write_launch_state {G : Type} `{LaunchFs G} (state_json_text : LaunchState -> result (list byte) string)
  (c : FrontendConfig) (status : string) (qemu_pid : option Z) (qemu_status : option string)
  (policy : option VmnetPolicy) (g : G) : result unit LaunchError * G :=
  match create_dir_all g (run_dir (runtime c)) with
  | (Err e, g) => (Err (LaunchIo e), g)
  | (Ok _, g) =>
      match state_json_text (launch_state c status qemu_pid qemu_status policy) with
      | Err e => (Err (LaunchJsonError e), g)
      | Ok bytes =>
          let '(r, g) := write_file g (state_json (runtime c)) (bytes ++ [Byte.x0a]) in (map_err LaunchIo r, g)
      end
  end.

End Policies.

(** ** Services *)

Section Services.
Context `{Ipv4NetOps} `{Watches}.
(** [Display] of an I/O error. *)
Context (io_text : io_error -> string).

Definition error_text (e : LaunchError) : string :=
  match e with LaunchIo e => io_text e | LaunchJsonError e => e | Artifact message => message end.

Definition supervisor_launch_error (text : string) : LaunchError :=
  Artifact ("launch supervisor status update failed: " ++ text).

(** [Display] of [SupervisorError]. *)
Definition supervisor_error_text (e : SupervisorError) : string :=
  match e with
  | ShutdownChannelClosed => "supervisor shutdown channel closed"
  | TaskStatusChannelClosed task => "task status channel closed for " ++ task_name_to_string task
  end%string.

Definition status_update (r : result unit SupervisorError * LaunchSupervisor)
  : result unit LaunchError * LaunchSupervisor :=
  (map_err (fun e => supervisor_launch_error (supervisor_error_text e)) r.1, r.2).

Definition required_task_controller (s : LaunchSupervisor) (name : SupervisorTaskName)
  : result SupervisorTaskName LaunchError :=
  ok_or (task_controller s name) (Artifact ("missing launch supervisor task: " ++ task_name_to_string name)).

(** What ends a service's task: its result, or the text of the join error. *)
Inductive service_end := Returned (r : result unit string) | JoinFailed (error : string).

Record SupervisedService := mkService { sv_name : SupervisorTaskName; sv_shutdown : option (watch bool) }.

(** [SupervisedBlockingService::wait], when the task has ended. *)
Definition service_wait (name : SupervisorTaskName) (e : service_end) (s : LaunchSupervisor)
  : result unit LaunchError * LaunchSupervisor :=
  match e with
  | Returned (Ok _) => status_update (mark_finished name s)
  | Returned (Err error) => (Err (Artifact error), (mark_failed name error s).2)
  | JoinFailed error =>
      let failure := ("service task join failed: " ++ error)%string in
      (Err (Artifact failure), (mark_failed name failure s).2)
  end.

Definition signal_shutdown (tx : option (watch bool)) : option (watch bool) := (fun w => (send w true).2) <$> tx.

(** The first of the two events [wait_for_supervised_service_ready] waits for. *)
Inductive readiness := PathWait (r : result unit LaunchError) | ServiceOver (e : service_end).

(** The outcome, the supervisor, and the sender the service listens to; the service's
    task is aborted when its socket does not appear. *)
Definition wait_for_supervised_service_ready (name : SupervisorTaskName) (tx : option (watch bool))
  (event : readiness) (s : LaunchSupervisor)
  : result SupervisedService LaunchError * LaunchSupervisor * option (watch bool) :=
  match status_update (mark_starting name s) with
  | (Err e, s) => (Err e, s, tx)
  | (Ok _, s) =>
      match event with
      | PathWait (Ok _) =>
          match status_update (mark_ready name s) with
          | (Err e, s) => (Err e, s, tx)
          | (Ok _, s) => (Ok (mkService name tx), s, tx)
          end
      | PathWait (Err error) => (Err error, (mark_failed name (error_text error) s).2, signal_shutdown tx)
      | ServiceOver e =>
          let failure := match e with
                         | Returned (Ok _) => "service exited before readiness"
                         | Returned (Err error) => error
                         | JoinFailed error => "service task join failed: " ++ error
                         end%string in
          (Err (Artifact failure), (mark_failed name failure s).2, tx)
      end
  end.

Fixpoint cancel_unfinished_services (services : list SupervisedService) (skip : option SupervisorTaskName)
  (why : string) (s : LaunchSupervisor) : list SupervisedService * LaunchSupervisor :=
  match services with
  | [] => ([], s)
  | sv :: rest =>
      if bool_decide (Some (sv_name sv) = skip)
      then let '(rest, s) := cancel_unfinished_services rest skip why s in (sv :: rest, s)
      else
        let sv := mkService (sv_name sv) (signal_shutdown (sv_shutdown sv)) in
        let s := (mark_cancelled (sv_name sv) why s).2 in
        let '(rest, s) := cancel_unfinished_services rest skip why s in (sv :: rest, s)
  end.

(** ** The start *)

(** The services in the order they are started, with the senders of their shutdown. *)
Definition service_plan (policy : VmnetPolicy) : list (SupervisorTaskName * option (watch bool)) :=
  [(ComposedFs, None); (ConfigFs, None); (VmnetGatewayTask, Some (watch_new false))] ++
  match docker_listener_tcp_port policy with
  | Some _ => [(DockerProxyTask, Some (watch_new false))]
  | None => []
  end.

(** Each service is started when the one before it is ready. *)
Fixpoint start_services (events : SupervisorTaskName -> readiness)
  (todo : list (SupervisorTaskName * option (watch bool))) (s : LaunchSupervisor)
  : result (list SupervisedService) LaunchError * LaunchSupervisor :=
  match todo with
  | [] => (Ok [], s)
  | (name, tx) :: rest =>
      match required_task_controller s name with
      | Err e => (Err e, s)
      | Ok controller =>
          match wait_for_supervised_service_ready controller tx (events name) s with
          | (Err e, s, _) => (Err e, s)
          | (Ok service, s, _) =>
              let '(r, s) := start_services events rest s in
              (match r with Ok services => Ok (service :: services) | Err e => Err e end, s)
          end
      end
  end.

Section Run.
Context {G : Type} `{LaunchFs G} `{LaunchOs G} `{LaunchJson}.
Context (state_json_text : LaunchState -> result (list byte) string) (status_text : ExitStatus -> string).

Definition qemu_controller_mismatch (controller : SupervisorTaskName) : LaunchError :=
  Artifact ("qemu process supervisor received " ++ task_name_to_string controller ++ " task controller").

Definition spawn_supervised_qemu_process_with_state (c : FrontendConfig) (policy : VmnetPolicy)
  (process : ProcessSpec) (controller : SupervisorTaskName) (s : LaunchSupervisor) (g : G)
  : result Z LaunchError * LaunchSupervisor * G :=
  if negb (bool_decide (controller = Qemu)) then (Err (qemu_controller_mismatch controller), s, g)
  else
    match status_update (mark_starting controller s) with
    | (Err e, s) => (Err e, s, g)
    | (Ok _, s) =>
        match spawn_qemu_process process g with
        | (Err error, g) => (Err error, (mark_failed controller (error_text error) s).2, g)
        | (Ok pid, g) =>
            match write_launch_state state_json_text c "running" (Some pid) None (Some policy) g with
            | (Err e, g) => (Err e, s, g)
            | (Ok _, g) =>
                match status_update (mark_ready controller s) with
                | (Err e, s) => (Err e, s, g)
                | (Ok _, s) => (Ok pid, s, g)
                end
            end
        end
    end.

Fixpoint remove_stale_sockets (paths : list string) (g : G) : result unit LaunchError * G :=
  match paths with
  | [] => (Ok tt, g)
  | path :: rest => then_ (launch_io (remove_stale_socket path g)) (fun _ => remove_stale_sockets rest)
  end.

Definition stale_sockets (r : RuntimePaths) : list string :=
  [composed_fs_sock r; config_fs_sock r; vmnet_sock r; docker_sock r; vmnet_event_log r; control_socket_path r].

Definition supervisor_control_error (e : io_error) : LaunchError :=
  Artifact ("launch supervisor control failed: " ++ io_text e).

(** The files of a launch, up to the control socket. *)
Definition prepare_host (c : FrontendConfig) (ms : list RuntimeMount) (policy : VmnetPolicy) (g : G)
  : result unit LaunchError * G :=
  then_ (ensure_state_disk status_text (state_disk (runtime c)) g) (fun _ g =>
  then_ (validate_launch_inputs (path_exists g) c, g) (fun _ g =>
  then_ (write_launch_state state_json_text c "starting" None None (Some policy) g) (fun _ g =>
  then_ (prepare_frontend_launch_with_policy c ms policy g) (fun _ g =>
  then_ (remove_stale_sockets (stale_sockets (runtime c)) g) (fun _ g =>
  let '(r, g) := bind_socket g (control_socket_path (runtime c)) in (map_err supervisor_control_error r, g)))))).

(** [run_frontend_until_qemu_exit…_async] until QEMU runs. *)
Definition launch_start (c : FrontendConfig) (ms : list RuntimeMount) (policy : VmnetPolicy)
  (events : SupervisorTaskName -> readiness) (g : G)
  : exec (result (list SupervisedService * LaunchSupervisor * Z) LaunchError * G) :=
  match prepare_host c ms policy g with
  | (Err e, g) => Ret (Err e, g)
  | (Ok _, g) =>
      let! plan := supervisor_plan_with_policy c policy in
      match start_services events (service_plan policy) (supervisor_new plan) with
      | (Err e, _) => Ret (Err e, g)
      | (Ok services, s) =>
          match plan_qemu plan with
          | ChildProcess process =>
              match required_task_controller s Qemu with
              | Err e => Ret (Err e, g)
              | Ok controller =>
                  match spawn_supervised_qemu_process_with_state c policy process controller s g with
                  | (Err e, _, g) => Ret (Err e, g)
                  | (Ok pid, s, g) => Ret (Ok (services, s, pid), g)
                  end
              end
          | _ => Panic
          end
      end
  end.

(** ** The life of QEMU *)

Record QemuExit := mkQemuExit { exit_status : ExitStatus; timed_out : bool }.

Definition publish_supervised_qemu_exit (controller : SupervisorTaskName) (exit : QemuExit) (s : LaunchSupervisor)
  : result unit LaunchError * LaunchSupervisor :=
  if timed_out exit then status_update (mark_failed controller "qemu timed out" s)
  else status_update (mark_finished controller s).

Definition write_qemu_exit_state (c : FrontendConfig) (policy : VmnetPolicy) (exit : QemuExit)
  : G -> result unit LaunchError * G :=
  write_launch_state state_json_text c (if timed_out exit then "timed_out" else "exited") None
    (Some (status_text (exit_status exit))) (Some policy).

Definition write_supervisor_shutdown_state (c : FrontendConfig) (policy : VmnetPolicy) (exit : QemuExit)
  (reason : string) : G -> result unit LaunchError * G :=
  write_launch_state state_json_text c "terminated" None
    (Some ("supervisor shutdown requested (" ++ reason ++ "); qemu status: " ++ status_text (exit_status exit))%string)
    (Some policy).

(** Why QEMU is stopped: the cause of a service's end, or the reason of a shutdown. *)
Inductive stop := ServiceStopped (cause : string) | ShutdownStopped (reason : string).

(** What the lifecycle waits for: one of the events of [select!], the end of a process
    that was killed, or nothing. *)
Inductive phase :=
| Selecting
| TimedOutKilled
| StopKilled (why : stop)
| Over (r : result QemuExit LaunchError).

Inductive child := Alive | Dead (st : ExitStatus).

(** The monitors of the services that still wait, the results of the others in the
    order they ended, and the errors that ended the lifecycle at once: of a call on the
    child, or of a monitor that panicked. *)
Record lifecycle := mkLifecycle {
  lc_sup : LaunchSupervisor;
  lc_services : list SupervisedService;
  lc_running : list SupervisorTaskName;
  lc_ended : list (SupervisorTaskName * result unit LaunchError);
  lc_child : child;
  lc_phase : phase;
  lc_host : G;
  lc_faults : list LaunchError
}.

Section Lifecycle.
Context (c : FrontendConfig) (policy : VmnetPolicy) (qemu_timeout : option Z) (controller : SupervisorTaskName).

Definition lifecycle_start (services : list SupervisedService) (s : LaunchSupervisor) (g : G) : lifecycle :=
  mkLifecycle s services (map sv_name services) [] Alive Selecting g [].

Definition over (l : lifecycle) (s : LaunchSupervisor) (services : list SupervisedService)
  (r : result QemuExit LaunchError) (g : G) : lifecycle :=
  mkLifecycle s services (lc_running l) (lc_ended l) (lc_child l) (Over r) g (lc_faults l).

(** The early returns: a call on the child fails, or a monitor cannot be joined. *)
Definition fault (l : lifecycle) (e : LaunchError) : lifecycle :=
  mkLifecycle (lc_sup l) (lc_services l) (lc_running l) (lc_ended l) (lc_child l)
    (Over (Err e)) (lc_host l) (lc_faults l ++ [e]).

Definition in_phase (l : lifecycle) (p : phase) : lifecycle :=
  mkLifecycle (lc_sup l) (lc_services l) (lc_running l) (lc_ended l) (lc_child l) p (lc_host l) (lc_faults l).

(** QEMU has exited, by itself or because it was killed at its timeout. *)
Definition qemu_exited (l : lifecycle) (exit : QemuExit) : lifecycle :=
  match publish_supervised_qemu_exit controller exit (lc_sup l) with
  | (Err e, s) => over l s (lc_services l) (Err e) (lc_host l)
  | (Ok _, s) =>
      let '(services, s) := cancel_unfinished_services (lc_services l) None
        (if timed_out exit then "qemu timed out" else "qemu exited") s in
      let '(r, g) := write_qemu_exit_state c policy exit (lc_host l) in
      over l s services (match r with Ok _ => Ok exit | Err e => Err e end) g
  end.

Definition failure_cause (name : SupervisorTaskName) (r : result unit LaunchError) : string :=
  match r with
  | Ok _ => task_name_to_string name ++ " exited while qemu was running"
  | Err error => error_text error
  end.

(** The statuses, when a service has ended. *)
Definition stop_for_service (l : lifecycle) (name : SupervisorTaskName) (cause : string) : lifecycle :=
  let '(services, s) := cancel_unfinished_services (lc_services l) (Some name) "peer service failed" (lc_sup l) in
  mkLifecycle (mark_failed controller ("service failure: " ++ cause) s).2 services (lc_running l) (lc_ended l)
    (lc_child l) (lc_phase l) (lc_host l) (lc_faults l).

(** The statuses, when a shutdown is requested. *)
Definition stop_for_shutdown (l : lifecycle) (reason : string) : lifecycle :=
  let '(services, s) := cancel_unfinished_services (lc_services l) None reason (lc_sup l) in
  mkLifecycle (mark_cancelled controller reason s).2 services (lc_running l) (lc_ended l)
    (lc_child l) (lc_phase l) (lc_host l) (lc_faults l).

(** The child has been waited for after it was stopped. *)
Definition stopped (l : lifecycle) (why : stop) (st : ExitStatus) : lifecycle :=
  match why with
  | ServiceStopped cause =>
      let qemu_status := ("terminated after service failure (" ++ cause ++ "); qemu status: " ++ status_text st)%string in
      let '(r, g) := write_launch_state state_json_text c "service_failed" None (Some qemu_status) (Some policy)
        (lc_host l) in
      over l (lc_sup l) (lc_services l) (Err (match r with Ok _ => Artifact cause | Err e => e end)) g
  | ShutdownStopped reason =>
      let exit := mkQemuExit st false in
      let '(r, g) := write_supervisor_shutdown_state c policy exit reason (lc_host l) in
      over l (lc_sup l) (lc_services l) (match r with Ok _ => Ok exit | Err e => Err e end) g
  end.

(** [try_wait], and [start_kill] when the child runs. *)
Inductive stopping (l : lifecycle) (why : stop) : lifecycle -> Prop :=
| stop_dead st : lc_child l = Dead st -> stopping l why (stopped l why st)
| stop_alive : lc_child l = Alive -> stopping l why (in_phase l (StopKilled why))
| stop_fault e : stopping l why (fault l (LaunchIo e)).

Inductive main_step (l : lifecycle) : lifecycle -> Prop :=
| select_exit st : lc_phase l = Selecting -> lc_child l = Dead st ->
    main_step l (qemu_exited l (mkQemuExit st false))
| select_timeout t : lc_phase l = Selecting -> qemu_timeout = Some t -> main_step l (in_phase l TimedOutKilled)
| select_service name r rest l' : lc_phase l = Selecting -> lc_ended l = (name, r) :: rest ->
    stopping (stop_for_service l name (failure_cause name r)) (ServiceStopped (failure_cause name r)) l' ->
    main_step l l'
| select_shutdown reason l' : lc_phase l = Selecting -> current_shutdown (lc_sup l) = Requested reason ->
    stopping (stop_for_shutdown l reason) (ShutdownStopped reason) l' -> main_step l l'
| timeout_waited st : lc_phase l = TimedOutKilled -> lc_child l = Dead st ->
    main_step l (qemu_exited l (mkQemuExit st true))
| stop_waited why st : lc_phase l = StopKilled why -> lc_child l = Dead st -> main_step l (stopped l why st)
| child_fault e : (forall r, lc_phase l <> Over r) -> main_step l (fault l (LaunchIo e))
| monitor_fault text : lc_phase l = Selecting ->
    main_step l (fault l (Artifact ("service monitor join failed: " ++ text))).

Definition monitor_ended (l : lifecycle) (name : SupervisorTaskName) (e : service_end) : lifecycle :=
  let '(r, s) := service_wait name e (lc_sup l) in
  mkLifecycle s (lc_services l) (filter (.≠ name) (lc_running l)) (lc_ended l ++ [(name, r)]) (lc_child l)
    (lc_phase l) (lc_host l) (lc_faults l).

(** QEMU exits, a service ends and its monitor records it, a client of the control
    socket asks for a shutdown; or the lifecycle goes on. *)
Inductive lifecycle_step (l : lifecycle) : lifecycle -> Prop :=
| child_exits st : lc_child l = Alive ->
    lifecycle_step l (mkLifecycle (lc_sup l) (lc_services l) (lc_running l) (lc_ended l) (Dead st) (lc_phase l)
      (lc_host l) (lc_faults l))
| service_ends name e : name ∈ lc_running l -> lifecycle_step l (monitor_ended l name e)
| shutdown_asked reason :
    lifecycle_step l (mkLifecycle (request_shutdown reason (lc_sup l)) (lc_services l) (lc_running l) (lc_ended l)
      (lc_child l) (lc_phase l) (lc_host l) (lc_faults l))
| lifecycle_goes l' : main_step l l' -> lifecycle_step l l'.

End Lifecycle.
End Run.
End Services.

(** ** Statuses *)

Section Statuses.
Context `{Ipv4NetOps} `{Watches} `{!WatchLaws}.

(** A task that has ended. *)
Definition ended (s : LaunchSupervisor) (name : SupervisorTaskName) : Prop :=
  forall r, r ∈ task_statuses s -> tr_name r = name -> is_terminal (tr_status r) = true.

(** The same tasks, and those that had ended have. *)
Record onward (s s' : LaunchSupervisor) : Prop := {
  on_ok : sup_ok s';
  on_names : task_controllers s' = task_controllers s;
  on_ended name : ended s name -> ended s' name
}.

Lemma onward_refl s : sup_ok s -> onward s s.
Proof. by split. Qed.

Lemma onward_trans a b c : onward a b -> onward b c -> onward a c.
Proof. intros [O1 N1 E1] [O2 N2 E2]. split; [done|congruence|auto]. Qed.

Lemma with_status_elem name st r rs :
  r ∈ map (with_status name st) rs -> r = mkTaskResult name st \/ (r ∈ rs /\ tr_name r <> name).
Proof.
  intros (r0 & -> & Hr)%list_elem_of_fmap. unfold with_status.
  destruct (decide (tr_name r0 = name)); [rewrite bool_decide_true by done; by left|].
  rewrite bool_decide_false by done. by right.
Qed.

Lemma end_status name st s :
  sup_ok s -> name ∈ task_controllers s -> is_terminal st = true ->
  exists s', set_status name st s = (Ok tt, s') /\ onward s s' /\ ended s' name.
Proof.
  intros Hok Hin Ht. destruct (set_status_ok name st s Hok Hin) as (s' & E & Hok' & _ & Hs & _ & Hc).
  exists s'. split; [done|]. split; [split; [done|done|]|].
  - intros n Hn r Hr Hrn. rewrite Hs in Hr. apply with_status_elem in Hr as [->|[Hr _]]; [done|by apply Hn].
  - intros r Hr Hrn. rewrite Hs in Hr. by apply with_status_elem in Hr as [->|[_ Hne]].
Qed.

Lemma request_shutdown_onward reason s : sup_ok s -> onward s (request_shutdown reason s).
Proof.
  intros Hok. destruct (request_shutdown_ok reason s Hok) as (Hok' & _ & _ & Hs). split; [done| |].
  - by rewrite <- !results_names, Hs.
  - intros n Hn r. rewrite Hs. apply Hn.
Qed.

Lemma service_wait_onward name e s :
  sup_ok s -> name ∈ task_controllers s -> onward s (service_wait name e s).2 /\ ended (service_wait name e s).2 name.
Proof.
  intros Hok Hin. unfold service_wait, status_update, mark_finished, mark_failed.
  destruct e as [[[]|error]|error];
    (edestruct (end_status name) as (s' & E & Hon & Hend); [exact Hok|exact Hin| |rewrite E; by split]; done).
Qed.

Lemma cancel_services_onward services skip why s services' s' :
  sup_ok s -> map sv_name services ⊆ task_controllers s ->
  cancel_unfinished_services services skip why s = (services', s') ->
  map sv_name services' = map sv_name services /\ onward s s' /\
  forall name, name ∈ map sv_name services -> Some name <> skip -> ended s' name.
Proof.
  revert s services' s'. induction services as [|sv rest IH]; intros s services' s' Hok Hsub; cbn.
  { intros [= <- <-]. split_and!; [done|by apply onward_refl|]. intros ? ?%elem_of_nil. done. }
  cbn in Hsub. destruct (decide (Some (sv_name sv) = skip)) as [Hs|Hs].
  - rewrite bool_decide_true by done. destruct (cancel_unfinished_services rest skip why s) as [rest' s1] eqn:E.
    intros [= <- <-]. apply IH in E as (Hn & Hon & Hall); [|done|set_solver]. cbn. rewrite Hn.
    split_and!; [done|done|]. intros n [->|?]%elem_of_cons ?; [done|auto].
  - rewrite bool_decide_false by done. unfold mark_cancelled.
    destruct (end_status (sv_name sv) (Cancelled why) s) as (s1 & -> & Hon1 & He1); [done|set_solver|done|]. cbn [snd].
    destruct (cancel_unfinished_services rest skip why s1) as [rest' s2] eqn:E. intros [= <- <-].
    apply IH in E as (Hn & Hon & Hall); [|apply Hon1|rewrite (on_names _ _ Hon1); set_solver]. cbn. rewrite Hn.
    split_and!; [done|by eapply onward_trans|]. intros n [->|?]%elem_of_cons ?; [by apply Hon|auto].
Qed.

End Statuses.

(** ** The life of QEMU *)

Section LifecycleFacts.
Context `{Ipv4NetOps} `{Watches} `{!WatchLaws} {G : Type} `{LaunchFs G} `{LaunchOs G}.
Context (io_text : io_error -> string) (state_json_text : LaunchState -> result (list byte) string)
  (status_text : ExitStatus -> string) (c : FrontendConfig) (policy : VmnetPolicy) (qemu_timeout : option Z).

#[local] Abbreviation step := (lifecycle_step io_text state_json_text status_text c policy qemu_timeout Qemu).

Definition all_ended (l : lifecycle (G:=G)) : Prop :=
  ended (lc_sup l) Qemu /\ forall name, name ∈ map sv_name (lc_services l) -> ended (lc_sup l) name.

(** What the phase promises. *)
Definition phase_ok (l : lifecycle (G:=G)) : Prop :=
  match lc_phase l with
  | Selecting | TimedOutKilled => True
  | StopKilled _ => all_ended l
  | Over r => lc_faults l = [] -> all_ended l /\
      exists st, lc_child l = Dead st /\ forall exit, r = Ok exit -> exit_status exit = st
  end.

Record lifecycle_ok (names : list SupervisorTaskName) (l : lifecycle (G:=G)) : Prop := {
  lo_sup : sup_ok (lc_sup l);
  lo_names : task_controllers (lc_sup l) = names;
  lo_services : names = map sv_name (lc_services l) ++ [Qemu];
  lo_running : lc_running l ⊆ names;
  lo_ended name r : (name, r) ∈ lc_ended l -> ended (lc_sup l) name;
  lo_phase : phase_ok l
}.


Lemma all_ended_onward l l' :
  onward (lc_sup l) (lc_sup l') -> map sv_name (lc_services l') = map sv_name (lc_services l) ->
  all_ended l -> all_ended l'.
Proof. intros Hon Hs [Hq Hall]. split; [by apply Hon|]. rewrite Hs. intros n Hn. by apply Hon, Hall. Qed.

Lemma qemu_exited_ok names l exit :
  lifecycle_ok names l -> lc_child l = Dead (exit_status exit) ->
  lifecycle_ok names (qemu_exited state_json_text status_text c policy Qemu l exit).
Proof.
  intros [Hs Hn Hsv Hr He _] Hd. unfold qemu_exited, publish_supervised_qemu_exit, status_update, mark_failed, mark_finished.
  destruct (end_status Qemu (if timed_out exit then Failed "qemu timed out" else Finished) (lc_sup l))
    as (s1 & E1 & Hon1 & He1); [done|rewrite Hn, Hsv; set_solver|by destruct (timed_out exit)|].
  replace (if timed_out exit then _ else _) with (@Ok unit LaunchError tt, s1)
    by (destruct (timed_out exit); rewrite E1; done).
  destruct (cancel_unfinished_services _ _ _ s1) as [services s2] eqn:E2.
  apply cancel_services_onward in E2 as (Hn2 & Hon2 & Hall2);
    [|apply Hon1|rewrite (on_names _ _ Hon1), Hn, Hsv; set_solver].
  pose proof (onward_trans _ _ _ Hon1 Hon2) as Hon.
  destruct (write_qemu_exit_state _ _ _ _ _ _) as [r g]. split; cbn.
  - apply Hon.
  - by rewrite (on_names _ _ Hon).
  - by rewrite Hn2.
  - done.
  - intros n r0 Hin. by eapply Hon, He.
  - intros _. split; [split; [by apply Hon2|]|].
    + cbn. intros n. rewrite Hn2. intros Hin. by apply Hall2.
    + exists (exit_status exit). split; [done|]. intros exit'. by destruct r; intros [= <-].
Qed.

Lemma stopped_ok names l why st :
  lifecycle_ok names l -> all_ended l -> lc_child l = Dead st ->
  lifecycle_ok names (stopped state_json_text status_text c policy l why st).
Proof.
  intros [Hs Hn Hsv Hr He _] Hall Hd. unfold stopped.
  destruct why; destruct (_ : _ * _) as [r g]; (split; cbn; [done..|]); intros _; (split; [exact Hall|]);
    exists st; (split; [done|]); intros exit; destruct r; by intros [= <-].
Qed.

Lemma fault_ok names l e : lifecycle_ok names l -> lifecycle_ok names (fault l e).
Proof. intros [Hs Hn Hsv Hr He _]. split; cbn; [done..|]. unfold phase_ok. cbn. intros []%app_eq_nil. done. Qed.

Lemma stopping_ok names l why l' :
  lifecycle_ok names l -> all_ended l -> stopping state_json_text status_text c policy l why l' -> lifecycle_ok names l'.
Proof.
  intros Hok Hall [st Hd|Ha|e].
  - by apply stopped_ok.
  - destruct Hok as [Hs Hn Hsv Hr He _]. by split.
  - by apply fault_ok.
Qed.

(** The statuses are set before QEMU is stopped: all have ended. *)
Lemma stop_statuses_ok names l services skip why st s :
  lifecycle_ok names l -> lc_phase l = Selecting -> is_terminal st = true ->
  (forall name, skip = Some name -> ended (lc_sup l) name) ->
  cancel_unfinished_services (lc_services l) skip why (lc_sup l) = (services, s) ->
  let l' := mkLifecycle (set_status Qemu st s).2 services (lc_running l) (lc_ended l) (lc_child l) (lc_phase l)
    (lc_host l) (lc_faults l) in
  lifecycle_ok names l' /\ all_ended l'.
Proof.
  intros [Hs Hn Hsv Hr He _] Hph Ht Hskip E.
  apply cancel_services_onward in E as (Hn1 & Hon1 & Hall1); [|done|rewrite Hn, Hsv; set_solver].
  destruct (end_status Qemu st s) as (s2 & -> & Hon2 & He2); [apply Hon1|rewrite (on_names _ _ Hon1), Hn, Hsv; set_solver|done|].
  pose proof (onward_trans _ _ _ Hon1 Hon2) as Hon. cbn. split; [split; cbn|split; cbn].
  - apply Hon.
  - by rewrite (on_names _ _ Hon).
  - by rewrite Hn1.
  - done.
  - intros n r Hin. by eapply Hon, He.
  - unfold phase_ok. cbn. by rewrite Hph.
  - done.
  - intros n. rewrite Hn1. intros Hin. apply Hon2. destruct (decide (Some n = skip)) as [<-|Hne].
    + by apply Hon1, Hskip.
    + by apply Hall1.
Qed.

Lemma main_step_ok names l l' :
  lifecycle_ok names l -> main_step io_text state_json_text status_text c policy qemu_timeout Qemu l l' ->
  lifecycle_ok names l'.
Proof.
  intros Hok [st Hp Hd|t Hp Ht|name r rest l1 Hp He Hst|reason l1 Hp Hsd Hst|st Hp Hd|why st Hp Hd|e Hp|text Hp].
  - by apply qemu_exited_ok.
  - destruct Hok as [Hs Hn Hsv Hr He _]. by split.
  - unfold stop_for_service in Hst. destruct (cancel_unfinished_services _ _ _ _) as [services s] eqn:E.
    eapply stop_statuses_ok in E as [Hok' Hall]; [by eapply stopping_ok|done|done|done|].
    intros n [= <-]. eapply (lo_ended _ _ Hok). rewrite He. by left.
  - unfold stop_for_shutdown in Hst. destruct (cancel_unfinished_services _ _ _ _) as [services s] eqn:E.
    eapply stop_statuses_ok in E as [Hok' Hall]; [by eapply stopping_ok|done..].
  - by apply qemu_exited_ok.
  - apply stopped_ok; [done| |done]. pose proof (lo_phase _ _ Hok) as Hph. unfold phase_ok in Hph. by rewrite Hp in Hph.
  - by apply fault_ok.
  - by apply fault_ok.
Qed.

(** A supervisor that goes on keeps what the phase promises. *)
Lemma phase_ok_onward l l' :
  onward (lc_sup l) (lc_sup l') -> lc_services l' = lc_services l -> lc_phase l' = lc_phase l ->
  lc_faults l' = lc_faults l -> (forall st, lc_child l = Dead st -> lc_child l' = Dead st) -> phase_ok l -> phase_ok l'.
Proof.
  intros Hon Hs Hp Hf Hd. assert (all_ended l -> all_ended l') as Hall by (apply all_ended_onward; [done|by rewrite Hs]).
  unfold phase_ok. rewrite Hp, Hf. destruct (lc_phase l); [done|done|done|].
  intros Hok Hnil. destruct (Hok Hnil) as (Ha & st & Hst & He). split; [auto|]. exists st. auto.
Qed.

Lemma step_ok names l l' : lifecycle_ok names l -> step l l' -> lifecycle_ok names l'.
Proof.
  intros Hok Hst. pose proof Hok as [Hs Hn Hsv Hr He Hp]. destruct Hst as [st Ha|name e Hin|reason|l' Hm].
  - split; [done..|]. apply (phase_ok_onward l); [by apply onward_refl|done|done|done| |done]. intros st'. by rewrite Ha.
  - unfold monitor_ended. destruct (service_wait_onward name e (lc_sup l)) as [Hon Hend]; [done|rewrite Hn; auto|].
    destruct (service_wait name e (lc_sup l)) as [r s]. cbn [snd] in *. split; cbn.
    + apply Hon.
    + by rewrite (on_names _ _ Hon).
    + done.
    + intros n [_ Hn']%list_elem_of_filter. auto.
    + intros n r' [Hi|Hi%list_elem_of_singleton]%elem_of_app; [by eapply Hon, He|]. by simplify_eq.
    + by apply (phase_ok_onward l).
  - pose proof (request_shutdown_onward reason (lc_sup l) Hs) as Hon. split; cbn.
    + apply Hon.
    + exact (eq_trans (on_names _ _ Hon) Hn).
    + done.
    + done.
    + intros n r Hi. by eapply Hon, He.
    + by apply (phase_ok_onward l).
  - by eapply main_step_ok.
Qed.

Lemma steps_ok names l l' : lifecycle_ok names l -> rtc step l l' -> lifecycle_ok names l'.
Proof. intros Hok Hst. induction Hst; [done|]. eauto using step_ok. Qed.

(** The lifecycle is over when it has seen QEMU exit. *)
Lemma qemu_exited_over l exit :
  let l' := qemu_exited state_json_text status_text c policy Qemu l exit in
  (exists r, lc_phase l' = Over r) /\ lc_faults l' = lc_faults l /\ lc_child l' = lc_child l.
Proof.
  unfold qemu_exited. destruct (publish_supervised_qemu_exit _ _ _) as [[[]|] ?]; [|split_and!; by eexists].
  destruct (cancel_unfinished_services _ _ _ _). destruct (write_qemu_exit_state _ _ _ _ _ _). split_and!; by eexists.
Qed.

End LifecycleFacts.

(** ** The start *)

Section StartFacts.
Context `{Ipv4NetOps} `{Watches} `{!WatchLaws} (io_text : io_error -> string).

Definition ready_at (s : LaunchSupervisor) (name : SupervisorTaskName) : Prop :=
  forall r, r ∈ task_statuses s -> tr_name r = name -> tr_status r = Ready.

(** The same tasks; those but [names] keep being ready. *)
Record grown (names : list SupervisorTaskName) (s s' : LaunchSupervisor) : Prop := {
  gr_ok : sup_ok s';
  gr_names : task_controllers s' = task_controllers s;
  gr_ready name : name ∉ names -> ready_at s name -> ready_at s' name
}.

Lemma grown_trans ns ms a b c : ns ⊆ ms -> grown ns a b -> grown ms b c -> grown ms a c.
Proof. intros Hsub [O1 N1 R1] [O2 N2 R2]. split; [done|congruence|]. intros n Hn Ha. apply R2, R1; [done|set_solver|done]. Qed.

Lemma set_status_grown name st s :
  sup_ok s -> name ∈ task_controllers s ->
  exists s', status_update (set_status name st s) = (Ok tt, s') /\ grown [name] s s' /\ (st = Ready -> ready_at s' name).
Proof.
  intros Hok Hin. destruct (set_status_ok name st s Hok Hin) as (s' & E & Hok' & _ & Hs & _ & Hc).
  exists s'. unfold status_update. rewrite E. split; [done|]. split; [split; [done|done|]|].
  - intros n Hn Hr r Hir Hrn. rewrite Hs in Hir. apply with_status_elem in Hir as [->|[Hir _]]; [set_solver|by apply Hr].
  - intros -> r Hir Hrn. rewrite Hs in Hir. by apply with_status_elem in Hir as [->|[_ ?]].
Qed.

Lemma required_controller s name : name ∈ task_controllers s -> required_task_controller s name = Ok name.
Proof.
  unfold required_task_controller, task_controller, task_controllers. induction (tasks s) as [|t ts IH]; [by intros ?%elem_of_nil|].
  cbn. intros Hin. destruct (decide (named name t)) as [E|Hne]; [cbn; by rewrite E|].
  apply elem_of_cons in Hin as [Hin|Hin]; [by destruct Hne|].
  specialize (IH Hin). by destruct (list_find (named name) ts) as [[]|].
Qed.

Lemma wait_ready_ok name tx event s service s' tx' :
  sup_ok s -> name ∈ task_controllers s ->
  wait_for_supervised_service_ready io_text name tx event s = (Ok service, s', tx') ->
  sv_name service = name /\ grown [name] s s' /\ ready_at s' name.
Proof.
  intros Hok Hin. unfold wait_for_supervised_service_ready, mark_starting, mark_ready.
  destruct (set_status_grown name Starting s Hok Hin) as (s1 & -> & Hg1 & _).
  destruct event as [[[]|]|]; [|done|done].
  destruct (set_status_grown name Ready s1) as (s2 & -> & Hg2 & Hr); [apply Hg1|by rewrite (gr_names _ _ _ Hg1)|].
  intros [= <- <- <-]. split_and!; [done|by eapply grown_trans|auto].
Qed.

Lemma start_services_ok events todo s services s' :
  sup_ok s -> NoDup (map fst todo) -> map fst todo ⊆ task_controllers s ->
  start_services io_text events todo s = (Ok services, s') ->
  map sv_name services = map fst todo /\ grown (map fst todo) s s' /\
  forall name, name ∈ map fst todo -> ready_at s' name.
Proof.
  revert s services s'. induction todo as [|[name tx] rest IH]; intros s services s' Hok Hnd Hsub; cbn [start_services].
  { intros [= <- <-]. split_and!; [done|by split|]. by intros ? ?%elem_of_nil. }
  cbn in Hnd, Hsub. apply NoDup_cons in Hnd as [Hni Hnd]. rewrite required_controller by set_solver.
  destruct (wait_for_supervised_service_ready io_text name tx (events name) s) as [[[service|e] s1] tx1] eqn:E; [|done].
  apply wait_ready_ok in E as (Hn & Hg & Hr); [|done|set_solver].
  destruct (start_services io_text events rest s1) as [[services1|e] s2] eqn:E2; intros [= <- <-].
  apply IH in E2 as (Hn2 & Hg2 & Hr2); [|apply Hg|done|rewrite (gr_names _ _ _ Hg); set_solver].
  cbn. rewrite Hn, Hn2. split_and!; [done| |].
  - eapply (grown_trans [name]); [set_solver|done|]. destruct Hg2 as [O N R]. split; [done|done|].
    intros n Hnn. apply R. set_solver.
  - intros n [->|Hin]%elem_of_cons; [by apply (gr_ready _ _ _ Hg2)|auto].
Qed.

(** The tasks of the supervisor are the services and QEMU. *)
Lemma plan_tasks c policy plan :
  supervisor_plan_with_policy c policy = Ret plan ->
  task_controllers (supervisor_new plan) = map fst (service_plan policy) ++ [Qemu].
Proof.
  unfold supervisor_plan_with_policy, supervisor_plan. destruct (vmnet_gateway_config c); [|done]. cbn.
  intros [= <-]. unfold task_controllers, supervisor_new. cbn [tasks]. rewrite new_tasks_names.
  unfold task_specs_from_plan, service_plan. cbn. by destruct (docker_listener_tcp_port policy).
Qed.

End StartFacts.

Section HostFacts.
Context `{Ipv4NetOps} `{Watches} `{!WatchLaws} {G : Type} `{LaunchOsLaws G} `{LaunchJson}.
Context (io_text : io_error -> string) (state_json_text : LaunchState -> result (list byte) string)
  (status_text : ExitStatus -> string).

Lemma write_launch_state_alive c status pid qemu_status policy g r g' child :
  write_launch_state state_json_text c status pid qemu_status policy g = (r, g') -> alive g' child = alive g child.
Proof.
  unfold write_launch_state. destruct (create_dir_all g _) as [[[]|e] g1] eqn:E1.
  - destruct (state_json_text _) as [bytes|e]; [|intros [= _ <-]; by eapply create_dir_all_alive].
    destruct (write_file g1 _ _) as [r2 g2] eqn:E2. intros [= _ <-].
    rewrite (write_file_alive _ _ _ _ _ _ E2). by eapply create_dir_all_alive.
  - intros [= _ <-]. by eapply create_dir_all_alive.
Qed.

Lemma spawn_qemu_alive process g pid g' : spawn_qemu_process process g = (Ok pid, g') -> alive g' pid = true.
Proof.
  unfold spawn_qemu_process, then_, launch_io. intros E.
  repeat match type of E with
  | context [match ?x with Some _ => _ | None => _ end] => destruct x
  | context [create_dir_all ?a ?b] => destruct (create_dir_all a b) as [[[]|] ?]
  | context [file_create ?a ?b] => destruct (file_create a b) as [[[]|] ?]
  | context [try_clone_file ?a ?b] => destruct (try_clone_file a b) as [[[]|] ?]
  end; cbn in E; try done;
  match type of E with context [spawn_child ?a ?b] => destruct (spawn_child a b) as [[?|] ?] eqn:Es end;
  cbn in E; try done; injection E as <- <-; by eapply spawn_child_alive.
Qed.

Lemma spawn_supervised_ok c policy process s g pid s' g' :
  sup_ok s -> Qemu ∈ task_controllers s ->
  spawn_supervised_qemu_process_with_state io_text state_json_text c policy process Qemu s g = (Ok pid, s', g') ->
  grown [Qemu] s s' /\ ready_at s' Qemu /\ alive g' pid = true.
Proof.
  intros Hok Hin. unfold spawn_supervised_qemu_process_with_state, mark_starting, mark_ready.
  rewrite bool_decide_true by done. cbn [negb].
  destruct (set_status_grown Qemu Starting s Hok Hin) as (s1 & -> & Hg1 & _).
  destruct (spawn_qemu_process process g) as [[p|e] g1] eqn:Es; [|done].
  destruct (write_launch_state _ _ _ _ _ _ g1) as [[[]|e] g2] eqn:Ew; [|done].
  destruct (set_status_grown Qemu Ready s1) as (s2 & -> & Hg2 & Hr); [apply Hg1|by rewrite (gr_names _ _ _ Hg1)|].
  intros [= <- <- <-]. split_and!; [by eapply grown_trans|auto|].
  rewrite (write_launch_state_alive _ _ _ _ _ _ _ _ _ Ew). by eapply spawn_qemu_alive.
Qed.

(** What a launch that starts has. *)
Lemma launch_start_ok c ms policy events g services s pid g' :
  launch_start io_text state_json_text status_text c ms policy events g = Ret (Ok (services, s, pid), g') ->
  sup_ok s /\ task_controllers s = map sv_name services ++ [Qemu] /\ map sv_name services = map fst (service_plan policy) /\
  (forall name, name ∈ task_controllers s -> ready_at s name) /\ alive g' pid = true.
Proof.
  unfold launch_start. destruct (prepare_host _ _ _ _ _ _ _) as [[[]|e] g1]; [|done].
  destruct (supervisor_plan_with_policy c policy) as [plan|] eqn:Ep; [|done]. cbn [exec_bind].
  pose proof (plan_tasks _ _ _ Ep) as Hnames. pose proof (supervisor_new_ok plan) as Hok.
  pose proof (so_names _ Hok) as Hnd. rewrite Hnames in Hnd. apply NoDup_app in Hnd as (Hnd & Hdis & _).
  destruct (start_services io_text events _ _) as [[svs|e] s1] eqn:Es; [|done].
  apply start_services_ok in Es as (Hsv & Hg & Hr); [|done|done|rewrite Hnames; set_solver].
  destruct (plan_qemu plan) as [| | |process]; [done..|].
  assert (Qemu ∈ task_controllers s1) as Hq by (rewrite (gr_names _ _ _ Hg), Hnames; set_solver).
  rewrite required_controller by done.
  destruct (spawn_supervised_qemu_process_with_state _ _ _ _ _ _ _ _) as [[[p|e] s2] g2] eqn:Eq; [|done].
  apply spawn_supervised_ok in Eq as (Hg2 & Hr2 & Ha); [|apply Hg|done]. intros [= <- <- <- <-].
  assert (task_controllers s2 = map sv_name svs ++ [Qemu]) as Hc
    by (rewrite (gr_names _ _ _ Hg2), (gr_names _ _ _ Hg), Hnames, Hsv; done).
  split_and!; [apply Hg2|done|done| |done]. intros n. rewrite Hc, Hsv. intros [Hn|Hn%list_elem_of_singleton]%elem_of_app.
  - apply (gr_ready _ _ _ Hg2); [by apply Hdis|by apply Hr].
  - by subst.
Qed.


(** C2 (safety). A launch that has started, whatever QEMU, the services and the clients
    of the control socket do, ends with QEMU dead and every task in a final status,
    unless a call on the child process failed or the task that monitors a service panicked;
    the exit it reports is that of the child. *)
Theorem launch_leaves_nothing_running c ms policy events g services s pid g' qemu_timeout l r :
  launch_start io_text state_json_text status_text c ms policy events g = Ret (Ok (services, s, pid), g') ->
  rtc (lifecycle_step io_text state_json_text status_text c policy qemu_timeout Qemu) (lifecycle_start services s g') l ->
  lc_phase l = Over r -> lc_faults l = [] ->
  Forall (fun t => is_terminal (tr_status t) = true) (task_statuses (lc_sup l)) /\
  exists st, lc_child l = Dead st /\ forall exit, r = Ok exit -> exit_status exit = st.
Proof.
  intros (Hok & Hc & Hsv & _ & _)%launch_start_ok Hst Hp Hf.
  assert (lifecycle_ok (task_controllers s) (lifecycle_start services s g')) as Hinit.
  { split; cbn; [done|done|done|rewrite Hc; set_solver| |done].
    intros n r0 []%elem_of_nil. }
  pose proof (steps_ok _ _ _ _ _ _ _ _ _ Hinit Hst) as Hl. pose proof (lo_phase _ _ Hl) as Hph.
  unfold phase_ok in Hph. rewrite Hp in Hph. destruct (Hph Hf) as [[Hq Hall] Hex]. split; [|done].
  apply Forall_forall. intros t Ht. assert (tr_name t ∈ task_controllers s) as Hin.
  { rewrite <- (lo_names _ _ Hl), <- results_names. by apply list_elem_of_fmap_2. }
  rewrite (lo_services _ _ Hl) in Hin. apply elem_of_app in Hin as [Hin|Hin%list_elem_of_singleton]; [by eapply Hall|by eapply Hq].
Qed.

(** When a launch starts, every task of the supervisor is ready, the
    services are the two file systems, the network and, when the policy has a Docker
    listener, its proxy, and the child runs. *)
Theorem launch_starts_ready c ms policy events g services s pid g' :
  launch_start io_text state_json_text status_text c ms policy events g = Ret (Ok (services, s, pid), g') ->
  Forall (fun t => tr_status t = Ready) (task_statuses s) /\
  map tr_name (task_statuses s) = map fst (service_plan policy) ++ [Qemu] /\ alive g' pid = true.
Proof.
  intros (Hok & Hc & Hsv & Hr & Ha)%launch_start_ok. split_and!; [|rewrite results_names, Hc, Hsv; done|done].
  apply Forall_forall. intros t Ht. apply (Hr (tr_name t)); [|done|done].
  rewrite <- results_names. by apply list_elem_of_fmap_2.
Qed.

(** When the state file cannot be written after QEMU was spawned, the launch
    fails and the child still runs; its status stays at the start. *)
Theorem qemu_abandoned c policy process s g pid g1 e g' :
  sup_ok s -> Qemu ∈ task_controllers s ->
  spawn_qemu_process process g = (Ok pid, g1) ->
  write_launch_state state_json_text c "running" (Some pid) None (Some policy) g1 = (Err e, g') ->
  exists s', spawn_supervised_qemu_process_with_state io_text state_json_text c policy process Qemu s g = (Err e, s', g') /\
    alive g' pid = true /\ task_status s' Qemu = Some Starting.
Proof.
  intros Hok Hin Hs Hw. unfold spawn_supervised_qemu_process_with_state, mark_starting, status_update.
  rewrite bool_decide_true by done. cbn [negb].
  destruct (set_status_ok Qemu Starting s Hok Hin) as (s' & -> & Hok' & _ & Hst & _ & Hc). cbn [fst snd map_err].
  rewrite Hs, Hw. exists s'. split_and!; [done| |].
  - rewrite (write_launch_state_alive _ _ _ _ _ _ _ _ _ Hw). by eapply spawn_qemu_alive.
  - destruct (task_status_elem s' Qemu Hok') as (st & -> & Hall); [by rewrite Hc|].
    assert (mkTaskResult Qemu Starting ∈ task_statuses s') as Hi.
    { rewrite Hst. rewrite <- results_names in Hin. apply list_elem_of_fmap in Hin as (r & Hr & Hrin).
      apply list_elem_of_fmap. exists r. split; [|done]. unfold with_status. by rewrite bool_decide_true. }
    apply Hall in Hi; [|done]. by injection Hi as <-.
Qed.

(** A state disk that [mkfs.ext4] could not format is accepted, as it is, by
    the next launch. *)
Theorem unformatted_disk_accepted path g message g' :
  ensure_state_disk status_text path g = (Err (Artifact message), g') ->
  ensure_state_disk status_text path g' = (Ok tt, g') /\ formatted g' path = false.
Proof.
  unfold ensure_state_disk at 1. destruct (path_exists g path); [done|]. unfold then_ at 1.
  destruct (match parent path with Some _ => _ | None => _ end) as [[[]|e] g1] eqn:E0.
  2: { destruct (parent path); [|done]. unfold launch_io in E0. destruct (create_dir_all g s) as [[]]; cbn in E0; by simplify_eq. }
  unfold then_, launch_io. destruct (file_create g1 path) as [[[]|] g2] eqn:E1; [|done]. cbn.
  destruct (set_len g2 path _) as [[[]|] g3] eqn:E2; [|done]. cbn.
  destruct (mkfs_ext4 g3 path) as [[st|] g4] eqn:E3; [|done]. cbn.
  destruct (success st) eqn:Es; [done|]. intros [= _ <-].
  destruct (file_create_made _ _ _ E1) as [Hx1 Hf1]. destruct (set_len_kept _ _ _ _ _ E2) as [Hx2 Hf2].
  unfold ensure_state_disk. rewrite (mkfs_kept _ _ _ _ E3), Hx2, Hx1. split; [done|].
  rewrite (mkfs_failed _ _ _ _ E3), Hf2; [done|]. intros [= ->]. done.
Qed.

End HostFacts.

(** ** Services that are cancelled *)

Section CancelFacts.
Context `{Ipv4NetOps} `{Watches} `{!WatchLaws}.

Definition status_is (s : LaunchSupervisor) (name : SupervisorTaskName) (st : SupervisorTaskStatus) : Prop :=
  forall r, r ∈ task_statuses s -> tr_name r = name -> tr_status r = st.

Lemma cancel_services_set services skip why s services' s' name :
  sup_ok s -> map sv_name services ⊆ task_controllers s ->
  cancel_unfinished_services services skip why s = (services', s') ->
  sup_ok s' /\ task_controllers s' = task_controllers s /\
  (status_is s name (Cancelled why) \/ (name ∈ map sv_name services /\ Some name <> skip) -> status_is s' name (Cancelled why)).
Proof.
  revert s services' s'. induction services as [|sv rest IH]; intros s services' s' Hok Hsub; cbn [cancel_unfinished_services].
  { intros [= <- <-]. split_and!; [done|done|]. intros [?|[?%elem_of_nil _]]; done. }
  cbn in Hsub. destruct (decide (Some (sv_name sv) = skip)) as [Hs|Hs].
  - rewrite bool_decide_true by done. destruct (cancel_unfinished_services rest skip why s) as [rest' s1] eqn:E.
    intros [= <- <-]. apply IH in E as (Hok1 & Hc1 & Hset); [|done|set_solver]. split_and!; [done|done|].
    intros [?|[[->|?]%elem_of_cons ?]]; [auto|done|auto].
  - rewrite bool_decide_false by done. cbn zeta. cbn [sv_name]. unfold mark_cancelled.
    destruct (set_status_ok (sv_name sv) (Cancelled why) s Hok) as (s1 & -> & Hok1 & _ & Hs1 & _ & Hc1); [set_solver|].
    cbn [snd]. destruct (cancel_unfinished_services rest skip why s1) as [rest' s2] eqn:E. intros [= <- <-].
    apply IH in E as (Hok2 & Hc2 & Hset); [|done|rewrite Hc1; set_solver]. split_and!; [done|congruence|].
    assert (status_is s name (Cancelled why) \/ name = sv_name sv -> status_is s1 name (Cancelled why)) as Hset1.
    { intros Hor r Hr Hn. rewrite Hs1 in Hr. apply with_status_elem in Hr as [->|[Hr Hne]]; [done|].
      destruct Hor as [Hor|Hor]; [by apply Hor|congruence]. }
    intros [?|[[->|?]%elem_of_cons ?]]; auto.
Qed.

(** When a service ends, the status of every other service is overwritten
    with a cancellation, also that of one that had failed: its cause is lost. *)
Theorem failure_overwritten services first why s services' s' name cause :
  sup_ok s -> map sv_name services ⊆ task_controllers s ->
  name ∈ map sv_name services -> name <> first -> task_status s name = Some (Failed cause) ->
  cancel_unfinished_services services (Some first) why s = (services', s') ->
  task_status s' name = Some (Cancelled why).
Proof.
  intros Hok Hsub Hin Hne _ E. eapply (cancel_services_set _ _ _ _ _ _ name) in E as (Hok' & Hc & Hset); [|done|done].
  destruct (task_status_elem s' name Hok') as (st & -> & Hall); [rewrite Hc; set_solver|].
  assert (name ∈ map tr_name (task_statuses s')) as Hi by (rewrite results_names, Hc; set_solver).
  apply list_elem_of_fmap in Hi as (r & Hr & Hi). pose proof (Hall r Hi (eq_sym Hr)) as ->.
  f_equal. assert (status_is s' name (Cancelled why)) as Hs by (apply Hset; right; split; [done|congruence]).
  exact (Hs _ Hi eq_refl).
Qed.

End CancelFacts.

(** ** Waiting for a path *)

Section WaitFacts.
Context {K : Type} (path_there : K -> string -> bool) (now : K -> Z) (sleep : K -> Z -> K).
(** A sleep takes at least its duration. *)
Context (sleep_now : forall k d, 0 <= d -> now k + d <= now (sleep k d)).

Lemma wait_loop_ends fuel k path deadline step :
  0 < step -> (0 < fuel)%nat -> deadline - now k <= (Z.of_nat fuel - 1) * step ->
  exists r k', wait_for_path_loop path_there now sleep fuel k path deadline step = Ret (r, k') /\
    match r with Ok _ => path_there k' path = true | Err _ => path_there k' path = false /\ deadline <= now k' end.
Proof.
  intros Hs. revert k. induction fuel as [|fuel IH]; intros k Hpos Hf; [lia|]. cbn [wait_for_path_loop].
  destruct (path_there k path) eqn:Ep; [by eexists _, _|]. destruct (deadline <=? now k) eqn:Ed; b2p; [by eexists _, _|].
  assert (0 < fuel)%nat by (destruct fuel; lia). replace (Z.of_nat (S fuel) - 1) with (Z.of_nat fuel) in Hf by lia.
  pose proof (sleep_now k (Z.min step (deadline - now k)) ltac:(lia)). apply IH; [done|].
  destruct (Z.min_spec step (deadline - now k)) as [[? E]|[? E]]; rewrite E in *; nia.
Qed.

(** The wait for a service's socket ends: with success when the path is
    there, and with the timeout error only when it is not and the time is over. *)
Theorem wait_for_path_ends k path timeout :
  0 <= timeout ->
  exists r k', wait_for_path path_there now sleep k path timeout = Ret (r, k') /\
    match r with Ok _ => path_there k' path = true | Err _ => path_there k' path = false /\ now k + timeout <= now k' end.
Proof.
  intros Ht. unfold wait_for_path, wait_fuel. apply wait_loop_ends; [done|lia|].
  unfold SOCKET_WAIT_STEP. pose proof (Z.div_mod timeout 20). pose proof (Z.mod_pos_bound timeout 20 eq_refl).
  pose proof (Z.div_pos timeout 20). lia.
Qed.

End WaitFacts.

(** ** Witnesses *)

Section Demo.

#[local] Existing Instance Supervisor.cells.
#[local] Existing Instance Supervisor.cells_laws.
#[local] Existing Instance RuntimeManifest.demo_json.

(** A host with files, the ones that are formatted, its children, how many files may
    still be written, and whether [mkfs.ext4] succeeds. *)
Record host := mkHost {
  h_files : list string; h_formatted : list string; h_children : list Z; h_writes : nat; h_mkfs : bool }.

Definition with_file (g : host) (p : string) : host :=
  mkHost (p :: h_files g) (h_formatted g) (h_children g) (pred (h_writes g)) (h_mkfs g).

#[local] Instance host_fs : LaunchFs host := {|
  create_dir_all g p := (Ok tt, g);
  path_exists g p := bool_decide (p ∈ h_files g);
  path_is_dir g p := Ok (bool_decide (p = "/home/u/p"));
  write_file g p bs := if bool_decide (h_writes g = 0%nat) then (Err (OsError 28), g) else (Ok tt, with_file g p);
  written g := []
|}.

#[local] Instance host_os : LaunchOs host := {|
  file_create g p :=
    (Ok tt, mkHost (p :: h_files g) (filter (.≠ p) (h_formatted g)) (h_children g) (h_writes g) (h_mkfs g));
  set_len g p n := (Ok tt, g);
  mkfs_ext4 g p :=
    if h_mkfs g
    then (Ok (Exited 0), mkHost (h_files g) (p :: h_formatted g) (h_children g) (h_writes g) (h_mkfs g))
    else (Ok (Exited 1), g);
  remove_file g p := (Err (OsError ENOENT), g);
  try_clone_file g p := (Ok tt, g);
  bind_socket g p := (Ok tt, g);
  spawn_child g p := (Ok 42, mkHost (h_files g) (h_formatted g) (42 :: h_children g) (h_writes g) (h_mkfs g));
  formatted g p := bool_decide (p ∈ h_formatted g);
  alive g pid := bool_decide (pid ∈ h_children g)
|}.

#[local] Instance host_laws : LaunchOsLaws host.
Proof.
  split; cbn.
  - intros g p g' [= <-]. cbn. split; [apply bool_decide_eq_true; by left|].
    apply bool_decide_eq_false. by intros [? _]%list_elem_of_filter.
  - by intros g p n r g' [= _ <-].
  - intros g p r g'. by destruct (h_mkfs g); intros [= _ <-].
  - intros g p r g'. destruct (h_mkfs g); by intros [= <- <-].
  - intros g p g'. destruct (h_mkfs g); intros [= <-]. cbn. apply bool_decide_eq_true. by left.
  - intros g p pid g' [= <- <-]. cbn. apply bool_decide_eq_true. by left.
  - by intros g p r g' pid [= _ <-].
  - intros g p bs r g' pid. by case_bool_decide; intros [= _ <-].
Qed.

Definition demo_policy : VmnetPolicy :=
  mkPolicy GuestNetwork_default 1500 (mkEgress Deny DenyByDefault [] [] []) ProtocolPolicy_default []
    CapturePolicy_default TlsMitmPolicy_default.

Definition no_io_text (e : io_error) : string := "".
Definition demo_state_text (s : LaunchState) : result (list byte) string := Ok [].
Definition demo_status_text (st : ExitStatus) : string := "".
Definition all_ready (name : SupervisorTaskName) : readiness := PathWait (Ok tt).

Definition demo_host : host := mkHost ["/home/u/p"] [] [] 20 true.

Definition demo_start : exec (result (list SupervisedService * LaunchSupervisor * Z) LaunchError * host) :=
  launch_start no_io_text demo_state_text demo_status_text demo_config (workspace_mounts "/home/u/p") demo_policy
    all_ready demo_host.

Lemma demo_start_ok : exists services s pid g', demo_start = Ret (Ok (services, s, pid), g').
Proof.
  destruct demo_start as [[[[[services s] pid]|e] g']|] eqn:E; [by eexists _, _, _, _| |].
  - apply (f_equal (fun x => match x with Ret (Ok _, _) => true | _ => false end)) in E. vm_compute in E. done.
  - apply (f_equal (fun x => match x with Ret (Ok _, _) => true | _ => false end)) in E. vm_compute in E. done.
Qed.

(** QEMU exits with 0, and the lifecycle sees it. *)
Lemma launch_leaves_nothing_running_witness :
  exists services s pid g' l r, demo_start = Ret (Ok (services, s, pid), g') /\ lc_phase l = Over r /\
    lc_child (G := host) l = Dead (Exited 0) /\
    Forall (fun t => is_terminal (tr_status t) = true) (task_statuses (lc_sup l)).
Proof.
  destruct demo_start_ok as (services & s & pid & g' & E).
  set (l1 := mkLifecycle s services (map sv_name services) [] (Dead (Exited 0)) Selecting g' []).
  set (l2 := qemu_exited demo_state_text demo_status_text demo_config demo_policy Qemu l1 (mkQemuExit (Exited 0) false)).
  assert (rtc (lifecycle_step no_io_text demo_state_text demo_status_text demo_config demo_policy None Qemu)
    (lifecycle_start services s g') l2) as Hst.
  { eapply rtc_l; [apply (child_exits _ _ _ _ _ _ _ (lifecycle_start services s g') (Exited 0)); reflexivity|].
    apply rtc_once. apply lifecycle_goes. by apply select_exit. }
  destruct (qemu_exited_over demo_state_text demo_status_text demo_config demo_policy l1 (mkQemuExit (Exited 0) false))
    as ([r Hr] & Hf & Hd). fold l2 in Hr, Hf, Hd.
  exists services, s, pid, g', l2, r. split; [exact E|]. split; [exact Hr|]. split; [exact Hd|].
  exact (proj1 (launch_leaves_nothing_running _ _ _ _ _ _ _ _ _ _ _ _ None l2 r E Hst Hr Hf)).
Defined.

Definition demo_process : ProcessSpec := mkProcess "qemu" [] "/run/qemu.log".
Definition full_host : host := mkHost [] [] [] 0 true.
Definition running_host : host := mkHost ["/run/qemu.log"] [] [42] 0 true.

Example qemu_abandoned_example :
  exists e s', spawn_supervised_qemu_process_with_state no_io_text demo_state_text demo_config demo_policy demo_process
      Qemu demo_supervisor full_host = (Err e, s', running_host) /\
    alive running_host 42 = true /\ task_status s' Qemu = Some Starting.
Proof.
  exists (LaunchIo (OsError 28)).
  apply (qemu_abandoned no_io_text demo_state_text demo_config demo_policy demo_process demo_supervisor full_host 42
    running_host (LaunchIo (OsError 28)) running_host).
  - apply supervisor_new_ok.
  - refine (bool_decide_unpack _ _). vm_compute. exact I.
  - reflexivity.
  - reflexivity.
Defined.

Definition bad_mkfs : host := mkHost [] [] [] 0 false.
Definition bad_disk : host := mkHost ["/state.ext4"] [] [] 0 false.

Definition two_services : list SupervisedService := [mkService ComposedFs None; mkService ConfigFs None].
Definition config_failed : LaunchSupervisor := (mark_failed ConfigFs "no space" demo_supervisor).2.

(** A clock in milliseconds, on which the path appears at 50. *)
End Demo.
End Launch.
