(* ===== verification/CliText.v ===== *)
(** Text of the command line (src/vm-frontend/src/cli_main.rs): pairs of ports,
    addresses, paths, and the shell scripts the launcher builds.

    shlex is an interface. The theorems: a pair of ports is read back from its text,
    and the shell reads a configured command as exactly its words. *)

From stdpp Require Import base option list numbers strings.
From Stdlib Require Import ZArith Lia Ascii String.
From S2P Require Import Prelude RustIo RustStr FsPath.

Local Open Scope string_scope.
Local Open Scope Z_scope.

Module CliText.
Import FsPath.

(** [str::split_once] and [str::rsplit_once]. *)
Fixpoint split_once (c : ascii) (s : string) : option (string * string) :=
  match s with
  | EmptyString => None
  | String a rest =>
      if decide (a = c) then Some ("", rest)
      else match split_once c rest with Some (l, r) => Some (String a l, r) | None => None end
  end.

Fixpoint rsplit_once (c : ascii) (s : string) : option (string * string) :=
  match s with
  | EmptyString => None
  | String a rest =>
      match rsplit_once c rest with
      | Some (l, r) => Some (String a l, r)
      | None => if decide (a = c) then Some ("", rest) else None
      end
  end.

Definition parse_u16 (s : string) : option Z := from_str_radix 10 u16_max s.
Definition parse_u64 (s : string) : option Z := from_str_radix 10 u64_max s.

Definition parse_ip_port (value : string) : result (Ipv4Addr * Z) string :=
  let? (ip, port) := ok_or (rsplit_once ":" value) "expected IP:PORT" in
  let? ip := ok_or (parse_ipv4_addr ip) ("invalid IPv4 address in " ++ value) in
  let? port := ok_or (parse_u16 port) ("invalid port in " ++ value) in
  Ok (ip, port).

Definition parse_port_pair (value : string) : result (Z * Z) string :=
  let? (host_port, guest_port) := ok_or (split_once ":" value) "expected HOST_PORT:GUEST_PORT" in
  let? host := ok_or (parse_u16 host_port) ("invalid host port in " ++ value) in
  let? guest := ok_or (parse_u16 guest_port) ("invalid guest port in " ++ value) in
  Ok (host, guest).

Record PortPair := mkPortPair { host : Z; guest : Z }.

Definition PortPair_to_string (p : PortPair) : string := show_usize (host p) ++ ":" ++ show_usize (guest p).

Definition PortPair_from_str (value : string) : result PortPair string :=
  let? (h, g) := parse_port_pair value in Ok (mkPortPair h g).

Section Paths.
(** The variable [HOME], the working directory and the text of an error. *)
Context (home : option string) (current_dir : io_result string) (io_text : io_error -> string).

Definition host_home_dir : result string string :=
  match home with
  | Some path =>
      if is_absolute path then Ok path
      else Err "HOME must be set to an absolute path for guest state sharing"
  | None => Err "HOME must be set to an absolute path for guest state sharing"
  end.

Definition absolute_cli_path (value : string) : result string string :=
  if is_absolute value then Ok value
  else
    match current_dir with
    | Ok cwd => Ok (path_join cwd value)
    | Err error => Err ("failed to resolve " ++ value ++ ": " ++ io_text error)
    end.

End Paths.

(** ** Scripts *)

(** A double quote and a backslash. *)
Definition dq : string := String (ascii_of_N 34) EmptyString.
Definition bs : string := String (ascii_of_N 92) EmptyString.

(** [str::replace] of one character. *)
Fixpoint replace_char (c : ascii) (by_ s : string) : string :=
  match s with
  | EmptyString => ""
  | String a rest => (if decide (a = c) then by_ else String a "") ++ replace_char c by_ rest
  end.

Definition toml_basic_string (value : string) : string :=
  dq ++ replace_char (ascii_of_N 34) (bs ++ dq) (replace_char (ascii_of_N 92) (bs ++ bs) value) ++ dq.

(** [shlex::try_quote], which refuses a NUL byte, and [shlex::split], how a shell
    splits a line into words. *)
Class Shlex := {
  try_quote : string -> option string;
  sh_split : string -> option (list string)
}.

Fixpoint alphanumeric (s : string) : bool :=
  match s with
  | EmptyString => true
  | String a rest =>
      let n := Z.of_N (N_of_ascii a) in
      ((48 <=? n) && (n <=? 57) || (65 <=? n) && (n <=? 90) || (97 <=? n) && (n <=? 122)) && alphanumeric rest
  end.

(** Words that need no quotes stay as they are, and quoted words with spaces between
    them are split into the words. *)
Class ShlexLaws `{Shlex} : Prop := {
  try_quote_nul s : try_quote s = None <-> contains_char NUL s = true;
  try_quote_plain s : s <> "" -> alphanumeric s = true -> try_quote s = Some s;
  sh_split_quoted words quoted :
    Forall2 (fun w q => try_quote w = Some q) words quoted -> sh_split (join " " quoted) = Some words
}.

Section Scripts.
Context `{Shlex}.

Definition shell_quote (value : string) : exec string :=
  match try_quote value with Some q => Ret q | None => Panic end.

(** [ConfigCommand] of config.rs. *)
Record ConfigCommand := mkCommand { command : string; args : list string }.

Definition ConfigCommand_new (c : string) : ConfigCommand := mkCommand c [].

Fixpoint push_args (script : string) (rest : list string) : exec string :=
  match rest with
  | [] => Ret script
  | arg :: rest => let! q := shell_quote arg in push_args (script ++ " " ++ q) rest
  end.

Definition payload_script_from_config_command (c : ConfigCommand) : exec string :=
  let! q := shell_quote (command c) in
  push_args ("exec " ++ q) (args c).

Definition in_dq (s : string) : string := dq ++ s ++ dq.

Definition mise_exec_script (mise_config_path missing_mise_message final_script : string) : exec string :=
  let mise_dir := default "/" (parent mise_config_path) in
  let! config := shell_quote mise_config_path in
  let! dir := shell_quote mise_dir in
  let! missing := shell_quote missing_mise_message in
  let! inner := shell_quote ("cd " ++ in_dq "$1" ++ " && shift && exec /bin/sh -c " ++ in_dq "$1") in
  let! final := shell_quote final_script in
  Ret (join " && "
    ["export AGENTVM_MISE_CONFIG=" ++ config;
     "export AGENTVM_MISE_DIR=" ++ dir;
     "export MISE_TRUSTED_CONFIG_PATHS=" ++
       in_dq "$AGENTVM_MISE_CONFIG${MISE_TRUSTED_CONFIG_PATHS:+:$MISE_TRUSTED_CONFIG_PATHS}";
     "export MISE_YES=true MISE_TERMINAL_PROGRESS=false NPM_CONFIG_PROGRESS=false NPM_CONFIG_AUDIT=false " ++
       "NPM_CONFIG_FUND=false NPM_CONFIG_MAXSOCKETS=1 NPM_CONFIG_FETCH_RETRIES=5 " ++
       "NPM_CONFIG_FETCH_RETRY_MINTIMEOUT=2000 NPM_CONFIG_FETCH_RETRY_MAXTIMEOUT=20000";
     "if ! command -v mise >/dev/null 2>&1; then printf '%s" ++ bs ++ "n' " ++ missing ++ " >&2; exit 127; fi";
     "if [ ! -f " ++ in_dq "$AGENTVM_MISE_CONFIG" ++ " ]; then printf '%s" ++ bs ++ "n' " ++
       in_dq "agentvm: missing mise config $AGENTVM_MISE_CONFIG" ++ " >&2; exit 1; fi";
     "hash -r 2>/dev/null || true";
     "exec mise -C " ++ in_dq "$AGENTVM_MISE_DIR" ++ " exec -- sh -c " ++ inner ++ " sh " ++ in_dq "$PWD" ++ " " ++ final]).

End Scripts.

(** ** Pairs of ports *)

Lemma from_str_radix_show max n : 0 <= n <= max -> from_str_radix 10 max (show_usize n) = Some n.
Proof.
  intros Hn. pose proof (parse_digits_show max n Hn) as Hp. unfold from_str_radix.
  pose proof (parse_digits_contains "+" max 0 (show_usize n) n eq_refl Hp) as Hc.
  destruct (show_usize n) as [|a s] eqn:E.
  - cbn in Hp. injection Hp as <-. by vm_compute in E.
  - cbn in Hc. destruct (decide (a = "+"%char)); [done|exact Hp].
Qed.

Lemma to_digit_nonneg a d : to_digit 10 a = Some d -> 0 <= d.
Proof. unfold to_digit. cbv zeta. repeat case_test; intros [= <-]; lia. Qed.

Lemma parse_digits_range max acc s n :
  0 <= acc -> acc <= max -> parse_digits 10 max acc s = Some n -> 0 <= n <= max.
Proof.
  revert acc. induction s as [|a s IH]; intros acc H0 Hm; cbn [parse_digits]; [intros [= <-]; lia|].
  destruct (to_digit 10 a) as [d|] eqn:Ed; [|done]. apply to_digit_nonneg in Ed. cbv zeta. case_test; [done|].
  apply IH; lia.
Qed.

Lemma from_str_radix_range max s n : 0 <= max -> from_str_radix 10 max s = Some n -> 0 <= n <= max.
Proof.
  intros Hm. unfold from_str_radix. destruct s as [|a s]; [done|].
  destruct (decide (a = "+"%char)); [destruct s; [done|]|]; by apply parse_digits_range.
Qed.

Lemma split_once_app c s t : contains_char c s = false -> split_once c (s ++ String c t) = Some (s, t).
Proof.
  induction s as [|a s IH]; intros Hs.
  - change (("" ++ String c t)%string) with (String c t). cbn [split_once]. destruct (decide (c = c)); done.
  - rewrite str_cons_app. cbn [split_once contains_char] in *. destruct (decide (a = c)); [done|]. by rewrite (IH Hs).
Qed.

(** The text of a pair of ports is read back. *)
Theorem port_pair_roundtrip p :
  0 <= host p <= u16_max -> 0 <= guest p <= u16_max -> PortPair_from_str (PortPair_to_string p) = Ok p.
Proof.
  intros Hh Hg. unfold PortPair_from_str, PortPair_to_string, parse_port_pair, parse_u16.
  change (":" ++ show_usize (guest p)) with (String ":" (show_usize (guest p))).
  rewrite split_once_app by (eapply parse_digits_contains; [done|by apply (parse_digits_show u16_max)]). cbn [ok_or result_bind].
  rewrite !from_str_radix_show by done. by destruct p.
Qed.

(** ** Scripts *)

Section ScriptFacts.
Context `{ShlexLaws}.

Lemma push_args_spec script rest :
  match push_args script rest with
  | Ret r => exists quoted, Forall2 (fun w q => try_quote w = Some q) rest quoted /\
      r = foldl (fun s q => s ++ " " ++ q) script quoted
  | Panic => Exists (fun w => contains_char NUL w = true) rest
  end.
Proof.
  revert script. induction rest as [|w rest IH]; intros script; cbn [push_args].
  { exists []. split; [constructor|done]. }
  unfold shell_quote. destruct (try_quote w) as [q|] eqn:E; cbn [exec_bind].
  - specialize (IH (script ++ " " ++ q)). destruct (push_args (script ++ " " ++ q) rest) as [r|].
    + destruct IH as (qs & Hqs & ->). exists (q :: qs). split; [by constructor|done].
    + by apply Exists_cons_tl.
  - apply Exists_cons_hd. by apply try_quote_nul.
Qed.

Lemma foldl_join s qs : foldl (fun s q => s ++ " " ++ q) s qs = join " " (s :: qs).
Proof.
  revert s. induction qs as [|q qs IH]; intros s; [done|]. cbn [foldl]. rewrite IH. cbn [join].
  destruct qs; by rewrite <- ?str_app_assoc.
Qed.

(** The script of a configured command is split by the shell into [exec],
    the command and its arguments, whatever characters they contain; it cannot be built,
    and the launcher panics, exactly when one of them holds a NUL byte. *)
Theorem payload_script_words c :
  match payload_script_from_config_command c with
  | Ret script =>
      sh_split script = Some ("exec" :: command c :: args c) /\
      Forall (fun w => contains_char NUL w = false) (command c :: args c)
  | Panic => Exists (fun w => contains_char NUL w = true) (command c :: args c)
  end.
Proof.
  unfold payload_script_from_config_command, shell_quote. destruct (try_quote (command c)) as [q|] eqn:E; cbn [exec_bind].
  - pose proof (push_args_spec ("exec " ++ q) (args c)) as Hp. destruct (push_args ("exec " ++ q) (args c)).
    + destruct Hp as (qs & Hqs & ->). rewrite foldl_join.
      replace (join " " (("exec " ++ q) :: qs)) with (join " " ("exec" :: q :: qs)) by (destruct qs; done).
      split; [apply sh_split_quoted; constructor; [by apply try_quote_plain|by constructor]|].
      apply (Forall2_Forall_l (fun w q => try_quote w = Some q) _ _ (q :: qs)); [by constructor|].
      apply Forall_forall. intros q' _ w Hw. apply not_true_iff_false. intros Hn%try_quote_nul. congruence.
    + by apply Exists_cons_tl.
  - apply Exists_cons_hd. by apply try_quote_nul.
Qed.

End ScriptFacts.

(** ** TOML strings *)

(** What a TOML basic string with these escapes stands for. *)
Fixpoint toml_unescape (s : string) : option string :=
  match s with
  | EmptyString => None
  | String a rest =>
      if decide (a = ascii_of_N 34) then match rest with EmptyString => Some "" | _ => None end
      else if decide (a = ascii_of_N 92) then
        match rest with
        | String b rest =>
            if decide (b = ascii_of_N 34 \/ b = ascii_of_N 92) then String b <$> toml_unescape rest else None
        | EmptyString => None
        end
      else String a <$> toml_unescape rest
  end.

Lemma replace_char_app c by_ s t : replace_char c by_ (s ++ t) = replace_char c by_ s ++ replace_char c by_ t.
Proof.
  induction s as [|a s IH]; [done|]. rewrite str_cons_app. cbn [replace_char]. by rewrite IH, str_app_assoc.
Qed.

Lemma unescape_bs t : toml_unescape ((bs ++ bs) ++ t) = String (ascii_of_N 92) <$> toml_unescape t.
Proof. reflexivity. Qed.

Lemma unescape_dq t : toml_unescape ((bs ++ dq) ++ t) = String (ascii_of_N 34) <$> toml_unescape t.
Proof. reflexivity. Qed.

(** The text of a value in mise.toml stands for the value: quotes and backslashes are
    escaped. *)
Theorem toml_basic_string_roundtrip value :
  exists body, toml_basic_string value = dq ++ body /\ toml_unescape body = Some value.
Proof.
  eexists. split; [reflexivity|]. induction value as [|a s IH]; [done|]. cbn [replace_char].
  rewrite replace_char_app, str_app_assoc. destruct (decide (a = ascii_of_N 92)) as [->|Hb].
  - change (replace_char (ascii_of_N 34) (bs ++ dq) (bs ++ bs)) with (bs ++ bs). by rewrite unescape_bs, IH.
  - cbn [replace_char]. destruct (decide (a = ascii_of_N 34)) as [->|Hq].
    + rewrite str_app_nil, unescape_dq. by rewrite IH.
    + rewrite str_app_nil, str_cons_app. cbn [toml_unescape].
      destruct (decide (a = ascii_of_N 34)); [done|]. destruct (decide (a = ascii_of_N 92)); [done|].
      change (("" ++ ?x)%string) with x. by rewrite IH.
Qed.

(** ** Witnesses *)

Section Demo.

(** Quotes as a POSIX shell reads them: what is between single quotes stands for
    itself, and a single quote is written outside of them, after a backslash. *)
Definition quote_char : ascii := "'"%char.

Fixpoint escape (s : string) : string :=
  match s with
  | EmptyString => ""
  | String a rest =>
      (if decide (a = quote_char) then "'" ++ bs ++ "''" else String a "") ++ escape rest
  end.

Definition quoted_word (s : string) : string :=
  if bool_decide (s <> "") && alphanumeric s then s else String quote_char (escape s ++ "'").

Inductive mode := Bare | InQuotes | Escaped.

Fixpoint sh_words (s : string) (word : option string) (m : mode) : option (list string) :=
  match s with
  | EmptyString => match m with Bare => Some (option_list word) | _ => None end
  | String a rest =>
      match m with
      | Bare =>
          if decide (a = quote_char) then sh_words rest (Some (default "" word)) InQuotes
          else if decide (a = ascii_of_N 92) then sh_words rest (Some (default "" word)) Escaped
          else if decide (a = " "%char) then (fun ws => (option_list word ++ ws)%list) <$> sh_words rest None Bare
          else sh_words rest (Some (default "" word ++ String a "")) Bare
      | InQuotes =>
          if decide (a = quote_char) then sh_words rest word Bare
          else sh_words rest (Some (default "" word ++ String a "")) InQuotes
      | Escaped => sh_words rest (Some (default "" word ++ String a "")) Bare
      end
  end.

#[local] Instance posix : Shlex := {|
  try_quote s := if contains_char NUL s then None else Some (quoted_word s);
  sh_split s := sh_words s None Bare
|}.

Lemma snoc_app (w : string) a t : (w ++ String a "") ++ t = w ++ String a t.
Proof. by rewrite str_app_assoc. Qed.

Lemma words_quote t w :
  sh_words (("'" ++ bs ++ "''") ++ t) (Some w) InQuotes = sh_words t (Some (w ++ String quote_char "")) InQuotes.
Proof. reflexivity. Qed.

Lemma words_escaped t w rest : sh_words (escape t ++ String quote_char rest) (Some w) InQuotes = sh_words rest (Some (w ++ t)) Bare.
Proof.
  revert w. induction t as [|a t IH]; intros w; [by rewrite str_app_nil|]. cbn [escape]. rewrite str_app_assoc.
  destruct (decide (a = quote_char)) as [->|Ha].
  - rewrite words_quote, IH. by rewrite snoc_app.
  - rewrite str_cons_app. change (("" ++ ?x)%string) with x. cbn [sh_words]. destruct (decide (a = quote_char)); [done|]. change (default "" (Some w)) with w.
    rewrite IH. by rewrite snoc_app.
Qed.

Lemma words_plain t w rest : alphanumeric t = true -> sh_words (t ++ rest) (Some w) Bare = sh_words rest (Some (w ++ t)) Bare.
Proof.
  revert w. induction t as [|a t IH]; intros w Hp; [by rewrite str_app_nil|]. cbn [alphanumeric] in Hp.
  apply andb_true_iff in Hp as [Ha Hp]. rewrite str_cons_app. cbn [sh_words].
  destruct (decide (a = quote_char)) as [->|_]; [done|]. destruct (decide (a = ascii_of_N 92)) as [->|_]; [done|].
  destruct (decide (a = " "%char)) as [->|_]; [done|]. change (default "" (Some w)) with w. rewrite (IH _ Hp). by rewrite snoc_app.
Qed.

Lemma words_quoted t rest : sh_words (quoted_word t ++ rest) None Bare = sh_words rest (Some t) Bare.
Proof.
  unfold quoted_word. destruct (bool_decide (t <> "") && alphanumeric t) eqn:E.
  - apply andb_true_iff in E as [Ht Hp]. destruct t as [|a t]; [done|]. cbn [alphanumeric] in Hp.
    apply andb_true_iff in Hp as [Ha Hp]. rewrite str_cons_app. cbn [sh_words].
    destruct (decide (a = quote_char)) as [->|_]; [done|]. destruct (decide (a = ascii_of_N 92)) as [->|_]; [done|].
    destruct (decide (a = " "%char)) as [->|_]; [done|]. by rewrite (words_plain t _ _ Hp).
  - rewrite str_cons_app, str_app_assoc. change (("'" ++ rest)%string) with (String quote_char rest). cbn [sh_words].
    destruct (decide (quote_char = quote_char)); [|done]. by rewrite words_escaped.
Qed.

Lemma words_space t w : sh_words (" " ++ t) (Some w) Bare = (fun ws => w :: ws) <$> sh_words t None Bare.
Proof. reflexivity. Qed.

#[local] Instance posix_laws : ShlexLaws.
Proof.
  split; cbn [try_quote sh_split posix].
  - intros s. by destruct (contains_char NUL s).
  - intros s Hne Hp. assert (contains_char NUL s = false) as ->.
    { clear Hne. induction s as [|a s IH]; [done|]. cbn [alphanumeric contains_char] in *. apply andb_true_iff in Hp as [Ha Hp].
      destruct (decide (a = NUL)) as [->|_]; [done|]. by apply IH. }
    unfold quoted_word. rewrite bool_decide_true by done. by rewrite Hp.
  - intros words quoted Hq. induction Hq as [|w q words quoted Hw Hq IH]; [done|].
    destruct (contains_char NUL w); [done|]. injection Hw as <-. destruct Hq as [|w2 q2 words quoted Hw2 Hq].
    + cbn [join]. rewrite <- (str_app_nil (quoted_word w)). by rewrite words_quoted.
    + change (join " " (quoted_word w :: q2 :: quoted)) with (quoted_word w ++ " " ++ join " " (q2 :: quoted)).
      by rewrite words_quoted, words_space, IH.
Qed.

Example payload_script_words_example :
  exists script, payload_script_from_config_command (mkCommand "my tool" ["it's"; ""]) = Ret script /\
    sh_split script = Some ["exec"; "my tool"; "it's"; ""].
Proof.
  pose proof (payload_script_words (mkCommand "my tool" ["it's"; ""])) as Hw.
  destruct (payload_script_from_config_command (mkCommand "my tool" ["it's"; ""])) as [script|] eqn:E.
  - exists script. split; [reflexivity|exact (proj1 Hw)].
  - vm_compute in E. discriminate.
Defined.

End Demo.
End CliText.
