(* ===== verification/GuestCli.v ===== *)
(** The command line of the guest service (src/guest-service/src/main.rs).

    The theorems: every configuration is read back from its arguments, and what is
    accepted has a port and positive limits. *)

From stdpp Require Import base option list numbers strings.
From Stdlib Require Import ZArith Lia.
From S2P Require Import Prelude RustIo RustStr CliText VmnetServiceIo PayloadMessages GuestService.

Local Open Scope string_scope.
Local Open Scope Z_scope.

Module GuestCli.
Import CliText GuestService.

Record PayloadCliConfig := mkPayloadCli { pc_tcp_host : string; pc_tcp_port : Z; pc_limits : GuestServiceLimits }.

Record DockerBridgeCliConfig := mkBridgeCli {
  dc_tcp_host : string; dc_tcp_port : Z; dc_docker_sock : string; dc_limits : DockerBridgeLimits }.

Inductive GuestServiceCliConfig := Payload (c : PayloadCliConfig) | DockerBridge (c : DockerBridgeCliConfig).

Definition parse_usize (s : string) : option Z := from_str_radix 10 usize_max s.

(** [Duration::from_secs] of the value, in milliseconds. *)
Definition parse_seconds (s : string) : option Z := (fun n => n * 1000) <$> parse_u64 s.

(** [parse_next], once there is a value. *)
Definition parse_value {A} (parse : string -> option A) (flag value : string) : result A string :=
  ok_or (parse value) ("invalid value for " ++ flag ++ ": " ++ value).

Definition requires_a_value (flag : string) : string := flag ++ " requires a value".

(** The variables of the loops. *)
Record payload_vars := mkPayloadVars { pv_host : string; pv_port : option Z; pv_limits : GuestServiceLimits }.

Record bridge_vars := mkBridgeVars {
  bv_host : string; bv_port : option Z; bv_sock : option string; bv_limits : DockerBridgeLimits }.

Definition payload_flags : list string :=
  ["--tcp-host"; "--tcp-port"; "--max-clients"; "--max-diagnostics"; "--initial-timeout"; "--io-timeout"].

Definition set_payload (flag value : string) (v : payload_vars) : result payload_vars string :=
  let l := pv_limits v in
  if decide (flag = "--tcp-host") then Ok (mkPayloadVars value (pv_port v) l)
  else if decide (flag = "--tcp-port") then
    let? n := parse_value parse_u16 flag value in Ok (mkPayloadVars (pv_host v) (Some n) l)
  else if decide (flag = "--max-clients") then
    let? n := parse_value parse_usize flag value in
    Ok (mkPayloadVars (pv_host v) (pv_port v) (mkLimits n (max_diagnostics l) (initial_timeout l) (io_timeout l)))
  else if decide (flag = "--max-diagnostics") then
    let? n := parse_value parse_usize flag value in
    Ok (mkPayloadVars (pv_host v) (pv_port v) (mkLimits (max_clients l) n (initial_timeout l) (io_timeout l)))
  else if decide (flag = "--initial-timeout") then
    let? n := parse_value parse_seconds flag value in
    Ok (mkPayloadVars (pv_host v) (pv_port v) (mkLimits (max_clients l) (max_diagnostics l) n (io_timeout l)))
  else
    let? n := parse_value parse_seconds flag value in
    Ok (mkPayloadVars (pv_host v) (pv_port v) (mkLimits (max_clients l) (max_diagnostics l) (initial_timeout l) n)).

Definition bridge_flags : list string :=
  ["--tcp-host"; "--tcp-port"; "--docker-sock"; "--max-sessions"; "--connect-timeout"; "--io-timeout"].

Definition set_bridge (flag value : string) (v : bridge_vars) : result bridge_vars string :=
  let l := bv_limits v in
  if decide (flag = "--tcp-host") then Ok (mkBridgeVars value (bv_port v) (bv_sock v) l)
  else if decide (flag = "--tcp-port") then
    let? n := parse_value parse_u16 flag value in Ok (mkBridgeVars (bv_host v) (Some n) (bv_sock v) l)
  else if decide (flag = "--docker-sock") then Ok (mkBridgeVars (bv_host v) (bv_port v) (Some value) l)
  else if decide (flag = "--max-sessions") then
    let? n := parse_value parse_usize flag value in
    Ok (mkBridgeVars (bv_host v) (bv_port v) (bv_sock v) (mkBridgeLimits n (connect_timeout l) (bridge_io_timeout l)))
  else if decide (flag = "--connect-timeout") then
    let? n := parse_value parse_seconds flag value in
    Ok (mkBridgeVars (bv_host v) (bv_port v) (bv_sock v) (mkBridgeLimits (max_sessions l) n (bridge_io_timeout l)))
  else
    let? n := parse_value parse_seconds flag value in
    Ok (mkBridgeVars (bv_host v) (bv_port v) (bv_sock v) (mkBridgeLimits (max_sessions l) (connect_timeout l) n)).

(** The loop over the arguments: a flag of the list takes the next argument. *)
Fixpoint read_flags {V : Type} (flags : list string) (set : string -> string -> V -> result V string)
  (args : list string) (v : V) : result V string :=
  match args with
  | [] => Ok v
  | arg :: rest =>
      if bool_decide (arg ∈ flags) then
        match rest with
        | [] => Err (requires_a_value arg)
        | value :: rest => let? v := set arg value v in read_flags flags set rest v
        end
      else if bool_decide (arg = "-h" \/ arg = "--help") then Err "help requested"
      else Err ("unexpected argument: " ++ arg)
  end.

Definition payload_config_from_args (args : list string) : result PayloadCliConfig string :=
  let? v := read_flags payload_flags set_payload args (mkPayloadVars "0.0.0.0" None GuestServiceLimits_default) in
  let? port := ok_or (pv_port v) "--tcp-port is required" in
  let l := pv_limits v in
  if max_clients l =? 0 then Err "--max-clients must be positive"
  else if max_diagnostics l =? 0 then Err "--max-diagnostics must be positive"
  else if initial_timeout l =? 0 then Err "--initial-timeout must be positive"
  else if io_timeout l =? 0 then Err "--io-timeout must be positive"
  else Ok (mkPayloadCli (pv_host v) port l).

Definition docker_bridge_config_from_args (args : list string) : result DockerBridgeCliConfig string :=
  let? v := read_flags bridge_flags set_bridge args (mkBridgeVars "0.0.0.0" None None DockerBridgeLimits_default) in
  let? port := ok_or (bv_port v) "--tcp-port is required" in
  let? sock := ok_or (bv_sock v) "--docker-sock is required" in
  let l := bv_limits v in
  if max_sessions l =? 0 then Err "--max-sessions must be positive"
  else if connect_timeout l =? 0 then Err "--connect-timeout must be positive"
  else if bridge_io_timeout l =? 0 then Err "--io-timeout must be positive"
  else Ok (mkBridgeCli (bv_host v) port sock l).

Definition without_first (word : string) (args : list string) : option (list string) :=
  match args with
  | first :: rest => if decide (first = word) then Some rest else None
  | [] => None
  end.

Definition config_from_args (args : list string) : result GuestServiceCliConfig string :=
  let args := default args (without_first "payload" args) in
  match without_first "docker-bridge" args with
  | Some args => let? c := docker_bridge_config_from_args args in Ok (DockerBridge c)
  | None => let? c := payload_config_from_args args in Ok (Payload c)
  end.

(** ** The configurations *)

(** A duration that the command line can express: whole seconds, and not zero. *)
Definition whole_seconds (ms : Z) : Prop := exists s, ms = s * 1000 /\ 0 < s <= u64_max.

Definition payload_cli_ok (c : PayloadCliConfig) : Prop :=
  let l := pc_limits c in
  0 <= pc_tcp_port c <= u16_max /\ 0 < max_clients l <= usize_max /\ 0 < max_diagnostics l <= usize_max /\
  whole_seconds (initial_timeout l) /\ whole_seconds (io_timeout l).

Definition bridge_cli_ok (c : DockerBridgeCliConfig) : Prop :=
  let l := dc_limits c in
  0 <= dc_tcp_port c <= u16_max /\ 0 < max_sessions l <= usize_max /\
  whole_seconds (connect_timeout l) /\ whole_seconds (bridge_io_timeout l).

Definition cli_ok (c : GuestServiceCliConfig) : Prop :=
  match c with Payload c => payload_cli_ok c | DockerBridge c => bridge_cli_ok c end.

(** The arguments of a configuration. *)
Definition cli_args (c : GuestServiceCliConfig) : list string :=
  match c with
  | Payload c =>
      let l := pc_limits c in
      ["payload"; "--tcp-host"; pc_tcp_host c; "--tcp-port"; show_usize (pc_tcp_port c);
       "--max-clients"; show_usize (max_clients l); "--max-diagnostics"; show_usize (max_diagnostics l);
       "--initial-timeout"; show_usize (initial_timeout l / 1000); "--io-timeout"; show_usize (io_timeout l / 1000)]
  | DockerBridge c =>
      let l := dc_limits c in
      ["docker-bridge"; "--tcp-host"; dc_tcp_host c; "--tcp-port"; show_usize (dc_tcp_port c);
       "--docker-sock"; dc_docker_sock c; "--max-sessions"; show_usize (max_sessions l);
       "--connect-timeout"; show_usize (connect_timeout l / 1000); "--io-timeout"; show_usize (bridge_io_timeout l / 1000)]
  end.

Lemma parse_seconds_show ms : whole_seconds ms -> parse_seconds (show_usize (ms / 1000)) = Some ms.
Proof.
  intros (s & -> & Hs). unfold parse_seconds, parse_u64. rewrite Z.div_mul by done.
  rewrite from_str_radix_show by lia. done.
Qed.

Lemma whole_seconds_pos ms : whole_seconds ms -> (ms =? 0) = false.
Proof. intros (s & -> & Hs). apply Z.eqb_neq. lia. Qed.

Lemma parse_seconds_whole s ms : parse_seconds s = Some ms -> (ms =? 0) = false -> whole_seconds ms.
Proof.
  unfold parse_seconds, parse_u64. destruct (from_str_radix 10 u64_max s) as [n|] eqn:E; [|done].
  intros [= <-] Hn. b2p. exists n. split; [done|]. pose proof (from_str_radix_range u64_max s n ltac:(done) E). lia.
Qed.

(** What the loop keeps. *)
Lemma read_flags_keeps {V} flags set (P : V -> Prop) args v v' :
  (forall flag value v v', set flag value v = Ok v' -> P v -> P v') ->
  read_flags flags set args v = Ok v' -> P v -> P v'.
Proof.
  intros Hset. revert v. induction args as [args IH] using (induction_ltof1 _ length). unfold ltof in IH. intros v.
  destruct args as [|arg [|value rest]]; cbn [read_flags]; [by intros [= <-]|by repeat case_bool_decide|].
  case_bool_decide; [|by case_bool_decide]. destruct (set arg value v) as [v1|] eqn:E; cbn [result_bind]; [|done].
  intros Hr HP. apply (IH rest ltac:(cbn; lia) v1 Hr). by eapply Hset.
Qed.

Definition in_range (max : Z) (n : Z) : Prop := 0 <= n <= max.

Definition seconds_ok (ms : Z) : Prop := ms = 0 \/ whole_seconds ms.

Lemma parse_value_ok {A} (parse : string -> option A) flag value n :
  parse_value parse flag value = Ok n -> parse value = Some n.
Proof. unfold parse_value. destruct (parse value); [by intros [= <-]|done]. Qed.

Lemma parse_value_seconds flag value ms : parse_value parse_seconds flag value = Ok ms -> seconds_ok ms.
Proof.
  intros E%parse_value_ok. destruct (ms =? 0) eqn:E0; [left; by b2p|right]. by eapply parse_seconds_whole.
Qed.

Lemma parse_value_usize flag value n : parse_value parse_usize flag value = Ok n -> in_range usize_max n.
Proof. intros E%parse_value_ok. by eapply (from_str_radix_range usize_max). Qed.

Lemma parse_value_u16 flag value n : parse_value parse_u16 flag value = Ok n -> in_range u16_max n.
Proof. intros E%parse_value_ok. by eapply (from_str_radix_range u16_max). Qed.

Definition payload_vars_ok (v : payload_vars) : Prop :=
  let l := pv_limits v in
  (forall n, pv_port v = Some n -> in_range u16_max n) /\ in_range usize_max (max_clients l) /\
  in_range usize_max (max_diagnostics l) /\ seconds_ok (initial_timeout l) /\ seconds_ok (io_timeout l).

Definition bridge_vars_ok (v : bridge_vars) : Prop :=
  let l := bv_limits v in
  (forall n, bv_port v = Some n -> in_range u16_max n) /\ in_range usize_max (max_sessions l) /\
  seconds_ok (connect_timeout l) /\ seconds_ok (bridge_io_timeout l).

(** One flag: the value that was read is in its range, the others stay. *)
Ltac flag_ok :=
  repeat match goal with
  | |- context [decide ?P] => destruct (decide P) as [_|_]
  end;
  try (intros [= <-]; done);
  match goal with
  | |- context [parse_value ?p ?f ?v] => let E := fresh "E" in destruct (parse_value p f v) as [?|] eqn:E;
      cbn [result_bind]; [|done];
      first [apply parse_value_u16 in E|apply parse_value_usize in E|apply parse_value_seconds in E]
  end;
  intros [= <-]; unfold payload_vars_ok, bridge_vars_ok; cbn; intros; destruct_and?; split_and!; try done;
  by intros ? [= <-].

Lemma set_payload_ok flag value v v' : set_payload flag value v = Ok v' -> payload_vars_ok v -> payload_vars_ok v'.
Proof. unfold set_payload. cbv zeta. flag_ok. Qed.

Lemma set_bridge_ok flag value v v' : set_bridge flag value v = Ok v' -> bridge_vars_ok v -> bridge_vars_ok v'.
Proof. unfold set_bridge. cbv zeta. flag_ok. Qed.

Lemma seconds_ok_pos ms : seconds_ok ms -> (ms =? 0) = false -> whole_seconds ms.
Proof. intros [->|H]; [done|done]. Qed.

Lemma seconds_whole s : 0 < s <= u64_max -> seconds_ok (s * 1000).
Proof. intros Hs. right. by exists s. Qed.

Lemma payload_default_ok : payload_vars_ok (mkPayloadVars "0.0.0.0" None GuestServiceLimits_default).
Proof.
  unfold payload_vars_ok. cbn. split_and!; [done|done|done|..]; right;
    [exists 10|exists 30]; split; try reflexivity; done.
Qed.

Lemma bridge_default_ok : bridge_vars_ok (mkBridgeVars "0.0.0.0" None None DockerBridgeLimits_default).
Proof.
  unfold bridge_vars_ok. cbn. split_and!; [done|done|..]; right; [exists 5|exists 30]; split; try reflexivity; done.
Qed.

Lemma payload_config_ok args c : payload_config_from_args args = Ok c -> payload_cli_ok c.
Proof.
  unfold payload_config_from_args. destruct (read_flags _ _ _ _) as [v|] eqn:E; cbn [result_bind]; [|done].
  apply (read_flags_keeps _ _ payload_vars_ok _ _ _ set_payload_ok) in E; [|apply payload_default_ok].
  destruct (pv_port v) as [port|] eqn:Ep; cbn [ok_or result_bind]; [|done]. destruct E as (Hp & H1 & H2 & H3 & H4).
  unfold in_range in *. repeat (case_test; [done|]). intros [= <-]. unfold payload_cli_ok. cbn.
  split_and!; try lia; try (apply seconds_ok_pos; [done|by apply Z.eqb_neq]); by apply Hp.
Qed.

Lemma bridge_config_ok args c : docker_bridge_config_from_args args = Ok c -> bridge_cli_ok c.
Proof.
  unfold docker_bridge_config_from_args. destruct (read_flags _ _ _ _) as [v|] eqn:E; cbn [result_bind]; [|done].
  apply (read_flags_keeps _ _ bridge_vars_ok _ _ _ set_bridge_ok) in E; [|apply bridge_default_ok].
  destruct (bv_port v) as [port|] eqn:Ep; cbn [ok_or result_bind]; [|done].
  destruct (bv_sock v) as [sock|]; cbn [ok_or result_bind]; [|done]. destruct E as (Hp & H1 & H2 & H3).
  unfold in_range in *. repeat (case_test; [done|]). intros [= <-]. unfold bridge_cli_ok. cbn.
  split_and!; try lia; try (apply seconds_ok_pos; [done|by apply Z.eqb_neq]); by apply Hp.
Qed.

Lemma read_flag {V} flags (set : string -> string -> V -> result V string) flag value rest v v' :
  bool_decide (flag ∈ flags) = true -> set flag value v = Ok v' ->
  read_flags flags set (flag :: value :: rest) v = read_flags flags set rest v'.
Proof. intros Hf Hs. cbn [read_flags]. by rewrite Hf, Hs. Qed.

(** Reads the first flag of the arguments, which is one of the list. *)
Ltac read_one :=
  erewrite read_flag; [|vm_compute; reflexivity|
    unfold set_payload, set_bridge, parse_value, parse_u16, parse_usize;
    repeat (rewrite decide_False by discriminate); try (rewrite decide_True by reflexivity);
    first [rewrite from_str_radix_show by lia|rewrite parse_seconds_show by assumption|idtac];
    cbn [ok_or result_bind]; reflexivity].

Lemma payload_args_read c :
  payload_cli_ok c -> config_from_args (cli_args (Payload c)) = Ok (Payload c).
Proof.
  destruct c as [host port [mc md it io]]. intros (Hp & Hmc & Hmd & Hit & Hio).
  cbn [pc_tcp_port pc_limits max_clients max_diagnostics initial_timeout io_timeout] in *.
  change (config_from_args (cli_args (Payload (mkPayloadCli host port (mkLimits mc md it io))))) with
    (let? c := payload_config_from_args (drop 1 (cli_args (Payload (mkPayloadCli host port (mkLimits mc md it io))))) in
     Ok (Payload c)).
  cbn [cli_args drop pc_tcp_port pc_tcp_host pc_limits max_clients max_diagnostics initial_timeout io_timeout].
  unfold payload_config_from_args. do 6 read_one. cbn [read_flags result_bind pv_port pv_limits pv_host ok_or
    max_clients max_diagnostics initial_timeout io_timeout].
  rewrite !(whole_seconds_pos it), !(whole_seconds_pos io) by done.
  rewrite (proj2 (Z.eqb_neq mc 0)), (proj2 (Z.eqb_neq md 0)) by lia. done.
Qed.

Lemma bridge_args_read c :
  bridge_cli_ok c -> config_from_args (cli_args (DockerBridge c)) = Ok (DockerBridge c).
Proof.
  destruct c as [host port sock [ms ct io]]. intros (Hp & Hms & Hct & Hio).
  cbn [dc_tcp_port dc_limits max_sessions connect_timeout bridge_io_timeout] in *.
  change (config_from_args (cli_args (DockerBridge (mkBridgeCli host port sock (mkBridgeLimits ms ct io))))) with
    (let? c := docker_bridge_config_from_args
       (drop 1 (cli_args (DockerBridge (mkBridgeCli host port sock (mkBridgeLimits ms ct io))))) in
     Ok (DockerBridge c)).
  cbn [cli_args drop dc_tcp_port dc_tcp_host dc_docker_sock dc_limits max_sessions connect_timeout bridge_io_timeout].
  unfold docker_bridge_config_from_args. do 6 read_one. cbn [read_flags result_bind bv_port bv_limits bv_host bv_sock ok_or
    max_sessions connect_timeout bridge_io_timeout].
  rewrite !(whole_seconds_pos ct), !(whole_seconds_pos io) by done.
  rewrite (proj2 (Z.eqb_neq ms 0)) by lia. done.
Qed.

(** The command line of the guest service accepts exactly the
    configurations with a port and positive limits in whole seconds: each of them is
    read back from its arguments, and nothing else is ever accepted. *)
Theorem guest_cli_exact c : cli_ok c <-> exists args, config_from_args args = Ok c.
Proof.
  split.
  - intros Hc. exists (cli_args c). destruct c; [by apply payload_args_read|by apply bridge_args_read].
  - intros (args & E). unfold config_from_args in E. destruct (without_first "docker-bridge" _) as [rest|].
    + destruct (docker_bridge_config_from_args rest) eqn:Ed; [|done]. injection E as <-. by apply bridge_config_ok in Ed.
    + destruct (payload_config_from_args _) eqn:Ed; [|done]. injection E as <-. by apply payload_config_ok in Ed.
Qed.

End GuestCli.
