(* ===== verification/Config.v ===== *)
(** The configuration of a project (src/vm-frontend/src/config.rs): its fields, its
    validation, the migration of older versions, and the file it is kept in.

    serde_json and the host's files are interfaces. The theorems: what is read has been
    validated; a valid configuration that was written is read back; reading is total;
    the paths of shadows stay below their share. *)

From stdpp Require Import base option list numbers strings gmap sets.
From Stdlib Require Import ZArith Lia Ascii String.
From S2P Require Import Prelude RustIo RustStr FsPath NetworkPolicy HttpRequest Frontend HostOps Manifest Namespace.
From S2P Require Import RuntimeManifest CliText.

Local Open Scope string_scope.
Local Open Scope Z_scope.

Module Config.
Import FsPath CliText RuntimeManifest.

Inductive ConfigError :=
| UnknownSetupTool (value : string)
| MissingHostHome
| EmptyDefaultCommand
| EmptyShareShadowPath
| ShareShadowPathContainsEquals
| AbsoluteShareShadowPath
| EscapingShareShadowPath
| UnsupportedSandboxConfigSchema (version : Z)
| EmptyShareHostPath
| EmptyShareGuestPath
| DuplicateShareShadowPath (path : string)
| ReadSandboxConfig (path : string) (source : io_error)
| ParseSandboxConfig (path : string) (source : ConfigError)
| InvalidSandboxConfig (path : string) (source : ConfigError)
| MissingSchemaVersion
| UnsupportedSchemaVersion (version : Z)
| SetupToolInSchemaV3
| JsonError (source : string)
| CreateSandboxConfigDir (path : string) (source : io_error)
| SerializeSandboxConfig (source : string)
| WriteSandboxConfig (path : string) (source : io_error)
| CreateProjectMiseConfigDir (path : string) (source : io_error)
| WriteSetupToolMiseConfig (path : string) (source : io_error).

(** [s.trim().is_empty()]. *)
Definition blank (s : string) : bool :=
  match Http.trim (Http.from_utf8_lossy (list_byte_of_string s)) with [] => true | _ => false end.

(** ** The fields *)

Definition ConfigCommand_validate (c : ConfigCommand) : result unit ConfigError :=
  if blank (command c) then Err EmptyDefaultCommand else Ok tt.

Definition ConfigCommand_default : ConfigCommand := ConfigCommand_new "codex".

Inductive ConfigNetworkMode := Public | NoNetwork | Allowlist.

#[global] Instance ConfigNetworkMode_eq_dec : EqDecision ConfigNetworkMode.
Proof. solve_decision. Defined.

Record ConfigNetwork := mkNetwork {
  cn_mode : ConfigNetworkMode; allowed_domains : list string; allowed_hosts : list string; allowed_ips : list string }.

Definition ConfigNetwork_default : ConfigNetwork := mkNetwork Public [] [] [].

Record ConfigAuth := mkAuth { github : bool; auth_aws_profile : option string }.

Definition ConfigAuth_default : ConfigAuth := mkAuth false None.

Inductive ConfigShareAccess := Ro | Rw.

#[global] Instance ConfigShareAccess_eq_dec : EqDecision ConfigShareAccess.
Proof. solve_decision. Defined.

Record ConfigShare := mkShare {
  cs_host_path : string; cs_guest_path : option string; cs_access : ConfigShareAccess; cs_required : bool;
  shadows : list string }.

Record ConfigPort := mkPort { cp_host : Z; cp_guest : Z }.

Record WrapperSandboxConfig := mkConfig {
  wc_schema_version : Z;
  default_command : ConfigCommand;
  wc_network : ConfigNetwork;
  auth : ConfigAuth;
  shares : list ConfigShare;
  published_ports : list ConfigPort
}.

(** ** Tools *)

Inductive SetupTool := Codex | Pi.

Definition SetupTool_parse (value : string) : result SetupTool ConfigError :=
  if decide (value = "codex") then Ok Codex
  else if decide (value = "pi") then Ok Pi
  else Err (UnknownSetupTool value).

Definition package (t : SetupTool) : string :=
  match t with Codex => "@openai/codex" | Pi => "@mariozechner/pi-coding-agent" end.

Definition cli (t : SetupTool) : string := match t with Codex => "codex" | Pi => "pi" end.

Definition auto_flags (t : SetupTool) : list string :=
  match t with Codex => ["--dangerously-bypass-approvals-and-sandbox"] | Pi => [] end.

Definition tool_default_command (t : SetupTool) : ConfigCommand := mkCommand (cli t) (auto_flags t).

Definition config_shares (t : SetupTool) (host_home : string) : list ConfigShare :=
  let '(dir, shadows) := match t with Codex => (".codex", ["tmp"]) | Pi => (".pi", []) end in
  let path := path_join host_home dir in
  [mkShare path (Some path) Rw false shadows].

(** [WrapperSandboxConfig::setup_tool], with the variable [HOME]. *)
Definition setup_tool (home : option string) (t : SetupTool) : result WrapperSandboxConfig ConfigError :=
  let? host_home := map_err (fun _ => MissingHostHome) (host_home_dir home) in
  Ok (mkConfig 3 (tool_default_command t) ConfigNetwork_default ConfigAuth_default (config_shares t host_home) []).

Definition codex_default (home : option string) : result WrapperSandboxConfig ConfigError := setup_tool home Codex.

(** ** Validation *)

Fixpoint push_names (normalized : string) (cs : list Component) : result string ConfigError :=
  match cs with
  | [] => Ok normalized
  | Normal part :: rest => push_names (path_join normalized part) rest
  | CurDir :: rest => push_names normalized rest
  | (ParentDir | RootDir) :: _ => Err EscapingShareShadowPath
  end.

Definition validate_share_shadow_path (path : string) : result string ConfigError :=
  if blank path then Err EmptyShareShadowPath
  else if contains_char "=" path then Err ShareShadowPathContainsEquals
  else if is_absolute path then Err AbsoluteShareShadowPath
  else
    let? normalized := push_names "" (components path) in
    if bool_decide (normalized = "") then Err EmptyShareShadowPath else Ok normalized.

Fixpoint validate_shadows (seen : gset string) (todo : list string) : result unit ConfigError :=
  match todo with
  | [] => Ok tt
  | shadow :: rest =>
      let? path := validate_share_shadow_path shadow in
      if bool_decide (path ∈ seen) then Err (DuplicateShareShadowPath shadow)
      else validate_shadows ({[path]} ∪ seen) rest
  end.

Fixpoint validate_shares (todo : list ConfigShare) : result unit ConfigError :=
  match todo with
  | [] => Ok tt
  | share :: rest =>
      if blank (cs_host_path share) then Err EmptyShareHostPath
      else if bool_decide (cs_guest_path share = Some "") then Err EmptyShareGuestPath
      else let? _ := validate_shadows ∅ (shadows share) in validate_shares rest
  end.

Definition validate (c : WrapperSandboxConfig) : result unit ConfigError :=
  if negb (wc_schema_version c =? 3) then Err (UnsupportedSandboxConfigSchema (wc_schema_version c))
  else
    let? _ := ConfigCommand_validate (default_command c) in
    validate_shares (shares c).

(** ** Reading *)

(** [serde_json::Value] as the program uses it: fields of objects, the conversions,
    and the values it makes. [index_set] is [value[key] = new], which panics when the
    value is no object; [put] writes through [get_mut]. *)
Class Values := {
  value : Type;
  from_str : string -> result value string;
  get : value -> string -> option value;
  as_u64 : value -> option Z;
  as_str : value -> option string;
  as_bool : value -> option bool;
  as_array : value -> option (list value);
  remove : value -> string -> value;
  index_set : value -> string -> value -> exec value;
  put : value -> string -> value -> value;
  json_u64 : Z -> value;
  json_str : string -> value;
  json_array : list value -> value;
  (** The object with the fields [command] and [args], an empty array. *)
  json_command : string -> value;
  (** The derived [Deserialize] and [Serialize]. *)
  from_value : value -> result WrapperSandboxConfig string;
  to_string_pretty : WrapperSandboxConfig -> result string string
}.

Class ValuesLaws `{Values} : Prop := {
  index_set_get v key new k w : get v k = Some w ->
    exists v', index_set v key new = Ret v' /\ get v' key = Some new /\ forall j, j <> key -> get v' j = get v j;
  remove_get v key : get (remove v key) key = None;
  remove_other v key k : k <> key -> get (remove v key) k = get v k;
  put_get v key new w : get v key = Some w -> get (put v key new) key = Some new;
  put_other v key new k : k <> key -> get (put v key new) k = get v k;
  as_str_json s : as_str (json_str s) = Some s;
  as_u64_json n : 0 <= n <= u64_max -> as_u64 (json_u64 n) = Some n;
  as_array_json vs : as_array (json_array vs) = Some vs;
  (** A configuration is written with its fields, and read back from them. *)
  to_string_read c text : to_string_pretty c = Ok text ->
    exists v d n, from_str (text ++ String "010" "") = Ok v /\
      get v "schema_version" = Some n /\ as_u64 n = Some (wc_schema_version c) /\ get v "setup_tool" = None /\
      get v "default_command" = Some d /\ as_str d = None /\ from_value v = Ok c
}.

Section Read.
Context `{Values} (home : option string).

Definition normalize_default_command_value (v : value) : value :=
  match get v "default_command" with
  | None => v
  | Some command_value =>
      match as_str command_value with
      | Some command => put v "default_command" (json_command command)
      | None => v
      end
  end.

(** The loop over the flags, from the last. *)
Definition insert_flags (flags : list string) (args : list value) : list value :=
  foldr (fun flag args =>
    if existsb (fun arg => bool_decide (as_str arg = Some flag)) args then args else json_str flag :: args) args flags.

Definition add_legacy_setup_auto_flags (v : value) (tool : SetupTool) : value :=
  match get v "default_command" with
  | None => v
  | Some default_command =>
      match get default_command "command" with
      | None => v
      | Some c =>
          if bool_decide (as_str c = Some (cli tool)) then
            match get default_command "args" with
            | None => v
            | Some a =>
                match as_array a with
                | None => v
                | Some args =>
                    put v "default_command" (put default_command "args" (json_array (insert_flags (auto_flags tool) args)))
                end
            end
          else v
      end
  end.

Definition decode (v : value) : result WrapperSandboxConfig ConfigError := map_err JsonError (from_value v).

Definition parse_v2_wrapper_sandbox_config (v : value) : exec (result WrapperSandboxConfig ConfigError) :=
  let legacy_setup_tool :=
    match get v "setup_tool" with
    | None => Ok None
    | Some t =>
        match as_str t with
        | None => Ok None
        | Some t => let? tool := SetupTool_parse t in Ok (Some tool)
        end
    end in
  match legacy_setup_tool with
  | Err e => Ret (Err e)
  | Ok legacy_setup_tool =>
      let! v := index_set (remove v "setup_tool") "schema_version" (json_u64 3) in
      let v := normalize_default_command_value v in
      Ret (decode (match legacy_setup_tool with
                   | Some tool => add_legacy_setup_auto_flags v tool
                   | None => v
                   end))
  end.

Definition parse_legacy_wrapper_sandbox_config (v : value) : result WrapperSandboxConfig ConfigError :=
  let codex_enabled := default false (b ← get v "codex_enabled"; as_bool b) in
  let command := default "codex" (c ← get v "default_command"; as_str c) in
  let? c :=
    if codex_enabled then codex_default home
    else Ok (mkConfig 3 (ConfigCommand_new command) ConfigNetwork_default ConfigAuth_default [] []) in
  Ok (mkConfig (wc_schema_version c) (ConfigCommand_new command) (wc_network c) (auth c) (shares c) (published_ports c)).

Definition parse_wrapper_sandbox_config_text (text : string) : exec (result WrapperSandboxConfig ConfigError) :=
  match from_str text with
  | Err e => Ret (Err (JsonError e))
  | Ok v =>
      match n ← get v "schema_version"; as_u64 n with
      | None => Ret (Err MissingSchemaVersion)
      | Some schema_version =>
          if schema_version =? 1 then Ret (parse_legacy_wrapper_sandbox_config v)
          else if schema_version =? 2 then parse_v2_wrapper_sandbox_config v
          else if negb (schema_version =? 3) then Ret (Err (UnsupportedSchemaVersion schema_version))
          else
            match get v "setup_tool" with
            | Some _ => Ret (Err SetupToolInSchemaV3)
            | None => Ret (decode (normalize_default_command_value v))
            end
      end
  end.

Definition wrapper_sandbox_config_path (project : string) : string := path_join project ".sandbox/config.json".

(** [read] is what [fs::read_to_string] gives for the path. *)
Definition read_wrapper_sandbox_config (read : string -> io_result string) (project : string)
  : exec (result (option WrapperSandboxConfig) ConfigError) :=
  let path := wrapper_sandbox_config_path project in
  match read path with
  | Err e =>
      Ret (if bool_decide (error_kind e = NotFound) then Ok None else Err (ReadSandboxConfig path e))
  | Ok text =>
      let! r := parse_wrapper_sandbox_config_text text in
      Ret (let? c := map_err (ParseSandboxConfig path) r in
           let? _ := map_err (InvalidSandboxConfig path) (validate c) in
           Ok (Some c))
  end.

(** ** Writing *)

Section Write.
Context {G : Type} `{LaunchFs G}.

Definition text_bytes (s : string) : list byte := list_byte_of_string s.

Definition write_wrapper_sandbox_config (project : string) (c : WrapperSandboxConfig) (g : G)
  : result unit ConfigError * G :=
  let path := wrapper_sandbox_config_path project in
  match match parent path with
        | Some dir =>
            let '(r, g) := create_dir_all g dir in (map_err (CreateSandboxConfigDir dir) r, g)
        | None => (Ok tt, g)
        end with
  | (Err e, g) => (Err e, g)
  | (Ok _, g) =>
      match to_string_pretty c with
      | Err e => (Err (SerializeSandboxConfig e), g)
      | Ok text =>
          let '(r, g) := write_file g path (text_bytes (text ++ String "010" "")) in
          (map_err (WriteSandboxConfig path) r, g)
      end
  end.

Definition project_mise_config_path (project : string) : string := path_join project "mise.toml".

Definition NODE_HTTP_TOOL : string :=
  "http:node[url=https://unofficial-builds.nodejs.org/download/release/v24.15.0/node-v24.15.0-linux-x64-musl.tar.gz]".
Definition NODE_HTTP_VERSION : string := "24.15.0".

Definition newline_text : string := String "010" "".

Definition setup_tool_mise_config_text (t : SetupTool) : string :=
  "[tools]" ++ newline_text ++ toml_basic_string NODE_HTTP_TOOL ++ " = " ++ dq ++ NODE_HTTP_VERSION ++ dq ++ newline_text ++
  toml_basic_string ("npm:" ++ package t) ++ " = " ++ dq ++ "latest" ++ dq ++ newline_text.

Definition write_setup_tool_mise_config (project : string) (t : SetupTool) (g : G) : result unit ConfigError * G :=
  let path := project_mise_config_path project in
  match match parent path with
        | Some dir =>
            let '(r, g) := create_dir_all g dir in (map_err (CreateProjectMiseConfigDir dir) r, g)
        | None => (Ok tt, g)
        end with
  | (Err e, g) => (Err e, g)
  | (Ok _, g) =>
      let '(r, g) := write_file g path (text_bytes (setup_tool_mise_config_text t)) in
      (map_err (WriteSetupToolMiseConfig path) r, g)
  end.

End Write.
End Read.

(** ** Paths of shadows *)

Lemma join_names_last names : names <> [] -> Forall name_ok names -> ends_with "/" (join "/" names) = false.
Proof.
  intros Hne Hn. apply not_true_iff_false. intros [t Ht]%ends_with_iff.
  apply (f_equal (split_char "/")) in Ht. rewrite split_join in Ht by (done || by apply names_no_slash).
  change (t ++ "/") with (t ++ String "/" "") in Ht. rewrite split_char_sep in Ht.
  change (split_char "/" "") with [""] in Ht. subst names.
  apply Forall_app in Hn as [_ Hx]. by inversion Hx as [|? ? (Hbad & _) _].
Qed.

Lemma join_names_nonempty names : names <> [] -> Forall name_ok names -> join "/" names <> "".
Proof.
  intros Hne Hf. destruct Hf as [|s names (H1 & _) _]; [done|].
  destruct s; [done|]. by destruct names.
Qed.

(** Joining relative paths of names. *)
Lemma path_join_names names s :
  Forall name_ok names -> name_ok s -> path_join (join "/" names) s = join "/" (names ++ [s])%list.
Proof.
  intros Hn Hs. unfold path_join. rewrite name_not_absolute by done.
  destruct (decide (names = [])) as [->|Hne]; [done|].
  rewrite bool_decide_false by (by apply join_names_nonempty).
  rewrite join_names_last by done. by rewrite join_app.
Qed.

Lemma join_names_relative names : Forall name_ok names -> is_absolute (join "/" names) = false.
Proof.
  intros Hn. destruct names as [|s names]; [done|]. apply not_true_iff_false.
  intros [rest E]%starts_with_slash_split. rewrite split_join in E by (done || by apply names_no_slash).
  injection E as -> ->. by inversion Hn as [|? ? (Hbad & _) _].
Qed.

Lemma guest_path_join base names :
  Forall name_ok base -> Forall name_ok names -> names <> [] ->
  path_join (guest_path_of base) (join "/" names) = guest_path_of (base ++ names)%list.
Proof.
  intros Hb Hn Hne. unfold path_join. rewrite join_names_relative by done.
  destruct (decide (base = [])) as [->|Hbe]; [by destruct names|].
  rewrite !guest_path_of_join by (by destruct base). rewrite bool_decide_false by (by destruct base).
  replace (ends_with "/" (join "/" ("" :: base))) with false.
  2:{ change ("" :: base) with ([""] ++ base)%list. rewrite join_app by done. symmetry.
      apply not_true_iff_false. intros [t Ht]%ends_with_iff.
      pose proof (join_names_last base Hbe Hb) as Hl. apply not_true_iff_false in Hl. apply Hl, ends_with_iff.
      destruct t as [|a t]; [|injection Ht as -> Ht; by exists t].
      injection Ht as Ht. by apply join_names_nonempty in Ht. }
  change ("" :: (base ++ names)%list) with (("" :: base) ++ names)%list. by rewrite join_app.
Qed.

Lemma push_names_names acc more :
  Forall name_ok acc -> Forall name_ok more ->
  push_names (join "/" acc) (map Normal more) = Ok (join "/" (acc ++ more)%list).
Proof.
  intros Ha Hm. revert acc Ha. induction Hm as [|s more Hs _ IH]; intros acc Ha; cbn.
  - by rewrite app_nil_r.
  - rewrite path_join_names, IH by (try apply Forall_app_2; repeat constructor; apply Hs || done).
    by rewrite <- app_assoc.
Qed.

Lemma push_names_parent acc cs : ParentDir ∈ cs -> push_names acc cs = Err EscapingShareShadowPath.
Proof.
  revert acc. induction cs as [|c cs IH]; intros acc Hin; [by apply elem_of_nil in Hin|].
  destruct c; cbn; try done; apply IH; by apply elem_of_cons in Hin as [|].
Qed.

(** What is pushed for a relative path: its names, or an error at a [..]. *)
Lemma push_names_relative p q :
  is_absolute p = false -> push_names "" (components p) = Ok q ->
  exists names, Forall name_ok names /\ omap part_component (split_char "/" p) = map Normal names /\ q = join "/" names.
Proof.
  intros Ha E. assert (push_names "" (omap part_component (split_char "/" p)) = Ok q) as E'.
  { unfold components in E. rewrite Ha in E. destruct (split_char "/" p) as [|first rest]; [done|].
    by destruct (bool_decide (first = ".")). }
  destruct (decide (ParentDir ∈ omap part_component (split_char "/" p))) as [Hp|Hp].
  { by rewrite push_names_parent in E'. }
  destruct (omap_names (split_char "/" p)) as (names & En & Hn); [apply split_char_parts|done|].
  exists names. split_and!; [done..|]. rewrite En in E'.
  pose proof (push_names_names [] names ltac:(constructor) Hn) as Hq. cbn [join app] in Hq. congruence.
Qed.

Lemma validate_shadow_ok p q :
  validate_share_shadow_path p = Ok q ->
  exists names, names <> [] /\ Forall name_ok names /\
    omap part_component (split_char "/" p) = map Normal names /\ q = join "/" names.
Proof.
  unfold validate_share_shadow_path. destruct (blank p); [done|]. destruct (contains_char "=" p); [done|].
  destruct (is_absolute p) eqn:Ha; [done|]. destruct (push_names "" (components p)) as [r|] eqn:E; [|done].
  cbn. case_bool_decide as Hr; [done|]. injection 1 as <-.
  apply push_names_relative in E as (names & ? & ? & ->); [|done]. exists names. split_and!; try done. by intros ->.
Qed.

(** A path accepted for a shadow has no [..]: below any absolute directory
    of names it denotes an entry further down, at the names the path is written with. *)
Theorem shadow_path_stays_below base p q :
  Forall name_ok base -> validate_share_shadow_path p = Ok q ->
  exists names, names <> [] /\ Forall name_ok names /\
    omap part_component (split_char "/" p) = map Normal names /\
    path_join (guest_path_of base) q = guest_path_of (base ++ names)%list.
Proof.
  intros Hb (names & Hne & Hn & Ho & ->)%validate_shadow_ok. exists names. split_and!; try done.
  by apply guest_path_join.
Qed.

(** ** Reading *)

Section ReadFacts.
Context `{ValuesLaws} (home : option string).

Lemma normalize_other v k : k <> "default_command" -> get (normalize_default_command_value v) k = get v k.
Proof.
  intros Hk. unfold normalize_default_command_value.
  destruct (get v "default_command") as [d|]; [|done]. destruct (as_str d); [|done]. by apply put_other.
Qed.

(** The version 2 migration: the schema version exists, so the value is an object. *)
Lemma parse_v2_total v n :
  get v "schema_version" = Some n -> exists r, parse_v2_wrapper_sandbox_config v = Ret r.
Proof.
  intros Hn. unfold parse_v2_wrapper_sandbox_config.
  destruct (match get v "setup_tool" with None => Ok None | Some t => _ end) as [tool|e]; [|by eexists].
  destruct (index_set_get (remove v "setup_tool") "schema_version" (json_u64 3) "schema_version" n)
    as (v' & -> & _); [by rewrite remove_other|]. by eexists.
Qed.

Lemma parse_total text : exists r, parse_wrapper_sandbox_config_text home text = Ret r.
Proof.
  unfold parse_wrapper_sandbox_config_text. destruct (from_str text) as [v|e]; [|by eexists].
  destruct (get v "schema_version") as [n|] eqn:En; cbn; [|by eexists].
  destruct (as_u64 n) as [version|]; [|by eexists].
  destruct (version =? 1); [by eexists|]. destruct (version =? 2); [by eapply parse_v2_total|].
  destruct (negb _); [by eexists|]. destruct (get v "setup_tool"); by eexists.
Qed.

(** Reading the configuration never panics, whatever the file holds: the
    migration assigns a field only where the value is an object. A missing file is no
    configuration, and a configuration that is returned has passed the validation. *)
Theorem config_read_total read project :
  exists r, read_wrapper_sandbox_config home read project = Ret r /\
    (forall e, read (wrapper_sandbox_config_path project) = Err e -> error_kind e = NotFound -> r = Ok None) /\
    (forall c, r = Ok (Some c) -> validate c = Ok tt).
Proof.
  unfold read_wrapper_sandbox_config. destruct (read _) as [text|e] eqn:Er.
  - destruct (parse_total text) as [p ->]. eexists. split; [reflexivity|]. split; [done|].
    intros c. destruct p as [c'|]; cbn; [|done]. destruct (validate c') as [[]|] eqn:Ev; cbn; [|done].
    by injection 1 as <-.
  - eexists. split; [reflexivity|]. split.
    + intros ? [= <-] Hk. by rewrite bool_decide_true.
    + by destruct (bool_decide (error_kind e = NotFound)).
Qed.

(** The text of a configuration of version 3 is decoded as it is. *)
Lemma parse_written c text :
  wc_schema_version c = 3 -> to_string_pretty c = Ok text ->
  parse_wrapper_sandbox_config_text home (text ++ String "010" "") = Ret (Ok c).
Proof.
  intros Hv Ht. destruct (to_string_read c text Ht) as (v & d & n & Hf & Hs & Hn & Hx & Hd & Hstr & Hc).
  unfold parse_wrapper_sandbox_config_text. rewrite Hf, Hs. cbn. rewrite Hn, Hv. cbn. rewrite Hx.
  unfold normalize_default_command_value. rewrite Hd, Hstr. unfold decode. by rewrite Hc.
Qed.

Lemma validate_version c : validate c = Ok tt -> wc_schema_version c = 3.
Proof.
  unfold validate. destruct (wc_schema_version c =? 3) eqn:E; [|done]. intros _. by apply Z.eqb_eq.
Qed.

(** ** Flags of the older versions *)

Definition holds_flag (args : list value) (flag : string) : Prop := Exists (fun arg => as_str arg = Some flag) args.

Lemma existsb_flag args flag :
  existsb (fun arg => bool_decide (as_str arg = Some flag)) args = true <-> holds_flag args flag.
Proof.
  unfold holds_flag. rewrite existsb_exists, Exists_exists. setoid_rewrite bool_decide_eq_true.
  by setoid_rewrite list_elem_of_In.
Qed.

Lemma insert_flags_spec flags args :
  exists front, insert_flags flags args = (front ++ args)%list /\
    Forall (fun flag => holds_flag (insert_flags flags args) flag) flags.
Proof.
  induction flags as [|flag flags (front & E & Hf)]; cbn; [by exists []|].
  fold (insert_flags flags args). destruct (existsb _ _) eqn:Ex.
  - exists front. split; [done|]. constructor; [by apply existsb_flag|done].
  - exists (json_str flag :: front). rewrite E. split; [done|]. rewrite E in Hf. constructor.
    + apply Exists_cons_hd, as_str_json.
    + eapply Forall_impl; [exact Hf|]. intros f Hx. by apply Exists_cons_tl.
Qed.

(** A configuration of version 2 made for a tool becomes one of version 3 whose command
    has the tool's flags in front of its own arguments, which are kept in order. *)
Theorem v2_flags_kept text v n t tool d c a args :
  from_str text = Ok v -> get v "schema_version" = Some n -> as_u64 n = Some 2 ->
  get v "setup_tool" = Some t -> as_str t = Some (cli tool) ->
  get v "default_command" = Some d -> as_str d = None ->
  get d "command" = Some c -> as_str c = Some (cli tool) -> get d "args" = Some a -> as_array a = Some args ->
  exists v' d' front, parse_wrapper_sandbox_config_text home text = Ret (decode v') /\
    get v' "setup_tool" = None /\ get v' "schema_version" = Some (json_u64 3) /\
    get v' "default_command" = Some d' /\ get d' "args" = Some (json_array (front ++ args)%list) /\
    Forall (holds_flag (front ++ args)%list) (auto_flags tool).
Proof.
  intros Hf Hn H2 Ht Hts Hd Hds Hc Hcs Ha Has.
  unfold parse_wrapper_sandbox_config_text. rewrite Hf, Hn. cbn [mbind option_bind]. rewrite H2. cbn [Z.eqb Pos.eqb].
  unfold parse_v2_wrapper_sandbox_config. rewrite Ht, Hts.
  replace (SetupTool_parse (cli tool)) with (Ok tool : result SetupTool ConfigError) by (by destruct tool).
  destruct (index_set_get (remove v "setup_tool") "schema_version" (json_u64 3) "schema_version" n)
    as (v1 & -> & Hs1 & Ho1); [by rewrite remove_other|]. cbn.
  assert (get v1 "default_command" = Some d) as Hd1 by (rewrite Ho1, remove_other; done).
  unfold normalize_default_command_value. rewrite Hd1, Hds.
  unfold add_legacy_setup_auto_flags. rewrite Hd1, Hc, bool_decide_true, Ha, Has by done.
  destruct (insert_flags_spec (auto_flags tool) args) as (front & E & Hfl). rewrite E in Hfl |- *.
  eexists _, _, front. split; [reflexivity|]. split_and!; [..|exact Hfl].
  - rewrite put_other, Ho1 by done. apply remove_get.
  - by rewrite put_other.
  - by eapply put_get.
  - by eapply put_get.
Qed.

End ReadFacts.

(** ** Writing *)

(** [fs::read_to_string]: the text that was written last. *)
Class TextFs (G : Type) `{LaunchFs G} := {
  read_text : G -> string -> io_result string;
  read_text_written g p s g' : write_file g p (text_bytes s) = (Ok tt, g') -> read_text g' p = Ok s
}.

(** A valid configuration that has been written is read back as it was:
    the file is not taken for an older version, and its command is not rewritten. *)
Theorem config_read_back `{ValuesLaws} `{TextFs G} home project c (g g' : G) :
  validate c = Ok tt -> write_wrapper_sandbox_config project c g = (Ok tt, g') ->
  read_wrapper_sandbox_config home (read_text g') project = Ret (Ok (Some c)).
Proof.
  intros Hv. unfold write_wrapper_sandbox_config.
  destruct (match parent _ with Some dir => _ | None => _ end) as [[[]|e] g1]; [|done].
  destruct (to_string_pretty c) as [text|] eqn:Et; [|done].
  destruct (write_file g1 _ _) as [[[]|e] g2] eqn:Ew; [|done]. cbn. injection 1 as <-.
  unfold read_wrapper_sandbox_config. rewrite (read_text_written _ _ _ _ Ew).
  rewrite (parse_written home c text) by (done || by apply validate_version). cbn. by rewrite Hv.
Qed.

(** ** The configurations of the tools *)

Lemma blank_slash s : blank (String "/" s) = false.
Proof.
  unfold blank. destruct (Http.trim_spec (Http.from_utf8_lossy (list_byte_of_string (String "/" s)))) as (front & back & E & Hw & _).
  destruct (Http.trim _); [exfalso|done]. cbn [app] in E. rewrite <- E in Hw.
  by inversion Hw.
Qed.

(** The configuration set up for a tool is valid, so that it is read back. *)
Lemma setup_tool_valid home t c : setup_tool home t = Ok c -> validate c = Ok tt.
Proof.
  unfold setup_tool, host_home_dir. destruct home as [h|]; [|done].
  destruct (is_absolute h) eqn:Ea; [|done]. cbn. injection 1 as <-.
  assert (forall dir, is_absolute dir = false -> blank (path_join h dir) = false /\ path_join h dir <> "") as Hp.
  { intros dir Hd. destruct h as [|a h]; [done|]. unfold is_absolute in Ea. cbn in Ea.
    unfold path_join. rewrite Hd, bool_decide_false by done.
    assert (a = "/"%char) as -> by (unfold starts_with in Ea; cbn [strip_prefix] in Ea; by case_decide).
    destruct (ends_with _ _); (split; [apply blank_slash|done]). }
  destruct t; unfold validate; cbn [wc_schema_version default_command shares config_shares validate_shares cs_host_path
    cs_guest_path shadows]; cbn [Z.eqb Pos.eqb negb].
  - destruct (Hp ".codex" eq_refl) as [-> Hn]. rewrite bool_decide_false by congruence. by vm_compute.
  - destruct (Hp ".pi" eq_refl) as [-> Hn]. rewrite bool_decide_false by congruence. by vm_compute.
Qed.

(** ** A concrete file and concrete values *)

(** Objects as lists of fields; one configuration has a text. *)
Inductive json := JNum (n : Z) | JStr (s : string) | JBool (b : bool) | JArr (vs : list json) | JObj (fields : list (string * json)).

Definition field (v : json) (k : string) : option json :=
  match v with JObj fs => snd <$> List.find (fun f => bool_decide (fst f = k)) fs | _ => None end.

Definition without (fs : list (string * json)) (k : string) : list (string * json) :=
  List.filter (fun f => negb (bool_decide (fst f = k))) fs.

Definition put_field (v : json) (k : string) (new : json) : json :=
  match v with JObj fs => JObj ((k, new) :: without fs k) | _ => v end.

Definition sample : WrapperSandboxConfig :=
  mkConfig 3 (mkCommand "make" ["test"]) ConfigNetwork_default ConfigAuth_default
    [mkShare "/srv/data" None Ro true ["tmp"; "out/log"]] [mkPort 8080 80].

#[local] Instance WrapperSandboxConfig_eq_dec : EqDecision WrapperSandboxConfig.
Proof.
  assert (EqDecision ConfigCommand) by solve_decision. assert (EqDecision ConfigNetwork) by solve_decision.
  assert (EqDecision ConfigAuth) by solve_decision. assert (EqDecision ConfigShare) by solve_decision.
  assert (EqDecision ConfigPort) by solve_decision. solve_decision.
Defined.

(** Values whose one configuration is [sample]. *)
Definition values_of (sample : WrapperSandboxConfig) : Values := {|
  value := json;
  from_str s :=
    if decide (s = "sample" ++ String "010" "")
    then Ok (JObj [("schema_version", JNum (wc_schema_version sample)); ("default_command", JObj [("command", JStr "make")])])
    else Err "expected value";
  get := field;
  as_u64 v := match v with JNum n => Some n | _ => None end;
  as_str v := match v with JStr s => Some s | _ => None end;
  as_bool v := match v with JBool b => Some b | _ => None end;
  as_array v := match v with JArr vs => Some vs | _ => None end;
  remove v k := match v with JObj fs => JObj (without fs k) | _ => v end;
  index_set v k new := match v with JObj _ => Ret (put_field v k new) | _ => Panic end;
  put := put_field;
  json_u64 := JNum;
  json_str := JStr;
  json_array := JArr;
  json_command c := JObj [("command", JStr c); ("args", JArr [])];
  from_value v := match field v "default_command" with Some (JObj _) => Ok sample | _ => Err "invalid type" end;
  to_string_pretty c := if decide (c = sample) then Ok "sample" else Err "no text"
|}.

#[local] Instance sample_values : Values := values_of sample.

Lemma find_without fs k j :
  List.find (fun f : string * json => bool_decide (fst f = j)) (without fs k) =
  if decide (j = k) then None else List.find (fun f => bool_decide (fst f = j)) fs.
Proof.
  induction fs as [|[i v] fs IH]; cbn; [by destruct (decide (j = k))|].
  destruct (decide (i = k)) as [->|Hi].
  - rewrite (bool_decide_true (k = k)) by done. cbn. fold (without fs k). rewrite IH.
    destruct (decide (j = k)) as [->|Hj]; [done|]. by rewrite (bool_decide_false (k = j)).
  - rewrite (bool_decide_false (i = k)) by done. cbn. fold (without fs k). rewrite IH.
    destruct (decide (i = j)) as [->|Hj]; [by rewrite bool_decide_true, decide_False|].
    by rewrite bool_decide_false.
Qed.

Lemma field_put fs k new j : field (put_field (JObj fs) k new) j = if decide (j = k) then Some new else field (JObj fs) j.
Proof.
  cbn. destruct (decide (j = k)) as [->|Hj]; [by rewrite bool_decide_true|].
  rewrite bool_decide_false by done. by rewrite find_without, decide_False.
Qed.

Lemma values_of_laws c : @ValuesLaws (values_of c).
Proof.
  split.
  - intros [| | | |fs] key new k w Hg; try done. eexists. split; [reflexivity|]. split.
    + change (field (put_field (JObj fs) key new) key = Some new). by rewrite field_put, decide_True.
    + intros j Hj. change (field (put_field (JObj fs) key new) j = field (JObj fs) j). by rewrite field_put, decide_False.
  - intros [| | | |fs] key; try done. cbn. by rewrite find_without, decide_True.
  - intros [| | | |fs] key k Hk; try done. cbn. by rewrite find_without, decide_False.
  - intros [| | | |fs] key new w Hg; try done.
    change (field (put_field (JObj fs) key new) key = Some new). by rewrite field_put, decide_True.
  - intros [| | | |fs] key new k Hk; try done.
    change (field (put_field (JObj fs) key new) k = field (JObj fs) k). by rewrite field_put, decide_False.
  - done.
  - done.
  - done.
  - intros c' text. cbn [to_string_pretty values_of]. destruct (decide (c' = c)) as [->|]; [|done].
    injection 1 as <-. by eexists _, _, _.
Qed.

#[local] Instance sample_values_laws : ValuesLaws := values_of_laws sample.

#[local] Instance text_files : LaunchFs (gmap string (list byte)) := {|
  create_dir_all g p := (Ok tt, g);
  path_exists g p := bool_decide (is_Some (g !! p));
  path_is_dir g p := Ok false;
  write_file g p bs := (Ok tt, <[p := bs]> g);
  written g := map_to_list g
|}.

#[local] Instance text_files_laws : TextFs (gmap string (list byte)).
Proof.
  refine {| read_text g p := match g !! p with Some bs => Ok (string_of_list_byte bs) | None => Err (OsError 2) end;
            read_text_written := _ |}.
  cbn. intros g p s g' [= <-]. rewrite lookup_insert_eq. unfold text_bytes. by rewrite string_of_list_byte_of_string.
Defined.

Example config_read_back_example :
  validate sample = Ok tt /\
  read_wrapper_sandbox_config None
    (read_text (snd (write_wrapper_sandbox_config "/p" sample (∅ : gmap string (list byte))))) "/p" = Ret (Ok (Some sample)).
Proof.
  split; [vm_compute; reflexivity|].
  apply (config_read_back None "/p" sample ∅); [vm_compute; reflexivity|reflexivity].
Defined.

End Config.
