(* ===== verification/Appliance.v ===== *)
(** The freshness of the appliance (src/vm-frontend/src/appliance.rs): an artifact
    manifest is accepted when the sources it was built from are still the same.

    serde_json, sha2 and the host's files are parameters. The theorems: what is accepted,
    exactly; a source whose digest changed is not accepted any more. *)

From stdpp Require Import base option list numbers strings gmap sets.
From Stdlib Require Import ZArith Lia Ascii String.
From S2P Require Import Prelude RustIo RustStr FsPath HttpRequest.

Local Open Scope string_scope.
Local Open Scope Z_scope.

Module Appliance.
Import FsPath.

Inductive ApplianceError :=
| CannotInferRepositoryRoot (artifact_manifest : string)
| Read (path : string) (source : io_error)
| ParseManifest (path : string) (source : string)
| MissingSourceHashes (artifact_manifest : string)
| InvalidSourcePath (artifact_manifest source_path : string)
| ChangedSourceHash (source_path artifact_manifest expected actual : string)
| MissingRequiredSourceHash (artifact_manifest required : string).

Record ApplianceSourceInput := mkInput { path : string; sha256 : string }.

Record ApplianceFreshnessManifest := mkFreshness { source_inputs : option (list ApplianceSourceInput) }.

Definition REQUIRED_APPLIANCE_SOURCE_INPUTS : list string :=
  ["docker/appliance.env"; "docker/build-appliance.sh"; "docker/guest-init.sh"; "docker/refresh-pins.sh";
   "Cargo.toml"; "Cargo.lock"; "guest-service/Cargo.toml"; "guest-service/src/lib.rs";
   "guest-service/src/main.rs"; "payload-protocol/Cargo.toml"; "payload-protocol/src/lib.rs"].

(** The bytes of a digest in lower case, two digits each. *)
Fixpoint hex (digest : list byte) : string :=
  match digest with [] => "" | b :: rest => show_hex2 (u8 b) ++ hex rest end.

Definition escapes (p : string) : bool := is_absolute p || bool_decide (ParentDir ∈ components p).

Section Fresh.
(** [Sha256::digest], and [serde_json::from_str] of the manifest. *)
Context (digest : list byte -> list byte) (from_str : string -> result ApplianceFreshnessManifest string).
(** [fs::read_to_string] and [fs::read]. *)
Context (read_to_string : string -> io_result string) (read : string -> io_result (list byte)).

Definition sha256_file_hex (p : string) : result string ApplianceError :=
  let? bytes := map_err (Read p) (read p) in Ok (hex (digest bytes)).

(** The loop over the recorded inputs, with the paths recorded so far. *)
Fixpoint check_inputs (artifact_manifest repo_root : string) (recorded_paths : gset string)
  (inputs : list ApplianceSourceInput) : result (gset string) ApplianceError :=
  match inputs with
  | [] => Ok recorded_paths
  | input :: rest =>
      if escapes (path input) then Err (InvalidSourcePath artifact_manifest (path input))
      else
        let? actual_hash := sha256_file_hex (path_join repo_root (path input)) in
        if negb (Http.eq_ignore_ascii_case (sha256 input) actual_hash)
        then Err (ChangedSourceHash (path input) artifact_manifest (sha256 input) actual_hash)
        else check_inputs artifact_manifest repo_root ({[path input]} ∪ recorded_paths) rest
  end.

Fixpoint check_required (artifact_manifest : string) (recorded_paths : gset string) (required : list string)
  : result unit ApplianceError :=
  match required with
  | [] => Ok tt
  | r :: rest =>
      if bool_decide (r ∈ recorded_paths) then check_required artifact_manifest recorded_paths rest
      else Err (MissingRequiredSourceHash artifact_manifest r)
  end.

Definition repository_root (artifact_manifest : string) : option string :=
  (parent artifact_manifest ≫= parent) ≫= parent.

Definition ensure_appliance_sources_fresh (artifact_manifest : string) : result unit ApplianceError :=
  let? repo_root := ok_or (repository_root artifact_manifest) (CannotInferRepositoryRoot artifact_manifest) in
  let? text := map_err (Read artifact_manifest) (read_to_string artifact_manifest) in
  let? manifest := map_err (ParseManifest artifact_manifest) (from_str text) in
  match source_inputs manifest with
  | None | Some [] => Err (MissingSourceHashes artifact_manifest)
  | Some inputs =>
      let? recorded_paths := check_inputs artifact_manifest repo_root ∅ inputs in
      check_required artifact_manifest recorded_paths REQUIRED_APPLIANCE_SOURCE_INPUTS
  end.

End Fresh.

(** ** Facts: digests as text *)

Lemma hex_lower ds : to_ascii_lowercase (hex ds) = hex ds.
Proof.
  induction ds as [|b ds IH]; [done|]. transitivity (show_hex2 (u8 b) ++ to_ascii_lowercase (hex ds)); [by destruct b|].
  by rewrite IH.
Qed.

Lemma hex_inj ds ds' : hex ds = hex ds' -> ds = ds'.
Proof.
  revert ds'. induction ds as [|b ds IH]; intros [|b' ds']; try done. cbn. intros [= H1 H2 H3].
  f_equal; [|by apply IH]. apply u8_inj, (inj Some).
  rewrite <- !parse_show_hex2. unfold show_hex2. by rewrite H1, H2.
Qed.

(** ** Facts: what is accepted *)

Section Accepted.
Context (digest : list byte -> list byte) (from_str : string -> result ApplianceFreshnessManifest string)
  (read_to_string : string -> io_result string).

Implicit Type read : string -> io_result (list byte).

(** An input that stays below the root and whose file still has the recorded digest. *)
Definition unchanged read (repo_root : string) (input : ApplianceSourceInput) : Prop :=
  escapes (path input) = false /\
  exists bytes, read (path_join repo_root (path input)) = Ok bytes /\
    to_ascii_lowercase (sha256 input) = hex (digest bytes).

Lemma check_inputs_spec read m root seen inputs recorded :
  check_inputs digest read m root seen inputs = Ok recorded <->
  Forall (unchanged read root) inputs /\ recorded = list_to_set (rev (map path inputs)) ∪ seen.
Proof.
  revert seen. induction inputs as [|i rest IH]; intros seen; cbn [check_inputs].
  { cbn. rewrite Forall_nil. split; [intros [= ->]|intros [_ ->]; f_equal]; [split; [done|]|]; set_solver. }
  rewrite Forall_cons. unfold unchanged at 1. destruct (escapes (path i)) eqn:E; [by split; [|intros [[[]]]]|].
  unfold sha256_file_hex. destruct (read _) as [bytes|e]; cbn [map_err result_bind]; [|split; [done|naive_solver]].
  destruct (Http.eq_ignore_ascii_case _ _) eqn:Eh; cbn [negb].
  - apply Http.lower_eq in Eh. rewrite hex_lower in Eh. rewrite IH. cbn [map rev]. rewrite list_to_set_app_L.
    split; (intros [? ->]; split; [|set_solver]); naive_solver.
  - split; [done|]. intros [[[_ (b & [= <-] & Hb)] _] _]. exfalso. apply not_true_iff_false in Eh. apply Eh, Http.lower_eq.
    by rewrite hex_lower.
Qed.

Lemma check_required_spec m recorded required :
  check_required m recorded required = Ok tt <-> Forall (fun r => r ∈ recorded) required.
Proof.
  induction required as [|r rest IH]; [by split|]. cbn. rewrite Forall_cons.
  destruct (bool_decide_reflect (r ∈ recorded)); [rewrite IH|]; naive_solver.
Qed.

Lemma ensure_fresh_spec read m :
  ensure_appliance_sources_fresh digest from_str read_to_string read m = Ok tt <->
  exists root text inputs,
    repository_root m = Some root /\ read_to_string m = Ok text /\ from_str text = Ok (mkFreshness (Some inputs)) /\
    Forall (unchanged read root) inputs /\
    Forall (fun r => exists i, i ∈ inputs /\ path i = r) REQUIRED_APPLIANCE_SOURCE_INPUTS.
Proof.
  unfold ensure_appliance_sources_fresh.
  assert (forall inputs, Forall (fun r => exists i, i ∈ inputs /\ path i = r) REQUIRED_APPLIANCE_SOURCE_INPUTS <->
            Forall (fun r => r ∈@{gset string} list_to_set (rev (map path inputs)) ∪ ∅) REQUIRED_APPLIANCE_SOURCE_INPUTS) as Heq.
  { intros inputs. apply Forall_iff. intros r. rewrite elem_of_union, elem_of_list_to_set, elem_of_empty, list_elem_of_In, <- in_rev, in_map_iff.
    setoid_rewrite list_elem_of_In. naive_solver. }
  destruct (repository_root m) as [root|]; cbn [ok_or result_bind]; [|naive_solver].
  destruct (read_to_string m) as [text|]; cbn [map_err result_bind]; [|naive_solver].
  destruct (from_str text) as [[[[|i inputs]|]]|] eqn:Ef; cbn [map_err result_bind source_inputs]; [| |split; [done|by intros (? & ? & ? & ? & [= <-] & ? & _); congruence]..].
  - split; [done|]. intros (? & ? & ins & _ & [= <-] & Ht & _ & Hreq). rewrite Ef in Ht. injection Ht as <-.
    apply Forall_cons in Hreq as [(? & ?%elem_of_nil & _) _]. done.
  - destruct (check_inputs _ _ _ _ _ _) as [rec|] eqn:Ec; cbn [result_bind].
    + apply check_inputs_spec in Ec as [Hall ->]. rewrite check_required_spec, <- Heq. split; [by eauto 10|].
      intros (? & ? & ins & _ & [= <-] & Ht & _ & Hreq). rewrite Ef in Ht. by injection Ht as <-.
    + split; [done|]. intros (? & ? & ins & [= <-] & [= <-] & Ht & Hall & _). rewrite Ef in Ht. injection Ht as <-.
      assert (check_inputs digest read m root ∅ (i :: inputs) = Ok (list_to_set (rev (map path (i :: inputs))) ∪ ∅)) as Hc
        by by apply check_inputs_spec.
      congruence.
Qed.

(** C26 (safety). A launch that checks the appliance does not take one whose sources
    have changed: after a manifest was accepted, the same manifest is refused as soon as
    the digest of one of the required sources differs, or it cannot be read. *)
Theorem changed_source_refused read read' m root source bytes :
  ensure_appliance_sources_fresh digest from_str read_to_string read m = Ok tt ->
  repository_root m = Some root -> source ∈ REQUIRED_APPLIANCE_SOURCE_INPUTS ->
  read (path_join root source) = Ok bytes ->
  (forall bytes', read' (path_join root source) = Ok bytes' -> digest bytes' <> digest bytes) ->
  exists e, ensure_appliance_sources_fresh digest from_str read_to_string read' m = Err e.
Proof.
  intros Hok Hroot Hs Hread Hdiff.
  destruct (ensure_appliance_sources_fresh digest from_str read_to_string read' m) as [[]|e] eqn:Hok'; [|by eexists].
  exfalso. apply ensure_fresh_spec in Hok as (r & text & ins & Hr & Ht & Hf & Hu & Hreq).
  apply ensure_fresh_spec in Hok' as (r' & text' & ins' & Hr' & Ht' & Hf' & Hu' & _).
  assert (r = root) as -> by congruence. assert (r' = root) as -> by congruence.
  assert (text' = text) as -> by congruence. assert (ins' = ins) as -> by congruence.
  rewrite Forall_forall in Hreq. destruct (Hreq _ Hs) as (i & Hi & <-).
  rewrite Forall_forall in Hu, Hu'. destruct (Hu _ Hi) as (_ & b & Hb & Hd). destruct (Hu' _ Hi) as (_ & b' & Hb' & Hd').
  assert (b = bytes) as -> by congruence. apply (Hdiff b'); [done|]. apply hex_inj. by rewrite <- Hd, <- Hd'.
Qed.

End Accepted.

(** ** A witness *)

Definition demo_manifest : ApplianceFreshnessManifest :=
  mkFreshness (Some (map (fun p => mkInput p "AB") REQUIRED_APPLIANCE_SOURCE_INPUTS)).

(** The files have one byte, which is its own digest; one file changes. *)
Definition demo_read (p : string) : io_result (list byte) := Ok [Byte.xab].
Definition demo_changed (p : string) : io_result (list byte) :=
  if bool_decide (p = "/r/Cargo.lock") then Ok [Byte.xac] else Ok [Byte.xab].

Lemma changed_source_refused_witness :
  exists e, ensure_appliance_sources_fresh id (fun _ => Ok demo_manifest) (fun _ => Ok "") demo_changed
              "/r/docker/out/artifact-manifest.json" = Err e.
Proof.
  apply (changed_source_refused id (fun _ => Ok demo_manifest) (fun _ => Ok "") demo_read demo_changed
           "/r/docker/out/artifact-manifest.json" "/r" "Cargo.lock" [Byte.xab]).
  - vm_compute. reflexivity.
  - vm_compute. reflexivity.
  - refine (bool_decide_unpack _ _). vm_compute. exact I.
  - reflexivity.
  - intros bytes' H. vm_compute in H. injection H as <-. discriminate.
Defined.

End Appliance.
