(* ===== verification/LaunchCli.v ===== *)
(** The launch command line (src/vm-frontend/src/launch_cli.rs): the request that is
    read from the arguments, and the mounts, environment, policy and payload listener
    that a launch derives from it.

    clap's matches, the host's environment and the programs [gh] and [aws] are
    parameters. The theorems: [--no-net] reaches the gateway as a policy that denies
    everything; mounts have distinct numbered ids; the environment of the payload hides
    the host's credentials unless they are asked for. *)

From stdpp Require Import base option list numbers strings gmap sets.
From Stdlib Require Import ZArith Lia Ascii String.
From S2P Require Import Prelude RustIo RustStr FsPath NetworkPolicy DnsProxy HttpRequest TcpGateway Frontend HostOps Manifest Namespace.
From S2P Require Import RuntimeManifest Launch CliText Config Appliance.

Local Open Scope string_scope.
Local Open Scope Z_scope.

Module LaunchCli.
Import Policy FsPath Frontend RuntimeManifest CliText Config.

(** Without the two variants that carry an error of the payload's connection; the run of
    a payload is in LaunchRun. *)
Inductive LaunchCliError :=
| Message (text : string)
| ApplianceErr (source : Appliance.ApplianceError)
| ConfigErr (source : ConfigError)
| LoadFrontendConfig (source : Launch.LaunchError)
| InvalidQemuTimeoutSeconds
| InvalidPayloadEnvFormat
| EmptyPayloadEnvKey
| InvalidPayloadRows
| InvalidPayloadCols
| EmptyPayloadScript
| MissingShareShadowParent (parent : string)
| ShareShadowBackingOutsideProject (path : string)
| CreateShareShadowBackingDir (path : string) (source : io_error)
| CreateVmRuntimeRoot (source : io_error)
| OpenProjectVmLock (path : string) (source : io_error)
| ProjectVmBusy (message : string)
| LockProjectVmState (source : io_error)
| RemoveSandbox (source : io_error)
| BindPayloadControlPort (host_addr : string) (source : io_error)
| PayloadControlPortAddr (source : io_error)
| BindLocalHttpSmokeUpstream (source : io_error)
| LocalHttpSmokeUpstreamAddr (source : io_error)
| SpawnLocalHttpSmokeUpstream (source : io_error)
| NoNetWithEgressAllow
| InvalidAllowIpRange (source : Ipv4RangeParseError)
| NoNetWithPublish.

Record PayloadLaunchArgs := mkPayload {
  pl_script : string; pl_cwd : string; pl_env : gmap string string; pl_rows : Z; pl_cols : Z; pl_no_stdin : bool }.

Record GuestPathShare := mkGuestShare {
  gs_host_path : string; gs_guest_path : string; gs_readonly : bool; gs_required : bool }.

Record GuestPathShareShadow := mkShadow {
  parent_guest_path : string; relative_path : string; backing_path : string }.

Record PolicyArgs := mkPolicyArgs {
  pa_allow_ips : list string;
  pa_allow_domains : list string;
  pa_allow_public : bool;
  pa_no_net : bool;
  pa_qemu_timeout : option Z;
  pa_local_http_smoke_upstream : option (Ipv4Addr * Z);
  pa_host_listeners : list HostListener;
  pa_tls_ca_cert : option string;
  pa_tls_ca_key : option string;
  pa_tls_generate_per_host_certs : bool;
  pa_pcap_path : option string;
  pa_payload : option PayloadLaunchArgs;
  pa_gh : bool;
  pa_aws_profile : option string;
  pa_extra_ro : list string;
  pa_extra_rw : list string;
  pa_extra_shares : list GuestPathShare;
  pa_extra_share_shadows : list GuestPathShareShadow
}.

Definition PolicyArgs_default : PolicyArgs :=
  mkPolicyArgs [] [] false false None None [] None None false None None false None [] [] [] [].

Record FrontendLaunchRequest := mkRequest {
  fr_project : string;
  fr_run_dir : string;
  fr_artifact_manifest : string;
  fr_qemu : string;
  fr_guest_http_smoke_url : option string;
  fr_guest_log_dir : option string;
  fr_policy : PolicyArgs
}.

(** ** Paths compared by their components *)

Definition path_eq (a b : string) : bool := bool_decide (components a = components b).

Fixpoint is_prefix (xs ys : list Component) : bool :=
  match xs, ys with
  | [], _ => true
  | x :: xs, y :: ys => bool_decide (x = y) && is_prefix xs ys
  | _ :: _, [] => false
  end.

(** [a.starts_with(base)]. *)
Definition path_starts_with (base a : string) : bool := is_prefix (components base) (components a).

(** ** Arguments *)

Fixpoint try_map {A B E} (f : A -> result B E) (l : list A) : result (list B) E :=
  match l with
  | [] => Ok []
  | a :: l => let? b := f a in let? bs := try_map f l in Ok (b :: bs)
  end.

(** [value.splitn(3, '=')]. *)
Definition splitn3 (value : string) : list string :=
  match split_once "=" value with
  | None => [value]
  | Some (a, rest) =>
      match split_once "=" rest with
      | None => [a; rest]
      | Some (b, c) => [a; b; c]
      end
  end.

(** [parts.next().filter(|part| !part.is_empty())]. *)
Definition nonempty_part (parts : list string) (i : nat) : option string :=
  part ← parts !! i; if bool_decide (part = "") then None else Some part.

Definition validate_no_net_args (no_net allow_public : bool) (allow_ips allow_domains : list string)
  (listeners : list HostListener) : result unit LaunchCliError :=
  if negb no_net then Ok tt
  else if allow_public || negb (len allow_ips =? 0) || negb (len allow_domains =? 0) then Err NoNetWithEgressAllow
  else if existsb (fun l => match purpose l with PublishedTcp => true | _ => false end) listeners
  then Err NoNetWithPublish
  else Ok tt.

Definition validate_launch_policy_args (p : PolicyArgs) : result unit LaunchCliError :=
  let? _ := validate_no_net_args (pa_no_net p) (pa_allow_public p) (pa_allow_ips p) (pa_allow_domains p)
              (pa_host_listeners p) in
  match pa_payload p with
  | Some payload => if bool_decide (pl_script payload = "") then Err EmptyPayloadScript else Ok tt
  | None => Ok tt
  end.

(** [ArgMatches] of clap: the values of an argument by its id. *)
Record ArgMatches := mkMatches {
  get_one : string -> option string; get_many : string -> option (list string); get_flag : string -> bool }.

Definition append_many (m : ArgMatches) (id : string) : list string := default [] (get_many m id).

Section Args.
(** The working directory, the size of the terminal, and the file of the default
    artifact manifest, which is fixed when the program is compiled. *)
Context (current_dir : io_result string) (io_text : io_error -> string) (terminal : Z * Z)
  (default_artifact_manifest_path : string).

Notation absolute_cli_path := (absolute_cli_path current_dir io_text).

Definition cli_path (value : string) : result string LaunchCliError := map_err Message (absolute_cli_path value).

Definition parse_guest_path_share (value : string) (readonly : bool) : result GuestPathShare LaunchCliError :=
  let parts := splitn3 value in
  let? host := ok_or (nonempty_part parts 0) (Message "share host path must not be empty") in
  let? guest := ok_or (nonempty_part parts 1) (Message "share must be HOST=GUEST[=required|optional]") in
  let? required :=
    match parts !! 2%nat with
    | None => Ok true
    | Some v =>
        if bool_decide (v = "required") then Ok true
        else if bool_decide (v = "optional") then Ok false
        else Err (Message ("invalid share requirement: " ++ v))
    end in
  let? host_path := cli_path host in
  let? guest_path := cli_path guest in
  Ok (mkGuestShare host_path guest_path readonly required).

Definition parse_guest_path_share_shadow (value : string) : result GuestPathShareShadow LaunchCliError :=
  let parts := splitn3 value in
  let malformed := Message "share shadow must be PARENT_GUEST=RELATIVE_PATH=BACKING_PATH" in
  let? parent_guest := ok_or (nonempty_part parts 0) (Message "share shadow parent guest path must not be empty") in
  let? relative := ok_or (nonempty_part parts 1) malformed in
  let? backing := ok_or (nonempty_part parts 2) malformed in
  let? parent_guest_path := cli_path parent_guest in
  let? relative_path := map_err ConfigErr (validate_share_shadow_path relative) in
  let? backing_path := cli_path backing in
  Ok (mkShadow parent_guest_path relative_path backing_path).

(** [payload_launch_args]: the payload, made with the terminal's size when there is none. *)
Definition payload_launch_args (p : option PayloadLaunchArgs) : PayloadLaunchArgs :=
  default (mkPayload "" "" ∅ (fst terminal) (snd terminal) false) p.

Definition set_script (s : string) (p : PayloadLaunchArgs) : PayloadLaunchArgs :=
  mkPayload s (pl_cwd p) (pl_env p) (pl_rows p) (pl_cols p) (pl_no_stdin p).

Definition update_payload (f : PayloadLaunchArgs -> PayloadLaunchArgs) (p : option PayloadLaunchArgs)
  : option PayloadLaunchArgs := Some (f (payload_launch_args p)).

Definition payload_env_pair (env : string) : result (string * string) LaunchCliError :=
  match split_once "=" env with
  | None => Err InvalidPayloadEnvFormat
  | Some (key, val) => if bool_decide (key = "") then Err EmptyPayloadEnvKey else Ok (key, val)
  end.

Fixpoint payload_env_args (envs : list string) (p : option PayloadLaunchArgs)
  : result (option PayloadLaunchArgs) LaunchCliError :=
  match envs with
  | [] => Ok p
  | env :: rest =>
      let? (key, val) := payload_env_pair env in
      payload_env_args rest (update_payload (fun p =>
        mkPayload (pl_script p) (pl_cwd p) (<[key := val]> (pl_env p)) (pl_rows p) (pl_cols p) (pl_no_stdin p)) p)
  end.

(** The payload options, in the order they are read. *)
Definition payload_from_matches (m : ArgMatches) : result (option PayloadLaunchArgs) LaunchCliError :=
  let p := None in
  let p := match get_one m "payload_script" with Some s => update_payload (set_script s) p | None => p end in
  let p :=
    match get_one m "payload_cwd" with
    | Some cwd =>
        update_payload (fun p => mkPayload (pl_script p) cwd (pl_env p) (pl_rows p) (pl_cols p) (pl_no_stdin p)) p
    | None => p
    end in
  let? p := payload_env_args (append_many m "payload_env") p in
  let? p :=
    match get_one m "payload_rows" with
    | Some rows =>
        let? n := ok_or (parse_u16 rows) InvalidPayloadRows in
        Ok (update_payload (fun p => mkPayload (pl_script p) (pl_cwd p) (pl_env p) n (pl_cols p) (pl_no_stdin p)) p)
    | None => Ok p
    end in
  let? p :=
    match get_one m "payload_cols" with
    | Some cols =>
        let? n := ok_or (parse_u16 cols) InvalidPayloadCols in
        Ok (update_payload (fun p => mkPayload (pl_script p) (pl_cwd p) (pl_env p) (pl_rows p) n (pl_no_stdin p)) p)
    | None => Ok p
    end in
  Ok (if get_flag m "payload_no_stdin"
      then update_payload (fun p => mkPayload (pl_script p) (pl_cwd p) (pl_env p) (pl_rows p) (pl_cols p) true) p
      else p).

Definition listener_arg (make : Z -> Z -> HostListener) (value : string) : result HostListener LaunchCliError :=
  let? (host_port, guest_port) := map_err Message (parse_port_pair value) in Ok (make host_port guest_port).

(** [frontend_launch_request_from_args] once clap has read the arguments. *)
Definition request_from_matches (m : ArgMatches) : result FrontendLaunchRequest LaunchCliError :=
  let project := default "." (get_one m "project") in
  let run_dir := default ".sandbox/docker-vm/run" (get_one m "run_dir") in
  let artifact_manifest := default default_artifact_manifest_path (get_one m "artifact_manifest") in
  let qemu := default "qemu-system-x86_64" (get_one m "qemu") in
  let? extra_ro := try_map cli_path (append_many m "ro") in
  let? extra_rw := try_map cli_path (append_many m "rw") in
  let? shares_ro := try_map (fun s => parse_guest_path_share s true) (append_many m "share_ro") in
  let? shares_rw := try_map (fun s => parse_guest_path_share s false) (append_many m "share_rw") in
  let? shadows := try_map parse_guest_path_share_shadow (append_many m "share_shadow") in
  let? qemu_timeout :=
    match get_one m "qemu_timeout_seconds" with
    | Some seconds => let? n := ok_or (parse_u64 seconds) InvalidQemuTimeoutSeconds in Ok (Some n)
    | None => Ok None
    end in
  let? upstream :=
    match get_one m "local_http_smoke_upstream" with
    | Some v => let? d := map_err Message (parse_ip_port v) in Ok (Some d)
    | None => Ok None
    end in
  let? docker := try_map (listener_arg docker_api) (append_many m "host_docker_listener") in
  let? payloads := try_map (listener_arg payload_control) (append_many m "host_payload_listener") in
  let? published := try_map (listener_arg published_tcp) (append_many m "publish") in
  let? payload := payload_from_matches m in
  let? project := if negb (is_absolute project) then cli_path project else Ok project in
  let run_dir := if negb (is_absolute run_dir) then path_join project run_dir else run_dir in
  let policy :=
    mkPolicyArgs (append_many m "allow_ip") (append_many m "allow_domain") (get_flag m "allow_public_internet")
      (get_flag m "no_net") qemu_timeout upstream (docker ++ payloads ++ published)%list
      (get_one m "tls_ca_cert") (get_one m "tls_ca_key") (get_flag m "tls_generate_per_host_certs")
      (get_one m "pcap") payload (get_flag m "gh") (get_one m "aws") extra_ro extra_rw
      (shares_ro ++ shares_rw)%list shadows in
  let? _ := validate_launch_policy_args policy in
  Ok (mkRequest project run_dir artifact_manifest qemu (get_one m "guest_http_smoke_url")
        (if get_flag m "mirror_guest_logs" then Some (path_join project ".vmlogs") else None) policy).

(** [try_get_matches_from] of clap on the arguments; an error is its trimmed text. *)
Definition frontend_launch_request_from_args (clap : list string -> result ArgMatches string) (args : list string)
  : result FrontendLaunchRequest LaunchCliError :=
  let? m := map_err Message (clap ("launch" :: args)) in request_from_matches m.

Definition FrontendLaunchRequest_for_project (project : string) : FrontendLaunchRequest :=
  mkRequest project (path_join project ".sandbox/docker-vm/run") default_artifact_manifest_path
    "qemu-system-x86_64" None None PolicyArgs_default.

(** [load] is [FrontendConfig::from_artifact_manifest_file]; [fresh] the check that the
    sources of the appliance are not newer than it. *)
Definition frontend_config_from_launch_request
  (load : string -> string -> string -> string -> result FrontendConfig Launch.LaunchError)
  (fresh : string -> result unit Appliance.ApplianceError) (r : FrontendLaunchRequest)
  : result (FrontendConfig * PolicyArgs) LaunchCliError :=
  let? c := map_err LoadFrontendConfig (load (fr_project r) (fr_run_dir r) (fr_qemu r) (fr_artifact_manifest r)) in
  let c := mkFrontend (project c) (qemu_system_x86_64 c) (artifacts c) (runtime c) (vm c) (network c)
             (fr_guest_http_smoke_url r) (fr_guest_log_dir r) (upstream_mappings c) in
  let? _ := validate_launch_policy_args (fr_policy r) in
  let? _ :=
    match guest_http_smoke_url c with
    | Some _ => map_err ApplianceErr (fresh (fr_artifact_manifest r))
    | None => Ok tt
    end in
  Ok (c, fr_policy r).

End Args.

Definition launch_payload_args (c : FrontendConfig) (p : PolicyArgs) : option PayloadLaunchArgs :=
  payload ← pa_payload p;
  Some (if bool_decide (pl_cwd payload = "")
        then mkPayload (pl_script payload) (project c) (pl_env payload) (pl_rows payload) (pl_cols payload) (pl_no_stdin payload)
        else payload).

(** ** Mounts *)

Section Mounts.
Context {G : Type} `{LaunchFs G} (home : option string).

Definition share_mount (id : Z) (share : GuestPathShare) : RuntimeMount :=
  mkMount (mount_id id "config_share") (gs_host_path share) (gs_guest_path share) (gs_readonly share)
    (if gs_readonly share then UserRo else UserRw) (gs_required share) true.

Fixpoint share_mounts (next_id : Z) (shares : list GuestPathShare) : list RuntimeMount :=
  match shares with
  | [] => []
  | share :: rest => share_mount next_id share :: share_mounts (next_id + 1) rest
  end.

Definition shadow_backing_is_project_local (c : FrontendConfig) (backing : string) : bool :=
  let root := path_join (project c) ".sandbox/root" in
  path_eq backing root || path_starts_with root backing.

Fixpoint shadow_mounts (c : FrontendConfig) (shares : list GuestPathShare) (next_id : Z)
  (shadows : list GuestPathShareShadow) (g : G) : result (list RuntimeMount) LaunchCliError * G :=
  match shadows with
  | [] => (Ok [], g)
  | shadow :: rest =>
      match List.find (fun share => path_eq (gs_guest_path share) (parent_guest_path shadow)) shares with
      | None => (Err (MissingShareShadowParent (parent_guest_path shadow)), g)
      | Some parent =>
          if negb (shadow_backing_is_project_local c (backing_path shadow))
          then (Err (ShareShadowBackingOutsideProject (backing_path shadow)), g)
          else
            match create_dir_all g (backing_path shadow) with
            | (Err e, g) => (Err (CreateShareShadowBackingDir (backing_path shadow) e), g)
            | (Ok _, g) =>
                let m := mkMount (mount_id next_id "share_shadow") (backing_path shadow)
                           (path_join (gs_guest_path parent) (relative_path shadow)) false UserRw true true in
                let '(r, g) := shadow_mounts c shares (next_id + 1) rest g in
                (let? ms := r in Ok (m :: ms), g)
            end
      end
  end.

Definition runtime_mounts (c : FrontendConfig) (p : PolicyArgs) (g : G) : result (list RuntimeMount) LaunchCliError * G :=
  match host_home_dir home with
  | Err e => (Err (Message e), g)
  | Ok host_home =>
      let ms := guest_runtime_mounts (project c) (mkShareSpec host_home (pa_gh p) (pa_extra_ro p) (pa_extra_rw p)) in
      let next_id := len ms + 1 in
      let shares := share_mounts next_id (pa_extra_shares p) in
      let '(r, g) :=
        shadow_mounts c (pa_extra_shares p) (next_id + len (pa_extra_shares p)) (pa_extra_share_shadows p) g in
      (let? shadows := r in Ok (ms ++ shares ++ shadows)%list, g)
  end.

End Mounts.

(** ** The environment of the payload *)

(** [std::process::Output]. *)
Record Output := mkOutput { status : Launch.ExitStatus; stdout : list byte; stderr : list byte }.

(** [String::from_utf8]: the bytes are valid when decoding them replaces nothing. *)
Definition from_utf8 (bs : list byte) : option (list (list byte)) :=
  let chars := Http.from_utf8_lossy bs in
  if bool_decide (List.concat chars = bs) then Some chars else None.

Definition trimmed (chars : list (list byte)) : string := Http.string_of_chars (Http.trim chars).

Definition insert_all (kvs : list (string * string)) (m : gmap string string) : gmap string string :=
  fold_left (fun m kv => <[fst kv := snd kv]> m) kvs m.

Section Env.
(** The variables, the ids of the process, and [Command::output] by program and
    arguments; [from_slice] is serde_json's. *)
Context (home : option string) (var : string -> option string) (euid egid : Z)
  (run : list string -> io_result Output) (io_text : io_error -> string)
  `{Values} (from_slice : list byte -> result value string).

Definition acquire_gh_token : option string :=
  match run ["gh"; "auth"; "token"] with
  | Err _ => None
  | Ok output =>
      if negb (Launch.success (status output)) then None
      else
        chars ← from_utf8 (stdout output);
        let token := trimmed chars in
        if bool_decide (token = "") then None else Some token
  end.

Definition insert_credential (v : value) (name key : string) (m : gmap string string) : gmap string string :=
  match x ← get v name; as_str x with Some s => <[key := s]> m | None => m end.

Definition acquire_aws_credentials (profile : string) : result (gmap string string) string :=
  match run ["aws"; "configure"; "export-credentials"; "--profile"; profile; "--format"; "process"] with
  | Err e => Err ("failed to run aws CLI: " ++ io_text e)
  | Ok output =>
      if negb (Launch.success (status output)) then
        Err ("failed to export AWS credentials for profile '" ++ profile ++ "': " ++
             trimmed (Http.from_utf8_lossy (stderr output)))
      else
        let? credentials := map_err (fun e => "failed to parse AWS credentials: " ++ e) (from_slice (stdout output)) in
        let env :=
          insert_credential credentials "SessionToken" "AWS_SESSION_TOKEN"
            (insert_credential credentials "SecretAccessKey" "AWS_SECRET_ACCESS_KEY"
              (insert_credential credentials "AccessKeyId" "AWS_ACCESS_KEY_ID" ∅)) in
        if bool_decide (env !! "AWS_ACCESS_KEY_ID" = None)
        then Err ("no credentials found for AWS profile '" ++ profile ++ "'")
        else
          Ok match run ["aws"; "configure"; "get"; "region"; "--profile"; profile] with
             | Err _ => env
             | Ok region =>
                 if Launch.success (status region) then
                   let region := trimmed (Http.from_utf8_lossy (stdout region)) in
                   if bool_decide (region = "") then env else <["AWS_DEFAULT_REGION" := region]> env
                 else env
             end
  end.

Definition CA_BUNDLE : string := "/run/agentvm-ca-bundle.pem".

Definition ca_env : list (string * string) :=
  [("SSL_CERT_FILE", CA_BUNDLE); ("REQUESTS_CA_BUNDLE", CA_BUNDLE); ("NODE_EXTRA_CA_CERTS", CA_BUNDLE);
   ("NPM_CONFIG_CAFILE", CA_BUNDLE)].

Definition base_env (guest_home : string) : list (string * string) :=
  let user := default "sandbox" (var "USER") in
  [("HOME", guest_home); ("USER", user); ("LOGNAME", user);
   ("AGENTVM_UID", show_usize euid); ("AGENTVM_GID", show_usize egid);
   ("TERM", default "xterm-256color" (var "TERM")); ("LANG", default "en_US.UTF-8" (var "LANG"));
   ("XDG_CACHE_HOME", guest_home ++ "/.cache"); ("XDG_CONFIG_HOME", guest_home ++ "/.config");
   ("XDG_DATA_HOME", guest_home ++ "/.local/share"); ("XDG_STATE_HOME", guest_home ++ "/.local/state");
   ("PATH", join ":" [guest_home ++ "/.local/share/mise/shims"; guest_home ++ "/.local/bin"; guest_home ++ "/bin";
      "/usr/local/sbin"; "/usr/local/bin"; "/usr/sbin"; "/usr/bin"; "/sbin"; "/bin"]);
   ("TMPDIR", "/tmp"); ("DOCKER_HOST", "tcp://127.0.0.1:1075"); ("SSH_AUTH_SOCK", "");
   ("GIT_CONFIG_GLOBAL", "/dev/null"); ("AWS_SHARED_CREDENTIALS_FILE", "/dev/null");
   ("AWS_CONFIG_FILE", "/dev/null"); ("GOOGLE_APPLICATION_CREDENTIALS", ""); ("KUBECONFIG", "/dev/null")].

Definition guest_payload_env (p : PolicyArgs) : result (gmap string string) LaunchCliError :=
  let env := match pa_tls_ca_cert p with Some _ => insert_all ca_env ∅ | None => ∅ end in
  match pa_payload p, pa_gh p, pa_aws_profile p, pa_tls_ca_cert p with
  | None, false, None, None => Ok env
  | _, _, _, _ =>
      let? guest_home := map_err Message (host_home_dir home) in
      let env := insert_all (base_env guest_home) env in
      let env :=
        if pa_gh p then match acquire_gh_token with Some token => <["GH_TOKEN" := token]> env | None => env end
        else env in
      match pa_aws_profile p with
      | Some profile => let? credentials := map_err Message (acquire_aws_credentials profile) in Ok (credentials ∪ env)
      | None => Ok env
      end
  end.

End Env.

Definition merged_payload_env (base overrides : gmap string string) : gmap string string := overrides ∪ base.

(** ** The policy of the gateway *)

Section PolicyFromArgs.
Context `{Ipv4NetOps}.

Definition policy_from_args (network : GuestNetwork) (args : PolicyArgs) : exec (result VmnetPolicy LaunchCliError) :=
  let! p := default_sandbox network in
  let! ranges := parse_ipv4_ranges (pa_allow_ips args) in
  Ret (
    let? ranges := map_err InvalidAllowIpRange ranges in
    let e := egress p in
    let '(action, reason) :=
      if pa_allow_public args then (AllowPublicInternet, ExplicitAllowProfile)
      else if pa_no_net args then (Deny, NoNetFlag)
      else (default_action e, reason e) in
    Ok (mkPolicy (assignment p) (mtu p)
          (mkEgress action reason (pa_allow_domains args) ranges (deny_ip_ranges e))
          (protocols p) (pa_host_listeners args)
          (mkCapturePolicy (pa_pcap_path args) (bool_decide (is_Some (pa_pcap_path args))))
          (mkTlsMitmPolicy (pa_tls_ca_cert args) (pa_tls_ca_key args) (pa_tls_generate_per_host_certs args)))).

Record PayloadListenerReservation := mkReservation { pr_host_port : Z; pr_listener : option Z }.

Definition GUEST_PAYLOAD_PORT : Z := 1076.

(** [bound] is what binding a loopback port gives: a listener with its [local_addr]. *)
Definition ensure_payload_listener (bound : io_result (io_result Z)) (p : VmnetPolicy)
  : result (PayloadListenerReservation * VmnetPolicy) LaunchCliError :=
  match List.find (fun l => match purpose l with PayloadControl => true | _ => false end) (host_listeners p) with
  | Some l => Ok (mkReservation (host_port l) None, p)
  | None =>
      let? local_addr := map_err (BindPayloadControlPort "127.0.0.1") bound in
      let? port := map_err PayloadControlPortAddr local_addr in
      Ok (mkReservation port (Some port),
          mkPolicy (assignment p) (mtu p) (egress p) (protocols p)
            (host_listeners p ++ [payload_control port GUEST_PAYLOAD_PORT])%list (capture p) (tls_mitm p))
  end.

End PolicyFromArgs.

(** ** Facts: the policy *)

Section PolicyFacts.
Context `{Ipv4NetLaws}.
Import Tcp Dns.

Lemma no_net_args_ok no_net public ips domains listeners :
  validate_no_net_args no_net public ips domains listeners = Ok tt -> no_net = true ->
  public = false /\ ips = [] /\ domains = [] /\ Forall (fun l => purpose l <> PublishedTcp) listeners.
Proof.
  unfold validate_no_net_args. intros Hv ->. cbn [negb] in Hv.
  destruct public; [done|]. destruct ips; [|done]. destruct domains; [|done]. cbn in Hv.
  split_and!; try done. apply Forall_forall. intros l Hl Hp.
  destruct (existsb _ _) eqn:E; [done|]. apply not_true_iff_false in E. apply E, existsb_exists.
  exists l. rewrite <- list_elem_of_In. by rewrite Hp.
Qed.

Lemma validate_policy_no_net p :
  validate_launch_policy_args p = Ok tt -> pa_no_net p = true ->
  pa_allow_public p = false /\ pa_allow_ips p = [] /\ pa_allow_domains p = [] /\
  Forall (fun l => purpose l <> PublishedTcp) (pa_host_listeners p).
Proof.
  unfold validate_launch_policy_args. intros Hv. destruct (validate_no_net_args _ _ _ _ _) as [[]|] eqn:E; [|done].
  by apply no_net_args_ok.
Qed.

Lemma no_net_policy_denies network args policy :
  validate_launch_policy_args args = Ok tt -> pa_no_net args = true ->
  policy_from_args network args = Ret (Ok policy) ->
  (forall d, action (evaluate_tcp_destination policy d) = TcpDeny) /\
  (forall domain, domain_allowed policy domain = false) /\
  Forall (fun l => purpose l <> PublishedTcp) (host_listeners policy).
Proof.
  intros Hv Hn. destruct (validate_policy_no_net args Hv Hn) as (Hp & Hi & Hd & Hl).
  unfold policy_from_args. rewrite Hp, Hi, Hd, Hn. destruct (default_sandbox network); [|done]. cbn.
  intros [= <-]. split_and!; [|done|done]. intros d.
  unfold evaluate_tcp_destination, tcp_destination_allowed. cbn. destruct (dest_domain d); cbn; by repeat case_match.
Qed.

End PolicyFacts.

(** ** Facts: the environment *)

Lemma insert_all_lookup kvs m k :
  k ∉ map fst kvs -> insert_all kvs m !! k = m !! k.
Proof.
  revert m. induction kvs as [|[j v] kvs IH]; intros m Hk; [done|]. cbn in *.
  rewrite IH by set_solver. apply lookup_insert_ne. set_solver.
Qed.

Lemma insert_all_in kvs m k v :
  NoDup (map fst kvs) -> (k, v) ∈ kvs -> insert_all kvs m !! k = Some v.
Proof.
  revert m. induction kvs as [|[j w] kvs IH]; intros m Hd Hin; [by apply elem_of_nil in Hin|].
  cbn in Hd. apply NoDup_cons in Hd as [Hj Hd]. apply elem_of_cons in Hin as [[= -> ->]|Hin]; cbn.
  - rewrite insert_all_lookup by done. apply lookup_insert_eq.
  - by apply IH.
Qed.

(** The names the credentials of AWS are passed under. *)
Definition aws_names : list string :=
  ["AWS_ACCESS_KEY_ID"; "AWS_SECRET_ACCESS_KEY"; "AWS_SESSION_TOKEN"; "AWS_DEFAULT_REGION"].

(** Where a program would find credentials of the host. *)
Definition hidden : list (string * string) :=
  [("SSH_AUTH_SOCK", ""); ("GIT_CONFIG_GLOBAL", "/dev/null"); ("AWS_SHARED_CREDENTIALS_FILE", "/dev/null");
   ("AWS_CONFIG_FILE", "/dev/null"); ("GOOGLE_APPLICATION_CREDENTIALS", ""); ("KUBECONFIG", "/dev/null")].

Lemma hidden_names : Forall (fun kv => fst kv ∉ "GH_TOKEN" :: aws_names) hidden.
Proof. refine (bool_decide_unpack _ _). vm_compute. exact I. Qed.

Lemma gh_token_not_aws : "GH_TOKEN" ∉ aws_names.
Proof. refine (bool_decide_unpack _ _). vm_compute. exact I. Qed.

Section EnvFacts.
Context (home : option string) (var : string -> option string) (euid egid : Z)
  (run : list string -> io_result Output) (io_text : io_error -> string)
  `{Values} (from_slice : list byte -> result value string).

Notation payload_env := (guest_payload_env home var euid egid run io_text from_slice).

Lemma insert_credential_other v name key m k : k <> key -> insert_credential v name key m !! k = m !! k.
Proof. intros Hk. unfold insert_credential. case_match; [|done]. by apply lookup_insert_ne. Qed.

Lemma aws_credentials_names profile m k :
  acquire_aws_credentials run io_text from_slice profile = Ok m -> k ∉ aws_names -> m !! k = None.
Proof.
  unfold acquire_aws_credentials. intros Hm Hk.
  assert (k <> "AWS_ACCESS_KEY_ID" /\ k <> "AWS_SECRET_ACCESS_KEY" /\ k <> "AWS_SESSION_TOKEN" /\ k <> "AWS_DEFAULT_REGION")
    as (H1 & H2 & H3 & H4) by (unfold aws_names in Hk; set_solver).
  destruct (run _) as [o|]; [|done]. destruct (negb _); [done|]. destruct (from_slice _) as [v|]; [|done].
  cbn in Hm. case_bool_decide; [done|]. injection Hm as <-.
  assert (forall n1 n2 n3, insert_credential v n1 "AWS_SESSION_TOKEN" (insert_credential v n2 "AWS_SECRET_ACCESS_KEY"
    (insert_credential v n3 "AWS_ACCESS_KEY_ID" ∅)) !! k = None) as He
    by (intros; by rewrite !insert_credential_other).
  repeat case_match; try done. by rewrite lookup_insert_ne.
Qed.

Lemma base_env_names guest_home :
  map fst (base_env var euid egid guest_home) =
  ["HOME"; "USER"; "LOGNAME"; "AGENTVM_UID"; "AGENTVM_GID"; "TERM"; "LANG"; "XDG_CACHE_HOME"; "XDG_CONFIG_HOME";
   "XDG_DATA_HOME"; "XDG_STATE_HOME"; "PATH"; "TMPDIR"; "DOCKER_HOST"; "SSH_AUTH_SOCK"; "GIT_CONFIG_GLOBAL";
   "AWS_SHARED_CREDENTIALS_FILE"; "AWS_CONFIG_FILE"; "GOOGLE_APPLICATION_CREDENTIALS"; "KUBECONFIG"].
Proof. done. Qed.

(** The variables of a payload before any credentials are added. *)
Definition plain_env (p : PolicyArgs) (guest_home : string) : gmap string string :=
  insert_all (base_env var euid egid guest_home)
    (match pa_tls_ca_cert p with Some _ => insert_all ca_env ∅ | None => ∅ end).

Lemma plain_env_hidden p guest_home k v : (k, v) ∈ hidden -> plain_env p guest_home !! k = Some v.
Proof.
  intros Hin. apply insert_all_in.
  - rewrite base_env_names. refine (bool_decide_unpack _ _). vm_compute. exact I.
  - apply list_elem_of_In in Hin. apply list_elem_of_In. cbn in Hin |- *. tauto.
Qed.

Lemma plain_env_secret p guest_home k : k ∈ "GH_TOKEN" :: aws_names -> plain_env p guest_home !! k = None.
Proof.
  assert (Forall (fun k => k ∉ map fst (base_env var euid egid "") /\ k ∉ map fst ca_env) ("GH_TOKEN" :: aws_names)) as Hn.
  { rewrite base_env_names. refine (bool_decide_unpack _ _). vm_compute. exact I. }
  intros Hk. apply (proj1 (Forall_forall _ _) Hn) in Hk as [Hb Hc]. unfold plain_env.
  rewrite insert_all_lookup by exact Hb. destruct (pa_tls_ca_cert p); [|done]. by rewrite insert_all_lookup.
Qed.

(** C14 (safety). The environment prepared for a payload, before the variables of
    [--payload-env] are added, points every program that looks for the host's credentials
    at nothing, whatever the host's own variables are, and it holds a GitHub token or AWS
    keys only when the launch asks for them. *)
Theorem payload_env_hides_credentials p payload env :
  pa_payload p = Some payload -> payload_env p = Ok env ->
  (forall k v, (k, v) ∈ hidden -> env !! k = Some v) /\
  (pa_gh p = false -> env !! "GH_TOKEN" = None) /\
  (pa_aws_profile p = None -> forall k, k ∈ aws_names -> env !! k = None).
Proof.
  intros Hp. unfold guest_payload_env. rewrite Hp. destruct (host_home_dir home) as [h|]; [|done]. cbn [map_err result_bind].
  fold (plain_env p h). set (env1 := if pa_gh p then _ else _).
  assert (forall k, k <> "GH_TOKEN" -> env1 !! k = plain_env p h !! k) as He.
  { intros k Hk. subst env1. destruct (pa_gh p); [|done]. case_match; [|done]. by apply lookup_insert_ne. }
  assert (forall k v, (k, v) ∈ hidden -> k <> "GH_TOKEN" /\ k ∉ aws_names) as Hh.
  { intros k v Hin. apply (proj1 (Forall_forall _ _) hidden_names) in Hin. by apply not_elem_of_cons in Hin. }
  assert (pa_gh p = false -> env1 !! "GH_TOKEN" = None) as Hg.
  { intros Hf. subst env1. rewrite Hf. apply plain_env_secret. by left. }
  destruct (pa_aws_profile p) as [profile|].
  - destruct (acquire_aws_credentials _ _ _ profile) as [m|] eqn:Em; [|done]. cbn. injection 1 as <-.
    split_and!; [..|done].
    + intros k v Hin. destruct (Hh k v Hin) as [H1 H2]. rewrite lookup_union_r by (by eapply aws_credentials_names).
      rewrite He by done. by apply plain_env_hidden.
    + intros Hf. rewrite lookup_union_r; [by apply Hg|]. eapply aws_credentials_names; [done|apply gh_token_not_aws].
  - injection 1 as <-. split_and!; [|done|].
    + intros k v Hin. destruct (Hh k v Hin) as [H1 _]. rewrite He by done. by apply plain_env_hidden.
    + intros _ k Hk. rewrite He by (intros ->; by apply gh_token_not_aws). apply plain_env_secret. by right.
Qed.

End EnvFacts.

(** ** Facts: mounts *)

Lemma clean_share : clean "config_share".
Proof. intros c (Ha & Hu & _). cbn. repeat (case_decide; [by subst|]). done. Qed.

Lemma clean_shadow : clean "share_shadow".
Proof. intros c (Ha & Hu & _). cbn. repeat (case_decide; [by subst|]). done. Qed.

Lemma share_mounts_numbered k shares : numbered k (map rm_id (share_mounts k shares)).
Proof. revert k. induction shares as [|s shares IH]; intros k; cbn; constructor; [apply clean_share|apply IH]. Qed.

Lemma len_share_mounts k shares : len (share_mounts k shares) = len shares.
Proof. unfold len. f_equal. revert k. induction shares as [|s shares IH]; intros k; [done|]. cbn. by rewrite IH. Qed.

Lemma len_ids (ms : list RuntimeMount) : len (map rm_id ms) = len ms.
Proof. unfold len. by rewrite length_map. Qed.

Section MountFacts.
Context {G : Type} `{LaunchFs G} (home : option string) (c : FrontendConfig).

(** What the mount of a shadow is. *)
Definition shadows_share (shares : list GuestPathShare) (shadow : GuestPathShareShadow) (m : RuntimeMount) : Prop :=
  rm_host_path m = backing_path shadow /\ shadow_backing_is_project_local c (backing_path shadow) = true /\
  rm_readonly m = false /\
  exists share, share ∈ shares /\ path_eq (gs_guest_path share) (parent_guest_path shadow) = true /\
    rm_guest_path m = path_join (gs_guest_path share) (relative_path shadow).

Lemma shadow_mounts_ok shares k shadows (g g' : G) ms :
  shadow_mounts c shares k shadows g = (Ok ms, g') ->
  numbered k (map rm_id ms) /\ Forall2 (shadows_share shares) shadows ms.
Proof.
  revert k g ms. induction shadows as [|shadow shadows IH]; intros k g ms Hm; cbn in Hm.
  { injection Hm as <- <-. split; constructor. }
  destruct (List.find _ _) as [parent|] eqn:Ef; [|done]. destruct (shadow_backing_is_project_local _ _) eqn:El; [|done].
  cbn in Hm. destruct (create_dir_all _ _) as [[[]|e] g1]; [|done].
  destruct (shadow_mounts c shares (k + 1) shadows g1) as [[rest|e] g2] eqn:Es; [|done]. cbn in Hm. injection Hm as <- <-.
  apply IH in Es as [Hn Hf]. apply List.find_some in Ef as [Hin Heq]. split.
  - cbn. constructor; [apply clean_shadow|done].
  - constructor; [|done]. split_and!; try done. exists parent. by rewrite list_elem_of_In.
Qed.

(** The mounts of a launch have distinct ids that are names; every
    shadow is a writable mount of a project-local directory inside one of the shares,
    after the mounts of the shares. *)
Theorem runtime_mounts_wf p (g g' : G) ms :
  runtime_mounts home c p g = (Ok ms, g') ->
  NoDup (map rm_id ms) /\ Forall safe_name (map rm_id ms) /\
  exists base shadows, ms = (base ++ shadows)%list /\ Forall2 (shadows_share (pa_extra_shares p)) (pa_extra_share_shadows p) shadows.
Proof.
  unfold runtime_mounts. destruct (host_home_dir home) as [h|]; [|done].
  set (fixed := guest_runtime_mounts _ _).
  destruct (shadow_mounts _ _ _ _ g) as [[shadows|] g1] eqn:Es; [|done]. cbn [result_bind]. injection 1 as <- <-.
  apply shadow_mounts_ok in Es as [Hn Hf].
  assert (numbered 1 (map rm_id (fixed ++ share_mounts (len fixed + 1) (pa_extra_shares p) ++ shadows))) as Hnum.
  { rewrite !map_app. apply numbered_app; [apply guest_mounts_numbered|]. rewrite len_ids, Z.add_comm.
    apply numbered_app; [apply share_mounts_numbered|]. by rewrite len_ids, len_share_mounts. }
  apply numbered_ids in Hnum as [Hd Hs]; [|lia]. split_and!; [done..|].
  exists (fixed ++ share_mounts (len fixed + 1) (pa_extra_shares p))%list, shadows. split; [|done]. by rewrite List.app_assoc.
Qed.

End MountFacts.

(** ** Paths with [..] *)

Lemma is_prefix_app xs ys : is_prefix xs (xs ++ ys)%list = true.
Proof. induction xs as [|x xs IH]; [done|]. cbn. by rewrite bool_decide_true. Qed.

Lemma absolute_slash p : is_absolute p = true -> exists t, p = String "/" t.
Proof.
  destruct p as [|a p]; [done|]. unfold is_absolute, starts_with. cbn [strip_prefix].
  destruct (decide ("/"%char = a)) as [<-|]; [|done]. intros _. by exists p.
Qed.

Lemma components_below root rest :
  is_absolute root = true ->
  components (root ++ String "/" rest) = (components root ++ omap part_component (split_char "/" rest))%list.
Proof.
  intros [t ->]%absolute_slash. unfold components.
  change (is_absolute (String "/" t ++ String "/" rest)) with true. change (is_absolute (String "/" t)) with true.
  by rewrite split_char_sep, omap_app.
Qed.

Lemma shadow_backing_lexical c rest :
  is_absolute (project c) = true ->
  shadow_backing_is_project_local c (path_join (project c) ".sandbox/root" ++ String "/" rest) = true.
Proof.
  intros Ha. unfold shadow_backing_is_project_local, path_starts_with.
  rewrite components_below, is_prefix_app; [by rewrite orb_true_r|].
  apply absolute_slash in Ha as [t ->]. unfold path_join. change (is_absolute ".sandbox/root") with false.
  rewrite bool_decide_false by done. by destruct (ends_with _ _).
Qed.

(** The directory behind a shadow is compared with the project's by its
    components only, so that any [..] after the prefix is accepted, and the directory it
    leads to is created on the host. *)
Theorem shadow_backing_parent_accepted {G} `{LaunchFs G} c share relative rest k (g : G) :
  is_absolute (project c) = true ->
  let backing := path_join (project c) ".sandbox/root" ++ String "/" rest in
  snd (shadow_mounts c [share] k [mkShadow (gs_guest_path share) relative backing] g) = snd (create_dir_all g backing).
Proof.
  intros Ha backing. cbn [shadow_mounts List.find parent_guest_path backing_path].
  unfold path_eq at 1. rewrite bool_decide_true by done. unfold backing at 1. rewrite shadow_backing_lexical by done.
  cbn [negb]. by destruct (create_dir_all g backing) as [[[]|e] g1].
Qed.

(** ** Witnesses *)

Definition demo_frontend : FrontendConfig :=
  mkFrontend "/p" "qemu" (mkArtifacts "k" "i" "r") (RuntimePaths_under "/p/run") (mkShape 1 1 "" "agentvm")
    GuestNetwork_default None None [].

Definition demo_share : GuestPathShare := mkGuestShare "/srv" "/srv" false true.

Definition demo_policy (no_net : bool) : PolicyArgs :=
  mkPolicyArgs [] [] false no_net None None [] None None false None
    (Some (mkPayload "exec sh" "" ∅ 24 80 false)) false None [] [] [demo_share]
    [mkShadow "/srv" "tmp" "/p/.sandbox/root/srv/tmp"].

#[local] Instance made_dirs : LaunchFs (list string) := {|
  create_dir_all g p := (Ok tt, (g ++ [p])%list);
  path_exists g p := bool_decide (p ∈ g);
  path_is_dir g p := Ok (bool_decide (p ∈ g));
  write_file g p bs := (Ok tt, g);
  written g := []
|}.

Lemma is_ok_inv {A E} (r : result A E) : match r with Ok _ => true | Err _ => false end = true -> exists a, r = Ok a.
Proof. destruct r; [eauto|done]. Qed.

(** A host without [gh] and [aws]. *)
Definition demo_env (p : PolicyArgs) : result (gmap string string) LaunchCliError :=
  guest_payload_env (H := Config.sample_values) (Some "/home/u") (fun _ => None) 1000 1000 (fun _ => Err (OsError 2))
    (fun _ => "") (fun _ => Err "no value") p.

Lemma payload_env_hides_credentials_witness :
  exists env, demo_env (demo_policy false) = Ok env /\
    (forall k v, (k, v) ∈ hidden -> env !! k = Some v) /\
    (pa_gh (demo_policy false) = false -> env !! "GH_TOKEN" = None) /\
    (pa_aws_profile (demo_policy false) = None -> forall k, k ∈ aws_names -> env !! k = None).
Proof.
  destruct (is_ok_inv (demo_env (demo_policy false))) as [env E]; [vm_compute; reflexivity|].
  exists env. split; [exact E|].
  exact (payload_env_hides_credentials (H := Config.sample_values) (Some "/home/u") (fun _ => None) 1000 1000
    (fun _ => Err (OsError 2)) (fun _ => "") (fun _ => Err "no value") (demo_policy false) _ env eq_refl E).
Defined.

End LaunchCli.
