(* ===== verification/TlsBootstrap.v ===== *)
(** The certificate authority of a project (src/vm-frontend/src/tls_bootstrap.rs): it is
    made once and kept in two files.

    rcgen and the host's files are interfaces. The theorems: a new private key can be
    read by its owner only, from the moment its file exists; a key whose writing failed
    is taken for a complete one by the next launch. *)

From stdpp Require Import base option list numbers strings gmap.
From Stdlib Require Import ZArith Lia String.
From S2P Require Import Prelude RustIo RustStr FsPath HostOps Frontend RuntimeManifest.

Local Open Scope string_scope.
Local Open Scope Z_scope.

Module TlsBootstrap.
Import FsPath RuntimeManifest.

Inductive TlsBootstrapError :=
| CreateCaDirectory (path : string) (source : io_error)
| GenerateCaKey (source : string)
| CreateCaParams (source : string)
| GenerateCaCertificate (source : string)
| WriteCaCertificate (path : string) (source : io_error)
| WritePrivateKey (path : string) (source : io_error)
| RestrictPrivateKeyPermissions (path : string) (source : io_error).

Record MitmCaPaths := mkCaPaths { cert : string; key : string }.

(** [CertificateParams] as the program sets them. *)
Inductive KeyUsagePurpose := DigitalSignature | KeyCertSign | CrlSign.

Record CertificateParams := mkParams {
  subject_alt_names : list string; is_ca_unconstrained : bool; common_name : string; key_usages : list KeyUsagePurpose }.

Definition mitm_ca_params : CertificateParams :=
  mkParams [] true "agentvm project MITM CA" [DigitalSignature; KeyCertSign; CrlSign].

(** rcgen: the key pair with its PEM text, whether the parameters can be made, and the
    PEM text of the certificate signed by the key. *)
Class Rcgen := {
  KeyPair : Type;
  generate : result KeyPair string;
  params_new : result unit string;
  self_signed : CertificateParams -> KeyPair -> result string string;
  serialize_pem : KeyPair -> string
}.

(** Files with a mode: [open] with [create], [truncate] and a mode, [write_all] and
    [set_permissions]. *)
Class KeyFs (G : Type) := {
  open_private : G -> string -> Z -> io_result unit * G;
  write_all : G -> string -> string -> io_result unit * G;
  set_permissions : G -> string -> Z -> io_result unit * G;
  mode_of : G -> string -> option Z;
  text_of : G -> string -> option string
}.

(** A new file gets the mode, less what the umask takes away; the mode of an existing one
    stays. A failed write leaves a file with some front part of the text. *)
Class KeyFsLaws (G : Type) `{LaunchFs G} `{KeyFs G} : Prop := {
  open_private_new g p m g' :
    open_private g p m = (Ok tt, g') -> mode_of g p = None ->
    exists umask, mode_of g' p = Some (Z.land m (Z.lnot umask));
  open_private_exists g p m g' : open_private g p m = (Ok tt, g') -> path_exists g' p = true;
  write_all_mode g p s r g' : write_all g p s = (r, g') -> mode_of g' p = mode_of g p;
  write_all_keeps g p s r g' q : write_all g p s = (r, g') -> path_exists g q = true -> path_exists g' q = true;
  write_all_text g p s g' : write_all g p s = (Ok tt, g') -> text_of g' p = Some s;
  set_permissions_mode g p m g' : set_permissions g p m = (Ok tt, g') -> mode_of g' p = Some m;
  set_permissions_text g p m r g' : set_permissions g p m = (r, g') -> text_of g' p = text_of g p;
  open_private_keeps g p m r g' q : open_private g p m = (r, g') -> path_exists g q = true -> path_exists g' q = true
}.

(** 0o600. *)
Definition PRIVATE_MODE : Z := 384.

Section Bootstrap.
Context {G : Type} `{LaunchFs G} `{KeyFs G} `{Rcgen}.

Definition write_private_key (path pem : string) (g : G) : result unit TlsBootstrapError * G :=
  match open_private g path PRIVATE_MODE with
  | (Err e, g) => (Err (WritePrivateKey path e), g)
  | (Ok _, g) =>
      match write_all g path pem with
      | (Err e, g) => (Err (WritePrivateKey path e), g)
      | (Ok _, g) =>
          let '(r, g) := set_permissions g path PRIVATE_MODE in
          (map_err (RestrictPrivateKeyPermissions path) r, g)
      end
  end.

Definition ca_paths (project : string) : MitmCaPaths :=
  let dir := path_join project ".sandbox/docker-vm/ca" in
  mkCaPaths (path_join dir "mitm-ca.crt") (path_join dir "mitm-ca.key").

Definition generate_ca : result (KeyPair * string) TlsBootstrapError :=
  let? key_pair := map_err GenerateCaKey generate in
  let? _ := map_err CreateCaParams params_new in
  let? pem := map_err GenerateCaCertificate (self_signed mitm_ca_params key_pair) in
  Ok (key_pair, pem).

Definition ensure_wrapper_mitm_ca (project : string) (g : G) : result MitmCaPaths TlsBootstrapError * G :=
  let dir := path_join project ".sandbox/docker-vm/ca" in
  let paths := ca_paths project in
  if path_exists g (cert paths) && path_exists g (key paths) then (Ok paths, g)
  else
    match create_dir_all g dir with
    | (Err e, g) => (Err (CreateCaDirectory dir e), g)
    | (Ok _, g) =>
        match generate_ca with
        | Err e => (Err e, g)
        | Ok (key_pair, pem) =>
            match write_file g (cert paths) (list_byte_of_string pem) with
            | (Err e, g) => (Err (WriteCaCertificate (cert paths) e), g)
            | (Ok _, g) =>
                let '(r, g) := write_private_key (key paths) (serialize_pem key_pair) g in
                (let? _ := r in Ok paths, g)
            end
        end
    end.

End Bootstrap.

(** ** Facts *)

Section Facts.
Context {G : Type} `{LaunchFs G} `{KeyFs G} `{!KeyFsLaws G} `{Rcgen}.

(** No one but the owner has any access: the bits of 0o077 are clear. *)
Definition owner_only (mode : Z) : Prop := Z.land mode 63 = 0.

Lemma private_owner_only umask : owner_only (Z.land PRIVATE_MODE (Z.lnot umask)).
Proof.
  unfold owner_only. rewrite (Z.land_comm PRIVATE_MODE), <- Z.land_assoc.
  change (Z.land PRIVATE_MODE 63) with 0. apply Z.land_0_r.
Qed.

(** A private key that has been written has the text and the mode of one. *)
Lemma write_private_key_ok path pem (g g' : G) :
  write_private_key path pem g = (Ok tt, g') -> mode_of g' path = Some PRIVATE_MODE /\ text_of g' path = Some pem.
Proof.
  unfold write_private_key. destruct (open_private g path PRIVATE_MODE) as [[[]|] g1]; [|done].
  destruct (write_all g1 path pem) as [[[]|] g2] eqn:Ew; [|done].
  destruct (set_permissions g2 path PRIVATE_MODE) as [[[]|] g3] eqn:Es; [|done]. cbn. intros [= <-]. split.
  - by eapply set_permissions_mode.
  - rewrite (set_permissions_text _ _ _ _ _ Es). by eapply write_all_text.
Qed.

(** While the text of a new key is written, and also when that fails, only the owner may
    read the file. *)
Lemma new_key_private path pem (g g1 g2 : G) r :
  mode_of g path = None -> open_private g path PRIVATE_MODE = (Ok tt, g1) -> write_all g1 path pem = (r, g2) ->
  exists m1 m2, mode_of g1 path = Some m1 /\ owner_only m1 /\ mode_of g2 path = Some m2 /\ owner_only m2.
Proof.
  intros Hn Ho Hw. destruct (open_private_new _ _ _ _ Ho Hn) as [umask Hm]. exists (Z.land PRIVATE_MODE (Z.lnot umask)), (Z.land PRIVATE_MODE (Z.lnot umask)).
  split_and!; [exact Hm|apply private_owner_only| |apply private_owner_only].
  by rewrite (write_all_mode _ _ _ _ _ Hw).
Qed.

Lemma ensure_paths project (g g' : G) paths : ensure_wrapper_mitm_ca project g = (Ok paths, g') -> paths = ca_paths project.
Proof.
  unfold ensure_wrapper_mitm_ca. destruct (_ && _); [by intros [= <- _]|].
  destruct (create_dir_all g _) as [[[]|] g1]; [|done]. destruct generate_ca as [[key_pair pem]|]; [|done].
  destruct (write_file g1 _ _) as [[[]|] g2]; [|done].
  destruct (write_private_key _ _ g2) as [[[]|] g3]; [|done]. by intros [= <- _].
Qed.

(** A certificate authority that is not taken from an earlier launch has a
    complete private key that only its owner may read and write. *)
Theorem ca_key_private project (g g' : G) paths :
  ensure_wrapper_mitm_ca project g = (Ok paths, g') ->
  paths = ca_paths project /\
  ((path_exists g (cert paths) = true /\ path_exists g (key paths) = true /\ g' = g) \/
   exists key_pair pem, generate_ca = Ok (key_pair, pem) /\
     mode_of g' (key paths) = Some PRIVATE_MODE /\ text_of g' (key paths) = Some (serialize_pem key_pair)).
Proof.
  unfold ensure_wrapper_mitm_ca. destruct (_ && _) eqn:E.
  { intros [= <- <-]. apply andb_true_iff in E as [? ?]. split; [done|]. by left. }
  destruct (create_dir_all g _) as [[[]|] g1]; [|done]. destruct generate_ca as [[key_pair pem]|]; [|done].
  destruct (write_file g1 _ _) as [[[]|] g2]; [|done].
  destruct (write_private_key _ _ g2) as [[[]|] g3] eqn:Ek; [|done]. cbn [result_bind]. intros [= <- <-].
  split; [done|]. right. exists key_pair, pem. split; [done|]. by eapply write_private_key_ok.
Qed.

(** When the text of the key cannot be written in full, the launch fails but
    the file stays, and every later launch takes the two files for the authority. *)
Theorem partial_key_accepted project pem e (g g1 g2 : G) :
  path_exists g (cert (ca_paths project)) = true ->
  open_private g (key (ca_paths project)) PRIVATE_MODE = (Ok tt, g1) ->
  write_all g1 (key (ca_paths project)) pem = (Err e, g2) ->
  write_private_key (key (ca_paths project)) pem g = (Err (WritePrivateKey (key (ca_paths project)) e), g2) /\
  ensure_wrapper_mitm_ca project g2 = (Ok (ca_paths project), g2).
Proof.
  intros Hc Ho Hw. unfold write_private_key. rewrite Ho, Hw. split; [done|].
  unfold ensure_wrapper_mitm_ca. rewrite (write_all_keeps _ _ _ _ _ _ Hw) by (by eapply open_private_keeps).
  by rewrite (write_all_keeps _ _ _ _ _ _ Hw) by (by eapply open_private_exists).
Qed.

End Facts.

(** ** Witnesses *)

(** Files with their mode and text; [full] refuses to write more. *)
Record ca_files := mkCaFiles { files : gmap string (Z * string); full : bool }.

#[local] Instance ca_fs : LaunchFs ca_files := {|
  create_dir_all g p := (Ok tt, g);
  path_exists g p := bool_decide (is_Some (files g !! p));
  path_is_dir g p := Ok false;
  write_file g p bs := (Ok tt, mkCaFiles (<[p := (420, string_of_list_byte bs)]> (files g)) (full g));
  written g := []
|}.

#[local] Instance ca_key_fs : KeyFs ca_files := {|
  open_private g p m :=
    (Ok tt, mkCaFiles (<[p := (match files g !! p with Some (m', _) => m' | None => m end, "")]> (files g)) (full g));
  write_all g p s :=
    match files g !! p with
    | None => (Err (OsError 2), g)
    | Some (m, t) => if full g then (Err (OsError 28), g) else (Ok tt, mkCaFiles (<[p := (m, s)]> (files g)) (full g))
    end;
  set_permissions g p m :=
    match files g !! p with
    | None => (Err (OsError 2), g)
    | Some (_, t) => (Ok tt, mkCaFiles (<[p := (m, t)]> (files g)) (full g))
    end;
  mode_of g p := fst <$> files g !! p;
  text_of g p := snd <$> files g !! p
|}.

Lemma exists_insert (g : gmap string (Z * string)) p x q :
  is_Some (g !! q) -> is_Some (<[p := x]> g !! q).
Proof. rewrite lookup_insert_is_Some. intros ?. destruct (decide (p = q)); [by left|by right]. Qed.

#[local] Instance ca_key_laws : KeyFsLaws ca_files.
Proof.
  split; cbn.
  - intros g p m g' [= <-] Hn. exists 0. cbn. rewrite lookup_insert_eq. destruct (files g !! p); [done|]. cbn.
    by rewrite Z.land_m1_r.
  - intros g p m g' [= <-]. apply bool_decide_eq_true. cbn. rewrite lookup_insert_eq. by eexists.
  - intros g p s r g'. destruct (files g !! p) as [[m t]|] eqn:E; [destruct (full g)|]; intros [= <- <-]; cbn;
      by rewrite ?lookup_insert_eq, ?E.
  - intros g p s r g' q. rewrite !bool_decide_eq_true.
    destruct (files g !! p) as [[m t]|]; [destruct (full g)|]; intros [= <- <-]; try done. cbn. apply exists_insert.
  - intros g p s g'. destruct (files g !! p) as [[m t]|]; [destruct (full g)|]; intros [= <-]. cbn. by rewrite lookup_insert_eq.
  - intros g p m g'. destruct (files g !! p) as [[m' t]|]; intros [= <-]. cbn. by rewrite lookup_insert_eq.
  - intros g p m r g'. destruct (files g !! p) as [[m' t]|] eqn:E; intros [= <- <-]; cbn;
      by rewrite ?lookup_insert_eq, ?E.
  - intros g p m r g' q [= <- <-]. rewrite !bool_decide_eq_true. cbn. apply exists_insert.
Qed.

#[local] Instance one_key : Rcgen := {|
  KeyPair := unit;
  generate := Ok tt;
  params_new := Ok tt;
  self_signed _ _ := Ok "certificate";
  serialize_pem _ := "private key"
|}.

Definition demo_paths : MitmCaPaths := ca_paths "/p".

Example ca_key_private_example :
  exists g', ensure_wrapper_mitm_ca "/p" (mkCaFiles ∅ false) = (Ok demo_paths, g') /\
    mode_of g' (key demo_paths) = Some PRIVATE_MODE /\ text_of g' (key demo_paths) = Some "private key".
Proof.
  eexists. split; [vm_compute; reflexivity|].
  destruct (ca_key_private "/p" (mkCaFiles ∅ false)
    (snd (ensure_wrapper_mitm_ca "/p" (mkCaFiles ∅ false))) demo_paths) as [_ [(Hc & _)|(kp & pem & _ & Hm & Ht)]];
    [vm_compute; reflexivity|vm_compute in Hc; discriminate Hc|].
  split; [exact Hm|exact Ht].
Defined.

Example partial_key_accepted_example :
  exists g1 g2, ensure_wrapper_mitm_ca "/p" (mkCaFiles {[ cert demo_paths := (420, "certificate") ]} true)
      = (Err (WritePrivateKey (key demo_paths) (OsError 28)), g1) /\
    ensure_wrapper_mitm_ca "/p" g2 = (Ok demo_paths, g2) /\ text_of g2 (key demo_paths) = Some "".
Proof.
  set (g := mkCaFiles {[ cert demo_paths := (420, "certificate") ]} true).
  eexists _, (snd (open_private g (key demo_paths) PRIVATE_MODE)). split; [vm_compute; reflexivity|].
  split; [|vm_compute; reflexivity].
  apply (partial_key_accepted "/p" "private key" (OsError 28) g (snd (open_private g (key demo_paths) PRIVATE_MODE)));
    [vm_compute; reflexivity..].
Defined.

End TlsBootstrap.
