(* ===== verification/Wrapper.v ===== *)
(** The command line of the wrapper (src/vm-frontend/src/wrapper.rs): the launch that is
    put together from the arguments, the project's configuration and the defaults.

    clap's matches, shlex and serde_json are the interfaces of the files this one uses.
    The theorems: the shadows of a configuration stay below the project's directory for
    them and are accepted by the launch; [--no-net] cannot be undone by a configuration;
    an allowlist without entries opens the network. *)

From stdpp Require Import base option list numbers strings gmap sets.
From Stdlib Require Import ZArith Lia Ascii String.
From S2P Require Import Prelude RustIo RustStr FsPath NetworkPolicy DnsProxy HttpRequest TcpGateway Frontend HostOps Manifest Namespace.
From S2P Require Import RuntimeManifest Launch CliText Config Appliance LaunchCli TlsBootstrap.

Local Open Scope string_scope.
Local Open Scope Z_scope.

Module Wrapper.
Import Policy FsPath Frontend RuntimeManifest CliText Config LaunchCli.

(** Errors are kept as values where the code turns them into their text. *)
Inductive WrapperError :=
| Parse (text : string)
| Reset (source : LaunchCliError)
| WrapperConfig (source : ConfigError)
| TuiErr (text : string)
| TlsBootstrapErr (source : TlsBootstrap.TlsBootstrapError)
| LaunchErr (source : LaunchCliError)
| PathError (text : string)
| ShareShadowGuestPathMustBeAbsolute
| EscapingShareShadowGuestPath.

Inductive WrapperUiMode := Tui | Plain.

Definition wrapper_ui_mode (no_tui stdin_is_tty stdout_is_tty : bool) : WrapperUiMode :=
  if no_tui || negb stdin_is_tty || negb stdout_is_tty then Plain else Tui.

Record WrapperArgs := mkWrapperArgs {
  wa_project : string;
  wa_launch : FrontendLaunchRequest;
  wa_ui_mode : WrapperUiMode;
  wa_setup_tool : option SetupTool;
  wa_tls_bootstrap : bool;
  wa_reset : bool;
  wa_edit_config : bool;
  wa_help : bool
}.

(** ** Assignments to a launch *)

Definition set_policy (p : PolicyArgs) (l : FrontendLaunchRequest) : FrontendLaunchRequest :=
  mkRequest (fr_project l) (fr_run_dir l) (fr_artifact_manifest l) (fr_qemu l) (fr_guest_http_smoke_url l)
    (fr_guest_log_dir l) p.

Definition set_network (ips domains : list string) (public no_net : bool) (p : PolicyArgs) : PolicyArgs :=
  mkPolicyArgs ips domains public no_net (pa_qemu_timeout p) (pa_local_http_smoke_upstream p) (pa_host_listeners p)
    (pa_tls_ca_cert p) (pa_tls_ca_key p) (pa_tls_generate_per_host_certs p) (pa_pcap_path p) (pa_payload p) (pa_gh p)
    (pa_aws_profile p) (pa_extra_ro p) (pa_extra_rw p) (pa_extra_shares p) (pa_extra_share_shadows p).

Definition set_auth (gh : bool) (aws : option string) (p : PolicyArgs) : PolicyArgs :=
  mkPolicyArgs (pa_allow_ips p) (pa_allow_domains p) (pa_allow_public p) (pa_no_net p) (pa_qemu_timeout p)
    (pa_local_http_smoke_upstream p) (pa_host_listeners p) (pa_tls_ca_cert p) (pa_tls_ca_key p)
    (pa_tls_generate_per_host_certs p) (pa_pcap_path p) (pa_payload p) gh aws (pa_extra_ro p) (pa_extra_rw p)
    (pa_extra_shares p) (pa_extra_share_shadows p).

Definition push_shares (shares : list GuestPathShare) (shadows : list GuestPathShareShadow) (p : PolicyArgs) : PolicyArgs :=
  mkPolicyArgs (pa_allow_ips p) (pa_allow_domains p) (pa_allow_public p) (pa_no_net p) (pa_qemu_timeout p)
    (pa_local_http_smoke_upstream p) (pa_host_listeners p) (pa_tls_ca_cert p) (pa_tls_ca_key p)
    (pa_tls_generate_per_host_certs p) (pa_pcap_path p) (pa_payload p) (pa_gh p) (pa_aws_profile p) (pa_extra_ro p)
    (pa_extra_rw p) (pa_extra_shares p ++ shares)%list (pa_extra_share_shadows p ++ shadows)%list.

Definition push_listeners (ls : list HostListener) (p : PolicyArgs) : PolicyArgs :=
  mkPolicyArgs (pa_allow_ips p) (pa_allow_domains p) (pa_allow_public p) (pa_no_net p) (pa_qemu_timeout p)
    (pa_local_http_smoke_upstream p) (pa_host_listeners p ++ ls)%list (pa_tls_ca_cert p) (pa_tls_ca_key p)
    (pa_tls_generate_per_host_certs p) (pa_pcap_path p) (pa_payload p) (pa_gh p) (pa_aws_profile p) (pa_extra_ro p)
    (pa_extra_rw p) (pa_extra_shares p) (pa_extra_share_shadows p).

Definition set_payload (payload : option PayloadLaunchArgs) (p : PolicyArgs) : PolicyArgs :=
  mkPolicyArgs (pa_allow_ips p) (pa_allow_domains p) (pa_allow_public p) (pa_no_net p) (pa_qemu_timeout p)
    (pa_local_http_smoke_upstream p) (pa_host_listeners p) (pa_tls_ca_cert p) (pa_tls_ca_key p)
    (pa_tls_generate_per_host_certs p) (pa_pcap_path p) payload (pa_gh p) (pa_aws_profile p) (pa_extra_ro p)
    (pa_extra_rw p) (pa_extra_shares p) (pa_extra_share_shadows p).

(** ** The configuration *)

Fixpoint push_backing (backing : string) (cs : list Component) : result string WrapperError :=
  match cs with
  | [] => Ok backing
  | (RootDir | CurDir) :: rest => push_backing backing rest
  | Normal part :: rest => push_backing (path_join backing part) rest
  | ParentDir :: _ => Err EscapingShareShadowGuestPath
  end.

Definition config_share_shadow_backing_path (project guest_path : string) : result string WrapperError :=
  if negb (is_absolute guest_path) then Err ShareShadowGuestPathMustBeAbsolute
  else push_backing (path_join project ".sandbox/root") (components guest_path).

Section Configured.
Context (current_dir : io_result string) (io_text : io_error -> string).

Definition wrapper_path (value : string) : result string WrapperError :=
  map_err PathError (absolute_cli_path current_dir io_text value).

Definition configured_shadow (project guest shadow : string) : result GuestPathShareShadow WrapperError :=
  let? relative_path := map_err WrapperConfig (validate_share_shadow_path shadow) in
  let? backing_path := config_share_shadow_backing_path project (path_join guest relative_path) in
  Ok (mkShadow guest relative_path backing_path).

(** One turn of the loop over the shares. *)
Definition configured_share (project : string) (share : ConfigShare)
  : result (GuestPathShare * list GuestPathShareShadow) WrapperError :=
  let? host := wrapper_path (cs_host_path share) in
  let? guest :=
    match cs_guest_path share with
    | Some path => wrapper_path path
    | None => Ok host
    end in
  let? shadows := try_map (configured_shadow project guest) (shadows share) in
  Ok (mkGuestShare host guest (bool_decide (cs_access share = Ro)) (cs_required share), shadows).

(** The network of a configuration, when the command line says nothing about it. *)
Definition apply_network (config : WrapperSandboxConfig) (saw_network_override : bool) (p : PolicyArgs) : PolicyArgs :=
  if saw_network_override then p
  else
    match cn_mode (wc_network config) with
    | Public => set_network (pa_allow_ips p) (pa_allow_domains p) true (pa_no_net p) p
    | NoNetwork => set_network (pa_allow_ips p) (pa_allow_domains p) (pa_allow_public p) true p
    | Allowlist =>
        set_network (pa_allow_ips p ++ allowed_ips (wc_network config))%list
          (pa_allow_domains p ++ allowed_domains (wc_network config) ++ allowed_hosts (wc_network config))%list
          (pa_allow_public p) (pa_no_net p) p
    end.

Definition apply_configured_launch_defaults (l : FrontendLaunchRequest) (config : WrapperSandboxConfig)
  (project : string) (saw_network_override cli_no_net : bool) : result FrontendLaunchRequest WrapperError :=
  let p := apply_network config saw_network_override (fr_policy l) in
  let p := set_auth (pa_gh p || github (auth config))
             (match pa_aws_profile p with Some profile => Some profile | None => auth_aws_profile (auth config) end) p in
  let? shares := try_map (configured_share project) (shares config) in
  let p := push_shares (map fst shares) (List.concat (map snd shares)) p in
  let config_no_net := negb saw_network_override && bool_decide (cn_mode (wc_network config) = NoNetwork) in
  let p :=
    if negb cli_no_net && negb config_no_net
    then push_listeners (map (fun port => published_tcp (cp_host port) (cp_guest port)) (published_ports config)) p
    else p in
  Ok (set_policy p l).

End Configured.

(** ** The payload *)

Section Payload.
Context `{Shlex} (terminal : Z * Z).

Definition apply_payload_script (script : string) (l : FrontendLaunchRequest) : FrontendLaunchRequest :=
  set_policy (set_payload (update_payload terminal (set_script script) (pa_payload (fr_policy l))) (fr_policy l)) l.

Definition setup_tool_mise_exec_script (project : string) (tool : SetupTool) (final_script : string) : exec string :=
  mise_exec_script (project_mise_config_path project) ("agentvm: mise is required to install " ++ cli tool ++ " CLI")
    final_script.

Definition wrap_payload_script_with_project_mise (l : FrontendLaunchRequest) (project : string)
  : exec FrontendLaunchRequest :=
  match pa_payload (fr_policy l) with
  | None => Ret l
  | Some payload =>
      let! script := mise_exec_script (project_mise_config_path project)
                       "agentvm: mise is required to run tools from project mise.toml" (pl_script payload) in
      Ret (set_policy (set_payload (Some (set_script script payload)) (fr_policy l)) l)
  end.

(** The choice of the command, with the configuration as [config]. *)
Definition command_payload (l : FrontendLaunchRequest) (project : string) (tool : option SetupTool)
  (command_override : option ConfigCommand) (config : option WrapperSandboxConfig) : exec FrontendLaunchRequest :=
  match tool with
  | Some tool =>
      let! command :=
        match command_override, config with
        | Some command, _ => Ret command
        | None, Some config => Ret (default_command config)
        | None, None => Panic
        end in
      let! final_script := payload_script_from_config_command command in
      let! script := setup_tool_mise_exec_script project tool final_script in
      Ret (apply_payload_script script l)
  | None =>
      let command :=
        match command_override, config with
        | Some command, _ => command
        | None, Some config => default_command config
        | None, None => ConfigCommand_new "bash"
        end in
      let! script := payload_script_from_config_command command in
      Ret (apply_payload_script script l)
  end.

(** The script of the command, run through mise when the project has a mise.toml. *)
Definition choose_payload (l : FrontendLaunchRequest) (project : string) (tool : option SetupTool)
  (command_override : option ConfigCommand) (config : option WrapperSandboxConfig) (mise_exists : bool)
  : exec FrontendLaunchRequest :=
  let! l := command_payload l project tool command_override config in
  match tool with
  | None => if mise_exists then wrap_payload_script_with_project_mise l project else Ret l
  | Some _ => Ret l
  end.

End Payload.

(** The network when nothing was said about it, and whether its traffic is intercepted. *)
Definition finish_network (no_net : bool) (p : PolicyArgs) : PolicyArgs * bool :=
  if negb no_net && negb (pa_no_net p) && (len (pa_allow_ips p) =? 0) && (len (pa_allow_domains p) =? 0)
     && negb (pa_allow_public p)
  then (set_network (pa_allow_ips p) (pa_allow_domains p) true (pa_no_net p) p, true)
  else (p, pa_allow_public p || negb (len (pa_allow_ips p) =? 0) || negb (len (pa_allow_domains p) =? 0)).

(** ** Arguments *)

(** clap's matches for the wrapper, with the typed values of [docker_publish]. *)
Record WrapperMatches := mkWrapperMatches {
  wm_args : ArgMatches; contains_id : string -> bool; docker_publish : option (list PortPair) }.

(** [DisplayHelp] with the result of printing it, or another error's trimmed text. *)
Inductive ClapError := DisplayHelp (printed : io_result unit) | ClapMessage (text : string).

(** [args.iter().position(|arg| arg == "--")], and the two parts. *)
Fixpoint split_separator (args : list string) : list string * list string :=
  match args with
  | [] => ([], [])
  | arg :: rest =>
      if bool_decide (arg = "--") then ([], rest)
      else let '(before, after) := split_separator rest in (arg :: before, after)
  end.

Section WrapperCli.
Context `{Values} `{Shlex} (home : option string) (current_dir : io_result string) (io_text : io_error -> string)
  (terminal : Z * Z) (default_artifact_manifest_path : string)
  (read : string -> io_result string) (exists_ : string -> bool)
  (clap : list string -> result WrapperMatches ClapError).

Notation path_arg := (wrapper_path current_dir io_text).

(** The working directory is read also when a project is given. *)
Definition project_arg (m : WrapperMatches) : result string WrapperError :=
  let? given :=
    match get_one (wm_args m) "project" with Some p => let? p := path_arg p in Ok (Some p) | None => Ok None end in
  let? cwd := map_err (fun e => Parse (io_text e)) current_dir in
  Ok (default cwd given).

(** The launch the matches describe, before the configuration. *)
Definition launch_from_matches (m : WrapperMatches) (project : string) : result FrontendLaunchRequest WrapperError :=
  let a := wm_args m in
  let base := FrontendLaunchRequest_for_project default_artifact_manifest_path project in
  let? extra_ro := try_map path_arg (append_many a "ro") in
  let? extra_rw := try_map path_arg (append_many a "rw") in
  let listeners := map (fun p => published_tcp (host p) (guest p)) (default [] (docker_publish m)) in
  Ok (mkRequest (fr_project base) (fr_run_dir base)
        (default (fr_artifact_manifest base) (get_one a "artifact_manifest"))
        (default (fr_qemu base) (get_one a "qemu")) (fr_guest_http_smoke_url base)
        (if get_flag a "mirror_guest_logs" then Some (path_join project ".vmlogs") else None)
        (mkPolicyArgs (append_many a "allow_ip") (append_many a "allow_domain") false (get_flag a "no_net") None None
           listeners None None false None None (get_flag a "gh") (get_one a "aws") extra_ro extra_rw [] [])).

Definition setup_tool_arg (m : WrapperMatches) : result (option SetupTool) WrapperError :=
  match get_one (wm_args m) "setup_tool" with
  | Some t => let? tool := map_err WrapperConfig (SetupTool_parse t) in Ok (Some tool)
  | None => Ok None
  end.

(** The configuration of the tool that is set up, or of the project. *)
Definition configuration (tool : option SetupTool) (project : string)
  : exec (result (option WrapperSandboxConfig) WrapperError) :=
  match tool with
  | Some tool => Ret (let? c := map_err WrapperConfig (setup_tool home tool) in Ok (Some c))
  | None => let! r := read_wrapper_sandbox_config home read project in Ret (map_err WrapperConfig r)
  end.

Definition apply_configuration (config : option WrapperSandboxConfig) (project : string) (saw_override no_net : bool)
  (l : FrontendLaunchRequest) : result FrontendLaunchRequest WrapperError :=
  match config with
  | Some c => apply_configured_launch_defaults current_dir io_text l c project saw_override no_net
  | None => Ok l
  end.

(** The part after clap; [command] is what follows the separator. *)
Definition args_from_matches (m : WrapperMatches) (command : list string) (stdin_is_tty stdout_is_tty : bool)
  : exec (result WrapperArgs WrapperError) :=
  let flag := get_flag (wm_args m) in
  let no_net := flag "no_net" in
  let saw_network_override := no_net || contains_id m "allow_ip" || contains_id m "allow_domain" in
  let ui_mode := wrapper_ui_mode (flag "no_tui") stdin_is_tty stdout_is_tty in
  let command_override := match command with [] => None | c :: args => Some (mkCommand c args) end in
  let!? project := Ret (project_arg m) in
  let!? tool := Ret (setup_tool_arg m) in
  let!? launch := Ret (launch_from_matches m project) in
  if flag "reset" then Ret (Ok (mkWrapperArgs project launch ui_mode tool false true (flag "config") false))
  else
    let!? config := configuration tool project in
    let!? launch := Ret (apply_configuration config project saw_network_override no_net launch) in
    let! launch := choose_payload terminal launch project tool command_override config
                     (exists_ (project_mise_config_path project)) in
    let '(policy, tls_bootstrap) := finish_network no_net (fr_policy launch) in
    Ret (Ok (mkWrapperArgs project (set_policy policy launch) ui_mode tool tls_bootstrap false (flag "config") false)).

Definition parse_wrapper_args_with_terminal (args : list string) (stdin_is_tty stdout_is_tty : bool)
  : exec (result WrapperArgs WrapperError) :=
  let '(parse_args, command) := split_separator args in
  match clap ("agentvm" :: parse_args) with
  | Ok m => args_from_matches m command stdin_is_tty stdout_is_tty
  | Err (DisplayHelp printed) =>
      Ret (let? _ := map_err (fun e => Parse (io_text e)) printed in
           let? project := map_err (fun e => Parse (io_text e)) current_dir in
           Ok (mkWrapperArgs project (FrontendLaunchRequest_for_project default_artifact_manifest_path project)
                 (wrapper_ui_mode false stdin_is_tty stdout_is_tty) None false false false true))
  | Err (ClapMessage text) => Ret (Err (Parse text))
  end.

End WrapperCli.

(** ** Facts: shadows *)

Lemma try_map_ok {A B E} (f : A -> result B E) l bs : try_map f l = Ok bs -> Forall2 (fun a b => f a = Ok b) l bs.
Proof.
  revert bs. induction l as [|a l IH]; intros bs Hm; cbn in Hm; [injection Hm as <-; constructor|].
  destruct (f a) as [b|] eqn:Ef; [|done]. cbn in Hm. destruct (try_map f l) as [cs|]; [|done]. injection Hm as <-.
  constructor; [done|]. by apply IH.
Qed.

(** A relative path adds its components to an absolute one. *)
Lemma components_join base p :
  is_absolute base = true -> is_absolute p = false ->
  components (path_join base p) = (components base ++ omap part_component (split_char "/" p))%list.
Proof.
  intros Ha Hp. unfold path_join. rewrite Hp.
  rewrite bool_decide_false by (by intros ->). destruct (ends_with "/" base) eqn:E.
  - apply ends_with_iff in E as [t ->]. rewrite str_app_assoc. change ("/" ++ p) with (String "/" p).
    unfold components. rewrite Ha. replace (is_absolute (t ++ String "/" p)) with true.
    2:{ destruct t as [|a t]; [done|]. apply absolute_slash in Ha as [u Hu]. by injection Hu as -> _. }
    change (t ++ "/") with (t ++ String "/" ""). rewrite !split_char_sep, !omap_app. cbn. by rewrite app_nil_r.
  - change ("/" ++ p) with (String "/" p). by rewrite components_below.
Qed.

Lemma components_join_name base s :
  is_absolute base = true -> name_ok s -> components (path_join base s) = (components base ++ [Normal s])%list.
Proof.
  intros Ha Hs. rewrite components_join by (done || by apply name_not_absolute). f_equal.
  destruct Hs as (H1 & H2 & H3 & H4). rewrite split_char_none by done. cbn. unfold part_component.
  by rewrite !bool_decide_false.
Qed.

Lemma path_join_absolute base s : is_absolute base = true -> is_absolute (path_join base s) = true.
Proof.
  intros Ha. unfold path_join. destruct (is_absolute s) eqn:Es; [done|].
  apply absolute_slash in Ha as [t ->]. rewrite bool_decide_false by done. by destruct (ends_with _ _).
Qed.

Lemma push_backing_names base names :
  is_absolute base = true -> Forall name_ok names ->
  exists backing, push_backing base (map Normal names) = Ok backing /\
    components backing = (components base ++ map Normal names)%list.
Proof.
  intros Ha Hn. revert base Ha. induction Hn as [|s names Hs _ IH]; intros base Ha; cbn.
  - exists base. by rewrite app_nil_r.
  - destruct (IH (path_join base s)) as (backing & E & Hc); [by apply path_join_absolute|].
    exists backing. split; [done|]. rewrite Hc, components_join_name by done. by rewrite <- List.app_assoc.
Qed.

Lemma push_backing_parent base cs : ParentDir ∈ cs -> push_backing base cs = Err EscapingShareShadowGuestPath.
Proof.
  revert base. induction cs as [|c cs IH]; intros base Hin; [by apply elem_of_nil in Hin|].
  destruct c; cbn; try done; apply IH; by apply elem_of_cons in Hin as [|].
Qed.

Lemma root_absolute project : is_absolute project = true -> is_absolute (path_join project ".sandbox/root") = true.
Proof. apply path_join_absolute. Qed.

(** The directory behind a shadow is the guest's path, name by name, below the root. *)
Lemma backing_path_ok project guest backing :
  is_absolute project = true -> config_share_shadow_backing_path project guest = Ok backing ->
  exists names, Forall name_ok names /\ components guest = RootDir :: map Normal names /\
    components backing = (components (path_join project ".sandbox/root") ++ map Normal names)%list.
Proof.
  intros Hp. unfold config_share_shadow_backing_path. destruct (is_absolute guest) eqn:Ha; [|done]. cbn [negb].
  unfold components at 1 2. rewrite Ha. cbn [push_backing].
  destruct (decide (ParentDir ∈ omap part_component (split_char "/" guest))) as [Hd|Hd].
  { by rewrite push_backing_parent. }
  destruct (omap_names (split_char "/" guest)) as (names & En & Hn); [apply split_char_parts|done|]. rewrite En.
  destruct (push_backing_names (path_join project ".sandbox/root") names) as (b & E & Hc);
    [by apply root_absolute|done|]. rewrite E. injection 1 as <-. by exists names.
Qed.

Section ConfiguredFacts.
Context (current_dir : io_result string) (io_text : io_error -> string).

(** The share of a shadow is among the shares, and the directory behind it is
    below the root. *)
Definition shadow_local (project : string) (shares : list GuestPathShare) (s : GuestPathShareShadow) : Prop :=
  (exists share, share ∈ shares /\ gs_guest_path share = parent_guest_path s) /\
  exists names, components (backing_path s) = (components (path_join project ".sandbox/root") ++ map Normal names)%list.

(** What becomes of a shadow that the configuration writes as [w.2] in its share
    [w.1]: it lies in the guest at the path of the share, [above], followed by the
    names it is written with, [below], of which there is at least one; and the
    directory behind it is the root followed by exactly these names. *)
Definition shadow_ok (project : string) (w : ConfigShare * string) (s : GuestPathShareShadow) : Prop :=
  wrapper_path current_dir io_text (default (cs_host_path w.1) (cs_guest_path w.1)) = Ok (parent_guest_path s) /\
  exists above below, Forall name_ok above /\ Forall name_ok below /\ below <> [] /\
    components (parent_guest_path s) = RootDir :: map Normal above /\
    omap part_component (split_char "/" w.2) = map Normal below /\ relative_path s = join "/" below /\
    components (backing_path s) =
      (components (path_join project ".sandbox/root") ++ map Normal (above ++ below))%list.

(** The shadows of a configuration, each with its share. *)
Definition written_shadows (cs : list ConfigShare) : list (ConfigShare * string) :=
  flat_map (fun share => map (pair share) (shadows share)) cs.

Lemma omap_name_ok names : Forall name_ok names -> omap part_component names = map Normal names.
Proof.
  induction 1 as [|s names (? & ? & ? & _) _ IH]; [done|]. cbn. unfold part_component at 1.
  by rewrite !bool_decide_false, IH.
Qed.

Lemma map_Normal_split names below (cs : list Component) :
  (cs ++ map Normal below)%list = map Normal names ->
  exists above, names = (above ++ below)%list /\ cs = map Normal above.
Proof.
  revert names. induction cs as [|c cs IH]; intros names E; cbn in E.
  - exists []. split; [|done]. apply (list_fmap_eq_inj Normal); [congruence|]. by symmetry.
  - destruct names as [|n names]; [done|]. injection E as -> E. destruct (IH names E) as (above & -> & ->).
    by exists (n :: above).
Qed.

Lemma configured_shadow_ok project share guest written s :
  is_absolute project = true ->
  wrapper_path current_dir io_text (default (cs_host_path share) (cs_guest_path share)) = Ok guest ->
  configured_shadow project guest written = Ok s ->
  shadow_ok project (share, written) s /\ parent_guest_path s = guest.
Proof.
  intros Hp Hg. unfold configured_shadow.
  destruct (validate_share_shadow_path written) as [rel|] eqn:Ev; [|done]. cbn.
  destruct (config_share_shadow_backing_path _ _) as [b|] eqn:Eb; [|done]. cbn. injection 1 as <-. split; [|done].
  split; [exact Hg|]. apply validate_shadow_ok in Ev as (below & Hne & Hb & Eo & ->).
  pose proof (join_names_relative below Hb) as Hrel.
  assert (is_absolute guest = true) as Ha.
  { unfold config_share_shadow_backing_path in Eb. destruct (is_absolute (path_join _ _)) eqn:E; [|done].
    revert E. unfold path_join. rewrite Hrel. case_bool_decide; [by rewrite Hrel|].
    destruct guest as [|c g]; [done|].
    destruct (ends_with _ _); intros [t Ht]%absolute_slash; by injection Ht as -> _. }
  apply backing_path_ok in Eb as (names & Hn & Ec & Ebk); [|done].
  rewrite components_join, split_join, omap_name_ok in Ec by (done || by apply names_no_slash).
  unfold components in Ec. rewrite Ha in Ec. injection Ec as Ec.
  destruct (map_Normal_split names below _ Ec) as (above & -> & Eg).
  exists above, below. cbn [fst snd parent_guest_path relative_path backing_path].
  apply Forall_app in Hn as [? _]. split_and!; try done. unfold components. by rewrite Ha, Eg.
Qed.

Lemma configured_share_ok project share gs ss :
  is_absolute project = true -> configured_share current_dir io_text project share = Ok (gs, ss) ->
  Forall2 (shadow_ok project) (map (pair share) (shadows share)) ss /\ Forall (shadow_local project [gs]) ss.
Proof.
  intros Hp. unfold configured_share. destruct (wrapper_path _ _ (cs_host_path share)) as [host|] eqn:Eh; [|done]. cbn.
  destruct (match cs_guest_path share with Some p => _ | None => _ end) as [guest|] eqn:Eg; [|done]. cbn.
  assert (wrapper_path current_dir io_text (default (cs_host_path share) (cs_guest_path share)) = Ok guest) as Hg
    by (destruct (cs_guest_path share); [done|cbn; by simplify_eq]).
  destruct (try_map _ _) as [l|] eqn:E; [|done]. cbn. injection 1 as <- <-. apply try_map_ok in E. split.
  - apply Forall2_fmap_l. eapply Forall2_impl; [exact E|]. intros written s Hs. by eapply configured_shadow_ok.
  - eapply Forall2_Forall_r; [exact E|]. apply Forall_forall. intros written _ s Hs.
    eapply configured_shadow_ok in Hs as [(_ & above & below & _ & _ & _ & _ & _ & _ & Hb) Hpg]; [|done..]. split.
    + eexists. split; [by left|]. by rewrite Hpg.
    + by exists (above ++ below)%list.
Qed.

Lemma shadow_local_weaken project shares shares' s :
  (forall x, x ∈ shares -> x ∈ shares') -> shadow_local project shares s -> shadow_local project shares' s.
Proof. intros Hs [(share & Hin & E) Hn]. split; [|done]. exists share. auto. Qed.

Lemma configured_shares_ok project cs pairs :
  is_absolute project = true -> try_map (configured_share current_dir io_text project) cs = Ok pairs ->
  Forall2 (shadow_ok project) (written_shadows cs) (List.concat (map snd pairs)) /\
  Forall (shadow_local project (map fst pairs)) (List.concat (map snd pairs)).
Proof.
  intros Hp E%try_map_ok. induction E as [|share [gs ss] cs pairs Hs _ [IH IH']]; [by repeat constructor|]. cbn.
  destruct (configured_share_ok _ _ _ _ Hp Hs) as [H1 H2]. split; [by apply Forall2_app|]. apply Forall_app_2.
  - eapply Forall_impl; [exact H2|]. intros s. apply shadow_local_weaken. set_solver.
  - eapply Forall_impl; [exact IH'|]. intros s. apply shadow_local_weaken. set_solver.
Qed.

(** What the configuration makes of the policy. *)
Lemma apply_defaults_inv l config project saw no_net l' :
  apply_configured_launch_defaults current_dir io_text l config project saw no_net = Ok l' ->
  exists pairs, try_map (configured_share current_dir io_text project) (shares config) = Ok pairs /\
    let p := fr_policy l in let n := apply_network config saw p in let p' := fr_policy l' in
    pa_extra_shares p' = (pa_extra_shares p ++ map fst pairs)%list /\
    pa_extra_share_shadows p' = (pa_extra_share_shadows p ++ List.concat (map snd pairs))%list /\
    pa_allow_ips p' = pa_allow_ips n /\ pa_allow_domains p' = pa_allow_domains n /\
    pa_allow_public p' = pa_allow_public n /\ pa_no_net p' = pa_no_net n /\
    (no_net = true \/ (saw = false /\ cn_mode (wc_network config) = NoNetwork) ->
     pa_host_listeners p' = pa_host_listeners p).
Proof.
  unfold apply_configured_launch_defaults.
  destruct (try_map _ _) as [pairs|] eqn:E; [|done]. cbn [result_bind]. injection 1 as <-. exists pairs. split; [done|].
  cbv zeta. unfold apply_network, set_policy. cbn [fr_policy].
  destruct saw, no_net, (cn_mode (wc_network config)); cbn; split_and!; try done; naive_solver.
Qed.

Lemma shadow_mounts_refusal {G} `{LaunchFs G} c shares k shadows (g g' : G) e :
  Forall (shadow_local (project c) shares) shadows -> shadow_mounts c shares k shadows g = (Err e, g') ->
  exists s source, s ∈ shadows /\ e = CreateShareShadowBackingDir (backing_path s) source.
Proof.
  intros Hs. revert k g. induction Hs as [|s shadows [(share & Hin & Eg) (names & Ec)] _ IH]; intros k g; cbn; [done|].
  destruct (List.find _ shares) as [parent|] eqn:Ef.
  2:{ apply list_elem_of_In, (List.find_none _ _ Ef) in Hin as Hn.
      unfold path_eq in Hn. by rewrite Eg, bool_decide_true in Hn. }
  assert (shadow_backing_is_project_local c (backing_path s) = true) as ->.
  { unfold shadow_backing_is_project_local, path_starts_with. rewrite Ec, is_prefix_app. apply orb_true_r. }
  cbn [negb]. destruct (create_dir_all g (backing_path s)) as [[[]|source] g1].
  - destruct (shadow_mounts c shares (k + 1) shadows g1) as [[ms|e'] g2] eqn:Es; [done|].
    cbn. injection 1 as -> ->. destruct (IH _ _ Es) as (s' & source & ? & ->). exists s', source. split; [by right|done].
  - injection 1 as <- _. exists s, source. split; [by left|done].
Qed.

(** C13 (safety). The shadows a configuration adds to a launch are those it
    writes, one for one: each lies in the guest at the path of its share followed
    by the names it is written with, at least one, and the directory behind it is
    the project's [.sandbox/root] followed by exactly the names of that guest path,
    without any [..]. The launch accepts all of them: it fails only where a
    directory cannot be made or the home directory is unknown. *)
Theorem configured_shadows_mounted {G} `{LaunchFs G} home c l config saw no_net l' (g g' : G) :
  is_absolute (project c) = true -> pa_extra_share_shadows (fr_policy l) = [] ->
  apply_configured_launch_defaults current_dir io_text l config (project c) saw no_net = Ok l' ->
  Forall2 (shadow_ok (project c)) (written_shadows (shares config)) (pa_extra_share_shadows (fr_policy l')) /\
  forall e, runtime_mounts home c (fr_policy l') g = (Err e, g') ->
    (exists text, host_home_dir home = Err text) \/
    exists s source, s ∈ pa_extra_share_shadows (fr_policy l') /\ e = CreateShareShadowBackingDir (backing_path s) source.
Proof.
  intros Hp Hl (pairs & Em & Hsh & Hss & _)%apply_defaults_inv.
  destruct (configured_shares_ok _ _ _ Hp Em) as [Hok Hloc]. rewrite Hl in Hss. cbn in Hss.
  assert (Forall (shadow_local (project c) (pa_extra_shares (fr_policy l'))) (pa_extra_share_shadows (fr_policy l'))) as Hlocal.
  { rewrite Hss, Hsh. eapply Forall_impl; [exact Hloc|]. intros s. apply shadow_local_weaken. set_solver. }
  split; [by rewrite Hss|]. intros e. unfold runtime_mounts. destruct (host_home_dir home) as [h|t]; [|by left; exists t].
  destruct (shadow_mounts _ _ _ _ g) as [[ms|e'] g1] eqn:Es; [done|]. cbn. injection 1 as -> ->. right.
  by eapply shadow_mounts_refusal.
Qed.

End ConfiguredFacts.

(** ** Facts: the network *)

(** What a policy says about the network. *)
Definition network_of (p : PolicyArgs) : list string * list string * bool * bool * list HostListener :=
  (pa_allow_ips p, pa_allow_domains p, pa_allow_public p, pa_no_net p, pa_host_listeners p).

Section NetworkFacts.
Context `{Values} `{Shlex} (home : option string) (current_dir : io_result string) (io_text : io_error -> string)
  (terminal : Z * Z) (default_artifact_manifest_path : string)
  (read : string -> io_result string) (exists_ : string -> bool).

Notation args_from_matches :=
  (args_from_matches home current_dir io_text terminal default_artifact_manifest_path read exists_).

Lemma command_payload_network l project tool command config l' :
  command_payload terminal l project tool command config = Ret l' ->
  network_of (fr_policy l') = network_of (fr_policy l).
Proof.
  unfold command_payload. destruct tool as [tool|].
  - destruct (match command with Some _ => _ | None => _ end) as [c|]; [|done]. cbn [exec_bind].
    destruct (payload_script_from_config_command c); [|done]. cbn [exec_bind].
    destruct (setup_tool_mise_exec_script _ _ _); [|done]. cbn [exec_bind]. by injection 1 as <-.
  - cbv zeta. destruct (payload_script_from_config_command _); [|done]. cbn [exec_bind]. by injection 1 as <-.
Qed.

Lemma choose_payload_network l project tool command config mise l' :
  choose_payload terminal l project tool command config mise = Ret l' ->
  network_of (fr_policy l') = network_of (fr_policy l).
Proof.
  unfold choose_payload. destruct (command_payload _ _ _ _ _ _) as [l1|] eqn:E; [|done]. cbn [exec_bind].
  apply command_payload_network in E. rewrite <- E.
  destruct tool; [by injection 1 as <-|]. destruct mise; [|by injection 1 as <-].
  unfold wrap_payload_script_with_project_mise. destruct (pa_payload (fr_policy l1)); [|by injection 1 as <-].
  destruct (mise_exec_script _ _ _); [|done]. cbn [exec_bind]. by injection 1 as <-.
Qed.

Lemma args_reset m command tty tty' wa :
  args_from_matches m command tty tty' = Ret (Ok wa) -> get_flag (wm_args m) "reset" = true -> wa_reset wa = true.
Proof.
  intros Hw Hr. unfold Wrapper.args_from_matches in Hw. rewrite Hr in Hw.
  destruct (project_arg _ _ m) as [project|]; [|done]. cbn [try_bind] in Hw.
  destruct (setup_tool_arg m) as [tool|]; [|done]. cbn [try_bind] in Hw.
  destruct (launch_from_matches _ _ _ m project) as [l|]; [|done]. by injection Hw as <-.
Qed.

(** A launch that is not a reset: the configuration, applied to the arguments, and the
    default for the network. *)
Lemma args_from_matches_inv m command tty tty' wa :
  get_flag (wm_args m) "reset" = false -> args_from_matches m command tty tty' = Ret (Ok wa) ->
  let no_net := get_flag (wm_args m) "no_net" in
  exists tool project config l l1 l2,
    project_arg current_dir io_text m = Ok project /\ setup_tool_arg m = Ok tool /\
    launch_from_matches current_dir io_text default_artifact_manifest_path m project = Ok l /\
    configuration home read tool project = Ret (Ok config) /\
    apply_configuration current_dir io_text config project
      (no_net || contains_id m "allow_ip" || contains_id m "allow_domain") no_net l = Ok l1 /\
    network_of (fr_policy l2) = network_of (fr_policy l1) /\
    fr_policy (wa_launch wa) = fst (finish_network no_net (fr_policy l2)).
Proof.
  intros Hr. unfold Wrapper.args_from_matches. rewrite Hr.
  destruct (project_arg _ _ m) as [project|] eqn:Epr; [|done]. cbn [try_bind].
  destruct (setup_tool_arg m) as [tool|] eqn:Et; [|done]. cbn [try_bind].
  destruct (launch_from_matches _ _ _ m project) as [l|] eqn:El; [|done]. cbn [try_bind].
  destruct (configuration home read tool project) as [[config|]|] eqn:Ec; [|done..]. cbn [try_bind].
  destruct (apply_configuration _ _ _ _ _ _ _) as [l1|] eqn:Ea; [|done]. cbn [try_bind].
  destruct (choose_payload _ _ _ _ _ _ _) as [l2|] eqn:Ep; [|done]. cbn [exec_bind].
  destruct (finish_network _ _) as [p tls] eqn:Ef. injection 1 as <-.
  exists tool, project, config, l, l1, l2. split_and!; [done..| |].
  - by eapply choose_payload_network.
  - by rewrite Ef.
Qed.

Lemma launch_from_matches_network m project l :
  launch_from_matches current_dir io_text default_artifact_manifest_path m project = Ok l ->
  network_of (fr_policy l) =
  (append_many (wm_args m) "allow_ip", append_many (wm_args m) "allow_domain", false, get_flag (wm_args m) "no_net",
   map (fun p => published_tcp (host p) (guest p)) (default [] (docker_publish m))).
Proof.
  unfold launch_from_matches. destruct (try_map _ (append_many (wm_args m) "ro")); [|done]. cbn [result_bind].
  destruct (try_map _ (append_many (wm_args m) "rw")); [|done]. cbn [result_bind]. by injection 1 as <-.
Qed.

(** With the flag, the configuration changes nothing about the network. *)
Lemma apply_configuration_no_net config project l l1 :
  apply_configuration current_dir io_text config project true true l = Ok l1 ->
  network_of (fr_policy l1) = network_of (fr_policy l).
Proof.
  destruct config as [config|]; cbn; [|by injection 1 as <-].
  intros (pairs & _ & _ & _ & H1 & H2 & H3 & H4 & H5)%apply_defaults_inv. unfold network_of.
  rewrite H1, H2, H3, H4, H5 by (by left). done.
Qed.

Lemma finish_no_net no_net p : no_net = true -> fst (finish_network no_net p) = p.
Proof. by intros ->. Qed.

Lemma no_net_flag_kept m command tty tty' wa :
  get_flag (wm_args m) "reset" = false -> get_flag (wm_args m) "no_net" = true ->
  args_from_matches m command tty tty' = Ret (Ok wa) ->
  pa_no_net (fr_policy (wa_launch wa)) = true /\ pa_allow_public (fr_policy (wa_launch wa)) = false.
Proof.
  intros Hr Hn (tool & project & config & l & l1 & l2 & _ & _ & Hl & _ & Ha & Hp & Hf)%args_from_matches_inv; [|done].
  rewrite Hn in Ha, Hf. rewrite finish_no_net in Hf by done. rewrite Hf. cbn [orb] in Ha.
  apply apply_configuration_no_net in Ha. apply launch_from_matches_network in Hl.
  rewrite Ha, Hl in Hp. unfold network_of in Hp. injection Hp as _ _ -> -> _. by rewrite Hn.
Qed.

(** [--no-net] on the command line holds through to the gateway: whatever
    the project's configuration says, a launch that is accepted runs under a policy
    that denies every destination and every domain, with no port published. *)
Theorem no_net_wrapper_denies `{Ipv4NetLaws} m command tty tty' wa load fresh c args network policy :
  get_flag (wm_args m) "reset" = false -> get_flag (wm_args m) "no_net" = true ->
  args_from_matches m command tty tty' = Ret (Ok wa) ->
  frontend_config_from_launch_request load fresh (wa_launch wa) = Ok (c, args) ->
  policy_from_args network args = Ret (Ok policy) ->
  (forall d, Tcp.action (Tcp.evaluate_tcp_destination policy d) = Tcp.TcpDeny) /\
  (forall domain, Dns.domain_allowed policy domain = false) /\
  Forall (fun l => purpose l <> PublishedTcp) (host_listeners policy).
Proof.
  intros Hr Hn Hw. destruct (no_net_flag_kept _ _ _ _ _ Hr Hn Hw) as [Hno Hpub].
  unfold frontend_config_from_launch_request. destruct (load _ _ _ _) as [c0|]; [|done]. cbn [map_err result_bind].
  destruct (validate_launch_policy_args _) as [[]|] eqn:Ev; [|done]. cbn [result_bind].
  destruct (match guest_http_smoke_url _ with Some _ => _ | None => _ end); [|done]. cbn [result_bind].
  injection 1 as <- <-. by apply no_net_policy_denies.
Qed.

(** C31 (error). A project whose configuration asks for an allowlist and allows nothing,
    launched by a command line without network flags, runs with the whole public internet allowed: the default for a launch without
    any network option takes the empty lists for no option at all. *)
Theorem empty_allowlist_opens_network m command tty tty' wa project c :
  get_flag (wm_args m) "reset" = false -> get_flag (wm_args m) "no_net" = false ->
  append_many (wm_args m) "allow_ip" = [] -> append_many (wm_args m) "allow_domain" = [] ->
  project_arg current_dir io_text m = Ok project -> setup_tool_arg m = Ok None ->
  read_wrapper_sandbox_config home read project = Ret (Ok (Some c)) ->
  wc_network c = mkNetwork Allowlist [] [] [] ->
  args_from_matches m command tty tty' = Ret (Ok wa) ->
  pa_allow_public (fr_policy (wa_launch wa)) = true /\ pa_no_net (fr_policy (wa_launch wa)) = false.
Proof.
  intros Hr Hn Hi Hd Hp Ht Hc Hm
    (tool & pr & config & l & l1 & l2 & Hp' & Ht' & Hl & Hcf & Ha & Hnet & Hf)%args_from_matches_inv; [|done].
  rewrite Hp in Hp'. injection Hp' as <-. rewrite Ht in Ht'. injection Ht' as <-.
  cbn [configuration] in Hcf. rewrite Hc in Hcf. injection Hcf as <-. cbn [apply_configuration] in Ha.
  apply apply_defaults_inv in Ha as (pairs & _ & _ & _ & A1 & A2 & A3 & A4 & _).
  apply launch_from_matches_network in Hl. unfold network_of in Hl, Hnet. rewrite Hi, Hd, Hn in Hl.
  injection Hl as L1 L2 L3 L4 _. injection Hnet as P1 P2 P3 P4 _.
  assert (pa_allow_ips (fr_policy l2) = [] /\ pa_allow_domains (fr_policy l2) = [] /\
    pa_allow_public (fr_policy l2) = false /\ pa_no_net (fr_policy l2) = false) as (E1 & E2 & E3 & E4).
  { rewrite P1, P2, P3, P4, A1, A2, A3, A4. unfold apply_network. rewrite Hm.
    case_match; cbn; rewrite L1, L2, L3, L4; done. }
  rewrite Hf, Hn. unfold finish_network. by rewrite E1, E2, E3, E4.
Qed.

End NetworkFacts.

(** ** Witnesses *)

(** A share with a shadow, and an allowlist without entries. *)
Definition demo_config : WrapperSandboxConfig :=
  mkConfig 3 (mkCommand "make" ["test"]) (mkNetwork Allowlist [] [] []) ConfigAuth_default
    [mkShare "/srv/data" None Rw true ["tmp"]] [mkPort 8080 80].

Definition demo_matches (no_net : bool) : WrapperMatches :=
  mkWrapperMatches
    (mkMatches (fun id => if bool_decide (id = "project") then Some "/p" else None) (fun _ => None)
       (fun id => no_net && bool_decide (id = "no_net"))) (fun _ => false) None.

#[local] Instance demo_values : Values := Config.values_of demo_config.
#[local] Existing Instance CliText.posix.

Definition demo_read (path : string) : io_result string := Ok ("sample" ++ String "010" "").

Definition demo_args (no_net : bool) : exec (result WrapperArgs WrapperError) :=
  args_from_matches (Some "/home/u") (Ok "/w") (fun _ => "") (24, 80) "/a/manifest.json" demo_read (fun _ => false)
    (demo_matches no_net) [] true true.

Lemma empty_allowlist_opens_network_witness :
  exists wa, demo_args false = Ret (Ok wa) /\
    pa_allow_public (fr_policy (wa_launch wa)) = true /\ pa_no_net (fr_policy (wa_launch wa)) = false.
Proof.
  destruct (returns_ok_inv (demo_args false)) as [wa E]; [vm_compute; reflexivity|]. exists wa. split; [exact E|].
  apply (empty_allowlist_opens_network (Some "/home/u") (Ok "/w") (fun _ => "") (24, 80) "/a/manifest.json" demo_read
    (fun _ => false) (demo_matches false) [] true true wa "/p" demo_config);
    [reflexivity..|vm_compute; reflexivity|reflexivity|exact E].
Defined.

Example no_net_wrapper_denies_example :
  exists wa policy, demo_args true = Ret (Ok wa) /\
    policy_from_args GuestNetwork_default (fr_policy (wa_launch wa)) = Ret (Ok policy) /\
    (forall d, Tcp.action (Tcp.evaluate_tcp_destination policy d) = Tcp.TcpDeny) /\
    (forall domain, Dns.domain_allowed policy domain = false) /\
    Forall (fun l => purpose l <> PublishedTcp) (host_listeners policy).
Proof.
  destruct (returns_ok_inv (demo_args true)) as [wa E]; [vm_compute; reflexivity|]. exists wa.
  assert (frontend_config_from_launch_request (fun _ _ _ _ => Ok LaunchCli.demo_frontend) (fun _ => Ok tt) (wa_launch wa)
    = Ok (LaunchCli.demo_frontend, fr_policy (wa_launch wa))) as Ec.
  { vm_compute in E. injection E as <-. vm_compute. reflexivity. }
  destruct (returns_ok_inv (policy_from_args GuestNetwork_default (fr_policy (wa_launch wa)))) as [policy Ep].
  { vm_compute in E. injection E as <-. vm_compute. reflexivity. }
  exists policy. split; [exact E|]. split; [exact Ep|].
  apply (no_net_wrapper_denies (Some "/home/u") (Ok "/w") (fun _ => "") (24, 80) "/a/manifest.json" demo_read
    (fun _ => false) (demo_matches true) [] true true wa (fun _ _ _ _ => Ok LaunchCli.demo_frontend) (fun _ => Ok tt)
    LaunchCli.demo_frontend (fr_policy (wa_launch wa)) GuestNetwork_default policy); [reflexivity|reflexivity|exact E|exact Ec|exact Ep].
Defined.

#[local] Existing Instance LaunchCli.made_dirs.

Definition demo_launch : FrontendLaunchRequest := FrontendLaunchRequest_for_project "/a/manifest.json" "/p".

Definition demo_configured : result FrontendLaunchRequest WrapperError :=
  apply_configured_launch_defaults (Ok "/w") (fun _ => "") demo_launch demo_config "/p" false false.

Lemma configured_shadows_mounted_witness :
  exists l, demo_configured = Ok l /\
    map backing_path (pa_extra_share_shadows (fr_policy l)) = ["/p/.sandbox/root/srv/data/tmp"] /\
    Forall2 (shadow_ok (Ok "/w") (fun _ => "") "/p") (written_shadows (shares demo_config))
      (pa_extra_share_shadows (fr_policy l)).
Proof.
  eexists. split; [vm_compute; reflexivity|]. split; [reflexivity|].
  apply (configured_shadows_mounted (Ok "/w") (fun _ => "") None LaunchCli.demo_frontend demo_launch demo_config false false
    _ [] []); [reflexivity|reflexivity|]. vm_compute. reflexivity.
Defined.

End Wrapper.
