(* ===== verification/ProjectLock.v ===== *)
(** The lock of a project (src/vm-frontend/src/launch_cli.rs, ProjectLock and
    reset_project): several processes that open, lock, remove and unlock one file.

    A lock belongs to the open file, that is to its inode, and not to its path; the
    steps of the processes interleave. The theorems: launches exclude each other as long
    as no reset removes the file; with a reset two launches can run at once. *)

From stdpp Require Import base option list numbers strings gmap sets relations.
From Stdlib Require Import ZArith Lia String.
From S2P Require Import Prelude RustIo.

Local Open Scope Z_scope.

Module ProjectLock.

(** ** The file and the processes *)

(** What a process runs: a launch, or [reset_project]. *)
Inductive job := Launching | Resetting.

(** The errors of [LaunchCliError] that the lock has, without paths and texts. *)
Inductive lock_error :=
| CreateVmRuntimeRoot (source : io_error)
| OpenProjectVmLock (source : io_error)
| ProjectVmBusy
| LockProjectVmState (source : io_error)
| RemoveSandbox (source : io_error).

(** Where a process is. [Holding] of a launch is the time the launch runs, up to the
    drop of the [ProjectLock]; [Removed] is the end of [reset_project], before
    its file is closed. *)
Inductive phase :=
| Begun
| Opened (inode : Z)
| Holding (inode : Z)
| Removed (inode : Z)
| Returned (r : result unit lock_error).

Record process := mkProcess { job_of : job; phase_of : phase }.

(** The inode at the path of the lock file, the next new inode, the owner of each lock
    and the processes. *)
Record project := mkProject {
  lock_file : option Z; fresh : Z; locked : gmap Z Z; processes : gmap Z process }.

Definition in_phase (s : project) (p : Z) (j : job) (ph : phase) : project :=
  mkProject (lock_file s) (fresh s) (locked s) (<[p := mkProcess j ph]> (processes s)).

(** [OpenOptions::create(true).truncate(false).open]: the file, made when it is missing. *)
Definition open_lock (s : project) : Z * project :=
  match lock_file s with
  | Some inode => (inode, s)
  | None => (fresh s, mkProject (Some (fresh s)) (fresh s + 1) (locked s) (processes s))
  end.

(** [acquire_project_file_lock], when [try_lock] itself does not fail. *)
Definition acquire_project_file_lock (s : project) (p inode : Z) : result unit lock_error * project :=
  match locked s !! inode with
  | Some _ => (Err ProjectVmBusy, s)
  | None => (Ok tt, mkProject (lock_file s) (fresh s) (<[inode := p]> (locked s)) (processes s))
  end.

(** [unlock], or the close of the file. *)
Definition unlock (s : project) (inode : Z) : project :=
  mkProject (lock_file s) (fresh s) (delete inode (locked s)) (processes s).

(** [remove_dir_all] of [.sandbox], with the lock file in it. *)
Definition remove_sandbox (s : project) : project := mkProject None (fresh s) (locked s) (processes s).

(** ** Steps *)

Inductive project_step : project -> project -> Prop :=
| step_start s p j : processes s !! p = None -> project_step s (in_phase s p j Begun)
(** [create_dir_all] and [open]. *)
| step_create_fails s p j e :
    processes s !! p = Some (mkProcess j Begun) -> project_step s (in_phase s p j (Returned (Err (CreateVmRuntimeRoot e))))
| step_open_fails s p j e :
    processes s !! p = Some (mkProcess j Begun) -> project_step s (in_phase s p j (Returned (Err (OpenProjectVmLock e))))
| step_open s p j :
    processes s !! p = Some (mkProcess j Begun) ->
    project_step s (let '(inode, s) := open_lock s in in_phase s p j (Opened inode))
(** [acquire_project_file_lock]. *)
| step_lock s p j inode :
    processes s !! p = Some (mkProcess j (Opened inode)) ->
    project_step s
      (match acquire_project_file_lock s p inode with
       | (Ok _, s) => in_phase s p j (Holding inode)
       | (Err e, s) => in_phase s p j (Returned (Err e))
       end)
| step_lock_fails s p j inode e :
    processes s !! p = Some (mkProcess j (Opened inode)) ->
    project_step s (in_phase s p j (Returned (Err (LockProjectVmState e))))
(** The launch is over, and its lock is dropped. *)
| step_release s p inode :
    processes s !! p = Some (mkProcess Launching (Holding inode)) ->
    project_step s (in_phase (unlock s inode) p Launching (Returned (Ok tt)))
(** The reset removes the directory; an error closes the file, as the return does. *)
| step_remove s p inode :
    processes s !! p = Some (mkProcess Resetting (Holding inode)) ->
    project_step s (in_phase (remove_sandbox s) p Resetting (Removed inode))
| step_remove_fails s p inode e (lock_removed : bool) :
    processes s !! p = Some (mkProcess Resetting (Holding inode)) ->
    project_step s (in_phase (unlock (if lock_removed then remove_sandbox s else s) inode) p Resetting
      (Returned (Err (RemoveSandbox e))))
(** Another reset has removed the directory meanwhile. *)
| step_nothing_to_reset s p inode :
    processes s !! p = Some (mkProcess Resetting (Holding inode)) -> lock_file s = None ->
    project_step s (in_phase (unlock s inode) p Resetting (Returned (Ok tt)))
| step_return s p inode :
    processes s !! p = Some (mkProcess Resetting (Removed inode)) ->
    project_step s (in_phase (unlock s inode) p Resetting (Returned (Ok tt))).

Definition project_start (file : option Z) : project := mkProject file (default 0 file + 1) ∅ ∅.

(** Process [p] runs the project: its launch holds the lock. The QEMU process itself is
    not part of the model, which can outlive the launch where [write_launch_state] fails
    after it has been started. *)
Definition active (s : project) (p : Z) : Prop :=
  exists inode, processes s !! p = Some (mkProcess Launching (Holding inode)).

(** ** Locks have one owner *)

Definition in_critical (ph : phase) (inode : Z) : Prop := ph = Holding inode \/ ph = Removed inode.

Definition holds_lock (s : project) (p inode : Z) : Prop :=
  exists pr, processes s !! p = Some pr /\ in_critical (phase_of pr) inode.

(** Whoever holds a lock owns it. *)
Definition lock_ok (s : project) : Prop := forall p inode, holds_lock s p inode -> locked s !! inode = Some p.

Lemma holds_in_phase s p j ph q inode :
  holds_lock (in_phase s p j ph) q inode -> (q = p /\ in_critical ph inode) \/ (q <> p /\ holds_lock s q inode).
Proof.
  intros (pr & Hl & Hc). cbn in Hl. destruct (decide (q = p)) as [->|Hq].
  - rewrite lookup_insert_eq in Hl. injection Hl as <-. by left.
  - rewrite lookup_insert_ne in Hl by done. right. split; [done|]. by exists pr.
Qed.

(** A process enters a phase in which it holds nothing, and the locks stay. *)
Lemma lock_ok_idle s s' p j ph :
  lock_ok s -> locked s' = locked s -> processes s' = processes s -> (forall inode, ~ in_critical ph inode) ->
  lock_ok (in_phase s' p j ph).
Proof.
  intros Hok Hl Hp Hn q inode [[_ Hc]|[_ Hh]]%holds_in_phase; [by apply Hn in Hc|].
  cbn. rewrite Hl. apply Hok. unfold holds_lock in *. by rewrite <- Hp.
Qed.

(** A process that holds a lock gives it up. *)
Lemma lock_ok_unlock s s' p j ph held :
  lock_ok s -> locked s' = locked s -> processes s' = processes s -> holds_lock s p held ->
  (forall inode, ~ in_critical ph inode) -> lock_ok (in_phase (unlock s' held) p j ph).
Proof.
  intros Hok Hl Hp Hheld Hn q inode [[_ Hc]|[Hq Hh]]%holds_in_phase; [by apply Hn in Hc|].
  assert (holds_lock s q inode) as Hs by (unfold holds_lock in *; by rewrite <- Hp).
  apply Hok in Hs as Ho. apply Hok in Hheld. cbn. rewrite Hl, lookup_delete_ne; [done|]. intros <-. congruence.
Qed.

Lemma not_critical_returned r inode : ~ in_critical (Returned r) inode.
Proof. by intros [|]. Qed.

Lemma not_critical_opened i inode : ~ in_critical (Opened i) inode.
Proof. by intros [|]. Qed.

Lemma held_by s p j inode :
  processes s !! p = Some (mkProcess j (Holding inode)) \/ processes s !! p = Some (mkProcess j (Removed inode)) ->
  holds_lock s p inode.
Proof. intros [H|H]; eexists; (split; [exact H|]); [by left|by right]. Qed.

Lemma open_lock_same s inode s' :
  open_lock s = (inode, s') -> locked s' = locked s /\ processes s' = processes s /\ lock_file s' = Some inode.
Proof.
  unfold open_lock. destruct (lock_file s) as [i|] eqn:E; intros [= <- <-]; [|done]. by rewrite E.
Qed.

Lemma step_lock_ok s s' : lock_ok s -> project_step s s' -> lock_ok s'.
Proof.
  intros Hok Hs. destruct Hs.
  - apply (lock_ok_idle s); try done. by intros i [|].
  - apply (lock_ok_idle s); try done. apply not_critical_returned.
  - apply (lock_ok_idle s); try done. apply not_critical_returned.
  - destruct (open_lock s) as [inode s'] eqn:E. apply open_lock_same in E as (? & ? & _).
    apply (lock_ok_idle s); try done. apply not_critical_opened.
  - unfold acquire_project_file_lock. destruct (locked s !! inode) eqn:El.
    + apply (lock_ok_idle s); try done. apply not_critical_returned.
    + intros q i [[-> [[= ->]|]]|[Hq Hh]]%holds_in_phase; cbn; [by rewrite lookup_insert_eq|done|].
      rewrite lookup_insert_ne; [by apply Hok|]. intros ->.
      assert (locked s !! i = Some q) by (by apply Hok). congruence.
  - apply (lock_ok_idle s); try done. apply not_critical_returned.
  - apply (lock_ok_unlock s); try done; [by eapply held_by; left|apply not_critical_returned].
  - intros q i [[-> [|[= ->]]]|[Hq Hh]]%holds_in_phase; [done| |by apply Hok]. cbn. apply Hok. by eapply held_by; left.
  - apply (lock_ok_unlock s); [done|by destruct lock_removed..|by eapply held_by; left|apply not_critical_returned].
  - apply (lock_ok_unlock s); try done; [by eapply held_by; left|apply not_critical_returned].
  - apply (lock_ok_unlock s); try done; [by eapply held_by; right|apply not_critical_returned].
Qed.

(** ** Launches alone *)

(** Every process is a launch, and the files they have open are the one at the path. *)
Definition launches_only (s : project) : Prop := forall p pr, processes s !! p = Some pr -> job_of pr = Launching.

Definition current_only (s : project) : Prop :=
  forall p pr inode, processes s !! p = Some pr ->
    phase_of pr = Opened inode \/ in_critical (phase_of pr) inode -> lock_file s = Some inode.

Lemma current_in_phase s s' p j ph :
  current_only s -> (lock_file s' = lock_file s \/ lock_file s = None) -> processes s' = processes s ->
  (forall inode, ph = Opened inode \/ in_critical ph inode -> lock_file s' = Some inode) ->
  current_only (in_phase s' p j ph).
Proof.
  intros Hc Hf Hp Hn q pr inode Hq Hph. cbn in *. destruct (decide (q = p)) as [->|Hne].
  - rewrite lookup_insert_eq in Hq. injection Hq as <-. by apply Hn.
  - rewrite lookup_insert_ne, Hp in Hq by done. specialize (Hc q pr inode Hq Hph). destruct Hf; congruence.
Qed.

Lemma step_current s s' : launches_only s -> current_only s -> project_step s s' -> current_only s'.
Proof.
  intros Hl Hc Hs.
  assert (forall p pr, processes s !! p = Some pr -> job_of pr = Resetting -> False) as Hr
    by (intros p pr Hp Hj; apply Hl in Hp; congruence).
  destruct Hs; try (exfalso; by eapply Hr).
  - apply (current_in_phase s); try done; [by left|]. by intros i [|[|]].
  - apply (current_in_phase s); try done; [by left|]. by intros i [|[|]].
  - apply (current_in_phase s); try done; [by left|]. by intros i [|[|]].
  - destruct (open_lock s) as [inode s'] eqn:E. pose proof (open_lock_same _ _ _ E) as (_ & Hp & Hf).
    apply (current_in_phase s); [done| |done|].
    + unfold open_lock in E. destruct (lock_file s) as [i|] eqn:Ef; [left|by right]. injection E as <- <-. done.
    + by intros i [[= ->]|[|]].
  - unfold acquire_project_file_lock. destruct (locked s !! inode).
    + apply (current_in_phase s); try done; [by left|]. by intros i [|[|]].
    + apply (current_in_phase s); try done; [by left|]. intros i [|[[= ->]|]]; try done. cbn.
      eapply Hc; [done|]. by left.
  - apply (current_in_phase s); try done; [by left|]. by intros i [|[|]].
  - apply (current_in_phase s); try done; [by left|]. by intros i [|[|]].
Qed.

(** Steps among launches. *)
Definition launch_step (s s' : project) : Prop := project_step s s' /\ launches_only s'.

Lemma launches_invariant file s :
  rtc launch_step (project_start file) s -> launches_only s /\ lock_ok s /\ current_only s.
Proof.
  intros Hst. remember (project_start file) as s0 eqn:E0.
  assert (launches_only s0 /\ lock_ok s0 /\ current_only s0) as Hinit.
  { subst. split_and!; [intros p pr|intros p i (pr & H & _)|intros p pr i]; cbn in *; by rewrite lookup_empty in *. }
  clear E0. induction Hst as [|s0 s1 s [Hs Hl] _ IH]; [done|]. destruct Hinit as (H1 & H2 & H3). apply IH.
  split_and!; [done|by eapply step_lock_ok|by eapply step_current].
Qed.

(** C15 (safety). As long as no reset runs, at most one launch of a project holds its
    lock, however the steps of the launches interleave. *)
Theorem launches_exclude_each_other file s p q :
  rtc launch_step (project_start file) s -> active s p -> active s q -> p = q.
Proof.
  intros (_ & Hok & Hc)%launches_invariant [i Hp] [j Hq].
  assert (lock_file s = Some i) by (eapply Hc; [exact Hp|right; by left]).
  assert (lock_file s = Some j) by (eapply Hc; [exact Hq|right; by left]).
  assert (locked s !! i = Some p) by (apply Hok; by eapply held_by; left).
  assert (locked s !! j = Some q) by (apply Hok; by eapply held_by; left). congruence.
Qed.

(** ** A reset between opening and locking *)

Tactic Notation "take_step" uconstr(r) := eapply rtc_l; [apply r; vm_compute; reflexivity|].

(** C29 (error). A reset removes the lock file while it holds its lock. A launch that had
    opened the file before then locks a file that is no longer at the path, the next
    launch makes and locks a new one, and two launches of the project are active at
    once. *)
Theorem reset_breaks_exclusion :
  exists s p q, rtc project_step (project_start None) s /\ p <> q /\ active s p /\ active s q.
Proof.
  eexists _, 1, 2. split.
  { take_step (step_start (project_start None) 1 Launching). take_step (step_open _ 1 Launching).
    take_step (step_start _ 3 Resetting). take_step (step_open _ 3 Resetting). take_step (step_lock _ 3 Resetting 1).
    take_step (step_remove _ 3 1). take_step (step_return _ 3 1). take_step (step_lock _ 1 Launching 1).
    take_step (step_start _ 2 Launching). take_step (step_open _ 2 Launching). take_step (step_lock _ 2 Launching 2).
    apply rtc_refl. }
  split; [done|]. split; [exists 1|exists 2]; vm_compute; reflexivity.
Qed.

(** ** Witness *)

Lemma in_phase_launches s p ph : launches_only s -> launches_only (in_phase s p Launching ph).
Proof.
  intros Hl q pr Hq. cbn in Hq. destruct (decide (q = p)) as [->|Hne].
  - rewrite lookup_insert_eq in Hq. by injection Hq as <-.
  - rewrite lookup_insert_ne in Hq by done. by eapply Hl.
Qed.

Lemma launches_exclude_each_other_witness :
  exists s, rtc launch_step (project_start (Some 7)) s /\ active s 1 /\ forall q, active s q -> 1 = q.
Proof.
  assert (launches_only (project_start (Some 7))) as H0 by (intros p pr Hp; cbn in Hp; by rewrite lookup_empty in Hp).
  assert (exists s, rtc launch_step (project_start (Some 7)) s /\ active s 1) as (s & Hs & Ha).
  { eexists. split.
    - eapply rtc_l; [split; [apply (step_start _ 1 Launching); vm_compute; reflexivity|by apply in_phase_launches]|].
      eapply rtc_l; [split; [apply (step_open _ 1 Launching); vm_compute; reflexivity|by do 2 apply in_phase_launches]|].
      eapply rtc_l; [split; [apply (step_lock _ 1 Launching 7); vm_compute; reflexivity|by do 3 apply in_phase_launches]|].
      apply rtc_refl.
    - exists 7. vm_compute. reflexivity. }
  exists s. split; [exact Hs|]. split; [exact Ha|]. intros q Hq.
  exact (launches_exclude_each_other (Some 7) s 1 q Hs Ha Hq).
Defined.

End ProjectLock.
