(* ===== verification/LaunchRun.v ===== *)
(** Running a launch with a payload (src/vm-frontend/src/launch_cli.rs,
    run_payload_launch_request_async with its waits) and the payload command line
    (src/vm-frontend/src/payload_cli.rs).

    The tasks a launch waits for are given by what the waits return, in order; the
    actions of the launch are recorded. The theorems: the virtual machine is not left
    behind, except when the task that waits for readiness is lost; both waits end by their
    deadline; the exit status of the payload. *)

From stdpp Require Import base option list numbers strings gmap sets.
From Stdlib Require Import ZArith Lia Ascii String.
From S2P Require Import Prelude RustIo RustStr FsPath NetworkPolicy DnsProxy HttpRequest TcpGateway Frontend HostOps Manifest Namespace.
From S2P Require Import PayloadProtocol PayloadMessages PayloadClient RuntimeManifest Launch CliText Config LaunchCli.

Local Open Scope string_scope.
Local Open Scope Z_scope.

Module LaunchRun.
Import FsPath Frontend Messages PayloadClient LaunchCli CliText.

Section WithJson.
Context `{Messages.PayloadJson}.

(** ** The payload command line *)

Inductive PayloadCliError :=
| Clap (message : string)
| MissingPort | InvalidPort | InvalidRows | InvalidCols | InvalidTimeoutSeconds | InvalidMaxOutputBytes
| InvalidEnvFormat | EmptyEnvKey | MissingScript | NonPositiveTimeoutSeconds | NonPositiveMaxOutputBytes
| GuestSyncDiagnosticFailed (exit_code : Z) (output : string)
| PayloadClientFailed (source : PayloadClientError).

Record PayloadClientConfig := mkClientConfig {
  pcc_host : string; pcc_port : Z; ping : bool; pcc_script : option string; pcc_cwd : string;
  pcc_env : gmap string string; pcc_rows : Z; pcc_cols : Z; no_stdin : bool; diagnostic : bool;
  pcc_timeout_seconds : Z; pcc_max_output_bytes : Z }.

(** An optional number with its default. *)
Definition number_arg (parse : string -> option Z) (e : PayloadCliError) (dflt : Z) (arg : option string)
  : result Z PayloadCliError :=
  match arg with Some v => ok_or (parse v) e | None => Ok dflt end.

Fixpoint env_args (envs : list string) (m : gmap string string) : result (gmap string string) PayloadCliError :=
  match envs with
  | [] => Ok m
  | e :: rest =>
      match split_once "=" e with
      | None => Err InvalidEnvFormat
      | Some (key, val) => if bool_decide (key = "") then Err EmptyEnvKey else env_args rest (<[key := val]> m)
      end
  end.

Definition payload_client_config_from_args (terminal : Z * Z) (clap : list string -> result ArgMatches string)
  (args : list string) : result PayloadClientConfig PayloadCliError :=
  let? m := map_err Clap (clap ("payload-client" :: args)) in
  let? port := ok_or (get_one m "port") MissingPort in
  let? port := ok_or (parse_u16 port) InvalidPort in
  let? rows := number_arg parse_u16 InvalidRows (fst terminal) (get_one m "rows") in
  let? cols := number_arg parse_u16 InvalidCols (snd terminal) (get_one m "cols") in
  let? timeout := number_arg parse_u64 InvalidTimeoutSeconds 10 (get_one m "timeout_seconds") in
  let? max_output := number_arg parse_u64 InvalidMaxOutputBytes (1024 * 1024) (get_one m "max_output_bytes") in
  let? env := env_args (append_many m "env") ∅ in
  let c := mkClientConfig (default "127.0.0.1" (get_one m "host")) port (get_flag m "ping") (get_one m "script")
             (default "/" (get_one m "cwd")) env rows cols (get_flag m "no_stdin") (get_flag m "diagnostic") timeout
             max_output in
  if negb (ping c) && bool_decide (pcc_script c = None) then Err MissingScript
  else if timeout =? 0 then Err NonPositiveTimeoutSeconds
  else if max_output =? 0 then Err NonPositiveMaxOutputBytes
  else Ok c.

Definition i32_min : Z := - 2 ^ 31.
Definition i32_max : Z := 2 ^ 31 - 1.

(** Arithmetic of i32 with overflow checks. *)
Definition checked_i32 (n : Z) : exec Z := if (i32_min <=? n) && (n <=? i32_max) then Ret n else Panic.

Definition payload_exit_status (exit_code : Z) : exec Z :=
  if exit_code <? 0 then
    let! n := checked_i32 (- exit_code) in checked_i32 (128 + n)
  else Ret exit_code.

Definition guest_sync_diagnostic_request : DiagnosticRequest := mkDiagnosticRequest "sync" "/" ∅ 10 4096.

(** [flush_guest_filesystems] with what the diagnostic returned and wrote. *)
Definition flush_guest_filesystems (r : result Z PayloadClientError) (output : list byte) : result unit PayloadCliError :=
  match r with
  | Ok code =>
      if code =? 0 then Ok tt
      else Err (GuestSyncDiagnosticFailed code (trimmed (Http.from_utf8_lossy output)))
  | Err e => Err (PayloadClientFailed e)
  end.

(** ** Waiting *)

(** One poll of the endpoint and the time after it, in milliseconds. *)
Record poll (A : Type) := mkPoll { polled : A; now : Z }.
Arguments mkPoll {A}.
Arguments polled {A}.
Arguments now {A}.

(** [wait_for_supervisor_payload_endpoint]: [None] while it waits; [resolve] is
    [socket_addr], with the text of its error. *)
Fixpoint wait_for_endpoint {Addr Endpoint : Type}
  (resolve : Endpoint -> result Addr string) (deadline : Z) (last_error : option string)
  (polls : list (poll (result (option Endpoint) string))) : option (result Addr LaunchCliError) :=
  match polls with
  | [] => None
  | p :: rest =>
      match polled p with
      | Ok (Some endpoint) => Some (map_err Message (resolve endpoint))
      | r =>
          let last_error := match r with Err e => Some e | Ok _ => last_error end in
          if deadline <=? now p then
            Some (Err (Message ("timed out waiting for supervisor payload endpoint" ++
              match last_error with Some e => "; last control error: " ++ e | None => "" end)))
          else wait_for_endpoint resolve deadline last_error rest
      end
  end.

(** [wait_for_payload_ready_async]; the time of a poll is the time since the start. *)
Fixpoint wait_for_ready (timeout : Z) (polls : list (poll (result unit string))) : option (result unit string) :=
  match polls with
  | [] => None
  | p :: rest =>
      match polled p with
      | Ok _ => Some (Ok tt)
      | Err e =>
          if timeout <=? now p then
            Some (Err ("timed out waiting for guest payload control path after " ++ show_usize (timeout / 1000) ++
              " seconds; last error: " ++ e))
          else wait_for_ready timeout rest
      end
  end.

(** ** The launch *)

(** What awaiting a task gives. *)
Inductive joined (A : Type) := Joined (a : A) | JoinError (text : string).
Arguments Joined {A}.
Arguments JoinError {A}.

Definition launch_result : Type := joined (result Launch.QemuExit Launch.LaunchError).

(** The two selects: the launch ends, or the other future does. *)
Inductive raced (A : Type) := First (a : A) | LaunchEnded (r : launch_result).
Arguments First {A}.
Arguments LaunchEnded {A}.

(** What a launch does after its task was spawned. [LaunchOver] is the end of that task,
    awaited or seen by a select. *)
Inductive act :=
| RequestShutdown (reason : string)
| LaunchOver
| RunPayload
| FlushGuest.

Record environment := mkEnvironment {
  endpoint_wait : raced (result string LaunchCliError);
  ready_wait : raced (joined (result unit string));
  payload_session : result PayloadSessionOutcome PayloadClientError;
  launch_end : launch_result
}.

Inductive outcome := Failed (text : string) | PayloadError (e : PayloadClientError) | ExitProcess (status : exec Z).

Section Run.
Context (launch_text : Launch.LaunchError -> string) (cli_text : LaunchCliError -> string)
  (status_text : Launch.ExitStatus -> string) (artifacts : string).

Definition newline : string := String "010" "".

Definition show_bool (b : bool) : string := if b then "true" else "false".

(** The launch ended before what was waited for. *)
Definition ended_early (before : string) (r : launch_result) : outcome :=
  match r with
  | JoinError e => Failed ("async launch task failed: " ++ e)
  | Joined (Ok exit) =>
      Failed ("launch failed: qemu exited before " ++ before ++ ": status=" ++ status_text (Launch.exit_status exit) ++
        " timed_out=" ++ show_bool (Launch.timed_out exit) ++ newline ++ artifacts)
  | Joined (Err error) => Failed ("launch failed: " ++ launch_text error ++ newline ++ artifacts)
  end.

(** After the payload: the flush and the request for a shutdown only warn. *)
Definition finish_payload (env : environment) : list act * outcome :=
  ([RunPayload; FlushGuest; RequestShutdown "payload finished"; LaunchOver],
   match launch_end env with
   | JoinError e => Failed ("async launch task failed: " ++ e)
   | Joined (Err error) => Failed ("launch failed: " ++ launch_text error ++ newline ++ artifacts)
   | Joined (Ok _) =>
       match payload_session env with
       | Err e => PayloadError e
       | Ok outcome =>
           match into_exit_code outcome with
           | Err e => PayloadError e
           | Ok code => ExitProcess (payload_exit_status code)
           end
       end
   end).

(** [run_payload_launch_request_async], from the spawn of the launch task. *)
Definition run_payload_launch (env : environment) : list act * outcome :=
  match endpoint_wait env with
  | LaunchEnded r => ([LaunchOver], ended_early "payload endpoint was published" r)
  | First (Err error) =>
      ([RequestShutdown "payload control discovery failed"; LaunchOver],
       Failed ("launch payload control discovery failed: " ++ cli_text error ++ newline ++ artifacts))
  | First (Ok addr) =>
      match ready_wait env with
      | LaunchEnded r => ([LaunchOver], ended_early "payload ready" r)
      | First (JoinError e) => ([], Failed ("payload readiness task failed: " ++ e))
      | First (Joined (Err error)) =>
          ([RequestShutdown "payload readiness failed"; LaunchOver],
           Failed ("launch payload readiness failed: " ++ error ++ newline ++ artifacts))
      | First (Joined (Ok _)) => finish_payload env
      end
  end.

(** [handle_qemu_exit], for a launch without a payload; the timeout in seconds. *)
Definition handle_qemu_exit (exit : Launch.QemuExit) (qemu_timeout : option Z) : result unit LaunchCliError :=
  if Launch.success (Launch.exit_status exit) then Ok tt
  else if Launch.timed_out exit then
    Err (Message ("qemu timed out after " ++ show_usize (default 0 qemu_timeout) ++
      " seconds and was terminated with status: " ++ status_text (Launch.exit_status exit) ++ newline ++ artifacts))
  else Err (Message ("qemu exited with status: " ++ status_text (Launch.exit_status exit) ++ newline ++ artifacts)).

End Run.

Definition frontend_artifact_summary (c : FrontendConfig) : string :=
  let r := runtime c in
  "artifacts: run_dir=" ++ run_dir r ++ " state=" ++ state_json r ++ " state_disk=" ++ state_disk r ++
  " qemu_log=" ++ path_join (run_dir r) "qemu.log" ++ " console_log=" ++ console_log r ++
  " vmnet_event_log=" ++ vmnet_event_log r.

(** ** Facts *)

Lemma payload_exit_status_spec code :
  i32_min <= code <= i32_max ->
  payload_exit_status code =
  if code <? 0 then (if code <? - (i32_max - 128) then Panic else Ret (128 - code)) else Ret code.
Proof.
  unfold payload_exit_status, checked_i32, i32_min, i32_max. intros Hr. destruct (code <? 0) eqn:E; [|done]. b2p.
  destruct (code <? _) eqn:E2; b2p.
  - destruct (_ && _) eqn:E3; cbn [exec_bind]; [|done]. b2p. rewrite (proj2 (andb_false_iff _ _)); [done|]. right. lia.
  - rewrite (proj2 (andb_true_iff _ _)) by (split; lia). cbn [exec_bind].
    rewrite (proj2 (andb_true_iff _ _)) by (split; lia). done.
Qed.

(** The waits end with the first poll at or after the deadline. *)
Lemma wait_for_endpoint_ends {Addr Endpoint} (resolve : Endpoint -> result Addr string) deadline e polls :
  Exists (fun p => deadline <= now p) polls -> is_Some (wait_for_endpoint resolve deadline e polls).
Proof.
  intros Hp. revert e. induction Hp as [p rest Hd|p rest _ IH]; intros e; cbn;
    destruct (polled p) as [[endpoint|]|]; try (by eexists).
  1,2: by rewrite (proj2 (Z.leb_le _ _) Hd).
  all: destruct (_ <=? _); [by eexists|apply IH].
Qed.

Lemma wait_for_ready_ends timeout polls :
  Exists (fun p => timeout <= now p) polls -> is_Some (wait_for_ready timeout polls).
Proof.
  induction 1 as [p rest Hd|p rest _ IH]; cbn; destruct (polled p); try (by eexists).
  - by rewrite (proj2 (Z.leb_le _ _) Hd).
  - by destruct (_ <=? _).
Qed.

Section RunFacts.
Context (launch_text : Launch.LaunchError -> string) (cli_text : LaunchCliError -> string)
  (status_text : Launch.ExitStatus -> string) (artifacts : string).

Notation run := (run_payload_launch launch_text cli_text status_text artifacts).

(** The order of the actions of a launch in an environment. *)
Definition orderly (env : environment) (acts : list act) (out : outcome) : Prop :=
  (last acts = Some LaunchOver \/
   exists e, (exists addr, endpoint_wait env = First (Ok addr)) /\ ready_wait env = First (JoinError e) /\ acts = []) /\
  (forall i, acts !! i = Some LaunchOver ->
     (exists r, endpoint_wait env = LaunchEnded r) \/ (exists r, ready_wait env = LaunchEnded r) \/
     exists k reason, (k < i)%nat /\ acts !! k = Some (RequestShutdown reason)) /\
  (forall i, acts !! i = Some RunPayload ->
     acts !! (i + 1)%nat = Some FlushGuest /\ exists reason, acts !! (i + 2)%nat = Some (RequestShutdown reason)) /\
  (forall st, out = ExitProcess st ->
     exists code exit, payload_session env = Ok (ExitOutcome code) /\ launch_end env = Joined (Ok exit) /\
       st = payload_exit_status code /\ RunPayload ∈ acts).

Lemma shutdown_then_over env reason text : orderly env [RequestShutdown reason; LaunchOver] (Failed text).
Proof.
  split; [by left|]. split; [|split]; [| |done].
  - intros [|[|i]]; cbn; try done. intros _. right. right. exists 0%nat, reason. split; [lia|done].
  - by intros [|[|i]].
Qed.

Lemma over_early env out :
  (exists r, endpoint_wait env = LaunchEnded r) \/ (exists r, ready_wait env = LaunchEnded r) ->
  (forall st, out <> ExitProcess st) -> orderly env [LaunchOver] out.
Proof.
  intros Hr Ho. split; [by left|]. split; [|split].
  - intros i _. destruct Hr; [by left|by right; left].
  - by intros [|i].
  - intros st Hst. by apply Ho in Hst.
Qed.

(** A payload launch returns only after its virtual machine is over, and asks
    for the shutdown before it waits for that; the guest's file systems are flushed
    between the payload and the shutdown; and it exits with the status of the payload
    only when both the payload and the launch ended well. The one exception is the loss
    of the task that waits for readiness. *)
Theorem payload_launch_ends_vm env : orderly env (run env).1 (run env).2.
Proof.
  destruct env as [ep rd ps le]. unfold run_payload_launch, finish_payload, ended_early. cbn.
  destruct ep as [[addr|e]|r]; [destruct rd as [[[[]|e]|e]|r]| |].
  - split; [by left|]. split; [|split].
    + intros [|[|[|[|i]]]]; cbn; try done. intros _. right. right. exists 2%nat. eexists. split; [lia|done].
    + intros [|[|[|[|i]]]]; cbn; try done. intros _. split; [done|]. by eexists.
    + intros st. destruct le as [[exit|]|]; try done. destruct ps as [[code| |]|]; try done.
      intros [= <-]. exists code, exit. split_and!; try done. by left.
  - by apply shutdown_then_over.
  - split; [right; by exists e; split; [exists addr|]|]. by split_and!; intros [].
  - apply over_early; [by right; exists r|]. by destruct r as [[]|].
  - by apply shutdown_then_over.
  - apply over_early; [by left; exists r|]. by destruct r as [[]|].
Qed.

End RunFacts.
End WithJson.
End LaunchRun.
