(* ===== verification/Tui.v ===== *)
(** The terminal interface (src/vm-frontend/src/tui.rs): the editor of a project's
    configuration, the keys that are passed to the guest, the prompt of the wrapper, the
    status line and the turns of the viewport.

    A character is the list of its UTF-8 bytes. ratatui's layout, vt100's screen,
    tui_input and the widths of characters are interfaces; drawing is not modelled. The
    theorems: the editor keeps a configuration valid; keys typed into the prompt do not
    reach the guest, pasted text does; the status line fits its width. *)

From stdpp Require Import base option list numbers strings gmap sets.
From Stdlib Require Import ZArith Lia Ascii String.
From S2P Require Import Prelude RustIo RustStr FsPath HttpRequest PayloadProtocol PayloadMessages VmnetServiceIo PayloadClient.
From S2P Require Import Supervisor Frontend HostOps Manifest Namespace RuntimeManifest CliText Config.

Local Open Scope string_scope.
Local Open Scope Z_scope.

Module Tui.
Import CliText Config.

(** ** Keys *)

Definition char : Type := list byte.

Definition ascii_char (a : ascii) : char := [byte_of_ascii a].

Inductive KeyCode :=
| Char (c : char)
| Enter | Backspace | Tab | BackTab | Esc | Left | Right | Up | Down | Home | End_ | PageUp | PageDown | Delete | Insert
| OtherKey.

#[global] Instance KeyCode_eq_dec : EqDecision KeyCode.
Proof. solve_decision. Defined.

(** A key event; [released] is [KeyEventKind::Release]. *)
Record KeyEvent := mkKey { code : KeyCode; ctrl : bool; alt : bool; released : bool }.

Definition is_char (k : KeyCode) (a : ascii) : bool := bool_decide (k = Char (ascii_char a)).

(** ** The editor of the configuration *)

Inductive ConfigEditorResult := Save | Cancel | Redraw | Ignored.

Section Editor.
Context (home : option string).

Definition with_command (c : WrapperSandboxConfig) (command : ConfigCommand) (shares : list ConfigShare)
  : WrapperSandboxConfig :=
  mkConfig (wc_schema_version c) command (wc_network c) (auth c) shares (published_ports c).

Definition with_network (c : WrapperSandboxConfig) (n : ConfigNetwork) : WrapperSandboxConfig :=
  mkConfig (wc_schema_version c) (default_command c) n (auth c) (shares c) (published_ports c).

Definition apply_setup_tool (c : WrapperSandboxConfig) (tool : SetupTool) : WrapperSandboxConfig :=
  match setup_tool home tool with
  | Ok new =>
      mkConfig (wc_schema_version new) (default_command new) (wc_network c) (auth c) (shares new) (published_ports c)
  | Err _ => c
  end.

Definition cycle_default_command (c : WrapperSandboxConfig) : WrapperSandboxConfig :=
  if bool_decide (command (default_command c) = "codex") then apply_setup_tool c Pi
  else if bool_decide (command (default_command c) = "pi") then with_command c (ConfigCommand_new "bash") []
  else apply_setup_tool c Codex.

Definition cycle_network_mode (c : WrapperSandboxConfig) : WrapperSandboxConfig :=
  let n := wc_network c in
  with_network c
    match cn_mode n with
    | Public => mkNetwork NoNetwork (allowed_domains n) (allowed_hosts n) (allowed_ips n)
    | NoNetwork =>
        mkNetwork Allowlist (match allowed_domains n with [] => ["example.com"] | ds => ds end) (allowed_hosts n)
          (allowed_ips n)
    | Allowlist => mkNetwork Public (allowed_domains n) (allowed_hosts n) (allowed_ips n)
    end.

(** [position] and [remove], or the element added at the end. *)
Fixpoint remove_first {A} (f : A -> bool) (l : list A) : option (list A) :=
  match l with
  | [] => None
  | a :: l => if f a then Some l else cons a <$> remove_first f l
  end.

Definition toggle {A} (f : A -> bool) (new : A) (l : list A) : list A := default (l ++ [new])%list (remove_first f l).

Definition toggle_default_rw_share (c : WrapperSandboxConfig) : WrapperSandboxConfig :=
  with_command c (default_command c)
    (toggle (fun s => bool_decide (cs_host_path s = "/tmp/agentvm-share"))
       (mkShare "/tmp/agentvm-share" None Rw false []) (shares c)).

Definition toggle_sample_port (c : WrapperSandboxConfig) : WrapperSandboxConfig :=
  mkConfig (wc_schema_version c) (default_command c) (wc_network c) (auth c) (shares c)
    (toggle (fun p => (cp_host p =? 18080) && (cp_guest p =? 8080)) (mkPort 18080 8080) (published_ports c)).

Definition editor_handle_key (c : WrapperSandboxConfig) (key : KeyEvent) : ConfigEditorResult * WrapperSandboxConfig :=
  if released key then (Ignored, c)
  else if is_char (code key) "s" || bool_decide (code key = Enter) then (Save, c)
  else if bool_decide (code key = Esc) || is_char (code key) "q" then (Cancel, c)
  else if is_char (code key) "c" then (Redraw, cycle_default_command c)
  else if is_char (code key) "n" then (Redraw, cycle_network_mode c)
  else if is_char (code key) "g" then
    (Redraw, mkConfig (wc_schema_version c) (default_command c) (wc_network c)
               (mkAuth (negb (github (auth c))) (auth_aws_profile (auth c))) (shares c) (published_ports c))
  else if is_char (code key) "d" then (Redraw, toggle_default_rw_share c)
  else if is_char (code key) "p" then (Redraw, toggle_sample_port c)
  else (Ignored, c).

(** What the loop of [run_config_editor] reads: a key, another event, or a failure of the
    terminal; [None] while it waits. *)
Inductive terminal_event := KeyRead (key : KeyEvent) | OtherRead | TerminalFailed (text : string).

Fixpoint run_config_editor (c : WrapperSandboxConfig) (events : list terminal_event)
  : option (result WrapperSandboxConfig string) :=
  match events with
  | [] => None
  | TerminalFailed text :: _ => Some (Err text)
  | OtherRead :: rest => run_config_editor c rest
  | KeyRead key :: rest =>
      match editor_handle_key c key with
      | (Save, c) => Some (Ok c)
      | (Cancel, _) => Some (Err "config edit cancelled")
      | (_, c) => run_config_editor c rest
      end
  end.

End Editor.

(** ** Keys for the guest *)

Inductive GuestInput := Bytes (bs : list byte) | Signal (signal : Z) | Reserved.

Definition ctrl_char_bytes (ch : char) : option (list byte) :=
  match ch with
  | [b] =>
      let n := u8 b in
      let lower := if (65 <=? n) && (n <=? 90) then n + 32 else n in
      if (97 <=? lower) && (lower <=? 122) then Some [byte_of_Z (lower - 97 + 1)]
      else if n =? 91 then Some [Byte.x1b]
      else if n =? 93 then Some [Byte.x1d]
      else if n =? 94 then Some [Byte.x1e]
      else if n =? 95 then Some [Byte.x1f]
      else None
  | _ => None
  end.

Definition ctrl_c_to_guest_input (forwarded_interrupts : Z) : option GuestInput :=
  match PayloadClient.tui_ctrl_c_action PayloadClient.policy_interactive forwarded_interrupts with
  | PayloadClient.ForwardSignal signal => Some (Signal signal)
  | PayloadClient.LocalAbort => Some Reserved
  | _ => None
  end.

(** An escape sequence: the bytes after [ESC]. *)
Definition escape_seq (s : string) : list byte := Byte.x1b :: list_byte_of_string s.

Definition key_bytes (key : KeyEvent) : option (list byte) :=
  match code key with
  | Char ch => if ctrl key then ctrl_char_bytes ch else if alt key then Some (Byte.x1b :: ch) else Some ch
  | Enter => Some [Byte.x0d]
  | Backspace => Some [Byte.x7f]
  | Tab => Some [Byte.x09]
  | BackTab => Some (escape_seq "[Z")
  | Esc => Some [Byte.x1b]
  | Left => Some (escape_seq "[D")
  | Right => Some (escape_seq "[C")
  | Up => Some (escape_seq "[A")
  | Down => Some (escape_seq "[B")
  | Home => Some (escape_seq "[H")
  | End_ => Some (escape_seq "[F")
  | PageUp => Some (escape_seq "[5~")
  | PageDown => Some (escape_seq "[6~")
  | Delete => Some (escape_seq "[3~")
  | Insert => Some (escape_seq "[2~")
  | OtherKey => None
  end.

(** The backslash. *)
Definition backslash : ascii := ascii_of_N 92.

Definition key_event_to_guest_input (key : KeyEvent) : option GuestInput :=
  if released key then None
  else if ctrl key && is_char (code key) backslash then Some Reserved
  else if ctrl key && (is_char (code key) "c" || is_char (code key) "C") then ctrl_c_to_guest_input 0
  else bs ← key_bytes key; Some (Bytes bs).

(** ** The status line *)

(** The width of a character on a terminal, and of a text. *)
Class Widths := {
  char_width : char -> option Z;
  str_width : list char -> Z
}.

Class WidthLaws `{Widths} : Prop := {
  char_width_nonneg c w : char_width c = Some w -> 0 <= w;
  dot_width : char_width (ascii_char ".") = Some 1
}.

Definition chars (s : string) : list char := Http.from_utf8_lossy (list_byte_of_string s).

Section Status.
Context `{Widths}.

Definition width_or_0 (c : char) : Z := default 0 (char_width c).

Fixpoint take_loop (used width : Z) (text : list char) : list char :=
  match text with
  | [] => []
  | ch :: rest =>
      if used + width_or_0 ch >? width then [] else ch :: take_loop (used + width_or_0 ch) width rest
  end.

Definition take_display_width (text : list char) (width : Z) : list char := take_loop 0 width text.

Definition dots : list char := [ascii_char "."; ascii_char "."; ascii_char "."].

Definition truncate_status (text : list char) (width : Z) : list char :=
  if str_width text <=? width then text
  else if width =? 0 then []
  else if width <=? 3 then take_display_width text width
  else (take_display_width text (width - 3) ++ dots)%list.

Inductive SessionPhase := StartingPayload | Running | Exited (code : Z) | PhaseError (message : string).

Definition show_i32 (n : Z) : string := if n <? 0 then "-" ++ show_usize (- n) else show_usize n.

Definition phase_label (p : SessionPhase) : string :=
  match p with
  | StartingPayload => "starting payload"
  | Running => "running"
  | Exited exit_code => "exited " ++ show_i32 exit_code
  | PhaseError message => "error: " ++ message
  end.

Inductive FocusMode := FocusGuest | FocusPrompt.

Definition focus_label (f : FocusMode) : string := match f with FocusGuest => "guest" | FocusPrompt => "prompt" end.

Record StatusBar := mkStatus {
  st_phase : SessionPhase; focus : FocusMode; st_rows : Z; st_cols : Z; st_supervisor : option string }.

Definition StatusBar_new (rows cols : Z) : StatusBar := mkStatus StartingPayload FocusGuest rows cols None.

Definition status_text (s : StatusBar) (width : Z) : list char :=
  truncate_status (chars (phase_label (st_phase s) ++ " | focus " ++ focus_label (focus s) ++ " | " ++
    show_usize (st_cols s) ++ "x" ++ show_usize (st_rows s) ++
    match st_supervisor s with Some supervisor => " | " ++ supervisor | None => "" end)) width.

End Status.

(** The summary of a supervisor's snapshot. *)
Record SupervisorTaskCounts := mkCounts { ready : Z; failed : Z; cancelled : Z; total : Z }.

Definition count_task (c : SupervisorTaskCounts) (t : Supervisor.SupervisorTaskResult) : SupervisorTaskCounts :=
  match Supervisor.tr_status t with
  | Supervisor.Ready | Supervisor.Finished => mkCounts (ready c + 1) (failed c) (cancelled c) (total c)
  | Supervisor.Failed _ => mkCounts (ready c) (failed c + 1) (cancelled c) (total c)
  | Supervisor.Cancelled _ => mkCounts (ready c) (failed c) (cancelled c + 1) (total c)
  | Supervisor.Planned | Supervisor.Starting => c
  end.

Definition supervisor_task_counts (s : Supervisor.SupervisorControlSnapshot) : SupervisorTaskCounts :=
  fold_left count_task (Supervisor.sn_tasks s) (mkCounts 0 0 0 (len (Supervisor.sn_tasks s))).

Definition supervisor_status_summary (s : Supervisor.SupervisorControlSnapshot) : string :=
  let counts := supervisor_task_counts s in
  let lifecycle :=
    match Supervisor.sn_shutdown s with
    | Supervisor.Running => "running"
    | Supervisor.Requested reason => "shutdown requested: " ++ reason
    end in
  "vm " ++ lifecycle ++ "; ready " ++ show_usize (ready counts) ++ "/" ++ show_usize (total counts) ++
  (if (failed counts >? 0) || (cancelled counts >? 0)
   then "; failed " ++ show_usize (failed counts) ++ "; cancelled " ++ show_usize (cancelled counts) else "").

(** ** The viewport *)

(** vt100's screen and the edited line of tui_input; [input_key] is [handle_event],
    [None] when it does nothing with the key. *)
Class Screens := {
  screen : Type;
  screen_new : Z -> Z -> screen;
  screen_process : screen -> list byte -> screen;
  screen_resize : screen -> Z -> Z -> screen;
  line : Type;
  line_empty : line;
  line_value : line -> string;
  line_key : line -> KeyEvent -> option line
}.

Inductive PromptResult := Accepted (value : string) | PromptCancelled.

Inductive WrapperKeyOutcome := ToGuest (input : GuestInput) | PromptFinished | RedrawView | IgnoredKey.

Definition payload_rows (rows : Z) : Z := Z.max rows 2.

Section View.
Context `{Screens}.

Record PromptState := mkPrompt { question : string; input : line }.

Record GuestTerminalView := mkView {
  parser : screen;
  status : StatusBar;
  prompt : option PromptState;
  prefix_armed : bool;
  last_prompt_result : option PromptResult
}.

Definition GuestTerminalView_new (rows cols : Z) : GuestTerminalView :=
  mkView (screen_new (payload_rows rows) (Z.max cols 1)) (StatusBar_new (Z.max rows 1) (Z.max cols 1)) None false None.

Definition set_phase (v : GuestTerminalView) (p : SessionPhase) : GuestTerminalView :=
  let s := status v in
  mkView (parser v) (mkStatus p (focus s) (st_rows s) (st_cols s) (st_supervisor s)) (prompt v) (prefix_armed v)
    (last_prompt_result v).

Definition set_focus (s : StatusBar) (f : FocusMode) : StatusBar :=
  mkStatus (st_phase s) f (st_rows s) (st_cols s) (st_supervisor s).

Definition process_output (v : GuestTerminalView) (bs : list byte) : GuestTerminalView :=
  set_phase (mkView (screen_process (parser v) bs) (status v) (prompt v) (prefix_armed v) (last_prompt_result v)) Running.

Definition set_guest_size (v : GuestTerminalView) (rows cols : Z) : GuestTerminalView :=
  let s := status v in
  mkView (screen_resize (parser v) (payload_rows rows) (Z.max cols 1))
    (mkStatus (st_phase s) (focus s) (Z.max rows 1) (Z.max cols 1) (st_supervisor s)) (prompt v) (prefix_armed v)
    (last_prompt_result v).

Definition open_prompt (v : GuestTerminalView) (q : string) : GuestTerminalView :=
  mkView (parser v) (set_focus (status v) FocusPrompt) (Some (mkPrompt q line_empty)) false (last_prompt_result v).

Definition close_prompt (v : GuestTerminalView) (r : PromptResult) : GuestTerminalView :=
  mkView (parser v) (set_focus (status v) FocusGuest) None (prefix_armed v) (Some r).

Definition prompt_text `{Widths} (p : PromptState) (width : Z) : list char :=
  truncate_status (chars ("prompt | " ++ question p ++ ": " ++ line_value (input p))) width.

Definition handle_prompt_key (v : GuestTerminalView) (key : KeyEvent) : WrapperKeyOutcome * GuestTerminalView :=
  if released key then (IgnoredKey, v)
  else
    match prompt v with
    | None => (IgnoredKey, v)
    | Some p =>
        match code key with
        | Enter => (PromptFinished, close_prompt v (Accepted (line_value (input p))))
        | Esc => (PromptFinished, close_prompt v PromptCancelled)
        | _ =>
            match line_key (input p) key with
            | Some l =>
                (RedrawView, mkView (parser v) (status v) (Some (mkPrompt (question p) l)) (prefix_armed v)
                               (last_prompt_result v))
            | None => (IgnoredKey, v)
            end
        end
    end.

Definition arm_prefix (v : GuestTerminalView) (armed : bool) : GuestTerminalView :=
  mkView (parser v) (status v) (prompt v) armed (last_prompt_result v).

Definition handle_wrapper_key (v : GuestTerminalView) (key : KeyEvent) : WrapperKeyOutcome * GuestTerminalView :=
  match prompt v with
  | Some _ => handle_prompt_key v key
  | None =>
      if prefix_armed v then
        let v := arm_prefix v false in
        if negb (released key) && is_char (code key) "p" then (RedrawView, open_prompt v "wrapper prompt")
        else (RedrawView, v)
      else
        match key_event_to_guest_input key with
        | Some Reserved => (RedrawView, arm_prefix v true)
        | Some input => (ToGuest input, v)
        | None => (IgnoredKey, v)
        end
  end.

(** The commands [handle_guest_input] sends. *)
Definition handle_guest_input (i : GuestInput) : list PayloadClient.AsyncPayloadCommand :=
  match i with
  | Bytes bs => [PayloadClient.InputCommand bs]
  | Signal signal => [PayloadClient.SignalCommand signal]
  | Reserved => []
  end.

(** A rectangle's size as ratatui splits it: the height and width left for the guest. *)
Context (terminal_area : Z -> Z -> Z * Z).

(** [viewport_layout]: the rows and columns of the guest. *)
Definition viewport_layout (width height : Z) : Z * Z :=
  let '(h, w) := terminal_area width height in (Z.max h 1, Z.max w 1).

Definition initial_guest_size (width height : Z) : Z * Z :=
  if (width =? 0) || (height =? 0) then (24, 80)
  else let '(rows, cols) := viewport_layout width height in (payload_rows rows, Z.max cols 1).

Inductive Event := KeyEvent_ (key : KeyEvent) | Paste (text : list byte) | Resize (cols rows : Z) | OtherEvent.

(** One turn of the inner loop: the commands that are sent, the view and whether it has
    to be drawn. *)
Definition viewport_event (v : GuestTerminalView) (e : Event)
  : list PayloadClient.AsyncPayloadCommand * GuestTerminalView * bool :=
  match e with
  | KeyEvent_ key =>
      match handle_wrapper_key v key with
      | (ToGuest i, v) => (handle_guest_input i, v, false)
      | (PromptFinished, v) | (RedrawView, v) => ([], v, true)
      | (IgnoredKey, v) => ([], v, false)
      end
  | Paste text => ([PayloadClient.InputCommand text], v, false)
  | Resize cols rows =>
      let '(guest_rows, guest_cols) := viewport_layout cols rows in
      ([PayloadClient.ResizeCommand (payload_rows guest_rows) (Z.max guest_cols 1)],
       set_guest_size v guest_rows guest_cols, true)
  | OtherEvent => ([], v, false)
  end.

Fixpoint viewport_events (v : GuestTerminalView) (es : list Event)
  : list PayloadClient.AsyncPayloadCommand * GuestTerminalView :=
  match es with
  | [] => ([], v)
  | e :: es =>
      let '(cmds, v, _) := viewport_event v e in
      let '(more, v) := viewport_events v es in
      ((cmds ++ more)%list, v)
  end.

End View.

(** [RenderCoalescer]: whether the next tick draws. *)
Definition mark_dirty (dirty : bool) : bool := true.
Definition consume_tick (dirty : bool) : bool * bool := (dirty, false).

(** ** Facts: the editor *)

Definition share_valid (s : ConfigShare) : Prop := validate_shares [s] = Ok tt.

Lemma validate_shares_forall l : validate_shares l = Ok tt <-> Forall share_valid l.
Proof.
  unfold share_valid. induction l as [|s l IH]; [by split|]. rewrite Forall_cons, <- IH. cbn.
  destruct (blank _); [naive_solver|]. destruct (bool_decide _); [naive_solver|].
  destruct (validate_shadows _ _) as [[]|]; cbn; naive_solver.
Qed.

Lemma validate_iff c :
  validate c = Ok tt <->
  wc_schema_version c = 3 /\ blank (command (default_command c)) = false /\ Forall share_valid (shares c).
Proof.
  rewrite <- validate_shares_forall. unfold validate, ConfigCommand_validate.
  destruct (wc_schema_version c =? 3) eqn:E; cbn; b2p; [|naive_solver].
  destruct (blank _); cbn; naive_solver.
Qed.

Lemma toggle_forall {A} (P : A -> Prop) f new l : P new -> Forall P l -> Forall P (toggle f new l).
Proof.
  intros Hn Hl. unfold toggle.
  assert (forall l', remove_first f l = Some l' -> Forall P l') as Hr.
  { induction Hl as [|a l Ha Hl IH]; intros l'; cbn; [done|]. destruct (f a); [by intros [= <-]|].
    destruct (remove_first f l); [|done]. cbn. intros [= <-]. constructor; [done|by apply IH]. }
  destruct (remove_first f l); cbn; [by apply Hr|]. apply Forall_app_2; [done|by constructor].
Qed.

Section EditorFacts.
Context (home : option string).

Lemma apply_setup_tool_valid c t : validate c = Ok tt -> validate (apply_setup_tool home c t) = Ok tt.
Proof.
  intros Hc. unfold apply_setup_tool. destruct (setup_tool home t) as [new|] eqn:E; [|done].
  apply setup_tool_valid in E. rewrite validate_iff in E |- *. done.
Qed.

Lemma editor_key_valid c key : validate c = Ok tt -> validate (editor_handle_key home c key).2 = Ok tt.
Proof.
  intros Hc. pose proof Hc as Hv. rewrite validate_iff in Hv. destruct Hv as (H1 & H2 & H3).
  unfold editor_handle_key. repeat case_match; try done; cbn.
  - unfold cycle_default_command. destruct (bool_decide (_ = "codex")); [by apply apply_setup_tool_valid|].
    destruct (bool_decide (_ = "pi")); [|by apply apply_setup_tool_valid]. apply validate_iff. cbn.
    split_and!; [done|by vm_compute|constructor].
  - apply validate_iff. cbn. split_and!; [done..|]. apply toggle_forall; [by vm_compute|done].
Qed.

(** Whatever keys are pressed, the editor turns a valid configuration into a valid one. *)
Lemma editor_saves_valid c events c' :
  validate c = Ok tt -> run_config_editor home c events = Some (Ok c') -> validate c' = Ok tt.
Proof.
  revert c. induction events as [|[key| |text] events IH]; intros c Hc; cbn; [done| |by apply IH|done].
  pose proof (editor_key_valid c key Hc) as Hk. destruct (editor_handle_key home c key) as [[] c1]; cbn in Hk;
    [by intros [= <-]|done|by apply IH|by apply IH].
Qed.

(** The editor never leaves an allowlist without an entry. *)
Lemma editor_allowlist c : cn_mode (wc_network (cycle_network_mode c)) = Allowlist ->
  allowed_domains (wc_network (cycle_network_mode c)) <> [].
Proof.
  unfold cycle_network_mode. cbn. destruct (cn_mode (wc_network c)); cbn; try done.
  by destruct (allowed_domains (wc_network c)).
Qed.

End EditorFacts.

(** ** Facts: the prompt *)

Section ViewFacts.
Context `{Screens} (terminal_area : Z -> Z -> Z * Z).

Notation event := (viewport_event terminal_area).
Notation events := (viewport_events terminal_area).

(** The status line says where the keys go. *)
Definition view_ok (v : GuestTerminalView) : Prop := focus (status v) = FocusPrompt <-> is_Some (prompt v).

Lemma view_ok_new rows cols : view_ok (GuestTerminalView_new rows cols).
Proof. split; [done|by intros []]. Qed.

Lemma handle_wrapper_key_ok v key : view_ok v -> view_ok (handle_wrapper_key v key).2.
Proof.
  intros Hv. unfold handle_wrapper_key, handle_prompt_key. destruct (prompt v) as [p|] eqn:Ep.
  - assert (focus (status v) = FocusPrompt) as Hf by (apply Hv; by rewrite Ep).
    destruct (released key); [done|]. destruct (code key); try (by split; [|intros []]);
      destruct (line_key _ _); try done; by split.
  - destruct (prefix_armed v).
    + destruct (negb _ && _); cbn; [by split|]. unfold view_ok in *. cbn. by rewrite Ep in *.
    + destruct (key_event_to_guest_input key) as [[]|]; done.
Qed.

Lemma viewport_event_ok v e : view_ok v -> view_ok (event v e).1.2.
Proof.
  intros Hv. destruct e as [key|text|cols rows|]; cbn; try done.
  - pose proof (handle_wrapper_key_ok v key Hv) as Hk. by destruct (handle_wrapper_key v key) as [[] v'].
  - by destruct (viewport_layout terminal_area cols rows).
Qed.

(** A key typed into the prompt sends nothing. *)
Lemma prompt_key_silent v key : is_Some (prompt v) -> (event v (KeyEvent_ key)).1.1 = [].
Proof.
  intros [p Ep]. cbn. unfold handle_wrapper_key, handle_prompt_key. rewrite Ep.
  destruct (released key); [done|]. destruct (code key); try done; by destruct (line_key _ _).
Qed.

(** The prompt stays until Enter or Esc is pressed. *)
Definition closes (key : KeyEvent) : Prop := released key = false /\ (code key = Enter \/ code key = Esc).

Lemma prompt_key_stays v key : is_Some (prompt v) -> ~ closes key -> is_Some (prompt (event v (KeyEvent_ key)).1.2).
Proof.
  intros [p Ep] Hc. cbn. unfold handle_wrapper_key, handle_prompt_key. rewrite Ep.
  destruct (released key) eqn:Er; [by rewrite ?Ep; eexists|].
  destruct (code key) eqn:Ek; try (exfalso; apply Hc; unfold closes; tauto);
    (destruct (line_key _ _); cbn; [by eexists|by rewrite ?Ep; eexists]).
Qed.

(** While the wrapper's prompt is open, nothing that is typed reaches the
    guest, up to and including the key that closes it, and the status line shows that
    the prompt has the keys. *)
Theorem prompt_keeps_keys v keys last :
  view_ok v -> is_Some (prompt v) -> Forall (fun key => ~ closes key) keys ->
  let '(cmds, v') := events v (map KeyEvent_ keys) in
  cmds = [] /\ focus (status v') = FocusPrompt /\ (event v' (KeyEvent_ last)).1.1 = [].
Proof.
  intros Hok Hp Hk. revert v Hok Hp. induction Hk as [|key keys Hc _ IH]; intros v Hok Hp; cbn [map viewport_events].
  - split_and!; [done|by apply Hok|by apply prompt_key_silent].
  - pose proof (prompt_key_silent v key Hp) as Hs. pose proof (prompt_key_stays v key Hp Hc) as Hst.
    pose proof (viewport_event_ok v (KeyEvent_ key) Hok) as Hok'.
    destruct (event v (KeyEvent_ key)) as [[cmds v1] d]. cbn [fst snd] in *. subst cmds.
    specialize (IH v1 Hok' Hst). by destruct (events v1 (map KeyEvent_ keys)).
Qed.

(** Pasted text goes to the guest also while the prompt is open. *)
Lemma paste_passes_prompt v text : (event v (Paste text)).1.1 = [PayloadClient.InputCommand text].
Proof. done. Qed.

(** Every interrupt typed in the viewport is passed on; none aborts the session. *)
Lemma ctrl_c_always_forwarded key :
  released key = false -> ctrl key = true -> is_char (code key) "c" = true ->
  key_event_to_guest_input key = Some (Signal 2).
Proof.
  intros Hr Hc Hk. unfold key_event_to_guest_input. rewrite Hr, Hc, Hk.
  unfold is_char in Hk. b2p. by rewrite Hk.
Qed.

End ViewFacts.

(** ** Facts: the status line *)

Section StatusFacts.
Context `{WidthLaws}.

Fixpoint total_width (text : list char) : Z :=
  match text with [] => 0 | c :: rest => width_or_0 c + total_width rest end.

Lemma take_loop_fits used width text : used <= width -> used + total_width (take_loop used width text) <= width.
Proof.
  revert used. induction text as [|c text IH]; intros used Hu; cbn; [lia|].
  rewrite Z.gtb_ltb. destruct (width <? used + width_or_0 c) eqn:E; cbn; [lia|]. apply Z.ltb_ge in E.
  specialize (IH _ E). rewrite <- Z.add_assoc in IH. exact IH.
Qed.

Lemma total_width_app a b : total_width (a ++ b)%list = total_width a + total_width b.
Proof. induction a as [|c a IH]; [done|]. cbn. rewrite IH. lia. Qed.

(** A text that does not fit is cut to characters that do. *)
Lemma truncate_fits text width :
  0 <= width -> truncate_status text width = text \/ total_width (truncate_status text width) <= width.
Proof.
  intros Hw. unfold truncate_status, take_display_width. destruct (str_width text <=? width); [by left|]. right.
  destruct (width =? 0) eqn:E0; [done|]. b2p. destruct (width <=? 3) eqn:E3; b2p.
  - pose proof (take_loop_fits 0 width text). lia.
  - rewrite total_width_app. pose proof (take_loop_fits 0 (width - 3) text).
    assert (total_width dots = 3) by (unfold dots; cbn [total_width]; unfold width_or_0; by rewrite dot_width). lia.
Qed.

End StatusFacts.

(** ** Witnesses *)

Definition typed (a : ascii) : KeyEvent := mkKey (Char (ascii_char a)) false false false.

(** A screen that forgets and a line of typed characters. *)
#[local] Instance demo_screens : Screens := {|
  screen := unit;
  screen_new _ _ := tt;
  screen_process _ _ := tt;
  screen_resize _ _ _ := tt;
  line := list byte;
  line_empty := [];
  line_value l := string_of_list_byte l;
  line_key l key := match code key with Char c => Some (l ++ c)%list | _ => None end
|}.

Definition demo_view : GuestTerminalView := open_prompt (GuestTerminalView_new 24 80) "wrapper prompt".

Example prompt_keeps_keys_example :
  let '(cmds, v') := viewport_events (fun w h => (h - 1, w)) demo_view (map KeyEvent_ [typed "l"; typed "s"]) in
  cmds = [] /\ focus (status v') = FocusPrompt /\
  (viewport_event (fun w h => (h - 1, w)) v' (KeyEvent_ (mkKey Enter false false false))).1.1 = [].
Proof.
  apply (prompt_keeps_keys (fun w h => (h - 1, w)) demo_view [typed "l"; typed "s"] (mkKey Enter false false false)).
  - split; [by eexists|done].
  - by eexists.
  - repeat constructor; by intros [_ [|]].
Defined.

End Tui.
