(* ===== verification/DockerProxy.v ===== *)
(** The proxy of the Docker socket (src/vm-frontend/src/docker_proxy.rs): it accepts
    connections on a Unix socket and connects each to a TCP port of the loopback.

    A step of the loop is one branch of its select, in its order of priority; a client
    task ends at any time. The theorems: never more clients than the limit, no permit is
    lost, and the proxy returns with no client left, or, after an error, with those left
    aborted. *)

From stdpp Require Import base option list numbers strings gmap sets relations.
From Stdlib Require Import ZArith Lia String.
From S2P Require Import Prelude RustIo RustStr FsPath HostOps Frontend RuntimeManifest.

Local Open Scope string_scope.
Local Open Scope Z_scope.

Module DockerProxy.
Import FsPath HostOps RuntimeManifest.

Record DockerUnixProxyConfig := mkProxyConfig { socket_path : string; tcp_host : string; tcp_port : Z }.

Record DockerUnixProxyLimits := mkLimits { max_connections : Z }.

Definition DockerUnixProxyLimits_default : DockerUnixProxyLimits := mkLimits 32.

(** ** Starting *)

(** [fs::remove_file], [UnixListener::bind]. *)
Class SocketFs (G : Type) := {
  remove_socket : G -> string -> io_result unit * G;
  bind_listener : G -> string -> io_result unit * G
}.

Section Start.
Context {G : Type} `{LaunchFs G} `{SocketFs G}.

Definition remove_stale_socket (path : string) (g : G) : io_result unit * G :=
  match remove_socket g path with
  | (Ok _, g) => (Ok tt, g)
  | (Err e, g) => (if bool_decide (error_kind e = NotFound) then Ok tt else Err e, g)
  end.

(** [run_docker_unix_proxy_async], up to the loop. *)
Definition open_docker_unix_proxy (c : DockerUnixProxyConfig) (l : DockerUnixProxyLimits) (g : G) : io_result unit * G :=
  if max_connections l =? 0 then
    (Err (invalid_input "docker proxy max_connections must be greater than zero"), g)
  else
    match remove_stale_socket (socket_path c) g with
    | (Err e, g) => (Err e, g)
    | (Ok _, g) =>
        match (match parent (socket_path c) with Some dir => create_dir_all g dir | None => (Ok tt, g) end) with
        | (Err e, g) => (Err e, g)
        | (Ok _, g) => bind_listener g (socket_path c)
        end
    end.

End Start.

(** ** The loop *)

Inductive proxy_phase := Serving | Draining | ProxyReturned (r : io_result unit).

(** What the shutdown channel has to say: nothing, an unseen value, or that its sender is
    gone. *)
Inductive shutdown_news := NoNews | NewValue (stop : bool) | SenderGone.

(** The free permits, the client tasks that run, those that have ended and are not joined
    yet, and the number of the next one; whether the clients have been aborted. A task
    gives its permit back when it ends; an aborted one ends at its next turn. *)
Record proxy := mkProxy {
  px_permits : Z;
  px_running : gset Z;
  px_ended : gset Z;
  px_next : Z;
  px_news : shutdown_news;
  px_phase : proxy_phase;
  px_aborted : bool
}.

Definition proxy_start (l : DockerUnixProxyLimits) (n : shutdown_news) : proxy :=
  mkProxy (max_connections l) ∅ ∅ 0 n Serving false.

Definition with_phase (p : proxy) (n : shutdown_news) (ph : proxy_phase) : proxy :=
  mkProxy (px_permits p) (px_running p) (px_ended p) (px_next p) n ph (px_aborted p).

(** [abort_all] on the set of the clients, which dropping the set does too. *)
Definition abort_clients (p : proxy) : proxy :=
  mkProxy (px_permits p) (px_running p) (px_ended p) (px_next p) (px_news p) (px_phase p) true.

(** [try_acquire_owned], and the task of the client; without a permit the connection is
    dropped. *)
Definition accept_client (p : proxy) : proxy :=
  if px_permits p >? 0 then
    mkProxy (px_permits p - 1) ({[px_next p]} ∪ px_running p) (px_ended p) (px_next p + 1) (px_news p) (px_phase p)
      (px_aborted p)
  else p.

Definition end_client (p : proxy) (i : Z) : proxy :=
  mkProxy (px_permits p + 1) (px_running p ∖ {[i]}) ({[i]} ∪ px_ended p) (px_next p) (px_news p) (px_phase p)
    (px_aborted p).

Definition join_client (p : proxy) (i : Z) : proxy :=
  mkProxy (px_permits p) (px_running p) (px_ended p ∖ {[i]}) (px_next p) (px_news p) (px_phase p)
    (px_aborted p).

(** The branches are tried in order: a branch is taken when those before it are not ready. *)
Inductive proxy_step : proxy -> proxy -> Prop :=
(** A client's transfer is over, its connection fails, or its task is aborted. *)
| step_client_ends p i : i ∈ px_running p -> proxy_step p (end_client p i)
| step_news p n : px_news p = NoNews -> n <> NoNews -> proxy_step p (with_phase p n (px_phase p))
| step_stop p :
    px_phase p = Serving -> px_news p = NewValue true -> proxy_step p (with_phase (abort_clients p) NoNews Draining)
| step_go_on p : px_phase p = Serving -> px_news p = NewValue false -> proxy_step p (with_phase p NoNews Serving)
| step_sender_gone p :
    px_phase p = Serving -> px_news p = SenderGone -> proxy_step p (with_phase (abort_clients p) SenderGone Draining)
| step_join p i : px_phase p = Serving -> px_news p = NoNews -> i ∈ px_ended p -> proxy_step p (join_client p i)
| step_accept p : px_phase p = Serving -> px_news p = NoNews -> px_ended p = ∅ -> proxy_step p (accept_client p)
(** The set of the clients is dropped on the way out. *)
| step_accept_fails p e :
    px_phase p = Serving -> px_news p = NoNews -> px_ended p = ∅ ->
    proxy_step p (with_phase (abort_clients p) NoNews (ProxyReturned (Err e)))
(** [join_next] until there is none. *)
| step_drain p i : px_phase p = Draining -> i ∈ px_ended p -> proxy_step p (join_client p i)
| step_drained p :
    px_phase p = Draining -> px_running p = ∅ -> px_ended p = ∅ ->
    proxy_step p (with_phase p (px_news p) (ProxyReturned (Ok tt))).

(** ** Invariant *)

Record proxy_ok (max : Z) (p : proxy) : Prop := {
  ok_permits : px_permits p + Z.of_nat (size (px_running p)) = max;
  ok_free : 0 <= px_permits p;
  ok_fresh i : i ∈ px_running p -> i < px_next p;
  ok_returned : px_phase p = ProxyReturned (Ok tt) -> px_running p = ∅ /\ px_ended p = ∅;
  ok_aborted : px_phase p <> Serving -> px_aborted p = true
}.

Lemma size_add (X : gset Z) i : i ∉ X -> Z.of_nat (size ({[i]} ∪ X)) = Z.of_nat (size X) + 1.
Proof. intros Hi. rewrite size_union by set_solver. rewrite size_singleton. lia. Qed.

Lemma size_remove (X : gset Z) i : i ∈ X -> Z.of_nat (size (X ∖ {[i]})) = Z.of_nat (size X) - 1.
Proof.
  intros Hi. rewrite size_difference by set_solver. rewrite size_singleton.
  assert (size X <> 0%nat); [|lia]. intros Hz%size_empty_inv. set_solver.
Qed.

Lemma docker_step_ok max p p' : proxy_ok max p -> proxy_step p p' -> proxy_ok max p'.
Proof.
  intros [H1 H2 H3 H4 H5] Hs. destruct Hs as [p i Hi|p n Hn _|p Hp _|p Hp _|p Hp _|p i Hp _ _|p Hp _ _|p e Hp _ _|p i Hp _|p Hp Hr He].
  - split; cbn; [rewrite size_remove by done; lia|lia|set_solver| |done].
    intros [Hr _]%H4. rewrite Hr in Hi. set_solver.
  - by split.
  - by split.
  - by split.
  - by split.
  - split; cbn; [done..|congruence|congruence].
  - unfold accept_client. destruct (px_permits p >? 0) eqn:E; [|done]. apply Z.gtb_lt in E. split; cbn.
    + rewrite size_add; [lia|]. intros Hi%H3. lia.
    + lia.
    + intros i [->%elem_of_singleton|Hi%H3]%elem_of_union; lia.
    + congruence.
    + congruence.
  - by split.
  - split; cbn; [done..|congruence|done].
  - split; cbn; [done..|]. intros _. apply H5. congruence.
Qed.

Lemma proxy_start_ok l n : 0 <= max_connections l -> proxy_ok (max_connections l) (proxy_start l n).
Proof. intros Hl. split; cbn; [rewrite size_empty; lia|done|set_solver|done|done]. Qed.

(** C27 (bounds). The proxy never serves more clients than its limit and loses no permit,
    whatever order its clients come and end in; when it returns without an error no client
    task is left, and when it returns with one the clients that are left have been
    aborted. *)
Theorem docker_proxy_bounded l n p :
  0 <= max_connections l -> rtc proxy_step (proxy_start l n) p ->
  Z.of_nat (size (px_running p)) <= max_connections l /\
  px_permits p = max_connections l - Z.of_nat (size (px_running p)) /\
  (px_phase p = ProxyReturned (Ok tt) -> px_running p = ∅ /\ px_ended p = ∅) /\
  (forall r, px_phase p = ProxyReturned r -> px_aborted p = true).
Proof.
  intros Hl Hst. assert (proxy_ok (max_connections l) p) as [H1 H2 _ H4 H5].
  { pose proof (proxy_start_ok l n Hl) as H0. induction Hst as [|p0 p1 p Hs _ IH]; [done|].
    apply IH. by eapply docker_step_ok. }
  split_and!; [lia|lia|done|]. intros r E. apply H5. by rewrite E.
Qed.

Lemma docker_proxy_bounded_witness :
  exists p, rtc proxy_step (proxy_start (mkLimits 1) NoNews) p /\ px_running p = {[0]} /\ px_permits p = 0 /\
    Z.of_nat (size (px_running p)) <= 1.
Proof.
  set (p := accept_client (accept_client (proxy_start (mkLimits 1) NoNews))).
  assert (rtc proxy_step (proxy_start (mkLimits 1) NoNews) p) as Hst.
  { eapply rtc_l; [apply step_accept; reflexivity|]. apply rtc_once. apply step_accept; reflexivity. }
  exists p. split; [exact Hst|]. split; [reflexivity|]. split; [reflexivity|].
  apply (docker_proxy_bounded (mkLimits 1) NoNews p); [cbn; lia|exact Hst].
Defined.

End DockerProxy.
