(* ===== verification/WrapperLaunch.v ===== *)
(** The wrapper's command (src/vm-frontend/src/wrapper.rs, prepare_wrapper_launch): what
    the parsed arguments do before a launch. They reset the project, set up a tool, edit
    the configuration, or make the certificate authority of the launch.

    The arguments are those of Wrapper, the files and the editor those of Config,
    TlsBootstrap and Tui. The theorems: the configuration that the editor returns is the
    one the next launch reads; an intercepted launch has the authority of its project. *)

From stdpp Require Import base option list numbers strings gmap sets.
From Stdlib Require Import ZArith Lia Ascii String.
From S2P Require Import Prelude RustIo RustStr FsPath NetworkPolicy DnsProxy HttpRequest TcpGateway Frontend HostOps Manifest Namespace.
From S2P Require Import RuntimeManifest Launch CliText Config Appliance LaunchCli TlsBootstrap Wrapper Tui.

Local Open Scope string_scope.
Local Open Scope Z_scope.

Module WrapperLaunch.
Import FsPath Frontend RuntimeManifest Config LaunchCli TlsBootstrap Wrapper.

Section Prepare.
Context {G : Type} `{TextFs G} `{KeyFs G} `{Rcgen} `{Values} (home : option string).
(** [reset_project], whose steps are those of ProjectLock. *)
Context (reset_project : string -> G -> result unit LaunchCliError * G).

(** The policy of an intercepted launch. *)
Definition set_ca (ca : MitmCaPaths) (p : PolicyArgs) : PolicyArgs :=
  mkPolicyArgs (pa_allow_ips p) (pa_allow_domains p) (pa_allow_public p) (pa_no_net p) (pa_qemu_timeout p)
    (pa_local_http_smoke_upstream p) (pa_host_listeners p) (Some (cert ca)) (Some (key ca)) true (pa_pcap_path p)
    (pa_payload p) (pa_gh p) (pa_aws_profile p) (pa_extra_ro p) (pa_extra_rw p) (pa_extra_shares p)
    (pa_extra_share_shadows p).

(** The files of the tool that is set up. *)
Definition write_setup (project : string) (tool : option SetupTool) (g : G) : result unit WrapperError * G :=
  match tool with
  | None => (Ok tt, g)
  | Some tool =>
      match setup_tool home tool with
      | Err e => (Err (WrapperConfig e), g)
      | Ok config =>
          match write_wrapper_sandbox_config project config g with
          | (Err e, g) => (Err (WrapperConfig e), g)
          | (Ok _, g) =>
              let '(r, g) := write_setup_tool_mise_config project tool g in (map_err WrapperConfig r, g)
          end
      end
  end.

(** The configuration that is edited: the project's, or the default. *)
Definition edited_from (project : string) (g : G) : exec (result WrapperSandboxConfig WrapperError) :=
  let! r := read_wrapper_sandbox_config home (read_text g) project in
  Ret (map_err WrapperConfig
         (let? found := r in match found with Some config => Ok config | None => codex_default home end)).

Definition edit_config (project : string) (events : list Tui.terminal_event) (g : G)
  : exec (option (result unit WrapperError * G)) :=
  let! r := edited_from project g in
  Ret match r with
      | Err e => Some (Err e, g)
      | Ok config =>
          match Tui.run_config_editor home config events with
          | None => None
          | Some (Err text) => Some (Err (TuiErr text), g)
          | Some (Ok edited) =>
              let '(r, g) := write_wrapper_sandbox_config project edited g in Some (map_err WrapperConfig r, g)
          end
      end.

(** [None] while the editor waits for the events of the terminal. *)
Definition prepare_wrapper_launch (parsed : exec (result WrapperArgs WrapperError)) (events : list Tui.terminal_event) (g : G)
  : exec (option (result (option (FrontendLaunchRequest * WrapperUiMode)) WrapperError * G)) :=
  let! r := parsed in
  match r with
  | Err e => Ret (Some (Err e, g))
  | Ok wrapper =>
      if wa_help wrapper then Ret (Some (Ok None, g))
      else if wa_reset wrapper then
        let '(r, g) := reset_project (wa_project wrapper) g in
        Ret (Some (let? _ := map_err Reset r in Ok None, g))
      else
        match write_setup (wa_project wrapper) (wa_setup_tool wrapper) g with
        | (Err e, g) => Ret (Some (Err e, g))
        | (Ok _, g) =>
            if wa_edit_config wrapper then
              let! edited := edit_config (wa_project wrapper) events g in
              Ret match edited with
                  | None => None
                  | Some (r, g) => Some (let? _ := r in Ok None, g)
                  end
            else if wa_tls_bootstrap wrapper then
              let '(r, g) := ensure_wrapper_mitm_ca (wa_project wrapper) g in
              Ret (Some (let? ca := map_err TlsBootstrapErr r in
                         let launch := wa_launch wrapper in
                         Ok (Some (set_policy (set_ca ca (fr_policy launch)) launch, wa_ui_mode wrapper)), g))
            else Ret (Some (Ok (Some (wa_launch wrapper, wa_ui_mode wrapper)), g))
        end
  end.

End Prepare.

(** ** Facts *)

Section Facts.
Context {G : Type} `{TextFs G} `{KeyFs G} `{Rcgen} `{ValuesLaws} (home : option string)
  (reset_project : string -> G -> result unit LaunchCliError * G).

(** The configuration that an edit starts from: that of the project's file, or the
    default when there is no file. *)
Definition starts_from (project : string) (g : G) (c : WrapperSandboxConfig) : Prop :=
  read_wrapper_sandbox_config home (read_text g) project = Ret (Ok (Some c)) \/
  (read_wrapper_sandbox_config home (read_text g) project = Ret (Ok None) /\ codex_default home = Ok c).

Lemma edited_from_starts project (g : G) c : edited_from home project g = Ret (Ok c) -> starts_from project g c.
Proof.
  unfold edited_from, starts_from. destruct (read_wrapper_sandbox_config home (read_text g) project) as [r|]; [|done].
  cbn [exec_bind]. destruct r as [[found|]|e]; cbn [result_bind map_err]; intros Hc; [..|done].
  - injection Hc as <-. by left.
  - right. split; [done|]. destruct (codex_default home); [|done]. by injection Hc as <-.
Qed.

Lemma starts_from_valid project (g : G) c : starts_from project g c -> validate c = Ok tt.
Proof.
  intros [Er|[_ Ed]]; [|by eapply setup_tool_valid].
  unfold read_wrapper_sandbox_config in Er. destruct (read_text _ _) as [text|]; [|by case_match].
  destruct (parse_wrapper_sandbox_config_text _ _) as [[c'|]|]; cbn in Er; [|done..].
  destruct (validate c') as [[]|] eqn:Ev; [|done]. by injection Er as <-.
Qed.

(** C16 (roundtrip). What [agentvm --config] saves, the next launch reads: when the edit
    ends, whatever the keys were and whatever tool was set up before it, reading the file
    of the project gives the configuration that the editor returned for these keys, from
    the project's configuration or, without a file, the default; and it is valid. *)
Theorem edited_config_read wa events (g g' : G) r :
  wa_edit_config wa = true -> wa_help wa = false -> wa_reset wa = false ->
  prepare_wrapper_launch home reset_project (Ret (Ok wa)) events g = Ret (Some (Ok r, g')) ->
  r = None /\ exists g1 c c',
    write_setup home (wa_project wa) (wa_setup_tool wa) g = (Ok tt, g1) /\
    starts_from (wa_project wa) g1 c /\ Tui.run_config_editor home c events = Some (Ok c') /\
    validate c' = Ok tt /\
    read_wrapper_sandbox_config home (read_text g') (wa_project wa) = Ret (Ok (Some c')).
Proof.
  intros He Hh Hr. unfold prepare_wrapper_launch. cbn [exec_bind]. rewrite Hh, Hr, He.
  destruct (write_setup home _ _ g) as [[[]|] g1] eqn:Es; [|done]. unfold edit_config.
  destruct (edited_from home (wa_project wa) g1) as [[c|]|] eqn:Ec; [|done..]. cbn [exec_bind].
  destruct (Tui.run_config_editor home c events) as [[c'|]|] eqn:Ee; [|done..].
  destruct (write_wrapper_sandbox_config (wa_project wa) c' g1) as [[[]|] g2] eqn:Ew; [|done]. cbn. intros [= <- <-].
  apply edited_from_starts in Ec. pose proof (starts_from_valid _ _ _ Ec) as Hc.
  pose proof (Tui.editor_saves_valid home c events c' Hc Ee) as Hv.
  split; [done|]. exists g1, c, c'. split_and!; try done. by eapply config_read_back.
Qed.

(** An intercepted launch names the authority of its project, and the key pair of each
    host is made with it. *)
Lemma intercepted_launch_ca wa events (g g' : G) l ui :
  wa_tls_bootstrap wa = true ->
  prepare_wrapper_launch home reset_project (Ret (Ok wa)) events g = Ret (Some (Ok (Some (l, ui)), g')) ->
  pa_tls_ca_cert (fr_policy l) = Some (cert (ca_paths (wa_project wa))) /\
  pa_tls_ca_key (fr_policy l) = Some (key (ca_paths (wa_project wa))) /\
  pa_tls_generate_per_host_certs (fr_policy l) = true /\ network_of (fr_policy l) = network_of (fr_policy (wa_launch wa)).
Proof.
  intros Ht. unfold prepare_wrapper_launch. cbn [exec_bind]. rewrite Ht. destruct (wa_help wa); [done|].
  destruct (wa_reset wa); [by destruct (reset_project _ _) as [[[]|]]|].
  destruct (write_setup home _ _ g) as [[[]|] g1]; [|done]. destruct (wa_edit_config wa).
  { destruct (edit_config home _ _ _) as [[[[[]|] ?]|]|]; done. }
  destruct (ensure_wrapper_mitm_ca _ g1) as [[ca|] g2] eqn:Ec; [|done]. cbn. intros [= <- <- <-].
  assert (ca = ca_paths (wa_project wa)) as -> by by eapply ensure_paths. done.
Qed.

End Facts.

(** ** A witness *)

(** The default configuration, and what the keys [n] and [s] make of it: the mode of
    the network is changed, and the configuration saved. *)
Definition demo_start : WrapperSandboxConfig :=
  match codex_default (Some "/home/u") with Ok c => c | Err _ => Config.sample end.

Definition demo_edited : WrapperSandboxConfig := Tui.cycle_network_mode demo_start.

Definition demo_keys : list Tui.terminal_event := map (fun a => Tui.KeyRead (Tui.typed a)) ["n"; "s"]%char.

#[local] Instance demo_values : Values := Config.values_of demo_edited.
#[local] Instance demo_values_laws : ValuesLaws := Config.values_of_laws demo_edited.
#[local] Existing Instances Config.text_files Config.text_files_laws TlsBootstrap.one_key.

(** A disk on which no key can be made. *)
#[local] Instance no_keys : KeyFs (gmap string (list byte)) := {|
  open_private g _ _ := (Err (OsError 30), g);
  write_all g _ _ := (Err (OsError 30), g);
  set_permissions g _ _ := (Err (OsError 30), g);
  mode_of _ _ := None;
  text_of _ _ := None
|}.

Definition demo_wrapper : WrapperArgs :=
  mkWrapperArgs "/p" (FrontendLaunchRequest_for_project "/a/manifest.json" "/p") Plain None true false true false.

Definition demo_prepared :=
  prepare_wrapper_launch (Some "/home/u") (fun _ g => (Ok tt, g)) (Ret (Ok demo_wrapper)) demo_keys
    (∅ : gmap string (list byte)).

Lemma prepared_inv {A B E} (r : exec (option (result (option A) E * B))) :
  match r with Ret (Some (Ok None, _)) => true | _ => false end = true -> exists b, r = Ret (Some (Ok None, b)).
Proof. intros Hr. repeat case_match; try done. by eexists. Qed.

Lemma edited_config_read_witness :
  exists g', demo_prepared = Ret (Some (Ok None, g')) /\
    cn_mode (wc_network demo_edited) <> cn_mode (wc_network demo_start) /\
    read_wrapper_sandbox_config (Some "/home/u") (read_text g') "/p" = Ret (Ok (Some demo_edited)).
Proof.
  destruct (prepared_inv demo_prepared) as [g' E]; [vm_compute; reflexivity|]. exists g'. split; [exact E|].
  split; [discriminate|].
  destruct (edited_config_read (Some "/home/u") (fun _ g => (Ok tt, g)) demo_wrapper demo_keys ∅ g' None)
    as (_ & g1 & c & c' & Es & Hc & He & _ & Hr); [reflexivity..|exact E|].
  cbn in Es. injection Es as <-.
  destruct Hc as [Hc|[_ Hc]]; [vm_compute in Hc; discriminate|].
  assert (c = demo_start) as -> by (unfold demo_start; by rewrite Hc).
  assert (c' = demo_edited) as -> by (vm_compute in He; injection He as <-; vm_compute; reflexivity).
  exact Hr.
Defined.

End WrapperLaunch.
