(* ===== verification/Commands.v ===== *)
(** The commands of the program (src/vm-frontend/src/cli_main.rs): which one the
    arguments select, the control command, the preparation of a launch, and the gateway
    that runs by itself (src/vm-frontend/src/vmnet_cli.rs).

    clap's matches and the connection to the control socket are parameters. The theorems:
    the control command finds the socket of the launch with the same arguments; the
    gateway has the policy of the launch with the same arguments; an unknown command. *)

From stdpp Require Import base option list numbers strings gmap sets.
From Stdlib Require Import ZArith Lia Ascii String.
From S2P Require Import Prelude RustIo RustStr FsPath NetworkPolicy DnsProxy HttpRequest TcpGateway VmnetServiceIo Frontend HostOps Manifest Namespace.
From S2P Require Import RuntimeManifest Supervisor Launch CliText Config Appliance LaunchCli.

Local Open Scope string_scope.
Local Open Scope Z_scope.

Module Commands.
Import Policy FsPath Frontend RuntimeManifest CliText Config LaunchCli.

(** ** Which command *)

(** What is run, with its arguments. *)
Inductive command_run :=
| RunPrepare (args : list string)
| RunLaunch (args : list string)
| RunControl (args : list string)
| RunVmnetGateway (args : list string)
| RunPayloadClient (args : list string)
| RunWrapper (args : list string)
| PrintUsage
| UnknownCommand (command : string).

Definition is_agentvm_program (program : string) : bool := bool_decide (file_name program = Some "agentvm").

Definition run (args : list string) : command_run :=
  match args with
  | [] => PrintUsage
  | command :: rest =>
      if bool_decide (command = "payload-client") then UnknownCommand "payload-client"
      else if bool_decide (command = "self-test") then UnknownCommand "self-test"
      else if bool_decide (command = "prepare") then RunPrepare rest
      else if bool_decide (command = "launch") then UnknownCommand "launch"
      else if bool_decide (command ∈ ["-h"; "--help"]) then PrintUsage
      else UnknownCommand command
  end.

Definition run_async (args : list string) : command_run :=
  match args with
  | [] => run args
  | command :: rest =>
      if bool_decide (command = "launch") then RunLaunch rest
      else if bool_decide (command = "control") then RunControl rest
      else if bool_decide (command = "vmnet-gateway") then RunVmnetGateway rest
      else if bool_decide (command = "payload-client") then RunPayloadClient rest
      else run args
  end.

Definition async_commands : list string := ["launch"; "control"; "vmnet-gateway"; "payload-client"].

(** [run_cli_async], without the feature of the self test. *)
Definition run_cli_async (argv : list string) : command_run :=
  let program := default "agentvm" (head argv) in
  let args := tail argv in
  if is_agentvm_program program then
    match args with
    | [] => RunWrapper args
    | command :: _ =>
        if bool_decide (command = "prepare") then run args
        else if bool_decide (command = "self-test") then UnknownCommand "self-test"
        else if bool_decide (command ∈ async_commands) then run_async args
        else RunWrapper args
    end
  else
    match args with
    | [] => run args
    | command :: _ =>
        if bool_decide (command ∈ async_commands) then run_async args
        else if bool_decide (command ∈ ["prepare"; "-h"; "--help"]) then run args
        else UnknownCommand command
    end.

Inductive Level := ERROR | WARN | INFO | DEBUG | TRACE.

(** [str::trim] of text that is UTF-8. *)
Definition parse_trace_level (level : string) : option Level :=
  let l := to_ascii_lowercase (trimmed (Http.from_utf8_lossy (list_byte_of_string level))) in
  if bool_decide (l = "error") then Some ERROR
  else if bool_decide (l ∈ ["warn"; "warning"]) then Some WARN
  else if bool_decide (l = "info") then Some INFO
  else if bool_decide (l = "debug") then Some DEBUG
  else if bool_decide (l = "trace") then Some TRACE
  else None.

(** ** The control command *)

Inductive ControlCliCommand := Status | Shutdown (reason : string).

Record ControlCliConfig := mkControl { cc_socket_path : string; cc_command : ControlCliCommand }.

(** The matches, with the subcommand and its matches. *)
Record ControlMatches := mkControlMatches { cm_args : ArgMatches; cm_subcommand : option (string * ArgMatches) }.

Section Control.
Context (current_dir : io_result string) (io_text : io_error -> string).

Definition control_command (sub : option (string * ArgMatches)) : result ControlCliCommand string :=
  match sub with
  | Some (name, m) =>
      if bool_decide (name = "status") then Ok Status
      else if bool_decide (name = "shutdown")
      then Ok (Shutdown (default "control client requested shutdown" (get_one m "reason")))
      else Err "control command must be status or shutdown"
  | None => Err "control command must be status or shutdown"
  end.

Definition control_cli_config_from_args (clap : list string -> result ControlMatches string) (args : list string)
  : result ControlCliConfig string :=
  let? m := clap ("control" :: args) in
  let project := default "." (get_one (cm_args m) "project") in
  let run_dir := default ".sandbox/docker-vm/run" (get_one (cm_args m) "run_dir") in
  let? project := if negb (is_absolute project) then absolute_cli_path current_dir io_text project else Ok project in
  let run_dir := if negb (is_absolute run_dir) then path_join project run_dir else run_dir in
  let socket := default (Supervisor.control_socket_path (RuntimePaths_under run_dir)) (get_one (cm_args m) "socket") in
  let? command := control_command (cm_subcommand m) in
  Ok (mkControl socket command).

End Control.

Inductive ControlError := SupervisorControl (source : Supervisor.SupervisorControlIoError) | SupervisorControlJson (source : string).

Section RunControl.
Context `{Supervisor.ControlJson} {C : Type} `{Read C} `{Write C}.
(** The socket, its half close, and [to_string_pretty] of a snapshot. *)
Context (connect : string -> io_result C) (shutdown_stream : C -> io_result unit * C)
  (pretty : Supervisor.SupervisorControlSnapshot -> result string string).

(** [control_client_request], on a new connection. *)
Definition request_at (socket_path : string) (request : Supervisor.SupervisorControlRequest)
  : exec (result Supervisor.SupervisorControlResponse Supervisor.SupervisorControlIoError) :=
  match connect socket_path with
  | Err e => Ret (Err (Supervisor.ControlIo e))
  | Ok stream => let! (r, _) := Supervisor.control_client_request shutdown_stream stream request in Ret r
  end.

Definition newline : string := String "010" "".

Definition run_control_command_async (c : ControlCliConfig) : exec (result string ControlError) :=
  match cc_command c with
  | Status =>
      let! r := request_at (cc_socket_path c) Supervisor.StatusSnapshot in
      Ret (let? snapshot := map_err SupervisorControl (let? response := r in Supervisor.snapshot_of response) in
           let? json := map_err SupervisorControlJson (pretty snapshot) in
           Ok (json ++ newline))
  | Shutdown reason =>
      let! r := request_at (cc_socket_path c) (Supervisor.RequestShutdown reason) in
      Ret (let? _ := map_err SupervisorControl (let? response := r in Supervisor.ack_of response) in
           Ok ("shutdown requested" ++ newline))
  end.

End RunControl.

(** ** Preparing a launch *)

Inductive PrepareError := PrepareLaunch (source : LaunchCliError) | Prepare (source : Launch.LaunchError).

Section PrepareCommand.
Context {G : Type} `{LaunchFs G} `{LaunchJson} `{Ipv4NetOps} (home : option string).
Context (load : string -> string -> string -> string -> result FrontendConfig Launch.LaunchError)
  (fresh : string -> result unit Appliance.ApplianceError).

(** [prepare]: the line that is printed. [request] is what the arguments ask for. *)
Definition run_prepare (request : result FrontendLaunchRequest LaunchCliError) (g : G) : exec (result string PrepareError * G) :=
  match (let? r := request in frontend_config_from_launch_request load fresh r) with
  | Err e => Ret (Err (PrepareLaunch e), g)
  | Ok (config, policy_args) =>
      match runtime_mounts home config policy_args g with
      | (Err e, g) => Ret (Err (PrepareLaunch e), g)
      | (Ok mounts, g) =>
          let! policy := policy_from_args (network config) policy_args in
          Ret match policy with
              | Err e => (Err (PrepareLaunch e), g)
              | Ok policy =>
                  let '(prep, g) := Launch.prepare_frontend_launch_with_policy config mounts policy g in
                  (let? prep := map_err Prepare prep in Ok (join " " (Launch.qemu_command prep)), g)
              end
      end
  end.

End PrepareCommand.

(** ** The gateway by itself *)

Inductive VmnetCliError :=
| ClapErr (message : string)
| MissingSocket
| InvalidNoNetPolicy (message : string)
| InvalidAllowIp (source : Ipv4RangeParseError).

(** The matches whose values clap has parsed: the prefix length and pairs of ports. *)
Record GatewayMatches := mkGatewayMatches {
  gm_args : ArgMatches; gm_prefix_len : option Z; gm_ports : string -> option (list PortPair) }.

Definition gateway_network (m : GatewayMatches) : GuestNetwork :=
  let n := GuestNetwork_default in
  let arg := get_one (gm_args m) in
  {| guest_ip := default (guest_ip n) (arg "guest_ip");
     gateway_ip := default (gateway_ip n) (arg "gateway_ip");
     prefix_len := default (prefix_len n) (gm_prefix_len m);
     dns_ip := default (dns_ip n) (arg "dns_ip");
     guest_mac := default (guest_mac n) (arg "guest_mac");
     vmnet_reconnect_ms := vmnet_reconnect_ms n |}.

Definition gateway_listeners (m : GatewayMatches) : list HostListener :=
  let ports id := default [] (gm_ports m id) in
  (map (fun p => docker_api (host p) (guest p)) (ports "host_docker_listener") ++
   map (fun p => payload_control (host p) (guest p)) (ports "host_payload_listener") ++
   map (fun p => published_tcp (host p) (guest p)) (ports "publish"))%list.

Section Gateway.
Context `{Ipv4NetOps} (cli_text : LaunchCliError -> string).

Definition VmnetRuntimeConfig_new (socket : string) (network : GuestNetwork) (policy : VmnetPolicy) : VmnetRuntimeConfig :=
  mkVmnetConfig socket None [] network policy DEFAULT_UPSTREAM_CONNECT_TIMEOUT DEFAULT_VMNET_IDLE_SLEEP
    ServiceIo.IoLimits_default.

Definition vmnet_gateway_config_from_args (clap : list string -> result GatewayMatches string) (args : list string)
  : exec (result VmnetRuntimeConfig VmnetCliError) :=
  let!? m := Ret (map_err ClapErr (clap ("vmnet-gateway" :: args))) in
  let!? socket := Ret (ok_or (get_one (gm_args m) "socket") MissingSocket) in
  let network := gateway_network m in
  let allow_ips := append_many (gm_args m) "allow_ip" in
  let allow_domains := append_many (gm_args m) "allow_domain" in
  let allow_public := get_flag (gm_args m) "allow_public_internet" in
  let no_net := get_flag (gm_args m) "no_net" in
  let listeners := gateway_listeners m in
  let pcap := get_one (gm_args m) "pcap" in
  let!? _ := Ret (map_err (fun e => InvalidNoNetPolicy (cli_text e))
                    (validate_no_net_args no_net allow_public allow_ips allow_domains listeners)) in
  let! p := default_sandbox network in
  let! ranges := parse_ipv4_ranges allow_ips in
  let!? ranges := Ret (map_err InvalidAllowIp ranges) in
  let e := egress p in
  let '(action, reason) :=
    if allow_public then (AllowPublicInternet, ExplicitAllowProfile)
    else if no_net then (Deny, NoNetFlag)
    else (default_action e, reason e) in
  Ret (Ok (VmnetRuntimeConfig_new socket network
    (mkPolicy (assignment p) (mtu p) (mkEgress action reason allow_domains ranges (deny_ip_ranges e)) (protocols p) listeners
       (mkCapturePolicy pcap (bool_decide (is_Some pcap)))
       (mkTlsMitmPolicy (get_one (gm_args m) "tls_ca_cert") (get_one (gm_args m) "tls_ca_key")
          (get_flag (gm_args m) "tls_generate_per_host_certs"))))).

End Gateway.

(** ** Facts *)

(** The program under its own name knows every command but the self test; under another
    name the first argument has to be a command. *)
Lemma unknown_commands argv c :
  run_cli_async argv = UnknownCommand c ->
  argv !! 1%nat = Some c /\
  (is_agentvm_program (default "agentvm" (head argv)) = true -> c = "self-test") /\
  c ∉ "prepare" :: async_commands.
Proof.
  unfold run_cli_async. destruct argv as [|program [|command rest]]; cbn [head tail default].
  - by vm_compute.
  - cbn. by destruct (is_agentvm_program program).
  - cbn [head tail from_option id]. unfold run_async, run. intros Hc.
    destruct (is_agentvm_program program); repeat (case_bool_decide; simplify_eq);
      unfold async_commands in *; rewrite ?elem_of_cons, ?elem_of_nil in *; naive_solver.
Qed.

(** The matches of a gateway and those of a launch for the same options: the same
    addresses, domains, flags and paths, and ports that clap has parsed from the
    values the launch parses itself. *)
Record same_options (m : GatewayMatches) (m' : ArgMatches) : Prop := {
  same_many id : id ∈ ["allow_ip"; "allow_domain"] -> get_many (gm_args m) id = get_many m' id;
  same_flag id : id ∈ ["allow_public_internet"; "no_net"; "tls_generate_per_host_certs"] ->
    get_flag (gm_args m) id = get_flag m' id;
  same_one id : id ∈ ["pcap"; "tls_ca_cert"; "tls_ca_key"] -> get_one (gm_args m) id = get_one m' id;
  same_ports id : id ∈ ["host_docker_listener"; "host_payload_listener"; "publish"] ->
    Forall2 (fun value pair => PortPair_from_str value = Ok pair) (append_many m' id) (default [] (gm_ports m id))
}.

Lemma listeners_parsed make values pairs ls :
  Forall2 (fun value pair => PortPair_from_str value = Ok pair) values pairs ->
  try_map (listener_arg make) values = Ok ls -> ls = map (fun p => make (host p) (guest p)) pairs.
Proof.
  intros Hp. revert ls. induction Hp as [|v p values pairs Hv _ IH]; intros ls; cbn; [by intros [= <-]|].
  unfold PortPair_from_str in Hv. unfold listener_arg at 1. destruct (parse_port_pair v) as [[h g]|]; [|done].
  cbn in Hv |- *. injection Hv as <-. destruct (try_map _ values) as [ls'|] eqn:E; [|done]. cbn.
  intros [= <-]. by rewrite (IH ls').
Qed.

Section GatewayFacts.
Context `{Ipv4NetOps} (cli_text : LaunchCliError -> string).
Context (current_dir : io_result string) (io_text : io_error -> string) (terminal : Z * Z) (manifest : string).

(** What the launch's reading of the options has in common with the gateway's. *)
Lemma launch_options m m' r :
  same_options m m' -> request_from_matches current_dir io_text terminal manifest m' = Ok r ->
  let p := fr_policy r in
  validate_launch_policy_args p = Ok tt /\
  pa_allow_ips p = append_many (gm_args m) "allow_ip" /\ pa_allow_domains p = append_many (gm_args m) "allow_domain" /\
  pa_allow_public p = get_flag (gm_args m) "allow_public_internet" /\ pa_no_net p = get_flag (gm_args m) "no_net" /\
  pa_host_listeners p = gateway_listeners m /\ pa_pcap_path p = get_one (gm_args m) "pcap" /\
  pa_tls_ca_cert p = get_one (gm_args m) "tls_ca_cert" /\ pa_tls_ca_key p = get_one (gm_args m) "tls_ca_key" /\
  pa_tls_generate_per_host_certs p = get_flag (gm_args m) "tls_generate_per_host_certs".
Proof.
  intros [Hmany Hflag Hone Hports]. unfold request_from_matches.
  repeat match goal with |- context [result_bind ?x _] =>
    destruct x as [?|] eqn:?; cbn [result_bind]; [|done]
  end.
  injection 1 as <-. cbn [fr_policy pa_allow_ips pa_allow_domains pa_allow_public pa_no_net pa_host_listeners pa_pcap_path
    pa_tls_ca_cert pa_tls_ca_key pa_tls_generate_per_host_certs].
  split; [by match goal with E : validate_launch_policy_args _ = Ok ?u |- _ => destruct u; exact E end|].
  unfold append_many. rewrite !Hmany, !Hflag, !Hone by set_solver. split_and!; try done. unfold gateway_listeners.
  repeat match goal with E : try_map (listener_arg _) (append_many m' ?id) = Ok _ |- _ =>
    eapply listeners_parsed in E; [|apply Hports; set_solver]; rewrite E; clear E
  end. done.
Qed.

(** C28 (equivalence). A gateway that runs by itself applies the policy a launch with the
    same options would apply, on the network that its own options give: when the launch
    accepts its command line, the gateway starts exactly when it has a socket and the
    launch can compute its policy from the options, and it runs with that policy; and each
    field of the network is the option's value, or the default. *)
Theorem gateway_policy_as_launch clap args m m' r c :
  clap ("vmnet-gateway" :: args) = Ok m -> same_options m m' ->
  request_from_matches current_dir io_text terminal manifest m' = Ok r ->
  vmnet_gateway_config_from_args cli_text clap args = Ret (Ok c) <->
  exists socket network policy, get_one (gm_args m) "socket" = Some socket /\
    guest_ip network = default (guest_ip GuestNetwork_default) (get_one (gm_args m) "guest_ip") /\
    gateway_ip network = default (gateway_ip GuestNetwork_default) (get_one (gm_args m) "gateway_ip") /\
    dns_ip network = default (dns_ip GuestNetwork_default) (get_one (gm_args m) "dns_ip") /\
    guest_mac network = default (guest_mac GuestNetwork_default) (get_one (gm_args m) "guest_mac") /\
    prefix_len network = default (prefix_len GuestNetwork_default) (gm_prefix_len m) /\
    vmnet_reconnect_ms network = vmnet_reconnect_ms GuestNetwork_default /\
    policy_from_args network (fr_policy r) = Ret (Ok policy) /\
    c = VmnetRuntimeConfig_new socket network policy.
Proof.
  intros Hm Hs Hr. destruct (launch_options m m' r Hs Hr) as (Hv & E1 & E2 & E3 & E4 & E5 & E6 & E7 & E8 & E9).
  unfold validate_launch_policy_args in Hv. rewrite E1, E2, E3, E4, E5 in Hv.
  unfold vmnet_gateway_config_from_args, policy_from_args. rewrite Hm, E1, E2, E3, E4, E5, E6, E7, E8, E9.
  cbn [map_err try_bind].
  destruct (get_one (gm_args m) "socket") as [socket|]; cbn [ok_or try_bind]; [|naive_solver].
  destruct (validate_no_net_args _ _ _ _ _) as [[]|]; cbn [map_err try_bind result_bind]; [|done].
  split.
  - intros Hc. exists socket, (gateway_network m).
    destruct (default_sandbox (gateway_network m)) as [p|]; [|done]. cbn [exec_bind] in *.
    destruct (parse_ipv4_ranges _) as [[ranges|]|]; [|done..]. cbn [exec_bind map_err try_bind result_bind] in *.
    destruct (get_flag (gm_args m) "allow_public_internet"), (get_flag (gm_args m) "no_net");
      injection Hc as <-; eexists; split_and!; done.
  - intros (socket' & network & policy & [= <-] & N1 & N2 & N3 & N4 & N5 & N6 & Hp & ->).
    assert (network = gateway_network m) as ->.
    { destruct network. cbn in *. subst. done. }
    destruct (default_sandbox (gateway_network m)) as [p|]; [|done]. cbn [exec_bind] in *.
    destruct (parse_ipv4_ranges _) as [[ranges|]|]; [|done..]. cbn [exec_bind map_err try_bind result_bind] in *.
    destruct (get_flag (gm_args m) "allow_public_internet"), (get_flag (gm_args m) "no_net"); by injection Hp as <-.
Qed.

End GatewayFacts.

Section ControlFacts.
Context (current_dir : io_result string) (io_text : io_error -> string) (terminal : Z * Z) (manifest : string).

Lemma request_dirs m r :
  request_from_matches current_dir io_text terminal manifest m = Ok r ->
  let project := default "." (get_one m "project") in
  let run_dir := default ".sandbox/docker-vm/run" (get_one m "run_dir") in
  exists p, (if negb (is_absolute project) then cli_path current_dir io_text project else Ok project) = Ok p /\
    fr_run_dir r = if negb (is_absolute run_dir) then path_join p run_dir else run_dir.
Proof.
  unfold request_from_matches.
  repeat match goal with |- context [result_bind ?x _] =>
    destruct x as [?|] eqn:?; cbn [result_bind]; [|done]
  end.
  injection 1 as <-. by eexists.
Qed.

Lemma config_runtime exists_ text from_str fresh r c policy :
  frontend_config_from_launch_request
    (Launch.from_artifact_manifest_file current_dir exists_ io_text text from_str) fresh r = Ok (c, policy) ->
  runtime c = RuntimePaths_under (fr_run_dir r).
Proof.
  unfold frontend_config_from_launch_request, Launch.from_artifact_manifest_file, Launch.into_frontend_config.
  destruct text as [t|]; [|done]. destruct (from_str t) as [am|]; [|done]. cbn [map_err result_bind].
  destruct (Launch.absolute_path _ _); [|done]. cbn [map_err result_bind].
  do 3 (destruct (Launch.resolve_artifact _ _ _); cbn [map_err result_bind]; [|done]).
  destruct (validate_launch_policy_args _); [|done]. cbn [result_bind].
  destruct (match guest_http_smoke_url _ with Some _ => _ | None => _ end); [|done]. cbn [result_bind].
  by injection 1 as <- _.
Qed.

(** The control command finds the running launch: with the same project
    and run directory on its command line as the launch, and no socket given, it
    connects to the socket the launch serves. *)
Theorem control_finds_launch clap args m command m' request exists_ text from_str fresh c policy :
  clap ("control" :: args) = Ok m -> get_one (cm_args m) "socket" = None ->
  control_command (cm_subcommand m) = Ok command ->
  get_one (cm_args m) "project" = get_one m' "project" -> get_one (cm_args m) "run_dir" = get_one m' "run_dir" ->
  request_from_matches current_dir io_text terminal manifest m' = Ok request ->
  frontend_config_from_launch_request
    (Launch.from_artifact_manifest_file current_dir exists_ io_text text from_str) fresh request = Ok (c, policy) ->
  control_cli_config_from_args current_dir io_text clap args =
    Ok (mkControl (Supervisor.control_socket_path (runtime c)) command).
Proof.
  intros Hm Hs Hcmd Hp Hr Hreq Hc. unfold control_cli_config_from_args. rewrite Hm. cbn [result_bind]. rewrite Hs, Hcmd, Hp, Hr.
  apply request_dirs in Hreq as (project & Hproject & Hdir).
  assert (runtime c = RuntimePaths_under (fr_run_dir request)) as -> by by eapply config_runtime.
  cbn [default] in *. unfold cli_path in Hproject.
  destruct (negb (is_absolute (default "." (get_one m' "project")))).
  - destruct (absolute_cli_path _ _ _) as [p|]; [|done]. injection Hproject as ->. cbn. by rewrite Hdir.
  - injection Hproject as ->. cbn. by rewrite Hdir.
Qed.

End ControlFacts.

(** ** Witnesses *)

Definition demo_matches (id value : string) : ArgMatches :=
  mkMatches (fun i => if bool_decide (i = id) then Some value else None) (fun _ => None) (fun i => bool_decide (i = "no_net")).

(** A gateway that allows one address and publishes a port, and the launch with the same options. *)
Definition demo_shared : ArgMatches :=
  mkMatches (fun i => if bool_decide (i = "socket") then Some "/run/vmnet.sock"
                      else if bool_decide (i = "dns_ip") then Some "10.0.2.9" else None)
    (fun i => if bool_decide (i = "allow_ip") then Some ["192.0.2.1"]
              else if bool_decide (i = "publish") then Some ["8080:80"] else None) (fun _ => false).

Definition demo_gateway : GatewayMatches :=
  mkGatewayMatches demo_shared (Some 16) (fun i => if bool_decide (i = "publish") then Some [mkPortPair 8080 80] else None).

Lemma demo_same : same_options demo_gateway demo_shared.
Proof.
  split; try done. intros id Hid. cbn [gm_ports demo_gateway]. unfold append_many, demo_shared. cbn [get_many].
  repeat (apply elem_of_cons in Hid as [->|Hid]); [repeat constructor..|by apply elem_of_nil in Hid].
Qed.

Lemma gateway_policy_as_launch_witness :
  exists c, vmnet_gateway_config_from_args (fun _ => "") (fun _ => Ok demo_gateway) [] = Ret (Ok c) /\
    dns_ip (vc_network c) = "10.0.2.9" /\ host_listeners (vc_policy c) = [published_tcp 8080 80] /\
    exists r, request_from_matches (Ok "/w") (fun _ => "") (24, 80) "/r/docker/out/m.json" demo_shared = Ok r /\
      policy_from_args (vc_network c) (fr_policy r) = Ret (Ok (vc_policy c)).
Proof.
  destruct (returns_ok_inv (vmnet_gateway_config_from_args (fun _ => "") (fun _ => Ok demo_gateway) [])) as [c E];
    [vm_compute; reflexivity|].
  assert (exists r, request_from_matches (Ok "/w") (fun _ => "") (24, 80) "/r/docker/out/m.json" demo_shared = Ok r) as [r Hr]
    by (eexists; vm_compute; reflexivity).
  exists c. split; [exact E|].
  destruct (proj1 (gateway_policy_as_launch (fun _ => "") (Ok "/w") (fun _ => "") (24, 80) "/r/docker/out/m.json"
    (fun _ => Ok demo_gateway) [] demo_gateway demo_shared r c eq_refl demo_same Hr) E) as
    (socket & network & policy & _ & _ & _ & Hd & _ & _ & _ & Hp & ->).
  split; [exact Hd|]. split; [|exists r; split; [exact Hr|exact Hp]].
  cbn [vc_policy VmnetRuntimeConfig_new]. vm_compute in Hr. injection Hr as <-. unfold policy_from_args in Hp.
  destruct (default_sandbox network); [|done]. cbn [exec_bind] in Hp.
  destruct (parse_ipv4_ranges _) as [[ranges|]|]; [|done..]. cbn in Hp. by injection Hp as <-.
Defined.

Definition demo_control : ControlMatches := mkControlMatches (demo_matches "run_dir" "run") (Some ("status", demo_matches "" "")).

Definition demo_request : result FrontendLaunchRequest LaunchCliError :=
  request_from_matches (Ok "/w") (fun _ => "") (24, 80) "/r/docker/out/m.json" (demo_matches "run_dir" "run").

Definition demo_load : string -> string -> string -> string -> result FrontendConfig Launch.LaunchError :=
  Launch.from_artifact_manifest_file (Ok "/w") (fun _ => true) (fun _ => "") (Ok "{}")
    (fun _ => Ok (Launch.mkArtifactManifest "/k" "/i" "/r" 1 1024 "agentvm" "")).

Example control_finds_launch_example :
  exists request c policy, demo_request = Ok request /\
    frontend_config_from_launch_request demo_load (fun _ => Ok tt) request = Ok (c, policy) /\
    control_cli_config_from_args (Ok "/w") (fun _ => "") (fun _ => Ok demo_control) [] =
      Ok (mkControl (Supervisor.control_socket_path (runtime c)) Status) /\
    Supervisor.control_socket_path (runtime c) = "/w/./run/agentvm-control.sock".
Proof.
  eexists _, _, _. split; [reflexivity|]. split; [vm_compute; reflexivity|]. split; [|vm_compute; reflexivity].
  eapply (control_finds_launch (Ok "/w") (fun _ => "") (24, 80) "/r/docker/out/m.json" (fun _ => Ok demo_control) []
    demo_control Status (demo_matches "run_dir" "run") _ (fun _ => true) (Ok "{}")
    (fun _ => Ok (Launch.mkArtifactManifest "/k" "/i" "/r" 1 1024 "agentvm" "")) (fun _ => Ok tt));
    [reflexivity..|vm_compute; reflexivity].
Defined.

End Commands.
