(* ===== verification/LaunchSetup.v ===== *)
(** What a launch request is run with (src/vm-frontend/src/launch_cli.rs,
    run_launch_request_async and run_payload_launch_request_async up to the start of the
    frontend), and the launch without a payload.

    The lock is a parameter, whose steps are those of ProjectLock; a bound port and a
    spawned thread are given by what the calls return. The theorem joins the command line
    of the wrapper to the gateway: under [--no-net] whatever is run has a policy that
    denies everything. *)

From stdpp Require Import base option list numbers strings gmap sets.
From Stdlib Require Import ZArith Lia Ascii String.
From S2P Require Import Prelude RustIo RustStr FsPath NetworkPolicy DnsProxy HttpRequest TcpGateway Frontend HostOps Manifest Namespace.
From S2P Require Import PayloadProtocol PayloadMessages PayloadClient RuntimeManifest Launch CliText Config Appliance LaunchCli.
From S2P Require Import TlsBootstrap Wrapper LaunchRun Tui WrapperLaunch.

Local Open Scope string_scope.
Local Open Scope Z_scope.

Module LaunchSetup.
Import Policy FsPath Frontend RuntimeManifest CliText Config LaunchCli Wrapper.

Definition LOCALHOST : Ipv4Addr := Ipv4 Byte.x7f Byte.x00 Byte.x00 Byte.x01.

(** The listener with its [local_addr], and the spawn of its thread. *)
Definition start_local_http_smoke_upstream (bound : io_result (io_result Z)) (spawned : io_result unit)
  (destination : Ipv4Addr * Z) : result Tcp.UpstreamMapping LaunchCliError :=
  let? local_addr := map_err BindLocalHttpSmokeUpstream bound in
  let? host_port := map_err LocalHttpSmokeUpstreamAddr local_addr in
  let? _ := map_err SpawnLocalHttpSmokeUpstream spawned in
  Ok (Tcp.mkMapping (fst destination) (snd destination) LOCALHOST host_port).

Definition push_mapping (m : Tcp.UpstreamMapping) (c : FrontendConfig) : FrontendConfig :=
  mkFrontend (project c) (qemu_system_x86_64 c) (artifacts c) (runtime c) (vm c) (network c) (guest_http_smoke_url c)
    (guest_log_dir c) (upstream_mappings c ++ [m])%list.

Section Setup.
Context {G : Type} `{LaunchFs G} `{Ipv4NetOps} `{Values}.
(** The configuration of a request and the lock of the project. *)
Context (load : string -> string -> string -> string -> result FrontendConfig Launch.LaunchError)
  (fresh : string -> result unit Appliance.ApplianceError)
  (lock : FrontendConfig -> G -> result unit LaunchCliError * G).
(** The environment of the host, as LaunchCli has it. *)
Context (home : option string) (var : string -> option string) (euid egid : Z)
  (run : list string -> io_result Output) (io_text : io_error -> string)
  (from_slice : list byte -> result value string).
(** The ports and the thread. *)
Context (smoke_bound : io_result (io_result Z)) (smoke_spawned : io_result unit) (payload_bound : io_result (io_result Z)).

(** A payload, its environment and the port it is reached at. *)
Record payload_inputs := mkPayloadInputs {
  pi_payload : PayloadLaunchArgs; pi_env : gmap string string; pi_listener : PayloadListenerReservation }.

(** What the frontend is started with. *)
Record launch_inputs := mkInputs {
  li_config : FrontendConfig; li_mounts : list RuntimeMount; li_policy : VmnetPolicy; li_qemu_timeout : option Z;
  li_payload : option payload_inputs }.

Definition with_smoke_upstream (p : PolicyArgs) (c : FrontendConfig) : result FrontendConfig LaunchCliError :=
  match pa_local_http_smoke_upstream p with
  | None => Ok c
  | Some destination =>
      let? m := start_local_http_smoke_upstream smoke_bound smoke_spawned destination in Ok (push_mapping m c)
  end.

(** The environment of a payload is read between the mounts and the policy. *)
Definition payload_env (payload : option PayloadLaunchArgs) (p : PolicyArgs)
  : result (option (PayloadLaunchArgs * gmap string string)) LaunchCliError :=
  match payload with
  | None => Ok None
  | Some payload =>
      let? env := guest_payload_env home var euid egid run io_text from_slice p in
      Ok (Some (payload, merged_payload_env env (pl_env payload)))
  end.

Definition with_payload_listener (payload : option (PayloadLaunchArgs * gmap string string)) (policy : VmnetPolicy)
  : result (option payload_inputs * VmnetPolicy) LaunchCliError :=
  match payload with
  | None => Ok (None, policy)
  | Some (payload, env) =>
      let? (listener, policy) := ensure_payload_listener payload_bound policy in
      Ok (Some (mkPayloadInputs payload env listener), policy)
  end.

(** [run_launch_request_async] and [run_payload_launch_request_async], up to the start. *)
Definition launch_setup (request : FrontendLaunchRequest) (g : G) : exec (result launch_inputs LaunchCliError * G) :=
  match frontend_config_from_launch_request load fresh request with
  | Err e => Ret (Err e, g)
  | Ok (config, args) =>
      let payload := launch_payload_args config args in
      match lock config g with
      | (Err e, g) => Ret (Err e, g)
      | (Ok _, g) =>
          match runtime_mounts home config args g with
          | (Err e, g) => Ret (Err e, g)
          | (Ok mounts, g) =>
              match payload_env payload args with
              | Err e => Ret (Err e, g)
              | Ok payload =>
                  let! policy := policy_from_args (network config) args in
                  Ret (let? policy := policy in
                       let? config := with_smoke_upstream args config in
                       let? (payload, policy) := with_payload_listener payload policy in
                       Ok (mkInputs config mounts policy (pa_qemu_timeout args) payload), g)
              end
          end
      end
  end.

End Setup.

(** The launch without a payload, with what running the frontend gave. *)
Definition run_without_payload `{Ipv4NetOps} (launch_text : Launch.LaunchError -> string)
  (status_text : Launch.ExitStatus -> string) (inputs : launch_inputs)
  (ran : result Launch.QemuExit Launch.LaunchError) : result unit LaunchCliError :=
  let artifacts := LaunchRun.frontend_artifact_summary (li_config inputs) in
  let? exit := map_err (fun e => Message ("launch failed: " ++ launch_text e ++ LaunchRun.newline ++ artifacts)) ran in
  LaunchRun.handle_qemu_exit status_text artifacts exit (li_qemu_timeout inputs).

(** ** Facts *)

(** Nothing is let through: no destination, no domain and no published port. *)
Definition closed_network `{Ipv4NetOps} (policy : VmnetPolicy) : Prop :=
  (forall d, Tcp.action (Tcp.evaluate_tcp_destination policy d) = Tcp.TcpDeny) /\
  (forall domain, Dns.domain_allowed policy domain = false) /\
  Forall (fun l => purpose l <> PublishedTcp) (host_listeners policy).

Section Facts.
Context {G : Type} `{LaunchFs G} `{Ipv4NetLaws} `{Values}.

(** The listener of the payload does not open the network. *)
Lemma payload_listener_closed bound policy r policy' :
  ensure_payload_listener bound policy = Ok (r, policy') -> closed_network policy -> closed_network policy'.
Proof.
  unfold ensure_payload_listener. destruct (List.find _ _); [by intros [= _ <-]|].
  destruct bound as [[port|]|]; [|done..]. cbn. intros [= _ <-] (Ht & Hd & Hl). split_and!; [exact Ht|exact Hd|].
  cbn. apply Forall_app. split; [exact Hl|]. by repeat constructor.
Qed.

Lemma with_payload_listener_closed bound payload policy r policy' :
  with_payload_listener bound payload policy = Ok (r, policy') -> closed_network policy -> closed_network policy'.
Proof.
  destruct payload as [[payload env]|]; cbn; [|by intros [= _ <-]].
  destruct (ensure_payload_listener bound policy) as [[l p]|] eqn:E; [|done]. cbn. intros [= _ <-].
  by eapply payload_listener_closed.
Qed.

Lemma config_from_request_ok load fresh request c args :
  frontend_config_from_launch_request load fresh request = Ok (c, args) ->
  args = fr_policy request /\ validate_launch_policy_args args = Ok tt.
Proof.
  unfold frontend_config_from_launch_request. destruct (load _ _ _ _) as [c0|]; [|done]. cbn [map_err result_bind].
  destruct (validate_launch_policy_args _) as [[]|] eqn:Ev; [|done]. cbn [result_bind].
  destruct (match guest_http_smoke_url _ with Some _ => _ | None => _ end); [|done]. by injection 1 as <- <-.
Qed.

Lemma launch_setup_no_net load fresh lock home var euid egid run io_text from_slice sb ss pb request (g g' : G) inputs :
  pa_no_net (fr_policy request) = true ->
  launch_setup load fresh lock home var euid egid run io_text from_slice sb ss pb request g = Ret (Ok inputs, g') ->
  closed_network (li_policy inputs).
Proof.
  intros Hn. unfold launch_setup.
  destruct (frontend_config_from_launch_request _ _ _) as [[c args]|] eqn:Ec; [|done].
  apply config_from_request_ok in Ec as [-> Hv]. destruct (lock c g) as [[[]|] g1]; [|done].
  destruct (runtime_mounts home c _ g1) as [[mounts|] g2]; [|done].
  destruct (payload_env _ _ _ _ _ _ _ _ _) as [payload|]; [|done].
  destruct (policy_from_args _ _) as [[policy|]|] eqn:Ep; [|done..]. cbn [exec_bind result_bind].
  destruct (with_smoke_upstream _ _ _ c) as [c'|]; [|done]. cbn [result_bind].
  destruct (with_payload_listener pb payload policy) as [[pi policy']|] eqn:Ew; [|done]. cbn [result_bind].
  intros [= <- _]. cbn. eapply with_payload_listener_closed; [exact Ew|].
  by eapply no_net_policy_denies.
Qed.

End Facts.

Section WrapperFacts.
Context {G : Type} `{TextFs G} `{TlsBootstrap.KeyFs G} `{TlsBootstrap.Rcgen} `{Ipv4NetLaws} `{Values} `{Shlex}.

(** What is launched has the network of the arguments. *)
Lemma prepared_network home reset_project parsed events (g g' : G) l ui :
  WrapperLaunch.prepare_wrapper_launch home reset_project parsed events g = Ret (Some (Ok (Some (l, ui)), g')) ->
  exists wa, parsed = Ret (Ok wa) /\ wa_reset wa = false /\ network_of (fr_policy l) = network_of (fr_policy (wa_launch wa)).
Proof.
  unfold WrapperLaunch.prepare_wrapper_launch. destruct parsed as [[wa|]|]; [|done..]. cbn [exec_bind].
  destruct (wa_help wa); [done|]. destruct (wa_reset wa) eqn:Er; [by destruct (reset_project _ _) as [[[]|]]|].
  destruct (WrapperLaunch.write_setup home _ _ g) as [[[]|] g1]; [|done]. destruct (wa_edit_config wa).
  { destruct (WrapperLaunch.edit_config home _ _ _) as [[[[[]|] ?]|]|]; done. }
  destruct (wa_tls_bootstrap wa); [|by intros [= <- _ _]; eauto].
  destruct (TlsBootstrap.ensure_wrapper_mitm_ca _ g1) as [[ca|] g2]; [|done]. cbn. intros [= <- _ _]. eauto.
Qed.

(** C12 (safety). [--no-net] on the command line holds through to the start of the
    gateway: whatever the project's configuration says, and whatever else the arguments
    do before, a launch of the wrapper that is started runs under a policy that denies
    every destination and every domain, with no port published. *)
Theorem no_net_run_denies current_dir terminal manifest read exists_ m command tty tty'
  load fresh lock home var euid egid run io_text from_slice sb ss pb reset_project events (g g1 g2 : G) l ui inputs :
  get_flag (wm_args m) "no_net" = true ->
  WrapperLaunch.prepare_wrapper_launch home reset_project
    (args_from_matches home current_dir io_text terminal manifest read exists_ m command tty tty') events g =
    Ret (Some (Ok (Some (l, ui)), g1)) ->
  launch_setup load fresh lock home var euid egid run io_text from_slice sb ss pb l g1 = Ret (Ok inputs, g2) ->
  closed_network (li_policy inputs).
Proof.
  intros Hn Hp Hs. apply prepared_network in Hp as (wa & Hw & Hr & Hnet).
  eapply launch_setup_no_net; [|exact Hs].
  assert (get_flag (wm_args m) "reset" = false) as Hreset.
  { destruct (get_flag (wm_args m) "reset") eqn:E; [|done]. by apply args_reset in Hw; [congruence|]. }
  destruct (no_net_flag_kept _ _ _ _ _ _ _ _ _ _ _ _ Hreset Hn Hw) as [Hno _].
  unfold network_of in Hnet. by injection Hnet as _ _ _ -> _.
Qed.

End WrapperFacts.

(** ** A witness *)

#[local] Existing Instances Wrapper.demo_values CliText.posix Config.text_files Config.text_files_laws
  TlsBootstrap.one_key WrapperLaunch.no_keys.

Definition demo_prepared : exec (option (result (option (FrontendLaunchRequest * WrapperUiMode)) WrapperError * gmap string (list byte))) :=
  WrapperLaunch.prepare_wrapper_launch (Some "/home/u") (fun _ g => (Ok tt, g))
    (args_from_matches (Some "/home/u") (Ok "/w") (fun _ => "") (24, 80) "/a/manifest.json" demo_read (fun _ => false)
       (demo_matches true) [] true true) [] ∅.

Definition demo_setup (l : FrontendLaunchRequest) (g : gmap string (list byte))
  : exec (result launch_inputs LaunchCliError * gmap string (list byte)) :=
  launch_setup (fun _ _ _ _ => Ok LaunchCli.demo_frontend) (fun _ => Ok tt) (fun _ g => (Ok tt, g)) (Some "/home/u")
    (fun _ => None) 1000 1000 (fun _ => Err (OsError 2)) (fun _ => "") (fun _ => Err "") (Ok (Ok 1)) (Ok tt) (Ok (Ok 40000)) l g.

(** Whether both succeed, one after the other. *)
Definition demo_runs : bool :=
  match demo_prepared with
  | Ret (Some (Ok (Some (l, _)), g)) => match demo_setup l g with Ret (Ok _, _) => true | _ => false end
  | _ => false
  end.

Lemma demo_runs_inv : demo_runs = true ->
  exists l ui g1 inputs g2, demo_prepared = Ret (Some (Ok (Some (l, ui)), g1)) /\ demo_setup l g1 = Ret (Ok inputs, g2).
Proof.
  unfold demo_runs. destruct demo_prepared as [[[[[[l ui]|]|] g1]|]|]; try done.
  destruct (demo_setup l g1) as [[[inputs|] g2]|] eqn:E; try done. intros _. by eexists _, _, _, _, _.
Qed.

Lemma no_net_run_denies_witness :
  exists l ui g1 inputs g2, demo_prepared = Ret (Some (Ok (Some (l, ui)), g1)) /\
    demo_setup l g1 = Ret (Ok inputs, g2) /\ closed_network (li_policy inputs).
Proof.
  destruct demo_runs_inv as (l & ui & g1 & inputs & g2 & Ep & Es); [vm_compute; reflexivity|].
  exists l, ui, g1, inputs, g2. split; [exact Ep|]. split; [exact Es|].
  apply (no_net_run_denies (Ok "/w") (24, 80) "/a/manifest.json" demo_read (fun _ => false) (demo_matches true) [] true true
    (fun _ _ _ _ => Ok LaunchCli.demo_frontend) (fun _ => Ok tt) (fun _ g => (Ok tt, g)) (Some "/home/u") (fun _ => None)
    1000 1000 (fun _ => Err (OsError 2)) (fun _ => "") (fun _ => Err "") (Ok (Ok 1)) (Ok tt) (Ok (Ok 40000))
    (fun _ g => (Ok tt, g)) [] ∅ g1 g2 l ui inputs); [reflexivity|exact Ep|exact Es].
Defined.

End LaunchSetup.
